(* ===== verification/_CoqProject ===== *)
-Q . S2P
Prelude.v
RustStr.v
BTree.v
Json.v
TextUtils.v
Execution.v
LeaseRoute.v
LeaseStore.v
LeaseSafety.v
LeaseLock.v
LeaseQueue.v
SessionPool.v
Admission.v
RateLimit.v
McpProtocol.v
HttpBoundary.v
HttpSession.v
ProxyUri.v
ServerRegistry.v
ServerConfig.v
TaskPool.v
ToolPolicy.v
ToolAudit.v
ToolCache.v
ToolFlight.v
LeaseRuntime.v
CallDiscipline.v
ToolNames.v
SortBy.v
ToolView.v
ToolExposure.v
ExposureSafety.v
ServerModel.v
ToolSearch.v
RoutePlan.v
PolicyAudit.v
CatalogProjection.v
HttpUpstream.v
HttpProbe.v
Diagnostics.v
HttpFlow.v
Prompts.v
ToolResult.v
HttpTools.v
ToolRuntime.v
McpEndpoint.v
HttpReply.v
HttpServer.v
HttpActions.v
HttpRoutes.v
ClientPaths.v
ClientContext.v
ClientPlan.v
ClientRoutes.v
SourceSignals.v
SourcePolicy.v
ServerLoader.v
StdioSurface.v
StdioTools.v
StdioServer.v
HubRuntime.v
HubStatus.v
HubLifecycle.v
RestartGuard.v
Telemetry.v
