(* ===== verification/Prelude.v ===== *)
(** * MCPace: a verification library of the local MCP process scheduler

    MCPace is one local endpoint between AI clients and many MCP servers.  A client's
    request enters over HTTP or standard input, is admitted, rate limited and matched with
    its session; a tool call then takes a lease on its route (so that a server that cannot
    be shared is used by one caller at a time), queues for it if need be, checks a worker
    process out of the pool under an affinity key that keeps projects and sessions apart,
    calls the upstream server and gives everything back.  The route follows from a plan that
    joins the client's context with the record of the server, which is loaded from the
    configuration.  This library models that path, from the sources under src/src/, and
    proves what the program promises on it.

    ** Files

    Shared ground:
    - Prelude: Rust's [Result] and [Option] operations, machine-width integers as [N] with
      saturation written out, the tactics, reachability of step relations.
    - RustStr: strings as UTF-8 byte sequences ([trim], case folding, splitting, decimal
      texts, [sort]/[dedup]); BTree: [BTreeMap] as its strictly increasing entries, for any
      key type with a [KeyOrder] instance; SortBy: stable sorting and bounded selection.
    - Json (json.rs, json_helpers.rs): the JSON tree and its accessors.  serde_json is the
      class [SerdeJson]; what is relied on is the class [SerdeJsonLaws], discharged for a
      concrete codec ([TreeCodec]).
    - TextUtils (text_utils.rs): the shell-composition scan and its helpers.

    The scheduler:
    - Execution (execution.rs): the execution policy of a server.  [normalize],
      [resolve_with_canonical], [for_server] and the JSON form are the source's functions
      on the record [ExecutionPolicy]; [affinity_key] computes the worker group of a
      request.  The standard library's hasher is the class [Hasher] with its laws.
    - LeaseRoute, LeaseStore, LeaseSafety (hub/leases.rs): routes; the lease file as a JSON
      map and the four commands as mutators of it, run by [mutate_store] (read, purge,
      change, rebuild the session index, write); the module [LeaseTable] is the abstract
      table and LeaseSafety the refinement and its consequences.  The clock, process id and
      file contents are the fields of [StoreIo].
    - LeaseLock (hub/leases.rs): the lock file around the store, twice: the retry loop of
      one process as a function of what each system call answers, and [SharedLock], a
      step relation in which the calls of several processes interleave.
    - LeaseQueue (upstream/lease_queue.rs): a lane's ticket counter as a pure state
      ([lane_enqueue], [wait_turn], [lane_finish], [repair_lane_state]) and the registry of
      lanes with all its callers as a step relation ([queue_step]).
    - SessionPool (upstream/session_pool.rs): groups of workers and the checkout loop, as a
      step relation ([pool_step]) of checkouts, initialisations, failures, returns,
      evictions and purges.

    Upstream servers:
    - ServerRegistry (mcp_sources.rs, source_type.rs, profile.rs) and ServerConfig
      (upstream/server_config.rs, upstream/process_config.rs): the registry merged from the
      settings files, runtime profiles, and the configuration of each server; TaskPool: the
      threads that run one task per server, as a step relation.
    - ToolPolicy, ToolAudit, LeaseRuntime, CallDiscipline (upstream/lease_runtime.rs): guards
      of tools, the audit record, and the flow of a call under a lease as the list of its
      [CallEvent]s.
    - ToolCache and ToolFlight (upstream/tool_cache.rs): pages, validation and caches of tool
      lists, and the single flight of their loads as a step relation.
    - HttpUpstream, HttpFlow (upstream/http_runtime.rs) and HttpProbe (http_probe.rs):
      addresses, conversations under a deadline, and the reader of responses, against an
      inductive grammar of chunked bodies; Diagnostics (upstream/diagnostics.rs): redaction.
    - PolicyAudit (upstream/policy_audit.rs), CatalogProjection (upstream/projection.rs).

    The adapter (adapter.rs, adapter/discovery.rs, tool_result.rs):
    - ToolNames, ToolView, ToolExposure, ExposureSafety: names, definitions and budgets under
      which upstream tools are offered, and the way back from a call to its tool; ProxyUri and
      Prompts: the same for resources and prompts; ToolSearch and RoutePlan: search and the
      grouping of calls into lanes, on the records of ServerModel; ToolResult: results.

    The local HTTP server:
    - Admission (dashboard/governor.rs, dashboard/admission.rs): the request gauges as
      single atomic accesses of interleaved threads; RateLimit (dashboard/rate_limit.rs).
    - McpProtocol (mcp_protocol.rs), HttpBoundary (dashboard/http_boundary.rs), HttpSession
      (dashboard/http_session.rs): envelopes and ids; Host and Origin checks; the sessions.
    - HttpTools, ToolRuntime, McpEndpoint (dashboard/http_tools.rs, tool_runtime.rs,
      mcp_http.rs): the tools, what a call of one does, and the MCP endpoint, which is
      verified against the interface [McpBackend].
    - HttpReply (dashboard/response.rs), HttpServer, HttpActions, HttpRoutes (dashboard.rs):
      responses; the reader of requests over a socket that delivers pieces, with the checks
      before the body; the actions and their command lines; a whole connection, whose reports
      (class [Readings]) are finished with a snapshot of the sessions where the code takes one.
    - Telemetry (dashboard/latency.rs, dashboard/trace.rs): the latest requests and operations
      in bounded queues and the reports of their durations.

    Plans and servers:
    - ClientPaths, ClientContext, ClientPlan, ClientRoutes (client/*.rs): paths as clients
      name them, the context of a client, the plan of each server and its JSON, and what the
      plans promise to the lease commands.
    - SourceSignals, SourcePolicy, ServerLoader (server/loader.rs): what the configuration of
      a server gives away, the policy and classification inferred from it, and the records.

    The stdio server:
    - StdioSurface (mcp_server/tool_surface.rs), StdioTools and StdioServer (mcp_server.rs):
      the definitions of its tools, what a call runs, and the loop over standard input with
      the bootstrap of the hub.  The class [Host] is everything outside; a step is an [Act],
      which records each request to the host as an [Event].

    The hub:
    - HubRuntime (hub/runtime.rs, hub/model.rs, runtimepaths.rs), HubStatus (hub/status.rs),
      HubLifecycle (hub/lifecycle.rs): the files of the hub, its status, and its commands and
      loop as programs ([Prog]) over system calls ([Op]); [exec] is a file system on which no
      call fails, [system_step] interleaves the calls of several processes and lets them fail.
    - RestartGuard (restart_guard.rs): the file of start times.

    ** What the theorems show

    - Leases: in every file the commands can produce, no two leases hold one request mutex and
      each is filed under its id ([lease_file_mutual_exclusion]); each command implements the abstract table
      ([lease_command_refines_table]); capacity groups respect the parallelism limit; a
      free route is granted with a clamped expiry; release undoes acquire; renewal moves the
      expiry exactly; the session index is the grouping of the leases.
    - The lock around the store excludes when its holders neither crash nor enter or stay
      longer than the stale bound after they have read the time of their lock
      ([lock_mutual_exclusion]), and its loop is bounded.
    - Queue: the head is exclusive and first come, first served; no lane is ever stuck; the
      depth limit holds; recovery from a poisoned mutex restores the invariant; waits end
      at their deadline.
    - Pool: a worker serves one request at a time and is not removed meanwhile; the limits
      hold; a request waits only when the pool is saturated.
    - Policies: normalisation establishes well-formedness and is idempotent; precedence of
      the sources; exact capacity; isolation by affinity keys, failing closed.
    - Calls: every path of a tool call of a known server takes, uses and gives back its lease
      in order, as far as the store accepts it back, and leaves one audit record
      ([tool_calls_disciplined]); a guarded tool needs its grant and is not projected as far
      as the policies can be read, and a projected name reaches the tool it was listed for; the
      parallel tasks give the sequential results; a list in pages is followed to its end.
    - HTTP: only requests that name the loopback machine pass the boundary
      ([local_requests_only]); permits within the limit; the rate window; replay protection,
      readiness, expiry and budgets of sessions; a request is read the same in any pieces;
      nothing happens before admission; every reply of a connection is read back as written;
      the connections refine the commands of the session store, their snapshots included;
      only the token authorizes; conversations with upstream servers stay in the session and
      version the server answered with.
    - Telemetry: the queues hold exactly the latest observations, percentiles are by nearest
      rank, and the groups of a report partition its samples.
    - Plans: routes follow plans, are granted exactly when the server is usable, and clients
      share capacity exactly when their affinity agrees; contained paths stay inside.
    - Loading: the signals are a consistent set, a source is shared exactly when its
      signals allow it, loaded records
      are sound, parallel leases come from the configuration only.
    - stdio: every session is a run of a protocol machine ([stdio_session_follows_protocol]);
      the server returns; a request is answered once; the session does not depend on the
      pieces of its input; tools announced as reading do not act; the hub is stopped only
      when it is stale, and details of startup errors are withheld.
    - The hub: its background processes exclude each other by its lock; the repair restores a
      stopped hub from any files; the status follows from files and clock; a live hub is not
      disturbed by up and repair; restarts within a window are bounded as long as the guard
      is not cleared.  The lock does not protect a hub that is just starting from the
      clean-up of the other commands.
    - Defects: lemmas under "what the code does not mean to do" and beside the definitions
      show behaviours that contradict the code's own intent (the removal of a stale lock can
      admit two holders, a chunk size can overflow, hyphenated words never match, and others).

    ** Bounds and fuel

    [u64], [usize] and [u128] values are [N]; saturating operations carry their maximum and
    hypotheses such as [now + ttl <= U128_MAX] appear where saturation would be visible.
    Loops that are not structural take fuel equal to a measure of their input: the ticket
    skip of a lane ([advance_loop]) the number of cancelled tickets, eviction of sessions
    ([evict_loop]) the number of sessions, the lock loop its 100 attempts, the projected
    names one more than the used ones, the readers of HttpServer the number of pieces that
    arrive and two more (the header loop its limit of fields), the digits of a fraction 20,
    the loop of StdioServer one more than the bytes that arrive; the process of the hub runs
    for any number of rounds, after which it is ended from outside.  The theorems about these
    loops ([lane_inv], [evict_loop_size], [acquire_lease_store_lock_bounded],
    [stdio_server_returns] and the like) hold with that fuel.  Where a hash map's iteration
    order is visible it is a parameter, constrained only to list the entries of the map.

    ** Not modelled

    Process and socket I/O and the file system (they are parameters), argument parsing and
    rendering of the commands; the installation of clients, services and servers
    (client/actions, service, setup.rs, mcp_autoinstall.rs), discovery of servers
    (server/discover.rs), the views and caches of the dashboard (dashboard/overview.rs,
    dashboard/diagnostics.rs), the lab and the maintenance commands: they read and write files of
    other programs or put together reports from what the modelled components say. *)

From Stdlib Require Export NArith ZArith Lia.
From stdpp Require Export base numbers option list sorting strings gmap.

#[export] Set Warnings "-clear-no-such-hyp,-register-all".

(** ** Results

    Rust's [Result<T, E>]; the [?] operator is the bind [x ←? e ;; k]. *)

Inductive result (A E : Type) : Type :=
| Ok (a : A)
| Err (e : E).

Arguments Ok {A E} a.
Arguments Err {A E} e.

Declare Scope mcpace_scope.
Delimit Scope mcpace_scope with mcpace.
Open Scope mcpace_scope.

Notation "x ←? e ;; k" :=
  (match e with Ok x => k | Err err => Err err end)
  (at level 100, e at next level, right associativity) : mcpace_scope.

Definition is_ok {A E} (r : result A E) : bool :=
  match r with Ok _ => true | Err _ => false end.

Definition map_err {A E F} (f : E -> F) (r : result A E) : result A F :=
  match r with Ok a => Ok a | Err e => Err (f e) end.

(** [Option::ok_or]. *)
Definition ok_or {A E} (o : option A) (e : E) : result A E :=
  match o with Some a => Ok a | None => Err e end.

(** [Result::ok]. *)
Definition result_ok {A E} (r : result A E) : option A :=
  match r with Ok a => Some a | Err _ => None end.

(** [Option::filter] and [Option::or_else] (the code only passes pure closures). *)
Definition opt_filter {A} (p : A -> bool) (o : option A) : option A :=
  match o with Some a => if p a then Some a else None | None => None end.

Definition opt_or {A} (o1 o2 : option A) : option A :=
  match o1 with Some a => Some a | None => o2 end.

Definition unwrap_or {A} (o : option A) (d : A) : A :=
  match o with Some a => a | None => d end.

Definition is_some {A} (o : option A) : bool :=
  match o with Some _ => true | None => false end.

(** A computation that may panic. *)
Inductive outcome (A : Type) := Returns (a : A) | Panics.
Arguments Returns {A} a.
Arguments Panics {A}.

(** ** Unsigned machine integers

    An unsigned integer of the source is an [N]; [usize] is 64 bits wide.
    Only the operations that can leave the width mention it. *)

Definition U8_MAX : N := 255.
Definition U32_MAX : N := 4294967295.
Definition U64_MAX : N := 18446744073709551615.
Definition USIZE_MAX : N := U64_MAX.
Definition U128_MAX : N := 340282366920938463463374607431768211455.
Definition I64_MAX : Z := 9223372036854775807.
Definition I64_MIN : Z := -9223372036854775808.

(** [saturating_add], [saturating_mul]; [saturating_sub] is [N.sub]. *)
Definition sat_add (max a b : N) : N := N.min (a + b) max.
Definition sat_mul (max a b : N) : N := N.min (a * b) max.

(** [Ord::clamp], for [lo <= hi]. *)
Definition clamp (lo hi v : N) : N := N.max lo (N.min hi v).

(** [wrapping_mul] on [u64]. *)
Definition wrapping_mul64 (a b : N) : N := (a * b) mod (U64_MAX + 1).

Definition len_N {A} (l : list A) : N := N.of_nat (length l).

(** [Iterator::min_by_key]: the first of the smallest elements. *)
Fixpoint min_by_key {A} (key : A -> N) (l : list A) : option A :=
  match l with
  | [] => None
  | x :: rest =>
      match min_by_key key rest with
      | Some best => Some (if (key x <=? key best)%N then x else best)
      | None => Some x
      end
  end.

(** [iter().map(f).sum()]. *)
Fixpoint sum_by {A} (f : A -> N) (l : list A) : N :=
  match l with [] => 0 | x :: rest => f x + sum_by f rest end.

(** ** Automation *)

Create HintDb mcpace.
Create Rewrite HintDb mcpace.

(** Case analysis on the boolean or option the goal or a hypothesis is stuck on. *)
Ltac case_stuck :=
  match goal with
  | |- context [match ?x with _ => _ end] =>
      lazymatch x with
      | context [match _ with _ => _ end] => fail
      | _ => let E := fresh "E" in destruct x eqn:E
      end
  end.

Ltac case_stuck_in H :=
  match type of H with
  | context [match ?x with _ => _ end] =>
      lazymatch x with
      | context [match _ with _ => _ end] => fail
      | _ => let E := fresh "E" in destruct x eqn:E
      end
  end.

(** Turns boolean comparisons on [N] and boolean connectives into propositions. *)
Ltac bool_prop :=
  repeat match goal with
  | H : (_ && _)%bool = true |- _ => apply andb_true_iff in H; destruct H
  | H : (_ && _)%bool = false |- _ => apply andb_false_iff in H
  | H : (_ || _)%bool = true |- _ => apply orb_true_iff in H
  | H : (_ || _)%bool = false |- _ => apply orb_false_iff in H; destruct H
  | H : negb _ = true |- _ => apply negb_true_iff in H
  | H : negb _ = false |- _ => apply negb_false_iff in H
  | H : (_ =? _)%N = true |- _ => apply N.eqb_eq in H
  | H : (_ =? _)%N = false |- _ => apply N.eqb_neq in H
  | H : (_ <? _)%N = true |- _ => apply N.ltb_lt in H
  | H : (_ <? _)%N = false |- _ => apply N.ltb_ge in H
  | H : (_ <=? _)%N = true |- _ => apply N.leb_le in H
  | H : (_ <=? _)%N = false |- _ => apply N.leb_gt in H
  | H : String.eqb _ _ = true |- _ => apply String.eqb_eq in H
  | H : String.eqb _ _ = false |- _ => apply String.eqb_neq in H
  | H : bool_decide _ = true |- _ => apply bool_decide_eq_true in H
  | H : bool_decide _ = false |- _ => apply bool_decide_eq_false in H
  end.

(** [lia] after the width arithmetic has been unfolded. *)
Ltac sat_lia := unfold sat_add, sat_mul, clamp, len_N in *; lia.

(** ** Shared lemmas *)

Lemma sat_add_le_max max a b : (sat_add max a b <= max)%N.
Proof. sat_lia. Qed.

Lemma sat_add_exact max a b : (a + b <= max)%N -> sat_add max a b = (a + b)%N.
Proof. sat_lia. Qed.

Lemma sat_add_fits max m a b : (sat_add max a b <= m)%N -> (m < max)%N -> sat_add max a b = (a + b)%N.
Proof. sat_lia. Qed.

Lemma sat_add_ge_l max a b : (a <= max)%N -> (a <= sat_add max a b)%N.
Proof. sat_lia. Qed.

Lemma clamp_bounds lo hi v : (lo <= hi)%N -> (lo <= clamp lo hi v <= hi)%N.
Proof. sat_lia. Qed.

Lemma clamp_id lo hi v : (lo <= v <= hi)%N -> clamp lo hi v = v.
Proof. sat_lia. Qed.

#[export] Hint Resolve sat_add_le_max sat_add_ge_l clamp_bounds : mcpace.

Lemma unwrap_or_Some {A} (a d : A) : unwrap_or (Some a) d = a.
Proof. reflexivity. Qed.

Lemma opt_filter_Some {A} (p : A -> bool) o a :
  opt_filter p o = Some a <-> o = Some a /\ p a = true.
Proof.
  destruct o as [b|]; simpl; [destruct (p b) eqn:E|].
  all: split; [intros [=]|intros [[=] ?]]; subst; auto; congruence.
Qed.

Lemma len_N_app {A} (l k : list A) : len_N (l ++ k) = (len_N l + len_N k)%N.
Proof. unfold len_N. rewrite length_app. lia. Qed.

Lemma len_N_cons {A} (x : A) l : len_N (x :: l) = (1 + len_N l)%N.
Proof. unfold len_N. simpl. lia. Qed.

Lemma len_N_filter_le {A} (p : A -> bool) (l : list A) :
  (len_N (List.filter p l) <= len_N l)%N.
Proof. unfold len_N. pose proof (List.filter_length_le p l). lia. Qed.

Lemma min_by_key_Some {A} (key : A -> N) l x :
  min_by_key key l = Some x -> x ∈ l /\ Forall (fun y => key x <= key y)%N l.
Proof.
  revert x. induction l as [|y l IH]; intros x; [done|]. simpl.
  destruct (min_by_key key l) as [best|] eqn:E.
  - destruct (IH best eq_refl) as [Hin Hmin]. destruct (N.leb_spec (key y) (key best)); intros [= <-].
    + split; [by left|]. constructor; [lia|]. eapply Forall_impl; [exact Hmin|]. simpl. lia.
    + split; [by right|]. constructor; [lia|done].
  - intros [= <-]. split; [by left|]. constructor; [lia|]. destruct l as [|z l]; [constructor|].
    simpl in E. by destruct (min_by_key key l).
Qed.

Lemma min_by_key_None {A} (key : A -> N) l : min_by_key key l = None -> l = [].
Proof. destruct l as [|x l]; simpl; [done|]. by destruct (min_by_key key l). Qed.

Lemma fold_left_invariant {A B} (f : A -> B -> A) (I : A -> Prop) l a :
  (forall a x, I a -> I (f a x)) -> I a -> I (fold_left f l a).
Proof. intros Hf. revert a. induction l as [|x l IH]; intros a Ha; simpl; auto. Qed.

Lemma sum_by_perm {A} (f : A -> N) l k : l ≡ₚ k -> sum_by f l = sum_by f k.
Proof. induction 1; simpl; lia. Qed.

Lemma sum_by_submseteq {A} (f : A -> N) l k : l ⊆+ k -> (sum_by f l <= sum_by f k)%N.
Proof. induction 1; simpl; lia. Qed.

(** ** Transition systems

    Reachability of a step relation, with the invariant rule the concurrent
    components use. *)

Section reachability.
Context {S : Type} (init : S -> Prop) (step : S -> S -> Prop).

Inductive reachable : S -> Prop :=
| reachable_init s : init s -> reachable s
| reachable_step s s' : reachable s -> step s s' -> reachable s'.

Lemma reachable_invariant (I : S -> Prop) :
  (forall s, init s -> I s) ->
  (forall s s', I s -> step s s' -> I s') ->
  forall s, reachable s -> I s.
Proof. intros H0 Hs s Hr. induction Hr; eauto. Qed.

End reachability.
