(* ===== verification/RustStr.v ===== *)
(** * Rust strings and number texts

    A Rust [String] or [&str] is the byte sequence of its UTF-8 encoding, here
    a Rocq [string] (one [ascii] per byte).  The file models what MCPace uses of
    the standard library's string functions: Unicode [trim], ASCII case folding,
    searching and splitting, decimal printing and parsing at a width, sorting
    and [dedup] of string vectors, UTF-8 validity. *)

From Stdlib Require Import Ascii DecimalString DecimalFacts DecimalN.
From S2P Require Import Prelude.

(** ** Bytes *)

Definition bytes (s : string) : list ascii := String.list_ascii_of_string s.
Definition of_bytes (l : list ascii) : string := String.string_of_list_ascii l.
Definition code (c : ascii) : N := N_of_ascii c.

Definition in_range (lo hi : N) (c : ascii) : bool := ((lo <=? code c) && (code c <=? hi))%N.

(** [str::len]: the number of bytes. *)
Definition str_len (s : string) : N := N.of_nat (String.length s).
Definition str_is_empty (s : string) : bool :=
  match s with EmptyString => true | String _ _ => false end.

Definition is_ascii_digit (c : ascii) : bool := in_range 48 57 c.
Definition is_ascii_lowercase (c : ascii) : bool := in_range 97 122 c.
Definition is_ascii_uppercase (c : ascii) : bool := in_range 65 90 c.
Definition is_ascii_alphabetic (c : ascii) : bool := is_ascii_lowercase c || is_ascii_uppercase c.
Definition is_ascii_alphanumeric (c : ascii) : bool := is_ascii_alphabetic c || is_ascii_digit c.

Definition ascii_lower (c : ascii) : ascii :=
  if is_ascii_uppercase c then ascii_of_N (code c + 32) else c.

Definition map_bytes (f : ascii -> ascii) (s : string) : string := of_bytes (map f (bytes s)).

Definition to_ascii_lowercase (s : string) : string := map_bytes ascii_lower s.

Definition eq_ignore_ascii_case (a b : string) : bool :=
  String.eqb (to_ascii_lowercase a) (to_ascii_lowercase b).

(** [str::replace] of one ASCII character by another. *)
Definition replace_char (from to : ascii) (s : string) : string :=
  map_bytes (fun c => if Ascii.eqb c from then to else c) s.

Definition all_bytes (p : ascii -> bool) (s : string) : bool := forallb p (bytes s).

(** ** Unicode white space and [str::trim]

    The White_Space characters by the length of their encoding: U+0009..U+000D
    and U+0020; U+0085 and U+00A0; U+1680, U+2000..U+200A, U+2028, U+2029,
    U+202F, U+205F and U+3000. *)

Definition ws1 (a : ascii) : bool := in_range 9 13 a || (code a =? 32)%N.
Definition ws2 (a b : ascii) : bool :=
  (code a =? 194)%N && ((code b =? 133)%N || (code b =? 160)%N).
Definition ws3 (a b c : ascii) : bool :=
  ((code a =? 225) && (code b =? 154) && (code c =? 128))%N
  || ((code a =? 226) && (code b =? 128))%N
     && (in_range 128 138 c || in_range 168 169 c || (code c =? 175)%N)
  || ((code a =? 226) && (code b =? 129) && (code c =? 159))%N
  || ((code a =? 227) && (code b =? 128) && (code c =? 128))%N.

(** Drops leading characters, given by one, two or three bytes each. *)
Fixpoint drop_front (p1 : ascii -> bool) (p2 : ascii -> ascii -> bool)
    (p3 : ascii -> ascii -> ascii -> bool) (l : list ascii) : list ascii :=
  match l with
  | [] => []
  | a :: l1 =>
      if p1 a then drop_front p1 p2 p3 l1 else
      match l1 with
      | [] => l
      | b :: l2 =>
          if p2 a b then drop_front p1 p2 p3 l2 else
          match l2 with
          | [] => l
          | c :: l3 => if p3 a b c then drop_front p1 p2 p3 l3 else l
          end
      end
  end.

Definition trim_start_bytes : list ascii -> list ascii := drop_front ws1 ws2 ws3.

(** From the end: the same characters read backwards. *)
Definition trim_end_bytes (l : list ascii) : list ascii :=
  rev (drop_front ws1 (fun b a => ws2 a b) (fun c b a => ws3 a b c) (rev l)).

(** The front up to the first white space. *)
Fixpoint take_word (l : list ascii) : list ascii * list ascii :=
  match l with
  | [] => ([], [])
  | a :: r =>
      if ws1 a
         || match r with b :: _ => ws2 a b | [] => false end
         || match r with b :: c :: _ => ws3 a b c | _ => false end
      then ([], l)
      else let '(word, rest) := take_word r in (a :: word, rest)
  end.

(** [split_whitespace().next()], with the rest: [None] when only white space is left. *)
Definition next_word (l : list ascii) : option (string * list ascii) :=
  match trim_start_bytes l with
  | [] => None
  | l => let '(word, rest) := take_word l in Some (of_bytes word, rest)
  end.

Definition trim (s : string) : string := of_bytes (trim_end_bytes (trim_start_bytes (bytes s))).

(** [char::is_control] on some character: U+0000..U+001F and U+007F..U+009F. *)
Fixpoint any_control (l : list ascii) : bool :=
  match l with
  | [] => false
  | a :: l1 =>
      (code a <? 32)%N || (code a =? 127)%N
      || match l1 with b :: _ => (code a =? 194)%N && in_range 128 159 b | [] => false end
      || any_control l1
  end.

(** [trim_start_matches] and [trim_matches] with one ASCII character. *)
Fixpoint trim_start_char (c : ascii) (l : list ascii) : list ascii :=
  match l with
  | [] => []
  | a :: l1 => if Ascii.eqb a c then trim_start_char c l1 else l
  end.

Definition trim_matches (c : ascii) (s : string) : string :=
  of_bytes (rev (trim_start_char c (rev (trim_start_char c (bytes s))))).

(** ** Searching, splitting, joining *)

Definition starts_with (p s : string) : bool := String.prefix p s.

Fixpoint strip_prefix (p s : string) : option string :=
  match p, s with
  | EmptyString, _ => Some s
  | String a p', String b s' => if Ascii.eqb a b then strip_prefix p' s' else None
  | String _ _, EmptyString => None
  end.

Fixpoint str_contains (needle hay : string) : bool :=
  starts_with needle hay
  || match hay with EmptyString => false | String _ hay' => str_contains needle hay' end.

Definition contains_char (c : ascii) (s : string) : bool := existsb (Ascii.eqb c) (bytes s).

(** [str::split_once] on a character. *)
Fixpoint split_once (c : ascii) (s : string) : option (string * string) :=
  match s with
  | EmptyString => None
  | String a s' =>
      if Ascii.eqb a c then Some (EmptyString, s')
      else match split_once c s' with
           | Some (l, r) => Some (String a l, r)
           | None => None
           end
  end.

(** [str::split] on a character: always at least one piece. *)
Fixpoint split_char (c : ascii) (s : string) : list string :=
  match s with
  | EmptyString => [EmptyString]
  | String a s' =>
      if Ascii.eqb a c then EmptyString :: split_char c s'
      else match split_char c s' with
           | x :: xs => String a x :: xs
           | [] => [String a EmptyString]
           end
  end.

Fixpoint join (sep : string) (l : list string) : string :=
  match l with
  | [] => EmptyString
  | [x] => x
  | x :: xs => x +:+ sep +:+ join sep xs
  end.

(** [str::find] of a string, as the text before and after its first occurrence. *)
Fixpoint split_once_str (sep s : string) : option (string * string) :=
  match strip_prefix sep s with
  | Some after => Some (EmptyString, after)
  | None =>
      match s with
      | EmptyString => None
      | String a s' =>
          match split_once_str sep s' with
          | Some (before, after) => Some (String a before, after)
          | None => None
          end
      end
  end.

(** [str::split] on a text: its length bounds the number of pieces. *)
Fixpoint split_str_fuel (fuel : nat) (sep s : string) : list string :=
  match fuel with
  | O => [s]
  | S fuel =>
      match split_once_str sep s with
      | Some (before, after) => before :: split_str_fuel fuel sep after
      | None => [s]
      end
  end.

Definition split_str (sep s : string) : list string := split_str_fuel (String.length s) sep s.

(** [str::replace]. *)
Definition replace_str (from to s : string) : string := join to (split_str from s).

Definition ends_with_char (c : ascii) (s : string) : bool :=
  match rev (bytes s) with x :: _ => Ascii.eqb x c | [] => false end.

(** [chars().map(f)] where [f] sends every character outside ASCII to [other]: one
    [other] per leading byte, nothing for continuation bytes. *)
Definition map_char_bytes (f : ascii -> ascii) (other : ascii) (l : list ascii) : list ascii :=
  flat_map (fun c => if (code c <? 128)%N then [f c] else if in_range 128 191 c then [] else [other]) l.

Definition map_chars (f : ascii -> ascii) (other : ascii) (s : string) : string :=
  of_bytes (map_char_bytes f other (bytes s)).

(** [chars().take(n)] on UTF-8 bytes, with what is left: a character starts at every byte
    that is not a continuation byte. *)
Fixpoint take_chars (n : nat) (l : list ascii) : list ascii * list ascii :=
  match l with
  | [] => ([], [])
  | c :: l' =>
      if in_range 128 191 c then let '(front, rest) := take_chars n l' in (c :: front, rest)
      else
        match n with
        | O => ([], l)
        | S n => let '(front, rest) := take_chars n l' in (c :: front, rest)
        end
  end.

(** [chars().count()]. *)
Definition chars_count (l : list ascii) : nat :=
  length (List.filter (fun c => negb (in_range 128 191 c)) l).

(** ** Sorting and [dedup] of string vectors *)

Definition sort_strings (l : list string) : list string := merge_sort String.le l.

(** [Vec::dedup]: keeps the first of each run of equal elements. *)
Fixpoint dedup_adjacent (l : list string) : list string :=
  match l with
  | [] => []
  | x :: xs =>
      match dedup_adjacent xs with
      | [] => [x]
      | y :: ys => if String.eqb x y then y :: ys else x :: y :: ys
      end
  end.

Definition sort_dedup (l : list string) : list string := dedup_adjacent (sort_strings l).

(** ** Decimal texts *)

(** [ToString] of an unsigned and of a signed integer. *)
Definition N_to_string (n : N) : string := NilEmpty.string_of_uint (N.to_uint n).
Definition Z_to_string (z : Z) : string :=
  if (z <? 0)%Z then String "-" (N_to_string (Z.to_N (- z))) else N_to_string (Z.to_N z).

Fixpoint digits_value (acc : N) (s : string) : option N :=
  match s with
  | EmptyString => Some acc
  | String c s' =>
      if is_ascii_digit c then digits_value (acc * 10 + (code c - 48)) s' else None
  end.

(** A non-empty run of digits. *)
Definition parse_digits (s : string) : option N :=
  if str_is_empty s then None else digits_value 0 s.

(** [str::parse] of an unsigned integer no larger than [max]: an optional [+],
    then digits; every overflow is an error. *)
Definition parse_unsigned (max : N) (s : string) : option N :=
  let digits := match s with String "+" s' => s' | _ => s end in
  opt_filter (fun n => n <=? max)%N (parse_digits digits).

Definition parse_u64 : string -> option N := parse_unsigned U64_MAX.
Definition parse_usize : string -> option N := parse_unsigned USIZE_MAX.
Definition parse_u128 : string -> option N := parse_unsigned U128_MAX.

(** [str::parse::<i64>]. *)
Definition parse_i64 (s : string) : option Z :=
  let in_i64 (z : Z) := ((I64_MIN <=? z) && (z <=? I64_MAX))%Z in
  match s with
  | String "-" s' => opt_filter in_i64 (option_map (fun n => (- Z.of_N n)%Z) (parse_digits s'))
  | String "+" s' => opt_filter in_i64 (option_map Z.of_N (parse_digits s'))
  | _ => opt_filter in_i64 (option_map Z.of_N (parse_digits s))
  end.

(** ** UTF-8 validity ([String::from_utf8]) *)

Definition cont_byte (c : ascii) : bool := in_range 128 191 c.

Definition utf8_pair (a b : ascii) : bool := in_range 194 223 a && cont_byte b.
Definition utf8_triple (a b c : ascii) : bool :=
  ((code a =? 224)%N && in_range 160 191 b
   || (in_range 225 236 a || in_range 238 239 a) && cont_byte b
   || (code a =? 237)%N && in_range 128 159 b)
  && cont_byte c.
Definition utf8_quad (a b c d : ascii) : bool :=
  ((code a =? 240)%N && in_range 144 191 b
   || in_range 241 243 a && cont_byte b
   || (code a =? 244)%N && in_range 128 143 b)
  && cont_byte c && cont_byte d.

Fixpoint utf8_valid (l : list ascii) : bool :=
  match l with
  | [] => true
  | a :: l1 =>
      if (code a <? 128)%N then utf8_valid l1 else
      match l1 with
      | [] => false
      | b :: l2 =>
          if utf8_pair a b then utf8_valid l2 else
          match l2 with
          | [] => false
          | c :: l3 =>
              if utf8_triple a b c then utf8_valid l3 else
              match l3 with
              | [] => false
              | d :: l4 => utf8_quad a b c d && utf8_valid l4
              end
          end
      end
  end.

(** ** Lemmas *)

Lemma bytes_of_bytes l : bytes (of_bytes l) = l.
Proof. apply String.list_ascii_of_string_of_list_ascii. Qed.

Lemma of_bytes_bytes s : of_bytes (bytes s) = s.
Proof. apply String.string_of_list_ascii_of_string. Qed.

#[export] Hint Rewrite bytes_of_bytes of_bytes_bytes : mcpace.

Lemma append_cons c (s t : string) : String c s +:+ t = String c (s +:+ t).
Proof. reflexivity. Qed.

Lemma bytes_app s t : bytes (s +:+ t) = bytes s ++ bytes t.
Proof. unfold bytes. induction s as [|c s IH]; [done|]. rewrite append_cons. cbn. by rewrite IH. Qed.

Lemma bytes_inj s t : bytes s = bytes t -> s = t.
Proof. intros H. by rewrite <- (of_bytes_bytes s), H, of_bytes_bytes. Qed.

Lemma str_len_bytes s : str_len s = len_N (bytes s).
Proof. unfold str_len, len_N. f_equal. induction s; simpl; auto. Qed.

Lemma str_len_app s t : str_len (s +:+ t) = (str_len s + str_len t)%N.
Proof. by rewrite !str_len_bytes, bytes_app, len_N_app. Qed.

Lemma str_is_empty_true s : str_is_empty s = true <-> s = EmptyString.
Proof. destruct s; simpl; split; congruence. Qed.

Lemma str_is_empty_false s : str_is_empty s = false <-> s <> EmptyString.
Proof. destruct s; simpl; split; congruence. Qed.

Lemma append_inj_r (p s t : string) : p +:+ s = p +:+ t -> s = t.
Proof.
  intros H. apply (f_equal bytes) in H. rewrite !bytes_app in H.
  apply app_inv_head in H. by apply bytes_inj.
Qed.

Lemma append_empty_r (s : string) : s +:+ EmptyString = s.
Proof. apply bytes_inj. by rewrite bytes_app, app_nil_r. Qed.

Lemma append_assoc_str (a b c : string) : (a +:+ b) +:+ c = a +:+ b +:+ c.
Proof. apply bytes_inj. by rewrite !bytes_app, (assoc_L (++)). Qed.

(** *** ASCII case folding *)

Lemma code_ascii_of_N n : (n < 256)%N -> code (ascii_of_N n) = n.
Proof. apply N_ascii_embedding. Qed.

Lemma ascii_lower_idem c : ascii_lower (ascii_lower c) = ascii_lower c.
Proof. destruct c as [[][][][][][][][]]; reflexivity. Qed.

Lemma to_ascii_lowercase_idem s :
  to_ascii_lowercase (to_ascii_lowercase s) = to_ascii_lowercase s.
Proof.
  unfold to_ascii_lowercase, map_bytes. rewrite bytes_of_bytes, map_map.
  f_equal. apply map_ext. apply ascii_lower_idem.
Qed.

Lemma lower_app s t : to_ascii_lowercase (s +:+ t) = to_ascii_lowercase s +:+ to_ascii_lowercase t.
Proof.
  apply bytes_inj. unfold to_ascii_lowercase, map_bytes.
  rewrite !bytes_app, !bytes_of_bytes. by rewrite ?bytes_app, map_app.
Qed.

Lemma eq_ignore_ascii_case_refl s : eq_ignore_ascii_case s s = true.
Proof. apply String.eqb_refl. Qed.

(** *** Trimming *)

(** No character of the given shapes at the front. *)
Definition front_clean (p1 : ascii -> bool) (p2 : ascii -> ascii -> bool)
    (p3 : ascii -> ascii -> ascii -> bool) (l : list ascii) : Prop :=
  match l with
  | [] => True
  | a :: l1 =>
      p1 a = false /\
      match l1 with
      | [] => True
      | b :: l2 => p2 a b = false /\ match l2 with [] => True | c :: _ => p3 a b c = false end
      end
  end.

(** One unfolding of the loop. *)
Lemma drop_front_unfold p1 p2 p3 l :
  drop_front p1 p2 p3 l =
  match l with
  | [] => []
  | a :: l1 =>
      if p1 a then drop_front p1 p2 p3 l1 else
      match l1 with
      | [] => l
      | b :: l2 =>
          if p2 a b then drop_front p1 p2 p3 l2 else
          match l2 with
          | [] => l
          | c :: l3 => if p3 a b c then drop_front p1 p2 p3 l3 else l
          end
      end
  end.
Proof. by destruct l. Qed.

Lemma drop_front_clean p1 p2 p3 l : front_clean p1 p2 p3 (drop_front p1 p2 p3 l).
Proof.
  induction l as [l IH] using (induction_ltof1 _ (@length ascii)); unfold ltof in IH.
  rewrite drop_front_unfold.
  destruct l as [|a l1]; [exact I|].
  destruct (p1 a) eqn:E1; [apply IH; simpl; lia|].
  destruct l1 as [|b l2]; [simpl; auto|].
  destruct (p2 a b) eqn:E2; [apply IH; simpl; lia|].
  destruct l2 as [|c l3]; [simpl; auto|].
  destruct (p3 a b c) eqn:E3; [apply IH; simpl; lia|simpl; auto].
Qed.

Lemma drop_front_id p1 p2 p3 l : front_clean p1 p2 p3 l -> drop_front p1 p2 p3 l = l.
Proof.
  destruct l as [|a [|b [|c l]]]; simpl; intros H; auto.
  - by destruct H as [-> _].
  - by destruct H as (-> & -> & _).
  - by destruct H as (-> & -> & ->).
Qed.

Lemma drop_front_suffix p1 p2 p3 l : exists pre, l = pre ++ drop_front p1 p2 p3 l.
Proof.
  induction l as [l IH] using (induction_ltof1 _ (@length ascii)); unfold ltof in IH.
  rewrite drop_front_unfold.
  destruct l as [|a l1]; [by exists []|].
  destruct (p1 a).
  { destruct (IH l1) as [pre H]; [simpl; lia|]. exists (a :: pre). simpl. by f_equal. }
  destruct l1 as [|b l2]; [by exists []|].
  destruct (p2 a b).
  { destruct (IH l2) as [pre H]; [simpl; lia|]. exists (a :: b :: pre). simpl. by do 2 f_equal. }
  destruct l2 as [|c l3]; [by exists []|].
  destruct (p3 a b c); [|by exists []].
  destruct (IH l3) as [pre H]; [simpl; lia|]. exists (a :: b :: c :: pre). simpl. by do 3 f_equal.
Qed.

Lemma front_clean_prefix p1 p2 p3 l k :
  front_clean p1 p2 p3 (l ++ k) -> front_clean p1 p2 p3 l.
Proof. destruct l as [|a [|b [|c l]]]; simpl; intuition. Qed.

Lemma trim_start_bytes_clean l : front_clean ws1 ws2 ws3 (trim_start_bytes l).
Proof. apply drop_front_clean. Qed.

Lemma trim_end_bytes_prefix l : exists suf, l = trim_end_bytes l ++ suf.
Proof.
  unfold trim_end_bytes.
  destruct (drop_front_suffix ws1 (fun b a => ws2 a b) (fun c b a => ws3 a b c) (rev l)) as [pre H].
  exists (rev pre). rewrite <- rev_app_distr, <- H. by rewrite rev_involutive.
Qed.

Lemma trim_idem s : trim (trim s) = trim s.
Proof.
  unfold trim. rewrite bytes_of_bytes. f_equal.
  set (l := trim_start_bytes (bytes s)).
  assert (Hs : trim_start_bytes (trim_end_bytes l) = trim_end_bytes l).
  { apply drop_front_id. destruct (trim_end_bytes_prefix l) as [suf H].
    eapply front_clean_prefix. rewrite <- H. apply trim_start_bytes_clean. }
  rewrite Hs. unfold trim_end_bytes. rewrite rev_involutive.
  f_equal. apply drop_front_id, drop_front_clean.
Qed.

(** *** Prefixes and splitting *)

Lemma strip_prefix_app p s : strip_prefix p (p +:+ s) = Some s.
Proof. induction p as [|a p IH]; [done|]. rewrite append_cons. cbn. by rewrite Ascii.eqb_refl. Qed.

Lemma strip_prefix_Some p s r : strip_prefix p s = Some r -> s = p +:+ r.
Proof.
  revert s. induction p as [|a p IH]; intros s; cbn; [by intros [= ->]|].
  destruct s as [|b s]; [congruence|].
  destruct (Ascii.eqb_spec a b) as [->|]; [|congruence]. intros H. rewrite append_cons. f_equal. by apply IH.
Qed.

Lemma starts_with_app p s : starts_with p (p +:+ s) = true.
Proof.
  unfold starts_with. induction p as [|a p IH]; [by destruct s|].
  rewrite append_cons. cbn. by destruct (ascii_dec a a).
Qed.

Lemma split_once_app c l r :
  contains_char c l = false -> split_once c (l +:+ String c r) = Some (l, r).
Proof.
  induction l as [|a l IH]; intros H.
  - change (split_once c (String c r) = Some (EmptyString, r)). cbn. by rewrite Ascii.eqb_refl.
  - rewrite append_cons. cbn in *. apply orb_false_iff in H as [H1 H2]. rewrite Ascii.eqb_sym, H1.
    unfold contains_char in IH. by rewrite (IH H2).
Qed.

Lemma split_once_Some c s l r :
  split_once c s = Some (l, r) -> s = l +:+ String c r /\ contains_char c l = false.
Proof.
  revert l r. induction s as [|a s IH]; cbn; intros l r H; [congruence|].
  destruct (Ascii.eqb_spec a c) as [->|Hne].
  - injection H as <- <-. done.
  - destruct (split_once c s) as [[l' r']|]; [|congruence]. injection H as <- <-.
    destruct (IH l' r' eq_refl) as [-> Hc]. split; [done|]. cbn.
    apply orb_false_iff. split; [|exact Hc]. rewrite Ascii.eqb_sym. by apply Ascii.eqb_neq.
Qed.

(** *** Sorting *)

Lemma dedup_adjacent_elem x l : x ∈ dedup_adjacent l <-> x ∈ l.
Proof.
  induction l as [|y l IH]; [done|]. simpl. rewrite elem_of_cons, <- IH.
  destruct (dedup_adjacent l) as [|z zs]; [by rewrite elem_of_cons|].
  destruct (String.eqb_spec y z) as [->|]; rewrite !elem_of_cons; tauto.
Qed.

Definition str_lt (a b : string) : Prop := String.le a b /\ a <> b.

Lemma StronglySorted_dedup_adjacent l :
  StronglySorted String.le l -> StronglySorted str_lt (dedup_adjacent l).
Proof.
  induction 1 as [|x l Hs IH Hall]; simpl; [constructor|].
  assert (Hall' : Forall (String.le x) (dedup_adjacent l)).
  { apply Forall_forall. intros y Hy. rewrite dedup_adjacent_elem in Hy.
    rewrite Forall_forall in Hall. by apply Hall. }
  destruct (dedup_adjacent l) as [|y ys]; [repeat constructor|].
  destruct (String.eqb_spec x y) as [->|Hne]; [done|].
  constructor; [done|]. inversion Hall' as [|?? Hxy Hxys]; subst.
  inversion IH as [|?? Hys Hlt]; subst. constructor; [by split|].
  rewrite Forall_forall in Hlt, Hxys |- *. intros z Hz.
  split; [by apply Hxys|]. intros ->. destruct (Hlt z Hz) as [Hyz Hn].
  apply Hn. by apply (anti_symm String.le).
Qed.

(** [sort] followed by [dedup] gives the strictly increasing list of the elements. *)
Lemma sort_dedup_elem x l : x ∈ sort_dedup l <-> x ∈ l.
Proof.
  unfold sort_dedup, sort_strings. by rewrite dedup_adjacent_elem, merge_sort_Permutation.
Qed.

Lemma sort_dedup_sorted l : StronglySorted str_lt (sort_dedup l).
Proof. apply StronglySorted_dedup_adjacent, StronglySorted_merge_sort; apply _. Qed.

Lemma StronglySorted_str_lt_NoDup l : StronglySorted str_lt l -> NoDup l.
Proof.
  induction 1 as [|x l Hs IH Hall]; constructor; auto.
  intros Hx. rewrite Forall_forall in Hall. by destruct (Hall x Hx).
Qed.

Lemma StronglySorted_str_lt_le l : StronglySorted str_lt l -> StronglySorted String.le l.
Proof.
  induction 1 as [|x l Hs IH Hall]; constructor; auto.
  eapply Forall_impl; [exact Hall|]. by intros ? [].
Qed.

Lemma StronglySorted_str_lt_unique l k :
  StronglySorted str_lt l -> StronglySorted str_lt k -> (forall x, x ∈ l <-> x ∈ k) -> l = k.
Proof.
  intros Hl Hk Heq.
  assert (Hp : l ≡ₚ k) by (apply NoDup_Permutation; auto using StronglySorted_str_lt_NoDup).
  eapply (StronglySorted_unique String.le); auto using StronglySorted_str_lt_le.
Qed.

Lemma sort_dedup_idem l : sort_dedup (sort_dedup l) = sort_dedup l.
Proof.
  apply StronglySorted_str_lt_unique; auto using sort_dedup_sorted.
  intros x. apply sort_dedup_elem.
Qed.

(** *** Decimal texts *)

(** The value of a digit string, read from the left. *)
Fixpoint uint_value (acc : N) (d : Decimal.uint) : N :=
  match d with
  | Decimal.Nil => acc
  | Decimal.D0 d => uint_value (acc * 10) d
  | Decimal.D1 d => uint_value (acc * 10 + 1) d
  | Decimal.D2 d => uint_value (acc * 10 + 2) d
  | Decimal.D3 d => uint_value (acc * 10 + 3) d
  | Decimal.D4 d => uint_value (acc * 10 + 4) d
  | Decimal.D5 d => uint_value (acc * 10 + 5) d
  | Decimal.D6 d => uint_value (acc * 10 + 6) d
  | Decimal.D7 d => uint_value (acc * 10 + 7) d
  | Decimal.D8 d => uint_value (acc * 10 + 8) d
  | Decimal.D9 d => uint_value (acc * 10 + 9) d
  end.

Lemma digits_value_uint acc d :
  digits_value acc (NilEmpty.string_of_uint d) = Some (uint_value acc d).
Proof.
  revert acc. induction d; intros acc; simpl; [done|..]; rewrite IHd; f_equal; f_equal.
  all: vm_compute (code _); lia.
Qed.

Lemma uint_value_pos p d : uint_value (N.pos p) d = N.pos (Pos.of_uint_acc d p).
Proof.
  revert p. induction d; intros p; cbn [uint_value Pos.of_uint_acc]; [done|..].
  all: match goal with
       | |- uint_value ?x _ = N.pos (Pos.of_uint_acc _ ?q) => replace x with (N.pos q) by lia
       end; apply IHd.
Qed.

Lemma uint_value_of_uint d : uint_value 0 d = N.of_uint d.
Proof.
  unfold N.of_uint. induction d; cbn [uint_value Pos.of_uint]; try exact IHd; [done|..].
  all: match goal with
       | |- uint_value ?x _ = N.pos (Pos.of_uint_acc _ ?q) => change x with (N.pos q)
       end; apply uint_value_pos.
Qed.

Lemma N_to_string_digits acc n :
  digits_value acc (N_to_string n) = Some (uint_value acc (N.to_uint n)).
Proof. apply digits_value_uint. Qed.

Lemma string_of_uint_head d c s :
  NilEmpty.string_of_uint d = String c s -> is_ascii_digit c = true.
Proof. destruct d; simpl; intros [= <- _]; reflexivity. Qed.

Lemma N_to_string_head n : exists c s, N_to_string n = String c s /\ is_ascii_digit c = true.
Proof.
  unfold N_to_string. destruct (NilEmpty.string_of_uint (N.to_uint n)) as [|c s] eqn:E.
  - exfalso. assert (Hn : N.to_uint n = Decimal.Nil) by (by destruct (N.to_uint n)).
    destruct n as [|p]; [done|]. pose proof (DecimalPos.Unsigned.to_uint_nonnil p). done.
  - exists c, s. split; [done|]. by eapply string_of_uint_head.
Qed.

(** Printing and parsing round trip, at every width. *)
Lemma parse_digits_N_to_string n : parse_digits (N_to_string n) = Some n.
Proof.
  unfold parse_digits. destruct (N_to_string_head n) as (c & s & E & _).
  rewrite E at 1. simpl. rewrite N_to_string_digits, uint_value_of_uint.
  by rewrite DecimalN.Unsigned.of_to.
Qed.

Lemma digit_not_sign c : is_ascii_digit c = true -> c <> "+"%char /\ c <> "-"%char.
Proof. intros H; split; intros ->; by vm_compute in H. Qed.

Lemma plus_match_digit c s :
  is_ascii_digit c = true ->
  match String c s with String "+" s' => s' | _ => String c s end = String c s.
Proof. by destruct c as [[][][][][][][][]]. Qed.

Lemma parse_unsigned_N_to_string max n :
  (n <= max)%N -> parse_unsigned max (N_to_string n) = Some n.
Proof.
  intros H. unfold parse_unsigned. destruct (N_to_string_head n) as (c & s & E & Hc).
  rewrite E, (plus_match_digit c s Hc), <- E, parse_digits_N_to_string. simpl.
  by rewrite (proj2 (N.leb_le _ _) H).
Qed.

Lemma parse_unsigned_le max s n : parse_unsigned max s = Some n -> (n <= max)%N.
Proof. unfold parse_unsigned. intros [_ H]%opt_filter_Some. by apply N.leb_le. Qed.

Lemma parse_i64_N_to_string n :
  (Z.of_N n <= I64_MAX)%Z -> parse_i64 (N_to_string n) = Some (Z.of_N n).
Proof.
  intros H. unfold parse_i64. destruct (N_to_string_head n) as (c & s & E & Hc).
  destruct (digit_not_sign c Hc) as [H1 H2].
  transitivity (opt_filter (fun z => ((I64_MIN <=? z) && (z <=? I64_MAX))%Z)
    (option_map Z.of_N (parse_digits (N_to_string n)))).
  { rewrite E. by destruct c as [[][][][][][][][]]. }
  rewrite parse_digits_N_to_string. simpl.
  rewrite (proj2 (Z.leb_le _ _) H), (proj2 (Z.leb_le I64_MIN _)); [done|].
  unfold I64_MIN. lia.
Qed.

Lemma N_to_string_inj n m : N_to_string n = N_to_string m -> n = m.
Proof.
  intros H. apply (f_equal parse_digits) in H. rewrite !parse_digits_N_to_string in H. congruence.
Qed.

Lemma N_to_string_all_digits n : all_bytes is_ascii_digit (N_to_string n) = true.
Proof.
  unfold N_to_string, all_bytes. generalize (N.to_uint n). intros d.
  induction d; cbn; auto.
Qed.

Lemma N_to_string_nonempty n : N_to_string n <> EmptyString.
Proof. destruct (N_to_string_head n) as (c & s & -> & _). done. Qed.

(** *** UTF-8 *)

Lemma utf8_valid_ascii l : forallb (fun c => code c <? 128)%N l = true -> utf8_valid l = true.
Proof. induction l as [|a l IH]; simpl; [done|]. intros [H1 H2]%andb_true_iff. rewrite H1. auto. Qed.

(** *** First occurrences *)

Lemma split_once_str_unfold sep s :
  split_once_str sep s =
  match strip_prefix sep s with
  | Some after => Some (EmptyString, after)
  | None =>
      match s with
      | EmptyString => None
      | String a s' =>
          match split_once_str sep s' with
          | Some (before, after) => Some (String a before, after)
          | None => None
          end
      end
  end.
Proof. by destruct s. Qed.

Lemma split_once_str_Some sep s l r : split_once_str sep s = Some (l, r) -> s = l +:+ sep +:+ r.
Proof.
  revert l r. induction s as [|a s IH]; intros l r; rewrite split_once_str_unfold;
    destruct (strip_prefix sep _) as [after|] eqn:E.
  - intros [= <- <-]. by apply strip_prefix_Some in E.
  - done.
  - intros [= <- <-]. by apply strip_prefix_Some in E.
  - destruct (split_once_str sep s) as [[b a']|]; [|done]. intros [= <- <-].
    rewrite append_cons. f_equal. by apply IH.
Qed.

(** An occurrence anywhere is found, and no later than there. *)
Lemma split_once_str_found sep l r :
  exists l' r', split_once_str sep (l +:+ sep +:+ r) = Some (l', r') /\ exists w, r' = w +:+ r.
Proof.
  induction l as [|a l IH].
  - exists EmptyString, r. split; [|by exists EmptyString].
    change (EmptyString +:+ sep +:+ r) with (sep +:+ r). by rewrite split_once_str_unfold, strip_prefix_app.
  - rewrite append_cons, split_once_str_unfold. destruct (strip_prefix sep _) as [after|] eqn:E.
    + apply strip_prefix_Some in E. exists EmptyString, after. split; [done|].
      assert (H : bytes (String a l) ++ bytes sep ++ bytes r = bytes sep ++ bytes after).
      { rewrite <- !bytes_app. f_equal. by rewrite append_cons. }
      rewrite app_assoc in H.
      assert (Hl : length (bytes sep) <= length (bytes (String a l) ++ bytes sep)) by (rewrite length_app; lia).
      exists (of_bytes (drop (length (bytes sep)) (bytes (String a l) ++ bytes sep))).
      apply bytes_inj. rewrite bytes_app, bytes_of_bytes. apply (f_equal (drop (length (bytes sep)))) in H.
      rewrite drop_app_length in H. by rewrite drop_app_le in H.
    + destruct IH as (l' & r' & -> & w & ->). exists (String a l'), (w +:+ r). split; [done|by exists w].
Qed.

Lemma split_once_str_length sep s l r :
  split_once_str sep s = Some (l, r) ->
  (String.length l + String.length sep + String.length r = String.length s)%nat.
Proof.
  intros H%split_once_str_Some%(f_equal str_len). rewrite !str_len_app in H. unfold str_len in H. lia.
Qed.

Lemma str_contains_app needle l r : str_contains needle (l +:+ needle +:+ r) = true.
Proof.
  induction l as [|a l IH].
  - change (EmptyString +:+ needle +:+ r) with (needle +:+ r).
    destruct (needle +:+ r) eqn:E; cbn [str_contains]; rewrite <- E, starts_with_app; done.
  - rewrite append_cons. cbn [str_contains]. by rewrite IH, orb_true_r.
Qed.

(** *** Characters *)

Lemma take_chars_app n l : fst (take_chars n l) ++ snd (take_chars n l) = l.
Proof.
  revert n. induction l as [|c l IH]; intros n; [done|]. cbn [take_chars].
  destruct (in_range 128 191 c); [|destruct n as [|n]; [done|]].
  all: specialize (IH n); destruct (take_chars n l) as [f r]; simpl in *; by rewrite IH.
Qed.

Lemma take_chars_count n l : chars_count (fst (take_chars n l)) <= n.
Proof.
  revert n. induction l as [|c l IH]; intros n; [cbn; lia|]. cbn [take_chars]. unfold chars_count in *.
  destruct (in_range 128 191 c) eqn:E; [|destruct n as [|n]; [cbn; lia|]].
  all: specialize (IH n); destruct (take_chars n l) as [f r]; cbn [fst List.filter] in *; rewrite E;
    cbn [negb length]; lia.
Qed.

(** *** White space is not affected by case folding *)

Lemma drop_front_map (f : ascii -> ascii) p1 p2 p3 l :
  (forall a, p1 (f a) = p1 a) -> (forall a b, p2 (f a) (f b) = p2 a b) ->
  (forall a b c, p3 (f a) (f b) (f c) = p3 a b c) ->
  drop_front p1 p2 p3 (map f l) = map f (drop_front p1 p2 p3 l).
Proof.
  intros H1 H2 H3.
  induction l as [l IH] using (induction_ltof1 _ (@length ascii)); unfold ltof in IH.
  rewrite !(drop_front_unfold p1 p2 p3). destruct l as [|a l1]; [done|]. cbn [map]. rewrite H1.
  destruct (p1 a); [apply IH; simpl; lia|]. destruct l1 as [|b l2]; [done|]. cbn [map]. rewrite H2.
  destruct (p2 a b); [apply IH; simpl; lia|]. destruct l2 as [|c l3]; [done|]. cbn [map]. rewrite H3.
  destruct (p3 a b c); [apply IH; simpl; lia|done].
Qed.

Lemma code_lower_cases c : code (ascii_lower c) = code c \/
  ((65 <= code c <= 90)%N /\ code (ascii_lower c) = (code c + 32)%N).
Proof.
  unfold ascii_lower. destruct (is_ascii_uppercase c) eqn:E; [right|by left].
  unfold is_ascii_uppercase, in_range in E. bool_prop. split; [lia|]. apply code_ascii_of_N. lia.
Qed.

Lemma ws_lower a b c :
  ws1 (ascii_lower a) = ws1 a /\ ws2 (ascii_lower a) (ascii_lower b) = ws2 a b /\
  ws3 (ascii_lower a) (ascii_lower b) (ascii_lower c) = ws3 a b c.
Proof.
  assert (Heq : forall x n, (n < 65 \/ 122 < n)%N -> (code (ascii_lower x) =? n)%N = (code x =? n)%N).
  { intros x n Hn. destruct (code_lower_cases x) as [-> | [H1 ->]]; [done|].
    destruct (N.eqb_spec (code x + 32) n), (N.eqb_spec (code x) n); lia || done. }
  assert (Hr : forall x lo hi, (hi < 65 \/ 122 < lo)%N -> in_range lo hi (ascii_lower x) = in_range lo hi x).
  { intros x lo hi Hn. unfold in_range. destruct (code_lower_cases x) as [-> | [H1 ->]]; [done|].
    destruct (N.leb_spec lo (code x + 32)), (N.leb_spec (code x + 32) hi),
      (N.leb_spec lo (code x)), (N.leb_spec (code x) hi); simpl; lia || done. }
  unfold ws1, ws2, ws3. rewrite !Heq, !Hr by lia. done.
Qed.

Lemma trim_lower s : trim (to_ascii_lowercase s) = to_ascii_lowercase (trim s).
Proof.
  unfold trim, to_ascii_lowercase, map_bytes. rewrite !bytes_of_bytes. f_equal.
  unfold trim_start_bytes, trim_end_bytes.
  rewrite drop_front_map by (intros; apply ws_lower; exact "000"%char). rewrite <- map_rev.
  rewrite drop_front_map by (intros; apply ws_lower; exact "000"%char). by rewrite map_rev.
Qed.

(** *** Characters a text does not contain *)

Lemma contains_char_cons c a s : contains_char c (String a s) = Ascii.eqb c a || contains_char c s.
Proof. reflexivity. Qed.

Lemma contains_char_app c s t : contains_char c (s +:+ t) = contains_char c s || contains_char c t.
Proof. unfold contains_char. by rewrite bytes_app, existsb_app. Qed.

Lemma all_bytes_not_contains p c s :
  all_bytes p s = true -> p c = false -> contains_char c s = false.
Proof.
  unfold all_bytes, contains_char. induction (bytes s) as [|a l IH]; [done|]. simpl.
  intros [H1 H2]%andb_true_iff Hc. rewrite IH by done. rewrite orb_false_r.
  destruct (Ascii.eqb_spec c a) as [->|]; [congruence|done].
Qed.

(** [join] on a separator no piece contains is injective on lists of one length. *)
Lemma join_inj c xs ys :
  length xs = length ys ->
  Forall (fun x => contains_char c x = false) xs -> Forall (fun y => contains_char c y = false) ys ->
  join (String c EmptyString) xs = join (String c EmptyString) ys -> xs = ys.
Proof.
  revert ys. induction xs as [|x xs IH]; intros [|y ys] Hlen Hx Hy Hj; simplify_eq/=; [done|].
  inversion Hx as [|?? Hx1 Hx2]; inversion Hy as [|?? Hy1 Hy2]; subst.
  destruct xs as [|x2 xs], ys as [|y2 ys]; simplify_eq/=; [done|].
  set (jx := join (String c EmptyString) (x2 :: xs)) in *.
  set (jy := join (String c EmptyString) (y2 :: ys)) in *.
  assert (E : split_once c (x +:+ String c jx) = split_once c (y +:+ String c jy)) by (by f_equal).
  rewrite !split_once_app in E by done. injection E as -> Ej.
  f_equal. apply IH; auto. simpl. lia.
Qed.

(** ** Lemmas: splitting on a character *)

Lemma split_char_nonempty c s : split_char c s <> [].
Proof. destruct s as [|a s]; cbn; [done|]. destruct (Ascii.eqb a c); [done|]. by destruct (split_char c s). Qed.

Lemma join_split_char c s : join (String c EmptyString) (split_char c s) = s.
Proof.
  induction s as [|a s IH]; [done|]. cbn [split_char].
  pose proof (split_char_nonempty c s) as Hn.
  destruct (Ascii.eqb_spec a c) as [->|].
  - destruct (split_char c s) as [|y ys]; [done|].
    change (EmptyString +:+ String c EmptyString +:+ join (String c EmptyString) (y :: ys) = String c s).
    by rewrite IH.
  - destruct (split_char c s) as [|x xs]; [done|]. rewrite <- IH. by destruct xs.
Qed.

Lemma split_char_free c s : Forall (fun x => contains_char c x = false) (split_char c s).
Proof.
  induction s as [|a s IH]; [by repeat constructor|]. cbn [split_char].
  destruct (Ascii.eqb_spec a c) as [->|Hne]; [by constructor|].
  inversion IH as [|x xs Hx Hxs Heq]; constructor.
  - rewrite contains_char_cons. by rewrite (proj2 (Ascii.eqb_neq c a)).
  - constructor.
  - rewrite contains_char_cons, (proj2 (Ascii.eqb_neq c a)) by congruence. exact Hx.
  - exact Hxs.
Qed.

Lemma split_char_head c s :
  exists x xs, split_char c s = x :: xs /\ (str_is_empty x = (str_is_empty s || starts_with (String c EmptyString) s)).
Proof.
  destruct s as [|a s]; [by exists EmptyString, []|]. cbn [split_char].
  destruct (Ascii.eqb_spec a c) as [->|Hne].
  - exists EmptyString, (split_char c s). split; [done|]. cbn. destruct (ascii_dec c c); [by destruct s|done].
  - destruct (split_char c s) as [|x xs]; eexists _, _; (split; [reflexivity|]); cbn;
      by destruct (ascii_dec c a) as [->|].
Qed.

Lemma contains_split c s : contains_char c s = true -> exists x y ys, split_char c s = x :: y :: ys.
Proof.
  induction s as [|a s IH]; [done|]. cbn [split_char]. rewrite contains_char_cons. intros H.
  destruct (Ascii.eqb_spec a c) as [->|Hne].
  - destruct (split_char_head c s) as (x & xs & -> & _). by exists EmptyString, x, xs.
  - rewrite (proj2 (Ascii.eqb_neq c a)) in H by congruence. destruct (IH H) as (x & y & ys & ->). eauto.
Qed.

Lemma split_char_app c s t : split_char c (s +:+ String c t) = split_char c s ++ split_char c t.
Proof.
  induction s as [|a s IH]; [change (EmptyString +:+ String c t) with (String c t); cbn [split_char]; by rewrite Ascii.eqb_refl|]. rewrite append_cons. cbn [split_char].
  destruct (Ascii.eqb a c); [by rewrite IH|]. rewrite IH. pose proof (split_char_nonempty c s).
  by destruct (split_char c s).
Qed.

Lemma split_char_plain c s : contains_char c s = false -> split_char c s = [s].
Proof.
  induction s as [|a s IH]; [done|]. rewrite contains_char_cons, orb_false_iff, Ascii.eqb_sym. intros [Ha Hs].
  cbn [split_char]. by rewrite Ha, (IH Hs).
Qed.

Lemma split_char_join c x l :
  Forall (fun s => contains_char c s = false) (x :: l) -> split_char c (join (String c EmptyString) (x :: l)) = x :: l.
Proof.
  revert x. induction l as [|y l IH]; intros x Hall; apply Forall_cons in Hall as [Hx Hl]; [by apply split_char_plain|].
  change (join (String c EmptyString) (x :: y :: l)) with (x +:+ String c EmptyString +:+ join (String c EmptyString) (y :: l)).
  rewrite append_cons. change (EmptyString +:+ ?s) with s. rewrite split_char_app, (split_char_plain _ x Hx), (IH _ Hl). done.
Qed.

Lemma join_app_parts sep x l y k : join sep ((x :: l) ++ y :: k) = join sep (x :: l) +:+ sep +:+ join sep (y :: k).
Proof.
  revert x. induction l as [|z l IH]; intros x; [done|]. specialize (IH z).
  change (join sep ((x :: z :: l) ++ y :: k)) with (x +:+ sep +:+ join sep ((z :: l) ++ y :: k)).
  change (join sep (x :: z :: l)) with (x +:+ sep +:+ join sep (z :: l)). rewrite IH. by rewrite !append_assoc_str.
Qed.

Lemma all_bytes_impl (p q : ascii -> bool) s : (forall c, p c = true -> q c = true) -> all_bytes p s = true -> all_bytes q s = true.
Proof. unfold all_bytes. rewrite !forallb_forall. eauto. Qed.

Lemma all_bytes_app p s t : all_bytes p (s +:+ t) = all_bytes p s && all_bytes p t.
Proof. unfold all_bytes. by rewrite bytes_app, forallb_app. Qed.

(** ** Visible text *)

Definition visible (c : ascii) : bool := in_range 33 126 c.

Lemma visible_not_ws a b c : visible a = true -> ws1 a = false /\ ws2 a b = false /\ ws3 a b c = false /\ ws2 b a = false /\ ws3 c b a = false.
Proof.
  intros [H1 H2]%andb_true_iff. apply N.leb_le in H1, H2. repeat split; apply not_true_is_false;
    unfold ws1, ws2, ws3, in_range; intros H; repeat (bool_prop; destruct_or?); lia.
Qed.

Lemma take_word_visible w r : forallb visible w = true -> take_word (w ++ " "%char :: r) = (w, " "%char :: r).
Proof.
  induction w as [|a w IH]; [done|]. cbn [forallb app take_word]. intros [Ha Hw]%andb_true_iff.
  destruct (visible_not_ws a a a Ha) as (E1 & _). rewrite E1.
  assert (E2 : match w ++ " "%char :: r with [] => false | b :: _ => ws2 a b end = false).
  { destruct (w ++ " "%char :: r) as [|b l]; [done|]. by destruct (visible_not_ws a b b Ha) as (_ & ? & _). }
  assert (E3 : match w ++ " "%char :: r with b :: c :: _ => ws3 a b c | _ => false end = false).
  { destruct (w ++ " "%char :: r) as [|b [|c l] ]; [done|done|]. by destruct (visible_not_ws a b c Ha) as (_ & _ & ? & _). }
  rewrite E2, E3. cbn [orb]. by rewrite (IH Hw).
Qed.

Lemma front_clean_visible a l : visible a = true -> front_clean ws1 ws2 ws3 (a :: l).
Proof.
  intros Ha. destruct l as [|b l]; [|destruct l as [|c l] ].
  - cbn. by destruct (visible_not_ws a a a Ha).
  - cbn. by destruct (visible_not_ws a b b Ha) as (? & ? & _).
  - cbn. by destruct (visible_not_ws a b c Ha) as (? & ? & ? & _).
Qed.

Lemma back_clean_visible a l :
  visible a = true -> front_clean ws1 (fun b a => ws2 a b) (fun c b a => ws3 a b c) (a :: l).
Proof.
  intros Ha. destruct l as [|b l]; [|destruct l as [|c l] ].
  - cbn. by destruct (visible_not_ws a a a Ha).
  - cbn. by destruct (visible_not_ws a b b Ha) as (? & _ & _ & ? & _).
  - cbn. by destruct (visible_not_ws a b c Ha) as (? & _ & _ & ? & ?).
Qed.

Lemma next_word_visible a w r :
  forallb visible (a :: w) = true -> next_word ((a :: w) ++ " "%char :: r) = Some (of_bytes (a :: w), " "%char :: r).
Proof.
  intros Hw. assert (Ha : visible a = true) by (cbn [forallb] in Hw; by apply andb_true_iff in Hw as [? _]).
  unfold next_word, trim_start_bytes. rewrite drop_front_id by (cbn [app]; by apply front_clean_visible).
  cbn [app]. rewrite (take_word_visible (a :: w) r Hw : take_word (a :: w ++ " "%char :: r) = _). done.
Qed.

Lemma next_word_space l : next_word (" "%char :: l) = next_word l.
Proof. unfold next_word, trim_start_bytes. by rewrite (drop_front_unfold _ _ _ (" "%char :: l)). Qed.

Lemma trim_space s : trim (String " " s) = trim s.
Proof. unfold trim, trim_start_bytes. cbn [bytes String.list_ascii_of_string]. by rewrite (drop_front_unfold _ _ _ (" "%char :: _)). Qed.

Lemma trim_visible_text s : all_bytes visible s = true -> trim s = s.
Proof.
  unfold all_bytes, trim. intros Hs. rewrite forallb_forall in Hs.
  assert (E : trim_start_bytes (bytes s) = bytes s).
  { unfold trim_start_bytes. apply drop_front_id. destruct (bytes s) as [|a l]; [done|]. apply front_clean_visible, Hs. by left. }
  rewrite E. unfold trim_end_bytes. rewrite drop_front_id, rev_involutive; [apply of_bytes_bytes|].
  destruct (rev (bytes s)) as [|a l] eqn:Er; [done|]. apply back_clean_visible, Hs, in_rev. rewrite Er. by left.
Qed.
