(* ===== verification/BTree.v ===== *)
(** * Ordered maps ([std::collections::BTreeMap])

    A [BTreeMap] is its entries in increasing key order: iteration order is
    visible to MCPace (the first conflicting lease, the first minimum), so the
    model keeps it.  [KeyOrder] is the interface of a key type ([Ord]). *)

From Stdlib Require Import Ascii.
From S2P Require Import Prelude RustStr.

(** ** Key orders *)

Class KeyOrder (K : Type) := {
  key_cmp : K -> K -> comparison;
  key_cmp_eq a b : key_cmp a b = Eq <-> a = b;
  key_cmp_antisym a b : key_cmp b a = CompOpp (key_cmp a b);
  key_cmp_trans a b c : key_cmp a b = Lt -> key_cmp b c = Lt -> key_cmp a c = Lt
}.

(** [Ord for str] compares bytes from the left. *)
Fixpoint str_cmp (a b : string) : comparison :=
  match a, b with
  | EmptyString, EmptyString => Eq
  | EmptyString, String _ _ => Lt
  | String _ _, EmptyString => Gt
  | String x a', String y b' =>
      match (code x ?= code y)%N with Eq => str_cmp a' b' | c => c end
  end.

Lemma code_inj a b : code a = code b -> a = b.
Proof.
  intros H. apply (f_equal ascii_of_N) in H. unfold code in H. by rewrite !ascii_N_embedding in H.
Qed.

Lemma str_cmp_eq a b : str_cmp a b = Eq <-> a = b.
Proof.
  revert b. induction a as [|x a IH]; intros [|y b]; simpl; try (split; congruence).
  destruct (N.compare_spec (code x) (code y)) as [H|H|H].
  - apply code_inj in H as ->. rewrite IH. split; congruence.
  - split; [congruence|]. intros [= -> ->]. lia.
  - split; [congruence|]. intros [= -> ->]. lia.
Qed.

Lemma str_cmp_antisym a b : str_cmp b a = CompOpp (str_cmp a b).
Proof.
  revert b. induction a as [|x a IH]; intros [|y b]; simpl; try done.
  rewrite (N.compare_antisym (code x)). destruct (code x ?= code y)%N; simpl; auto.
Qed.

Lemma str_cmp_trans a b c : str_cmp a b = Lt -> str_cmp b c = Lt -> str_cmp a c = Lt.
Proof.
  revert b c. induction a as [|x a IH]; intros [|y b] [|z c]; simpl; try congruence.
  destruct (N.compare_spec (code x) (code y)), (N.compare_spec (code y) (code z)),
    (N.compare_spec (code x) (code z)); try congruence; try lia; eauto.
Qed.

#[export] Instance string_key_order : KeyOrder string := {
  key_cmp := str_cmp;
  key_cmp_eq := str_cmp_eq;
  key_cmp_antisym := str_cmp_antisym;
  key_cmp_trans := str_cmp_trans
}.

(** Lexicographic orders, for derived [Ord] on structs. *)
Definition lex_cmp {A B} `{KeyOrder A, KeyOrder B} (x y : A * B) : comparison :=
  match key_cmp (fst x) (fst y) with Eq => key_cmp (snd x) (snd y) | c => c end.

#[export, refine] Instance pair_key_order {A B} `{KeyOrder A, KeyOrder B} : KeyOrder (A * B) := {
  key_cmp := lex_cmp
}.
Proof.
  - intros [a1 b1] [a2 b2]; unfold lex_cmp; simpl.
    destruct (key_cmp a1 a2) eqn:E.
    + apply key_cmp_eq in E as ->. rewrite key_cmp_eq. split; congruence.
    + split; [congruence|]. intros [= -> ->]. rewrite (proj2 (key_cmp_eq a2 a2)) in E; congruence.
    + split; [congruence|]. intros [= -> ->]. rewrite (proj2 (key_cmp_eq a2 a2)) in E; congruence.
  - intros [a1 b1] [a2 b2]; unfold lex_cmp; simpl.
    rewrite (key_cmp_antisym a1 a2). destruct (key_cmp a1 a2); simpl; auto using key_cmp_antisym.
  - intros [a1 b1] [a2 b2] [a3 b3]; unfold lex_cmp; simpl.
    destruct (key_cmp a1 a2) eqn:E12, (key_cmp a2 a3) eqn:E23; try congruence; intros H1 H2.
    + apply key_cmp_eq in E12 as ->, E23 as ->. rewrite (proj2 (key_cmp_eq a3 a3)) by done.
      eauto using key_cmp_trans.
    + apply key_cmp_eq in E12 as ->. by rewrite E23.
    + apply key_cmp_eq in E23 as ->. by rewrite E12.
    + by rewrite (key_cmp_trans a1 a2 a3).
Defined.

#[export] Instance N_key_order : KeyOrder N := {
  key_cmp := N.compare;
  key_cmp_eq := N.compare_eq_iff;
  key_cmp_antisym a b := N.compare_antisym a b;
  key_cmp_trans a b c H1 H2 :=
    proj2 (N.compare_lt_iff a c)
      (N.lt_trans a b c (proj1 (N.compare_lt_iff a b) H1) (proj1 (N.compare_lt_iff b c) H2))
}.

(** ** Maps *)

Section btree.
Context {K V : Type} `{KeyOrder K}.

Definition key_lt (a b : K) : Prop := key_cmp a b = Lt.

(** [get], [contains_key]. *)
Fixpoint bt_get (k : K) (m : list (K * V)) : option V :=
  match m with
  | [] => None
  | (k', v) :: m' => match key_cmp k k' with Eq => Some v | _ => bt_get k m' end
  end.

Definition bt_contains (k : K) (m : list (K * V)) : bool := is_some (bt_get k m).

(** [insert]: replaces the value of an existing key. *)
Fixpoint bt_insert (k : K) (v : V) (m : list (K * V)) : list (K * V) :=
  match m with
  | [] => [(k, v)]
  | (k', v') :: m' =>
      match key_cmp k k' with
      | Lt => (k, v) :: m
      | Eq => (k, v) :: m'
      | Gt => (k', v') :: bt_insert k v m'
      end
  end.

Fixpoint bt_remove (k : K) (m : list (K * V)) : list (K * V) :=
  match m with
  | [] => []
  | (k', v') :: m' => match key_cmp k k' with Eq => m' | _ => (k', v') :: bt_remove k m' end
  end.

(** [retain], [values], [keys], [FromIterator]. *)
Definition bt_retain (p : K -> V -> bool) (m : list (K * V)) : list (K * V) :=
  List.filter (fun kv => p (fst kv) (snd kv)) m.

Definition bt_values (m : list (K * V)) : list V := map snd m.
Definition bt_keys (m : list (K * V)) : list K := map fst m.

Definition bt_of_list (l : list (K * V)) : list (K * V) :=
  fold_left (fun m kv => bt_insert (fst kv) (snd kv) m) l [].

(** The representation invariant: keys strictly increase. *)
Definition bt_wf (m : list (K * V)) : Prop :=
  StronglySorted (fun p q => key_lt (fst p) (fst q)) m.

Lemma bt_nil_wf : bt_wf [].
Proof. constructor. Qed.

Lemma key_cmp_refl k : key_cmp k k = Eq.
Proof. by apply key_cmp_eq. Qed.

Lemma key_lt_ne a b : key_lt a b -> a <> b.
Proof. unfold key_lt. intros Hl ->. rewrite key_cmp_refl in Hl. done. Qed.

Lemma key_cmp_Gt a b : key_cmp a b = Gt <-> key_cmp b a = Lt.
Proof. rewrite (key_cmp_antisym a b). destruct (key_cmp a b); simpl; split; congruence. Qed.

Lemma bt_get_insert_eq k v m : bt_get k (bt_insert k v m) = Some v.
Proof.
  induction m as [|[k' v'] m IH]; simpl; [by rewrite key_cmp_refl|].
  destruct (key_cmp k k') eqn:E; simpl; rewrite ?key_cmp_refl, ?E; auto.
Qed.

Lemma bt_get_insert_ne k k' v m : k <> k' -> bt_get k' (bt_insert k v m) = bt_get k' m.
Proof.
  intros Hne. assert (Hc : key_cmp k' k <> Eq) by (rewrite key_cmp_eq; congruence).
  induction m as [|[k2 v2] m IH]; simpl; [by destruct (key_cmp k' k)|].
  destruct (key_cmp k k2) eqn:E; simpl.
  - apply key_cmp_eq in E as ->. by destruct (key_cmp k' k2).
  - by destruct (key_cmp k' k).
  - by rewrite IH.
Qed.

Lemma bt_get_remove_ne k k' m : k <> k' -> bt_get k' (bt_remove k m) = bt_get k' m.
Proof.
  intros Hne. induction m as [|[k2 v2] m IH]; simpl; [done|].
  destruct (key_cmp k k2) eqn:E; simpl; rewrite ?IH; auto.
  apply key_cmp_eq in E as ->. destruct (key_cmp k' k2) eqn:E2; auto.
  apply key_cmp_eq in E2. congruence.
Qed.

Lemma bt_get_None_lt k m : Forall (fun q => key_lt k (fst q)) m -> bt_get k m = None.
Proof. induction 1 as [|[k' v'] m Hk _ IH]; simpl in *; [done|]. by rewrite Hk. Qed.

Lemma bt_get_remove_eq k m : bt_wf m -> bt_get k (bt_remove k m) = None.
Proof.
  induction 1 as [|[k' v'] m Hs IH Hall]; simpl; [done|].
  destruct (key_cmp k k') eqn:E; simpl; rewrite ?E; auto.
  apply key_cmp_eq in E as ->. by apply bt_get_None_lt.
Qed.

Lemma bt_insert_elem k v m p : p ∈ bt_insert k v m -> p = (k, v) \/ p ∈ m.
Proof.
  induction m as [|[k' v'] m IH]; simpl; [by rewrite list_elem_of_singleton; left|].
  destruct (key_cmp k k'); rewrite !elem_of_cons; naive_solver.
Qed.

Lemma bt_remove_elem k m p : p ∈ bt_remove k m -> p ∈ m.
Proof.
  induction m as [|[k' v'] m IH]; simpl; [done|].
  destruct (key_cmp k k'); rewrite ?elem_of_cons; naive_solver.
Qed.

Lemma bt_insert_wf k v m : bt_wf m -> bt_wf (bt_insert k v m).
Proof.
  induction 1 as [|[k' v'] m Hs IH Hall]; simpl; [repeat constructor|].
  rewrite Forall_forall in Hall. destruct (key_cmp k k') eqn:E.
  - apply key_cmp_eq in E as ->. constructor; [done|]. by apply Forall_forall.
  - constructor; [constructor; [done|by apply Forall_forall]|].
    constructor; [done|]. apply Forall_forall. intros q Hq.
    eapply key_cmp_trans; [exact E|]. by apply Hall.
  - constructor; [done|]. apply Forall_forall. intros q [->|Hq]%bt_insert_elem; [|by apply Hall].
    by apply key_cmp_Gt.
Qed.

Lemma bt_remove_wf k m : bt_wf m -> bt_wf (bt_remove k m).
Proof.
  induction 1 as [|[k' v'] m Hs IH Hall]; simpl; [constructor|].
  destruct (key_cmp k k'); [done|..].
  all: constructor; [done|]; rewrite Forall_forall in Hall |- *;
    intros q Hq%bt_remove_elem; by apply Hall.
Qed.

Lemma bt_retain_elem p m kv : kv ∈ bt_retain p m <-> kv ∈ m /\ p kv.1 kv.2 = true.
Proof. unfold bt_retain. rewrite !list_elem_of_In, filter_In. done. Qed.

Lemma bt_retain_wf p m : bt_wf m -> bt_wf (bt_retain p m).
Proof.
  induction 1 as [|[k' v'] m Hs IH Hall]; simpl; [constructor|].
  destruct (p k' v'); [|done]. constructor; [done|].
  rewrite Forall_forall in Hall |- *. intros q [Hq _]%bt_retain_elem. by apply Hall.
Qed.

Lemma bt_of_list_wf l : bt_wf (bt_of_list l).
Proof.
  unfold bt_of_list. rewrite <- fold_left_rev_right.
  induction (rev l) as [|kv r IH]; simpl; [constructor|]. by apply bt_insert_wf.
Qed.

(** Entries and lookups agree. *)
Lemma bt_get_elem k v m : bt_get k m = Some v -> (k, v) ∈ m.
Proof.
  induction m as [|[k' v'] m IH]; simpl; [done|]. rewrite elem_of_cons.
  destruct (key_cmp k k') eqn:E; auto. apply key_cmp_eq in E as ->. naive_solver.
Qed.

Lemma bt_elem_get k v m : bt_wf m -> (k, v) ∈ m -> bt_get k m = Some v.
Proof.
  induction 1 as [|[k' v'] m Hs IH Hall]; simpl; [by intros ?%not_elem_of_nil|].
  rewrite elem_of_cons. intros [[= <- <-]|Hin]; [by rewrite key_cmp_refl|].
  rewrite Forall_forall in Hall. specialize (Hall _ Hin). simpl in Hall.
  assert (key_cmp k k' = Gt) as -> by (by apply key_cmp_Gt). auto.
Qed.

Lemma bt_get_retain p k m :
  bt_wf m -> bt_get k (bt_retain p m) = opt_filter (p k) (bt_get k m).
Proof.
  intros Hwf. destruct (bt_get k m) as [v|] eqn:E; simpl.
  - apply bt_get_elem in E. destruct (p k v) eqn:Ep.
    + apply bt_elem_get; [by apply bt_retain_wf|]. by apply bt_retain_elem.
    + destruct (bt_get k (bt_retain p m)) as [w|] eqn:E2; [|done].
      apply bt_get_elem, bt_retain_elem in E2 as [E2 Hw]. simpl in Hw.
      apply bt_elem_get in E, E2; auto. congruence.
  - destruct (bt_get k (bt_retain p m)) as [w|] eqn:E2; [|done].
    apply bt_get_elem, bt_retain_elem in E2 as [E2 _]. apply bt_elem_get in E2; auto. congruence.
Qed.

Lemma bt_values_elem v m : v ∈ bt_values m <-> exists k, (k, v) ∈ m.
Proof.
  unfold bt_values. rewrite list_elem_of_fmap. split.
  - intros ([k w] & -> & Hin). by exists k.
  - intros [k Hin]. by exists (k, v).
Qed.

Lemma bt_length_insert_new k v m :
  bt_get k m = None -> length (bt_insert k v m) = S (length m).
Proof.
  induction m as [|[k' v'] m IH]; simpl; [done|].
  destruct (key_cmp k k'); simpl; [done|done|]. intros ?. by rewrite IH.
Qed.

Lemma bt_length_insert_le k v m : length (bt_insert k v m) <= S (length m).
Proof.
  induction m as [|[k' v'] m IH]; simpl; [lia|]. destruct (key_cmp k k'); simpl; lia.
Qed.

Lemma bt_length_remove k v m :
  bt_get k m = Some v -> S (length (bt_remove k m)) = length m.
Proof.
  induction m as [|[k' v'] m IH]; simpl; [done|].
  destruct (key_cmp k k'); simpl; [done|..]; intros; by rewrite IH.
Qed.

Lemma bt_remove_lt k m : Forall (fun q => key_lt k (fst q)) m -> bt_remove k m = m.
Proof.
  induction 1 as [|[k' v'] m Hk _ IH]; [done|]. simpl in *. unfold key_lt in Hk. rewrite Hk. by rewrite IH.
Qed.

(** Removing a fresh key after inserting it restores the map. *)
Lemma bt_remove_insert k v m : bt_wf m -> bt_get k m = None -> bt_remove k (bt_insert k v m) = m.
Proof.
  unfold bt_wf. induction 1 as [|[k' v'] m Hs IH Hf]; simpl; [by rewrite key_cmp_refl|].
  destruct (key_cmp k k') eqn:E; simpl; [done|..].
  - intros _. rewrite key_cmp_refl. done.
  - rewrite E. intros Hn. by rewrite IH.
Qed.

(** Counting the values with a property. *)
Definition bt_count (p : V -> bool) (m : list (K * V)) : nat :=
  length (List.filter p (bt_values m)).

Lemma bt_count_cons p k v m :
  bt_count p ((k, v) :: m) = (if p v then 1 else 0) + bt_count p m.
Proof. unfold bt_count; simpl. by destruct (p v). Qed.

Lemma bt_count_insert_le p k v m :
  bt_count p (bt_insert k v m) <= (if p v then 1 else 0) + bt_count p m.
Proof.
  induction m as [|[k' v'] m IH]; simpl; [rewrite !bt_count_cons; lia|].
  destruct (key_cmp k k') eqn:E; rewrite !bt_count_cons; simpl; try lia.
Qed.

Lemma bt_count_insert_new p k v m :
  bt_get k m = None -> bt_count p (bt_insert k v m) = (if p v then 1 else 0) + bt_count p m.
Proof.
  induction m as [|[k' v'] m IH]; simpl; [by rewrite !bt_count_cons|].
  destruct (key_cmp k k') eqn:E; rewrite !bt_count_cons; [done|done|]. intros Hn.
  rewrite (IH Hn). lia.
Qed.

Lemma bt_count_remove p k v m :
  bt_get k m = Some v ->
  bt_count p m = (if p v then 1 else 0) + bt_count p (bt_remove k m).
Proof.
  induction m as [|[k' v'] m IH]; simpl; [done|].
  destruct (key_cmp k k') eqn:E; rewrite !bt_count_cons; [by intros [= ->]|..];
    intros Hg; rewrite (IH Hg); lia.
Qed.

Lemma bt_count_remove_le p k m : bt_count p (bt_remove k m) <= bt_count p m.
Proof.
  induction m as [|[k' v'] m IH]; simpl; [done|].
  destruct (key_cmp k k') eqn:E; rewrite !bt_count_cons; lia.
Qed.

Lemma bt_count_retain_le p q m : bt_count p (bt_retain q m) <= bt_count p m.
Proof.
  induction m as [|[k' v'] m IH]; simpl; [done|].
  destruct (q k' v'); rewrite !bt_count_cons; lia.
Qed.

Lemma bt_count_zero p m :
  bt_count p m = 0 <-> forall k v, (k, v) ∈ m -> p v = false.
Proof.
  induction m as [|[k' v'] m IH]; simpl.
  - split; [by intros _ k v ?%not_elem_of_nil|done].
  - rewrite bt_count_cons. split.
    + intros Hz k v [[= -> ->]|Hin]%elem_of_cons; [by destruct (p v')|].
      apply IH with k; [lia|done].
    + intros Hall. rewrite (Hall k' v'); [|left]. simpl. apply IH. intros k v Hin.
      apply (Hall k v). by right.
Qed.

End btree.

#[export] Hint Resolve bt_insert_wf bt_remove_wf bt_retain_wf bt_of_list_wf : mcpace.
