(* ===== verification/Json.v ===== *)
(** * JSON values (src/json.rs, src/json_helpers.rs)

    The tree every MCPace component exchanges.  Numbers are kept as text, as in
    the source; objects are [BTreeMap]s.  serde_json, which reads and prints the
    text, is a parameter: its number type and its printer and parser. *)

From Stdlib Require Import Ascii.
From stdpp Require Import countable.
From S2P Require Import Prelude RustStr BTree.

(** ** The tree *)

Inductive JsonValue : Type :=
| JNull
| JBool (b : bool)
| JNumber (text : string)
| JString (text : string)
| JArray (items : list JsonValue)
| JObject (map : list (string * JsonValue)).

Definition json_object (entries : list (string * JsonValue)) : JsonValue :=
  JObject (bt_of_list entries).

Definition json_array (items : list JsonValue) : JsonValue := JArray items.
Definition json_string (value : string) : JsonValue := JString value.
Definition json_bool (value : bool) : JsonValue := JBool value.

(** [JsonValue::number] of an unsigned and of a signed integer. *)
Definition json_number (value : N) : JsonValue := JNumber (N_to_string value).
Definition json_number_i64 (value : Z) : JsonValue := JNumber (Z_to_string value).

Definition json_get (v : JsonValue) (key : string) : option JsonValue :=
  match v with JObject map => bt_get key map | _ => None end.

Definition as_object (v : JsonValue) : option (list (string * JsonValue)) :=
  match v with JObject map => Some map | _ => None end.

Definition as_array (v : JsonValue) : option (list JsonValue) :=
  match v with JArray items => Some items | _ => None end.

Definition as_str (v : JsonValue) : option string :=
  match v with JString value => Some value | _ => None end.

Definition as_bool (v : JsonValue) : option bool :=
  match v with JBool value => Some value | _ => None end.

Definition as_i64 (v : JsonValue) : option Z :=
  match v with JNumber value => parse_i64 value | _ => None end.

(** ** Helpers *)

Fixpoint value_at_path (v : JsonValue) (path : list string) : option JsonValue :=
  match path with
  | [] => Some v
  | key :: rest => match json_get v key with Some next => value_at_path next rest | None => None end
  end.

Definition object_at_path (v : JsonValue) (path : list string) : option (list (string * JsonValue)) :=
  value_at_path v path ≫= as_object.

Definition array_at_path (v : JsonValue) (path : list string) : option (list JsonValue) :=
  value_at_path v path ≫= as_array.

Definition string_at_path (v : JsonValue) (path : list string) : option string :=
  value_at_path v path ≫= as_str.

Definition bool_at_path (v : JsonValue) (path : list string) : option bool :=
  value_at_path v path ≫= as_bool.

Definition mcp_servers_object_with_key (v : JsonValue)
    : option (string * list (string * JsonValue)) :=
  opt_or (option_map (fun servers => ("mcpServers", servers)) (object_at_path v ["mcpServers"]))
         (option_map (fun servers => ("servers", servers)) (object_at_path v ["servers"])).

Definition mcp_servers_object (v : JsonValue) : option (list (string * JsonValue)) :=
  option_map snd (mcp_servers_object_with_key v).

Definition strings_from_array (value : option (list JsonValue)) : list string :=
  List.filter (fun item => negb (str_is_empty item))
    (omap (fun item => option_map trim (as_str item)) (unwrap_or value [])).

Definition json_string_or_null (value : option string) : JsonValue :=
  match value with Some value => json_string value | None => JNull end.

Definition empty_object : JsonValue := JObject [].

Definition optional_number (value : option N) : JsonValue :=
  match value with Some value => json_number value | None => JNull end.

(** ** Induction over the tree *)

Section JsonValue_nested_ind.
Variable P : JsonValue -> Prop.
Hypothesis P_null : P JNull.
Hypothesis P_bool : forall b, P (JBool b).
Hypothesis P_number : forall t, P (JNumber t).
Hypothesis P_string : forall t, P (JString t).
Hypothesis P_array : forall l, Forall P l -> P (JArray l).
Hypothesis P_object : forall m, Forall (fun kv => P (snd kv)) m -> P (JObject m).

Fixpoint JsonValue_nested_ind (v : JsonValue) : P v :=
  match v with
  | JNull => P_null
  | JBool b => P_bool b
  | JNumber t => P_number t
  | JString t => P_string t
  | JArray l =>
      P_array l ((fix go l : Forall P l :=
        match l with
        | [] => Forall_nil_2 _
        | x :: l' => Forall_cons_2 _ x l' (JsonValue_nested_ind x) (go l')
        end) l)
  | JObject m =>
      P_object m ((fix go m : Forall (fun kv => P (snd kv)) m :=
        match m with
        | [] => Forall_nil_2 _
        | (k, x) :: m' => Forall_cons_2 _ (k, x) m' (JsonValue_nested_ind x) (go m')
        end) m)
  end.
End JsonValue_nested_ind.

(** ** serde_json

    [serde_json::Value] with an abstract number type; its maps are ordered maps
    as well (the crate is built without [preserve_order]). *)

Inductive SerdeValue (num : Type) : Type :=
| SNull
| SBool (b : bool)
| SNumber (n : num)
| SString (text : string)
| SArray (items : list (SerdeValue num))
| SObject (map : list (string * SerdeValue num)).

Arguments SNull {num}.
Arguments SBool {num} b.
Arguments SNumber {num} n.
Arguments SString {num} text.
Arguments SArray {num} items.
Arguments SObject {num} map.

(** What the code calls of the crate. *)
Class SerdeJson := {
  serde_number : Type;
  number_parse : string -> option serde_number;
  number_print : serde_number -> string;
  print_pretty : SerdeValue serde_number -> string;
  print_compact : SerdeValue serde_number -> string;
  parse_text : string -> result (SerdeValue serde_number) string
}.

Section serde.
Context `{SerdeJson}.

Fixpoint from_serde_value (value : SerdeValue serde_number) : JsonValue :=
  match value with
  | SNull => JNull
  | SBool value => JBool value
  | SNumber value => JNumber (number_print value)
  | SString value => JString value
  | SArray items => JArray (map from_serde_value items)
  | SObject object => JObject (map (fun kv => (fst kv, from_serde_value (snd kv))) object)
  end.

Fixpoint to_serde_value (value : JsonValue) : SerdeValue serde_number :=
  match value with
  | JNull => SNull
  | JBool value => SBool value
  | JNumber value =>
      match number_parse value with Some number => SNumber number | None => SString value end
  | JString value => SString value
  | JArray items => SArray (map to_serde_value items)
  | JObject map' => SObject (map (fun kv => (fst kv, to_serde_value (snd kv))) map')
  end.

Definition to_pretty_string (value : JsonValue) : string := print_pretty (to_serde_value value).
Definition to_compact_string (value : JsonValue) : string := print_compact (to_serde_value value).

Definition parse_str (input : string) : result JsonValue string :=
  match parse_text input with
  | Ok value => Ok (from_serde_value value)
  | Err error => Err error
  end.

(** Number texts serde_json keeps unchanged. *)
Definition exact_number (t : string) : Prop :=
  exists n, number_parse t = Some n /\ number_print n = t.

(** The trees a Rust program can hold and serde_json keeps: number texts as above,
    object keys strictly increasing (a [BTreeMap]), every string valid UTF-8. *)
Fixpoint representable (v : JsonValue) : Prop :=
  match v with
  | JNull | JBool _ => True
  | JNumber t => exact_number t
  | JString t => utf8_valid (bytes t) = true
  | JArray l => (fix all l := match l with [] => True | x :: l => representable x /\ all l end) l
  | JObject m =>
      bt_wf m
      /\ (fix all m :=
           match m with
           | [] => True
           | kv :: m => (utf8_valid (bytes (fst kv)) = true /\ representable (snd kv)) /\ all m
           end) m
  end.

(** Nesting of arrays and objects; serde_json's parser refuses more than 127. *)
Fixpoint json_depth (v : JsonValue) : nat :=
  match v with
  | JArray l => S ((fix go l := match l with [] => O | x :: l => Nat.max (json_depth x) (go l) end) l)
  | JObject m =>
      S ((fix go m := match m with [] => O | kv :: m => Nat.max (json_depth (snd kv)) (go m) end) m)
  | _ => O
  end.

Definition serializable (v : JsonValue) : Prop := representable v /\ (json_depth v <= 127)%nat.

Lemma representable_array l : representable (JArray l) <-> Forall representable l.
Proof.
  induction l as [|x l IH]; simpl in *; [done|]. rewrite Forall_cons, IH. done.
Qed.

Lemma representable_object m :
  representable (JObject m) <->
  bt_wf m /\ Forall (fun kv => utf8_valid (bytes (fst kv)) = true /\ representable (snd kv)) m.
Proof.
  simpl. apply and_iff_compat_l. induction m as [|x m IH]; simpl in *; [done|].
  by rewrite Forall_cons, IH.
Qed.

Lemma map_id_Forall {A} (f : A -> A) l : Forall (fun x => f x = x) l -> map f l = l.
Proof. induction 1; simpl; congruence. Qed.

(** Converting to serde_json's tree and back is the identity when every number
    text is one serde_json keeps. *)
Lemma from_to_serde v : representable v -> from_serde_value (to_serde_value v) = v.
Proof.
  induction v as [| | | | l IH | m IH] using JsonValue_nested_ind; simpl; try done.
  - by intros (n & -> & <-).
  - change (representable (JArray l) -> JArray (map from_serde_value (map to_serde_value l)) = JArray l).
    rewrite representable_array, map_map. intros Hx. f_equal. apply map_id_Forall.
    rewrite Forall_forall in IH, Hx |- *. auto.
  - change (representable (JObject m) ->
      JObject (map (fun kv => (fst kv, from_serde_value (snd kv)))
        (map (fun kv => (fst kv, to_serde_value (snd kv))) m)) = JObject m).
    rewrite representable_object, map_map. intros [_ Hx]. f_equal. apply map_id_Forall.
    rewrite Forall_forall in IH, Hx |- *. intros [k x] Hin. simpl. f_equal.
    by apply (IH (k, x)); [|apply (Hx (k, x))].
Qed.
End serde.

(** The documented behaviour MCPace relies on: an integer text up to [u64::MAX]
    parses to a number that prints back the same, and parsing inverts pretty
    printing on the trees above, within the parser's recursion limit. *)
Class SerdeJsonLaws `{SerdeJson} : Prop := {
  number_u64_exact n : (n <= U64_MAX)%N -> exact_number (N_to_string n);
  parse_print_pretty v : serializable v -> parse_text (print_pretty (to_serde_value v))
    = Ok (to_serde_value v)
}.

Lemma parse_str_pretty `{SerdeJsonLaws} v :
  serializable v -> parse_str (to_pretty_string v) = Ok v.
Proof.
  intros Hv. unfold parse_str, to_pretty_string. rewrite parse_print_pretty by done.
  destruct Hv. by rewrite from_to_serde.
Qed.

(** ** A concrete codec

    Shows that the laws can hold: [u64] numbers, and the text is the decimal
    numeral of the tree's code number. *)

Module TreeCodec.

Fixpoint to_tree (v : SerdeValue N) : gen_tree (string + N) :=
  match v with
  | SNull => GenNode 0 []
  | SBool b => GenNode (if b then 1 else 2) []
  | SNumber n => GenLeaf (inr n)
  | SString s => GenLeaf (inl s)
  | SArray l => GenNode 3 (map to_tree l)
  | SObject m => GenNode 4 (map (fun kv => GenNode 5 [GenLeaf (inl (fst kv)); to_tree (snd kv)]) m)
  end.

Fixpoint of_tree (t : gen_tree (string + N)) : SerdeValue N :=
  match t with
  | GenLeaf (inl s) => SString s
  | GenLeaf (inr n) => SNumber n
  | GenNode 1 _ => SBool true
  | GenNode 2 _ => SBool false
  | GenNode 3 l => SArray (map of_tree l)
  | GenNode 4 l =>
      SObject (map (fun t => match t with
                             | GenNode _ [GenLeaf (inl k); t'] => (k, of_tree t')
                             | _ => (EmptyString, SNull)
                             end) l)
  | GenNode _ _ => SNull
  end.

Fixpoint of_to_tree (v : SerdeValue N) : of_tree (to_tree v) = v.
Proof.
  destruct v as [|b|n|s|l|m]; simpl; try reflexivity.
  - by destruct b.
  - f_equal. rewrite map_map. induction l as [|x l IH]; simpl; [reflexivity|].
    f_equal; [apply of_to_tree|exact IH].
  - f_equal. rewrite map_map. induction m as [|[k x] m IH]; simpl; [reflexivity|].
    f_equal; [f_equal; apply of_to_tree|exact IH].
Defined.

Definition print (v : SerdeValue N) : string := N_to_string (Npos (encode (to_tree v))).

Definition parse (s : string) : result (SerdeValue N) string :=
  match parse_digits s with
  | Some (Npos p) =>
      match decode p with Some t => Ok (of_tree t) | None => Err "expected value" end
  | _ => Err "expected value"
  end.

#[export] Instance codec : SerdeJson := {
  serde_number := N;
  number_parse := parse_u64;
  number_print := N_to_string;
  print_pretty := print;
  print_compact := print;
  parse_text := parse
}.

#[export] Instance codec_laws : SerdeJsonLaws.
Proof.
  split.
  - intros n Hn. exists n. split; [|done]. by apply parse_unsigned_N_to_string.
  - intros v _. cbn [parse_text print_pretty codec]. unfold parse, print.
    by rewrite parse_digits_N_to_string, decode_encode, of_to_tree.
Qed.

(** A decision procedure for [representable] under this codec. *)
Definition exact_number_b (t : string) : bool :=
  match parse_u64 t with Some n => String.eqb (N_to_string n) t | None => false end.

Fixpoint keys_sorted_b (m : list (string * JsonValue)) : bool :=
  match m with
  | [] => true
  | (k, _) :: m' =>
      forallb (fun kv => match str_cmp k (fst kv) with Lt => true | _ => false end) m'
      && keys_sorted_b m'
  end.

Fixpoint representable_b (v : JsonValue) : bool :=
  match v with
  | JNull | JBool _ => true
  | JNumber t => exact_number_b t
  | JString t => utf8_valid (bytes t)
  | JArray l => forallb representable_b l
  | JObject m =>
      keys_sorted_b m
      && forallb (fun kv => utf8_valid (bytes (fst kv)) && representable_b (snd kv)) m
  end.

Lemma keys_sorted_b_sound m : keys_sorted_b m = true -> bt_wf m.
Proof.
  induction m as [|[k v] m IH]; [constructor|]. simpl. rewrite andb_true_iff, forallb_forall.
  intros [Hk Hs]. constructor; [by apply IH|]. apply Forall_forall. intros [k' v'] Hin.
  apply list_elem_of_In in Hin. specialize (Hk _ Hin). simpl in *. unfold key_lt, key_cmp. simpl.
  by destruct (str_cmp k k').
Qed.

Lemma representable_b_sound v : representable_b v = true -> representable (H := codec) v.
Proof.
  induction v as [| |t|t|l IH|m IH] using JsonValue_nested_ind; try done.
  - simpl. unfold exact_number_b, exact_number. cbn [number_parse number_print codec].
    destruct (parse_u64 t) as [n|]; [|done]. intros E%String.eqb_eq. by exists n.
  - intros Hb. apply representable_array. rewrite Forall_forall in IH |- *. intros x Hx. apply IH; [done|].
    simpl in Hb. rewrite forallb_forall in Hb. by apply Hb, list_elem_of_In.
  - intros Hb. simpl in Hb. apply andb_true_iff in Hb as [Hs Hb]. apply representable_object.
    split; [by apply keys_sorted_b_sound|]. rewrite forallb_forall in Hb.
    rewrite Forall_forall in IH |- *. intros kv Hkv. specialize (IH kv Hkv).
    apply list_elem_of_In, Hb, andb_true_iff in Hkv as [? ?]. auto.
Qed.

Lemma serializable_b_sound v :
  representable_b v && (json_depth v <=? 127)%nat = true -> serializable (H := codec) v.
Proof. rewrite andb_true_iff, Nat.leb_le. intros [? ?]. split; [by apply representable_b_sound|done]. Qed.

End TreeCodec.

(** * Properties *)

(** Every JSON tree the program can hold, within the parser's nesting
    limit, survives being pretty-printed and parsed: [parse_str] of
    [to_pretty_string] is the tree itself. *)
Theorem json_pretty_roundtrip `{SerdeJsonLaws} v :
  serializable v -> parse_str (to_pretty_string v) = Ok v.
Proof. apply parse_str_pretty. Qed.

Definition sample_json : JsonValue :=
  JObject [("leases", JArray [JNumber "7"; JNull; JString "a"]); ("version", JNumber "1")].

Lemma sample_json_serializable : serializable (H := TreeCodec.codec) sample_json.
Proof. apply TreeCodec.serializable_b_sound. reflexivity. Qed.

Lemma json_pretty_roundtrip_witness :
  parse_str (H := TreeCodec.codec) (to_pretty_string (H := TreeCodec.codec) sample_json) = Ok sample_json.
Proof.
  apply (json_pretty_roundtrip (H := TreeCodec.codec) (H0 := TreeCodec.codec_laws) sample_json),
    sample_json_serializable.
Defined.
