(* ===== verification/TextUtils.v ===== *)
(** * Text helpers (src/text_utils.rs)

    Flag normalisation, HTTP header validation and the scanner that looks for
    shell composition in a command line. *)

From Stdlib Require Import Ascii.
From S2P Require Import Prelude RustStr.

Definition yes_no (value : bool) : string := if value then "yes" else "no".

Definition normalize_flag (value : string) : string := to_ascii_lowercase (trim value).

Definition join_or_none (values : list string) : string :=
  match values with [] => "none" | _ => join ", " values end.

(** Every character of a non-empty string is ASCII alphanumeric or one of [extra]. *)
Definition ascii_alnum_dash_underscore (value : string) : bool :=
  negb (str_is_empty value)
  && all_bytes (fun ch => is_ascii_alphanumeric ch || Ascii.eqb ch "-" || Ascii.eqb ch "_") value.

Definition valid_http_header_name (value : string) : bool :=
  negb (str_is_empty value)
  && all_bytes (fun byte =>
       is_ascii_alphanumeric byte || Ascii.eqb byte "-" || Ascii.eqb byte "_"
       || Ascii.eqb byte "." || Ascii.eqb byte "~") value.

Definition reserved_names : list string :=
  ["host"; "content-length"; "transfer-encoding"; "connection"; "accept"; "content-type";
   "mcp-protocol-version"; "mcp-session-id"].

Definition reserved_mcp_http_header_name (value : string) : bool :=
  existsb (String.eqb (to_ascii_lowercase (trim value))) reserved_names.

Definition valid_http_field_value (value : string) : bool :=
  negb (str_is_empty value)
  && all_bytes (fun byte => Ascii.eqb byte " " || in_range 33 126 byte) value.

Definition valid_http_header_value (value : string) : bool :=
  negb (str_is_empty value) && all_bytes (in_range 33 126) value.

Definition trimmed_non_empty_owned (value : option string) : option string :=
  opt_filter (fun v => negb (str_is_empty v)) (option_map trim value).

Definition sorted_unique (values : list string) : list string := sort_dedup values.

(** ** Shell composition *)

Definition backslash : ascii := "092".
Definition single_quote : ascii := "039".
Definition double_quote : ascii := "034".
Definition backtick : ascii := "096".

Record quote_state := QuoteState {
  single_quoted : bool;
  double_quoted : bool;
  escaped : bool
}.

Definition quote_init : quote_state := QuoteState false false false.

(** How one character changes the quoting flags. *)
Definition quote_step (st : quote_state) (ch : ascii) : quote_state :=
  if escaped st then QuoteState (single_quoted st) (double_quoted st) false
  else if Ascii.eqb ch backslash && negb (single_quoted st) then
    QuoteState (single_quoted st) (double_quoted st) true
  else if Ascii.eqb ch single_quote && negb (double_quoted st) then
    QuoteState (negb (single_quoted st)) (double_quoted st) (escaped st)
  else if Ascii.eqb ch double_quote && negb (single_quoted st) then
    QuoteState (single_quoted st) (negb (double_quoted st)) (escaped st)
  else st.

(** A character the scanner tests at all: outside quotes and not an escape or a quote. *)
Definition bare (st : quote_state) (ch : ascii) : bool :=
  negb (escaped st) && negb (Ascii.eqb ch backslash && negb (single_quoted st))
  && negb (Ascii.eqb ch single_quote && negb (double_quoted st))
  && negb (Ascii.eqb ch double_quote && negb (single_quoted st))
  && negb (single_quoted st || double_quoted st).

Definition shell_meta (ch : ascii) : bool :=
  existsb (Ascii.eqb ch) [backtick; ";"; "|"; "<"; ">"; "&"]%char.

(** The loop of [uses_shell_composition]: [chars.get(index + 1)] is the head of
    what is left. The scan runs over UTF-8 bytes instead of characters: every
    character it tests for is ASCII, and the bytes of a longer character are
    neither quotes, escapes nor metacharacters. *)
Fixpoint shell_scan (st : quote_state) (chars : list ascii) : bool :=
  match chars with
  | [] => false
  | ch :: rest =>
      if escaped st then shell_scan (QuoteState (single_quoted st) (double_quoted st) false) rest
      else if Ascii.eqb ch backslash && negb (single_quoted st) then
        shell_scan (QuoteState (single_quoted st) (double_quoted st) true) rest
      else if Ascii.eqb ch single_quote && negb (double_quoted st) then
        shell_scan (QuoteState (negb (single_quoted st)) (double_quoted st) false) rest
      else if Ascii.eqb ch double_quote && negb (single_quoted st) then
        shell_scan (QuoteState (single_quoted st) (negb (double_quoted st)) false) rest
      else if single_quoted st || double_quoted st then shell_scan st rest
      else if shell_meta ch then true
      else if Ascii.eqb ch "$" && match rest with c :: _ => Ascii.eqb c "(" | [] => false end then true
      else shell_scan st rest
  end.

Definition uses_shell_composition (value : string) : bool := shell_scan quote_init (bytes value).

(** ** Lemmas *)

(** A position at which a shell would compose commands: outside quotes, a
    metacharacter or the opening of a command substitution. *)
Definition composition_at (st : quote_state) (ch : ascii) (rest : list ascii) : Prop :=
  bare st ch = true /\ (shell_meta ch = true \/ ch = "$"%char /\ head rest = Some "("%char).

Lemma quote_step_escaped_false st ch : escaped st = false ->
  escaped (quote_step st ch) = Ascii.eqb ch backslash && negb (single_quoted st).
Proof.
  intros E. unfold quote_step. rewrite E. destruct (Ascii.eqb ch backslash && _) eqn:E1; [done|].
  repeat case_stuck; simpl; congruence.
Qed.

Lemma dollar_paren_iff ch (rest : list ascii) :
  (Ascii.eqb ch "$" && match rest with c :: _ => Ascii.eqb c "(" | [] => false end) = true
  <-> ch = "$"%char /\ head rest = Some "("%char.
Proof.
  rewrite andb_true_iff, Ascii.eqb_eq. destruct rest as [|c r]; simpl; [intuition congruence|].
  rewrite Ascii.eqb_eq. intuition congruence.
Qed.

Lemma shell_scan_cons st ch rest :
  shell_scan st (ch :: rest) = true <->
  composition_at st ch rest \/ shell_scan (quote_step st ch) rest = true.
Proof.
  pose proof (dollar_paren_iff ch rest) as Hd.
  unfold composition_at, bare, quote_step. cbn [shell_scan].
  destruct st as [s d e]; simpl. destruct e; simpl; [intuition congruence|].
  destruct (Ascii.eqb ch backslash && negb s); simpl; [intuition congruence|].
  destruct (Ascii.eqb ch single_quote && negb d); simpl; [intuition congruence|].
  destruct (Ascii.eqb ch double_quote && negb s); simpl; [intuition congruence|].
  destruct (s || d); simpl; [intuition congruence|].
  destruct (shell_meta ch) eqn:Em; simpl; [intuition congruence|].
  destruct (Ascii.eqb ch "$" && _) eqn:E; [intuition|].
  split; [by right|]. intros [[_ [?|H]]|?]; [congruence| |done]. apply Hd in H. congruence.
Qed.

(** The scanner answers true exactly when some position outside quotes composes. *)
Lemma shell_scan_iff st l :
  shell_scan st l = true <->
  exists pre ch rest, l = pre ++ ch :: rest /\ composition_at (fold_left quote_step pre st) ch rest.
Proof.
  revert st. induction l as [|c l IH]; intros st.
  - split; [done|]. intros (pre & ch & rest & H & _). by destruct pre.
  - rewrite shell_scan_cons, IH. split.
    + intros [H|(pre & ch & rest & -> & H)]; [by exists [], c, l|]. by exists (c :: pre), ch, rest.
    + intros ([|c' pre] & ch & rest & [= -> ->] & H); [by left|].
      right. by exists pre, ch, rest.
Qed.

Lemma all_bytes_elem p s c : all_bytes p s = true -> c ∈ bytes s -> p c = true.
Proof. unfold all_bytes. rewrite forallb_forall, list_elem_of_In. auto. Qed.

Lemma trimmed_non_empty_owned_Some v w :
  trimmed_non_empty_owned v = Some w -> w <> EmptyString /\ trim w = w.
Proof.
  unfold trimmed_non_empty_owned. intros [Hw Hne]%opt_filter_Some.
  destruct v as [v|]; simpl in Hw; [|done]. injection Hw as <-. rewrite trim_idem.
  split; [|done]. apply str_is_empty_false. by apply negb_true_iff.
Qed.

(** * Properties *)

(** [uses_shell_composition] answers true exactly when the command line
    has a position, outside single quotes, double quotes and backslash escapes, that
    holds a shell metacharacter or opens a command substitution. *)
Theorem uses_shell_composition_iff value :
  uses_shell_composition value = true <->
  exists pre ch rest, bytes value = pre ++ ch :: rest
    /\ composition_at (fold_left quote_step pre quote_init) ch rest.
Proof. apply shell_scan_iff. Qed.
