(* ===== verification/Execution.v ===== *)
(** * Execution policies (src/execution.rs)

    The policy the scheduler consumes: how it is resolved from the configuration,
    clamped to safe bounds, and how a request's affinity key is derived from it. *)

From Stdlib Require Import Ascii.
From S2P Require Import Prelude RustStr BTree Json.

Definition EXECUTION_PROTOCOL : string := "mcpace.execution.v1".
Definition DEFAULT_MAX_QUEUE_DEPTH : N := 256.
Definition DEFAULT_IDLE_TTL_MS : N := 300000.
Definition MAX_QUEUE_TIMEOUT_MS : N := 300000.
Definition MAX_WORKERS : N := 64.
Definition MAX_IN_FLIGHT_PER_WORKER : N := 64.
Definition MAX_QUEUE_DEPTH : N := 10000.
Definition MAX_IDLE_TTL_MS : N := 86400000.

(** [DefaultHasher]: the standard library leaves the algorithm open; [finish]
    returns a [u64]. *)
Class Hasher := {
  hash_str : string -> N;
  hash_str_u64 s : (hash_str s <= U64_MAX)%N
}.

Inductive ExecutionPolicyError : Type :=
| UnsupportedMode (mode : string)
| MissingAffinity (mode dimension : string).

Definition display_policy_error (e : ExecutionPolicyError) : string :=
  match e with
  | UnsupportedMode mode =>
      "unsupported execution mode '" +:+ mode +:+
      "'; expected shared, serialized, session-isolated, project-isolated, pool, or disabled"
  | MissingAffinity mode dimension =>
      "execution mode '" +:+ mode +:+ "' requires '" +:+ dimension +:+
      "' affinity, but the request did not provide a usable value"
  end.

Inductive ExecutionMode : Type :=
| Shared | Serialized | SessionIsolated | ProjectIsolated | Pool | Disabled.

#[export] Instance ExecutionMode_eq_dec : EqDecision ExecutionMode.
Proof. solve_decision. Defined.

Definition mode_eqb (a b : ExecutionMode) : bool := bool_decide (a = b).

(** [value.trim().to_ascii_lowercase().replace('_', "-")]. *)
Definition normalize_token (value : string) : string :=
  replace_char "_" "-" (to_ascii_lowercase (trim value)).

Definition one_of (names : list string) (value : string) : bool := existsb (String.eqb value) names.

Arguments one_of : simpl never.

Definition mode_parse (raw : string) : result ExecutionMode ExecutionPolicyError :=
  let normalized := normalize_token raw in
  if one_of ["shared"; "parallel"; "parallel-safe"; "multi-reader"] normalized then Ok Shared
  else if one_of ["serialized"; "serial"; "single-writer"; "queue"; "queued"] normalized then
    Ok Serialized
  else if one_of ["session"; "session-isolated"; "per-session"; "single-session"] normalized then
    Ok SessionIsolated
  else if one_of ["project"; "project-isolated"; "per-project"; "isolated-per-project"] normalized
    then Ok ProjectIsolated
  else if one_of ["pool"; "process-pool"; "worker-pool"] normalized then Ok Pool
  else if one_of ["disabled"; "off"; "plan-only"; "not-runnable"] normalized then Ok Disabled
  else Err (UnsupportedMode normalized).

Definition mode_as_str (mode : ExecutionMode) : string :=
  match mode with
  | Shared => "shared"
  | Serialized => "serialized"
  | SessionIsolated => "session-isolated"
  | ProjectIsolated => "project-isolated"
  | Pool => "pool"
  | Disabled => "disabled"
  end.

Record ExecutionPolicy := mkPolicy {
  mode : ExecutionMode;
  affinity : list string;
  queue_timeout_ms : N;
  reuse_policy : string;
  min_workers : N;
  max_workers : N;
  max_in_flight_per_worker : N;
  max_queue_depth : N;
  idle_ttl_ms : N;
  source : string;
  warnings : list string
}.

Record ExecutionAffinityContext := mkAffinityContext {
  ctx_client_id : option string;
  ctx_session_id : option string;
  ctx_project_root : option string;
  ctx_transport : option string;
  ctx_metadata : option JsonValue
}.

Record ExecutionAffinityKey := mkAffinityKey {
  key_client_id : string;
  key_session_id : string;
  key_project_root : string;
  key_transport : string;
  key_fingerprint : string
}.

(** ** Construction *)

Definition for_mode (m : ExecutionMode) : ExecutionPolicy :=
  let '(aff, timeout, reuse, minw, maxw, inflight) :=
    match m with
    | Shared => ([], 2000, "shared", 0, 1, 4)
    | Serialized => ([], 10000, "sticky", 0, 1, 1)
    | SessionIsolated => (["client"; "chat"], 10000, "sticky-session", 0, 1, 1)
    | ProjectIsolated => (["project"], 10000, "sticky-project", 0, 1, 1)
    | Pool => ([], 5000, "least-busy", 1, 4, 1)
    | Disabled => ([], 0, "never", 0, 0, 0)
    end%N in
  {| mode := m; affinity := aff; queue_timeout_ms := timeout; reuse_policy := reuse;
     min_workers := minw; max_workers := maxw; max_in_flight_per_worker := inflight;
     max_queue_depth := DEFAULT_MAX_QUEUE_DEPTH; idle_ttl_ms := DEFAULT_IDLE_TTL_MS;
     source := "mode-preset"; warnings := [] |}.

Definition conservative : ExecutionPolicy := for_mode Serialized.

Definition inferred_mode (scope_class concurrency_policy state_binding state_class : string)
    : ExecutionMode :=
  let scope_class := normalize_token scope_class in
  let concurrency_policy := normalize_token concurrency_policy in
  let state_binding := normalize_token state_binding in
  let state_class := normalize_token state_class in
  if String.eqb concurrency_policy "plan-only" || String.eqb scope_class "not-runnable" then Disabled
  else if String.eqb concurrency_policy "isolated-per-project"
       || String.eqb scope_class "project-local" || String.eqb state_class "project-stateful"
  then ProjectIsolated
  else if String.eqb concurrency_policy "single-session"
       || String.eqb state_class "session-stateful" || String.eqb state_binding "host-session"
  then SessionIsolated
  else if String.eqb concurrency_policy "multi-reader"
       && one_of ["stateless"; "credential-stateful"; "remote-session-stateful"] state_class
  then Shared
  else Serialized.

(** ** Configuration readers *)

Definition non_negative (value : option JsonValue) : option N :=
  match value ≫= as_i64 with
  | Some z => if (z <? 0)%Z then None else Some (Z.to_N z)
  | None => None
  end.

Definition positive_value (value : option JsonValue) : option N :=
  opt_filter (fun v => 0 <? v)%N (non_negative value).

Definition mode_at (value : option JsonValue) : option ExecutionMode :=
  match (value ≫= (fun v => json_get v "mode")) ≫= as_str with
  | Some raw => result_ok (mode_parse raw)
  | None => None
  end.

Definition inferred_mode_from_canonical (value : JsonValue) : ExecutionMode :=
  let field key := unwrap_or (string_at_path value [key]) EmptyString in
  inferred_mode (field "scopeClass") (field "concurrencyPolicy") (field "stateBinding")
    (field "stateClass").

Definition canonical_policy_disabled (value : JsonValue) : bool :=
  let field_is key expected :=
    match string_at_path value [key] with
    | Some v => String.eqb (normalize_token v) expected
    | None => false
    end in
  field_is "startupStrategy" "disabled" || field_is "routingGroup" "disabled"
  || field_is "concurrencyPolicy" "plan-only" || field_is "scopeClass" "not-runnable".

(** ** Affinity dimensions *)

Definition normalize_affinity_token (value : string) : string :=
  let token := normalize_token value in
  if String.eqb token "conversation" then "chat"
  else if String.eqb token "workspace" then "project"
  else if String.eqb token "credentials" then "credential"
  else token.

Definition supported_affinities : list string :=
  ["client"; "project"; "chat"; "session"; "credential"; "application"; "metadata"; "transport";
   "transport-session"; "client-instance"].

Definition is_supported_affinity (value : string) : bool := one_of supported_affinities value.

(** Returns the normalised list and the warnings with the new ones appended. *)
Fixpoint normalize_affinity_loop (values normalized warns : list string)
    : list string * list string :=
  match values with
  | [] => (normalized, warns)
  | raw :: rest =>
      let value := normalize_affinity_token raw in
      if str_is_empty value then normalize_affinity_loop rest normalized warns
      else if is_supported_affinity value then
        normalize_affinity_loop rest (normalized ++ [value]) warns
      else
        normalize_affinity_loop rest normalized
          (warns ++ ["unsupported execution affinity '" +:+ trim raw +:+ "'; it was ignored"])
  end.

Definition normalize_affinity (values warns : list string) : list string * list string :=
  let '(normalized, warns) := normalize_affinity_loop values [] warns in
  (sort_dedup normalized, warns).

Definition clamp_with_warning (value maximum : N) (label : string) (warns : list string)
    : N * list string :=
  if (maximum <? value)%N then
    (maximum,
     warns ++ [label +:+ "=" +:+ N_to_string value +:+ " exceeded the runtime safety maximum "
               +:+ N_to_string maximum +:+ "; the value was clamped"])
  else (value, warns).

(** ** Normalisation *)

Definition allowed_reuse : list string :=
  ["shared"; "sticky"; "sticky-session"; "sticky-project"; "least-busy"; "ttl"; "never"].

Definition session_like : list string := ["chat"; "session"; "application"; "transport-session"].

Definition affinity_has (aff : list string) (value : string) : bool :=
  existsb (fun candidate => String.eqb candidate (normalize_affinity_token value)) aff.

Definition has_affinity (p : ExecutionPolicy) (value : string) : bool :=
  affinity_has (affinity p) value.

(** The policy a disabled server gets: every capacity is zero. *)
Definition normalize_disabled (p : ExecutionPolicy) (warns : list string) : ExecutionPolicy :=
  {| mode := Disabled; affinity := []; queue_timeout_ms := 0; reuse_policy := "never";
     min_workers := 0; max_workers := 0; max_in_flight_per_worker := 0;
     max_queue_depth := max_queue_depth p; idle_ttl_ms := idle_ttl_ms p;
     source := source p; warnings := warns |}.

(** The affinity dimensions the isolating modes need are added when missing. *)
Definition add_required_affinity (m : ExecutionMode) (aff warns : list string)
    : list string * list string :=
  let '(aff, warns) :=
    if mode_eqb m ProjectIsolated && negb (affinity_has aff "project") then
      (aff ++ ["project"],
       warns ++ ["project-isolated requires project affinity; 'project' was added automatically"])
    else (aff, warns) in
  if mode_eqb m SessionIsolated && negb (existsb (fun v => one_of session_like v) aff) then
    (aff ++ ["session"],
     warns ++ ["session-isolated requires a session-like affinity; 'session' was added automatically"])
  else (aff, warns).

Definition normalize (p : ExecutionPolicy) : ExecutionPolicy :=
  let '(aff, w) := normalize_affinity (affinity p) (warnings p) in
  if mode_eqb (mode p) Disabled || (max_workers p =? 0)%N || (max_in_flight_per_worker p =? 0)%N
  then normalize_disabled p w
  else
    let workers := N.max (max_workers p) 1 in
    let in_flight := N.max (max_in_flight_per_worker p) 1 in
    let depth := N.max (max_queue_depth p) 1 in
    let idle := N.max (idle_ttl_ms p) 1000 in
    let '(timeout, w) := clamp_with_warning (queue_timeout_ms p) MAX_QUEUE_TIMEOUT_MS "queueTimeoutMs" w in
    let '(workers, w) := clamp_with_warning workers MAX_WORKERS "maxWorkers" w in
    let '(in_flight, w) := clamp_with_warning in_flight MAX_IN_FLIGHT_PER_WORKER "maxInFlightPerWorker" w in
    let '(depth, w) := clamp_with_warning depth MAX_QUEUE_DEPTH "maxQueueDepth" w in
    let '(idle, w) := clamp_with_warning idle MAX_IDLE_TTL_MS "idleTtlMs" w in
    let '(workers, w) :=
      if negb (mode_eqb (mode p) Pool) && (1 <? workers)%N then
        (1%N, w ++ ["mode '" +:+ mode_as_str (mode p) +:+
                 "' uses one process per affinity group; maxWorkers was clamped from "
                 +:+ N_to_string workers +:+ " to 1"])
      else (workers, w) in
    let minw := N.min (min_workers p) workers in
    let '(aff, w) := add_required_affinity (mode p) aff w in
    let '(aff, w) := normalize_affinity aff w in
    let '(reuse, w) :=
      if one_of allowed_reuse (reuse_policy p) then (reuse_policy p, w)
      else
        let fallback := reuse_policy (for_mode (mode p)) in
        (fallback, w ++ ["unsupported reusePolicy '" +:+ reuse_policy p +:+ "'; using '"
                         +:+ fallback +:+ "'"]) in
    {| mode := mode p; affinity := aff; queue_timeout_ms := timeout; reuse_policy := reuse;
       min_workers := minw; max_workers := workers; max_in_flight_per_worker := in_flight;
       max_queue_depth := depth; idle_ttl_ms := idle; source := source p; warnings := w |}.

(** ** Applying configuration objects *)

Definition set_mode (m : ExecutionMode) (p : ExecutionPolicy) : ExecutionPolicy :=
  {| mode := m; affinity := affinity p; queue_timeout_ms := queue_timeout_ms p;
     reuse_policy := reuse_policy p; min_workers := min_workers p; max_workers := max_workers p;
     max_in_flight_per_worker := max_in_flight_per_worker p; max_queue_depth := max_queue_depth p;
     idle_ttl_ms := idle_ttl_ms p; source := source p; warnings := warnings p |}.

Definition set_source (s : string) (p : ExecutionPolicy) : ExecutionPolicy :=
  {| mode := mode p; affinity := affinity p; queue_timeout_ms := queue_timeout_ms p;
     reuse_policy := reuse_policy p; min_workers := min_workers p; max_workers := max_workers p;
     max_in_flight_per_worker := max_in_flight_per_worker p; max_queue_depth := max_queue_depth p;
     idle_ttl_ms := idle_ttl_ms p; source := s; warnings := warnings p |}.

Definition set_warnings (w : list string) (p : ExecutionPolicy) : ExecutionPolicy :=
  {| mode := mode p; affinity := affinity p; queue_timeout_ms := queue_timeout_ms p;
     reuse_policy := reuse_policy p; min_workers := min_workers p; max_workers := max_workers p;
     max_in_flight_per_worker := max_in_flight_per_worker p; max_queue_depth := max_queue_depth p;
     idle_ttl_ms := idle_ttl_ms p; source := source p; warnings := w |}.

Definition set_limits (workers in_flight : N) (p : ExecutionPolicy) : ExecutionPolicy :=
  {| mode := mode p; affinity := affinity p; queue_timeout_ms := queue_timeout_ms p;
     reuse_policy := reuse_policy p; min_workers := min_workers p; max_workers := workers;
     max_in_flight_per_worker := in_flight; max_queue_depth := max_queue_depth p;
     idle_ttl_ms := idle_ttl_ms p; source := source p; warnings := warnings p |}.

Definition set_queue (depth idle : N) (p : ExecutionPolicy) : ExecutionPolicy :=
  {| mode := mode p; affinity := affinity p; queue_timeout_ms := queue_timeout_ms p;
     reuse_policy := reuse_policy p; min_workers := min_workers p; max_workers := max_workers p;
     max_in_flight_per_worker := max_in_flight_per_worker p; max_queue_depth := depth;
     idle_ttl_ms := idle; source := source p; warnings := warnings p |}.

(** The warning [apply_json] adds for a [mode] that is not the resolved one. *)
Definition mode_warning (p : ExecutionPolicy) (label : string) (object : list (string * JsonValue))
    : list string :=
  match bt_get "mode" object ≫= as_str with
  | Some raw =>
      match mode_parse raw with
      | Ok m =>
          if mode_eqb m (mode p) then []
          else [label +:+ " mode '" +:+ mode_as_str m +:+
                "' was ignored because the resolved mode is '" +:+ mode_as_str (mode p) +:+ "'"]
      | Err error => [display_policy_error error]
      end
  | None => []
  end.

Definition apply_json (p : ExecutionPolicy) (value : JsonValue) (label : string) : ExecutionPolicy :=
  match as_object value with
  | None =>
      set_warnings (warnings p ++ [label +:+ " is not an object; mode defaults remain active"]) p
  | Some object =>
      {| mode := mode p;
         affinity :=
           match bt_get "affinity" object ≫= as_array with
           | Some values => strings_from_array (Some values)
           | None => affinity p
           end;
         queue_timeout_ms :=
           unwrap_or (non_negative (bt_get "queueTimeoutMs" object)) (queue_timeout_ms p);
         reuse_policy :=
           unwrap_or
             (opt_filter (fun v => negb (str_is_empty v))
                (option_map normalize_token (bt_get "reusePolicy" object ≫= as_str)))
             (reuse_policy p);
         min_workers := unwrap_or (non_negative (bt_get "minWorkers" object)) (min_workers p);
         max_workers := unwrap_or (non_negative (bt_get "maxWorkers" object)) (max_workers p);
         max_in_flight_per_worker :=
           unwrap_or (non_negative (bt_get "maxInFlightPerWorker" object))
             (max_in_flight_per_worker p);
         max_queue_depth :=
           unwrap_or (positive_value (bt_get "maxQueueDepth" object)) (max_queue_depth p);
         idle_ttl_ms := unwrap_or (positive_value (bt_get "idleTtlMs" object)) (idle_ttl_ms p);
         source := source p;
         warnings := warnings p ++ mode_warning p label object |}
  end.

Definition apply_global_limits (p : ExecutionPolicy) (value : JsonValue) : ExecutionPolicy :=
  match as_object value with
  | None => p
  | Some object =>
      set_queue (unwrap_or (positive_value (bt_get "maxQueueDepth" object)) (max_queue_depth p))
        (unwrap_or (positive_value (bt_get "idleTtlMs" object)) (idle_ttl_ms p)) p
  end.

Definition apply_canonical_json (p : ExecutionPolicy) (value : JsonValue) : ExecutionPolicy :=
  if canonical_policy_disabled value then set_limits 0 0 (set_mode Disabled p)
  else
    set_limits
      (match non_negative (value_at_path value ["maxWorkers"]) with
       | Some v => v
       | None =>
           unwrap_or (non_negative (value_at_path value ["parallelismLimit"])) (max_workers p)
       end)
      (unwrap_or (non_negative (value_at_path value ["maxInFlightPerWorker"]))
         (max_in_flight_per_worker p)) p.

Definition opt_mode_eqb (o : option ExecutionMode) (m : ExecutionMode) : bool :=
  match o with Some m' => mode_eqb m' m | None => false end.

Definition resolve_with_canonical (execution_defaults canonical_policy server_execution : option JsonValue)
    (fallback_mode : ExecutionMode) : ExecutionPolicy :=
  let explicit_server_mode := mode_at server_execution in
  let default_mode := mode_at execution_defaults in
  let canonical_disabled :=
    match canonical_policy with Some v => canonical_policy_disabled v | None => false end in
  let m := if canonical_disabled then Disabled else unwrap_or explicit_server_mode fallback_mode in
  let resolved := for_mode m in
  let resolved :=
    if canonical_disabled then resolved
    else
      let resolved :=
        if negb (is_some explicit_server_mode) && opt_mode_eqb default_mode m then
          match execution_defaults with
          | Some defaults => apply_json resolved defaults "executionDefaults"
          | None => resolved
          end
        else
          match execution_defaults with
          | Some defaults => apply_global_limits resolved defaults
          | None => resolved
          end in
      let resolved :=
        match canonical_policy with
        | Some canonical => apply_canonical_json resolved canonical
        | None => resolved
        end in
      let resolved :=
        match server_execution with
        | Some server => apply_json resolved server "server.execution"
        | None => resolved
        end in
      set_mode m resolved in
  let src :=
    if canonical_disabled then "server.policy"
    else if is_some explicit_server_mode then "server.execution"
    else if is_some canonical_policy then "server.policy"
    else if opt_mode_eqb default_mode m then "executionDefaults"
    else "inferred-policy" in
  normalize (set_source src resolved).

Definition resolve (execution_defaults server_execution : option JsonValue)
    (fallback_mode : ExecutionMode) : ExecutionPolicy :=
  resolve_with_canonical execution_defaults None server_execution fallback_mode.

Definition from_config_root (config : JsonValue) : ExecutionPolicy :=
  let defaults := json_get config "executionDefaults" in
  resolve defaults None (unwrap_or (mode_at defaults) Serialized).

Definition to_config_json_value (p : ExecutionPolicy) : JsonValue :=
  json_object
    [("protocol", json_string EXECUTION_PROTOCOL);
     ("mode", json_string (mode_as_str (mode p)));
     ("affinity", json_array (map json_string (affinity p)));
     ("queueTimeoutMs", json_number (queue_timeout_ms p));
     ("reusePolicy", json_string (reuse_policy p));
     ("minWorkers", json_number (min_workers p));
     ("maxWorkers", json_number (max_workers p));
     ("maxInFlightPerWorker", json_number (max_in_flight_per_worker p));
     ("maxQueueDepth", json_number (max_queue_depth p));
     ("idleTtlMs", json_number (idle_ttl_ms p))].

Definition to_json_value (p : ExecutionPolicy) : JsonValue :=
  match to_config_json_value p with
  | JObject object =>
      JObject (bt_insert "warnings" (json_array (map json_string (warnings p)))
                 (bt_insert "source" (json_string (source p)) object))
  | value => value
  end.

Definition for_server (defaults : ExecutionPolicy) (raw_server : JsonValue) : ExecutionPolicy :=
  let canonical := json_get raw_server "policy" in
  let server_execution := json_get raw_server "execution" in
  let fallback_mode :=
    match canonical with Some c => inferred_mode_from_canonical c | None => mode defaults end in
  resolve_with_canonical (Some (to_config_json_value defaults)) canonical server_execution fallback_mode.

(** ** Capacity *)

Definition is_disabled (p : ExecutionPolicy) : bool :=
  mode_eqb (mode p) Disabled || (max_workers p =? 0)%N.

Definition worker_limit (p : ExecutionPolicy) : N :=
  match mode p with
  | Disabled => 0
  | Pool => N.max (max_workers p) 1
  | _ => 1
  end.

Definition effective_max_in_flight_per_worker (p : ExecutionPolicy) (transport : string) : N :=
  if is_disabled p then 0
  else if eq_ignore_ascii_case transport "stdio" then 1
  else N.max (max_in_flight_per_worker p) 1.

Definition effective_capacity (p : ExecutionPolicy) (transport : string) : N :=
  sat_mul USIZE_MAX (worker_limit p) (effective_max_in_flight_per_worker p transport).

Definition policy_fingerprint (p : ExecutionPolicy) : string :=
  "protocol=" +:+ EXECUTION_PROTOCOL +:+ "|mode=" +:+ mode_as_str (mode p)
  +:+ "|affinity=" +:+ join "," (affinity p)
  +:+ "|queueTimeoutMs=" +:+ N_to_string (queue_timeout_ms p)
  +:+ "|reusePolicy=" +:+ reuse_policy p
  +:+ "|minWorkers=" +:+ N_to_string (min_workers p)
  +:+ "|maxWorkers=" +:+ N_to_string (max_workers p)
  +:+ "|maxInFlightPerWorker=" +:+ N_to_string (max_in_flight_per_worker p)
  +:+ "|maxQueueDepth=" +:+ N_to_string (max_queue_depth p)
  +:+ "|idleTtlMs=" +:+ N_to_string (idle_ttl_ms p).

(** ** Affinity keys *)

Definition trimmed (value : option string) : option string :=
  opt_filter (fun v => negb (str_is_empty v)) (option_map trim value).

Fixpoint find_map {A B} (f : A -> option B) (l : list A) : option B :=
  match l with
  | [] => None
  | x :: l => match f x with Some y => Some y | None => find_map f l end
  end.

Definition metadata_string (context : ExecutionAffinityContext) (paths : list (list string))
    : option string :=
  match ctx_metadata context with
  | None => None
  | Some metadata => find_map (fun path => trimmed (string_at_path metadata path)) paths
  end.

Definition application_session_id (context : ExecutionAffinityContext) : option string :=
  metadata_string context
    [["mcpace"; "applicationSessionId"]; ["mcpace"; "chatId"]; ["applicationSessionId"];
     ["chatId"]; ["conversationId"]].

Definition affinity_display_value (values : list string) (dimension : string) : option string :=
  find_map (strip_prefix (dimension +:+ "=")) values.

(** [{:016x}]. *)
Definition hex_digit (n : N) : ascii := ascii_of_N (if (n <? 10)%N then 48 + n else 87 + n).

Fixpoint hex_pad (digits : nat) (n : N) (acc : string) : string :=
  match digits with
  | O => acc
  | S d => hex_pad d (n / 16) (String (hex_digit (n mod 16)) acc)
  end.

Definition hex16 (n : N) : string := hex_pad 16 n EmptyString.

Section affinity.
Context `{SerdeJson} `{Hasher}.

Definition fingerprint_text (value : string) : string :=
  "len" +:+ N_to_string (str_len value) +:+ "-hash" +:+ hex16 (hash_str value).

(** The value of one affinity dimension, if the request provides it. *)
Definition affinity_value (context : ExecutionAffinityContext) (dimension : string) : option string :=
  let default_client := unwrap_or (trimmed (ctx_client_id context)) "mcpace-upstream-bridge" in
  let default_session := opt_or (application_session_id context) (trimmed (ctx_session_id context)) in
  if String.eqb dimension "client" then Some default_client
  else if String.eqb dimension "project" then trimmed (ctx_project_root context)
  else if one_of ["chat"; "session"; "application"] dimension then default_session
  else if String.eqb dimension "credential" then
    metadata_string context
      [["mcpace"; "credentialId"]; ["mcpace"; "credential"]; ["credentialId"]; ["credential"]]
  else if String.eqb dimension "metadata" then
    option_map (fun value => fingerprint_text (to_compact_string value)) (ctx_metadata context)
  else if String.eqb dimension "transport" then
    Some (unwrap_or (trimmed (ctx_transport context)) "stdio")
  else if String.eqb dimension "transport-session" then
    opt_or (metadata_string context [["mcpace"; "transportSessionId"]; ["transportSessionId"]])
      (trimmed (ctx_session_id context))
  else if String.eqb dimension "client-instance" then
    opt_or (metadata_string context [["mcpace"; "clientInstanceId"]; ["clientInstanceId"]])
      (Some default_client)
  else None.

(** The loop over the dimensions: the first one without a value stops it. *)
Fixpoint affinity_values (m : ExecutionMode) (context : ExecutionAffinityContext)
    (dimensions : list string) : result (list string) ExecutionPolicyError :=
  match dimensions with
  | [] => Ok []
  | dimension :: rest =>
      match affinity_value context dimension with
      | None => Err (MissingAffinity (mode_as_str m) dimension)
      | Some value =>
          values ←? affinity_values m context rest ;; Ok ((dimension +:+ "=" +:+ value) :: values)
      end
  end.

Definition protect_value (value : string) : string :=
  let '(dimension, raw) := unwrap_or (split_once "=" value) ("unknown", value) in
  dimension +:+ "=" +:+ fingerprint_text raw.

Definition affinity_fingerprint (m : ExecutionMode) (values : list string) : string :=
  match values with
  | [] => "mode=" +:+ mode_as_str m +:+ "|affinity=global"
  | _ => "mode=" +:+ mode_as_str m +:+ "|" +:+ join "|" (map protect_value values)
  end.

Definition affinity_key (p : ExecutionPolicy) (context : ExecutionAffinityContext)
    : result ExecutionAffinityKey ExecutionPolicyError :=
  values ←? affinity_values (mode p) context (affinity p) ;;
  Ok {| key_client_id := unwrap_or (affinity_display_value values "client") "shared";
        key_session_id :=
          unwrap_or
            (opt_or (affinity_display_value values "chat")
            (opt_or (affinity_display_value values "session")
            (opt_or (affinity_display_value values "application")
                    (affinity_display_value values "transport-session")))) "shared";
        key_project_root := unwrap_or (affinity_display_value values "project") "shared";
        key_transport := unwrap_or (trimmed (ctx_transport context)) "stdio";
        key_fingerprint := affinity_fingerprint (mode p) values |}.
End affinity.

(** ** Well-formed policies *)

Record policy_active (p : ExecutionPolicy) : Prop := {
  active_mode : mode p <> Disabled;
  active_workers : (1 <= max_workers p <= MAX_WORKERS)%N;
  active_single : mode p <> Pool -> max_workers p = 1%N;
  active_in_flight : (1 <= max_in_flight_per_worker p <= MAX_IN_FLIGHT_PER_WORKER)%N;
  active_depth : (1 <= max_queue_depth p <= MAX_QUEUE_DEPTH)%N;
  active_idle : (1000 <= idle_ttl_ms p <= MAX_IDLE_TTL_MS)%N;
  active_timeout : (queue_timeout_ms p <= MAX_QUEUE_TIMEOUT_MS)%N;
  active_min : (min_workers p <= max_workers p)%N;
  active_affinity_sorted : StronglySorted str_lt (affinity p);
  active_affinity_supported : Forall (fun d => is_supported_affinity d = true) (affinity p);
  active_project : mode p = ProjectIsolated -> "project" ∈ affinity p;
  active_session : mode p = SessionIsolated -> exists d, d ∈ affinity p /\ one_of session_like d = true;
  active_reuse : one_of allowed_reuse (reuse_policy p) = true
}.

Record policy_off (p : ExecutionPolicy) : Prop := {
  off_mode : mode p = Disabled;
  off_affinity : affinity p = [];
  off_timeout : queue_timeout_ms p = 0%N;
  off_reuse : reuse_policy p = "never";
  off_min : min_workers p = 0%N;
  off_workers : max_workers p = 0%N;
  off_in_flight : max_in_flight_per_worker p = 0%N
}.

Definition policy_wf (p : ExecutionPolicy) : Prop := policy_active p \/ policy_off p.

(** *** Affinity lists *)

Lemma one_of_elem names v : one_of names v = true <-> v ∈ names.
Proof.
  unfold one_of. rewrite existsb_exists. setoid_rewrite String.eqb_eq. rewrite list_elem_of_In.
  split; [by intros (x & Hx & ->)|by exists v].
Qed.

Definition affinity_warnings (values : list string) : list string :=
  flat_map (fun raw =>
    let value := normalize_affinity_token raw in
    if str_is_empty value then []
    else if is_supported_affinity value then []
    else ["unsupported execution affinity '" +:+ trim raw +:+ "'; it was ignored"]) values.

Lemma normalize_affinity_loop_spec values acc w :
  normalize_affinity_loop values acc w =
  (acc ++ List.filter is_supported_affinity (map normalize_affinity_token values),
   w ++ affinity_warnings values).
Proof.
  revert acc w. induction values as [|raw rest IH]; intros acc w; simpl.
  { by rewrite !app_nil_r. }
  destruct (str_is_empty _) eqn:E.
  - rewrite IH. apply str_is_empty_true in E as ->. done.
  - destruct (is_supported_affinity _); rewrite IH, <- ?(assoc_L (++)); done.
Qed.

Lemma normalize_affinity_spec values w :
  normalize_affinity values w =
  (sort_dedup (List.filter is_supported_affinity (map normalize_affinity_token values)),
   w ++ affinity_warnings values).
Proof. unfold normalize_affinity. by rewrite normalize_affinity_loop_spec. Qed.

Lemma supported_token_fixed d : is_supported_affinity d = true -> normalize_affinity_token d = d.
Proof.
  unfold is_supported_affinity. rewrite one_of_elem. unfold supported_affinities.
  rewrite !elem_of_cons, elem_of_nil. intros Hd. repeat destruct Hd as [->|Hd]; try reflexivity. done.
Qed.

Lemma supported_nonempty d : is_supported_affinity d = true -> str_is_empty d = false.
Proof. by destruct d. Qed.

Lemma supported_map_fixed aff :
  Forall (fun d => is_supported_affinity d = true) aff ->
  List.filter is_supported_affinity (map normalize_affinity_token aff) = aff
  /\ affinity_warnings aff = [].
Proof.
  induction 1 as [|d aff Hd Hs [IH1 IH2]]; [done|]. simpl.
  rewrite (supported_token_fixed d Hd), Hd, IH1, IH2, (supported_nonempty d Hd). done.
Qed.

Lemma sort_dedup_sorted_id l : StronglySorted str_lt l -> sort_dedup l = l.
Proof.
  intros Hs. apply StronglySorted_str_lt_unique; auto using sort_dedup_sorted.
  intros x. apply sort_dedup_elem.
Qed.

Lemma normalize_affinity_fixed aff w :
  StronglySorted str_lt aff -> Forall (fun d => is_supported_affinity d = true) aff ->
  normalize_affinity aff w = (aff, w).
Proof.
  intros Hs Hf. rewrite normalize_affinity_spec.
  destruct (supported_map_fixed aff Hf) as [-> ->].
  by rewrite sort_dedup_sorted_id, app_nil_r.
Qed.

Lemma normalize_affinity_elem values w d :
  d ∈ fst (normalize_affinity values w) <->
  is_supported_affinity d = true /\ exists raw, raw ∈ values /\ d = normalize_affinity_token raw.
Proof.
  rewrite normalize_affinity_spec. simpl. rewrite sort_dedup_elem, list_elem_of_In, filter_In.
  rewrite in_map_iff. setoid_rewrite list_elem_of_In. split.
  - intros [(raw & <- & Hin) Hs]. eauto.
  - intros [Hs (raw & Hin & ->)]. eauto.
Qed.

Lemma normalize_affinity_supported values w :
  Forall (fun d => is_supported_affinity d = true) (fst (normalize_affinity values w)).
Proof. apply Forall_forall. intros d Hd. rewrite normalize_affinity_elem in Hd. tauto. Qed.

Lemma normalize_affinity_sorted values w :
  StronglySorted str_lt (fst (normalize_affinity values w)).
Proof. rewrite normalize_affinity_spec. apply sort_dedup_sorted. Qed.

Lemma affinity_has_project aff : affinity_has aff "project" = true <-> "project" ∈ aff.
Proof.
  unfold affinity_has. rewrite existsb_exists, list_elem_of_In.
  change (normalize_affinity_token "project") with "project". setoid_rewrite String.eqb_eq.
  split; [by intros (x & Hx & ->)|by exists "project"].
Qed.

Lemma session_like_exists aff :
  existsb (fun v => one_of session_like v) aff = true <->
  exists d, d ∈ aff /\ one_of session_like d = true.
Proof. rewrite existsb_exists. by setoid_rewrite list_elem_of_In. Qed.

Lemma add_required_incl m aff w d : d ∈ aff -> d ∈ fst (add_required_affinity m aff w).
Proof. unfold add_required_affinity. intros Hd. repeat case_stuck; simplify_eq/=; set_solver. Qed.

Lemma add_required_project m aff w :
  m = ProjectIsolated -> "project" ∈ fst (add_required_affinity m aff w).
Proof.
  intros ->. unfold add_required_affinity. simpl. destruct (affinity_has aff "project") eqn:E; simpl.
  - by apply affinity_has_project.
  - apply elem_of_app. right. by left.
Qed.

Lemma add_required_session m aff w :
  m = SessionIsolated ->
  exists d, d ∈ fst (add_required_affinity m aff w) /\ one_of session_like d = true.
Proof.
  intros ->. unfold add_required_affinity.
  change (mode_eqb SessionIsolated ProjectIsolated) with false.
  change (mode_eqb SessionIsolated SessionIsolated) with true. cbn [andb].
  destruct (existsb (fun v => one_of session_like v) aff) eqn:E; cbn [negb fst].
  - by rewrite session_like_exists in E.
  - exists "session". split; [|done]. apply elem_of_app. right. by left.
Qed.

Lemma add_required_supported m aff w :
  Forall (fun d => is_supported_affinity d = true) aff ->
  Forall (fun d => is_supported_affinity d = true) (fst (add_required_affinity m aff w)).
Proof.
  intros Hf.
  assert (Hp : Forall (fun d => is_supported_affinity d = true) ["project"]) by (by repeat constructor).
  assert (Hs : Forall (fun d => is_supported_affinity d = true) ["session"]) by (by repeat constructor).
  unfold add_required_affinity.
  repeat case_stuck; simplify_eq/=; repeat (apply Forall_app; split); auto.
Qed.

Lemma clamp_with_warning_fst v maximum label w :
  fst (clamp_with_warning v maximum label w) = N.min v maximum.
Proof. unfold clamp_with_warning. case_stuck; bool_prop; simpl; lia. Qed.

Lemma clamp_with_warning_id v maximum label w :
  (v <= maximum)%N -> clamp_with_warning v maximum label w = (v, w).
Proof. intros H. unfold clamp_with_warning. case_stuck; bool_prop; [lia|done]. Qed.

Lemma mode_eqb_true a b : mode_eqb a b = true <-> a = b.
Proof. apply bool_decide_eq_true. Qed.

Lemma mode_eqb_false a b : mode_eqb a b = false <-> a <> b.
Proof. apply bool_decide_eq_false. Qed.

(** The components of an active normalisation, each named by its field. *)
Lemma normalize_active p :
  mode p <> Disabled -> max_workers p <> 0%N -> max_in_flight_per_worker p <> 0%N ->
  let workers := N.min (N.max (max_workers p) 1) MAX_WORKERS in
  let q := normalize p in
  mode q = mode p
  /\ queue_timeout_ms q = N.min (queue_timeout_ms p) MAX_QUEUE_TIMEOUT_MS
  /\ max_workers q = (if mode_eqb (mode p) Pool then workers else 1%N)
  /\ max_in_flight_per_worker q = N.min (N.max (max_in_flight_per_worker p) 1) MAX_IN_FLIGHT_PER_WORKER
  /\ max_queue_depth q = N.min (N.max (max_queue_depth p) 1) MAX_QUEUE_DEPTH
  /\ idle_ttl_ms q = N.min (N.max (idle_ttl_ms p) 1000) MAX_IDLE_TTL_MS
  /\ min_workers q = N.min (min_workers p) (max_workers q)
  /\ (exists aff w w', affinity q = fst (normalize_affinity (fst (add_required_affinity (mode p) aff w)) w')
        /\ Forall (fun d => is_supported_affinity d = true) aff)
  /\ one_of allowed_reuse (reuse_policy q) = true
  /\ source q = source p.
Proof.
  intros Hm Hw Hf workers q. unfold q, normalize; clear q.
  destruct (normalize_affinity (affinity p) (warnings p)) as [aff w0] eqn:Ea.
  assert (Hsup : Forall (fun d => is_supported_affinity d = true) aff).
  { pose proof (normalize_affinity_supported (affinity p) (warnings p)) as Hs. by rewrite Ea in Hs. }
  rewrite (proj2 (mode_eqb_false _ _) Hm), (proj2 (N.eqb_neq _ _) Hw), (proj2 (N.eqb_neq _ _) Hf).
  cbn [orb].
  repeat match goal with
  | |- context [clamp_with_warning ?v ?mx ?l ?w] =>
      let E := fresh "Ec" in
      pose proof (clamp_with_warning_fst v mx l w) as E;
      destruct (clamp_with_warning v mx l w) as [? ?]; cbn [fst] in E; subst
  end.
  fold workers.
  destruct (negb (mode_eqb (mode p) Pool) && (1 <? workers)%N) eqn:Ew;
    match goal with |- context [add_required_affinity _ _ ?w] => set (w1 := w) end;
    destruct (add_required_affinity (mode p) aff w1) as [aff2 w2] eqn:Er;
    destruct (normalize_affinity aff2 w2) as [aff3 w3] eqn:En;
    destruct (one_of allowed_reuse (reuse_policy p)) eqn:Eu;
    cbn [mode affinity queue_timeout_ms reuse_policy min_workers max_workers
         max_in_flight_per_worker max_queue_depth idle_ttl_ms source warnings].
  all: repeat split; auto.
  all: try (exists aff, w1, w2; rewrite Er; cbn [fst]; rewrite En; done).
  all: try (by destruct (mode p)).
  all: destruct (mode_eqb (mode p) Pool); cbn [negb andb] in Ew; bool_prop;
    unfold workers, MAX_WORKERS in *; try done; lia.
Qed.

Lemma normalize_inactive p :
  mode p = Disabled \/ max_workers p = 0%N \/ max_in_flight_per_worker p = 0%N ->
  normalize p = normalize_disabled p (snd (normalize_affinity (affinity p) (warnings p))).
Proof.
  intros Hp. unfold normalize. destruct (normalize_affinity _ _) as [aff w].
  assert (mode_eqb (mode p) Disabled || (max_workers p =? 0)%N || (max_in_flight_per_worker p =? 0)%N
          = true) as ->; [|done].
  destruct Hp as [-> | [-> | ->] ]; [done|by rewrite orb_true_r|by rewrite !orb_true_r].
Qed.

Lemma policy_active_cases p :
  (mode p = Disabled \/ max_workers p = 0%N \/ max_in_flight_per_worker p = 0%N)
  \/ (mode p <> Disabled /\ max_workers p <> 0%N /\ max_in_flight_per_worker p <> 0%N).
Proof.
  destruct (decide (mode p = Disabled)); [tauto|]. destruct (decide (max_workers p = 0%N)); [tauto|].
  destruct (decide (max_in_flight_per_worker p = 0%N)); tauto.
Qed.

Lemma normalize_wf p : policy_wf (normalize p).
Proof.
  destruct (policy_active_cases p) as [Hp|(Hm & Hw & Hf)].
  { right. rewrite normalize_inactive by done. by constructor. }
  left. pose proof (normalize_active p Hm Hw Hf) as Hq. cbv zeta in Hq.
  set (q := normalize p) in *; clearbody q.
  destruct Hq as (Hmode & Ht & Hmax & Hinf & Hdepth & Hidle & Hmin & (aff & w & w' & Haff & Hsup) & Hre & _).
  pose proof (add_required_supported (mode p) aff w Hsup) as Hsup2.
  constructor; rewrite ?Hmode, ?Ht, ?Hinf, ?Hdepth, ?Hidle, ?Hmin, ?Haff; auto.
  all: unfold MAX_WORKERS, MAX_IN_FLIGHT_PER_WORKER, MAX_QUEUE_DEPTH, MAX_IDLE_TTL_MS,
    MAX_QUEUE_TIMEOUT_MS in *; try lia.
  - rewrite Hmax. destruct (mode_eqb _ _); lia.
  - intros Hne. by rewrite Hmax, (proj2 (mode_eqb_false _ _) Hne).
  - apply normalize_affinity_sorted.
  - apply normalize_affinity_supported.
  - intros Hp. apply normalize_affinity_elem. split; [done|]. exists "project".
    split; [by apply add_required_project|done].
  - intros Hs. destruct (add_required_session (mode p) aff w Hs) as (d & Hd & Hl).
    rewrite Forall_forall in Hsup2. exists d. split; [|done]. apply normalize_affinity_elem.
    split; [by apply Hsup2|]. exists d. split; [done|]. symmetry. by apply supported_token_fixed, Hsup2.
Qed.

Lemma add_required_fixed m aff w :
  (m = ProjectIsolated -> "project" ∈ aff) ->
  (m = SessionIsolated -> exists d, d ∈ aff /\ one_of session_like d = true) ->
  add_required_affinity m aff w = (aff, w).
Proof.
  intros Hp Hs. unfold add_required_affinity.
  destruct (mode_eqb m ProjectIsolated) eqn:E1.
  - apply mode_eqb_true in E1 as ->. rewrite (proj2 (affinity_has_project aff) (Hp eq_refl)). done.
  - destruct (mode_eqb m SessionIsolated) eqn:E2; [|done].
    apply mode_eqb_true in E2. cbn [andb]. by rewrite (proj2 (session_like_exists aff) (Hs E2)).
Qed.

Lemma normalize_fixed p : policy_wf p -> normalize p = p.
Proof.
  intros [Ha|Ho].
  - destruct p as [m aff t re mn mx inf dep idl src w], Ha; simpl in *.
    unfold normalize; cbn [mode affinity queue_timeout_ms reuse_policy min_workers max_workers
      max_in_flight_per_worker max_queue_depth idle_ttl_ms source warnings].
    rewrite !normalize_affinity_fixed by done.
    rewrite (proj2 (mode_eqb_false _ _) active_mode0).
    rewrite (proj2 (N.eqb_neq mx 0)), (proj2 (N.eqb_neq inf 0)) by lia. cbn [orb].
    rewrite !N.max_l by lia.
    rewrite !clamp_with_warning_id by lia.
    assert (negb (mode_eqb m Pool) && (1 <? mx)%N = false) as ->.
    { destruct (mode_eqb m Pool) eqn:E; [done|]. apply mode_eqb_false in E.
      by rewrite (active_single0 E). }
    rewrite add_required_fixed, normalize_affinity_fixed, active_reuse0 by done.
    by rewrite N.min_l by lia.
  - destruct p as [m aff t re mn mx inf dep idl src w], Ho; simpl in *; subst. done.
Qed.

(** ** Modes *)

Lemma mode_parse_as_str m : mode_parse (mode_as_str m) = Ok m.
Proof. by destruct m. Qed.

Lemma mode_as_str_inj m m' : mode_as_str m = mode_as_str m' -> m = m'.
Proof. intros E. apply (f_equal mode_parse) in E. rewrite !mode_parse_as_str in E. congruence. Qed.

(** ** Configuration round trip *)

Lemma non_negative_number n : (n <= 9223372036854775807)%N -> non_negative (Some (json_number n)) = Some n.
Proof.
  intros Hn. unfold non_negative, json_number. cbn [mbind option_bind as_i64].
  rewrite parse_i64_N_to_string by (unfold I64_MAX; lia).
  destruct (Z.ltb_spec (Z.of_N n) 0); [lia|]. by rewrite N2Z.id.
Qed.

Lemma positive_value_number n :
  (0 < n <= 9223372036854775807)%N -> positive_value (Some (json_number n)) = Some n.
Proof.
  intros Hn. unfold positive_value. rewrite non_negative_number by lia. simpl.
  by rewrite (proj2 (N.ltb_lt _ _)) by lia.
Qed.

Lemma supported_trim d : is_supported_affinity d = true -> trim d = d.
Proof.
  unfold is_supported_affinity. rewrite one_of_elem. unfold supported_affinities.
  rewrite !elem_of_cons, elem_of_nil. intros Hd. repeat destruct Hd as [->|Hd]; try reflexivity. done.
Qed.

Lemma allowed_reuse_token r :
  one_of allowed_reuse r = true -> normalize_token r = r /\ str_is_empty r = false.
Proof.
  rewrite one_of_elem. unfold allowed_reuse. rewrite !elem_of_cons, elem_of_nil.
  intros Hd. repeat destruct Hd as [->|Hd]; try (split; reflexivity). done.
Qed.

Lemma strings_from_array_strings aff :
  Forall (fun d => is_supported_affinity d = true) aff ->
  strings_from_array (Some (map json_string aff)) = aff.
Proof.
  unfold strings_from_array, unwrap_or. induction 1 as [|d aff Hd _ IH]; [done|].
  cbn. rewrite (supported_trim d Hd), (supported_nonempty d Hd). cbn. by rewrite <- IH at 2.
Qed.

Lemma to_config_json_fields p :
  let obj := match to_config_json_value p with JObject o => o | _ => [] end in
  to_config_json_value p = JObject obj
  /\ bt_get "mode" obj = Some (json_string (mode_as_str (mode p)))
  /\ bt_get "affinity" obj = Some (json_array (map json_string (affinity p)))
  /\ bt_get "queueTimeoutMs" obj = Some (json_number (queue_timeout_ms p))
  /\ bt_get "reusePolicy" obj = Some (json_string (reuse_policy p))
  /\ bt_get "minWorkers" obj = Some (json_number (min_workers p))
  /\ bt_get "maxWorkers" obj = Some (json_number (max_workers p))
  /\ bt_get "maxInFlightPerWorker" obj = Some (json_number (max_in_flight_per_worker p))
  /\ bt_get "maxQueueDepth" obj = Some (json_number (max_queue_depth p))
  /\ bt_get "idleTtlMs" obj = Some (json_number (idle_ttl_ms p)).
Proof. repeat split; reflexivity. Qed.

Lemma mode_at_config p : mode_at (Some (to_config_json_value p)) = Some (mode p).
Proof.
  destruct (to_config_json_fields p) as (Ho & Hm & _). rewrite Ho. unfold mode_at.
  cbn [mbind option_bind json_get]. rewrite Hm. cbn. by rewrite mode_parse_as_str.
Qed.

(** Reading a well-formed policy's own configuration back over its mode preset
    restores every setting. *)
Lemma apply_json_config p label :
  policy_active p ->
  apply_json (for_mode (mode p)) (to_config_json_value p) label
  = set_warnings [] (set_source "mode-preset" p).
Proof.
  intros Hp. destruct (to_config_json_fields p) as (Ho & Hm & Haff & Ht & Hr & Hmin & Hmax & Hinf & Hd & Hi).
  rewrite Ho. unfold apply_json, mode_warning. cbn [as_object].
  rewrite Hm, Haff, Ht, Hr, Hmin, Hmax, Hinf, Hd, Hi.
  pose proof (active_workers p Hp). pose proof (active_in_flight p Hp).
  pose proof (active_depth p Hp). pose proof (active_idle p Hp). pose proof (active_timeout p Hp).
  pose proof (active_min p Hp).
  unfold MAX_WORKERS, MAX_IN_FLIGHT_PER_WORKER, MAX_QUEUE_DEPTH, MAX_IDLE_TTL_MS,
    MAX_QUEUE_TIMEOUT_MS in *.
  rewrite !non_negative_number, !positive_value_number by lia.
  destruct (allowed_reuse_token _ (active_reuse p Hp)) as [Hre Hne].
  cbn [mbind option_bind as_array as_str json_array json_string option_map unwrap_or].
  rewrite strings_from_array_strings by apply (active_affinity_supported p Hp).
  rewrite Hre. cbn [opt_filter]. rewrite Hne. cbn [negb unwrap_or].
  rewrite mode_parse_as_str.
  assert (mode (for_mode (mode p)) = mode p) as -> by (by destruct (mode p)).
  rewrite (proj2 (mode_eqb_true (mode p) (mode p)) eq_refl).
  assert (warnings (for_mode (mode p)) = []) as -> by (by destruct (mode p)).
  assert (source (for_mode (mode p)) = "mode-preset") as -> by (by destruct (mode p)).
  reflexivity.
Qed.

Lemma for_server_plain defaults raw_server :
  policy_active defaults ->
  json_get raw_server "policy" = None -> json_get raw_server "execution" = None ->
  for_server defaults raw_server = set_warnings [] (set_source "executionDefaults" defaults).
Proof.
  intros Hd Hp He. unfold for_server. rewrite Hp, He.
  unfold resolve_with_canonical. rewrite mode_at_config.
  change (mode_at None) with (@None ExecutionMode).
  cbn [is_some negb andb unwrap_or opt_mode_eqb].
  rewrite (proj2 (mode_eqb_true (mode defaults) (mode defaults)) eq_refl).
  rewrite apply_json_config by done.
  apply normalize_fixed. left. by destruct Hd; constructor.
Qed.

(** ** Fingerprints separate affinity groups *)

Lemma hex_digit_inj n m : (n < 16)%N -> (m < 16)%N -> hex_digit n = hex_digit m -> n = m.
Proof.
  intros Hn Hm E. unfold hex_digit in E. apply (f_equal code) in E.
  rewrite !code_ascii_of_N in E by (repeat case_stuck; lia).
  repeat case_stuck_in E; bool_prop; lia.
Qed.

Lemma hex_pad_inj d n m a b :
  (n < 16 ^ N.of_nat d)%N -> (m < 16 ^ N.of_nat d)%N ->
  hex_pad d n a = hex_pad d m b -> n = m /\ a = b.
Proof.
  revert n m a b. induction d as [|d IH]; intros n m a b Hn Hm E.
  { simpl in *. split; [lia|done]. }
  rewrite Nat2N.inj_succ, N.pow_succ_r' in Hn, Hm. simpl in E.
  apply IH in E as [Eq E]; [|by apply N.Div0.div_lt_upper_bound..].
  injection E as Ed Eab. apply hex_digit_inj in Ed; [|apply N.mod_lt; lia..].
  split; [|done]. rewrite (N.div_mod n 16), (N.div_mod m 16) by lia. by rewrite Eq, Ed.
Qed.

Lemma hex16_inj n m : (n <= U64_MAX)%N -> (m <= U64_MAX)%N -> hex16 n = hex16 m -> n = m.
Proof.
  unfold U64_MAX. intros Hn Hm E. apply hex_pad_inj in E as [E _]; [done|..];
    change (16 ^ N.of_nat 16)%N with 18446744073709551616%N; lia.
Qed.

Lemma hex_digit_plain n c : (n < 16)%N -> c = "|"%char \/ c = "="%char -> hex_digit n <> c.
Proof.
  intros Hn Hc E. apply (f_equal code) in E. unfold hex_digit in E.
  rewrite code_ascii_of_N in E by (repeat case_stuck; lia).
  destruct Hc as [-> | ->]; vm_compute (code _) in E; repeat case_stuck_in E; bool_prop; lia.
Qed.

Lemma hex_pad_plain d n acc c :
  c = "|"%char \/ c = "="%char -> contains_char c acc = false ->
  contains_char c (hex_pad d n acc) = false.
Proof.
  intros Hc. revert n acc. induction d as [|d IH]; intros n acc Ha; [done|]. cbn [hex_pad].
  apply IH. change (Ascii.eqb c (hex_digit (n mod 16)) || contains_char c acc = false).
  rewrite Ha, orb_false_r. apply Ascii.eqb_neq. apply not_eq_sym, hex_digit_plain; [|done]. apply N.mod_lt. lia.
Qed.

Section isolation.
Context `{SerdeJson} `{Hasher}.

Lemma fingerprint_text_plain v c :
  c = "|"%char \/ c = "="%char -> contains_char c (fingerprint_text v) = false.
Proof.
  intros Hc. unfold fingerprint_text. rewrite !contains_char_app.
  rewrite (all_bytes_not_contains is_ascii_digit c (N_to_string (str_len v)));
    [|apply N_to_string_all_digits|by destruct Hc as [-> | ->]].
  unfold hex16. rewrite hex_pad_plain by done. by destruct Hc as [-> | ->].
Qed.

(** Equal fingerprints come from values of equal length and equal hash. *)
Lemma fingerprint_text_inj v w :
  fingerprint_text v = fingerprint_text w -> str_len v = str_len w /\ hash_str v = hash_str w.
Proof.
  unfold fingerprint_text. intros E%append_inj_r.
  assert (Hd : forall n, contains_char "-" (N_to_string n) = false).
  { intros n. by apply (all_bytes_not_contains is_ascii_digit); [apply N_to_string_all_digits|]. }
  apply (f_equal (split_once "-")) in E.
  change ("-hash" +:+ hex16 (hash_str v)) with (String "-" ("hash" +:+ hex16 (hash_str v))) in E.
  change ("-hash" +:+ hex16 (hash_str w)) with (String "-" ("hash" +:+ hex16 (hash_str w))) in E.
  rewrite !split_once_app in E by apply Hd.
  apply Some_inj, pair_equal_spec in E as [El Eh].
  split; [by apply N_to_string_inj|]. apply append_inj_r in Eh.
  by apply hex16_inj in Eh; [|apply hash_str_u64..].
Qed.

Lemma supported_plain d c :
  is_supported_affinity d = true -> c = "|"%char \/ c = "="%char -> contains_char c d = false.
Proof.
  unfold is_supported_affinity. rewrite one_of_elem. unfold supported_affinities.
  rewrite !elem_of_cons, elem_of_nil. intros Hd [-> | ->]; repeat destruct Hd as [->|Hd]; done.
Qed.

Lemma protect_value_supported d v :
  is_supported_affinity d = true ->
  protect_value (d +:+ "=" +:+ v) = d +:+ "=" +:+ fingerprint_text v.
Proof.
  intros Hd. unfold protect_value.
  change ("=" +:+ v) with (String "=" v).
  rewrite split_once_app by (apply supported_plain; auto). done.
Qed.

(** The values [affinity_values] collects, dimension by dimension. *)
Lemma affinity_values_Ok m ctx dims values :
  affinity_values m ctx dims = Ok values ->
  Forall2 (fun d value => exists v, affinity_value ctx d = Some v /\ value = d +:+ "=" +:+ v) dims values.
Proof.
  revert values. induction dims as [|d dims IH]; intros values; simpl; [by intros [= <-]|].
  destruct (affinity_value ctx d) as [v|] eqn:Ev; [|done].
  destruct (affinity_values m ctx dims) as [vs|]; [|done]. intros [= <-].
  constructor; [by exists v|by apply IH].
Qed.

Lemma affinity_values_Err m ctx dims e :
  affinity_values m ctx dims = Err e ->
  exists d, d ∈ dims /\ affinity_value ctx d = None /\ e = MissingAffinity (mode_as_str m) d.
Proof.
  induction dims as [|d dims IH]; simpl; [done|].
  destruct (affinity_value ctx d) as [v|] eqn:Ev.
  - destruct (affinity_values m ctx dims) as [vs|e']; [done|]. intros [= ->].
    destruct IH as (d' & Hin & H'); [done|]. exists d'. split; [by right|done].
  - intros [= <-]. exists d. split; [by left|done].
Qed.

Lemma protect_values_eq m m' ctx ctx' dims values values' :
  Forall (fun d => is_supported_affinity d = true) dims ->
  affinity_values m ctx dims = Ok values -> affinity_values m' ctx' dims = Ok values' ->
  map protect_value values = map protect_value values' ->
  Forall (fun d => exists v v', affinity_value ctx d = Some v /\ affinity_value ctx' d = Some v'
            /\ fingerprint_text v = fingerprint_text v') dims.
Proof.
  intros Hs Hv%affinity_values_Ok Hv'%affinity_values_Ok. revert values values' Hv Hv'.
  induction Hs as [|d dims Hd Hs IH]; intros values values' Hv Hv' E; [done|].
  inversion Hv as [|?? ?? (v & Hv1 & ->) Hv2]; inversion Hv' as [|?? ?? (v' & Hv1' & ->) Hv2']; subst.
  injection E as E1 E2. rewrite !protect_value_supported in E1 by done.
  apply append_inj_r in E1. apply (append_inj_r "=") in E1.
  constructor; [by exists v, v'|]. by eapply IH.
Qed.

Lemma protect_value_no_bar m ctx dims values :
  Forall (fun d => is_supported_affinity d = true) dims -> affinity_values m ctx dims = Ok values ->
  Forall (fun x => contains_char "|" x = false) (map protect_value values).
Proof.
  intros Hs Hv%affinity_values_Ok. revert values Hv.
  induction Hs as [|d dims Hd Hs IH]; intros values Hv; inversion Hv as [|?? ?? (v & _ & ->) Hv2]; subst;
    [constructor|]. simpl. constructor; [|by apply IH].
  rewrite protect_value_supported, !contains_char_app by done.
  rewrite supported_plain, fingerprint_text_plain by auto. done.
Qed.

(** Two requests fall in the same affinity group only if every dimension of the
    policy has the same length and the same hash in both. *)
Lemma affinity_key_separates p ctx ctx' k k' :
  Forall (fun d => is_supported_affinity d = true) (affinity p) ->
  affinity_key p ctx = Ok k -> affinity_key p ctx' = Ok k' ->
  key_fingerprint k = key_fingerprint k' ->
  forall d, d ∈ affinity p ->
  exists v v', affinity_value ctx d = Some v /\ affinity_value ctx' d = Some v'
    /\ str_len v = str_len v' /\ hash_str v = hash_str v'.
Proof.
  intros Hs Hk Hk' E d Hd. unfold affinity_key in Hk, Hk'.
  destruct (affinity_values (mode p) ctx (affinity p)) as [values|] eqn:Ev; [|done].
  destruct (affinity_values (mode p) ctx' (affinity p)) as [values'|] eqn:Ev'; [|done].
  injection Hk as <-. injection Hk' as <-. cbn [key_fingerprint] in E.
  pose proof (Forall2_length _ _ _ (affinity_values_Ok _ _ _ _ Ev)) as L1.
  pose proof (Forall2_length _ _ _ (affinity_values_Ok _ _ _ _ Ev')) as L2.
  assert (Em : map protect_value values = map protect_value values').
  { unfold affinity_fingerprint in E.
    destruct values as [|x xs], values' as [|y ys]; try (simpl in *; congruence).
    apply append_inj_r in E. apply append_inj_r in E. apply (append_inj_r "|") in E.
    eapply join_inj; [|eapply protect_value_no_bar; eassumption..|exact E].
    rewrite !length_map. congruence. }
  pose proof (protect_values_eq _ _ _ _ _ _ _ Hs Ev Ev' Em) as Hall.
  rewrite Forall_forall in Hall. destruct (Hall d Hd) as (v & v' & H1 & H2 & Hf).
  apply fingerprint_text_inj in Hf as [Hl Hh]. by exists v, v'.
Qed.
End isolation.

(** * Properties *)

(** [normalize] always produces a well-formed policy (every number
    inside its runtime bound, one worker outside [pool], the affinity list sorted,
    supported and sufficient for the isolation mode; or the all-zero disabled
    policy), and normalising again changes nothing. *)
Theorem normalize_establishes_wf p :
  policy_wf (normalize p) /\ normalize (normalize p) = normalize p.
Proof. split; [apply normalize_wf|apply normalize_fixed, normalize_wf]. Qed.

Lemma normalize_mode p : mode (normalize p) = mode p \/ policy_off (normalize p).
Proof.
  destruct (policy_active_cases p) as [Hp|(Hm & Hw & Hf)].
  - right. rewrite normalize_inactive by done. by constructor.
  - left. apply (normalize_active p Hm Hw Hf).
Qed.

Lemma normalize_source p : source (normalize p) = source p.
Proof.
  destruct (policy_active_cases p) as [Hp|(Hm & Hw & Hf)].
  - by rewrite normalize_inactive.
  - apply (normalize_active p Hm Hw Hf).
Qed.

(** The mode a resolution asks for, before the capacities are looked at. *)
Definition requested_mode (canonical_policy server_execution : option JsonValue)
    (fallback_mode : ExecutionMode) : ExecutionMode :=
  if match canonical_policy with Some v => canonical_policy_disabled v | None => false end
  then Disabled
  else unwrap_or (mode_at server_execution) fallback_mode.

Lemma mode_apply_global p v : mode (apply_global_limits p v) = mode p.
Proof. unfold apply_global_limits. by case_stuck. Qed.

(** Resolution always yields a well-formed policy whose mode is the
    server's explicit mode, else the fallback, or a disabled policy; a canonical
    policy that disables the server wins over everything and is reported as the
    source. *)
Theorem resolve_with_canonical_precedence defaults canonical server fallback :
  let p := resolve_with_canonical defaults canonical server fallback in
  policy_wf p
  /\ (mode p = requested_mode canonical server fallback \/ policy_off p)
  /\ (match canonical with Some c => canonical_policy_disabled c | None => false end = true ->
      policy_off p /\ source p = "server.policy")
  /\ (match canonical with Some c => canonical_policy_disabled c | None => false end = false ->
      is_some (mode_at server) = true -> source p = "server.execution").
Proof.
  cbv zeta. unfold resolve_with_canonical, requested_mode.
  set (off := match canonical with Some c => canonical_policy_disabled c | None => false end).
  split; [apply normalize_wf|]. split; [|split].
  - set (src := if off then "server.policy" else _). clearbody src.
    destruct off; cbn [mode for_mode].
    + right. rewrite normalize_inactive by (by left). by constructor.
    + match goal with |- context [set_source src ?q] => destruct (normalize_mode (set_source src q)) as [E|E] end;
        [left; by rewrite E|by right].
  - intros ->. rewrite normalize_source. split; [|done].
    rewrite normalize_inactive by (by left). by constructor.
  - intros -> ->. by rewrite normalize_source.
Qed.

Definition sample_server : JsonValue :=
  JObject [("execution", JObject [("maxWorkers", JNumber "9"); ("mode", JString "pool")])].

Lemma resolve_with_canonical_precedence_witness :
  policy_off (resolve_with_canonical None (Some (JObject [("scopeClass", JString "not_runnable")]))
                (Some (JObject [("mode", JString "shared")])) Shared)
  /\ source (resolve_with_canonical None None (json_get sample_server "execution") Shared)
     = "server.execution".
Proof.
  split.
  - apply (resolve_with_canonical_precedence None (Some (JObject [("scopeClass", JString "not_runnable")]))
             (Some (JObject [("mode", JString "shared")])) Shared). reflexivity.
  - apply (resolve_with_canonical_precedence None None (json_get sample_server "execution") Shared);
      reflexivity.
Defined.

(** A server entry without a [policy] or [execution] object inherits
    every setting of an active default policy: the defaults survive being written
    to JSON and read back, and only the source and the warnings change. *)
Theorem for_server_inherits_defaults defaults raw_server :
  policy_active defaults ->
  json_get raw_server "policy" = None -> json_get raw_server "execution" = None ->
  for_server defaults raw_server = set_warnings [] (set_source "executionDefaults" defaults).
Proof. apply for_server_plain. Qed.

Definition sample_pool : ExecutionPolicy := normalize (for_mode Pool).

Lemma sample_pool_active : policy_active sample_pool.
Proof. destruct (normalize_wf (for_mode Pool)) as [H|H]; [exact H|].
  pose proof (off_mode _ H) as E. vm_compute in E. discriminate E.
Qed.

Lemma for_server_inherits_defaults_witness :
  for_server sample_pool (JObject [("command", JString "npx")])
  = set_warnings [] (set_source "executionDefaults" sample_pool).
Proof.
  apply (for_server_inherits_defaults sample_pool (JObject [("command", JString "npx")]));
    [apply sample_pool_active|reflexivity..].
Defined.

Lemma policy_off_capacity p t : policy_off p -> worker_limit p = 0%N /\ effective_max_in_flight_per_worker p t = 0%N.
Proof.
  intros [Hm _ _ _ _ Hw _]. unfold worker_limit, effective_max_in_flight_per_worker, is_disabled.
  by rewrite Hm.
Qed.

(** For a well-formed policy the capacity is the exact product of
    workers and in-flight slots, never saturates and stays at or below 64 * 64; a
    stdio worker takes one request at a time; and the capacity is zero exactly when
    the policy is disabled. *)
Theorem effective_capacity_bounds p transport :
  policy_wf p ->
  effective_capacity p transport
    = (worker_limit p * effective_max_in_flight_per_worker p transport)%N
  /\ (effective_capacity p transport <= MAX_WORKERS * MAX_IN_FLIGHT_PER_WORKER)%N
  /\ (eq_ignore_ascii_case transport "stdio" = true ->
      effective_capacity p transport = worker_limit p)
  /\ (effective_capacity p transport = 0%N <-> is_disabled p = true).
Proof.
  unfold effective_capacity, sat_mul, USIZE_MAX, U64_MAX, MAX_WORKERS, MAX_IN_FLIGHT_PER_WORKER.
  intros [Ha|Ho].
  - assert (Hd : is_disabled p = false).
    { unfold is_disabled. rewrite (proj2 (mode_eqb_false _ _) (active_mode p Ha)).
      apply N.eqb_neq. pose proof (active_workers p Ha). lia. }
    pose proof (active_workers p Ha) as Hw. pose proof (active_in_flight p Ha) as Hf.
    unfold MAX_WORKERS, MAX_IN_FLIGHT_PER_WORKER in *.
    assert (Hl : (1 <= worker_limit p <= 64)%N).
    { pose proof (active_mode p Ha). unfold worker_limit. destruct (mode p); lia || done. }
    unfold effective_max_in_flight_per_worker. rewrite Hd.
    split; [case_stuck; nia|]. split; [case_stuck; nia|]. split; [intros ->; lia|].
    split; [|done]. intros Hz. exfalso. revert Hz. case_stuck; nia.
  - destruct (policy_off_capacity p transport Ho) as [-> ->].
    repeat split; try lia. intros _. unfold is_disabled. by rewrite (off_mode p Ho).
Qed.

Lemma effective_capacity_bounds_witness :
  effective_capacity sample_pool "STDIO" = worker_limit sample_pool
  /\ effective_capacity sample_pool "STDIO" = 4%N.
Proof.
  split; [|reflexivity].
  apply (effective_capacity_bounds sample_pool "STDIO"); [left; apply sample_pool_active|reflexivity].
Defined.

(** A server is inferred [shared] only on evidence: its concurrency
    policy says [multi-reader], its state class is one of the three stateless-per-call
    classes, and nothing in its metadata asks for a disabled, project-isolated or
    session-isolated server. Unknown metadata falls back to [serialized]. *)
Theorem inferred_mode_shared_iff scope_class concurrency_policy state_binding state_class :
  inferred_mode scope_class concurrency_policy state_binding state_class = Shared <->
  normalize_token concurrency_policy = "multi-reader"
  /\ (normalize_token state_class ∈ ["stateless"; "credential-stateful"; "remote-session-stateful"])
  /\ (normalize_token scope_class ∉ ["not-runnable"; "project-local"])
  /\ normalize_token state_binding <> "host-session".
Proof.
  unfold inferred_mode. rewrite <- one_of_elem.
  set (sc := normalize_token scope_class). set (cp := normalize_token concurrency_policy).
  set (sb := normalize_token state_binding). set (st := normalize_token state_class).
  clearbody sc cp sb st. rewrite not_elem_of_cons, not_elem_of_cons. split.
  - intros E. repeat case_stuck_in E; try done. bool_prop. subst.
    repeat split; auto using not_elem_of_nil.
  - intros (-> & Hst & (Hs1 & Hs2 & _) & Hb).
    rewrite (proj2 (String.eqb_neq _ _) Hs1), (proj2 (String.eqb_neq _ _) Hs2),
      (proj2 (String.eqb_neq _ _) Hb), Hst.
    rewrite one_of_elem, !elem_of_cons, elem_of_nil in Hst.
    destruct Hst as [Hst | [Hst | [Hst | []] ] ]; by rewrite Hst.
Qed.

Section affinity_properties.
Context `{SerdeJson} `{Hasher}.

(** C7: two requests of one well-formed policy receive the same affinity
    fingerprint (and so may share a worker) only if, for every dimension of the
    policy, the two values have the same length and the same 64-bit hash. *)
Theorem affinity_key_isolates p ctx ctx' k k' :
  policy_wf p ->
  affinity_key p ctx = Ok k -> affinity_key p ctx' = Ok k' ->
  key_fingerprint k = key_fingerprint k' ->
  forall d, d ∈ affinity p ->
  exists v v', affinity_value ctx d = Some v /\ affinity_value ctx' d = Some v'
    /\ str_len v = str_len v' /\ hash_str v = hash_str v'.
Proof.
  intros [Ha|Ho]; [apply affinity_key_separates, Ha|].
  intros _ _ _ d. rewrite (off_affinity p Ho). by intros ?%not_elem_of_nil.
Qed.

Lemma affinity_key_Err_iff p ctx :
  is_ok (affinity_key p ctx) = false <-> exists d, d ∈ affinity p /\ affinity_value ctx d = None.
Proof.
  unfold affinity_key. destruct (affinity_values (mode p) ctx (affinity p)) as [vs|e] eqn:E; simpl.
  - split; [done|]. intros (d & Hd & Hn). apply affinity_values_Ok in E.
    apply list_elem_of_lookup in Hd as [i Hi].
    destruct (Forall2_lookup_l _ _ _ _ _ E Hi) as (? & _ & v & Hv & _). congruence.
  - split; [|done]. intros _. apply affinity_values_Err in E as (d & ? & ? & _). eauto.
Qed.

(** C8: isolation fails closed. A normalised project-isolated policy
    refuses a request without a usable project root, and a normalised
    session-isolated policy refuses one that names no session at all; no shared
    default group is ever handed out instead. *)
Theorem isolation_fails_closed p ctx :
  (mode (normalize p) = ProjectIsolated -> trimmed (ctx_project_root ctx) = None ->
   is_ok (affinity_key (normalize p) ctx) = false)
  /\ (mode (normalize p) = SessionIsolated -> trimmed (ctx_session_id ctx) = None ->
      application_session_id ctx = None ->
      metadata_string ctx [["mcpace"; "transportSessionId"]; ["transportSessionId"]] = None ->
      is_ok (affinity_key (normalize p) ctx) = false).
Proof.
  assert (Ha : mode (normalize p) <> Disabled -> policy_active (normalize p)).
  { intros Hn. destruct (normalize_wf p) as [?|Ho]; [done|]. by rewrite (off_mode _ Ho) in Hn. }
  split.
  - intros Hm Hp. apply affinity_key_Err_iff. exists "project".
    split; [apply active_project; [apply Ha; by rewrite Hm|done]|]. exact Hp.
  - intros Hm Hs Happ Ht. apply affinity_key_Err_iff.
    destruct (active_session (normalize p)) as (d & Hd & Hl); [apply Ha; by rewrite Hm|done|].
    exists d. split; [done|]. unfold session_like in Hl.
    rewrite one_of_elem, !elem_of_cons, elem_of_nil in Hl.
    unfold affinity_value. rewrite Hs, Happ, Ht.
    destruct Hl as [Hl | [Hl | [Hl | [Hl | []] ] ] ]; by rewrite Hl.
Qed.
End affinity_properties.

(** A concrete 64-bit hash for the witnesses: FNV-1a. *)
Module FnvHasher.
Definition fnv_step (h : N) (c : ascii) : N := wrapping_mul64 (N.lxor h (code c)) 1099511628211.

Definition fnv (s : string) : N := fold_left fnv_step (bytes s) 14695981039346656037%N.

Lemma fnv_u64 s : (fnv s <= U64_MAX)%N.
Proof.
  unfold fnv. assert (H0 : (14695981039346656037 <= U64_MAX)%N) by (unfold U64_MAX; lia).
  revert H0. generalize 14695981039346656037%N. induction (bytes s) as [|c l IH]; intros h Hh; [done|].
  apply IH. unfold fnv_step, wrapping_mul64.
  pose proof (N.mod_lt (N.lxor h (code c) * 1099511628211) (U64_MAX + 1)). unfold U64_MAX in *. lia.
Qed.

#[export] Instance hasher : Hasher := {| hash_str := fnv; hash_str_u64 := fnv_u64 |}.
End FnvHasher.

Definition sample_context (session : option string) : ExecutionAffinityContext :=
  {| ctx_client_id := Some "cursor"; ctx_session_id := session; ctx_project_root := None;
     ctx_transport := None; ctx_metadata := None |}.

Definition sample_session_policy : ExecutionPolicy := normalize (for_mode SessionIsolated).

Lemma affinity_key_isolates_witness :
  exists v v', affinity_value (H := TreeCodec.codec) (H0 := FnvHasher.hasher) (sample_context (Some " s1 ")) "chat" = Some v
    /\ affinity_value (H := TreeCodec.codec) (H0 := FnvHasher.hasher) (sample_context (Some "s1")) "chat" = Some v'
    /\ str_len v = str_len v' /\ FnvHasher.fnv v = FnvHasher.fnv v'.
Proof.
  eapply (affinity_key_isolates (H := TreeCodec.codec) (H0 := FnvHasher.hasher) sample_session_policy
            (sample_context (Some " s1 ")) (sample_context (Some "s1"))).
  - apply normalize_wf.
  - vm_compute. reflexivity.
  - vm_compute. reflexivity.
  - reflexivity.
  - apply (one_of_elem _ "chat"). reflexivity.
Defined.

Lemma isolation_fails_closed_witness :
  is_ok (affinity_key (H := TreeCodec.codec) (H0 := FnvHasher.hasher)
           (normalize (for_mode SessionIsolated)) (sample_context None)) = false
  /\ is_ok (affinity_key (H := TreeCodec.codec) (H0 := FnvHasher.hasher)
           (normalize (for_mode ProjectIsolated)) (sample_context None)) = false.
Proof.
  split.
  - apply (proj2 (isolation_fails_closed (H := TreeCodec.codec) (H0 := FnvHasher.hasher)
                    (for_mode SessionIsolated) (sample_context None))); reflexivity.
  - apply (proj1 (isolation_fails_closed (H := TreeCodec.codec) (H0 := FnvHasher.hasher)
                    (for_mode ProjectIsolated) (sample_context None))); reflexivity.
Defined.
