(* ===== verification/LeaseRoute.v ===== *)
(** * Planned routes (src/hub/leases.rs, first half)

    The route a lease is granted for: read from the client routing plan or, for a
    server only the settings registry knows, built conservatively; the reasons that
    keep a route from being granted; the JSON readers and token helpers they use. *)

From Stdlib Require Import Ascii.
From S2P Require Import Prelude RustStr BTree Json TextUtils.

Record PlannedRoute := mkRoute {
  server_name : string;
  admission_state : string;
  request_strategy : string;
  request_mutex_key : option string;
  session_affinity_key : option string;
  process_scope_key : string;
  process_partition : string;
  project_binding_key : option string;
  worktree_binding_key : option string;
  conflict_domain : string;
  host_lock_key : option string;
  state_profile_key : option string;
  scheduler_lane : string;
  startup_strategy : string;
  upstream_transport : string;
  parallelism_limit : N;
  route_warnings : list string;
  route_client_id : string;
  session_lease_id : string;
  route_session_id : option string;
  route_project_root : option string
}.

Record RuntimeLeaseRequest := mkLeaseRequest {
  req_server_name : string;
  req_client_id : option string;
  req_session_id : option string;
  req_project_root : option string;
  req_transport : option string;
  req_metadata_json : option string;
  req_ttl_ms : option N;
  req_takeover : bool
}.

(** ** JSON readers *)

Definition number_u128_at (value : JsonValue) (path : list string) : option N :=
  match value_at_path value path with
  | Some (JNumber text) => parse_u128 text
  | _ => None
  end.

Definition optional_string (value : JsonValue) (path : list string) : option string :=
  match value_at_path value path with
  | Some (JString text) => Some text
  | _ => None
  end.

Definition required_string (value : JsonValue) (path : list string) : string :=
  unwrap_or (optional_string value path) EmptyString.

(** [usize::try_from] of an [i64] fails exactly on negative numbers. *)
Definition required_usize (value : JsonValue) (path : list string) : N :=
  match value_at_path value path ≫= as_i64 with
  | Some z => if (z <? 0)%Z then 1%N else Z.to_N z
  | None => 1%N
  end.

Definition strings_at (value : JsonValue) (path : list string) : list string :=
  omap as_str (unwrap_or (array_at_path value path) []).

(** ** Tokens *)

(** The output is kept in reverse, so that [ends_with] looks at its head. *)
Fixpoint sanitize_loop (chars output : list ascii) : list ascii :=
  match chars with
  | [] => output
  | ch :: rest =>
      if is_ascii_alphanumeric ch then sanitize_loop rest (ascii_lower ch :: output)
      else if existsb (Ascii.eqb ch) ["-"; "_"; "."]%char then sanitize_loop rest (ch :: output)
      else
        match output with
        | last :: _ =>
            if Ascii.eqb last "-" then sanitize_loop rest output
            else sanitize_loop rest ("-"%char :: output)
        | [] => sanitize_loop rest ["-"%char]
        end
  end.

(** Over UTF-8 bytes: a multi-byte character gives one ['-'], and so does the run
    of its bytes. *)
Definition sanitize_token (value : string) : string :=
  trim_matches "-" (of_bytes (rev (sanitize_loop (bytes value) []))).

Definition non_empty_token (value fallback : string) : string :=
  let token := sanitize_token value in
  if str_is_empty token then fallback else token.

Definition clean_required_server_name (server : string) : result string string :=
  let server := trim server in
  if str_is_empty server then Err "hub lease acquire requires --server <name>"
  else if any_control (bytes server) then
    Err "hub lease server name must not contain control characters"
  else Ok server.

(** ** Routes *)

Definition find_server_plan (plan : JsonValue) (server : string) : option JsonValue :=
  let wanted := to_ascii_lowercase (trim server) in
  match array_at_path plan ["servers"] with
  | None => None
  | Some servers =>
      List.find (fun server =>
        match string_at_path server ["name"] with
        | Some name => eq_ignore_ascii_case (trim name) wanted
        | None => false
        end) servers
  end.

Definition planned_route_from_plan (plan : JsonValue) (name : string) : result PlannedRoute string :=
  server ←? ok_or (find_server_plan plan name)
              ("server '" +:+ name +:+ "' was not found in the client routing plan") ;;
  context ←? ok_or (value_at_path plan ["context"]) "client routing plan is missing context" ;;
  Ok {| server_name := required_string server ["name"];
        admission_state := required_string server ["admissionState"];
        request_strategy := required_string server ["requestStrategy"];
        request_mutex_key := optional_string server ["requestMutexKey"];
        session_affinity_key := optional_string server ["sessionAffinityKey"];
        process_scope_key := required_string server ["processScopeKey"];
        process_partition := required_string server ["processPartition"];
        project_binding_key := optional_string server ["projectBindingKey"];
        worktree_binding_key := optional_string server ["worktreeBindingKey"];
        conflict_domain := required_string server ["conflictDomain"];
        host_lock_key := optional_string server ["hostLockKey"];
        state_profile_key := optional_string server ["stateProfileKey"];
        scheduler_lane := required_string server ["schedulerLane"];
        startup_strategy := required_string server ["startupStrategy"];
        upstream_transport := required_string server ["upstreamTransport"];
        parallelism_limit := required_usize server ["parallelismLimit"];
        route_warnings := strings_at server ["warnings"];
        route_client_id := required_string context ["clientId"];
        session_lease_id := required_string context ["sessionLeaseId"];
        route_session_id := optional_string context ["sessionId"];
        route_project_root := optional_string context ["projectRoot"] |}.

Definition conservative_settings_only_route (request : RuntimeLeaseRequest) (name : string)
    : PlannedRoute :=
  let server_token := non_empty_token name "server" in
  let client_id := unwrap_or (trimmed_non_empty_owned (req_client_id request)) "mcpace-upstream-bridge" in
  let session_id := trimmed_non_empty_owned (req_session_id request) in
  let project_root := trimmed_non_empty_owned (req_project_root request) in
  let project_token :=
    match project_root with Some v => non_empty_token v "global" | None => "global" end in
  let session_token :=
    match session_id with
    | Some v => non_empty_token v "adhoc"
    | None => "settings-only-" +:+ server_token
    end in
  let transport := unwrap_or (trimmed_non_empty_owned (req_transport request)) "stdio" in
  {| server_name := name;
     admission_state := "configured-source";
     request_strategy := "single-writer";
     request_mutex_key := Some ("settings-only:" +:+ server_token +:+ ":" +:+ project_token);
     session_affinity_key :=
       option_map (fun _ => "settings-only:" +:+ server_token +:+ ":" +:+ session_token) session_id;
     process_scope_key := "settings-only:" +:+ server_token +:+ ":" +:+ project_token;
     process_partition := project_token;
     project_binding_key :=
       option_map (fun _ => "project:settings-only:" +:+ server_token) project_root;
     worktree_binding_key := None;
     conflict_domain := "settings-only:" +:+ server_token;
     host_lock_key := None;
     state_profile_key := None;
     scheduler_lane := "settings-only-conservative";
     startup_strategy := "per-request";
     upstream_transport := transport;
     parallelism_limit := 1;
     route_warnings :=
       ["server '" +:+ name +:+ "' exists in the merged MCP settings registry but is not declared in mcpace.config.json; MCPace assigned a conservative single-writer request lease instead of bypassing scheduling"];
     route_client_id := client_id;
     session_lease_id := "session:" +:+ non_empty_token client_id "client" +:+ ":" +:+ session_token;
     route_session_id := session_id;
     route_project_root := project_root |}.

Definition route_blockers (route : PlannedRoute) : list string :=
  let not_source :=
    if String.eqb (admission_state route) "configured-source" then []
    else ["server '" +:+ server_name route +:+ "' is not routable because admissionState is '"
          +:+ admission_state route +:+ "'"] in
  let disabled :=
    if String.eqb (request_strategy route) "disabled-no-route"
       || String.eqb (request_strategy route) "legacy-compat-disabled"
       || String.eqb (scheduler_lane route) "disabled"
       || String.eqb (scheduler_lane route) "legacy-disabled"
       || String.eqb (startup_strategy route) "disabled"
       || (parallelism_limit route =? 0)%N
    then ["server '" +:+ server_name route +:+ "' is not routable because strategy='"
          +:+ request_strategy route +:+ "' lane='" +:+ scheduler_lane route +:+ "' startup='"
          +:+ startup_strategy route +:+ "' parallelismLimit="
          +:+ N_to_string (parallelism_limit route)]
    else [] in
  let pending :=
    if match project_binding_key route with
       | Some value => starts_with "project:pending:" value
       | None => false
       end
    then ["server '" +:+ server_name route
          +:+ "' needs an explicit project root before a runtime lease can be granted"]
    else [] in
  let warned :=
    List.filter (fun warning =>
      str_contains "requires a project root but no project root was resolved" warning
      || str_contains "no project root was resolved" warning
      || str_contains "not declared for the current platform" warning) (route_warnings route) in
  sort_dedup (not_source ++ disabled ++ pending ++ warned).

Definition route_capacity_key (route : PlannedRoute) : string :=
  unwrap_or (request_mutex_key route) (process_scope_key route).

Definition route_json (route : PlannedRoute) : JsonValue :=
  json_object
    [("server", json_string (server_name route));
     ("admissionState", json_string (admission_state route));
     ("requestStrategy", json_string (request_strategy route));
     ("requestMutexKey", json_string_or_null (request_mutex_key route));
     ("sessionAffinityKey", json_string_or_null (session_affinity_key route));
     ("capacityKey", json_string (route_capacity_key route));
     ("processScopeKey", json_string (process_scope_key route));
     ("processPartition", json_string (process_partition route));
     ("projectBindingKey", json_string_or_null (project_binding_key route));
     ("worktreeBindingKey", json_string_or_null (worktree_binding_key route));
     ("conflictDomain", json_string (conflict_domain route));
     ("hostLockKey", json_string_or_null (host_lock_key route));
     ("stateProfileKey", json_string_or_null (state_profile_key route));
     ("schedulerLane", json_string (scheduler_lane route));
     ("startupStrategy", json_string (startup_strategy route));
     ("upstreamTransport", json_string (upstream_transport route));
     ("parallelismLimit", json_number (parallelism_limit route))].

(** ** Lemmas: tokens *)

Definition token_char (c : ascii) : bool :=
  is_ascii_lowercase c || is_ascii_digit c || existsb (Ascii.eqb c) ["-"; "_"; "."]%char.

Lemma ascii_lower_token c : is_ascii_alphanumeric c = true -> token_char (ascii_lower c) = true.
Proof. by destruct c as [[] [] [] [] [] [] [] []]. Qed.

Lemma token_char_step c :
  token_char c = true ->
  is_ascii_alphanumeric c = true /\ ascii_lower c = c
  \/ is_ascii_alphanumeric c = false /\ existsb (Ascii.eqb c) ["-"; "_"; "."]%char = true.
Proof. destruct c as [[] [] [] [] [] [] [] []]; vm_compute; auto. Qed.

Lemma sanitize_loop_chars l out :
  Forall (fun c => token_char c = true) out ->
  Forall (fun c => token_char c = true) (sanitize_loop l out).
Proof.
  revert out. induction l as [|c l IH]; intros out Ho; [done|]. cbn [sanitize_loop].
  destruct (is_ascii_alphanumeric c) eqn:Ea; [apply IH; auto using ascii_lower_token|].
  destruct (existsb _ _) eqn:Ed.
  - apply IH. constructor; [|done]. unfold token_char. by rewrite Ed, orb_true_r.
  - destruct out as [|x out]; [|case_stuck]; apply IH; repeat constructor; auto;
      by inversion Ho.
Qed.

Lemma sanitize_loop_id l out :
  Forall (fun c => token_char c = true) l -> sanitize_loop l out = rev l ++ out.
Proof.
  intros Hl. revert out. induction Hl as [|c l Hc _ IH]; intros out; [done|]. cbn [sanitize_loop].
  destruct (token_char_step c Hc) as [ [-> ->] | [-> ->] ]; rewrite IH; simpl; by rewrite <- app_assoc.
Qed.

Lemma trim_start_char_suffix c l : exists pre, l = pre ++ trim_start_char c l.
Proof.
  induction l as [|a l [pre IH]]; [by exists []|]. simpl. case_stuck; [|by exists []].
  exists (a :: pre). by rewrite IH at 1.
Qed.

Lemma trim_start_char_head c l : head (trim_start_char c l) <> Some c.
Proof. induction l as [|a l IH]; simpl; [done|]. case_stuck; [done|]. apply Ascii.eqb_neq in E. simpl. congruence. Qed.

Lemma trim_start_char_id c l : head l <> Some c -> trim_start_char c l = l.
Proof. destruct l as [|a l]; [done|]. simpl. intros H. case_stuck; [|done]. apply Ascii.eqb_eq in E. congruence. Qed.

Lemma head_prefix_ne {A} (l pre suf : list A) x : l = pre ++ suf -> head l <> Some x -> head pre <> Some x.
Proof. destruct pre; [done|]. intros -> H. exact H. Qed.

Lemma trim_matches_idem c s : trim_matches c (trim_matches c s) = trim_matches c s.
Proof.
  unfold trim_matches. rewrite bytes_of_bytes. f_equal.
  set (l := trim_start_char c (bytes s)).
  assert (Hl : head l <> Some c) by apply trim_start_char_head.
  destruct (trim_start_char_suffix c (rev l)) as [pre Hpre].
  rewrite (trim_start_char_id c (rev (trim_start_char c (rev l)))).
  - rewrite rev_involutive. by rewrite (trim_start_char_id c (trim_start_char c (rev l)))
      by apply trim_start_char_head.
  - apply (f_equal (@rev ascii)) in Hpre. rewrite rev_involutive, rev_app_distr in Hpre.
    eapply head_prefix_ne; [exact Hpre|done].
Qed.

Lemma trim_matches_Forall P c s : Forall P (bytes s) -> Forall P (bytes (trim_matches c s)).
Proof.
  intros Hs. unfold trim_matches. rewrite bytes_of_bytes.
  assert (Ht : forall l, Forall P l -> Forall P (trim_start_char c l)).
  { intros l Hl. destruct (trim_start_char_suffix c l) as [pre E]. rewrite E in Hl.
    by apply Forall_app in Hl as [_ ?]. }
  apply Forall_rev, Ht, Forall_rev, Ht, Hs.
Qed.

Lemma sanitize_token_chars v : Forall (fun c => token_char c = true) (bytes (sanitize_token v)).
Proof.
  apply trim_matches_Forall. rewrite bytes_of_bytes. apply Forall_rev, sanitize_loop_chars. constructor.
Qed.

Lemma sanitize_token_idem v : sanitize_token (sanitize_token v) = sanitize_token v.
Proof.
  pose proof (sanitize_token_chars v) as Hc. unfold sanitize_token at 1.
  rewrite sanitize_loop_id, app_nil_r, rev_involutive, of_bytes_bytes by done.
  apply trim_matches_idem.
Qed.

(** ** Lemmas: the route record reads back *)

Lemma optional_string_or_null o :
  match json_string_or_null o with JString text => Some text | _ => None end = o.
Proof. by destruct o. Qed.

Lemma optional_string_app v k rest :
  optional_string v (k :: rest) = json_get v k ≫= (fun v' => optional_string v' rest).
Proof. unfold optional_string. simpl. by destruct (json_get v k). Qed.

Lemma route_json_mutex route : optional_string (route_json route) ["requestMutexKey"] = request_mutex_key route.
Proof. unfold optional_string. cbn. apply optional_string_or_null. Qed.

Lemma route_json_capacity route : optional_string (route_json route) ["capacityKey"] = Some (route_capacity_key route).
Proof. reflexivity. Qed.
