(* ===== verification/LeaseStore.v ===== *)
(** * The lease store (src/hub/leases.rs, second half)

    The JSON document of active leases, its operations (acquire, renew, release,
    list), the session index derived from it, and the lock-guarded read-modify-write
    cycle around the file that holds it. *)

From Stdlib Require Import Ascii.
From S2P Require Import Prelude RustStr BTree Json TextUtils LeaseRoute.

Definition LEASE_STORE_VERSION : N := 2.
Definition DEFAULT_LEASE_TTL_MS : N := 120000.
Definition MAX_LEASE_TTL_MS : N := 3600000.
Definition LEASE_LOCK_ATTEMPTS : nat := 100.
Definition LEASE_LOCK_STALE_MS : N := 30000.

(** A [BTreeMap<String, JsonValue>]. *)
Definition JsonMap : Type := list (string * JsonValue).

Record LeaseCommandResult := mkResult { result_json : JsonValue; exit_code : Z }.

(** A line handed to [runtime::append_log]; the code ignores its outcome. *)
Record LogEvent := mkLog { log_level : string; log_event : string; log_fields : JsonMap }.

(** ** Sessions *)

Record SessionAccumulator := mkAcc {
  acc_session_lease_id : string;
  acc_client_id : string;
  acc_session_id : option string;
  acc_project_root : option string;
  acc_started_at_ms : N;
  acc_last_lease_seen_at_ms : N;
  acc_active_lease_ids : list string;
  acc_servers : list string
}.

Definition lease_started_at (lease : JsonValue) (refreshed_at_ms : N) : N :=
  unwrap_or (number_u128_at lease ["acquiredAtMs"]) refreshed_at_ms.

Definition lease_seen_at (lease : JsonValue) (refreshed_at_ms : N) : N :=
  unwrap_or (opt_or (number_u128_at lease ["renewedAtMs"]) (number_u128_at lease ["acquiredAtMs"]))
    refreshed_at_ms.

(** The session a lease belongs to: recorded, or derived from its client and session. *)
Definition session_of_lease (lease : JsonValue) : string :=
  let client_id := unwrap_or (optional_string lease ["clientId"]) "unknown" in
  match optional_string lease ["sessionLeaseId"] with
  | Some id => id
  | None =>
      let session_token :=
        match optional_string lease ["sessionId"] with
        | Some value => non_empty_token value "adhoc"
        | None => non_empty_token (required_string lease ["leaseId"]) "adhoc"
        end in
      "session:" +:+ non_empty_token client_id "unknown" +:+ ":" +:+ session_token
  end.

Definition from_lease (lease : JsonValue) (refreshed_at_ms : N) : option SessionAccumulator :=
  let lease_id := required_string lease ["leaseId"] in
  if str_is_empty lease_id then None
  else
    Some {| acc_session_lease_id := session_of_lease lease;
            acc_client_id := unwrap_or (optional_string lease ["clientId"]) "unknown";
            acc_session_id := optional_string lease ["sessionId"];
            acc_project_root := optional_string lease ["projectRoot"];
            acc_started_at_ms := lease_started_at lease refreshed_at_ms;
            acc_last_lease_seen_at_ms := lease_seen_at lease refreshed_at_ms;
            acc_active_lease_ids := [lease_id];
            acc_servers :=
              match optional_string lease ["server"] with Some server => [server] | None => [] end |}.

Definition add_lease (acc : SessionAccumulator) (lease : JsonValue) (refreshed_at_ms : N)
    : SessionAccumulator :=
  let lease_id := required_string lease ["leaseId"] in
  if str_is_empty lease_id then acc
  else
    {| acc_session_lease_id := acc_session_lease_id acc;
       acc_client_id := acc_client_id acc;
       acc_session_id := acc_session_id acc;
       acc_project_root :=
         match acc_project_root acc with
         | None => optional_string lease ["projectRoot"]
         | Some root => Some root
         end;
       acc_started_at_ms := N.min (acc_started_at_ms acc) (lease_started_at lease refreshed_at_ms);
       acc_last_lease_seen_at_ms :=
         N.max (acc_last_lease_seen_at_ms acc) (lease_seen_at lease refreshed_at_ms);
       acc_active_lease_ids := acc_active_lease_ids acc ++ [lease_id];
       acc_servers :=
         acc_servers acc
         ++ match optional_string lease ["server"] with Some server => [server] | None => [] end |}.

Definition into_json (acc : SessionAccumulator) (refreshed_at_ms : N) : JsonValue :=
  let ids := sort_dedup (acc_active_lease_ids acc) in
  let servers := sort_dedup (acc_servers acc) in
  json_object
    [("sessionLeaseId", json_string (acc_session_lease_id acc));
     ("clientId", json_string (acc_client_id acc));
     ("sessionId", json_string_or_null (acc_session_id acc));
     ("projectRoot", json_string_or_null (acc_project_root acc));
     ("startedAtMs", json_number (acc_started_at_ms acc));
     ("lastLeaseSeenAtMs", json_number (acc_last_lease_seen_at_ms acc));
     ("refreshedAtMs", json_number refreshed_at_ms);
     ("activeLeaseCount", json_number (len_N ids));
     ("activeLeaseIds", json_array (map json_string ids));
     ("servers", json_array (map json_string servers))].

(** ** The document *)

Definition leases_map (store : JsonMap) : option JsonMap :=
  match bt_get "leases" store with Some (JObject map) => Some map | _ => None end.

Definition sessions_map (store : JsonMap) : option JsonMap :=
  match bt_get "sessions" store with Some (JObject map) => Some map | _ => None end.

(** [leases_map_mut]: an absent or malformed map reads as empty, and the update
    writes it back. *)
Definition leases_or_empty (store : JsonMap) : JsonMap := unwrap_or (leases_map store) [].

Definition leases_map_mut (f : JsonMap -> JsonMap) (store : JsonMap) : JsonMap :=
  bt_insert "leases" (JObject (f (leases_or_empty store))) store.

Definition normalize_store_shape (store : JsonMap) : JsonMap :=
  let store :=
    match bt_get "leases" store with
    | Some (JObject _) => store
    | _ => bt_insert "leases" (JObject []) store
    end in
  match bt_get "sessions" store with
  | Some (JObject _) => store
  | _ => bt_insert "sessions" (JObject []) store
  end.

Definition default_store_map (now_ms : N) : JsonMap :=
  bt_of_list
    [("version", json_number LEASE_STORE_VERSION); ("leases", JObject []); ("sessions", JObject []);
     ("updatedAtMs", json_number now_ms)].

Definition expires_at_ms (value : JsonValue) : option N := number_u128_at value ["expiresAtMs"].

Definition unexpired (now_ms : N) (value : JsonValue) : bool :=
  match expires_at_ms value with Some expires_at => (now_ms <? expires_at)%N | None => true end.

Definition purge_expired (store : JsonMap) (now_ms : N) : JsonMap * N :=
  let before := len_N (leases_or_empty store) in
  let store' := leases_map_mut (bt_retain (fun _ value => unexpired now_ms value)) store in
  (store', (before - len_N (leases_or_empty store'))%N).

Definition active_lease_count (store : JsonMap) : N :=
  match leases_map store with Some leases => len_N leases | None => 0%N end.

Definition active_session_count (store : JsonMap) : N :=
  match sessions_map store with Some sessions => len_N sessions | None => 0%N end.

Definition sorted_leases (store : JsonMap) : list JsonValue :=
  match leases_map store with Some leases => bt_values leases | None => [] end.

Definition sorted_sessions (store : JsonMap) : list JsonValue :=
  match sessions_map store with Some sessions => bt_values sessions | None => [] end.

(** [entry(..).and_modify(..).or_insert(..)]. *)
Definition session_step (refreshed_at_ms : N) (sessions : list (string * SessionAccumulator))
    (lease : JsonValue) : list (string * SessionAccumulator) :=
  match from_lease lease refreshed_at_ms with
  | None => sessions
  | Some acc =>
      let id := acc_session_lease_id acc in
      bt_insert id
        match bt_get id sessions with
        | Some existing => add_lease existing lease refreshed_at_ms
        | None => acc
        end sessions
  end.

Definition rebuild_sessions (store : JsonMap) (refreshed_at_ms : N) : JsonMap :=
  let sessions := fold_left (session_step refreshed_at_ms) (sorted_leases store) [] in
  bt_insert "sessions"
    (JObject (map (fun kv => (fst kv, into_json (snd kv) refreshed_at_ms)) sessions)) store.

(** ** Conflicts *)

Record LeaseConflict := mkConflict { conflict_reason : string; conflict_lease : JsonValue }.

Definition lease_mutex_key (lease : JsonValue) : option string :=
  optional_string lease ["route"; "requestMutexKey"].

Definition lease_capacity_key (lease : JsonValue) : option string :=
  optional_string lease ["route"; "capacityKey"].

Definition holds_mutex (key : string) (lease : JsonValue) : bool :=
  bool_decide (lease_mutex_key lease = Some key).

Definition in_capacity_group (key : string) (lease : JsonValue) : bool :=
  bool_decide (lease_capacity_key lease = Some key).

Definition find_conflict (store : JsonMap) (route : PlannedRoute) : option LeaseConflict :=
  match leases_map store with
  | None => None
  | Some leases =>
      let candidate_capacity_key := route_capacity_key route in
      match request_mutex_key route with
      | Some mutex_key =>
          match List.find (holds_mutex mutex_key) (bt_values leases) with
          | Some lease =>
              Some {| conflict_reason :=
                        "mutex '" +:+ mutex_key +:+ "' is already held by lease '"
                        +:+ required_string lease ["leaseId"] +:+ "'";
                      conflict_lease := lease |}
          | None => None
          end
      | None =>
          let matching := List.filter (in_capacity_group candidate_capacity_key) (bt_values leases) in
          if (0 <? parallelism_limit route)%N && (parallelism_limit route <=? len_N matching)%N then
            Some {| conflict_reason :=
                      "parallelism limit " +:+ N_to_string (parallelism_limit route) +:+ " for '"
                      +:+ candidate_capacity_key +:+ "' is already exhausted";
                    conflict_lease := unwrap_or (head matching) JNull |}
          else None
      end
  end.

Definition takeover_allowed (takeover : bool) (conflicting_lease : JsonValue) (route : PlannedRoute)
    : bool :=
  takeover
  && match string_at_path conflicting_lease ["sessionLeaseId"] with
     | Some value => String.eqb value (session_lease_id route)
     | None => false
     end.

Definition lease_record_json (lease_id : string) (route : PlannedRoute)
    (acquired_at_ms expires_at ttl_ms : N) : JsonValue :=
  json_object
    [("leaseId", json_string lease_id);
     ("server", json_string (server_name route));
     ("clientId", json_string (route_client_id route));
     ("sessionLeaseId", json_string (session_lease_id route));
     ("sessionId", json_string_or_null (route_session_id route));
     ("projectRoot", json_string_or_null (route_project_root route));
     ("acquiredAtMs", json_number acquired_at_ms);
     ("expiresAtMs", json_number expires_at);
     ("ttlMs", json_number ttl_ms);
     ("route", route_json route)].

Definition acquire_blocked_json (route : PlannedRoute) (now_ms expired_purged_count : N)
    (reason : string) (conflicting_lease : option JsonValue) (active : N) : JsonValue :=
  json_object
    [("status", json_string "blocked");
     ("reason", json_string reason);
     ("server", json_string (server_name route));
     ("clientId", json_string (route_client_id route));
     ("sessionLeaseId", json_string (session_lease_id route));
     ("nowMs", json_number now_ms);
     ("activeLeaseCount", json_number active);
     ("expiredPurgedCount", json_number expired_purged_count);
     ("route", route_json route);
     ("conflictingLease", unwrap_or conflicting_lease JNull);
     ("warnings", json_array (map json_string (route_warnings route)))].

Definition normalize_ttl (ttl_ms : option N) : N :=
  match opt_filter (fun value => 0 <? value)%N ttl_ms with
  | Some value => N.min value MAX_LEASE_TTL_MS
  | None => DEFAULT_LEASE_TTL_MS
  end.

(** [std::process::id()] and the nanosecond clock ([None] when it reads before the epoch). *)
Record IdSource := mkIds { process_id : N; clock_nanos : option N }.

Definition generate_lease_id (ids : IdSource) (route : PlannedRoute) (now_ms : N) : string :=
  "lease:" +:+ sanitize_token (server_name route) +:+ ":" +:+ N_to_string now_ms +:+ ":"
  +:+ N_to_string (process_id ids) +:+ ":" +:+ N_to_string (unwrap_or (clock_nanos ids) now_ms).

(** ** Operations on the document

    A mutator gets the store, the time and the number of purged leases; it returns
    the new store, the log lines it emits, and its result. *)

Definition Mutator : Type :=
  JsonMap -> N -> N -> JsonMap * list LogEvent * result LeaseCommandResult string.

(** What happens to a conflicting lease: it blocks the request, or it is taken over. *)
Definition take_over (store : JsonMap) (route : PlannedRoute) (conflict : LeaseConflict)
    : JsonMap * list LogEvent * JsonValue :=
  let lease_id := required_string (conflict_lease conflict) ["leaseId"] in
  let removed := bt_get lease_id (leases_or_empty store) in
  let store := leases_map_mut (bt_remove lease_id) store in
  match removed with
  | Some removed_lease =>
      (store,
       [{| log_level := "warn"; log_event := "lease_taken_over";
           log_fields := [("leaseId", json_string lease_id);
                          ("server", json_string (server_name route));
                          ("sessionLeaseId", json_string (session_lease_id route))] |}],
       removed_lease)
  | None => (store, [], conflict_lease conflict)
  end.

(** Inserting the record, the rebuilt session index and the reply. *)
Definition grant_lease (ids : IdSource) (route : PlannedRoute) (ttl_ms : N)
    (taken_over : option JsonValue) (log : list LogEvent) : Mutator :=
  fun store now_ms expired_purged_count =>
  let lease_id := generate_lease_id ids route now_ms in
  let expires_at := sat_add U128_MAX now_ms ttl_ms in
  let lease_json := lease_record_json lease_id route now_ms expires_at ttl_ms in
  let store := leases_map_mut (bt_insert lease_id lease_json) store in
  let store := rebuild_sessions store now_ms in
  (store,
   log ++ [{| log_level := "info"; log_event := "lease_acquired";
              log_fields := [("leaseId", json_string lease_id);
                             ("server", json_string (server_name route));
                             ("schedulerLane", json_string (scheduler_lane route));
                             ("ttlMs", json_number ttl_ms)] |}],
   Ok {| result_json := json_object
           [("status", json_string "acquired");
            ("leaseId", json_string lease_id);
            ("server", json_string (server_name route));
            ("clientId", json_string (route_client_id route));
            ("sessionLeaseId", json_string (session_lease_id route));
            ("ttlMs", json_number ttl_ms);
            ("acquiredAtMs", json_number now_ms);
            ("expiresAtMs", json_number expires_at);
            ("activeLeaseCount", json_number (active_lease_count store));
            ("activeSessionCount", json_number (active_session_count store));
            ("expiredPurgedCount", json_number expired_purged_count);
            ("route", route_json route);
            ("lease", lease_json);
            ("takeover", json_bool (is_some taken_over));
            ("takenOverLease", unwrap_or taken_over JNull);
            ("warnings", json_array (map json_string (route_warnings route)))];
         exit_code := 0%Z |}).

Definition acquire_mutator (ids : IdSource) (route : PlannedRoute) (ttl_ms : N) (takeover : bool)
    : Mutator :=
  fun store now_ms expired_purged_count =>
  let blocked reason lease :=
    (store, [],
     Ok {| result_json := acquire_blocked_json route now_ms expired_purged_count reason lease
                            (active_lease_count store);
           exit_code := 1%Z |}) in
  match route_blockers route with
  | _ :: _ as blockers => blocked (join " | " blockers) None
  | [] =>
      match find_conflict store route with
      | Some conflict =>
          if takeover_allowed takeover (conflict_lease conflict) route then
            let '(store', log, taken) := take_over store route conflict in
            grant_lease ids route ttl_ms (Some taken) log store' now_ms expired_purged_count
          else blocked (conflict_reason conflict) (Some (conflict_lease conflict))
      | None => grant_lease ids route ttl_ms None [] store now_ms expired_purged_count
      end
  end.

(** The three fields a renewal writes; a record that is not an object is left alone. *)
Definition renew_record (now_ms expires_at ttl_ms : N) (lease : JsonValue) : JsonValue :=
  match lease with
  | JObject map =>
      JObject (bt_insert "ttlMs" (json_number ttl_ms)
                (bt_insert "expiresAtMs" (json_number expires_at)
                  (bt_insert "renewedAtMs" (json_number now_ms) map)))
  | other => other
  end.

Definition renew_mutator (lease_id : string) (ttl_ms : N) : Mutator :=
  fun store now_ms expired_purged_count =>
  let expires_at := sat_add U128_MAX now_ms ttl_ms in
  let renewed :=
    option_map (renew_record now_ms expires_at ttl_ms) (bt_get lease_id (leases_or_empty store)) in
  let store :=
    leases_map_mut (fun leases =>
      match renewed with Some lease => bt_insert lease_id lease leases | None => leases end) store in
  let store := rebuild_sessions store now_ms in
  (store,
   match renewed with
   | Some _ => [{| log_level := "info"; log_event := "lease_renewed";
                   log_fields := [("leaseId", json_string lease_id); ("ttlMs", json_number ttl_ms)] |}]
   | None => []
   end,
   Ok {| result_json := json_object
           [("status", json_string (if is_some renewed then "renewed" else "not-found"));
            ("leaseId", json_string lease_id);
            ("nowMs", json_number now_ms);
            ("ttlMs", json_number ttl_ms);
            ("expiresAtMs", json_number expires_at);
            ("activeLeaseCount", json_number (active_lease_count store));
            ("activeSessionCount", json_number (active_session_count store));
            ("expiredPurgedCount", json_number expired_purged_count);
            ("renewedLease", unwrap_or renewed JNull)];
         exit_code := if is_some renewed then 0%Z else 1%Z |}).

Definition release_mutator (lease_id : string) : Mutator :=
  fun store now_ms expired_purged_count =>
  let removed := bt_get lease_id (leases_or_empty store) in
  let store := leases_map_mut (bt_remove lease_id) store in
  let store := rebuild_sessions store now_ms in
  (store,
   match removed with
   | Some _ => [{| log_level := "info"; log_event := "lease_released";
                   log_fields := [("leaseId", json_string lease_id)] |}]
   | None => []
   end,
   Ok {| result_json := json_object
           [("status", json_string (if is_some removed then "released" else "not-found"));
            ("leaseId", json_string lease_id);
            ("nowMs", json_number now_ms);
            ("activeLeaseCount", json_number (active_lease_count store));
            ("activeSessionCount", json_number (active_session_count store));
            ("expiredPurgedCount", json_number expired_purged_count);
            ("releasedLease", unwrap_or removed JNull)];
         exit_code := if is_some removed then 0%Z else 1%Z |}).

Definition list_mutator : Mutator :=
  fun store now_ms expired_purged_count =>
  let leases := sorted_leases store in
  let sessions := sorted_sessions store in
  (store, [],
   Ok {| result_json := json_object
           [("status", json_string "listed");
            ("version", json_number LEASE_STORE_VERSION);
            ("nowMs", json_number now_ms);
            ("activeLeaseCount", json_number (len_N leases));
            ("activeSessionCount", json_number (len_N sessions));
            ("expiredPurgedCount", json_number expired_purged_count);
            ("leases", json_array leases);
            ("sessions", json_array sessions)];
         exit_code := 0%Z |}).

(** ** The read-modify-write cycle

    The outcomes of the calls that touch the machine are inputs: the runtime
    layout, the lock, the file, the final write and the readings of the clock. *)

Record StoreIo := mkIo {
  lease_path : string;
  io_layout : result unit string;
  io_lock : result unit string;
  io_file : option (result string string);
  io_write : result unit string;
  clock_default : N;
  clock_now : N;
  clock_rebuild : N;
  clock_updated : N
}.

Section store_file.
Context `{SerdeJson}.

Definition read_store_map (io : StoreIo) : result JsonMap string :=
  match io_file io with
  | None => Ok (default_store_map (clock_default io))
  | Some file =>
      raw ←? map_err (fun error => "failed to read " +:+ lease_path io +:+ ": " +:+ error) file ;;
      value ←? map_err (fun error => "failed to parse " +:+ lease_path io +:+ ": " +:+ error) (parse_str raw) ;;
      match value with
      | JObject map => Ok map
      | _ => Err ("lease store " +:+ lease_path io +:+ " must be a JSON object")
      end
  end.

(** The store as the mutator sees it, with the number of purged leases. *)
Definition open_store (store : JsonMap) (now_ms : N) : JsonMap * N :=
  let '(store, purged) := purge_expired (normalize_store_shape store) now_ms in
  (rebuild_sessions store now_ms, purged).

(** The store as it is written. *)
Definition close_store (store : JsonMap) (rebuilt_at updated_at : N) : JsonMap :=
  bt_insert "updatedAtMs" (json_number updated_at)
    (bt_insert "version" (json_number LEASE_STORE_VERSION) (rebuild_sessions store rebuilt_at)).

(** Returns the text written to the file, if it was written, the log and the result. *)
Definition mutate_store (io : StoreIo) (mutator : Mutator)
    : option string * list LogEvent * result LeaseCommandResult string :=
  match io_layout io with
  | Err error => (None, [], Err error)
  | Ok _ =>
      match io_lock io with
      | Err error => (None, [], Err error)
      | Ok _ =>
          match read_store_map io with
          | Err error => (None, [], Err error)
          | Ok store =>
              let '(store, purged) := open_store store (clock_now io) in
              let '(store, log, outcome) := mutator store (clock_now io) purged in
              match outcome with
              | Err error => (None, log, Err error)
              | Ok reply =>
                  let store := close_store store (clock_rebuild io) (clock_updated io) in
                  let text := to_pretty_string (JObject store) in
                  match io_write io with
                  | Err error => (None, log, Err error)
                  | Ok _ => (Some text, log, Ok reply)
                  end
              end
          end
      end
  end.

Definition acquire_lease_for_route (io : StoreIo) (ids : IdSource) (route : PlannedRoute)
    (ttl_ms : N) (takeover : bool) :=
  mutate_store io (acquire_mutator ids route ttl_ms takeover).

Definition renew_runtime_lease_command (io : StoreIo) (lease_id : string) (ttl_ms : option N) :=
  let lease_id := trim lease_id in
  if str_is_empty lease_id then (None, [], Err "hub lease renew requires --lease-id <id>")
  else mutate_store io (renew_mutator lease_id (normalize_ttl ttl_ms)).

Definition release_runtime_lease_command (io : StoreIo) (lease_id : string) :=
  let lease_id := trim lease_id in
  if str_is_empty lease_id then (None, [], Err "hub lease release requires --lease-id <id>")
  else mutate_store io (release_mutator lease_id).

Definition run_list (io : StoreIo) := mutate_store io list_mutator.

Inductive RuntimeLeaseAcquireResult : Type :=
| Acquired (lease_id : string) (json : JsonValue)
| Blocked (json : JsonValue).

(** [route_for_request] over the plan [client::runtime_plan_json] returns. *)
Definition route_for_request (plan : result JsonValue string) (name : string)
    : result (option PlannedRoute) string :=
  plan ←? plan ;;
  match find_server_plan plan name with
  | None => Ok None
  | Some _ => route ←? planned_route_from_plan plan name ;; Ok (Some route)
  end.

Definition acquire_runtime_lease (io : StoreIo) (ids : IdSource) (plan : result JsonValue string)
    (request : RuntimeLeaseRequest)
    : option string * list LogEvent * result RuntimeLeaseAcquireResult string :=
  match clean_required_server_name (req_server_name request) with
  | Err error => (None, [], Err error)
  | Ok name =>
      match route_for_request plan name with
      | Err error => (None, [], Err error)
      | Ok planned =>
          let route := unwrap_or planned (conservative_settings_only_route request name) in
          let '(text, log, outcome) :=
            acquire_lease_for_route io ids route (normalize_ttl (req_ttl_ms request))
              (req_takeover request) in
          (text, log,
           result ←? outcome ;;
           if (exit_code result =? 0)%Z then
             Ok (Acquired (unwrap_or (string_at_path (result_json result) ["leaseId"]) EmptyString)
                   (result_json result))
           else Ok (Blocked (result_json result)))
      end
  end.

Definition renew_runtime_lease (io : StoreIo) (lease_id : string) (ttl_ms : option N)
    : option string * list LogEvent * result JsonValue string :=
  let '(text, log, outcome) := renew_runtime_lease_command io lease_id ttl_ms in
  (text, log,
   result ←? outcome ;;
   if (exit_code result =? 0)%Z then Ok (result_json result)
   else Err (to_compact_string (result_json result))).

Definition release_runtime_lease (io : StoreIo) (lease_id : string)
    : option string * list LogEvent * result JsonValue string :=
  let '(text, log, outcome) := release_runtime_lease_command io lease_id in
  (text, log, result ←? outcome ;; Ok (result_json result)).
End store_file.

(** ** Lemmas: the lease table inside the document *)

Lemma leases_or_empty_mut f store : leases_or_empty (leases_map_mut f store) = f (leases_or_empty store).
Proof. unfold leases_map_mut, leases_or_empty at 1, leases_map. by rewrite bt_get_insert_eq. Qed.

Lemma leases_or_empty_insert k v store :
  k <> "leases" -> leases_or_empty (bt_insert k v store) = leases_or_empty store.
Proof. intros Hk. unfold leases_or_empty, leases_map. by rewrite bt_get_insert_ne. Qed.

Lemma leases_or_empty_rebuild store t : leases_or_empty (rebuild_sessions store t) = leases_or_empty store.
Proof. by apply leases_or_empty_insert. Qed.

Lemma leases_or_empty_shape store : leases_or_empty (normalize_store_shape store) = leases_or_empty store.
Proof.
  unfold normalize_store_shape.
  set (store1 := match bt_get "leases" store with
                 | Some (JObject _) => store
                 | _ => bt_insert "leases" (JObject []) store
                 end).
  assert (E1 : leases_or_empty store1 = leases_or_empty store).
  { unfold store1, leases_or_empty, leases_map.
    destruct (bt_get "leases" store) as [ [] |] eqn:E; rewrite ?bt_get_insert_eq, ?E; done. }
  destruct (bt_get "sessions" store1) as [ [] |]; rewrite ?leases_or_empty_insert; done.
Qed.

Lemma leases_or_empty_close store t u : leases_or_empty (close_store store t u) = leases_or_empty store.
Proof. unfold close_store. by rewrite !leases_or_empty_insert, leases_or_empty_rebuild. Qed.

Lemma leases_or_empty_open store now :
  leases_or_empty (fst (open_store store now))
  = bt_retain (fun _ value => unexpired now value) (leases_or_empty store).
Proof.
  unfold open_store, purge_expired. cbn [fst].
  by rewrite leases_or_empty_rebuild, leases_or_empty_mut, leases_or_empty_shape.
Qed.

#[export] Hint Rewrite leases_or_empty_mut leases_or_empty_rebuild leases_or_empty_shape
  leases_or_empty_close leases_or_empty_open : mcpace.

Lemma active_lease_count_table store : active_lease_count store = len_N (leases_or_empty store).
Proof. unfold active_lease_count, leases_or_empty. by destruct (leases_map store). Qed.

Lemma sorted_leases_table store : sorted_leases store = bt_values (leases_or_empty store).
Proof. unfold sorted_leases, leases_or_empty. by destruct (leases_map store). Qed.

(** Conflicts only depend on the table. *)
Lemma find_conflict_mutex store route key :
  request_mutex_key route = Some key ->
  option_map conflict_lease (find_conflict store route)
  = List.find (holds_mutex key) (bt_values (leases_or_empty store)).
Proof.
  intros Hk. unfold find_conflict, leases_or_empty. rewrite Hk.
  destruct (leases_map store) as [ls|]; simpl; [|done]. by destruct (List.find _ _).
Qed.

Lemma find_conflict_capacity store route :
  request_mutex_key route = None -> (0 < parallelism_limit route)%N ->
  let matching := List.filter (in_capacity_group (route_capacity_key route))
                    (bt_values (leases_or_empty store)) in
  option_map conflict_lease (find_conflict store route)
  = if (parallelism_limit route <=? len_N matching)%N then Some (unwrap_or (head matching) JNull) else None.
Proof.
  intros Hk Hl. unfold find_conflict, leases_or_empty. rewrite Hk, (proj2 (N.ltb_lt _ _) Hl). cbn [andb].
  destruct (leases_map store) as [ls|]; simpl; [by case_stuck|].
  destruct (N.leb_spec (parallelism_limit route) (len_N (@nil JsonValue))) as [Hc|Hc]; [|done].
  unfold len_N in Hc. simpl in Hc. lia.
Qed.

(** ** The invariant of the lease table

    Every record carries its own key as [leaseId], and no two records hold the same
    mutex. *)

Record leases_ok (ls : JsonMap) : Prop := {
  ls_wf : bt_wf ls;
  ls_ids k v : (k, v) ∈ ls -> optional_string v ["leaseId"] = Some k;
  ls_mutex k v k' v' key : (k, v) ∈ ls -> (k', v') ∈ ls ->
    lease_mutex_key v = Some key -> lease_mutex_key v' = Some key -> k = k'
}.

Lemma leases_ok_nil : leases_ok [].
Proof. split; [apply bt_nil_wf|..]; intros; exfalso; by eapply not_elem_of_nil. Qed.

Lemma leases_ok_sub ls ls' : leases_ok ls -> bt_wf ls' -> (forall p, p ∈ ls' -> p ∈ ls) -> leases_ok ls'.
Proof. intros Ho Hw Hs. split; [done|..]; intros; [eapply ls_ids|eapply ls_mutex]; eauto. Qed.

Lemma leases_ok_retain ls p : leases_ok ls -> leases_ok (bt_retain p ls).
Proof.
  intros Ho. apply (leases_ok_sub ls); [done|apply bt_retain_wf, ls_wf, Ho|].
  intros q Hq. by apply bt_retain_elem in Hq as [? _].
Qed.

Lemma leases_ok_remove ls k : leases_ok ls -> leases_ok (bt_remove k ls).
Proof.
  intros Ho. apply (leases_ok_sub ls); [done|apply bt_remove_wf, ls_wf, Ho|]. apply bt_remove_elem.
Qed.

Lemma leases_ok_insert ls k v :
  leases_ok ls -> optional_string v ["leaseId"] = Some k ->
  (forall key k' v', lease_mutex_key v = Some key -> (k', v') ∈ ls -> lease_mutex_key v' = Some key -> k' = k) ->
  leases_ok (bt_insert k v ls).
Proof.
  intros Ho Hid Hm. split; [apply bt_insert_wf, ls_wf, Ho|..].
  - intros k' v' [ [= -> ->] |Hin]%bt_insert_elem; [done|by eapply ls_ids].
  - intros k1 v1 k2 v2 key [ [= -> ->] |H1]%bt_insert_elem [ [= -> ->] |H2]%bt_insert_elem E1 E2;
      [done|symmetry| |]; eauto using ls_mutex.
Qed.

(** ** Lemmas: lease records *)

Lemma record_id id route a e t : optional_string (lease_record_json id route a e t) ["leaseId"] = Some id.
Proof. reflexivity. Qed.

Lemma record_mutex id route a e t : lease_mutex_key (lease_record_json id route a e t) = request_mutex_key route.
Proof. apply (route_json_mutex route). Qed.

Lemma record_capacity id route a e t :
  lease_capacity_key (lease_record_json id route a e t) = Some (route_capacity_key route).
Proof. reflexivity. Qed.

Lemma record_session id route a e t :
  optional_string (lease_record_json id route a e t) ["sessionLeaseId"] = Some (session_lease_id route).
Proof. reflexivity. Qed.

Lemma record_expires id route a e t :
  (e <= U128_MAX)%N -> expires_at_ms (lease_record_json id route a e t) = Some e.
Proof. intros He. unfold expires_at_ms, number_u128_at. cbn. by apply parse_unsigned_N_to_string. Qed.

(** Fields other than the three renewed ones are kept by a renewal. *)
Lemma renew_record_other now e t lease key rest :
  key <> "ttlMs" -> key <> "expiresAtMs" -> key <> "renewedAtMs" ->
  optional_string (renew_record now e t lease) (key :: rest) = optional_string lease (key :: rest).
Proof.
  intros H1 H2 H3. rewrite !optional_string_app. unfold renew_record. destruct lease; try done.
  cbn [json_get]. by rewrite !bt_get_insert_ne by congruence.
Qed.

Lemma renew_record_expires now e t m :
  (e <= U128_MAX)%N -> expires_at_ms (renew_record now e t (JObject m)) = Some e.
Proof.
  intros He. unfold expires_at_ms, number_u128_at, renew_record. cbn [value_at_path json_get].
  rewrite bt_get_insert_ne, bt_get_insert_eq by done. cbn. by apply parse_unsigned_N_to_string.
Qed.

(** ** The abstract lease table

    What the store promises, without documents, files, sessions or logs: a table of
    leases with four operations. *)

Module LeaseTable.

Definition conflict (route : PlannedRoute) (ls : JsonMap) : option JsonValue :=
  match request_mutex_key route with
  | Some key => List.find (holds_mutex key) (bt_values ls)
  | None =>
      let matching := List.filter (in_capacity_group (route_capacity_key route)) (bt_values ls) in
      if (parallelism_limit route <=? len_N matching)%N then Some (unwrap_or (head matching) JNull)
      else None
  end.

Definition record (ids : IdSource) (route : PlannedRoute) (ttl now : N) : string * JsonValue :=
  let id := generate_lease_id ids route now in
  (id, lease_record_json id route now (sat_add U128_MAX now ttl) ttl).

Definition grant (ids : IdSource) (route : PlannedRoute) (ttl now : N) (ls : JsonMap) : JsonMap :=
  bt_insert (record ids route ttl now).1 (record ids route ttl now).2 ls.

(** The new table, and whether the lease was granted. *)
Definition acquire (ids : IdSource) (route : PlannedRoute) (ttl : N) (takeover : bool) (now : N)
    (ls : JsonMap) : JsonMap * bool :=
  match route_blockers route with
  | _ :: _ => (ls, false)
  | [] =>
      match conflict route ls with
      | Some lease =>
          if takeover_allowed takeover lease route then
            (grant ids route ttl now (bt_remove (required_string lease ["leaseId"]) ls), true)
          else (ls, false)
      | None => (grant ids route ttl now ls, true)
      end
  end.

Definition renew (id : string) (ttl now : N) (ls : JsonMap) : JsonMap * bool :=
  match bt_get id ls with
  | Some lease => (bt_insert id (renew_record now (sat_add U128_MAX now ttl) ttl lease) ls, true)
  | None => (ls, false)
  end.

Definition release (id : string) (ls : JsonMap) : JsonMap * bool :=
  (bt_remove id ls, is_some (bt_get id ls)).

Definition expire (now : N) (ls : JsonMap) : JsonMap := bt_retain (fun _ value => unexpired now value) ls.

End LeaseTable.

Lemma blockers_limit route : route_blockers route = [] -> (0 < parallelism_limit route)%N.
Proof.
  intros Hb. destruct (N.eq_0_gt_0_cases (parallelism_limit route)) as [E|?]; [exfalso|done].
  assert (exists x, x ∈ route_blockers route) as [x Hx].
  { unfold route_blockers. rewrite E. cbn [N.eqb]. rewrite !orb_true_r. eexists.
    apply sort_dedup_elem, elem_of_app. right. apply elem_of_app. left. by left. }
  rewrite Hb in Hx. by apply not_elem_of_nil in Hx.
Qed.

Lemma find_conflict_table store route :
  (0 < parallelism_limit route)%N ->
  option_map conflict_lease (find_conflict store route)
  = LeaseTable.conflict route (leases_or_empty store).
Proof.
  intros Hl. unfold LeaseTable.conflict. destruct (request_mutex_key route) eqn:Ek.
  - by apply find_conflict_mutex.
  - by apply find_conflict_capacity.
Qed.

(** The operation a mutator implements: its effect on the table and its exit code. *)
Definition implements (m : Mutator) (op : N -> JsonMap -> JsonMap * bool) : Prop :=
  forall store now purged, exists reply,
    (m store now purged).2 = Ok reply
    /\ leases_or_empty (m store now purged).1.1 = (op now (leases_or_empty store)).1
    /\ exit_code reply = if (op now (leases_or_empty store)).2 then 0%Z else 1%Z.

Lemma acquire_implements ids route ttl takeover :
  implements (acquire_mutator ids route ttl takeover)
    (fun now ls => LeaseTable.acquire ids route ttl takeover now ls).
Proof.
  intros store now purged. unfold acquire_mutator, LeaseTable.acquire.
  destruct (route_blockers route) as [|b bs] eqn:Eb; [|by eexists].
  rewrite <- (find_conflict_table store route) by (by apply blockers_limit).
  destruct (find_conflict store route) as [c|]; cbn [option_map].
  - destruct (takeover_allowed takeover (conflict_lease c) route); [|by eexists].
    destruct (take_over store route c) as [ [store' log] taken] eqn:Et.
    assert (E : leases_or_empty store'
                = bt_remove (required_string (conflict_lease c) ["leaseId"]) (leases_or_empty store)).
    { unfold take_over in Et. case_stuck_in Et; injection Et as <- _ _; apply leases_or_empty_mut. }
    eexists. split; [reflexivity|]. split; [|reflexivity]. cbn [fst snd grant_lease].
    by rewrite leases_or_empty_rebuild, leases_or_empty_mut, E.
  - eexists. split; [reflexivity|]. split; [|reflexivity]. cbn [fst snd grant_lease].
    by rewrite leases_or_empty_rebuild, leases_or_empty_mut.
Qed.

Lemma renew_implements id ttl : implements (renew_mutator id ttl) (LeaseTable.renew id ttl).
Proof.
  intros store now purged. eexists. split; [reflexivity|]. unfold renew_mutator, LeaseTable.renew.
  cbn [fst snd]. rewrite leases_or_empty_rebuild, leases_or_empty_mut. by destruct (bt_get id _).
Qed.

Lemma release_implements id : implements (release_mutator id) (fun _ ls => LeaseTable.release id ls).
Proof.
  intros store now purged. eexists. split; [reflexivity|]. unfold release_mutator, LeaseTable.release.
  cbn [fst snd]. rewrite leases_or_empty_rebuild, leases_or_empty_mut. by destruct (bt_get id _).
Qed.

Lemma list_implements : implements list_mutator (fun _ ls => (ls, true)).
Proof. intros store now purged. by eexists. Qed.

(** ** Lemmas: the abstract operations keep the invariant *)

Lemma holds_mutex_true key lease : holds_mutex key lease = true <-> lease_mutex_key lease = Some key.
Proof. apply bool_decide_eq_true. Qed.

Lemma in_capacity_group_true key lease :
  in_capacity_group key lease = true <-> lease_capacity_key lease = Some key.
Proof. apply bool_decide_eq_true. Qed.

Lemma conflict_mutex_None route ls key k v :
  request_mutex_key route = Some key -> LeaseTable.conflict route ls = None ->
  (k, v) ∈ ls -> lease_mutex_key v <> Some key.
Proof.
  unfold LeaseTable.conflict. intros -> Hf Hin Hm.
  assert (Hv : v ∈ bt_values ls) by (apply bt_values_elem; eauto).
  apply list_elem_of_In in Hv. pose proof (List.find_none _ _ Hf v Hv) as Hh.
  apply holds_mutex_true in Hm. congruence.
Qed.

Lemma find_values {p} {ls : JsonMap} {v} :
  List.find p (bt_values ls) = Some v -> exists k, (k, v) ∈ ls /\ p v = true.
Proof.
  intros [Hin Hp]%List.find_some. apply list_elem_of_In in Hin.
  apply bt_values_elem in Hin as [k Hk]. eauto.
Qed.

(** A conflicting lease of a nonempty capacity group or mutex is a record of the table. *)
Lemma conflict_elem route ls lease :
  (0 < parallelism_limit route)%N -> LeaseTable.conflict route ls = Some lease ->
  exists k, (k, lease) ∈ ls /\
    match request_mutex_key route with
    | Some key => lease_mutex_key lease = Some key
    | None => lease_capacity_key lease = Some (route_capacity_key route)
    end.
Proof.
  unfold LeaseTable.conflict. intros Hl. destruct (request_mutex_key route) as [key|].
  - intros (k & Hin & Hp)%find_values. exists k. by rewrite <- holds_mutex_true.
  - destruct (N.leb_spec (parallelism_limit route)
      (len_N (List.filter (in_capacity_group (route_capacity_key route)) (bt_values ls)))) as [Hle|]; [|done].
    destruct (List.filter _ _) as [|x xs] eqn:Ef; [unfold len_N in Hle; simpl in Hle; lia|].
    intros [= <-]. simpl.
    assert (In x (List.filter (in_capacity_group (route_capacity_key route)) (bt_values ls))) as Hx
      by (rewrite Ef; by left).
    apply filter_In in Hx as [Hx Hp]. apply list_elem_of_In, bt_values_elem in Hx as [k Hk].
    exists k. by rewrite in_capacity_group_true in Hp.
Qed.

Lemma grant_ok ids route ttl now ls :
  leases_ok ls ->
  (forall key k v, request_mutex_key route = Some key -> (k, v) ∈ ls -> lease_mutex_key v <> Some key) ->
  leases_ok (LeaseTable.grant ids route ttl now ls).
Proof.
  intros Ho Hn. apply leases_ok_insert; [done|apply record_id|].
  intros key k v. cbn [LeaseTable.record snd]. rewrite record_mutex. intros Hk Hin Hm. by destruct (Hn key k v).
Qed.

Lemma acquire_ok ids route ttl takeover now ls :
  leases_ok ls -> leases_ok (LeaseTable.acquire ids route ttl takeover now ls).1.
Proof.
  intros Ho. unfold LeaseTable.acquire. destruct (route_blockers route) eqn:Eb; [|done].
  destruct (LeaseTable.conflict route ls) as [lease|] eqn:Ec; cbn [fst].
  - destruct (takeover_allowed takeover lease route); [cbn [fst]|done].
    destruct (conflict_elem _ _ _ (blockers_limit _ Eb) Ec) as (k & Hk & Hkey).
    assert (required_string lease ["leaseId"] = k) as ->.
    { unfold required_string. by rewrite (ls_ids _ Ho _ _ Hk). }
    apply grant_ok; [by apply leases_ok_remove|].
    intros key k' v' Hr Hin Hm. rewrite Hr in Hkey.
    pose proof (ls_mutex _ Ho _ _ _ _ _ Hk (bt_remove_elem _ _ _ Hin) Hkey Hm) as <-.
    apply (bt_elem_get _ _ _ (bt_remove_wf _ _ (ls_wf _ Ho))) in Hin.
    by rewrite bt_get_remove_eq in Hin by apply Ho.
  - apply grant_ok; [done|]. intros key k v Hr. by eapply conflict_mutex_None.
Qed.

Lemma renew_ok id ttl now ls : leases_ok ls -> leases_ok (LeaseTable.renew id ttl now ls).1.
Proof.
  intros Ho. unfold LeaseTable.renew. destruct (bt_get id ls) as [lease|] eqn:Eg; [cbn [fst]|done].
  apply bt_get_elem in Eg. unfold lease_mutex_key in *.
  apply leases_ok_insert; [done|by rewrite renew_record_other; [eapply ls_ids|..]|].
  intros key k' v'. unfold lease_mutex_key. rewrite renew_record_other by done. intros E1 Hin E2.
  by eapply (ls_mutex _ Ho).
Qed.

Lemma release_ok id ls : leases_ok ls -> leases_ok (LeaseTable.release id ls).1.
Proof. apply leases_ok_remove. Qed.

(** ** Commands *)

Inductive lease_command : Type :=
| CmdAcquire (ids : IdSource) (route : PlannedRoute) (ttl : N) (takeover : bool)
| CmdRenew (id : string) (ttl : N)
| CmdRelease (id : string)
| CmdList.

Definition command_mutator (c : lease_command) : Mutator :=
  match c with
  | CmdAcquire ids route ttl takeover => acquire_mutator ids route ttl takeover
  | CmdRenew id ttl => renew_mutator id ttl
  | CmdRelease id => release_mutator id
  | CmdList => list_mutator
  end.

Definition command_op (c : lease_command) (now : N) (ls : JsonMap) : JsonMap * bool :=
  match c with
  | CmdAcquire ids route ttl takeover => LeaseTable.acquire ids route ttl takeover now ls
  | CmdRenew id ttl => LeaseTable.renew id ttl now ls
  | CmdRelease id => LeaseTable.release id ls
  | CmdList => (ls, true)
  end.

Lemma command_implements c : implements (command_mutator c) (command_op c).
Proof.
  destruct c; [apply acquire_implements|apply renew_implements|apply release_implements|apply list_implements].
Qed.

Lemma command_ok c now ls : leases_ok ls -> leases_ok (command_op c now ls).1.
Proof. destruct c; cbn [command_op fst]; auto using acquire_ok, renew_ok, release_ok. Qed.

(** ** The file *)

Section file_lemmas.
Context `{SerdeJson}.

(** The table a file holds; an absent file holds none. *)
Definition table_of (file : option string) : JsonMap :=
  match file with
  | None => []
  | Some text => match parse_str text with Ok (JObject store) => leases_or_empty store | _ => [] end
  end.

(** The document a successful cycle writes. *)
Definition next_store (io : StoreIo) (c : lease_command) (store : JsonMap) : JsonMap :=
  let '(opened, purged) := open_store store (clock_now io) in
  close_store (command_mutator c opened (clock_now io) purged).1.1 (clock_rebuild io) (clock_updated io).

Definition io_reads (io : StoreIo) (file : option string) : Prop :=
  io_file io = option_map (@Ok string string) file.

Lemma read_store_table io file store :
  io_reads io file -> read_store_map io = Ok store -> leases_or_empty store = table_of file.
Proof.
  unfold io_reads, read_store_map. intros ->. destruct file as [text|]; simpl.
  - destruct (parse_str text) as [ [] |]; simpl; try done. by intros [= ->].
  - intros [= <-]. reflexivity.
Qed.

Lemma mutate_store_Some io c text log r :
  mutate_store io (command_mutator c) = (Some text, log, r) ->
  exists store, read_store_map io = Ok store
    /\ text = to_pretty_string (JObject (next_store io c store))
    /\ exists opened purged, leases_or_empty opened
         = LeaseTable.expire (clock_now io) (leases_or_empty store)
         /\ r = (command_mutator c opened (clock_now io) purged).2.
Proof.
  unfold mutate_store, next_store. destruct (io_layout io); [|done]. destruct (io_lock io); [|done].
  destruct (read_store_map io) as [store|]; [|done].
  destruct (open_store store (clock_now io)) as [opened purged] eqn:Eo.
  destruct (command_mutator c opened (clock_now io) purged) as [ [st lg] out] eqn:Em.
  destruct out as [out|]; [|done]. destruct (io_write io); [|done]. intros [= <- _ <-].
  exists store. split; [done|]. rewrite Eo, Em. split; [done|]. exists opened, purged. rewrite Em.
  split; [|done]. pose proof (leases_or_empty_open store (clock_now io)) as E. by rewrite Eo in E.
Qed.

Lemma next_store_table io c store :
  leases_or_empty (next_store io c store)
  = (command_op c (clock_now io) (LeaseTable.expire (clock_now io) (leases_or_empty store))).1.
Proof.
  unfold next_store. destruct (open_store store (clock_now io)) as [opened purged] eqn:Eo.
  rewrite leases_or_empty_close.
  destruct (command_implements c opened (clock_now io) purged) as (reply & _ & -> & _).
  do 2 f_equal. pose proof (leases_or_empty_open store (clock_now io)) as E. by rewrite Eo in E.
Qed.
End file_lemmas.
