(* ===== verification/LeaseSafety.v ===== *)
(** * Properties of the lease store

    Refinement of the file-backed cycle to the abstract table, mutual exclusion over
    every sequence of commands, capacity, expiry, and the derived session index. *)

From Stdlib Require Import Ascii.
From S2P Require Import Prelude RustStr BTree Json TextUtils LeaseRoute LeaseStore.

(** ** The file as a state machine *)

Section file_machine.
Context `{SerdeJsonLaws}.

(** One run of a lease command against the file: it writes a new document (one
    serde_json can represent), or fails and leaves the file alone. *)
Inductive file_step (file : option string) : option string -> Prop :=
| step_written io c store text log reply :
    io_reads io file ->
    read_store_map io = Ok store -> serializable (JObject (next_store io c store)) ->
    mutate_store io (command_mutator c) = (Some text, log, Ok reply) ->
    file_step file (Some text)
| step_failed io c log reply :
    io_reads io file -> mutate_store io (command_mutator c) = (None, log, reply) ->
    file_step file file.

Lemma table_of_written io c store text log reply :
  read_store_map io = Ok store -> serializable (JObject (next_store io c store)) ->
  mutate_store io (command_mutator c) = (Some text, log, Ok reply) ->
  table_of (Some text)
  = (command_op c (clock_now io) (LeaseTable.expire (clock_now io) (leases_or_empty store))).1.
Proof.
  intros Hr Hs (store' & Hr' & -> & _)%mutate_store_Some.
  assert (store' = store) as -> by congruence.
  cbn [table_of]. rewrite parse_str_pretty by done. apply next_store_table.
Qed.

(** C2: a lease command run against the file refines the abstract lease
    table: the table in the written file is the abstract operation applied to the
    unexpired leases of the table in the file that was read, and the exit code is 0
    exactly when the operation succeeds. *)
Theorem lease_command_refines_table io c file store text log reply :
  io_reads io file ->
  read_store_map io = Ok store -> serializable (JObject (next_store io c store)) ->
  mutate_store io (command_mutator c) = (Some text, log, Ok reply) ->
  let after := command_op c (clock_now io) (LeaseTable.expire (clock_now io) (table_of file)) in
  table_of (Some text) = after.1 /\ (exit_code reply = 0%Z <-> after.2 = true).
Proof.
  intros Hf Hr Hs Hm. cbv zeta. rewrite <- (read_store_table io file store Hf Hr).
  split; [by eapply table_of_written|].
  destruct (mutate_store_Some _ _ _ _ _ Hm) as (store' & Hr' & _ & opened & purged & Ho & Ee).
  assert (store' = store) as -> by congruence.
  destruct (command_implements c opened (clock_now io) purged) as (reply' & E & _ & Ex).
  rewrite <- Ee in E. injection E as ->. rewrite Ex, Ho. by case_stuck.
Qed.

Lemma file_step_ok file file' : leases_ok (table_of file) -> file_step file file' -> leases_ok (table_of file').
Proof.
  intros Ho Hstep. inversion Hstep as [io c store text log reply Hf Hr Hs Hm|]; subst; [|done].
  erewrite table_of_written by done. rewrite (read_store_table io file store Hf Hr).
  by apply command_ok, leases_ok_retain.
Qed.

(** C1: mutual exclusion of leases. Whatever sequence of acquire, renew,
    release and list commands ran against the file since it was created, at any
    times, with any routes, with takeovers and failing runs included, no two leases
    in it hold the same request mutex, and every lease is filed under its own id. *)
Theorem lease_file_mutual_exclusion file :
  reachable (fun f => f = None) file_step file ->
  (forall k lease, (k, lease) ∈ table_of file -> optional_string lease ["leaseId"] = Some k)
  /\ forall k lease k' lease' key, (k, lease) ∈ table_of file -> (k', lease') ∈ table_of file ->
     lease_mutex_key lease = Some key -> lease_mutex_key lease' = Some key -> k = k' /\ lease = lease'.
Proof.
  intros Hr. assert (Ho : leases_ok (table_of file)).
  { revert Hr. apply (reachable_invariant _ _ (fun f => leases_ok (table_of f))).
    - intros ? ->. apply leases_ok_nil.
    - intros s s'. apply file_step_ok. }
  split; [apply Ho|]. intros k lease k' lease' key H1 H2 E1 E2.
  pose proof (ls_mutex _ Ho _ _ _ _ _ H1 H2 E1 E2) as <-. split; [done|].
  apply bt_elem_get in H1; [|apply Ho]. apply bt_elem_get in H2; [|apply Ho]. congruence.
Qed.
End file_machine.

(** A concrete run for the witnesses: an empty directory, then one acquisition. *)
Definition sample_request : RuntimeLeaseRequest :=
  {| req_server_name := "files"; req_client_id := Some "cursor"; req_session_id := Some "s1";
     req_project_root := None; req_transport := None; req_metadata_json := None;
     req_ttl_ms := Some 5000%N; req_takeover := false |}.

Definition sample_route : PlannedRoute := conservative_settings_only_route sample_request "files".

Definition sample_ids : IdSource := {| process_id := 42; clock_nanos := Some 7000000%N |}.

Definition sample_io : StoreIo :=
  {| lease_path := "leases.json"; io_layout := Ok tt; io_lock := Ok tt; io_file := None;
     io_write := Ok tt; clock_default := 6; clock_now := 7; clock_rebuild := 8; clock_updated := 9 |}.

Definition sample_acquire : lease_command := CmdAcquire sample_ids sample_route 5000 false.

Definition sample_store : JsonMap := next_store sample_io sample_acquire (default_store_map 6).

Lemma sample_store_serializable : serializable (H := TreeCodec.codec) (JObject sample_store).
Proof. apply TreeCodec.serializable_b_sound. vm_compute. reflexivity. Qed.

Definition sample_outcome :=
  mutate_store (H := TreeCodec.codec) sample_io (command_mutator sample_acquire).

Definition sample_text : string := to_pretty_string (H := TreeCodec.codec) (JObject sample_store).

Definition sample_reply : LeaseCommandResult :=
  match sample_outcome.2 with Ok reply => reply | Err _ => mkResult JNull 1%Z end.

Lemma sample_outcome_eq : sample_outcome = (Some sample_text, sample_outcome.1.2, Ok sample_reply).
Proof.
  unfold sample_reply, sample_outcome, mutate_store, sample_text, sample_store, next_store.
  cbn [sample_io io_layout io_lock io_write read_store_map io_file clock_default clock_now
       clock_rebuild clock_updated].
  destruct (open_store (default_store_map 6) 7) as [opened purged] eqn:Eo.
  destruct (command_implements sample_acquire opened 7%N purged) as (reply & Er & _).
  destruct (command_mutator sample_acquire opened 7%N purged) as [ [st lg] out].
  cbn in Er. subst out. reflexivity.
Qed.

Lemma lease_command_refines_table_witness :
  table_of (H := TreeCodec.codec) (Some sample_text)
    = LeaseTable.grant sample_ids sample_route 5000 7 []
  /\ exit_code sample_reply = 0%Z.
Proof.
  destruct (lease_command_refines_table (H := TreeCodec.codec) (H0 := TreeCodec.codec_laws)
    sample_io sample_acquire None (default_store_map 6) sample_text sample_outcome.1.2 sample_reply)
    as [Ht Hx].
  - reflexivity.
  - reflexivity.
  - apply sample_store_serializable.
  - apply sample_outcome_eq.
  - split; [exact Ht|apply Hx; vm_compute; reflexivity].
Defined.

Lemma sample_file_reachable :
  reachable (fun f => f = None) (file_step (H := TreeCodec.codec)) (Some sample_text).
Proof.
  apply (reachable_step _ _ None); [by apply reachable_init|].
  apply (step_written (H := TreeCodec.codec) None sample_io sample_acquire (default_store_map 6)
           sample_text sample_outcome.1.2 sample_reply).
  - reflexivity.
  - reflexivity.
  - apply sample_store_serializable.
  - apply sample_outcome_eq.
Qed.

Lemma lease_file_mutual_exclusion_witness :
  exit_code sample_reply = 0%Z
  /\ (forall k lease, (k, lease) ∈ table_of (H := TreeCodec.codec) (Some sample_text) ->
      optional_string lease ["leaseId"] = Some k)
  /\ forall k lease k' lease' key,
  (k, lease) ∈ table_of (H := TreeCodec.codec) (Some sample_text) ->
  (k', lease') ∈ table_of (H := TreeCodec.codec) (Some sample_text) ->
  lease_mutex_key lease = Some key -> lease_mutex_key lease' = Some key -> k = k' /\ lease = lease'.
Proof.
  split; [vm_compute; reflexivity|].
  apply (lease_file_mutual_exclusion (H := TreeCodec.codec) (H0 := TreeCodec.codec_laws)).
  exact sample_file_reachable.
Defined.

(** ** Capacity *)

(** The leases of the table that belong to one capacity group. *)
Definition group_size (key : string) (ls : JsonMap) : N := N.of_nat (bt_count (in_capacity_group key) ls).

Lemma grant_group ids route ttl now ls key :
  (group_size key (LeaseTable.grant ids route ttl now ls)
   <= group_size key ls + (if String.eqb key (route_capacity_key route) then 1 else 0))%N.
Proof.
  unfold group_size, LeaseTable.grant.
  pose proof (bt_count_insert_le (in_capacity_group key) (LeaseTable.record ids route ttl now).1
                (LeaseTable.record ids route ttl now).2 ls) as Hle.
  assert (in_capacity_group key (LeaseTable.record ids route ttl now).2
          = String.eqb key (route_capacity_key route)) as E.
  { unfold in_capacity_group. cbn [LeaseTable.record snd]. rewrite record_capacity.
    destruct (String.eqb_spec key (route_capacity_key route)) as [->|Hn];
      [by apply bool_decide_eq_true|apply bool_decide_eq_false; congruence]. }
  rewrite E in Hle. destruct (String.eqb key _); lia.
Qed.

Lemma group_remove_elem key ls k lease :
  leases_ok ls -> (k, lease) ∈ ls -> lease_capacity_key lease = Some key ->
  group_size key ls = (group_size key (bt_remove k ls) + 1)%N.
Proof.
  intros Ho Hin Hc. unfold group_size.
  rewrite (bt_count_remove (in_capacity_group key) k lease ls) by (by apply bt_elem_get; [apply Ho|]).
  rewrite (proj2 (in_capacity_group_true key lease) Hc). lia.
Qed.

(** A server without a request mutex never gets more concurrent
    leases than its parallelism limit: when an acquisition is granted by free
    capacity, the group afterwards is within the limit; a takeover replaces a lease
    and never enlarges the group; a refused acquisition changes nothing. *)
Theorem acquire_respects_parallelism ids route ttl takeover now ls :
  leases_ok ls -> request_mutex_key route = None ->
  let key := route_capacity_key route in
  let after := LeaseTable.acquire ids route ttl takeover now ls in
  (after.2 = false -> after.1 = ls)
  /\ (after.2 = true -> LeaseTable.conflict route ls = None ->
      (group_size key after.1 <= parallelism_limit route)%N)
  /\ (after.2 = true -> LeaseTable.conflict route ls <> None ->
      (group_size key after.1 <= group_size key ls)%N).
Proof.
  intros Ho Hk key after. unfold after, LeaseTable.acquire; clear after.
  destruct (route_blockers route) eqn:Eb; [|done].
  destruct (LeaseTable.conflict route ls) as [lease|] eqn:Ec.
  - destruct (takeover_allowed takeover lease route); [|done]. cbn [fst snd]. split; [done|].
    split; [done|]. intros _ _.
    destruct (conflict_elem _ _ _ (blockers_limit _ Eb) Ec) as (k & Hin & Hc). rewrite Hk in Hc.
    assert (required_string lease ["leaseId"] = k) as ->.
    { unfold required_string. by rewrite (ls_ids _ Ho _ _ Hin). }
    rewrite (group_remove_elem key ls k lease) by done.
    etrans; [apply grant_group|]. unfold key. by rewrite String.eqb_refl.
  - cbn [fst snd]. split; [done|]. split; [|done]. intros _ _.
    etrans; [apply grant_group|]. unfold key. rewrite String.eqb_refl.
    unfold LeaseTable.conflict in Ec. rewrite Hk in Ec. case_stuck_in Ec; [done|]. bool_prop.
    unfold group_size, bt_count. unfold len_N in *. lia.
Qed.

Definition sample_shared_route : PlannedRoute :=
  {| server_name := "docs"; admission_state := "configured-source"; request_strategy := "multi-reader";
     request_mutex_key := None; session_affinity_key := None; process_scope_key := "docs:global";
     process_partition := "global"; project_binding_key := None; worktree_binding_key := None;
     conflict_domain := "docs"; host_lock_key := None; state_profile_key := None;
     scheduler_lane := "shared"; startup_strategy := "lazy"; upstream_transport := "http";
     parallelism_limit := 1; route_warnings := []; route_client_id := "cursor";
     session_lease_id := "session:cursor:s1"; route_session_id := None; route_project_root := None |}.

Definition sample_table : JsonMap := LeaseTable.grant sample_ids sample_shared_route 5000 7 [].

Lemma sample_table_ok : leases_ok sample_table.
Proof. apply grant_ok; [apply leases_ok_nil|done]. Qed.

Lemma acquire_respects_parallelism_witness :
  (group_size "docs:global" (LeaseTable.acquire sample_ids sample_shared_route 5000 true 9 sample_table).1
   <= group_size "docs:global" sample_table)%N
  /\ (group_size "docs:global" (LeaseTable.acquire sample_ids sample_shared_route 5000 true 9 []).1 <= 1)%N.
Proof.
  split.
  - apply (acquire_respects_parallelism sample_ids sample_shared_route 5000 true 9 sample_table);
      [apply sample_table_ok|reflexivity|vm_compute; reflexivity|vm_compute; discriminate].
  - apply (acquire_respects_parallelism sample_ids sample_shared_route 5000 true 9 []);
      [apply leases_ok_nil|reflexivity|vm_compute; reflexivity|vm_compute; reflexivity].
Defined.

(** ** Life cycle of a lease *)

Lemma normalize_ttl_bounds ttl : (1 <= normalize_ttl ttl <= MAX_LEASE_TTL_MS)%N.
Proof.
  unfold normalize_ttl, MAX_LEASE_TTL_MS, DEFAULT_LEASE_TTL_MS.
  destruct (opt_filter _ ttl) as [v|] eqn:E; [|lia].
  apply opt_filter_Some in E as [_ E]. bool_prop. lia.
Qed.

(** An unblocked route with no conflicting lease is always granted; the
    lease is filed under the generated id, holds the route's mutex, and expires
    between one millisecond and one hour after the acquisition (the requested time to
    live, clamped); no other lease is touched. *)
Theorem acquire_grants_free_route ids route ttl takeover now ls :
  route_blockers route = [] -> LeaseTable.conflict route ls = None ->
  (now + MAX_LEASE_TTL_MS <= U128_MAX)%N ->
  let after := LeaseTable.acquire ids route (normalize_ttl ttl) takeover now ls in
  let id := generate_lease_id ids route now in
  after.2 = true
  /\ (exists lease e, bt_get id after.1 = Some lease /\ lease_mutex_key lease = request_mutex_key route
       /\ expires_at_ms lease = Some e /\ (now < e <= now + MAX_LEASE_TTL_MS)%N)
  /\ (forall id', id' <> id -> bt_get id' after.1 = bt_get id' ls).
Proof.
  intros Hb Hc Hn after id. unfold after, LeaseTable.acquire; clear after. rewrite Hb, Hc. cbn [fst snd].
  split; [done|]. pose proof (normalize_ttl_bounds ttl) as Ht.
  unfold LeaseTable.grant, LeaseTable.record. cbn [fst snd]. fold id. split.
  - eexists _, _. rewrite bt_get_insert_eq. split; [reflexivity|]. split; [apply record_mutex|].
    split; [apply record_expires, sat_add_le_max|]. rewrite sat_add_exact by lia. lia.
  - intros id' Hid. by apply bt_get_insert_ne.
Qed.

Lemma sample_route_unblocked : route_blockers sample_shared_route = [].
Proof. vm_compute. reflexivity. Qed.

Lemma acquire_grants_free_route_witness :
  (LeaseTable.acquire sample_ids sample_shared_route (normalize_ttl None) false 7 []).2 = true.
Proof.
  apply (acquire_grants_free_route sample_ids sample_shared_route None false 7 []).
  - apply sample_route_unblocked.
  - vm_compute. reflexivity.
  - vm_compute. discriminate.
Defined.

(** Releasing a lease undoes its acquisition: the table is again what it
    was, and a second release of the same id reports that it is gone. *)
Theorem release_undoes_acquire ids route ttl now ls :
  bt_wf ls -> bt_get (generate_lease_id ids route now) ls = None ->
  let id := generate_lease_id ids route now in
  let acquired := LeaseTable.grant ids route ttl now ls in
  LeaseTable.release id acquired = (ls, true)
  /\ (LeaseTable.release id (LeaseTable.release id acquired).1).2 = false.
Proof.
  intros Hw Hn id acquired.
  assert (E : LeaseTable.release id acquired = (ls, true)).
  { unfold LeaseTable.release, acquired, LeaseTable.grant, LeaseTable.record. cbn [fst snd]. fold id.
    rewrite bt_get_insert_eq, bt_remove_insert by done. done. }
  split; [done|]. rewrite E. cbn [fst]. unfold LeaseTable.release. cbn [snd]. unfold id. by rewrite Hn.
Qed.

Lemma release_undoes_acquire_witness :
  LeaseTable.release (generate_lease_id sample_ids sample_shared_route 7) sample_table = ([], true).
Proof.
  apply (release_undoes_acquire sample_ids sample_shared_route 5000 7 []);
    [apply bt_nil_wf|reflexivity].
Defined.

Lemma expire_get now ls k : bt_wf ls ->
  bt_get k (LeaseTable.expire now ls)
  = opt_filter (unexpired now) (bt_get k ls).
Proof.
  intros Hw. unfold LeaseTable.expire. rewrite bt_get_retain by done. by destruct (bt_get k ls).
Qed.

(** Purging at time [now] removes exactly the leases whose expiry time is
    at or before [now]; a renewal of a live lease at [now] keeps it through every
    purge before [now + ttl] and lets it expire at [now + ttl]. *)
Theorem renewed_lease_lifetime id ttl now now' ls m :
  bt_wf ls -> bt_get id ls = Some (JObject m) -> (now + ttl <= U128_MAX)%N ->
  bt_get id (LeaseTable.expire now' (LeaseTable.renew id ttl now ls).1) <> None <-> (now' < now + ttl)%N.
Proof.
  intros Hw Hg Hn. unfold LeaseTable.renew. rewrite Hg. cbn [fst].
  rewrite expire_get by (by apply bt_insert_wf). rewrite bt_get_insert_eq. unfold opt_filter, unexpired.
  rewrite renew_record_expires by apply sat_add_le_max. rewrite sat_add_exact by lia.
  destruct (N.ltb_spec now' (now + ttl)); split; intros; try done; lia.
Qed.

Lemma renewed_lease_lifetime_witness :
  bt_get "lease:docs:7:42:7000000"
    (LeaseTable.expire 1099 (LeaseTable.renew "lease:docs:7:42:7000000" 1000 100 sample_table).1) <> None.
Proof.
  apply (renewed_lease_lifetime "lease:docs:7:42:7000000" 1000 100 1099 sample_table
          match bt_get "lease:docs:7:42:7000000" sample_table with Some (JObject m) => m | _ => [] end).
  - apply sample_table_ok.
  - vm_compute. reflexivity.
  - vm_compute. discriminate.
  - reflexivity.
Defined.

(** ** The session index *)

Lemma bt_get_map_snd {V W} (f : V -> W) (m : list (string * V)) k :
  bt_get k (map (fun kv => (fst kv, f (snd kv))) m) = option_map f (bt_get k m).
Proof. induction m as [|[k' v] m IH]; simpl; [done|]. by destruct (str_cmp k k'). Qed.

Definition in_session (sid : string) (lease : JsonValue) : bool :=
  negb (str_is_empty (required_string lease ["leaseId"])) && String.eqb (session_of_lease lease) sid.

Definition session_lease_ids (sid : string) (leases : list JsonValue) : list string :=
  map (fun lease => required_string lease ["leaseId"]) (List.filter (in_session sid) leases).

Lemma session_lease_ids_snoc sid leases lease :
  session_lease_ids sid (leases ++ [lease])
  = session_lease_ids sid leases
    ++ (if in_session sid lease then [required_string lease ["leaseId"]] else []).
Proof. unfold session_lease_ids. rewrite List.filter_app, map_app. simpl. by destruct (in_session sid lease). Qed.

Lemma fold_sessions_ids leases t sid :
  option_map acc_active_lease_ids (bt_get sid (fold_left (session_step t) leases []))
  = match session_lease_ids sid leases with [] => None | ids => Some ids end.
Proof.
  induction leases as [|lease leases IH] using rev_ind; [done|].
  rewrite fold_left_app. cbn [fold_left]. rewrite session_lease_ids_snoc.
  set (m := fold_left (session_step t) leases []) in *. unfold session_step, from_lease, in_session.
  destruct (str_is_empty (required_string lease ["leaseId"])) eqn:Ee; cbn [negb andb].
  { by rewrite app_nil_r, IH. }
  cbn [acc_session_lease_id].
  destruct (String.eqb_spec (session_of_lease lease) sid) as [->|Hn].
  - rewrite bt_get_insert_eq. cbn [option_map].
    destruct (bt_get sid m) as [acc|]; cbn [option_map] in IH.
    + unfold add_lease. rewrite Ee. cbn [acc_active_lease_ids].
      destruct (session_lease_ids sid leases) as [|x xs]; [done|]. by injection IH as ->.
    + cbn [acc_active_lease_ids]. by destruct (session_lease_ids sid leases).
  - by rewrite bt_get_insert_ne, app_nil_r, IH by done.
Qed.

Lemma session_lease_ids_elem sid leases id :
  id ∈ session_lease_ids sid leases <->
  exists lease, lease ∈ leases /\ session_of_lease lease = sid
    /\ required_string lease ["leaseId"] = id /\ id <> EmptyString.
Proof.
  unfold session_lease_ids. rewrite list_elem_of_In, in_map_iff. setoid_rewrite filter_In.
  setoid_rewrite list_elem_of_In. unfold in_session.
  setoid_rewrite andb_true_iff. setoid_rewrite negb_true_iff. setoid_rewrite str_is_empty_false.
  setoid_rewrite String.eqb_eq. split.
  - intros (lease & <- & Hin & Hne & Hs). eauto.
  - intros (lease & Hin & Hs & <- & Hne). eauto.
Qed.

(** The session index is exactly the grouping of the active leases: a
    session is listed if and only if some lease names it, and its [activeLeaseIds]
    are the ids of the leases of that session, sorted and without repetition. *)
Theorem session_index_exact store t sid :
  exists sessions, sessions_map (rebuild_sessions store t) = Some sessions
  /\ match bt_get sid sessions with
     | None => session_lease_ids sid (sorted_leases store) = []
     | Some s =>
         exists ids, array_at_path s ["activeLeaseIds"] = Some (map json_string ids)
         /\ ids <> [] /\ StronglySorted str_lt ids
         /\ forall id, id ∈ ids <->
              exists lease, lease ∈ sorted_leases store /\ session_of_lease lease = sid
                /\ required_string lease ["leaseId"] = id /\ id <> EmptyString
     end.
Proof.
  eexists. split; [unfold sessions_map, rebuild_sessions; by rewrite bt_get_insert_eq|].
  rewrite (bt_get_map_snd (fun acc => into_json acc t)).
  pose proof (fold_sessions_ids (sorted_leases store) t sid) as E.
  pose proof (session_lease_ids_elem sid (sorted_leases store)) as Hids.
  destruct (bt_get sid _) as [acc|]; cbn [option_map] in *.
  - destruct (session_lease_ids sid (sorted_leases store)) as [|x xs]; [done|]. injection E as E.
    exists (sort_dedup (acc_active_lease_ids acc)). rewrite E. split; [by rewrite <- E|].
    split; [|split; [apply sort_dedup_sorted|intros id; by rewrite sort_dedup_elem, Hids]].
    intros Hn. assert (Hx : x ∈ sort_dedup (x :: xs)) by (apply sort_dedup_elem; by left).
    rewrite Hn in Hx. by apply not_elem_of_nil in Hx.
  - by destruct (session_lease_ids sid (sorted_leases store)).
Qed.
