(* ===== verification/LeaseLock.v ===== *)
(** * The lease store lock (src/hub/leases.rs, [acquire_lease_store_lock])

    First the retry loop of one process, against any sequence of file system
    outcomes; then the lock file shared by several processes, as a transition system
    over the individual file system calls. *)

From Stdlib Require Import Ascii.
From S2P Require Import Prelude RustStr BTree Json LeaseRoute LeaseStore.

(** ** One process *)

Definition LEASE_LOCK_SLEEP_MS : N := 10.

(** [OpenOptions::create_new]; [Contention] is [retryable_windows_lock_contention]. *)
Inductive CreateOutcome : Type :=
| Created (write : result unit string)
| AlreadyExists
| Contention (error : string)
| CreateFailed (error : string).

Inductive ReadOutcome : Type :=
| ReadText (raw : string)
| ReadNotFound
| ReadContention
| ReadFailed (error : string).

Inductive RemoveOutcome : Type :=
| Removed
| RemoveNotFound
| RemoveFailed (error : string).

(** What one iteration of the loop meets. *)
Record Attempt := mkAttempt {
  at_create : CreateOutcome;
  at_read : ReadOutcome;
  at_now : N;
  at_remove : RemoveOutcome
}.

Section lock_loop.
Context `{SerdeJson}.
Variable lock_path : string.

Definition remove_stale_lease_store_lock (a : Attempt) : result bool string :=
  match at_read a with
  | ReadNotFound => Ok true
  | ReadContention => Ok false
  | ReadFailed error => Err ("failed to inspect lease store lock at " +:+ lock_path +:+ ": " +:+ error)
  | ReadText raw =>
      match result_ok (parse_str raw) ≫= (fun value => number_u128_at value ["createdAtMs"]) with
      | None => Ok false
      | Some created_at_ms =>
          if (at_now a - created_at_ms <=? LEASE_LOCK_STALE_MS)%N then Ok false
          else
            match at_remove a with
            | Removed | RemoveNotFound => Ok true
            | RemoveFailed error =>
                Err ("failed to remove stale lease store lock at " +:+ lock_path +:+ ": " +:+ error)
            end
      end
  end.

Definition lock_busy : string :=
  "lease store lock is busy at " +:+ lock_path
  +:+ "; another MCPace runtime worker may be updating leases".

Definition lock_failed (error : string) : string :=
  "failed to acquire lease store lock at " +:+ lock_path +:+ ": " +:+ error.

(** The loop from attempt [i] with [remaining] attempts to go; the second component is the
    time slept. *)
Fixpoint acquire_lock_loop (attempts : nat -> Attempt) (remaining i : nat)
    (final_retryable_error : option string) (slept : N) : result unit string * N :=
  match remaining with
  | O =>
      (match final_retryable_error with
       | Some error => Err (lock_failed error)
       | None => Err lock_busy
       end, slept)
  | S remaining =>
      match at_create (attempts i) with
      | Created write =>
          (map_err (fun error => "failed to write " +:+ lock_path +:+ ": " +:+ error) write, slept)
      | AlreadyExists =>
          match remove_stale_lease_store_lock (attempts i) with
          | Err error => (Err error, slept)
          | Ok true => acquire_lock_loop attempts remaining (S i) None slept
          | Ok false => acquire_lock_loop attempts remaining (S i) None (slept + LEASE_LOCK_SLEEP_MS)
          end
      | Contention error =>
          acquire_lock_loop attempts remaining (S i) (Some error) (slept + LEASE_LOCK_SLEEP_MS)
      | CreateFailed error => (Err (lock_failed error), slept)
      end
  end.

Definition acquire_lease_store_lock (attempts : nat -> Attempt) : result unit string * N :=
  acquire_lock_loop attempts LEASE_LOCK_ATTEMPTS 0 None 0.

(** An attempt after which the loop goes on. *)
Definition retried (a : Attempt) : bool :=
  match at_create a with
  | AlreadyExists => is_ok (remove_stale_lease_store_lock a)
  | Contention _ => true
  | _ => false
  end.

Lemma acquire_lock_loop_slept attempts remaining i e slept :
  ((acquire_lock_loop attempts remaining i e slept).2 <= slept + N.of_nat remaining * LEASE_LOCK_SLEEP_MS)%N.
Proof.
  revert i e slept. induction remaining as [|remaining IH]; intros i e slept; cbn [acquire_lock_loop snd]; [lia|].
  unfold LEASE_LOCK_SLEEP_MS in *. destruct (at_create (attempts i)); cbn [snd]; try lia.
  - destruct (remove_stale_lease_store_lock (attempts i)) as [ [] |]; cbn [snd]; [etrans; [apply IH|]; lia..|lia].
  - etrans; [apply IH|]. lia.
Qed.

Lemma acquire_lock_loop_Ok attempts remaining i e slept :
  (acquire_lock_loop attempts remaining i e slept).1 = Ok tt <->
  exists j, (i <= j < i + remaining)%nat /\ at_create (attempts j) = Created (Ok tt)
    /\ forall k, (i <= k < j)%nat -> retried (attempts k) = true.
Proof.
  revert i e slept. induction remaining as [|remaining IH]; intros i e slept.
  { cbn. split; [by destruct e|]. intros (j & ? & _). lia. }
  assert (Hstep : retried (attempts i) = true -> forall e' s',
    (acquire_lock_loop attempts remaining (S i) e' s').1 = Ok tt <->
    exists j, (i <= j < i + S remaining)%nat /\ at_create (attempts j) = Created (Ok tt)
      /\ forall k, (i <= k < j)%nat -> retried (attempts k) = true).
  { intros Hr e' s'. rewrite IH. split; intros (j & Hj & Hc & Hk).
    - exists j. split; [lia|]. split; [done|]. intros k Hik.
      destruct (decide (k = i)) as [->|]; [done|]. apply Hk. lia.
    - exists j. destruct (decide (j = i)) as [->|].
      + unfold retried in Hr. by rewrite Hc in Hr.
      + split; [lia|]. split; [done|]. intros k Hik. apply Hk. lia. }
  assert (Hstop : retried (attempts i) = false -> at_create (attempts i) <> Created (Ok tt) ->
    ~ exists j, (i <= j < i + S remaining)%nat /\ at_create (attempts j) = Created (Ok tt)
      /\ forall k, (i <= k < j)%nat -> retried (attempts k) = true).
  { intros Hr Hn (j & Hj & Hc & Hk). destruct (decide (j = i)) as [->|]; [done|].
    rewrite Hk in Hr; [done|lia]. }
  unfold retried in Hstep at 1, Hstop at 1. cbn [acquire_lock_loop].
  destruct (at_create (attempts i)) as [ [ [] |err]| | |] eqn:Ec; cbn [map_err fst].
  - split; [|done]. intros _. exists i. split; [lia|]. split; [done|]. intros k Hk. lia.
  - split; [done|]. intros Hx. exfalso. by apply Hstop in Hx.
  - destruct (remove_stale_lease_store_lock (attempts i)) as [ [] |err]; [by apply Hstep..|].
    split; [done|]. intros Hx. exfalso. by apply Hstop in Hx.
  - by apply Hstep.
  - split; [done|]. intros Hx. exfalso. by apply Hstop in Hx.
Qed.

(** A lock file without a readable creation time is never considered stale. *)
Definition unreadable_lock (a : Attempt) : Prop :=
  at_create a = AlreadyExists
  /\ exists raw, at_read a = ReadText raw
     /\ (result_ok (parse_str raw) ≫= (fun value => number_u128_at value ["createdAtMs"])) = None.

Lemma acquire_lock_loop_unreadable attempts remaining i slept :
  (forall k, unreadable_lock (attempts k)) ->
  (acquire_lock_loop attempts remaining i None slept).1 = Err lock_busy.
Proof.
  intros Hu. revert i slept. induction remaining as [|remaining IH]; intros i slept; [done|].
  cbn [acquire_lock_loop]. destruct (Hu i) as (-> & raw & Hr & Hp).
  unfold remove_stale_lease_store_lock. rewrite Hr, Hp. apply IH.
Qed.
End lock_loop.

(** ** Several processes

    Each step is one file system call of one process, or time passing. The owner in
    the file is a ghost: the file itself only holds the creation time, and is empty
    between [create_new] and [write_all]. *)

Module SharedLock.

Inductive Phase : Type :=
| Idle
| Trying (created_at : N)
| Writing (created_at : N)
| Judged (created_at : N)
| Holding (created_at : N).

Record LockFile := mkLockFile { file_owner : nat; file_created_at : option N }.

Record State := mkState { now : N; lock : option LockFile; phase : nat -> Phase }.

Definition set_phase (p : nat) (ph : Phase) (f : nat -> Phase) : nat -> Phase :=
  fun q => if Nat.eqb q p then ph else f q.

Definition initial : State := {| now := 0; lock := None; phase := fun _ => Idle |}.

Inductive Event : Type :=
| Start (p : nat)      (* the payload is built: its [createdAtMs] is read now *)
| Create (p : nat)     (* [create_new] succeeds *)
| GiveUp (p : nat)     (* the attempts are used up *)
| WritePayload (p : nat)
| Inspect (p : nat)    (* the file is read and found stale *)
| Remove (p : nat)     (* [remove_file] of the lock judged stale *)
| Release (p : nat)    (* [LeaseStoreGuard::drop] removes the path *)
| Crash (p : nat)
| Tick (d : N).

(** The effect of an event, [None] when it cannot happen. *)
Definition step (e : Event) (s : State) : option State :=
  match e with
  | Start p =>
      match phase s p with
      | Idle => Some {| now := now s; lock := lock s; phase := set_phase p (Trying (now s)) (phase s) |}
      | _ => None
      end
  | Create p =>
      match phase s p, lock s with
      | Trying t, None =>
          Some {| now := now s; lock := Some {| file_owner := p; file_created_at := None |};
                  phase := set_phase p (Writing t) (phase s) |}
      | _, _ => None
      end
  | GiveUp p =>
      match phase s p with
      | Trying _ => Some {| now := now s; lock := lock s; phase := set_phase p Idle (phase s) |}
      | _ => None
      end
  | WritePayload p =>
      match phase s p with
      | Writing t =>
          Some {| now := now s;
                  lock := match lock s with
                          | Some f =>
                              if Nat.eqb (file_owner f) p then
                                Some {| file_owner := p; file_created_at := Some t |}
                              else Some f
                          | None => None
                          end;
                  phase := set_phase p (Holding t) (phase s) |}
      | _ => None
      end
  | Inspect p =>
      match phase s p, lock s with
      | Trying t, Some {| file_created_at := Some created |} =>
          if (now s - created <=? LEASE_LOCK_STALE_MS)%N then None
          else Some {| now := now s; lock := lock s; phase := set_phase p (Judged t) (phase s) |}
      | _, _ => None
      end
  | Remove p =>
      match phase s p with
      | Judged t => Some {| now := now s; lock := None; phase := set_phase p (Trying t) (phase s) |}
      | _ => None
      end
  | Release p =>
      match phase s p with
      | Holding _ => Some {| now := now s; lock := None; phase := set_phase p Idle (phase s) |}
      | _ => None
      end
  | Crash p => Some {| now := now s; lock := lock s; phase := set_phase p Idle (phase s) |}
  | Tick d => Some {| now := (now s + d)%N; lock := lock s; phase := phase s |}
  end.

Definition in_section (s : State) (p : nat) : Prop :=
  match phase s p with Writing _ | Holding _ => True | _ => False end.



Definition any_step (s s' : State) : Prop := exists e, step e s = Some s'.











End SharedLock.

(** * Properties *)

(** The lock loop always returns after at most 100 attempts and one
    second of sleeping, and it reports the lock as acquired exactly when some attempt
    within the bound created the file and every attempt before it was retried. *)
Theorem acquire_lease_store_lock_bounded `{SerdeJson} lock_path attempts :
  ((acquire_lease_store_lock lock_path attempts).2 <= 1000)%N
  /\ ((acquire_lease_store_lock lock_path attempts).1 = Ok tt <->
      exists j, (j < LEASE_LOCK_ATTEMPTS)%nat /\ at_create (attempts j) = Created (Ok tt)
        /\ forall k, (k < j)%nat -> retried lock_path (attempts k) = true).
Proof.
  split; [etrans; [apply acquire_lock_loop_slept|]; done|].
  unfold acquire_lease_store_lock. rewrite acquire_lock_loop_Ok.
  split; intros (j & Hj & Hc & Hk); exists j; (split; [lia|]; split; [done|]); intros k Hkj; apply Hk; lia.
Qed.


(** Running a list of events. *)
Fixpoint run_events (es : list SharedLock.Event) (s : SharedLock.State) : option SharedLock.State :=
  match es with
  | [] => Some s
  | e :: es => match SharedLock.step e s with Some s' => run_events es s' | None => None end
  end.

Lemma run_events_reachable es s s' :
  reachable (fun s => s = SharedLock.initial) SharedLock.any_step s -> run_events es s = Some s' ->
  reachable (fun s => s = SharedLock.initial) SharedLock.any_step s'.
Proof.
  revert s. induction es as [|e es IH]; intros s Hr; cbn [run_events]; [by intros [= <-]|].
  destruct (SharedLock.step e s) as [s1|] eqn:Es; [|done]. apply IH. eapply reachable_step; [done|]. by exists e.
Qed.


(** The interleaving that breaks the lock after a crash: two processes judge the same
    abandoned lock stale; one removes it and takes the lock; the other then removes the
    fresh lock and takes it too. *)
Definition stale_race : list SharedLock.Event :=
  [SharedLock.Start 0; SharedLock.Create 0; SharedLock.WritePayload 0; SharedLock.Crash 0;
   SharedLock.Tick 30001; SharedLock.Start 1; SharedLock.Start 2; SharedLock.Inspect 1;
   SharedLock.Inspect 2; SharedLock.Remove 1; SharedLock.Create 1; SharedLock.WritePayload 1;
   SharedLock.Remove 2; SharedLock.Create 2; SharedLock.WritePayload 2].

(** The removal of a stale lock is not atomic with the test for
    staleness: after one process dies inside the section, two others can both end up
    inside it. *)
Theorem stale_lock_removal_admits_two_holders :
  exists s, reachable (fun s => s = SharedLock.initial) SharedLock.any_step s
    /\ SharedLock.in_section s 1 /\ SharedLock.in_section s 2.
Proof.
  destruct (run_events stale_race SharedLock.initial) as [s|] eqn:E; [|vm_compute in E; discriminate].
  exists s. split; [by eapply run_events_reachable; [apply reachable_init|exact E]|].
  vm_compute in E. injection E as <-. split; exact I.
Qed.

(** The creation time is read once, before the first attempt: a process that waited longer
    than the stale bound creates a lock that is stale at once, and another process removes it. *)
Definition late_creation : list SharedLock.Event :=
  [SharedLock.Start 1; SharedLock.Tick 30001; SharedLock.Create 1; SharedLock.WritePayload 1; SharedLock.Start 2;
   SharedLock.Inspect 2; SharedLock.Remove 2; SharedLock.Create 2; SharedLock.WritePayload 2].

Theorem late_lock_admits_two_holders :
  exists s, reachable (fun s => s = SharedLock.initial) SharedLock.any_step s
    /\ SharedLock.in_section s 1 /\ SharedLock.in_section s 2.
Proof.
  destruct (run_events late_creation SharedLock.initial) as [s|] eqn:E; [|vm_compute in E; discriminate].
  exists s. split; [by eapply run_events_reachable; [apply reachable_init|exact E]|].
  vm_compute in E. injection E as <-. split; exact I.
Qed.

(** A lock file without a readable creation time (the process died, or
    its write failed, between creating and filling the file) is never removed: every
    acquisition that meets it ends with the busy error. *)
Theorem unreadable_lock_blocks_forever `{SerdeJson} lock_path attempts :
  (forall k, unreadable_lock (attempts k)) ->
  (acquire_lease_store_lock lock_path attempts).1 = Err (lock_busy lock_path).
Proof. apply acquire_lock_loop_unreadable. Qed.

Lemma unreadable_lock_blocks_forever_witness :
  (acquire_lease_store_lock (H := TreeCodec.codec) "lock"
     (fun _ => mkAttempt AlreadyExists (ReadText EmptyString) 99999 Removed)).1 = Err (lock_busy "lock").
Proof.
  apply (unreadable_lock_blocks_forever (H := TreeCodec.codec)). intros k. split; [reflexivity|].
  exists EmptyString. split; reflexivity.
Defined.
