(* ===== verification/LeaseQueue.v ===== *)
(** * The process-local lease queue (src/upstream/lease_queue.rs)

    One lane is a ticket queue: tickets are issued in order, one ticket is served at
    a time, and tickets abandoned before their turn are skipped. The registry maps
    lane keys to shared lanes. Every critical section of the code is one step, so the
    interleavings of the threads are the sequences of steps. *)

From S2P Require Import Prelude RustStr BTree.

Definition MAX_QUEUE_LANES : N := 4096.
Definition MAX_WAIT_SLICE_MS : N := 250.

Inductive LeaseQueueError : Type :=
| Poisoned
| LaneLimit (maximum : N)
| Full (lane : string) (maximum : N)
| Timeout (lane : string) (ticket : N).

Definition display_queue_error (e : LeaseQueueError) : string :=
  match e with
  | Poisoned => "upstream lease queue lock was poisoned"
  | LaneLimit maximum =>
      "upstream lease queue exceeded its " +:+ N_to_string maximum +:+ "-lane safety limit"
  | Full lane maximum =>
      "upstream lease queue '" +:+ lane +:+ "' is full (maximum depth " +:+ N_to_string maximum +:+ ")"
  | Timeout lane ticket =>
      "upstream lease queue '" +:+ lane +:+ "' timed out while waiting for ticket "
      +:+ N_to_string ticket
  end.

Record QueueLaneState := mkLane {
  next_ticket : N;
  serving_ticket : N;
  waiting : N;
  cancelled : gset N
}.

Definition lane_default : QueueLaneState :=
  {| next_ticket := 0; serving_ticket := 0; waiting := 0; cancelled := ∅ |}.

Record LeaseQueuePosition := mkPosition {
  ticket : N;
  depth_at_enqueue : N;
  ahead_at_enqueue : N
}.

(** [while cancelled.remove(&serving) { serving += 1 }]: each turn removes a ticket, so
    as many turns as there are cancelled tickets are enough. *)
Fixpoint advance_loop (fuel : nat) (st : QueueLaneState) : QueueLaneState :=
  match fuel with
  | O => st
  | S fuel =>
      if decide (serving_ticket st ∈ cancelled st) then
        advance_loop fuel
          {| next_ticket := next_ticket st;
             serving_ticket := sat_add U64_MAX (serving_ticket st) 1;
             waiting := waiting st;
             cancelled := cancelled st ∖ {[serving_ticket st]} |}
      else st
  end.

Definition advance_cancelled (st : QueueLaneState) : QueueLaneState :=
  advance_loop (size (cancelled st)) st.

(** The lane's part of [enqueue]. *)
Definition lane_enqueue (lane_key : string) (max_depth : N) (st : QueueLaneState)
    : QueueLaneState * result LeaseQueuePosition LeaseQueueError :=
  let max_depth := N.max max_depth 1 in
  if (max_depth <=? waiting st)%N then (st, Err (Full lane_key max_depth))
  else
    let st := advance_cancelled st in
    let t := next_ticket st in
    let st' := {| next_ticket := sat_add U64_MAX (next_ticket st) 1;
                  serving_ticket := serving_ticket st;
                  waiting := sat_add USIZE_MAX (waiting st) 1;
                  cancelled := cancelled st |} in
    (st', Ok {| ticket := t; depth_at_enqueue := waiting st';
                ahead_at_enqueue := (t - serving_ticket st)%N |}).

(** One turn of the loop of [wait_until_head]: the head test under the lock, then the
    deadline test; [None] means the thread waits on the condition variable. *)
Definition wait_turn (lane_key : string) (t now deadline : N) (st : QueueLaneState)
    : QueueLaneState * option (result unit LeaseQueueError) :=
  let st := advance_cancelled st in
  if (serving_ticket st =? t)%N then (st, Some (Ok tt))
  else if (deadline <=? now)%N then (st, Some (Err (Timeout lane_key t)))
  else (st, None).

(** What a thread sees when it holds the lock: the state the others left, the clock, and
    how the wait that follows ends. *)
Record View := mkView { view_state : QueueLaneState; view_now : N; timed_out : bool; now_after : N }.

Fixpoint wait_until_head (lane_key : string) (t deadline : N) (views : list View)
    : option (result unit LeaseQueueError) :=
  match views with
  | [] => None
  | v :: rest =>
      match (wait_turn lane_key t (view_now v) deadline (view_state v)).2 with
      | Some outcome => Some outcome
      | None =>
          if timed_out v && (deadline <=? now_after v)%N then Some (Err (Timeout lane_key t))
          else wait_until_head lane_key t deadline rest
      end
  end.

(** How long one wait lasts at most. *)
Definition wait_slice (now deadline : N) : N := N.min (deadline - now) MAX_WAIT_SLICE_MS.

Definition wait_for_retry (lane_key : string) (t retry_after now deadline : N) (timed_out : bool)
    (now_after : N) : result N LeaseQueueError :=
  if (deadline <=? now)%N then Err (Timeout lane_key t)
  else
    let wait := N.min (N.min retry_after (deadline - now)) MAX_WAIT_SLICE_MS in
    if timed_out && (deadline <=? now_after)%N then Err (Timeout lane_key t) else Ok wait.

Definition repair_lane_state (st : QueueLaneState) : QueueLaneState :=
  let next := N.max (next_ticket st) (serving_ticket st) in
  let st := {| next_ticket := next; serving_ticket := serving_ticket st; waiting := waiting st;
               cancelled := filter (fun t => serving_ticket st <= t /\ t < next)%N (cancelled st) |} in
  let st := advance_cancelled st in
  let outstanding := (next_ticket st - serving_ticket st)%N in
  {| next_ticket := next_ticket st; serving_ticket := serving_ticket st;
     waiting := (N.min outstanding USIZE_MAX - N.of_nat (size (cancelled st)))%N;
     cancelled := cancelled st |}.

(** [finish], for a ticket that is not completed yet; a poisoned lane is repaired first. *)
Definition lane_finish (t : N) (is_cancelled poisoned : bool) (st : QueueLaneState) : QueueLaneState :=
  let st := if poisoned then repair_lane_state st else st in
  let st := {| next_ticket := next_ticket st; serving_ticket := serving_ticket st;
               waiting := (waiting st - 1)%N; cancelled := cancelled st |} in
  if (t =? serving_ticket st)%N then
    advance_cancelled
      {| next_ticket := next_ticket st; serving_ticket := sat_add U64_MAX (serving_ticket st) 1;
         waiting := waiting st; cancelled := cancelled st |}
  else if is_cancelled && (serving_ticket st <? t)%N then
    {| next_ticket := next_ticket st; serving_ticket := serving_ticket st; waiting := waiting st;
       cancelled := {[t]} ∪ cancelled st |}
  else st.

(** ** Lemmas: skipping cancelled tickets *)

Lemma advance_loop_fields fuel st :
  next_ticket (advance_loop fuel st) = next_ticket st /\ waiting (advance_loop fuel st) = waiting st.
Proof. revert st. induction fuel as [|fuel IH]; intros st; [done|].
  simpl. case_decide; [|done]. by rewrite !(proj1 (IH _)), !(proj2 (IH _)).
Qed.

Lemma advance_next st : next_ticket (advance_cancelled st) = next_ticket st.
Proof. apply advance_loop_fields. Qed.

Lemma advance_waiting st : waiting (advance_cancelled st) = waiting st.
Proof. apply advance_loop_fields. Qed.

(** The fuel is enough: the loop only stops at a ticket that is not cancelled. *)
Lemma advance_loop_stops fuel st :
  (size (cancelled st) <= fuel)%nat ->
  serving_ticket (advance_loop fuel st) ∉ cancelled (advance_loop fuel st).
Proof.
  revert st. induction fuel as [|fuel IH]; intros st Hs; simpl.
  - assert (size (cancelled st) = 0)%nat as E by lia. apply size_empty_inv in E. set_solver.
  - case_decide as Hd; [|done]. apply IH. cbn [cancelled].
    rewrite size_difference by set_solver. rewrite size_singleton. lia.
Qed.

Lemma advance_stops st : serving_ticket (advance_cancelled st) ∉ cancelled (advance_cancelled st).
Proof. by apply advance_loop_stops. Qed.

Lemma advance_loop_id fuel st : serving_ticket st ∉ cancelled st -> advance_loop fuel st = st.
Proof. destruct fuel; [done|]. intros Hn. simpl. by rewrite decide_False. Qed.

Lemma advance_idem st : advance_cancelled (advance_cancelled st) = advance_cancelled st.
Proof. apply advance_loop_id, advance_stops. Qed.

(** ** The lane invariant

    [live] is the set of tickets handed out and not finished. *)

Record lane_inv (st : QueueLaneState) (live : gset N) : Prop := {
  inv_order : (serving_ticket st <= next_ticket st)%N;
  inv_width : (next_ticket st <= U64_MAX)%N;
  inv_cover t : (serving_ticket st <= t < next_ticket st)%N <-> t ∈ live \/ t ∈ cancelled st;
  inv_disjoint t : t ∈ live -> t ∉ cancelled st;
  inv_waiting : waiting st = N.of_nat (size live)
}.

Lemma lane_inv_default : lane_inv lane_default ∅.
Proof.
  split; cbn [lane_default serving_ticket next_ticket waiting cancelled]; [lia|unfold U64_MAX; lia|..|done].
  - intros t. split; [lia|set_solver].
  - set_solver.
Qed.

(** Skipping one cancelled ticket keeps the invariant. *)
Lemma lane_inv_skip st live :
  lane_inv st live -> serving_ticket st ∈ cancelled st ->
  lane_inv {| next_ticket := next_ticket st;
              serving_ticket := sat_add U64_MAX (serving_ticket st) 1;
              waiting := waiting st; cancelled := cancelled st ∖ {[serving_ticket st]} |} live.
Proof.
  intros [Ho Hw Hc Hd Hn] Hin.
  assert (Hlt : (serving_ticket st < next_ticket st)%N) by (apply (proj2 (Hc (serving_ticket st))); auto).
  split; cbn [serving_ticket next_ticket waiting cancelled]; rewrite ?sat_add_exact by lia; try lia; auto.
  - intros t. rewrite elem_of_difference, elem_of_singleton. split.
    + intros Ht. destruct (proj1 (Hc t)) as [|]; [lia|by left|]. right. split; [done|lia].
    + intros [Ht|[Ht Hne]].
      * assert (t <> serving_ticket st) by (intros ->; by apply (Hd (serving_ticket st))).
        pose proof (proj2 (Hc t) (or_introl Ht)). lia.
      * pose proof (proj2 (Hc t) (or_intror Ht)). lia.
  - intros t Ht. specialize (Hd t Ht). set_solver.
Qed.

Lemma lane_inv_advance_loop fuel st live : lane_inv st live -> lane_inv (advance_loop fuel st) live.
Proof.
  revert st. induction fuel as [|fuel IH]; intros st Hi; [done|]. simpl. case_decide; [|done].
  by apply IH, lane_inv_skip.
Qed.

Lemma lane_inv_advance st live : lane_inv st live -> lane_inv (advance_cancelled st) live.
Proof. apply lane_inv_advance_loop. Qed.

Lemma serving_advance_ge st live : lane_inv st live -> (serving_ticket st <= serving_ticket (advance_cancelled st))%N.
Proof.
  unfold advance_cancelled. generalize (size (cancelled st)). intros fuel. revert st.
  induction fuel as [|fuel IH]; intros st Hi; simpl; [lia|]. case_decide as Hd; [|lia].
  specialize (IH _ (lane_inv_skip st live Hi Hd)). cbn [serving_ticket] in IH.
  assert (serving_ticket st < next_ticket st)%N
    by (apply (proj2 (inv_cover _ _ Hi (serving_ticket st))); auto).
  pose proof (inv_width _ _ Hi). etrans; [|exact IH]. rewrite sat_add_exact by lia. lia.
Qed.

(** No lane is ever stuck: as long as a ticket is live, the served ticket is a live one
    once the cancelled tickets are skipped, and it is the oldest. *)
Lemma head_is_live st live :
  lane_inv st live -> live <> ∅ ->
  (serving_ticket (advance_cancelled st) ∈ live)
  /\ forall t, t ∈ live -> (serving_ticket (advance_cancelled st) <= t)%N.
Proof.
  intros Hi Hne. pose proof (lane_inv_advance st live Hi) as Ha.
  assert (Hge : forall t, t ∈ live -> (serving_ticket (advance_cancelled st) <= t)%N).
  { intros t Ht. apply (proj2 (inv_cover _ _ Ha t)). by left. }
  split; [|done].
  apply set_choose_L in Hne as [t Ht].
  assert (serving_ticket (advance_cancelled st) < next_ticket (advance_cancelled st))%N.
  { pose proof (proj2 (inv_cover _ _ Ha t) (or_introl Ht)). lia. }
  destruct (proj1 (inv_cover _ _ Ha (serving_ticket (advance_cancelled st)))) as [|Hc]; [lia|done|].
  by destruct (advance_stops st).
Qed.

(** ** Lemmas: the operations of a lane *)

Lemma advance_id_of_live st live :
  lane_inv st live -> serving_ticket st ∈ live -> advance_cancelled st = st.
Proof. intros Hi Hl. apply advance_loop_id. by apply (inv_disjoint _ _ Hi). Qed.

Lemma lane_enqueue_Full key depth st :
  (N.max depth 1 <= waiting st)%N -> lane_enqueue key depth st = (st, Err (Full key (N.max depth 1))).
Proof. intros Hw. unfold lane_enqueue. by rewrite (proj2 (N.leb_le _ _) Hw). Qed.

Lemma lane_enqueue_Ok key depth st live :
  lane_inv st live -> (next_ticket st < U64_MAX)%N -> (depth <= USIZE_MAX)%N ->
  (waiting st < N.max depth 1)%N ->
  exists st' pos, lane_enqueue key depth st = (st', Ok pos)
    /\ ticket pos = next_ticket st /\ (ticket pos ∉ live)
    /\ lane_inv st' ({[ticket pos]} ∪ live)
    /\ depth_at_enqueue pos = N.of_nat (S (size live))
    /\ (serving_ticket st <= serving_ticket st')%N.
Proof.
  intros Hi Hn Hd Hw. unfold lane_enqueue. rewrite (proj2 (N.leb_gt _ _) Hw).
  pose proof (lane_inv_advance st live Hi) as Ha. pose proof (advance_next st) as En.
  pose proof (advance_waiting st) as Ew. pose proof (serving_advance_ge st live Hi) as Hs.
  set (a := advance_cancelled st) in *. clearbody a.
  assert (Hfresh : forall t, t = next_ticket a -> (t ∉ live) /\ (t ∉ cancelled a)).
  { intros t ->. split; intros Ht.
    - pose proof (proj2 (inv_cover _ _ Ha (next_ticket a)) (or_introl Ht)). lia.
    - pose proof (proj2 (inv_cover _ _ Ha (next_ticket a)) (or_intror Ht)). lia. }
  destruct (Hfresh _ eq_refl) as [Hf1 Hf2].
  pose proof (inv_waiting _ _ Hi) as Hsz. pose proof (inv_order _ _ Ha) as Hord.
  eexists _, _. split; [reflexivity|]. cbn [ticket depth_at_enqueue waiting serving_ticket].
  split; [done|]. split; [done|]. split; [|split; [|done]].
  - split; cbn [serving_ticket next_ticket waiting cancelled]; rewrite ?sat_add_exact by lia.
    + lia.
    + lia.
    + intros t. rewrite elem_of_union, elem_of_singleton. split.
      * intros Ht. destruct (decide (t = next_ticket a)) as [->|]; [auto|].
        destruct (proj1 (inv_cover _ _ Ha t)) as [|]; [lia|auto..].
      * intros [[->|Ht]|Ht]; [lia|..];
          [pose proof (proj2 (inv_cover _ _ Ha t) (or_introl Ht))|pose proof (proj2 (inv_cover _ _ Ha t) (or_intror Ht))]; lia.
    + intros t [->%elem_of_singleton|Ht]%elem_of_union; [done|]. by apply (inv_disjoint _ _ Ha).
    + rewrite Ew, sat_add_exact by (unfold USIZE_MAX, U64_MAX in *; lia).
      rewrite size_union by set_solver. rewrite size_singleton. lia.
  - rewrite Ew, sat_add_exact by (unfold USIZE_MAX, U64_MAX in *; lia). lia.
Qed.

(** Finishing the served ticket, or abandoning any live ticket, keeps the invariant. *)
Lemma lane_finish_inv st live t c :
  lane_inv st live -> t ∈ live -> t = serving_ticket st \/ c = true ->
  lane_inv (lane_finish t c false st) (live ∖ {[t]})
  /\ (serving_ticket st <= serving_ticket (lane_finish t c false st))%N.
Proof.
  intros Hi Ht Hc.
  assert (Hsz : (waiting st - 1)%N = N.of_nat (size (live ∖ {[t]}))).
  { rewrite (inv_waiting _ _ Hi), size_difference by set_solver. rewrite size_singleton. lia. }
  pose proof (inv_disjoint _ _ Hi t Ht) as Htc. pose proof (inv_order _ _ Hi). pose proof (inv_width _ _ Hi).
  assert (Hr : (serving_ticket st <= t < next_ticket st)%N) by (apply (inv_cover _ _ Hi); auto).
  unfold lane_finish. cbn [serving_ticket next_ticket waiting cancelled].
  destruct (N.eqb_spec t (serving_ticket st)) as [->|Hne].
  - set (st1 := mkLane _ _ _ _).
    assert (Hi1 : lane_inv st1 (live ∖ {[serving_ticket st]})).
    { unfold st1. split; cbn [serving_ticket next_ticket waiting cancelled]; rewrite ?sat_add_exact by lia;
        try lia; auto.
      - intros u. rewrite elem_of_difference, elem_of_singleton. split.
        + intros Hu. destruct (proj1 (inv_cover _ _ Hi u)) as [|]; [lia| |auto]. left. split; [done|lia].
        + intros [[Hu Hn]|Hu].
          * pose proof (proj2 (inv_cover _ _ Hi u) (or_introl Hu)). lia.
          * assert (u <> serving_ticket st) by congruence.
            pose proof (proj2 (inv_cover _ _ Hi u) (or_intror Hu)). lia.
      - intros u [Hu _]%elem_of_difference. by apply (inv_disjoint _ _ Hi). }
    split; [by apply lane_inv_advance|]. etrans; [|by eapply serving_advance_ge].
    unfold st1. cbn [serving_ticket]. rewrite sat_add_exact by lia. lia.
  - destruct Hc as [? | ->]; [done|]. rewrite (proj2 (N.ltb_lt _ _)) by lia. cbn [andb].
    cbn [serving_ticket]. split; [|lia].
    split; cbn [serving_ticket next_ticket waiting cancelled]; try lia; auto.
    + intros u. rewrite (inv_cover _ _ Hi u), elem_of_difference, elem_of_union, elem_of_singleton.
      split; [|intros [ [? ?] | [-> | ?] ]; auto]. destruct (decide (u = t)); intuition.
    + intros u [Hu Hn]%elem_of_difference. pose proof (inv_disjoint _ _ Hi u Hu). set_solver.
Qed.

(** *** Counting tickets *)

Definition ticket_range (lo n : N) : gset N := list_to_set ((fun k => (lo + N.of_nat k)%N) <$> seq 0 (N.to_nat n)).

Lemma ticket_range_elem lo n t : t ∈ ticket_range lo n <-> (lo <= t < lo + n)%N.
Proof.
  unfold ticket_range. rewrite elem_of_list_to_set, list_elem_of_fmap. setoid_rewrite elem_of_seq. split.
  - intros (k & -> & Hk). lia.
  - intros Ht. exists (N.to_nat (t - lo)). split; lia.
Qed.

Lemma ticket_range_size lo n : N.of_nat (size (ticket_range lo n)) = n.
Proof.
  unfold ticket_range. rewrite size_list_to_set.
  - rewrite length_fmap, length_seq. lia.
  - apply NoDup_fmap_2; [|apply NoDup_seq]. intros k k' E. lia.
Qed.

Lemma lane_inv_count st live :
  lane_inv st live -> N.of_nat (size live + size (cancelled st)) = (next_ticket st - serving_ticket st)%N.
Proof.
  intros Hi. rewrite <- size_union.
  - rewrite <- (ticket_range_size (serving_ticket st) (next_ticket st - serving_ticket st)). do 2 f_equal.
    apply set_eq. intros t. rewrite ticket_range_elem, elem_of_union, <- (inv_cover _ _ Hi t).
    pose proof (inv_order _ _ Hi). split; lia.
  - intros t Ht. by apply (inv_disjoint _ _ Hi).
Qed.

(** Repairing a healthy lane only skips cancelled tickets. *)
Lemma repair_healthy st live : lane_inv st live -> repair_lane_state st = advance_cancelled st.
Proof.
  intros Hi. unfold repair_lane_state. pose proof (inv_order _ _ Hi) as Ho. rewrite N.max_l by lia.
  assert (filter (fun t => serving_ticket st <= t /\ t < next_ticket st)%N (cancelled st) = cancelled st) as ->.
  { apply set_eq. intros t. rewrite elem_of_filter. split; [tauto|]. intros Ht. split; [|done].
    apply (inv_cover _ _ Hi). auto. }
  destruct st as [nx sv w cn]. cbn [next_ticket serving_ticket waiting cancelled] in *.
  pose proof (lane_inv_advance _ _ Hi) as Ha. set (a := advance_cancelled _) in *. clearbody a.
  pose proof (lane_inv_count _ _ Ha). pose proof (inv_waiting _ _ Ha). pose proof (inv_width _ _ Ha).
  destruct a as [nx' sv' w' cn']. cbn [next_ticket serving_ticket waiting cancelled] in *. f_equal.
  unfold USIZE_MAX. lia.
Qed.

(** Repairing restores the invariant from any state of the four fields. *)
Lemma repair_restores st :
  (next_ticket st <= U64_MAX)%N -> (serving_ticket st <= U64_MAX)%N ->
  exists live, lane_inv (repair_lane_state st) live.
Proof.
  intros Hn Hs. unfold repair_lane_state.
  set (nx := N.max (next_ticket st) (serving_ticket st)).
  set (cn := filter (fun t => serving_ticket st <= t /\ t < nx)%N (cancelled st)).
  set (live := ticket_range (serving_ticket st) (nx - serving_ticket st) ∖ cn).
  set (st1 := mkLane nx (serving_ticket st) (N.of_nat (size live)) cn).
  assert (Hi : lane_inv st1 live).
  { split; cbn [st1 next_ticket serving_ticket waiting cancelled]; try lia; [|set_solver].
    intros t. unfold live. rewrite elem_of_difference, ticket_range_elem.
    destruct (decide (t ∈ cn)) as [Hc|Hc].
    - assert (serving_ticket st <= t /\ t < nx)%N by (by apply elem_of_filter in Hc as [? _]).
      split; [auto|]. lia.
    - split; [intros; left; split; [lia|done]|]. intros [[? _]|?]; [lia|done]. }
  exists live. pose proof (lane_inv_advance _ _ Hi) as Ha.
  assert (Ea : forall w, advance_cancelled (mkLane nx (serving_ticket st) w cn)
    = mkLane nx (serving_ticket (advance_cancelled st1)) w (cancelled (advance_cancelled st1))).
  { intros w. unfold advance_cancelled. cbn [cancelled st1]. generalize (size cn). intros fuel.
    unfold st1. generalize (serving_ticket st). generalize cn. clear. induction fuel as [|fuel IH]; intros cn0 sv0; [done|].
    cbn [advance_loop serving_ticket next_ticket waiting cancelled]. case_decide; [apply IH|done]. }
  rewrite Ea. cbn [next_ticket serving_ticket waiting cancelled].
  pose proof (lane_inv_count _ _ Ha) as Hcount. pose proof (inv_width _ _ Ha) as Hw.
  pose proof (advance_next st1) as En. cbn [st1 next_ticket] in En.
  destruct (advance_cancelled st1) as [nx' sv' w' cn'] eqn:E. cbn [next_ticket serving_ticket waiting cancelled] in *.
  subst nx'. destruct Ha as [H1 H2 H3 H4 H5]. cbn [next_ticket serving_ticket waiting cancelled] in *.
  split; cbn [next_ticket serving_ticket waiting cancelled]; auto.
  unfold USIZE_MAX. lia.
Qed.

(** ** The registry

    A handle is one caller of [enqueue]: it clones the lane's [Arc] under the registry
    lock, then takes a ticket under the lane lock, waits for its turn, and finally
    drops the ticket. [lane_live] is the ghost set of a lane's outstanding tickets. *)

Inductive Stage : Type :=
| Looking
| Waiting (t : N)
| Granted (t : N).

Record Handle := mkHandle { h_key : string; h_lane : nat; h_stage : Stage }.

Record Lane := mkQueueLane { lane_state : QueueLaneState; lane_live : gset N }.

Record QueueRegistry := mkRegistry {
  reg_lanes : list (string * nat);
  lanes : gmap nat Lane;
  handles : gmap nat Handle;
  fresh_lane : nat
}.

Definition registry_default : QueueRegistry :=
  {| reg_lanes := []; lanes := ∅; handles := ∅; fresh_lane := 0 |}.

Definition held_ticket (stage : Stage) : option N :=
  match stage with Looking => None | Waiting t | Granted t => Some t end.

(** [state.waiting == 0 && Arc::strong_count(lane) == 1]. *)
Definition lane_idle (s : QueueRegistry) (id : nat) : bool :=
  match lanes s !! id with
  | Some lane =>
      (waiting (lane_state lane) =? 0)%N
      && bool_decide (map_Forall (fun _ hd => h_lane hd <> id) (handles s))
  | None => false
  end.

Definition prune_empty_lanes (s : QueueRegistry) : QueueRegistry :=
  {| reg_lanes := bt_retain (fun _ id => negb (lane_idle s id)) (reg_lanes s);
     lanes := lanes s; handles := handles s; fresh_lane := fresh_lane s |}.

(** The registry's part of [enqueue], by the new handle [h]. *)
Definition lookup_lane (h : nat) (key : string) (s : QueueRegistry)
    : QueueRegistry * result unit LeaseQueueError :=
  let s := prune_empty_lanes s in
  match bt_get key (reg_lanes s) with
  | Some id =>
      ({| reg_lanes := reg_lanes s; lanes := lanes s;
          handles := <[h := mkHandle key id Looking]> (handles s); fresh_lane := fresh_lane s |}, Ok tt)
  | None =>
      if (MAX_QUEUE_LANES <=? len_N (reg_lanes s))%N then (s, Err (LaneLimit MAX_QUEUE_LANES))
      else
        let id := fresh_lane s in
        ({| reg_lanes := bt_insert key id (reg_lanes s);
            lanes := <[id := mkQueueLane lane_default ∅]> (lanes s);
            handles := <[h := mkHandle key id Looking]> (handles s);
            fresh_lane := S id |}, Ok tt)
  end.

Definition set_lane (id : nat) (lane : Lane) (hs : gmap nat Handle) (s : QueueRegistry) : QueueRegistry :=
  {| reg_lanes := reg_lanes s; lanes := <[id := lane]> (lanes s); handles := hs;
     fresh_lane := fresh_lane s |}.

(** One critical section of one handle. *)
Inductive queue_step (s : QueueRegistry) : QueueRegistry -> Prop :=
| step_lookup h key :
    handles s !! h = None -> queue_step s (lookup_lane h key s).1
| step_full h hd lane depth st err :
    handles s !! h = Some hd -> h_stage hd = Looking -> lanes s !! h_lane hd = Some lane ->
    lane_enqueue (h_key hd) depth (lane_state lane) = (st, Err err) ->
    queue_step s (set_lane (h_lane hd) (mkQueueLane st (lane_live lane)) (delete h (handles s)) s)
| step_enter h hd lane depth st pos :
    handles s !! h = Some hd -> h_stage hd = Looking -> lanes s !! h_lane hd = Some lane ->
    (next_ticket (lane_state lane) < U64_MAX)%N -> (depth <= USIZE_MAX)%N ->
    lane_enqueue (h_key hd) depth (lane_state lane) = (st, Ok pos) ->
    queue_step s (set_lane (h_lane hd) (mkQueueLane st ({[ticket pos]} ∪ lane_live lane))
                    (<[h := mkHandle (h_key hd) (h_lane hd) (Waiting (ticket pos))]> (handles s)) s)
| step_turn h hd lane t now deadline st outcome :
    handles s !! h = Some hd -> h_stage hd = Waiting t -> lanes s !! h_lane hd = Some lane ->
    wait_turn (h_key hd) t now deadline (lane_state lane) = (st, outcome) ->
    queue_step s (set_lane (h_lane hd) (mkQueueLane st (lane_live lane))
                    (match outcome with
                     | Some (Ok _) => <[h := mkHandle (h_key hd) (h_lane hd) (Granted t)]> (handles s)
                     | _ => handles s
                     end) s)
| step_complete h hd lane t :
    handles s !! h = Some hd -> h_stage hd = Granted t -> lanes s !! h_lane hd = Some lane ->
    queue_step s (set_lane (h_lane hd)
                    (mkQueueLane (lane_finish t false false (lane_state lane)) (lane_live lane ∖ {[t]}))
                    (delete h (handles s)) s)
| step_drop h hd lane t :
    handles s !! h = Some hd -> held_ticket (h_stage hd) = Some t -> lanes s !! h_lane hd = Some lane ->
    queue_step s (set_lane (h_lane hd)
                    (mkQueueLane (lane_finish t true false (lane_state lane)) (lane_live lane ∖ {[t]}))
                    (delete h (handles s)) s).

(** The invariant: handles keep their lane registered under their key, the registry is
    injective, every lane satisfies its invariant with its handles' tickets as the live
    ones, and a granted ticket is the served one. *)
Record registry_inv (s : QueueRegistry) : Prop := {
  ri_wf : bt_wf (reg_lanes s);
  ri_registered h hd : handles s !! h = Some hd -> bt_get (h_key hd) (reg_lanes s) = Some (h_lane hd);
  ri_injective k k' id : bt_get k (reg_lanes s) = Some id -> bt_get k' (reg_lanes s) = Some id -> k = k';
  ri_lane k id : bt_get k (reg_lanes s) = Some id -> is_Some (lanes s !! id);
  ri_fresh id lane : lanes s !! id = Some lane -> (id < fresh_lane s)%nat;
  ri_inv id lane : lanes s !! id = Some lane -> lane_inv (lane_state lane) (lane_live lane);
  ri_live id lane t : lanes s !! id = Some lane ->
    t ∈ lane_live lane <->
    exists h hd, handles s !! h = Some hd /\ h_lane hd = id /\ held_ticket (h_stage hd) = Some t;
  ri_unique h h' hd hd' t : handles s !! h = Some hd -> handles s !! h' = Some hd' ->
    h_lane hd = h_lane hd' -> held_ticket (h_stage hd) = Some t -> held_ticket (h_stage hd') = Some t -> h = h';
  ri_granted h hd lane t : handles s !! h = Some hd -> h_stage hd = Granted t ->
    lanes s !! h_lane hd = Some lane -> serving_ticket (lane_state lane) = t
}.

Lemma registry_inv_default : registry_inv registry_default.
Proof. split; try done; [apply bt_nil_wf]. Qed.

Lemma handle_lane s h hd : registry_inv s -> handles s !! h = Some hd -> exists lane, lanes s !! h_lane hd = Some lane.
Proof. intros Hi Hh. by eapply (ri_lane _ Hi), (ri_registered _ Hi). Qed.

(** Pruning removes no lane a handle refers to. *)
Lemma prune_get s k id :
  registry_inv s ->
  bt_get k (reg_lanes (prune_empty_lanes s)) = Some id <->
  bt_get k (reg_lanes s) = Some id /\ lane_idle s id = false.
Proof.
  intros Hi. cbn [prune_empty_lanes reg_lanes]. rewrite bt_get_retain by apply Hi.
  destruct (bt_get k (reg_lanes s)) as [id'|]; [|split; [done|by intros [? ?]]].
  cbn [opt_filter]. destruct (lane_idle s id') eqn:E; cbn [negb]; split.
  - done.
  - intros [ [= ->] H]. congruence.
  - by intros [= ->].
  - by intros [ [= ->] _].
Qed.

Lemma lane_idle_handle s h hd : handles s !! h = Some hd -> lane_idle s (h_lane hd) = false.
Proof.
  intros Hh. unfold lane_idle. case_match; [|done].
  rewrite (bool_decide_eq_false_2 (map_Forall _ _)); [apply andb_false_r|].
  intros Hall. by apply (Hall h hd Hh).
Qed.

Lemma registry_inv_prune s : registry_inv s -> registry_inv (prune_empty_lanes s).
Proof.
  intros Hi. split; try apply Hi.
  - apply bt_retain_wf, Hi.
  - intros h hd Hh. apply prune_get; [done|]. split; [by eapply ri_registered|by eapply lane_idle_handle].
  - intros k k' id [H1 _]%prune_get [H2 _]%prune_get; [|done..]. by eapply (ri_injective _ Hi).
  - intros k id [H1 _]%prune_get; [|done]. by eapply (ri_lane _ Hi).
Qed.

(** ** Lemmas: steps of the registry *)

(** The handles after handle [h] moved to a new stage, or was dropped. *)
Definition restage (h : nat) (hd : Handle) (stage : option Stage) (hs : gmap nat Handle) : gmap nat Handle :=
  match stage with
  | Some stg => <[h := mkHandle (h_key hd) (h_lane hd) stg]> hs
  | None => delete h hs
  end.

Lemma restage_lookup h hd stage hs h' hd' :
  restage h hd stage hs !! h' = Some hd' <->
  (h' = h /\ exists stg, stage = Some stg /\ hd' = mkHandle (h_key hd) (h_lane hd) stg)
  \/ (h' <> h /\ hs !! h' = Some hd').
Proof.
  destruct stage as [stg|]; simpl.
  - rewrite lookup_insert_Some. naive_solver.
  - rewrite lookup_delete_Some. naive_solver.
Qed.

(** A step of one handle on its lane keeps the invariant if the lane does, the live
    tickets follow the handle's, and granted tickets stay the served one. *)
Lemma registry_inv_local s h hd lane lane' stage :
  registry_inv s -> handles s !! h = Some hd -> lanes s !! h_lane hd = Some lane ->
  lane_inv (lane_state lane') (lane_live lane') ->
  (forall t, t ∈ lane_live lane' <->
     (stage ≫= held_ticket) = Some t \/ (t ∈ lane_live lane /\ held_ticket (h_stage hd) <> Some t)) ->
  (forall t, (stage ≫= held_ticket) = Some t -> t ∉ lane_live lane \/ held_ticket (h_stage hd) = Some t) ->
  (forall t, stage = Some (Granted t) -> serving_ticket (lane_state lane') = t) ->
  (forall h' hd' t, h' <> h -> handles s !! h' = Some hd' -> h_lane hd' = h_lane hd ->
     h_stage hd' = Granted t -> serving_ticket (lane_state lane') = t) ->
  registry_inv (set_lane (h_lane hd) lane' (restage h hd stage (handles s)) s).
Proof.
  intros Hi Hh Hl Hinv Hlive Hnew Hgr Hogr.
  assert (Hother : forall h' hd' t, h' <> h -> handles s !! h' = Some hd' -> h_lane hd' = h_lane hd ->
    held_ticket (h_stage hd') = Some t -> t ∈ lane_live lane /\ held_ticket (h_stage hd) <> Some t).
  { intros h' hd' t Hne Hh' El Et. split; [apply (ri_live _ Hi _ _ t Hl); eauto|].
    intros Et'. destruct Hne. by eapply (ri_unique _ Hi). }
  split; cbn [set_lane reg_lanes lanes handles fresh_lane]; try apply Hi.
  - intros h' hd' [ (-> & stg & _ & ->) | [_ Hh'] ]%restage_lookup; [|by eapply (ri_registered _ Hi)].
    exact (ri_registered _ Hi h hd Hh).
  - intros k id Hk. destruct (decide (id = h_lane hd)) as [->|]; [by rewrite lookup_insert_eq|].
    rewrite lookup_insert_ne by done. by eapply (ri_lane _ Hi).
  - intros id lane0. destruct (decide (id = h_lane hd)) as [->|]; [intros _; by eapply (ri_fresh _ Hi)|].
    rewrite lookup_insert_ne by done. apply (ri_fresh _ Hi).
  - intros id lane0. destruct (decide (id = h_lane hd)) as [->|].
    + rewrite lookup_insert_eq. by intros [= <-].
    + rewrite lookup_insert_ne by done. apply (ri_inv _ Hi).
  - intros id lane0 t. setoid_rewrite restage_lookup. destruct (decide (id = h_lane hd)) as [->|Hne].
    + rewrite lookup_insert_eq. intros [= <-]. rewrite Hlive. split.
      * intros [Ht|[Ht Hn]].
        -- destruct stage as [stg|]; [|done]. exists h, (mkHandle (h_key hd) (h_lane hd) stg).
           split; [left; eauto|]. split; [done|exact Ht].
        -- apply (ri_live _ Hi _ _ t Hl) in Ht as (h' & hd' & Hh' & El & Et).
           exists h', hd'. split; [|done]. right. split; [|done]. intros ->. congruence.
      * intros (h' & hd' & [ (-> & stg & -> & ->) | [Hne Hh'] ] & El & Et); [by left|].
        right. by eapply Hother.
    + rewrite lookup_insert_ne by done. intros Hl0. rewrite (ri_live _ Hi _ _ t Hl0). split.
      * intros (h' & hd' & Hh' & El & Et). exists h', hd'. split; [|done]. right. split; [|done].
        intros ->. congruence.
      * intros (h' & hd' & [ (-> & stg & -> & ->) | [_ Hh'] ] & El & Et); [done|]. eauto.
  - intros h1 h2 hd1 hd2 t H1 H2. rewrite restage_lookup in H1, H2.
    destruct H1 as [ (-> & s1 & E1 & ->) | [N1 H1] ], H2 as [ (-> & s2 & E2 & ->) | [N2 H2] ];
      cbn [h_lane h_stage]; intros El T1 T2; [done|..].
    + destruct (Hother h2 hd2 t) as [Ha Hb]; [done..|]. exfalso.
      destruct (Hnew t) as [|]; [by rewrite E1|done..].
    + destruct (Hother h1 hd1 t) as [Ha Hb]; [done..|]. exfalso.
      destruct (Hnew t) as [|]; [by rewrite E2|done..].
    + by eapply (ri_unique _ Hi).
  - intros h' hd' lane0 t [ (-> & stg & E & ->) | [Hne Hh'] ]%restage_lookup; cbn [h_lane h_stage].
    + intros ->. rewrite lookup_insert_eq. intros [= <-]. by apply Hgr.
    + intros Eg. destruct (decide (h_lane hd' = h_lane hd)) as [El|El].
      * rewrite El, lookup_insert_eq. intros [= <-]. by eapply Hogr.
      * rewrite lookup_insert_ne by done. by eapply (ri_granted _ Hi).
Qed.

(** With a granted ticket on the lane, skipping cancelled tickets does nothing. *)
Lemma granted_advance s h hd lane t :
  registry_inv s -> handles s !! h = Some hd -> lanes s !! h_lane hd = Some lane -> h_stage hd = Granted t ->
  advance_cancelled (lane_state lane) = lane_state lane /\ serving_ticket (lane_state lane) = t.
Proof.
  intros Hi Hh Hl Hg. pose proof (ri_granted _ Hi _ _ _ _ Hh Hg Hl) as E. split; [|done].
  eapply advance_id_of_live; [by eapply (ri_inv _ Hi)|]. rewrite E.
  apply (ri_live _ Hi _ _ t Hl). exists h, hd. by rewrite Hg.
Qed.

Lemma registry_inv_lookup s h key :
  registry_inv s -> handles s !! h = None -> registry_inv (lookup_lane h key s).1.
Proof.
  intros Hi%registry_inv_prune Hh. unfold lookup_lane.
  change (handles s) with (handles (prune_empty_lanes s)) in Hh.
  generalize dependent (prune_empty_lanes s). clear s. intros s Hi Hh. cbv zeta.
  assert (Hlook : forall id h' hd' t, <[h := mkHandle key id Looking]> (handles s) !! h' = Some hd' ->
    held_ticket (h_stage hd') = Some t -> handles s !! h' = Some hd').
  { intros id h' hd' t [ [<- <-] | [_ ?] ]%lookup_insert_Some; done. }
  destruct (bt_get key (reg_lanes s)) as [id|] eqn:Ek; cbn [fst].
  - split; cbn [reg_lanes lanes handles fresh_lane]; try apply Hi.
    + intros h' hd' [ [<- <-] | [_ ?] ]%lookup_insert_Some; [done|by eapply (ri_registered _ Hi)].
    + intros id' lane t Hl. rewrite (ri_live _ Hi _ _ t Hl). split.
      * intros (h' & hd' & Hh' & El & Et). exists h', hd'. rewrite lookup_insert_ne by congruence. done.
      * intros (h' & hd' & Hh' & El & Et). exists h', hd'. split; [by eapply Hlook|done].
    + intros h1 h2 hd1 hd2 t H1 H2 El T1 T2. eapply (ri_unique _ Hi); eauto.
    + intros h' hd' lane t Hh' Hg. eapply (ri_granted _ Hi); [eapply (Hlook _ _ _ t)|]; eauto. by rewrite Hg.
  - case_stuck; [done|]. cbn [fst]. split; cbn [reg_lanes lanes handles fresh_lane].
    + apply bt_insert_wf, Hi.
    + intros h' hd' [ [<- <-] | [_ Hh'] ]%lookup_insert_Some; cbn; [apply bt_get_insert_eq|].
      pose proof (ri_registered _ Hi _ _ Hh') as Hr. rewrite bt_get_insert_ne; [done|]. congruence.
    + intros k k' id. destruct (decide (k = key)) as [->|N1], (decide (k' = key)) as [->|N2];
        rewrite ?bt_get_insert_eq, ?bt_get_insert_ne by done; [done|..|apply (ri_injective _ Hi)].
      all: intros H1 H2; exfalso; simplify_eq.
      * destruct (ri_lane _ Hi _ _ H2) as [l Hl]. apply (ri_fresh _ Hi) in Hl. lia.
      * destruct (ri_lane _ Hi _ _ H1) as [l Hl]. apply (ri_fresh _ Hi) in Hl. lia.
    + intros k id. destruct (decide (id = fresh_lane s)) as [->|]; [by rewrite lookup_insert_eq|].
      rewrite lookup_insert_ne by done. destruct (decide (k = key)) as [->|].
      * rewrite bt_get_insert_eq. congruence.
      * rewrite bt_get_insert_ne by done. apply (ri_lane _ Hi).
    + intros id lane [ [<- _] | [_ Hl] ]%lookup_insert_Some; [lia|]. apply (ri_fresh _ Hi) in Hl. lia.
    + intros id lane [ [<- <-] | [_ Hl] ]%lookup_insert_Some; [apply lane_inv_default|by eapply (ri_inv _ Hi)].
    + intros id lane t Hl. apply lookup_insert_Some in Hl as [ [<- <-] | [Hne Hl] ].
      * cbn [lane_live]. split; [set_solver|]. intros (h' & hd' & Hh' & El & Et). exfalso.
        apply (Hlook _ _ _ t) in Hh'; [|done]. destruct (handle_lane _ _ _ Hi Hh') as [l Hl].
        apply (ri_fresh _ Hi) in Hl. lia.
      * rewrite (ri_live _ Hi _ _ t Hl). split.
        -- intros (h' & hd' & Hh' & El & Et). exists h', hd'. rewrite lookup_insert_ne by congruence. done.
        -- intros (h' & hd' & Hh' & El & Et). exists h', hd'. split; [by eapply Hlook|done].
    + intros h1 h2 hd1 hd2 t H1 H2 El T1 T2. eapply (ri_unique _ Hi); eauto.
    + intros h' hd' lane t Hh' Hg Hl. apply (Hlook _ _ _ t) in Hh'; [|by rewrite Hg].
      destruct (handle_lane _ _ _ Hi Hh') as [l Hl']. pose proof (ri_fresh _ Hi _ _ Hl').
      rewrite lookup_insert_ne in Hl by lia. by eapply (ri_granted _ Hi).
Qed.

Lemma wait_turn_state key t now deadline st :
  (wait_turn key t now deadline st).1 = advance_cancelled st.
Proof. unfold wait_turn. repeat case_stuck; done. Qed.

Lemma wait_turn_granted key t now deadline st st' u :
  wait_turn key t now deadline st = (st', Some (Ok u)) -> serving_ticket st' = t.
Proof. unfold wait_turn. repeat case_stuck; intros; simplify_eq. by bool_prop. Qed.

Lemma registry_inv_enter s h hd lane depth st pos :
  registry_inv s -> handles s !! h = Some hd -> h_stage hd = Looking -> lanes s !! h_lane hd = Some lane ->
  (next_ticket (lane_state lane) < U64_MAX)%N -> (depth <= USIZE_MAX)%N ->
  lane_enqueue (h_key hd) depth (lane_state lane) = (st, Ok pos) ->
  registry_inv (set_lane (h_lane hd) (mkQueueLane st ({[ticket pos]} ∪ lane_live lane))
                  (restage h hd (Some (Waiting (ticket pos))) (handles s)) s).
Proof.
  intros Hi Hh Hst Hl Hn Hd He. pose proof (ri_inv _ Hi _ _ Hl) as Hli.
  destruct (N.lt_ge_cases (waiting (lane_state lane)) (N.max depth 1)) as [Hw|Hw];
    [|rewrite lane_enqueue_Full in He by done; done].
  destruct (lane_enqueue_Ok (h_key hd) depth (lane_state lane) (lane_live lane) Hli Hn Hd Hw)
    as (st' & pos' & E & Ht & Hfresh & Hinv & _). rewrite He in E. injection E as <- <-.
  apply (registry_inv_local s h hd lane); cbn [lane_state lane_live]; auto; rewrite ?Hst.
  - intros t. cbn. rewrite elem_of_union, elem_of_singleton. naive_solver.
  - intros t [= <-]. by left.
  - done.
  - intros h' hd' t _ Hh' El Hg. rewrite <- El in Hl.
    destruct (granted_advance s h' hd' lane t Hi Hh' Hl Hg) as [Ea Es].
    unfold lane_enqueue in He. rewrite Ea in He. case_stuck_in He; [done|]. by injection He as <- <-.
Qed.

Lemma registry_inv_turn s h hd lane t now deadline st outcome :
  registry_inv s -> handles s !! h = Some hd -> h_stage hd = Waiting t -> lanes s !! h_lane hd = Some lane ->
  wait_turn (h_key hd) t now deadline (lane_state lane) = (st, outcome) ->
  registry_inv (set_lane (h_lane hd) (mkQueueLane st (lane_live lane))
                  (restage h hd (Some match outcome with Some (Ok _) => Granted t | _ => Waiting t end)
                     (handles s)) s).
Proof.
  intros Hi Hh Hst Hl Hw. pose proof (ri_inv _ Hi _ _ Hl) as Hli.
  pose proof (wait_turn_state (h_key hd) t now deadline (lane_state lane)) as Es. rewrite Hw in Es. cbn in Es. subst st.
  assert (Hheld : held_ticket match outcome with Some (Ok _) => Granted t | _ => Waiting t end = Some t).
  { by destruct outcome as [ [] |]. }
  assert (Ht : t ∈ lane_live lane) by (apply (ri_live _ Hi _ _ t Hl); exists h, hd; by rewrite Hst).
  apply (registry_inv_local s h hd lane); cbn [lane_state lane_live mbind option_bind]; auto;
    rewrite ?Hst, ?Hheld; cbn [held_ticket].
  - by apply lane_inv_advance.
  - intros u. destruct (decide (u = t)); naive_solver.
  - intros u [= <-]. by right.
  - intros u Hg. destruct outcome as [ [u0|]|]; simplify_eq. by eapply wait_turn_granted.
  - intros h' hd' u _ Hh' El Hg. rewrite <- El in Hl.
    destruct (granted_advance s h' hd' lane u Hi Hh' Hl Hg) as [-> Es]. done.
Qed.

Lemma registry_inv_finish s h hd lane t c :
  registry_inv s -> handles s !! h = Some hd -> held_ticket (h_stage hd) = Some t ->
  lanes s !! h_lane hd = Some lane -> h_stage hd = Granted t \/ c = true ->
  registry_inv (set_lane (h_lane hd)
                  (mkQueueLane (lane_finish t c false (lane_state lane)) (lane_live lane ∖ {[t]}))
                  (restage h hd None (handles s)) s).
Proof.
  intros Hi Hh Hst Hl Hc. pose proof (ri_inv _ Hi _ _ Hl) as Hli.
  assert (Ht : t ∈ lane_live lane) by (apply (ri_live _ Hi _ _ t Hl); eauto).
  apply (registry_inv_local s h hd lane); cbn [lane_state lane_live mbind option_bind]; auto.
  - apply lane_finish_inv; [done..|]. destruct Hc as [Hg|]; [left|by right].
    symmetry. by eapply (ri_granted _ Hi).
  - intros u. rewrite elem_of_difference, elem_of_singleton, Hst. naive_solver.
  - done.
  - done.
  - intros h' hd' u Hne Hh' El Hg. pose proof Hl as Hl'. rewrite <- El in Hl'.
    destruct (granted_advance s h' hd' lane u Hi Hh' Hl' Hg) as [_ Es].
    assert (t <> serving_ticket (lane_state lane)) as Hn.
    { intros Ets. apply Hne. eapply (ri_unique _ Hi); eauto. rewrite Hg. cbn. congruence. }
    unfold lane_finish. cbn [serving_ticket next_ticket waiting cancelled].
    rewrite (proj2 (N.eqb_neq _ _) Hn). by case_stuck.
Qed.

Lemma restage_same h hd hs stg : hs !! h = Some hd -> h_stage hd = stg -> restage h hd (Some stg) hs = hs.
Proof. intros Hh <-. simpl. destruct hd. by rewrite insert_id. Qed.

Lemma registry_inv_step s s' : registry_inv s -> queue_step s s' -> registry_inv s'.
Proof.
  intros Hi Hs. destruct Hs as [h key Hh|h hd lane depth st err Hh Hst Hl He|h hd lane depth st pos Hh Hst Hl Hn Hd He
    |h hd lane t now deadline st outcome Hh Hst Hl Hw|h hd lane t Hh Hst Hl|h hd lane t Hh Hst Hl].
  - by apply registry_inv_lookup.
  - unfold lane_enqueue in He. case_stuck_in He; [|done]. injection He as <- _.
    apply (registry_inv_local s h hd lane _ None); cbn [lane_state lane_live mbind option_bind]; auto;
      rewrite ?Hst; try done; [by eapply (ri_inv _ Hi)|naive_solver|].
    intros h' hd' t _ Hh' El Hg. rewrite <- El in Hl. by eapply (ri_granted _ Hi).
  - by eapply registry_inv_enter.
  - pose proof (registry_inv_turn s h hd lane t now deadline st outcome Hi Hh Hst Hl Hw) as H.
    destruct outcome as [ [u|e]|]; [exact H|..]; by rewrite (restage_same h hd) in H by done.
  - apply (registry_inv_finish s h hd lane t false); auto. by rewrite Hst.
  - apply (registry_inv_finish s h hd lane t true); auto.
Qed.

Definition queue_reachable : QueueRegistry -> Prop := reachable (fun s => s = registry_default) queue_step.

Lemma queue_reachable_inv s : queue_reachable s -> registry_inv s.
Proof. apply reachable_invariant; [intros ? ->; apply registry_inv_default|apply registry_inv_step]. Qed.

(** * Properties *)

(** C4: at most one caller per lane key holds the head of the queue, in
    every interleaving of enqueues, waits, completions and cancellations, with lanes
    pruned and created in between; and the head is the oldest ticket still waiting
    under that key (first come, first served). *)
Theorem queue_head_exclusive s h hd t :
  queue_reachable s -> handles s !! h = Some hd -> h_stage hd = Granted t ->
  forall h' hd' t', handles s !! h' = Some hd' -> h_key hd' = h_key hd ->
    held_ticket (h_stage hd') = Some t' ->
    (t <= t')%N /\ (h_stage hd' = Granted t' -> h' = h).
Proof.
  intros Hr%queue_reachable_inv Hh Hg h' hd' t' Hh' Ek Ht'.
  assert (El : h_lane hd' = h_lane hd).
  { pose proof (ri_registered _ Hr _ _ Hh) as E. pose proof (ri_registered _ Hr _ _ Hh') as E'. congruence. }
  destruct (handle_lane s h hd Hr Hh) as [lane Hl].
  destruct (granted_advance s h hd lane t Hr Hh Hl Hg) as [_ <-].
  assert (Hlive : t' ∈ lane_live lane) by (apply (ri_live _ Hr _ _ _ Hl); eauto).
  split; [apply (inv_cover _ _ (ri_inv _ Hr _ _ Hl)); auto|].
  intros Hg'. rewrite <- El in Hl. destruct (granted_advance s h' hd' lane t' Hr Hh' Hl Hg') as [_ Es].
  eapply (ri_unique _ Hr); eauto. rewrite Hg. cbn. congruence.
Qed.

(** C12: no lane is ever stuck: whenever a ticket is outstanding under a
    key, some caller of that lane holds a ticket that its next look at the queue finds
    at the head, whatever the clock and the deadline say. *)
Theorem queue_never_stuck s h hd t :
  queue_reachable s -> handles s !! h = Some hd -> held_ticket (h_stage hd) = Some t ->
  exists h' hd' t' lane, handles s !! h' = Some hd' /\ h_lane hd' = h_lane hd
    /\ held_ticket (h_stage hd') = Some t' /\ lanes s !! h_lane hd = Some lane
    /\ forall now deadline, (wait_turn (h_key hd') t' now deadline (lane_state lane)).2 = Some (Ok tt).
Proof.
  intros Hr%queue_reachable_inv Hh Ht. destruct (handle_lane s h hd Hr Hh) as [lane Hl].
  destruct (head_is_live (lane_state lane) (lane_live lane)) as [Hhead _].
  - by eapply (ri_inv _ Hr).
  - assert (t ∈ lane_live lane) by (apply (ri_live _ Hr _ _ _ Hl); eauto). set_solver.
  - apply (ri_live _ Hr _ _ _ Hl) in Hhead as (h' & hd' & Hh' & El & Et).
    exists h', hd', (serving_ticket (advance_cancelled (lane_state lane))), lane.
    repeat (split; [done|]). intros now deadline. unfold wait_turn. by rewrite N.eqb_refl.
Qed.

(** ** An executable form of the steps *)

Inductive queue_event : Type :=
| EvLookup (h : nat) (key : string)
| EvEnter (h : nat) (depth : N)
| EvTurn (h : nat) (now deadline : N)
| EvComplete (h : nat)
| EvDrop (h : nat).

(** The handle, its lane and its stage, when both exist. *)
Definition handle_view (s : QueueRegistry) (h : nat) : option (Handle * Lane) :=
  hd ← handles s !! h; lane ← lanes s !! h_lane hd; Some (hd, lane).

Definition exec_event (e : queue_event) (s : QueueRegistry) : option QueueRegistry :=
  match e with
  | EvLookup h key =>
      match handles s !! h with Some _ => None | None => Some (lookup_lane h key s).1 end
  | EvEnter h depth =>
      '(hd, lane) ← handle_view s h;
      match h_stage hd with
      | Looking =>
          match lane_enqueue (h_key hd) depth (lane_state lane) with
          | (st, Ok pos) =>
              if ((next_ticket (lane_state lane) <? U64_MAX) && (depth <=? USIZE_MAX))%N then
                Some (set_lane (h_lane hd) (mkQueueLane st ({[ticket pos]} ∪ lane_live lane))
                        (<[h := mkHandle (h_key hd) (h_lane hd) (Waiting (ticket pos))]> (handles s)) s)
              else None
          | (st, Err _) =>
              Some (set_lane (h_lane hd) (mkQueueLane st (lane_live lane)) (delete h (handles s)) s)
          end
      | _ => None
      end
  | EvTurn h now deadline =>
      '(hd, lane) ← handle_view s h;
      match h_stage hd with
      | Waiting t =>
          let '(st, outcome) := wait_turn (h_key hd) t now deadline (lane_state lane) in
          Some (set_lane (h_lane hd) (mkQueueLane st (lane_live lane))
                  (match outcome with
                   | Some (Ok _) => <[h := mkHandle (h_key hd) (h_lane hd) (Granted t)]> (handles s)
                   | _ => handles s
                   end) s)
      | _ => None
      end
  | EvComplete h =>
      '(hd, lane) ← handle_view s h;
      match h_stage hd with
      | Granted t =>
          Some (set_lane (h_lane hd)
                  (mkQueueLane (lane_finish t false false (lane_state lane)) (lane_live lane ∖ {[t]}))
                  (delete h (handles s)) s)
      | _ => None
      end
  | EvDrop h =>
      '(hd, lane) ← handle_view s h;
      t ← held_ticket (h_stage hd);
      Some (set_lane (h_lane hd)
              (mkQueueLane (lane_finish t true false (lane_state lane)) (lane_live lane ∖ {[t]}))
              (delete h (handles s)) s)
  end.

Fixpoint exec_events (es : list queue_event) (s : QueueRegistry) : option QueueRegistry :=
  match es with [] => Some s | e :: es => s' ← exec_event e s; exec_events es s' end.

Lemma handle_view_Some s h hd lane :
  handle_view s h = Some (hd, lane) -> handles s !! h = Some hd /\ lanes s !! h_lane hd = Some lane.
Proof.
  unfold handle_view. destruct (handles s !! h) as [hd'|] eqn:Eh; [|done]. simpl.
  destruct (lanes s !! h_lane hd') eqn:El; [|done]. by intros [= <- <-].
Qed.

Lemma exec_event_step e s s' : exec_event e s = Some s' -> queue_step s s'.
Proof.
  destruct e as [h key|h depth|h now deadline|h|h]; simpl.
  - destruct (handles s !! h) eqn:E; [done|]. intros [= <-]. by apply step_lookup.
  - destruct (handle_view s h) as [ [hd lane] |] eqn:Ev; [|done]. apply handle_view_Some in Ev as [Hh Hl]. simpl.
    destruct (h_stage hd) eqn:Es; try done. destruct (lane_enqueue _ _ _) as [st [pos|err] ] eqn:Ee.
    + case_stuck; [|done]. bool_prop. intros [= <-]. by eapply step_enter.
    + intros [= <-]. by eapply step_full.
  - destruct (handle_view s h) as [ [hd lane] |] eqn:Ev; [|done]. apply handle_view_Some in Ev as [Hh Hl]. simpl.
    destruct (h_stage hd) eqn:Es; try done. destruct (wait_turn _ _ _ _ _) as [st outcome] eqn:Ew.
    intros [= <-]. by eapply step_turn.
  - destruct (handle_view s h) as [ [hd lane] |] eqn:Ev; [|done]. apply handle_view_Some in Ev as [Hh Hl]. simpl.
    destruct (h_stage hd) eqn:Es; try done. intros [= <-]. by eapply step_complete.
  - destruct (handle_view s h) as [ [hd lane] |] eqn:Ev; [|done]. apply handle_view_Some in Ev as [Hh Hl]. simpl.
    destruct (held_ticket (h_stage hd)) eqn:Es; [|done]. intros [= <-]. by eapply step_drop.
Qed.

Lemma exec_events_reachable es s s' : queue_reachable s -> exec_events es s = Some s' -> queue_reachable s'.
Proof.
  revert s. induction es as [|e es IH]; intros s Hr; simpl; [by intros [= <-]|].
  destruct (exec_event e s) as [s1|] eqn:E; [|done]. simpl. apply IH.
  eapply reachable_step; [exact Hr|by eapply exec_event_step].
Qed.

(** A concrete run: three callers of one key; the second gives up, the first is served. *)
Definition sample_events : list queue_event :=
  [EvLookup 0 "files"; EvEnter 0 8; EvLookup 1 "files"; EvEnter 1 8; EvLookup 2 "files"; EvEnter 2 8;
   EvDrop 1; EvTurn 0 5 100; EvTurn 2 6 100].

Definition sample_registry : QueueRegistry :=
  match exec_events sample_events registry_default with Some s => s | None => registry_default end.

Lemma sample_registry_reachable : queue_reachable sample_registry.
Proof.
  apply (exec_events_reachable sample_events registry_default); [by apply reachable_init|].
  vm_compute. reflexivity.
Qed.

Lemma queue_head_exclusive_witness :
  handles sample_registry !! 0%nat = Some (mkHandle "files" 0 (Granted 0))
  /\ handles sample_registry !! 2%nat = Some (mkHandle "files" 0 (Waiting 2)) /\ (0 <= 2)%N.
Proof.
  split; [reflexivity|]. split; [reflexivity|].
  apply (queue_head_exclusive sample_registry 0 (mkHandle "files" 0 (Granted 0)) 0 sample_registry_reachable
           eq_refl eq_refl 2 (mkHandle "files" 0 (Waiting 2)) 2 eq_refl eq_refl eq_refl).
Defined.

Lemma queue_never_stuck_witness :
  exists h' hd' t' lane, handles sample_registry !! h' = Some hd' /\ h_lane hd' = 0%nat
    /\ held_ticket (h_stage hd') = Some t' /\ lanes sample_registry !! 0%nat = Some lane
    /\ forall now deadline, (wait_turn (h_key hd') t' now deadline (lane_state lane)).2 = Some (Ok tt).
Proof.
  apply (queue_never_stuck sample_registry 2 (mkHandle "files" 0 (Waiting 2)) 2 sample_registry_reachable);
    reflexivity.
Defined.

(** Enqueueing on a healthy lane either hands out a fresh ticket
    behind every outstanding one, within the depth limit and keeping the lane
    invariant, or reports the lane full exactly when the limit is reached. *)
Theorem lane_enqueue_bounded key depth st live :
  lane_inv st live -> (next_ticket st < U64_MAX)%N -> (depth <= USIZE_MAX)%N ->
  (N.of_nat (size live) < N.max depth 1 /\
   exists st' pos, lane_enqueue key depth st = (st', Ok pos) /\ lane_inv st' ({[ticket pos]} ∪ live)
     /\ (forall t, t ∈ live -> (t < ticket pos)%N) /\ (depth_at_enqueue pos <= N.max depth 1))%N
  \/ (N.max depth 1 <= N.of_nat (size live))%N
      /\ lane_enqueue key depth st = (st, Err (Full key (N.max depth 1))).
Proof.
  intros Hi Hn Hd. rewrite <- (inv_waiting _ _ Hi).
  destruct (N.lt_ge_cases (waiting st) (N.max depth 1)) as [Hw|Hw]; [left|right; auto using lane_enqueue_Full].
  split; [done|]. destruct (lane_enqueue_Ok key depth st live Hi Hn Hd Hw) as (st' & pos & E & Ht & _ & Hi' & Hdep & _).
  exists st', pos. split; [done|]. split; [done|]. split.
  - intros t Hl. rewrite Ht. apply (inv_cover _ _ Hi). auto.
  - pose proof (inv_waiting _ _ Hi). rewrite Hdep. lia.
Qed.

Lemma lane_enqueue_bounded_witness :
  lane_enqueue "files" 0 (mkLane 1 0 1 ∅) = (mkLane 1 0 1 ∅, Err (Full "files" 1)).
Proof.
  destruct (lane_enqueue_bounded "files" 0 (mkLane 1 0 1 ∅) {[0%N]}) as [ [Hlt _] | [_ E] ].
  - split; cbn [serving_ticket next_ticket waiting cancelled]; [lia|unfold U64_MAX; lia|..|reflexivity].
    + intros t. rewrite elem_of_singleton. split; [intros; left; lia|intros [-> | ?]; [lia|set_solver] ].
    + set_solver.
  - unfold U64_MAX. cbn. lia.
  - unfold USIZE_MAX, U64_MAX. lia.
  - vm_compute in Hlt. discriminate Hlt.
  - exact E.
Defined.

(** Recovering a poisoned lane restores the lane invariant from any
    values of the four fields, and on a healthy lane it does nothing but skip
    cancelled tickets. *)
Theorem repair_lane_state_sound st :
  (next_ticket st <= U64_MAX)%N -> (serving_ticket st <= U64_MAX)%N ->
  (exists live, lane_inv (repair_lane_state st) live)
  /\ forall live, lane_inv st live -> repair_lane_state st = advance_cancelled st.
Proof. intros Hn Hs. split; [by apply repair_restores|intros live; apply repair_healthy]. Qed.

Lemma repair_lane_state_sound_witness :
  exists live, lane_inv (repair_lane_state (mkLane 3 5 9 {[1%N; 5%N]})) live.
Proof. apply (repair_lane_state_sound (mkLane 3 5 9 {[1%N; 5%N]})); vm_compute; discriminate. Defined.

(** Waiting for the head is sound and bounded by the deadline: the
    wait returns success only in a state that serves the ticket, and the first look
    at or after the deadline ends it one way or the other. *)
Theorem wait_until_head_sound key t deadline views :
  (wait_until_head key t deadline views = Some (Ok tt) ->
   exists v, v ∈ views /\ serving_ticket (advance_cancelled (view_state v)) = t)
  /\ (Exists (fun v => (deadline <= view_now v)%N) views -> wait_until_head key t deadline views <> None).
Proof.
  induction views as [|v views [IH1 IH2] ]; [split; [done|by intros ?%Exists_nil]|]. cbn [wait_until_head].
  unfold wait_turn. destruct (N.eqb_spec (serving_ticket (advance_cancelled (view_state v))) t) as [E|E]; cbn [snd].
  { split; [|done]. intros _. exists v. split; [by left|done]. }
  destruct (N.leb_spec deadline (view_now v)) as [Hd|Hd]; cbn [snd]; [done|].
  destruct (timed_out v && (deadline <=? now_after v)%N); [done|]. split.
  - intros H. destruct (IH1 H) as (v' & Hv & Hs). exists v'. split; [by right|done].
  - intros [?|H]%Exists_cons; [lia|auto].
Qed.

Lemma wait_until_head_sound_witness :
  exists v, v ∈ [mkView (mkLane 3 0 2 {[0%N]}) 5 false 6]
    /\ serving_ticket (advance_cancelled (view_state v)) = 1%N.
Proof.
  apply (wait_until_head_sound "files" 1 100 [mkView (mkLane 3 0 2 {[0%N]}) 5 false 6]).
  vm_compute. reflexivity.
Defined.
