(* ===== verification/SessionPool.v ===== *)
(** * The upstream session pool (src/upstream/session_pool.rs)

    Long-lived stdio workers, grouped by session key. A request checks a worker out,
    possibly starting it, and returns it or discards it. Every critical section of the
    pool mutex, and every unlocked write to a worker, is one step. *)

From Stdlib Require Import Ascii.
From S2P Require Import Prelude RustStr BTree.

Definition INITIALIZE_ID : Z := 1.
Definition METHOD_ID : Z := 2.

(** ** Keys: [#[derive(Ord)]] compares the fields in declaration order *)

Record UpstreamSessionKey := mkKey {
  root_path : string;
  server_name : string;
  settings_modified_ms : N;
  settings_len : N;
  server_fingerprint : string;
  client_id : string;
  session_id : string;
  project_root : string;
  transport : string;
  execution_mode : string;
  affinity_fingerprint : string
}.

Definition key_tuple (k : UpstreamSessionKey) :=
  (root_path k, (server_name k, (settings_modified_ms k, (settings_len k, (server_fingerprint k,
   (client_id k, (session_id k, (project_root k, (transport k, (execution_mode k,
    affinity_fingerprint k)))))))))).

Lemma key_tuple_inj a b : key_tuple a = key_tuple b -> a = b.
Proof. destruct a, b. unfold key_tuple. simpl. by intros [=]; subst. Qed.

#[export, refine] Instance session_key_order : KeyOrder UpstreamSessionKey := {
  key_cmp a b := key_cmp (key_tuple a) (key_tuple b)
}.
Proof.
  - intros a b. rewrite key_cmp_eq. split; [apply key_tuple_inj|by intros ->].
  - intros a b. apply key_cmp_antisym.
  - intros a b c. apply key_cmp_trans.
Defined.

(** ** Request ids *)

Definition next_request_id (current : Z) : Z * Z :=
  let next := Z.min (current + 1) I64_MAX in
  (current, if (next <=? INITIALIZE_ID)%Z then METHOD_ID else next).

(** ** Workers *)

(** [session] holds whether the child process has exited. *)
Record PooledUpstreamWorker := mkWorker {
  session : option bool;
  busy : bool;
  initialized : bool;
  last_used_ms : N;
  idle_ttl_ms : N
}.

Definition reserved (now ttl : N) : PooledUpstreamWorker :=
  {| session := None; busy := true; initialized := false; last_used_ms := now; idle_ttl_ms := N.max ttl 1 |}.

Definition claim_worker (ttl : N) (w : PooledUpstreamWorker) : PooledUpstreamWorker :=
  {| session := session w; busy := true; initialized := initialized w; last_used_ms := last_used_ms w;
     idle_ttl_ms := ttl |}.

Definition install_session (w : PooledUpstreamWorker) : PooledUpstreamWorker :=
  {| session := Some false; busy := busy w; initialized := true; last_used_ms := last_used_ms w;
     idle_ttl_ms := idle_ttl_ms w |}.

(** The worker after the stores of a failed checkout, before its group is touched. *)
Definition mark_failed (used : option N) (w : PooledUpstreamWorker) : PooledUpstreamWorker :=
  {| session := session w; busy := busy w; initialized := false;
     last_used_ms := unwrap_or used (last_used_ms w); idle_ttl_ms := idle_ttl_ms w |}.

Definition release_worker (used : option N) (w : PooledUpstreamWorker) : PooledUpstreamWorker :=
  {| session := session w; busy := false; initialized := initialized w;
     last_used_ms := unwrap_or used (last_used_ms w); idle_ttl_ms := idle_ttl_ms w |}.

(** The purge test: not busy, and idle for too long, exited or without a session;
    [lockable] is [try_lock] succeeding. *)
Definition stale_worker (now : N) (lockable : bool) (w : PooledUpstreamWorker) : bool :=
  if busy w then false
  else
    let idle := (idle_ttl_ms w <? now - last_used_ms w)%N in
    let exited_or_missing := if lockable then unwrap_or (session w) true else false in
    idle || exited_or_missing.

(** ** The pool *)

Section pool.
Context {K : Type} `{KeyOrder K}.

Definition Groups : Type := list (K * list nat).

Record Pool := mkPool {
  groups : Groups;
  workers : gmap nat PooledUpstreamWorker;
  max_sessions : N;
  fresh_worker : nat
}.

Definition with_max_sessions (n : N) : Pool :=
  {| groups := []; workers := ∅; max_sessions := N.max n 1; fresh_worker := 0 |}.

(** The registered workers, in iteration order. *)
Definition registered (gs : Groups) : list nat := flat_map snd gs.

Definition registered_session_count (p : Pool) : N := len_N (registered (groups p)).

Definition group_of (k : K) (gs : Groups) : list nat := unwrap_or (bt_get k gs) [].

(** Writing a group back: an emptied group is dropped from the map. *)
Definition set_group (k : K) (ids : list nat) (gs : Groups) : Groups :=
  match ids with [] => bt_remove k gs | _ => bt_insert k ids gs end.

Definition worker_busy (p : Pool) (id : nat) : bool :=
  match workers p !! id with Some w => busy w | None => false end.

(** The first worker of the group, among the first [limit], whose [busy] flag the
    compare-exchange can take. *)
Definition select_idle (p : Pool) (k : K) (limit : N) : option nat :=
  List.find (fun id => negb (worker_busy p id)) (firstn (N.to_nat limit) (group_of k (groups p))).

Fixpoint idle_in_group (p : Pool) (k : K) (index : nat) (ids : list nat) : list (K * nat * N) :=
  match ids with
  | [] => []
  | id :: rest =>
      match workers p !! id with
      | Some w => if busy w then idle_in_group p k (S index) rest
                  else (k, index, last_used_ms w) :: idle_in_group p k (S index) rest
      | None => idle_in_group p k (S index) rest
      end
  end.

(** [min_by_key]: the first of the smallest. *)
Definition min_by_last_used (cs : list (K * nat * N)) : option (K * nat * N) := min_by_key snd cs.

Definition set_groups (gs : Groups) (p : Pool) : Pool :=
  {| groups := gs; workers := workers p; max_sessions := max_sessions p; fresh_worker := fresh_worker p |}.

Definition remove_oldest_idle_worker (p : Pool) : Pool * option nat :=
  match min_by_last_used (flat_map (fun g => idle_in_group p (fst g) 0 (snd g)) (groups p)) with
  | None => (p, None)
  | Some (k, index, _) =>
      match bt_get k (groups p) with
      | None => (p, None)
      | Some ids => (set_groups (set_group k (delete index ids) (groups p)) p, ids !! index)
      end
  end.

Inductive CheckoutOutcome : Type :=
| Selected (id : nat) (hit : bool)
| Evicted (id : nat)
| MustWait.

(** One turn of the loop of [checkout], under the pool lock. *)
Definition checkout_turn (k : K) (worker_limit ttl now : N) (p : Pool) : Pool * CheckoutOutcome :=
  let limit := N.max worker_limit 1 in
  let ttl := N.max ttl 1 in
  match select_idle p k limit with
  | Some id =>
      ({| groups := groups p; workers := alter (claim_worker ttl) id (workers p);
          max_sessions := max_sessions p; fresh_worker := fresh_worker p |},
       Selected id match workers p !! id with Some w => initialized w | None => false end)
  | None =>
      let group_len := len_N (group_of k (groups p)) in
      let total := registered_session_count p in
      if ((group_len <? limit) && (total <? max_sessions p))%N then
        let id := fresh_worker p in
        ({| groups := bt_insert k (group_of k (groups p) ++ [id]) (groups p);
            workers := <[id := reserved now ttl]> (workers p);
            max_sessions := max_sessions p; fresh_worker := S id |}, Selected id false)
      else if (max_sessions p <=? total)%N then
        match remove_oldest_idle_worker p with
        | (p', Some id) => (p', Evicted id)
        | (p', None) => (p', MustWait)
        end
      else (p, MustWait)
  end.

Fixpoint remove_id (id : nat) (ids : list nat) : list nat :=
  match ids with
  | [] => []
  | x :: rest => if Nat.eqb x id then rest else x :: remove_id id rest
  end.

Definition remove_worker (k : K) (id : nat) (p : Pool) : Pool :=
  match bt_get k (groups p) with
  | None => p
  | Some ids => set_groups (set_group k (remove_id id ids) (groups p)) p
  end.

(** [retain] over the groups: candidates that are not busy go, emptied groups go. *)
Definition remove_workers (candidates : list nat) (p : Pool) : Pool :=
  let keep id := negb (bool_decide (id ∈ candidates) && negb (worker_busy p id)) in
  set_groups
    (List.filter (fun g => match snd g with [] => false | _ => true end)
       (map (fun g => (fst g, List.filter keep (snd g))) (groups p))) p.

(** The workers a purge at [now] would remove from this pool. *)
Definition purge_candidates (now : N) (lockable : nat -> bool) (p : Pool) : list nat :=
  List.filter (fun id =>
    match workers p !! id with Some w => stale_worker now (lockable id) w | None => false end)
    (registered (groups p)).

(** ** Checkouts as a transition system *)

Inductive CheckoutStage : Type :=
| Initializing   (* the worker is being started *)
| Ready          (* the worker serves the request *)
| Discarded.     (* removed from its group, [busy] not yet cleared *)

Record Checkout := mkCheckout { co_key : K; co_worker : nat; co_stage : CheckoutStage }.

Record PoolSystem := mkPoolSystem { pool : Pool; checkouts : gmap nat Checkout }.

Variable worker_limit : K -> N.

Definition set_worker (id : nat) (f : PooledUpstreamWorker -> PooledUpstreamWorker) (p : Pool) : Pool :=
  {| groups := groups p; workers := alter f id (workers p); max_sessions := max_sessions p;
     fresh_worker := fresh_worker p |}.

Inductive pool_step (s : PoolSystem) : PoolSystem -> Prop :=
| step_checkout c k ttl now p' outcome :
    checkouts s !! c = None ->
    checkout_turn k (worker_limit k) ttl now (pool s) = (p', outcome) ->
    pool_step s
      {| pool := p';
         checkouts := match outcome with
                      | Selected id hit =>
                          <[c := mkCheckout k id (if hit then Ready else Initializing)]> (checkouts s)
                      | _ => checkouts s
                      end |}
| step_initialized c co :
    checkouts s !! c = Some co -> co_stage co = Initializing ->
    pool_step s
      {| pool := set_worker (co_worker co) install_session (pool s);
         checkouts := <[c := mkCheckout (co_key co) (co_worker co) Ready]> (checkouts s) |}
| step_discard c co used :
    checkouts s !! c = Some co -> co_stage co <> Discarded ->
    pool_step s
      {| pool := remove_worker (co_key co) (co_worker co)
                   (set_worker (co_worker co) (mark_failed used) (pool s));
         checkouts := <[c := mkCheckout (co_key co) (co_worker co) Discarded]> (checkouts s) |}
| step_return c co used :
    checkouts s !! c = Some co -> co_stage co <> Initializing ->
    pool_step s
      {| pool := set_worker (co_worker co) (release_worker used) (pool s);
         checkouts := delete c (checkouts s) |}
| step_purge candidates :
    pool_step s {| pool := remove_workers candidates (pool s); checkouts := checkouts s |}.

Lemma key_eq_dec (a b : K) : {a = b} + {a <> b}.
Proof.
  destruct (key_cmp a b) eqn:E; [left; by apply key_cmp_eq|right..]; intros ->; rewrite key_cmp_refl in E; done.
Qed.

(** ** Lemmas: the registered workers *)

Lemma registered_get k gs : bt_wf gs -> registered gs ≡ₚ group_of k gs ++ registered (bt_remove k gs).
Proof.
  unfold group_of. induction gs as [|[k' ids] gs IH]; intros Hw; [done|].
  apply StronglySorted_inv in Hw as [Hw Hf]. simpl. destruct (key_cmp k k') eqn:E; simpl; [done|..].
  - assert (bt_get k gs = None) as En.
    { apply bt_get_None_lt. eapply Forall_impl; [exact Hf|]. intros q Hq. unfold key_lt in *. by eapply key_cmp_trans. }
    rewrite En. simpl. rewrite (IH Hw), En. done.
  - rewrite (IH Hw) at 1. rewrite !app_assoc. apply Permutation_app_tail, Permutation_app_comm.
Qed.

Lemma registered_insert k ids gs : bt_wf gs -> registered (bt_insert k ids gs) ≡ₚ ids ++ registered (bt_remove k gs).
Proof.
  intros Hw. rewrite (registered_get k) by (by apply bt_insert_wf).
  unfold group_of at 1. rewrite bt_get_insert_eq. simpl.
  assert (bt_remove k (bt_insert k ids gs) = bt_remove k gs) as ->; [|done].
  induction gs as [|[k' ids'] gs IH]; simpl; [by rewrite key_cmp_refl|].
  apply StronglySorted_inv in Hw as [Hw Hf].
  destruct (key_cmp k k') eqn:E; simpl; rewrite ?key_cmp_refl, ?E; try done.
  - f_equal. symmetry. apply bt_remove_lt. eapply Forall_impl; [exact Hf|].
    intros q Hq. unfold key_lt in *. by eapply key_cmp_trans.
  - by rewrite IH.
Qed.

Lemma registered_set_group k ids gs : bt_wf gs -> registered (set_group k ids gs) ≡ₚ ids ++ registered (bt_remove k gs).
Proof. intros Hw. unfold set_group. destruct ids; [done|]. by apply registered_insert. Qed.

Lemma set_group_wf k ids gs : bt_wf gs -> bt_wf (set_group k ids gs).
Proof. intros Hw. unfold set_group. destruct ids; auto using bt_remove_wf, bt_insert_wf. Qed.

Lemma group_of_set_eq k ids gs : bt_wf gs -> group_of k (set_group k ids gs) = ids.
Proof.
  intros Hw. unfold group_of, set_group. destruct ids; [by rewrite bt_get_remove_eq|by rewrite bt_get_insert_eq].
Qed.

Lemma group_of_set_ne k k' ids gs : k' <> k -> group_of k' (set_group k ids gs) = group_of k' gs.
Proof.
  intros Hn. unfold group_of, set_group.
  destruct ids; [by rewrite bt_get_remove_ne|by rewrite bt_get_insert_ne].
Qed.

Lemma group_of_registered k gs id : id ∈ group_of k gs -> id ∈ registered gs.
Proof.
  unfold group_of. destruct (bt_get k gs) as [ids|] eqn:E; simpl; [|by intros ?%not_elem_of_nil].
  intros Hin. apply bt_get_elem, list_elem_of_In in E. apply list_elem_of_In, in_flat_map.
  exists (k, ids). split; [done|by apply list_elem_of_In].
Qed.

Lemma remove_id_perm id ids : id ∈ ids -> ids ≡ₚ id :: remove_id id ids.
Proof.
  induction ids as [|x ids IH]; [by intros ?%not_elem_of_nil|]. simpl.
  destruct (Nat.eqb_spec x id) as [->|Hn]; [done|]. intros [->|Hin]%elem_of_cons; [done|].
  rewrite (IH Hin) at 1. apply Permutation_swap.
Qed.

Lemma remove_id_notin id ids : id ∉ ids -> remove_id id ids = ids.
Proof.
  induction ids as [|x ids IH]; [done|]. intros [Hn Hi]%not_elem_of_cons. simpl.
  rewrite (proj2 (Nat.eqb_neq x id)) by congruence. by rewrite IH.
Qed.

Lemma delete_perm (i : nat) (ids : list nat) id : ids !! i = Some id -> ids ≡ₚ id :: delete i ids.
Proof. intros Hi. by apply delete_Permutation. Qed.

(** ** The pool invariant *)

Record pool_inv (s : PoolSystem) : Prop := {
  pi_wf : bt_wf (groups (pool s));
  pi_nodup : NoDup (registered (groups (pool s)));
  pi_known id : id ∈ registered (groups (pool s)) -> is_Some (workers (pool s) !! id);
  pi_fresh id w : workers (pool s) !! id = Some w -> (id < fresh_worker (pool s))%nat;
  pi_total : (registered_session_count (pool s) <= max_sessions (pool s))%N;
  pi_group k : (len_N (group_of k (groups (pool s))) <= N.max (worker_limit k) 1)%N;
  pi_held c co : checkouts s !! c = Some co -> worker_busy (pool s) (co_worker co) = true;
  pi_registered c co : checkouts s !! c = Some co -> co_stage co <> Discarded ->
    co_worker co ∈ group_of (co_key co) (groups (pool s));
  pi_discarded c co : checkouts s !! c = Some co -> co_stage co = Discarded ->
    co_worker co ∉ registered (groups (pool s));
  pi_exclusive c c' co co' : checkouts s !! c = Some co -> checkouts s !! c' = Some co' ->
    co_worker co = co_worker co' -> c = c';
  pi_no_leak id : id ∈ registered (groups (pool s)) -> worker_busy (pool s) id = true ->
    exists c co, checkouts s !! c = Some co /\ co_worker co = id
}.

Lemma worker_busy_alter p id f id' :
  (forall w, busy (f w) = busy w) -> worker_busy (set_worker id f p) id' = worker_busy p id'.
Proof.
  intros Hf. unfold worker_busy, set_worker. cbn [workers]. destruct (decide (id' = id)) as [->|Hn].
  - rewrite lookup_alter_eq. destruct (workers p !! id); simpl; auto.
  - by rewrite lookup_alter_ne.
Qed.

Lemma set_worker_known p id f id' : is_Some (workers (set_worker id f p) !! id') <-> is_Some (workers p !! id').
Proof. unfold set_worker. cbn [workers]. apply lookup_alter_is_Some. Qed.

Lemma busy_known p id : worker_busy p id = true -> is_Some (workers p !! id).
Proof. unfold worker_busy. destruct (workers p !! id); [eauto|done]. Qed.

Lemma pool_inv_init n : pool_inv {| pool := with_max_sessions n; checkouts := ∅ |}.
Proof.
  split; cbn [pool checkouts with_max_sessions groups workers max_sessions registered flat_map]; try done.
  - apply bt_nil_wf.
  - constructor.
  - by intros id ?%not_elem_of_nil.
  - unfold registered_session_count, len_N. simpl. lia.
  - intros k. unfold len_N. simpl. lia.
Qed.

(** ** Lemmas: steps keep the invariant *)

(** Dropping idle workers from the groups. *)
Lemma pool_inv_shrink s gs :
  pool_inv s -> bt_wf gs -> NoDup (registered gs) ->
  (forall id, id ∈ registered gs -> id ∈ registered (groups (pool s))) ->
  (length (registered gs) <= length (registered (groups (pool s))))%nat ->
  (forall k, length (group_of k gs) <= length (group_of k (groups (pool s))))%nat ->
  (forall k id, id ∈ group_of k (groups (pool s)) -> worker_busy (pool s) id = true -> id ∈ group_of k gs) ->
  pool_inv {| pool := set_groups gs (pool s); checkouts := checkouts s |}.
Proof.
  intros Hi Hw Hn Hin Hlen Hgl Hbusy.
  split; cbn [pool checkouts set_groups groups workers max_sessions fresh_worker]; try apply Hi; auto.
  - intros id Hid. by apply (pi_known _ Hi), Hin.
  - pose proof (pi_total _ Hi). unfold registered_session_count, len_N in *. cbn [groups set_groups]. lia.
  - intros k. pose proof (pi_group _ Hi k). specialize (Hgl k). unfold len_N in *. lia.
  - intros c co Hc Hs. apply Hbusy; [by apply (pi_registered _ Hi c)|by apply (pi_held _ Hi c)].
  - intros c co Hc Hs Hx. by eapply (pi_discarded _ Hi c co Hc Hs), Hin.
  - intros id Hid Hb. apply (pi_no_leak _ Hi); [by apply Hin|exact Hb].
Qed.

Definition filter_groups (keep : nat -> bool) (gs : Groups) : Groups :=
  List.filter (fun g => match snd g with [] => false | _ => true end)
    (map (fun g => (fst g, List.filter keep (snd g))) gs).

Lemma filter_groups_spec keep (gs : Groups) :
  bt_wf gs ->
  bt_wf (filter_groups keep gs) /\ registered (filter_groups keep gs) = List.filter keep (registered gs)
  /\ forall k, group_of k (filter_groups keep gs) = List.filter keep (group_of k gs).
Proof.
  intros Hw. unfold group_of, filter_groups.
  assert (Hwm : bt_wf (map (fun g => (fst g, List.filter keep (snd g))) gs)).
  { unfold bt_wf. induction Hw as [|[k' ids] gs Hw IH Hf]; [constructor|]. simpl. constructor; [done|].
    apply Forall_map. eapply Forall_impl; [exact Hf|]. by intros [k0 ids0]. }
  split; [|split].
  - pose proof (bt_retain_wf (fun _ (ids : list nat) => match ids with [] => false | _ => true end) _ Hwm) as Hr.
    exact Hr.
  - clear Hwm Hw. induction gs as [|[k' ids] gs IH]; [done|]. simpl. rewrite List.filter_app.
    destruct (List.filter keep ids) eqn:E; simpl; [exact IH|]. by rewrite IH.
  - intros k. pose proof (bt_get_retain (fun _ (ids : list nat) => match ids with [] => false | _ => true end) k _ Hwm) as E.
    unfold bt_retain in E. cbn [fst snd] in E. rewrite E. clear E Hwm Hw.
    induction gs as [|[k' ids] gs IH]; simpl; [done|]. destruct (key_cmp k k'); [|done..].
    simpl. by destruct (List.filter keep ids).
Qed.

Lemma pool_inv_purge s candidates :
  pool_inv s -> pool_inv {| pool := remove_workers candidates (pool s); checkouts := checkouts s |}.
Proof.
  intros Hi. unfold remove_workers.
  set (keep := fun id => negb (bool_decide (id ∈ candidates) && negb (worker_busy (pool s) id))).
  destruct (filter_groups_spec keep (groups (pool s)) (pi_wf _ Hi)) as (Hw & Hr & Hg).
  apply pool_inv_shrink; auto; fold (filter_groups keep (groups (pool s))); rewrite ?Hr.
  - apply NoDup_ListNoDup, List.NoDup_filter, NoDup_ListNoDup, Hi.
  - intros id Hid%list_elem_of_In. apply filter_In in Hid as [Hid _]. by apply list_elem_of_In.
  - apply List.filter_length_le.
  - intros k. rewrite Hg. apply List.filter_length_le.
  - intros k id Hin Hb. rewrite Hg. apply list_elem_of_In, filter_In.
    split; [by apply list_elem_of_In|]. unfold keep. rewrite Hb. by rewrite andb_false_r.
Qed.

(** Every eviction candidate names an idle worker of its group. *)
Lemma idle_in_group_elem p k i0 ids k' index used :
  (k', index, used) ∈ idle_in_group p k i0 ids ->
  k' = k /\ exists id, (i0 <= index)%nat /\ ids !! (index - i0)%nat = Some id /\ worker_busy p id = false.
Proof.
  revert i0. induction ids as [|x ids IH]; intros i0; simpl; [by intros ?%not_elem_of_nil|].
  assert (Hrec : (k', index, used) ∈ idle_in_group p k (S i0) ids ->
    k' = k /\ exists id, (i0 <= index)%nat /\ (x :: ids) !! (index - i0)%nat = Some id /\ worker_busy p id = false).
  { intros (-> & id & Hle & Hl & Hb)%IH. split; [done|]. exists id. split; [lia|]. split; [|done].
    replace (index - i0)%nat with (S (index - S i0))%nat by lia. done. }
  unfold worker_busy in *. destruct (workers p !! x) as [w|] eqn:Ex; [|exact Hrec].
  destruct (busy w) eqn:Eb; [exact Hrec|]. intros [ [= -> -> ->] | Hin]%elem_of_cons; [|by apply Hrec].
  split; [done|]. exists x. rewrite Nat.sub_diag. simpl. rewrite Ex. done.
Qed.

Lemma min_by_last_used_elem cs c : min_by_last_used cs = Some c -> c ∈ cs.
Proof. intros Hm. by apply min_by_key_Some in Hm as [? _]. Qed.

Lemma pool_inv_evict s :
  pool_inv s ->
  pool_inv {| pool := (remove_oldest_idle_worker (pool s)).1; checkouts := checkouts s |}
  /\ forall id, (remove_oldest_idle_worker (pool s)).2 = Some id ->
       worker_busy (pool s) id = false /\ id ∈ registered (groups (pool s)).
Proof.
  intros Hi. unfold remove_oldest_idle_worker.
  destruct (min_by_last_used _) as [ [ [k index] used] |] eqn:E; [|destruct s; by split].
  apply min_by_last_used_elem, list_elem_of_In, in_flat_map in E as ([k0 ids0] & Hg & Hin).
  apply list_elem_of_In in Hg, Hin. cbn [fst snd] in Hin.
  destruct (idle_in_group_elem _ _ _ _ _ _ _ Hin) as (-> & id & _ & Hl & Hb). rewrite Nat.sub_0_r in Hl.
  pose proof (bt_elem_get _ _ _ (pi_wf _ Hi) Hg) as Hget. rewrite Hget. cbn [fst snd].
  assert (Eg : group_of k0 (groups (pool s)) = ids0) by (unfold group_of; by rewrite Hget).
  pose proof (delete_perm index ids0 id Hl) as Hperm.
  pose proof (registered_get k0 (groups (pool s)) (pi_wf _ Hi)) as Hreg. rewrite Eg, Hperm in Hreg.
  pose proof (registered_set_group k0 (delete index ids0) (groups (pool s)) (pi_wf _ Hi)) as Hset.
  assert (Hreg' : registered (groups (pool s)) ≡ₚ id :: registered (set_group k0 (delete index ids0) (groups (pool s)))).
  { rewrite Hset. exact Hreg. }
  split.
  - apply pool_inv_shrink; auto using set_group_wf, pi_wf.
    + pose proof (pi_nodup _ Hi) as Hn. rewrite Hreg' in Hn. by inversion Hn.
    + intros x Hx. rewrite Hreg'. by right.
    + pose proof (Permutation_length Hreg') as El. simpl in El. lia.
    + intros k. destruct (key_eq_dec k k0) as [->|Hn].
      * rewrite group_of_set_eq by apply Hi. rewrite Eg. pose proof (Permutation_length Hperm) as El. simpl in El. lia.
      * by rewrite group_of_set_ne.
    + intros k x Hx Hbx. destruct (key_eq_dec k k0) as [->|Hn].
      * rewrite group_of_set_eq by apply Hi. rewrite Eg, Hperm in Hx.
        apply elem_of_cons in Hx as [->|?]; [congruence|done].
      * by rewrite group_of_set_ne.
  - intros x Hx. rewrite Hl in Hx. injection Hx as <-. split; [done|]. rewrite Hreg'. by left.
Qed.

(** Claiming an idle worker of the group. *)
Lemma pool_inv_claim s c k id stage f :
  pool_inv s -> checkouts s !! c = None -> stage <> Discarded ->
  id ∈ group_of k (groups (pool s)) -> worker_busy (pool s) id = false -> (forall w, busy (f w) = true) ->
  pool_inv {| pool := set_worker id f (pool s); checkouts := <[c := mkCheckout k id stage]> (checkouts s) |}.
Proof.
  intros Hi Hc Hst Hin Hb Hf.
  assert (Hbusy : forall id', worker_busy (set_worker id f (pool s)) id' = bool_decide (id' = id) || worker_busy (pool s) id').
  { intros id'. unfold worker_busy, set_worker. cbn [workers]. destruct (decide (id' = id)) as [->|Hn].
    - rewrite bool_decide_eq_true_2, lookup_alter_eq by done.
      destruct (pi_known _ Hi id) as [w ->]; [by eapply group_of_registered|]. simpl. by rewrite Hf.
    - by rewrite bool_decide_eq_false_2, lookup_alter_ne. }
  split; cbn [pool checkouts]; try apply Hi.
  - intros id' Hid. apply set_worker_known. by apply (pi_known _ Hi).
  - intros id' w Hw. destruct (proj1 (set_worker_known (pool s) id f id') (ex_intro _ w Hw)) as [w' Hw'].
    by eapply (pi_fresh _ Hi).
  - intros c' co [ [<- <-] | [_ Hco] ]%lookup_insert_Some; rewrite Hbusy; cbn [co_worker].
    + by rewrite bool_decide_eq_true_2.
    + rewrite (pi_held _ Hi c') by done. apply orb_true_r.
  - intros c' co [ [<- <-] | [_ Hco] ]%lookup_insert_Some; [done|by apply (pi_registered _ Hi c')].
  - intros c' co [ [<- <-] | [_ Hco] ]%lookup_insert_Some; [done|by apply (pi_discarded _ Hi c')].
  - intros c1 c2 co1 co2 [ [<- <-] | [N1 H1] ]%lookup_insert_Some [ [<- <-] | [N2 H2] ]%lookup_insert_Some;
      cbn [co_worker]; intros E; [done|..|by eapply (pi_exclusive _ Hi)].
    + apply (pi_held _ Hi) in H2. congruence.
    + apply (pi_held _ Hi) in H1. congruence.
  - intros id' Hid Hb'. rewrite Hbusy in Hb'. destruct (decide (id' = id)) as [->|Hn].
    + exists c, (mkCheckout k id stage). by rewrite lookup_insert_eq.
    + rewrite bool_decide_eq_false_2 in Hb' by done. destruct (pi_no_leak _ Hi id' Hid Hb') as (c' & co & Hco & E).
      exists c', co. rewrite lookup_insert_ne by congruence. done.
Qed.

(** Starting a new worker in a group with room. *)
Lemma pool_inv_spawn s c k now ttl :
  pool_inv s -> checkouts s !! c = None ->
  (len_N (group_of k (groups (pool s))) < N.max (worker_limit k) 1)%N ->
  (registered_session_count (pool s) < max_sessions (pool s))%N ->
  let id := fresh_worker (pool s) in
  pool_inv
    {| pool := {| groups := bt_insert k (group_of k (groups (pool s)) ++ [id]) (groups (pool s));
                  workers := <[id := reserved now ttl]> (workers (pool s));
                  max_sessions := max_sessions (pool s); fresh_worker := S id |};
       checkouts := <[c := mkCheckout k id Initializing]> (checkouts s) |}.
Proof.
  intros Hi Hc Hg Ht id.
  assert (Hnew : workers (pool s) !! id = None).
  { destruct (workers (pool s) !! id) as [w|] eqn:E; [|done]. apply (pi_fresh _ Hi) in E. unfold id in E. lia. }
  assert (Hnr : id ∉ registered (groups (pool s))) by (intros [w Hw]%(pi_known _ Hi); congruence).
  assert (Hreg : registered (bt_insert k (group_of k (groups (pool s)) ++ [id]) (groups (pool s)))
                 ≡ₚ id :: registered (groups (pool s))).
  { rewrite registered_insert by apply Hi. rewrite (registered_get k (groups (pool s))) by apply Hi.
    rewrite <- app_assoc. simpl. by rewrite Permutation_middle. }
  assert (Hgr : forall k', group_of k' (bt_insert k (group_of k (groups (pool s)) ++ [id]) (groups (pool s)))
                = group_of k' (groups (pool s)) ++ (if key_eq_dec k' k then [id] else [])).
  { intros k'. destruct (key_eq_dec k' k) as [->|Hn]; unfold group_of at 1.
    - by rewrite bt_get_insert_eq.
    - rewrite bt_get_insert_ne, app_nil_r by congruence. done. }
  assert (Hb : forall id', id' <> id -> forall gs m f, worker_busy (mkPool gs (<[id := reserved now ttl]> (workers (pool s))) m f) id'
               = worker_busy (pool s) id').
  { intros id' Hn gs m f. unfold worker_busy. cbn [workers]. by rewrite lookup_insert_ne. }
  assert (Hbusy_new : forall id', worker_busy (pool s) id' = true -> id' <> id).
  { intros id' [w Hw]%busy_known ->. congruence. }
  split; cbn [pool checkouts groups workers max_sessions fresh_worker].
  - apply bt_insert_wf, Hi.
  - rewrite Hreg. constructor; [done|apply Hi].
  - intros id'. rewrite Hreg. intros [->|Hin]%elem_of_cons; [by rewrite lookup_insert_eq|].
    apply lookup_insert_is_Some'. right. by apply (pi_known _ Hi).
  - intros id' w [ [<- _] | [_ Hw] ]%lookup_insert_Some; [lia|]. apply (pi_fresh _ Hi) in Hw. unfold id. lia.
  - unfold registered_session_count, len_N in *. cbn [groups]. rewrite (Permutation_length Hreg). simpl. lia.
  - intros k'. rewrite Hgr, len_N_app. pose proof (pi_group _ Hi k'). destruct (key_eq_dec k' k) as [->|]; unfold len_N in *; simpl; lia.
  - intros c' co [ [<- <-] | [_ Hco] ]%lookup_insert_Some.
    + unfold worker_busy. cbn [workers co_worker]. by rewrite lookup_insert_eq.
    + pose proof (pi_held _ Hi _ _ Hco) as Hh. rewrite Hb by (by apply Hbusy_new). done.
  - intros c' co [ [<- <-] | [_ Hco] ]%lookup_insert_Some Hs; cbn [co_key co_worker]; rewrite Hgr, elem_of_app.
    + right. destruct (key_eq_dec k k); [by left|done].
    + left. by apply (pi_registered _ Hi c').
  - intros c' co [ [<- <-] | [_ Hco] ]%lookup_insert_Some Hs; [done|]. rewrite Hreg.
    intros [E|Hin]%elem_of_cons; [|by apply (pi_discarded _ Hi c' co Hco Hs)].
    apply (Hbusy_new (co_worker co)); [by apply (pi_held _ Hi c')|done].
  - intros c1 c2 co1 co2 [ [<- <-] | [N1 H1] ]%lookup_insert_Some [ [<- <-] | [N2 H2] ]%lookup_insert_Some;
      cbn [co_worker]; intros E; [done|..|by eapply (pi_exclusive _ Hi)]; exfalso.
    + apply (Hbusy_new (co_worker co2)); [by apply (pi_held _ Hi c2)|done].
    + apply (Hbusy_new (co_worker co1)); [by apply (pi_held _ Hi c1)|done].
  - intros id'. rewrite Hreg. destruct (decide (id' = id)) as [->|Hn].
    + intros _ _. exists c, (mkCheckout k id Initializing). by rewrite lookup_insert_eq.
    + intros [->|Hin]%elem_of_cons; [done|]. rewrite Hb by done. intros Hbz.
      destruct (pi_no_leak _ Hi id' Hin Hbz) as (c' & co & Hco & E). exists c', co.
      rewrite lookup_insert_ne by congruence. done.
Qed.

Lemma select_idle_spec p k limit id :
  select_idle p k limit = Some id -> id ∈ group_of k (groups p) /\ worker_busy p id = false.
Proof.
  unfold select_idle. intros [Hin Hb]%List.find_some. split; [|by apply negb_true_iff].
  apply list_elem_of_In. rewrite <- (firstn_skipn (N.to_nat limit) (group_of k (groups p))). apply in_or_app. by left.
Qed.

Lemma pool_inv_checkout s c k ttl now p' outcome :
  pool_inv s -> checkouts s !! c = None ->
  checkout_turn k (worker_limit k) ttl now (pool s) = (p', outcome) ->
  pool_inv
    {| pool := p';
       checkouts := match outcome with
                    | Selected id hit => <[c := mkCheckout k id (if hit then Ready else Initializing)]> (checkouts s)
                    | _ => checkouts s
                    end |}.
Proof.
  intros Hi Hc. unfold checkout_turn. cbv zeta. destruct (select_idle _ _ _) as [id|] eqn:Es.
  - apply select_idle_spec in Es as [Hin Hb]. intros [= <- <-].
    apply (pool_inv_claim s c k id _ (claim_worker (N.max ttl 1)) Hi Hc); auto.
    by destruct (match workers (pool s) !! id with Some w => initialized w | None => false end).
  - case_stuck; bool_prop; [intros [= <- <-]; by apply pool_inv_spawn|].
    case_stuck; [|intros [= <- <-]; by destruct s].
    destruct (pool_inv_evict s Hi) as [He _]. destruct (remove_oldest_idle_worker (pool s)) as [p1 [id|] ];
      intros [= <- <-]; exact He.
Qed.

(** Changing a held worker without touching its [busy] flag, and moving the checkout on. *)
Lemma pool_inv_touch s c co stage f :
  pool_inv s -> checkouts s !! c = Some co -> (forall w, busy (f w) = busy w) ->
  (stage <> Discarded -> co_stage co <> Discarded) -> (stage = Discarded -> co_stage co = Discarded) ->
  pool_inv {| pool := set_worker (co_worker co) f (pool s);
              checkouts := <[c := mkCheckout (co_key co) (co_worker co) stage]> (checkouts s) |}.
Proof.
  intros Hi Hc Hf Hs1 Hs2.
  assert (Hco : forall c' co', <[c := mkCheckout (co_key co) (co_worker co) stage]> (checkouts s) !! c' = Some co' ->
    exists co0, checkouts s !! c' = Some co0 /\ co_worker co' = co_worker co0 /\ co_key co' = co_key co0
      /\ (co_stage co' = Discarded <-> co_stage co0 = Discarded)).
  { intros c' co' [ [<- <-] | [_ ?] ]%lookup_insert_Some; [|by exists co']. exists co. cbn.
    repeat split; auto. intros E. destruct stage; try done; by destruct (Hs1). }
  split; cbn [pool checkouts]; try apply Hi.
  - intros id Hid. apply set_worker_known. by apply (pi_known _ Hi).
  - intros id w Hw. destruct (proj1 (set_worker_known (pool s) (co_worker co) f id) (ex_intro _ w Hw)) as [w' Hw'].
    by eapply (pi_fresh _ Hi).
  - intros c' co' (co0 & H0 & -> & _)%Hco. rewrite worker_busy_alter by done. by apply (pi_held _ Hi c').
  - intros c' co' (co0 & H0 & -> & -> & Hd)%Hco Hs. apply (pi_registered _ Hi c'); [done|]. tauto.
  - intros c' co' (co0 & H0 & -> & _ & Hd)%Hco Hs. apply (pi_discarded _ Hi c'); [done|]. tauto.
  - intros c1 c2 co1 co2 (a & Ha & -> & _)%Hco (b & Hb & -> & _)%Hco. by eapply (pi_exclusive _ Hi).
  - intros id Hid. rewrite worker_busy_alter by done. intros Hb.
    destruct (pi_no_leak _ Hi id Hid Hb) as (c' & co' & Hc' & E). destruct (decide (c' = c)) as [->|Hn].
    + exists c, (mkCheckout (co_key co) (co_worker co) stage). rewrite lookup_insert_eq. split; [done|]. cbn. congruence.
    + exists c', co'. by rewrite lookup_insert_ne.
Qed.

(** Discarding a held worker: it leaves its group and stays busy until the release. *)
Lemma pool_inv_remove s c co :
  pool_inv s -> checkouts s !! c = Some co -> co_stage co <> Discarded ->
  pool_inv {| pool := remove_worker (co_key co) (co_worker co) (pool s);
              checkouts := <[c := mkCheckout (co_key co) (co_worker co) Discarded]> (checkouts s) |}.
Proof.
  intros Hi Hc Hst. pose proof (pi_registered _ Hi c co Hc Hst) as Hin.
  unfold remove_worker. destruct (bt_get (co_key co) (groups (pool s))) as [ids|] eqn:Eg;
    [|unfold group_of in Hin; rewrite Eg in Hin; by apply not_elem_of_nil in Hin].
  assert (Egr : group_of (co_key co) (groups (pool s)) = ids) by (unfold group_of; by rewrite Eg).
  rewrite Egr in Hin. pose proof (remove_id_perm _ _ Hin) as Hperm.
  set (gs := set_group (co_key co) (remove_id (co_worker co) ids) (groups (pool s))).
  assert (Hreg : registered (groups (pool s)) ≡ₚ co_worker co :: registered gs).
  { unfold gs. rewrite registered_set_group by apply Hi.
    rewrite (registered_get (co_key co) (groups (pool s))) by apply Hi. rewrite Egr, Hperm at 1. done. }
  assert (Hn : NoDup (co_worker co :: registered gs)) by (rewrite <- Hreg; apply Hi).
  apply NoDup_cons in Hn as [Hn1 Hn2].
  assert (Hother : forall c' co', c' <> c -> checkouts s !! c' = Some co' -> co_worker co' <> co_worker co).
  { intros c' co' Hne Hc' E. apply Hne. by eapply (pi_exclusive _ Hi). }
  split; cbn [pool checkouts set_groups groups workers max_sessions fresh_worker]; try apply Hi; auto.
  - apply set_group_wf, Hi.
  - intros id Hid. apply (pi_known _ Hi). rewrite Hreg. by right.
  - pose proof (pi_total _ Hi) as Ht. unfold registered_session_count, len_N in *. cbn [groups set_groups].
    rewrite (Permutation_length Hreg) in Ht. simpl in Ht. lia.
  - intros k. pose proof (pi_group _ Hi k) as Hk. destruct (key_eq_dec k (co_key co)) as [->|Hne].
    + unfold gs. rewrite group_of_set_eq by apply Hi. rewrite Egr in Hk. unfold len_N in *.
      rewrite (Permutation_length Hperm) in Hk. simpl in Hk. lia.
    + unfold gs. by rewrite group_of_set_ne.
  - intros c' co' [ [<- <-] | [_ Hc'] ]%lookup_insert_Some; [exact (pi_held _ Hi c co Hc)|exact (pi_held _ Hi c' co' Hc')].
  - intros c' co' [ [<- <-] | [Hne Hc'] ]%lookup_insert_Some Hs; [done|].
    pose proof (pi_registered _ Hi c' co' Hc' Hs) as Hr. destruct (key_eq_dec (co_key co') (co_key co)) as [E|Hk].
    + rewrite E in *. unfold gs. rewrite group_of_set_eq by apply Hi. rewrite Egr, Hperm in Hr.
      apply elem_of_cons in Hr as [Ew|?]; [|done]. exfalso. apply (Hother c' co'); congruence.
    + unfold gs. by rewrite group_of_set_ne.
  - intros c' co' [ [<- <-] | [Hne Hc'] ]%lookup_insert_Some Hs; [done|].
    pose proof (pi_discarded _ Hi c' co' Hc' Hs) as Hr. rewrite Hreg in Hr. by apply not_elem_of_cons in Hr as [_ ?].
  - intros c1 c2 co1 co2 [ [<- <-] | [N1 H1] ]%lookup_insert_Some [ [<- <-] | [N2 H2] ]%lookup_insert_Some;
      cbn [co_worker]; intros E; [done|..|by eapply (pi_exclusive _ Hi)]; exfalso;
      [apply (Hother c2 co2)|apply (Hother c1 co1)]; congruence.
  - intros id Hid Hb. destruct (pi_no_leak _ Hi id) as (c' & co' & Hc' & E); [rewrite Hreg; by right|exact Hb|].
    exists c', co'. split; [|done]. rewrite lookup_insert_ne; [done|]. intros <-.
    rewrite Hc in Hc'. injection Hc' as <-. congruence.
Qed.

(** Returning a worker clears its flag and ends the checkout. *)
Lemma pool_inv_return s c co used :
  pool_inv s -> checkouts s !! c = Some co ->
  pool_inv {| pool := set_worker (co_worker co) (release_worker used) (pool s); checkouts := delete c (checkouts s) |}.
Proof.
  intros Hi Hc.
  assert (Hbusy : forall id, worker_busy (set_worker (co_worker co) (release_worker used) (pool s)) id
                  = negb (bool_decide (id = co_worker co)) && worker_busy (pool s) id).
  { intros id. unfold worker_busy, set_worker. cbn [workers]. destruct (decide (id = co_worker co)) as [->|Hn].
    - rewrite bool_decide_eq_true_2, lookup_alter_eq by done. by destruct (workers (pool s) !! co_worker co).
    - by rewrite bool_decide_eq_false_2, lookup_alter_ne. }
  assert (Hother : forall c' co', c' <> c -> checkouts s !! c' = Some co' -> co_worker co' <> co_worker co).
  { intros c' co' Hne Hc' E. apply Hne. by eapply (pi_exclusive _ Hi). }
  split; cbn [pool checkouts]; try apply Hi.
  - intros id Hid. apply set_worker_known. by apply (pi_known _ Hi).
  - intros id w Hw.
    destruct (proj1 (set_worker_known (pool s) (co_worker co) (release_worker used) id) (ex_intro _ w Hw)) as [w' Hw'].
    by eapply (pi_fresh _ Hi).
  - intros c' co' [Hne Hc']%lookup_delete_Some. rewrite Hbusy, (pi_held _ Hi c') by done.
    rewrite bool_decide_eq_false_2; [done|]. by eapply (Hother c').
  - intros c' co' [Hne Hc']%lookup_delete_Some. by apply (pi_registered _ Hi c').
  - intros c' co' [Hne Hc']%lookup_delete_Some. by apply (pi_discarded _ Hi c').
  - intros c1 c2 co1 co2 [_ H1]%lookup_delete_Some [_ H2]%lookup_delete_Some. by eapply (pi_exclusive _ Hi).
  - intros id Hid Hb. rewrite Hbusy in Hb. bool_prop. destruct (pi_no_leak _ Hi id Hid) as (c' & co' & Hc' & E); [done|].
    exists c', co'. split; [|done]. rewrite lookup_delete_ne; [done|]. intros <-. congruence.
Qed.

Lemma pool_inv_step s s' : pool_inv s -> pool_step s s' -> pool_inv s'.
Proof.
  intros Hi Hs. destruct Hs as [c k ttl now p' outcome Hc Ho|c co Hc Hst|c co used Hc Hst|c co used Hc Hst|cands].
  - by eapply pool_inv_checkout.
  - apply (pool_inv_touch s c co Ready install_session Hi Hc); [done|by rewrite Hst|done].
  - pose proof (pool_inv_touch s c co (co_stage co) (mark_failed used) Hi Hc) as Ht.
    set (s1 := mkPoolSystem _ _) in Ht.
    assert (Hs1 : pool_inv s1) by (apply Ht; done).
    apply (pool_inv_remove s1 c (mkCheckout (co_key co) (co_worker co) (co_stage co))) in Hs1;
      [|by cbn; rewrite lookup_insert_eq|done].
    unfold s1 in Hs1. cbn [pool checkouts co_key co_worker] in Hs1. by rewrite insert_insert_eq in Hs1.
  - by apply pool_inv_return.
  - by apply pool_inv_purge.
Qed.

Definition pool_reachable (max : N) : PoolSystem -> Prop :=
  reachable (fun s => s = {| pool := with_max_sessions max; checkouts := ∅ |}) pool_step.

Lemma pool_reachable_inv max s : pool_reachable max s -> pool_inv s.
Proof. apply reachable_invariant; [intros ? ->; apply pool_inv_init|apply pool_inv_step]. Qed.

Lemma max_sessions_step s s' : pool_step s s' -> max_sessions (pool s') = max_sessions (pool s).
Proof.
  intros Hs. destruct Hs as [c k ttl now p' outcome Hc Ho|c co Hc Hst|c co used Hc Hst|c co used Hc Hst|cands];
    try done; cbn [pool].
  - unfold checkout_turn, remove_oldest_idle_worker in Ho. cbv zeta in Ho.
    repeat case_stuck_in Ho; simplify_eq/=; done.
  - unfold remove_worker. by case_stuck.
Qed.

Lemma max_sessions_reachable max s : pool_reachable max s -> max_sessions (pool s) = N.max max 1.
Proof.
  apply (reachable_invariant _ _ (fun s => max_sessions (pool s) = N.max max 1)); [by intros ? ->|].
  intros s1 s2 E Hs. by rewrite (max_sessions_step _ _ Hs).
Qed.

(** When nothing can be evicted, every registered worker is busy. *)
Lemma min_by_last_used_None cs : min_by_last_used cs = None -> cs = [].
Proof. apply min_by_key_None. Qed.

Lemma idle_in_group_nil p k i ids id :
  idle_in_group p k i ids = [] -> id ∈ ids -> is_Some (workers p !! id) -> worker_busy p id = true.
Proof.
  revert i. induction ids as [|x ids IH]; intros i; simpl; [by intros _ ?%not_elem_of_nil|].
  unfold worker_busy in *. intros E [->|Hin]%elem_of_cons [w Hw].
  - rewrite Hw in E |- *. by destruct (busy w).
  - apply (IH (S i)); [|done|by exists w]. destruct (workers p !! x) as [wx|]; [|done]. by destruct (busy wx).
Qed.

Lemma no_idle_left s p1 id :
  pool_inv s -> remove_oldest_idle_worker (pool s) = (p1, None) -> id ∈ registered (groups (pool s)) ->
  worker_busy (pool s) id = true.
Proof.
  intros Hi Hr Hid. pose proof (pi_known _ Hi id Hid) as Hk. unfold remove_oldest_idle_worker in Hr.
  destruct (min_by_last_used _) as [ [ [k index] used] |] eqn:E.
  - apply min_by_last_used_elem, list_elem_of_In, in_flat_map in E as ([k0 ids0] & Hg & Hin).
    apply list_elem_of_In in Hg, Hin. cbn [fst snd] in Hin.
    destruct (idle_in_group_elem _ _ _ _ _ _ _ Hin) as (-> & x & _ & Hl & _).
    rewrite (bt_elem_get _ _ _ (pi_wf _ Hi) Hg) in Hr. rewrite Nat.sub_0_r in Hl. cbn [fst snd] in *. congruence.
  - apply min_by_last_used_None in E. apply list_elem_of_In, in_flat_map in Hid as ([k0 ids0] & Hg & Hin).
    apply list_elem_of_In in Hin. cbn [snd] in Hin.
    eapply (idle_in_group_nil _ k0 0 ids0); [|done|done].
    destruct (idle_in_group (pool s) k0 0 ids0) as [|x xs] eqn:Ei; [done|exfalso].
    assert (In x (flat_map (fun g => idle_in_group (pool s) (fst g) 0 (snd g)) (groups (pool s)))) as Hx.
    { apply in_flat_map. exists (k0, ids0). split; [done|]. cbn [fst snd]. rewrite Ei. by left. }
    by rewrite E in Hx.
Qed.

(** * Properties *)

(** C5: a pooled worker never serves two requests at once, and a worker
    that serves a request is never evicted or purged: in every interleaving of
    checkouts, initialisations, failures, returns, evictions and purges, distinct
    checkouts hold distinct workers, each marked busy and, until it is discarded, still
    registered under the key it was checked out for. *)
Theorem pool_checkout_exclusive max s c co :
  pool_reachable max s -> checkouts s !! c = Some co ->
  worker_busy (pool s) (co_worker co) = true
  /\ (co_stage co <> Discarded -> co_worker co ∈ group_of (co_key co) (groups (pool s)))
  /\ forall c' co', checkouts s !! c' = Some co' -> co_worker co' = co_worker co -> c' = c.
Proof.
  intros Hi%pool_reachable_inv Hc. split; [by apply (pi_held _ Hi c)|].
  split; [by apply (pi_registered _ Hi c)|]. intros c' co' Hc' E. by eapply (pi_exclusive _ Hi).
Qed.

(** C22: the pool never holds more sessions than its maximum, nor a group more
    workers than the execution policy of its server allows. *)
Theorem pool_within_limits max s k :
  pool_reachable max s ->
  (registered_session_count (pool s) <= N.max max 1)%N
  /\ (len_N (group_of k (groups (pool s))) <= N.max (worker_limit k) 1)%N.
Proof.
  intros Hr. pose proof (pool_reachable_inv _ _ Hr) as Hi. rewrite <- (max_sessions_reachable _ _ Hr).
  split; [apply Hi|apply (pi_group _ Hi)].
Qed.

(** A request waits only when the pool is really saturated: every worker it
    may use is held by another checkout, and either its group is full or the pool is full
    and every registered worker is held. *)
Theorem pool_waits_only_when_saturated max s k ttl now p' :
  pool_reachable max s ->
  checkout_turn k (worker_limit k) ttl now (pool s) = (p', MustWait) ->
  (forall id, id ∈ group_of k (groups (pool s)) -> exists c co, checkouts s !! c = Some co /\ co_worker co = id)
  /\ (len_N (group_of k (groups (pool s))) = N.max (worker_limit k) 1
      \/ registered_session_count (pool s) = N.max max 1
         /\ forall id, id ∈ registered (groups (pool s)) ->
              exists c co, checkouts s !! c = Some co /\ co_worker co = id).
Proof.
  intros Hr. pose proof (pool_reachable_inv _ _ Hr) as Hi. rewrite <- (max_sessions_reachable _ _ Hr).
  pose proof (pi_total _ Hi) as Ht. pose proof (pi_group _ Hi k) as Hg.
  unfold checkout_turn. cbv zeta. destruct (select_idle _ _ _) as [id|] eqn:Es; [done|].
  assert (Hall : forall id, id ∈ group_of k (groups (pool s)) -> worker_busy (pool s) id = true).
  { intros id Hin. unfold select_idle in Es. rewrite firstn_all2 in Es by (unfold len_N in Hg; lia).
    apply list_elem_of_In in Hin. pose proof (List.find_none _ _ Es id Hin) as Hn. by apply negb_false_iff. }
  assert (Hheld : forall id, id ∈ group_of k (groups (pool s)) -> exists c co, checkouts s !! c = Some co /\ co_worker co = id).
  { intros id Hin. apply (pi_no_leak _ Hi); [by eapply group_of_registered|by apply Hall]. }
  case_stuck; [done|]. bool_prop. case_stuck.
  - bool_prop. destruct (remove_oldest_idle_worker (pool s)) as [p1 [id|] ] eqn:Eo; [done|]. intros _.
    split; [done|]. right. split; [lia|]. intros id Hid. apply (pi_no_leak _ Hi); [done|].
    by eapply no_idle_left.
  - bool_prop. intros _. split; [done|]. left. destruct E as [E|E]; bool_prop; lia.
Qed.
End pool.

(** ** Witnesses: one worker per key, at most two sessions *)

Definition sample_limit (_ : string) : N := 1.

Definition run_checkout (c : nat) (k : string) (s : PoolSystem) : PoolSystem :=
  let '(p', outcome) := checkout_turn k (sample_limit k) 1000 7 (pool s) in
  {| pool := p';
     checkouts := match outcome with
                  | Selected id hit => <[c := mkCheckout k id (if hit then Ready else Initializing)]> (checkouts s)
                  | _ => checkouts s
                  end |}.

Lemma run_checkout_step c k s : checkouts s !! c = None -> pool_step sample_limit s (run_checkout c k s).
Proof.
  intros Hc. unfold run_checkout. destruct (checkout_turn k (sample_limit k) 1000 7 (pool s)) as [p' outcome] eqn:E.
  by eapply step_checkout.
Qed.

Definition sample_empty : PoolSystem := {| pool := with_max_sessions (K := string) 2; checkouts := ∅ |}.

Definition sample_pool : PoolSystem := run_checkout 1 "b" (run_checkout 0 "a" sample_empty).

Lemma sample_pool_reachable : pool_reachable sample_limit 2 sample_pool.
Proof.
  apply (reachable_step _ _ (run_checkout 0 "a" sample_empty)); [|by apply run_checkout_step].
  apply (reachable_step _ _ sample_empty); [by apply reachable_init|by apply run_checkout_step].
Qed.

Lemma pool_checkout_exclusive_witness :
  checkouts sample_pool !! 1%nat = Some (mkCheckout "b" 1 Initializing)
  /\ worker_busy (pool sample_pool) 1 = true.
Proof.
  split; [reflexivity|].
  apply (pool_checkout_exclusive sample_limit 2 sample_pool 1 (mkCheckout "b" 1 Initializing)
           sample_pool_reachable eq_refl).
Defined.

Lemma pool_within_limits_witness :
  registered_session_count (pool sample_pool) = 2%N /\ (registered_session_count (pool sample_pool) <= 2)%N.
Proof.
  split; [reflexivity|]. apply (pool_within_limits sample_limit 2 sample_pool "a" sample_pool_reachable).
Defined.

Lemma pool_waits_only_when_saturated_witness :
  checkout_turn "a" (sample_limit "a") 1000 9 (pool sample_pool) = (pool sample_pool, MustWait)
  /\ exists c co, checkouts sample_pool !! c = Some co /\ co_worker co = 0%nat.
Proof.
  assert (E : checkout_turn "a" (sample_limit "a") 1000 9 (pool sample_pool) = (pool sample_pool, MustWait))
    by (vm_compute; reflexivity).
  split; [exact E|].
  apply (pool_waits_only_when_saturated sample_limit 2 sample_pool "a" 1000 9 (pool sample_pool)
           sample_pool_reachable E).
  vm_compute. left.
Defined.
