(* ===== verification/Admission.v ===== *)
(** * Admission gauges (src/dashboard/governor.rs, src/dashboard/admission.rs)

    The lock-free request budget. Both controllers run the same compare-exchange
    protocol, on one gauge (the global governor) or on one gauge per kind of work (the
    HTTP admission controller). Each atomic access is one step, so every interleaving
    of the threads is covered. *)

From S2P Require Import Prelude RustStr BTree Json.

(** ** The protocol *)

(** Where a thread stands in [try_enter] and in the life of its permit. *)
Inductive Pc : Type :=
| Entering                              (* before the load of [active] *)
| Loaded (current : N)                  (* after the load, below the limit *)
| Recording (active : N)                (* permit granted, before the load of the maximum *)
| Observed (active observed : N)        (* permit granted, before the weak compare-exchange *)
| Inside                                (* permit held *)
| Leaving                               (* after [fetch_sub], before the completion count *)
| Done.

(** Does the thread occupy a slot? *)
Definition occupies (pc : Pc) : bool :=
  match pc with Recording _ | Observed _ _ | Inside => true | _ => false end.

(** The counters of one gauge; [peak] is a ghost: the largest value [active] ever had. *)
Record Gauge := mkGauge {
  active : N;
  rejected : N;
  completed : N;
  max_active : N;
  peak : N
}.

Definition gauge_default : Gauge :=
  {| active := 0; rejected := 0; completed := 0; max_active := 0; peak := 0 |}.

(** The compare-exchange that takes a slot. *)
Definition gauge_enter (next : N) (g : Gauge) : Gauge :=
  {| active := next; rejected := rejected g; completed := completed g; max_active := max_active g;
     peak := N.max (peak g) next |}.

Definition gauge_reject (g : Gauge) : Gauge :=
  {| active := active g; rejected := (rejected g + 1)%N; completed := completed g;
     max_active := max_active g; peak := peak g |}.

(** [fetch_sub] wraps at zero on [usize]. *)
Definition gauge_leave (g : Gauge) : Gauge :=
  {| active := if (active g =? 0)%N then USIZE_MAX else (active g - 1)%N;
     rejected := rejected g; completed := completed g; max_active := max_active g; peak := peak g |}.

Definition gauge_complete (g : Gauge) : Gauge :=
  {| active := active g; rejected := rejected g; completed := (completed g + 1)%N;
     max_active := max_active g; peak := peak g |}.

Definition gauge_record (n : N) (g : Gauge) : Gauge :=
  {| active := active g; rejected := rejected g; completed := completed g; max_active := n;
     peak := peak g |}.

Section protocol.
Context {kind : Type} `{EqDecision kind}.
Variable limit : kind -> N.
(** Does the controller keep a maximum ([record_max_active])? *)
Variable records : bool.

Record System := mkSystem { gauges : kind -> Gauge; threads : gmap nat (kind * Pc) }.

Definition system_default : System := {| gauges := fun _ => gauge_default; threads := ∅ |}.

Definition set_gauge (k : kind) (g : Gauge) (gs : kind -> Gauge) : kind -> Gauge :=
  fun k' => if decide (k' = k) then g else gs k'.

(** The effect of one atomic access of a thread at [pc] on its gauge: the new gauge and
    the new position. [weak_fails] is a spurious failure of the weak exchange. *)
Definition access (k : kind) (pc : Pc) (weak_fails : bool) (g : Gauge) : option (Gauge * Pc) :=
  match pc with
  | Entering =>
      if (limit k <=? active g)%N then Some (gauge_reject g, Done) else Some (g, Loaded (active g))
  | Loaded current =>
      if (active g =? current)%N then
        let next := sat_add USIZE_MAX current 1 in
        Some (gauge_enter next g, if records then Recording next else Inside)
      else Some (g, Entering)
  | Recording n => Some (g, if (max_active g <? n)%N then Observed n (max_active g) else Inside)
  | Observed n observed =>
      if negb weak_fails && (max_active g =? observed)%N then Some (gauge_record n g, Inside)
      else Some (g, if (max_active g <? n)%N then Observed n (max_active g) else Inside)
  | Inside => Some (gauge_leave g, Leaving)
  | Leaving => Some (gauge_complete g, Done)
  | Done => None
  end.

Inductive sys_step (s : System) : System -> Prop :=
| step_spawn p k :
    threads s !! p = None ->
    sys_step s {| gauges := gauges s; threads := <[p := (k, Entering)]> (threads s) |}
| step_access p k pc weak_fails g' pc' :
    threads s !! p = Some (k, pc) -> access k pc weak_fails (gauges s k) = Some (g', pc') ->
    sys_step s {| gauges := set_gauge k g' (gauges s); threads := <[p := (k, pc')]> (threads s) |}.

Definition sys_reachable : System -> Prop := reachable (fun s => s = system_default) sys_step.

(** The threads that occupy a slot of kind [k]. *)
Definition slot_of (k : kind) (x : nat * (kind * Pc)) : Prop := x.2.1 = k /\ occupies x.2.2 = true.

#[local] Instance slot_of_dec k x : Decision (slot_of k x).
Proof. unfold slot_of. apply _. Defined.

Definition occupants (k : kind) (ts : gmap nat (kind * Pc)) : N := N.of_nat (size (filter (slot_of k) ts)).

Lemma occupants_insert_new k p k' pc ts :
  ts !! p = None ->
  occupants k (<[p := (k', pc)]> ts)
  = (occupants k ts + if decide (slot_of k (p, (k', pc))) then 1 else 0)%N.
Proof.
  intros Hn. unfold occupants. case_decide as Hd.
  - rewrite map_filter_insert_True by done. rewrite map_size_insert_None; [lia|].
    apply map_lookup_filter_None. by left.
  - rewrite map_filter_insert_not' by (done || congruence). lia.
Qed.

Lemma occupants_update k p k0 pc pc' ts :
  ts !! p = Some (k0, pc) ->
  (occupants k (<[p := (k0, pc')]> ts) + (if decide (slot_of k (p, (k0, pc))) then 1 else 0)
   = occupants k ts + (if decide (slot_of k (p, (k0, pc'))) then 1 else 0))%N.
Proof.
  intros Hp. rewrite <- (insert_delete_id ts p (k0, pc) Hp) at 2.
  rewrite <- insert_delete_eq, !occupants_insert_new by apply lookup_delete_eq. lia.
Qed.

(** A thread about to publish [n] as the maximum. *)
Definition publishes (n : N) (pc : Pc) : Prop :=
  match pc with Recording m | Observed m _ => m = n | _ => False end.

Record sys_inv (s : System) : Prop := {
  si_active k : active (gauges s k) = occupants k (threads s);
  si_limit k : (active (gauges s k) <= limit k)%N;
  si_loaded p k c : threads s !! p = Some (k, Loaded c) -> (c < limit k)%N;
  si_observed p k n o : threads s !! p = Some (k, Observed n o) -> (o < n)%N;
  si_max k : (max_active (gauges s k) <= peak (gauges s k) <= limit k)%N;
  si_publish p k pc n : threads s !! p = Some (k, pc) -> publishes n pc -> (n <= peak (gauges s k))%N;
  si_peak k : (active (gauges s k) <= peak (gauges s k))%N;
  si_record k : records = true ->
    max_active (gauges s k) = peak (gauges s k)
    \/ exists p pc, threads s !! p = Some (k, pc) /\ publishes (peak (gauges s k)) pc
}.

(** What one access does to its gauge and its own position. *)
Record access_ok (k : kind) (g g' : Gauge) (pc pc' : Pc) : Prop := {
  ao_active : (active g' + (if occupies pc then 1 else 0) = active g + (if occupies pc' then 1 else 0))%N;
  ao_limit : (active g' <= limit k)%N;
  ao_loaded c : pc' = Loaded c -> (c < limit k)%N;
  ao_observed n o : pc' = Observed n o -> (o < n)%N;
  ao_peak : (peak g <= peak g' <= limit k)%N;
  ao_active_peak : (active g' <= peak g')%N;
  ao_max : (max_active g <= max_active g' <= peak g')%N;
  ao_publish n : publishes n pc' -> (n <= peak g')%N;
  ao_new_peak : records = true -> peak g' = peak g \/ publishes (peak g') pc';
  ao_published : publishes (peak g) pc -> peak g' = peak g ->
    publishes (peak g) pc' \/ max_active g' = peak g'
}.

Lemma access_spec k pc w g g' pc' :
  (limit k <= USIZE_MAX)%N ->
  (active g <= limit k)%N -> (active g <= peak g)%N -> (max_active g <= peak g <= limit k)%N ->
  (forall c, pc = Loaded c -> (c < limit k)%N) -> (forall n o, pc = Observed n o -> (o < n)%N) ->
  (forall n, publishes n pc -> (n <= peak g)%N) ->
  (occupies pc = true -> (0 < active g)%N) ->
  access k pc w g = Some (g', pc') -> access_ok k g g' pc pc'.
Proof.
  intros Hu Ha Hap Hm Hl Hob Hp Ho. destruct pc as [|c|n|n o| | |]; cbn [access].
  - case_stuck; intros [= <- <-]; bool_prop; split; simpl; intros; simplify_eq; try done; try lia; auto.
  - specialize (Hl c eq_refl). case_stuck; intros [= <- <-]; bool_prop.
    + rewrite !sat_add_exact by lia.
      split; simpl; intros; destruct records; simplify_eq; simpl in *; try done; try lia;
        destruct (N.max_spec (peak g) (c + 1)) as [ [? E] | [? E] ]; rewrite ?E; auto; lia.
    + split; simpl; intros; simplify_eq; try done; try lia; auto.
  - specialize (Hp n eq_refl). case_stuck; intros [= <- <-]; bool_prop; split; simpl; intros; simplify_eq;
      simpl in *; try done; try lia; auto; right; lia.
  - specialize (Hp n eq_refl). specialize (Hob n o eq_refl).
    case_stuck; [|case_stuck]; intros [= <- <-]; bool_prop; split; simpl; intros; simplify_eq; simpl in *;
      try done; try lia; auto; right; lia.
  - specialize (Ho eq_refl). intros [= <- <-]. unfold gauge_leave. rewrite (proj2 (N.eqb_neq _ _)) by lia.
    split; simpl; intros; simplify_eq; try done; try lia; auto.
  - intros [= <- <-]. split; simpl; intros; simplify_eq; try done; try lia; auto.
  - done.
Qed.

Lemma set_gauge_eq k g gs : set_gauge k g gs k = g.
Proof. unfold set_gauge. by rewrite decide_True. Qed.

Lemma set_gauge_ne k k' g gs : k' <> k -> set_gauge k g gs k' = gs k'.
Proof. intros Hn. unfold set_gauge. by rewrite decide_False. Qed.

Lemma slot_of_if k p pc : (if decide (slot_of k (p, (k, pc))) then 1 else 0)%N = (if occupies pc then 1 else 0)%N.
Proof. unfold slot_of. simpl. case_decide as Hd; destruct (occupies pc); naive_solver. Qed.

Lemma slot_of_other k k' p pc : k' <> k -> (if decide (slot_of k (p, (k', pc))) then 1 else 0)%N = 0%N.
Proof. intros Hn. unfold slot_of. case_decide as Hd; naive_solver. Qed.

Lemma sys_inv_default : sys_inv system_default.
Proof. split; intros; try done; cbn; auto; lia. Qed.

Lemma sys_inv_spawn s p k :
  sys_inv s -> threads s !! p = None ->
  sys_inv {| gauges := gauges s; threads := <[p := (k, Entering)]> (threads s) |}.
Proof.
  intros Hi Hp.
  assert (Hold : forall q k' pc, <[p := (k, Entering)]> (threads s) !! q = Some (k', pc) ->
    pc <> Entering -> threads s !! q = Some (k', pc)).
  { intros q k' pc [ [<- [= <- <-] ] | [_ ?] ]%lookup_insert_Some; done. }
  split; cbn [gauges threads]; try apply Hi.
  - intros k'. rewrite occupants_insert_new by done. rewrite (si_active _ Hi).
    unfold slot_of. rewrite decide_False by (simpl; naive_solver). lia.
  - intros q k' c Hq. by eapply (si_loaded _ Hi), Hold.
  - intros q k' n o Hq. by eapply (si_observed _ Hi), Hold.
  - intros q k' pc n Hq Hn. eapply (si_publish _ Hi); [apply (Hold _ _ _ Hq)|done]. by intros ->.
  - intros k' Hr. destruct (si_record _ Hi k' Hr) as [?|(q & pc & Hq & Hn)]; [by left|right].
    exists q, pc. rewrite lookup_insert_ne by congruence. done.
Qed.

Lemma occupant_active s p k pc :
  sys_inv s -> threads s !! p = Some (k, pc) -> occupies pc = true -> (0 < active (gauges s k))%N.
Proof.
  intros Hi Hp Ho. rewrite (si_active _ Hi).
  pose proof (occupants_update k p k pc Done (threads s) Hp) as E. rewrite !slot_of_if, Ho in E. simpl in E. lia.
Qed.

Lemma sys_inv_access s p k pc w g' pc' :
  (forall k, limit k <= USIZE_MAX)%N ->
  sys_inv s -> threads s !! p = Some (k, pc) -> access k pc w (gauges s k) = Some (g', pc') ->
  sys_inv {| gauges := set_gauge k g' (gauges s); threads := <[p := (k, pc')]> (threads s) |}.
Proof.
  intros Hu Hi Hp Ha.
  assert (Hok : access_ok k (gauges s k) g' pc pc').
  { eapply access_spec; try done; try apply Hi.
    - intros c ->. by eapply (si_loaded _ Hi).
    - intros n o ->. by eapply (si_observed _ Hi).
    - intros n. by eapply (si_publish _ Hi).
    - by eapply occupant_active. }
  split; cbn [gauges threads].
  - intros k'. destruct (decide (k' = k)) as [->|Hn].
    + rewrite set_gauge_eq. pose proof (ao_active _ _ _ _ _ Hok).
      pose proof (occupants_update k p k pc pc' (threads s) Hp) as E. rewrite !slot_of_if in E.
      rewrite <- (si_active _ Hi) in E. lia.
    + rewrite set_gauge_ne by done. pose proof (occupants_update k' p k pc pc' (threads s) Hp) as E.
      rewrite !slot_of_other in E by done. rewrite (si_active _ Hi). lia.
  - intros k'. destruct (decide (k' = k)) as [->|Hn]; rewrite ?set_gauge_eq, ?set_gauge_ne by done;
      [apply Hok|apply Hi].
  - intros q k' c [ [<- [= <- ->] ] | [_ Hq] ]%lookup_insert_Some; [by apply Hok|by eapply (si_loaded _ Hi)].
  - intros q k' n o [ [<- [= <- ->] ] | [_ Hq] ]%lookup_insert_Some; [by apply Hok|by eapply (si_observed _ Hi)].
  - intros k'. destruct (decide (k' = k)) as [->|Hn]; rewrite ?set_gauge_eq, ?set_gauge_ne by done; [|apply Hi].
    pose proof (ao_max _ _ _ _ _ Hok). pose proof (ao_peak _ _ _ _ _ Hok). lia.
  - intros q k' pc0 n [ [<- [= <- <-] ] | [_ Hq] ]%lookup_insert_Some Hn.
    + rewrite set_gauge_eq. by apply Hok.
    + pose proof (si_publish _ Hi _ _ _ _ Hq Hn). destruct (decide (k' = k)) as [->|].
      * rewrite set_gauge_eq. pose proof (ao_peak _ _ _ _ _ Hok). lia.
      * by rewrite set_gauge_ne.
  - intros k'. destruct (decide (k' = k)) as [->|Hn]; rewrite ?set_gauge_eq, ?set_gauge_ne by done;
      [apply Hok|apply Hi].
  - intros k' Hr. destruct (decide (k' = k)) as [->|Hn].
    + rewrite set_gauge_eq. destruct (ao_new_peak _ _ _ _ _ Hok Hr) as [Ep|Hpub];
        [|right; exists p, pc'; by rewrite lookup_insert_eq].
      destruct (si_record _ Hi k Hr) as [Em|(q & pcq & Hq & Hn)].
      * left. pose proof (ao_max _ _ _ _ _ Hok). lia.
      * destruct (decide (q = p)) as [->|].
        -- rewrite Hp in Hq. injection Hq as <-.
           destruct (ao_published _ _ _ _ _ Hok Hn Ep) as [?|?]; [right|by left].
           exists p, pc'. rewrite lookup_insert_eq, Ep. done.
        -- right. exists q, pcq. rewrite lookup_insert_ne, Ep by done. done.
    + rewrite set_gauge_ne by done. destruct (si_record _ Hi k' Hr) as [?|(q & pcq & Hq & Hpub)]; [by left|right].
      exists q, pcq. rewrite lookup_insert_ne by congruence. done.
Qed.

Lemma sys_reachable_inv s : (forall k, limit k <= USIZE_MAX)%N -> sys_reachable s -> sys_inv s.
Proof.
  intros Hu. apply reachable_invariant; [intros ? ->; apply sys_inv_default|].
  intros s1 s2 Hi [p k Hp|p k pc w g' pc' Hp Ha]; [by apply sys_inv_spawn|by eapply sys_inv_access].
Qed.

(** An executable schedule: [inl (p, k)] spawns a thread, [inr p] runs its next access. *)
Definition exec_sys (e : nat * kind + nat) (s : System) : option System :=
  match e with
  | inl (p, k) =>
      match threads s !! p with
      | None => Some {| gauges := gauges s; threads := <[p := (k, Entering)]> (threads s) |}
      | Some _ => None
      end
  | inr p =>
      match threads s !! p with
      | Some (k, pc) =>
          match access k pc false (gauges s k) with
          | Some (g', pc') =>
              Some {| gauges := set_gauge k g' (gauges s); threads := <[p := (k, pc')]> (threads s) |}
          | None => None
          end
      | None => None
      end
  end.

Fixpoint exec_schedule (es : list (nat * kind + nat)) (s : System) : option System :=
  match es with [] => Some s | e :: es => s' ← exec_sys e s; exec_schedule es s' end.

Lemma exec_schedule_reachable es s s' : sys_reachable s -> exec_schedule es s = Some s' -> sys_reachable s'.
Proof.
  revert s. induction es as [|e es IH]; intros s Hr; simpl; [by intros [= <-]|].
  destruct (exec_sys e s) as [s1|] eqn:E; [|done]. simpl. apply IH. eapply reachable_step; [exact Hr|].
  destruct e as [ [p k] | p]; simpl in E.
  - destruct (threads s !! p) eqn:Ep; [done|]. injection E as <-. by apply step_spawn.
  - destruct (threads s !! p) as [ [k pc] |] eqn:Ep; [|done].
    destruct (access k pc false (gauges s k)) as [ [g' pc'] |] eqn:Ea; [|done]. injection E as <-.
    by eapply step_access.
Qed.

(** * Properties *)

(** C9: in every interleaving of the threads' atomic accesses, the number of
    permits in use never exceeds the limit, and the counter is exactly that number, so
    [fetch_sub] never wraps and no slot leaks. *)
Theorem permits_within_limit s k :
  (forall k, limit k <= USIZE_MAX)%N -> sys_reachable s ->
  active (gauges s k) = occupants k (threads s) /\ (occupants k (threads s) <= limit k)%N.
Proof.
  intros Hu Hr. pose proof (sys_reachable_inv s Hu Hr) as Hi. rewrite <- (si_active _ Hi).
  split; [done|apply Hi].
Qed.

(** The recorded maximum is a faithful high-water mark: it never exceeds the
    largest number of requests that were active at once, and it equals it whenever no
    thread is between taking its slot and publishing it. *)
Theorem recorded_maximum_exact s k :
  (forall k, limit k <= USIZE_MAX)%N -> records = true -> sys_reachable s ->
  (max_active (gauges s k) <= peak (gauges s k))%N
  /\ ((forall p pc n, threads s !! p = Some (k, pc) -> ~ publishes n pc) ->
      max_active (gauges s k) = peak (gauges s k)).
Proof.
  intros Hu Hrec Hr. pose proof (sys_reachable_inv s Hu Hr) as Hi. split; [apply Hi|].
  intros Hn. destruct (si_record _ Hi k Hrec) as [?|(p & pc & Hp & Hpub)]; [done|]. by destruct (Hn p pc (peak (gauges s k)) Hp).
Qed.

(** A lost compare-exchange means another thread made progress: the only way a thread
    that saw room goes round the loop again is that the counter changed after its load. *)
Lemma retry_only_after_change k current w g g' :
  access k (Loaded current) w g = Some (g', Entering) -> active g <> current.
Proof. cbn [access]. case_stuck; destruct records; intros [=]; by bool_prop. Qed.
End protocol.

(** ** The global governor *)

Record GlobalResourceGovernor := mkGovernor {
  active_request_limit : N;
  rss_soft_bytes : option N;
  fd_soft_limit : option N;
  thread_soft_limit : option N
}.

Record ResourceRejection := mkRejection { reject_reason : string; retry_after_ms : N }.

Definition governor_limit (gov : GlobalResourceGovernor) (_ : unit) : N := active_request_limit gov.

Definition governor_rejection : ResourceRejection :=
  {| reject_reason := "active request budget exhausted"; retry_after_ms := 1000 |}.

(** The governor's runs: one gauge, and the maximum is recorded. *)
Definition governor_reachable (gov : GlobalResourceGovernor) : System -> Prop :=
  sys_reachable (governor_limit gov) true.

(** [u64::try_from] of an [i64] fails exactly on negative numbers. *)
Definition json_u64 (value : JsonValue) (key : string) : option N :=
  match json_get value key ≫= as_i64 with
  | Some z => if (z <? 0)%Z then None else Some (Z.to_N z)
  | None => None
  end.

Definition over_soft_limit (observed soft_limit : option N) : bool :=
  match observed, soft_limit with Some value, Some limit => (limit <? value)%N | _, _ => false end.

Definition push_pressure_item (items : list JsonValue) (name : string) (observed soft_limit : option N)
    : list JsonValue :=
  items ++
  [json_object
     [("name", json_string name);
      ("observed", optional_number observed);
      ("softLimit", optional_number soft_limit);
      ("overLimit", json_bool (over_soft_limit observed soft_limit))] ].

Definition pressure_json (gov : GlobalResourceGovernor) (process_resource : JsonValue) : JsonValue :=
  let items := push_pressure_item [] "rssBytes" (json_u64 process_resource "rssBytes") (rss_soft_bytes gov) in
  let items := push_pressure_item items "fdCount" (json_u64 process_resource "fdCount") (fd_soft_limit gov) in
  let items := push_pressure_item items "threads" (json_u64 process_resource "threads") (thread_soft_limit gov) in
  let over_limit :=
    existsb (fun item => unwrap_or (json_get item "overLimit" ≫= as_bool) false) items in
  json_object [("ok", json_bool (negb over_limit)); ("items", json_array items)].

Definition governor_snapshot_json (gov : GlobalResourceGovernor) (g : Gauge) (process_resource : JsonValue)
    : JsonValue :=
  json_object
    [("schema", json_string "mcpace.globalResourceGovernor.v1");
     ("activeRequestLimit", json_number (active_request_limit gov));
     ("activeRequests", json_number (active g));
     ("maxActiveRequests", json_number (max_active g));
     ("completedRequests", json_number (completed g));
     ("rejectedRequests", json_number (rejected g));
     ("rssSoftBytes", optional_number (rss_soft_bytes gov));
     ("fdSoftLimit", optional_number (fd_soft_limit gov));
     ("threadSoftLimit", optional_number (thread_soft_limit gov));
     ("pressure", pressure_json gov process_resource);
     ("otelAliases", json_object
        [("http.server.active_requests", json_string "runtime.http.resourceGovernor.activeRequests");
         ("http.server.request.duration", json_string "runtime.http.latency.byRoute[*].totalMs")])].

(** ** The HTTP admission controller *)

Inductive HttpAdmissionKind : Type := HeavyAction | OverviewRefresh.

#[export] Instance HttpAdmissionKind_eq_dec : EqDecision HttpAdmissionKind.
Proof. solve_decision. Defined.

Record HttpAdmissionController := mkController { heavy_action_limit : N; overview_refresh_limit : N }.

(** The limit component of [parts]. *)
Definition controller_limit (c : HttpAdmissionController) (kind : HttpAdmissionKind) : N :=
  match kind with HeavyAction => heavy_action_limit c | OverviewRefresh => overview_refresh_limit c end.

(** The controller's runs: a gauge per kind, no maximum. *)
Definition admission_reachable (c : HttpAdmissionController) : System -> Prop :=
  sys_reachable (controller_limit c) false.

Definition kind_snapshot_json (limit : N) (g : Gauge) : JsonValue :=
  json_object
    [("limit", json_number limit); ("active", json_number (active g));
     ("completed", json_number (completed g)); ("rejected", json_number (rejected g))].

Definition admission_snapshot_json (c : HttpAdmissionController) (gauges : HttpAdmissionKind -> Gauge) : JsonValue :=
  json_object
    [("schema", json_string "mcpace.httpAdmission.v1");
     ("heavyActions", kind_snapshot_json (heavy_action_limit c) (gauges HeavyAction));
     ("overviewRefresh", kind_snapshot_json (overview_refresh_limit c) (gauges OverviewRefresh))].

(** ** Witnesses *)

(** Two threads race for one slot: both load before either exchanges. *)
Definition sample_race : list (nat * HttpAdmissionKind + nat) :=
  [inl (1%nat, OverviewRefresh); inl (2%nat, OverviewRefresh); inl (3%nat, HeavyAction);
   inr 1%nat; inr 2%nat; inr 1%nat; inr 2%nat; inr 2%nat; inr 3%nat; inr 3%nat].

Definition sample_controller : HttpAdmissionController := mkController 4 1.

Definition sample_system : System :=
  match exec_schedule (controller_limit sample_controller) false sample_race system_default with
  | Some s => s
  | None => system_default
  end.

Lemma sample_system_reachable : admission_reachable sample_controller sample_system.
Proof.
  apply (exec_schedule_reachable _ _ sample_race system_default); [by apply reachable_init|].
  vm_compute. reflexivity.
Qed.

Lemma sample_controller_width k : (controller_limit sample_controller k <= USIZE_MAX)%N.
Proof. destruct k; vm_compute; discriminate. Qed.

Lemma permits_within_limit_witness :
  occupants OverviewRefresh (threads sample_system) = 1%N
  /\ (occupants OverviewRefresh (threads sample_system) <= 1)%N.
Proof.
  split; [vm_compute; reflexivity|].
  apply (permits_within_limit (controller_limit sample_controller) false sample_system OverviewRefresh
           sample_controller_width sample_system_reachable).
Defined.

Definition sample_governor : GlobalResourceGovernor := mkGovernor 2 (Some 1000%N) None None.

Definition sample_schedule : list (nat * unit + nat) :=
  [inl (1%nat, tt); inl (2%nat, tt); inr 1%nat; inr 1%nat; inr 2%nat; inr 2%nat; inr 1%nat; inr 1%nat;
   inr 2%nat; inr 2%nat; inr 1%nat].

Definition sample_governor_system : System :=
  match exec_schedule (governor_limit sample_governor) true sample_schedule system_default with
  | Some s => s
  | None => system_default
  end.

Lemma sample_governor_reachable : governor_reachable sample_governor sample_governor_system.
Proof.
  apply (exec_schedule_reachable _ _ sample_schedule system_default); [by apply reachable_init|].
  vm_compute. reflexivity.
Qed.

Lemma recorded_maximum_exact_witness :
  (max_active (gauges sample_governor_system tt) <= peak (gauges sample_governor_system tt))%N
  /\ max_active (gauges sample_governor_system tt) = 2%N.
Proof.
  split; [|vm_compute; reflexivity].
  apply (recorded_maximum_exact (governor_limit sample_governor) true sample_governor_system tt).
  - intros []. vm_compute. discriminate.
  - reflexivity.
  - apply sample_governor_reachable.
Defined.
