(* ===== verification/RateLimit.v ===== *)
(** * The HTTP rate limiter (src/dashboard/rate_limit.rs)

    A sliding window of request times per client, with a bounded number of clients.
    Instants and durations are numbers of milliseconds; the instant 0 is the platform's
    earliest one. The hash map's iteration order is a parameter: it decides which of
    several equally old clients is evicted. *)

From S2P Require Import Prelude RustStr BTree Json.

Definition MAX_TRACKED_RATE_LIMIT_CLIENTS : N := 1024.
Definition RECENT_RATE_LIMIT_EXPORT_LIMIT : N := 25.

Record ClientWindow := mkWindow { requests : list N; last_seen : N }.

Record RateLimitedEvent := mkLimited { ev_client_key : string; ev_retry_after : N }.

Record RateLimitDecision := mkDecision { allowed : bool; retry_after : N; client_key : string }.

Record HttpRateLimiter := mkLimiter {
  window : N;
  max_requests : N;
  max_clients : N;
  clients : gmap string ClientWindow;
  allowed_total : N;
  limited_total : N;
  evicted_clients : N;
  recent_limited : list RateLimitedEvent
}.

Definition limiter_new (window max_requests : N) : HttpRateLimiter :=
  {| window := N.max window 1; max_requests := N.max max_requests 1;
     max_clients := MAX_TRACKED_RATE_LIMIT_CLIENTS; clients := ∅; allowed_total := 0;
     limited_total := 0; evicted_clients := 0; recent_limited := [] |}.

(** [now.checked_sub(d).unwrap_or(now)]. *)
Definition window_start_of (now d : N) : N := if (d <=? now)%N then (now - d)%N else now.

Fixpoint prune_window (requests : list N) (window_start : N) : list N :=
  match requests with
  | instant :: rest => if (instant <=? window_start)%N then prune_window rest window_start else requests
  | [] => []
  end.

Definition prune_client (window_start : N) (c : ClientWindow) : ClientWindow :=
  {| requests := prune_window (requests c) window_start; last_seen := last_seen c |}.

Definition set_clients (cs : gmap string ClientWindow) (evicted : N) (l : HttpRateLimiter) : HttpRateLimiter :=
  {| window := window l; max_requests := max_requests l; max_clients := max_clients l; clients := cs;
     allowed_total := allowed_total l; limited_total := limited_total l; evicted_clients := evicted;
     recent_limited := recent_limited l |}.

Definition keeps_client (idle_cutoff : N) (kv : string * ClientWindow) : Prop :=
  (idle_cutoff < last_seen kv.2)%N \/ requests kv.2 <> [].

#[export] Instance keeps_client_dec cutoff kv : Decision (keeps_client cutoff kv).
Proof. unfold keeps_client. apply _. Defined.

(** The window doubled stays in range: [checked_mul] on a [Duration] cannot fail for a
    window that is a number of milliseconds in a [u64]. *)
Definition prune_idle (now : N) (l : HttpRateLimiter) : HttpRateLimiter :=
  let pruned := prune_client (window_start_of now (window l)) <$> clients l in
  let cs := filter (keeps_client (window_start_of now (window l * 2))) pruned in
  set_clients cs (sat_add U64_MAX (evicted_clients l) (N.of_nat (size pruned - size cs))) l.

(** [min_by_key]: the first of the smallest. *)
Definition oldest_client (entries : list (string * ClientWindow)) : option (string * ClientWindow) :=
  min_by_key (fun e => last_seen e.2) entries.

Definition record_limited (key : string) (retry : N) (recent : list RateLimitedEvent) : list RateLimitedEvent :=
  let recent := if (RECENT_RATE_LIMIT_EXPORT_LIMIT <=? len_N recent)%N then tail recent else recent in
  recent ++ [{| ev_client_key := key; ev_retry_after := retry |}].

Section limiter.
Variable iteration : gmap string ClientWindow -> list (string * ClientWindow).

Definition evict_oldest_client (l : HttpRateLimiter) : HttpRateLimiter :=
  match oldest_client (iteration (clients l)) with
  | None => l
  | Some (oldest_key, _) =>
      set_clients (delete oldest_key (clients l)) (sat_add U64_MAX (evicted_clients l) 1) l
  end.

(** The client's window as [entry(..).or_insert_with(..)] finds it, pruned. *)
Definition client_requests (key : string) (now : N) (l : HttpRateLimiter) : list N :=
  prune_window (match clients l !! key with Some c => requests c | None => [] end)
    (window_start_of now (window l)).

Definition retry_delay (now : N) (w : N) (reqs : list N) : N :=
  N.max (match reqs with oldest :: _ => (w - (now - oldest))%N | [] => w end) 1000.

Definition make_room (key : string) (now : N) (l : HttpRateLimiter) : HttpRateLimiter :=
  let l := prune_idle now l in
  if negb (bool_decide (is_Some (clients l !! key))) && (max_clients l <=? N.of_nat (size (clients l)))%N
  then evict_oldest_client l
  else l.

Definition check_rate (key : string) (now : N) (l : HttpRateLimiter) : HttpRateLimiter * RateLimitDecision :=
  let l := make_room key now l in
  let reqs := client_requests key now l in
  if (max_requests l <=? len_N reqs)%N then
    let retry := retry_delay now (window l) reqs in
    ({| window := window l; max_requests := max_requests l; max_clients := max_clients l;
        clients := <[key := {| requests := reqs; last_seen := now |}]> (clients l);
        allowed_total := allowed_total l; limited_total := sat_add U64_MAX (limited_total l) 1;
        evicted_clients := evicted_clients l;
        recent_limited := record_limited key retry (recent_limited l) |},
     {| allowed := false; retry_after := retry; client_key := key |})
  else
    ({| window := window l; max_requests := max_requests l; max_clients := max_clients l;
        clients := <[key := {| requests := reqs ++ [now]; last_seen := now |}]> (clients l);
        allowed_total := sat_add U64_MAX (allowed_total l) 1; limited_total := limited_total l;
        evicted_clients := evicted_clients l; recent_limited := recent_limited l |},
     {| allowed := true; retry_after := 0; client_key := key |}).

Definition limiter_snapshot_json (l : HttpRateLimiter) : JsonValue :=
  let retained := fold_right (fun e n => (len_N (requests e.2) + n)%N) 0%N (iteration (clients l)) in
  let event_json ev :=
    json_object [("clientKey", json_string (ev_client_key ev)); ("retryAfterMs", json_number (ev_retry_after ev))] in
  let recent := rev (map event_json (firstn (N.to_nat RECENT_RATE_LIMIT_EXPORT_LIMIT) (rev (recent_limited l)))) in
  json_object
    [("schema", json_string "mcpace.httpRateLimit.v1");
     ("windowMs", json_number (window l)); ("maxRequests", json_number (max_requests l));
     ("maxTrackedClients", json_number (max_clients l));
     ("activeClients", json_number (N.of_nat (size (clients l))));
     ("retainedRequests", json_number retained);
     ("allowedTotal", json_number (allowed_total l)); ("limitedTotal", json_number (limited_total l));
     ("evictedClients", json_number (evicted_clients l));
     ("recentLimited", json_array recent)].

(** ** Lemmas: the window of one client *)

Lemma prune_window_suffix reqs start : exists pre, reqs = pre ++ prune_window reqs start.
Proof.
  induction reqs as [|x reqs [pre IH] ]; [by exists []|]. simpl. case_stuck; [|by exists []].
  exists (x :: pre). simpl. by rewrite <- IH.
Qed.

Lemma prune_window_length reqs start : (len_N (prune_window reqs start) <= len_N reqs)%N.
Proof.
  destruct (prune_window_suffix reqs start) as [pre E]. rewrite E at 2. rewrite len_N_app. lia.
Qed.

(** On a sorted window, pruning keeps exactly the requests after the start. *)
Lemma prune_window_filter reqs start :
  StronglySorted N.le reqs -> prune_window reqs start = List.filter (fun t => start <? t)%N reqs.
Proof.
  induction 1 as [|x reqs Hs IH Hx]; [done|]. simpl.
  destruct (N.leb_spec x start) as [Hle|Hlt]; destruct (N.ltb_spec start x) as [Hlt'|Hle']; try lia; [done|].
  f_equal. symmetry. apply forallb_filter_id, forallb_forall. intros y Hy%list_elem_of_In.
  rewrite Forall_forall in Hx. apply N.ltb_lt. specialize (Hx y Hy). lia.
Qed.

Lemma filter_filter_le (reqs : list N) a b :
  (a <= b)%N -> List.filter (fun t => b <? t)%N (List.filter (fun t => a <? t)%N reqs) = List.filter (fun t => b <? t)%N reqs.
Proof.
  intros Hab. induction reqs as [|x reqs IH]; [done|]. simpl.
  destruct (N.ltb_spec a x); simpl; destruct (N.ltb_spec b x); rewrite IH; done || lia.
Qed.

Lemma filter_sorted p (reqs : list N) : StronglySorted N.le reqs -> StronglySorted N.le (List.filter p reqs).
Proof.
  induction 1 as [|x reqs Hs IH Hx]; [constructor|]. simpl. case_stuck; [|done]. constructor; [done|].
  rewrite Forall_forall in *. intros y Hy%list_elem_of_In. apply filter_In in Hy as [Hy _].
  by apply Hx, list_elem_of_In.
Qed.

Lemma sorted_snoc (reqs : list N) now :
  StronglySorted N.le reqs -> Forall (fun t => t <= now)%N reqs -> StronglySorted N.le (reqs ++ [now]).
Proof.
  induction 1 as [|x reqs Hs IH Hx]; intros Hf; simpl; [by repeat constructor|].
  inversion Hf; subst. constructor; [by apply IH|]. apply Forall_app. split; [done|by repeat constructor].
Qed.

(** ** Lemmas: bounded memory *)

Hypothesis iteration_perm : forall m, iteration m ≡ₚ map_to_list m.

Record limiter_wf (l : HttpRateLimiter) : Prop := {
  wf_max : (1 <= max_requests l)%N;
  wf_capacity : (1 <= max_clients l)%N;
  wf_clients : (N.of_nat (size (clients l)) <= max_clients l)%N;
  wf_requests k c : clients l !! k = Some c -> (len_N (requests c) <= max_requests l)%N;
  wf_recent : (len_N (recent_limited l) <= RECENT_RATE_LIMIT_EXPORT_LIMIT)%N
}.

Lemma limiter_new_wf w m : limiter_wf (limiter_new w m).
Proof.
  split; cbn; try (unfold RECENT_RATE_LIMIT_EXPORT_LIMIT, MAX_TRACKED_RATE_LIMIT_CLIENTS; lia); intros; done.
Qed.

Lemma prune_idle_get now l k c :
  clients (prune_idle now l) !! k = Some c <->
  exists c0, clients l !! k = Some c0 /\ c = prune_client (window_start_of now (window l)) c0
    /\ keeps_client (window_start_of now (window l * 2)) (k, c).
Proof.
  cbn [prune_idle set_clients clients]. rewrite map_lookup_filter_Some, lookup_fmap, fmap_Some. naive_solver.
Qed.

Lemma prune_idle_size now l : (size (clients (prune_idle now l)) <= size (clients l))%nat.
Proof.
  cbn [prune_idle set_clients clients]. etrans; [apply map_size_filter|]. by rewrite map_size_fmap.
Qed.

Lemma oldest_client_elem entries e : oldest_client entries = Some e -> e ∈ entries.
Proof. intros H. by apply min_by_key_Some in H as [? _]. Qed.

Lemma oldest_client_None entries : oldest_client entries = None -> entries = [].
Proof. apply min_by_key_None. Qed.

(** Eviction removes one client, the least recently seen, when there is one. *)
Lemma evict_size l :
  clients l <> ∅ -> S (size (clients (evict_oldest_client l))) = size (clients l).
Proof.
  intros Hne. unfold evict_oldest_client.
  destruct (oldest_client (iteration (clients l))) as [ [k c] |] eqn:E.
  - apply oldest_client_elem in E. rewrite iteration_perm in E. apply elem_of_map_to_list in E.
    cbn [set_clients clients]. rewrite map_size_delete_Some by eauto.
    assert (size (clients l) <> 0)%nat; [|lia]. intros Hz. by apply map_size_empty_inv in Hz.
  - apply oldest_client_None in E. destruct Hne. apply map_to_list_empty_iff.
    pose proof (iteration_perm (clients l)) as Hp. rewrite E in Hp. by apply Permutation_nil in Hp.
Qed.

Lemma evict_get l k c : clients (evict_oldest_client l) !! k = Some c -> clients l !! k = Some c.
Proof.
  unfold evict_oldest_client. destruct (oldest_client _) as [ [k' c'] |]; [|done]. cbn [set_clients clients].
  by intros [_ ?]%lookup_delete_Some.
Qed.

Lemma evict_params l :
  window (evict_oldest_client l) = window l /\ max_requests (evict_oldest_client l) = max_requests l
  /\ max_clients (evict_oldest_client l) = max_clients l
  /\ recent_limited (evict_oldest_client l) = recent_limited l.
Proof. unfold evict_oldest_client. by destruct (oldest_client _) as [ [k c] |]. Qed.

Lemma make_room_params key now l :
  window (make_room key now l) = window l /\ max_requests (make_room key now l) = max_requests l
  /\ max_clients (make_room key now l) = max_clients l
  /\ recent_limited (make_room key now l) = recent_limited l.
Proof. unfold make_room. case_stuck; [apply (evict_params (prune_idle now l))|done]. Qed.

Lemma make_room_get key now l k c :
  clients (make_room key now l) !! k = Some c ->
  exists c0, clients l !! k = Some c0 /\ requests c = prune_window (requests c0) (window_start_of now (window l)).
Proof.
  unfold make_room. intros H.
  assert (Hp : clients (prune_idle now l) !! k = Some c) by (case_stuck_in H; [by apply evict_get|done]).
  apply prune_idle_get in Hp as (c0 & Hc & -> & _). by exists c0.
Qed.

Lemma make_room_size key now l :
  limiter_wf l ->
  let l' := make_room key now l in
  is_Some (clients l' !! key) /\ (N.of_nat (size (clients l')) <= max_clients l)%N
  \/ clients l' !! key = None /\ (N.of_nat (size (clients l')) < max_clients l)%N.
Proof.
  intros Hwf. cbv zeta. unfold make_room. pose proof (prune_idle_size now l) as Hs.
  pose proof (wf_clients _ Hwf). pose proof (wf_capacity _ Hwf).
  change (max_clients (prune_idle now l)) with (max_clients l).
  set (p := prune_idle now l) in *. clearbody p.
  destruct (clients p !! key) as [c|] eqn:Ek.
  - rewrite bool_decide_eq_true_2 by done. cbn [negb andb]. left. rewrite Ek. split; [done|lia].
  - rewrite bool_decide_eq_false_2 by (intros [? ?]; congruence). cbn [negb andb]. case_stuck; bool_prop.
    + right. assert (Hne : clients p <> ∅) by (intros E0; rewrite E0, map_size_empty in *; lia).
      pose proof (evict_size p Hne). split; [|lia].
      destruct (clients (evict_oldest_client p) !! key) as [c|] eqn:E2; [|done]. apply evict_get in E2. congruence.
    + right. split; [done|lia].
Qed.

Lemma client_requests_length key now l :
  limiter_wf l -> (len_N (client_requests key now l) <= max_requests l)%N.
Proof.
  intros Hwf. unfold client_requests. etrans; [apply prune_window_length|].
  destruct (clients l !! key) as [c|] eqn:E; [by eapply wf_requests|]. pose proof (wf_max _ Hwf). unfold len_N. simpl. lia.
Qed.

Lemma record_limited_length key retry recent :
  (len_N recent <= RECENT_RATE_LIMIT_EXPORT_LIMIT)%N ->
  (len_N (record_limited key retry recent) <= RECENT_RATE_LIMIT_EXPORT_LIMIT)%N.
Proof.
  unfold record_limited, RECENT_RATE_LIMIT_EXPORT_LIMIT. intros H. rewrite len_N_app. case_stuck; bool_prop.
  - destruct recent as [|x recent]; unfold len_N in *; simpl in *; lia.
  - unfold len_N in *. simpl. lia.
Qed.

Lemma make_room_wf key now l : limiter_wf l -> limiter_wf (make_room key now l).
Proof.
  intros Hwf. pose proof (make_room_params key now l) as (Ew & Em & Ec & Er).
  split; rewrite ?Ew, ?Em, ?Ec, ?Er; try apply Hwf.
  - destruct (make_room_size key now l Hwf) as [ [_ ?] | [_ ?] ]; lia.
  - intros k c (c0 & Hc & ->)%make_room_get. etrans; [apply prune_window_length|]. by eapply wf_requests.
Qed.

Lemma size_insert_bound (m : gmap string ClientWindow) k c n :
  is_Some (m !! k) /\ (N.of_nat (size m) <= n)%N \/ m !! k = None /\ (N.of_nat (size m) < n)%N ->
  (N.of_nat (size (<[k := c]> m)) <= n)%N.
Proof.
  intros [ [Hk Hs] | [Hk Hs] ].
  - rewrite map_size_insert_Some by done. done.
  - rewrite map_size_insert_None by done. lia.
Qed.

Lemma check_rate_wf key now l : limiter_wf l -> limiter_wf (check_rate key now l).1.
Proof.
  intros Hwf0. unfold check_rate. pose proof (make_room_wf key now l Hwf0) as Hwf.
  pose proof (make_room_size key now l Hwf0) as Hsz. cbv zeta in Hsz.
  pose proof (make_room_params key now l) as (_ & _ & Ec & _). rewrite <- Ec in Hsz.
  set (l' := make_room key now l) in *. clearbody l'. pose proof (client_requests_length key now l' Hwf) as Hl.
  case_stuck; bool_prop; cbn [fst];
    split; cbn [max_requests max_clients clients recent_limited]; try apply Hwf; try (by apply size_insert_bound).
  - intros k c [ [<- <-] | [_ ?] ]%lookup_insert_Some; [done|by eapply wf_requests].
  - apply record_limited_length, Hwf.
  - intros k c [ [<- <-] | [_ ?] ]%lookup_insert_Some; [|by eapply wf_requests].
    cbn [requests]. rewrite len_N_app. unfold len_N in *. simpl. lia.
Qed.

(** ** Traffic

    A run of the limiter with the history of the requests it let through, in order.
    Time does not go backwards, and no client is evicted to make room. *)

Record Traffic := mkTraffic { limiter : HttpRateLimiter; history : list (string * N); clock : N }.

Definition has_room (key : string) (l : HttpRateLimiter) : Prop :=
  is_Some (clients l !! key) \/ (N.of_nat (size (clients l)) < max_clients l)%N.

Inductive traffic_step (s : Traffic) : Traffic -> Prop :=
| step_check key now :
    (clock s <= now)%N -> (window (limiter s) <= now)%N -> has_room key (prune_idle now (limiter s)) ->
    traffic_step s
      {| limiter := (check_rate key now (limiter s)).1;
         history := if allowed (check_rate key now (limiter s)).2 then history s ++ [(key, now)] else history s;
         clock := now |}.

Definition times_of (k : string) (log : list (string * N)) : list N :=
  map snd (List.filter (fun e => String.eqb (fst e) k) log).

Definition after (start : N) (times : list N) : list N := List.filter (fun t => start <? t)%N times.

Definition recorded (k : string) (l : HttpRateLimiter) : list N :=
  match clients l !! k with Some c => requests c | None => [] end.

Record traffic_inv (w m : N) (s : Traffic) : Prop := {
  ti_window : window (limiter s) = w;
  ti_max : max_requests (limiter s) = m;
  ti_sorted k : StronglySorted N.le (times_of k (history s));
  ti_past k : Forall (fun t => t <= clock s)%N (times_of k (history s));
  ti_recorded k start : (clock s - w <= start)%N ->
    after start (recorded k (limiter s)) = after start (times_of k (history s));
  ti_recorded_sorted k : StronglySorted N.le (recorded k (limiter s));
  ti_limit pre k t post : history s = pre ++ (k, t) :: post ->
    (len_N (after (t - w) (times_of k (pre ++ [(k, t)]))) <= m)%N
}.

Lemma times_of_snoc k log k' t :
  times_of k (log ++ [(k', t)]) = times_of k log ++ (if String.eqb k' k then [t] else []).
Proof. unfold times_of. rewrite List.filter_app, map_app. simpl. by destruct (String.eqb k' k). Qed.

Lemma after_app start a b : after start (a ++ b) = after start a ++ after start b.
Proof. apply List.filter_app. Qed.

Lemma recorded_prune now l k :
  StronglySorted N.le (recorded k l) -> (window l <= now)%N ->
  recorded k (prune_idle now l) = after (now - window l) (recorded k l).
Proof.
  intros Hs Hw. unfold recorded in *.
  assert (Ew : window_start_of now (window l) = (now - window l)%N).
  { unfold window_start_of. by rewrite (proj2 (N.leb_le _ _) Hw). }
  destruct (clients (prune_idle now l) !! k) as [c|] eqn:E.
  - apply prune_idle_get in E as (c0 & Hc & -> & _). rewrite Hc in *. cbn [prune_client requests].
    by rewrite Ew, prune_window_filter.
  - destruct (clients l !! k) as [c0|] eqn:Hc; [|done].
    assert (Hk : ~ keeps_client (window_start_of now (window l * 2)) (k, prune_client (window_start_of now (window l)) c0)).
    { intros Hk. assert (clients (prune_idle now l) !! k = Some (prune_client (window_start_of now (window l)) c0)); [|congruence].
      apply prune_idle_get. eauto. }
    unfold keeps_client in Hk. cbn [snd prune_client requests] in Hk. rewrite Ew, prune_window_filter in Hk by done.
    symmetry. apply dec_stable. tauto.
Qed.

Lemma make_room_no_evict key now l : has_room key (prune_idle now l) -> make_room key now l = prune_idle now l.
Proof.
  unfold has_room, make_room. intros [Hk|Hs].
  - by rewrite bool_decide_eq_true_2.
  - rewrite (proj2 (N.leb_gt _ _) Hs). by rewrite andb_false_r.
Qed.

(** What a check does, in terms of the history. *)
Lemma check_rate_spec key now l times :
  has_room key (prune_idle now l) -> (window l <= now)%N -> StronglySorted N.le (recorded key l) ->
  after (now - window l) (recorded key l) = after (now - window l) times ->
  let recent := after (now - window l) times in
  let grants := (len_N recent <? max_requests l)%N in
  allowed (check_rate key now l).2 = grants
  /\ recorded key (check_rate key now l).1 = recent ++ (if grants then [now] else [])
  /\ (forall k, k <> key -> recorded k (check_rate key now l).1 = recorded k (prune_idle now l))
  /\ window (check_rate key now l).1 = window l /\ max_requests (check_rate key now l).1 = max_requests l.
Proof.
  intros Hr Hw Hs Hrec. cbv zeta. unfold check_rate. rewrite (make_room_no_evict _ _ _ Hr).
  assert (Ereq : client_requests key now (prune_idle now l) = after (now - window l) times).
  { unfold client_requests. fold (recorded key (prune_idle now l)). rewrite recorded_prune by done.
    change (window (prune_idle now l)) with (window l). unfold window_start_of.
    rewrite (proj2 (N.leb_le _ _) Hw), prune_window_filter by (by apply filter_sorted).
    fold (after (now - window l) (after (now - window l) (recorded key l))).
    unfold after at 1 2. rewrite filter_filter_le by lia. exact Hrec. }
  rewrite Ereq. change (max_requests (prune_idle now l)) with (max_requests l).
  rewrite N.leb_antisym. destruct (len_N (after (now - window l) times) <? max_requests l)%N; cbn [negb fst snd allowed].
  - repeat split; try done; unfold recorded at 1; cbn [clients].
    + by rewrite lookup_insert_eq.
    + intros k Hk. by rewrite lookup_insert_ne.
  - repeat split; try done; unfold recorded at 1; cbn [clients].
    + by rewrite lookup_insert_eq, app_nil_r.
    + intros k Hk. by rewrite lookup_insert_ne.
Qed.

Lemma check_rate_limited key now l :
  has_room key (prune_idle now l) -> allowed (check_rate key now l).2 = false ->
  retry_after (check_rate key now l).2 = retry_delay now (window l) (recorded key (check_rate key now l).1).
Proof.
  intros Hr. unfold check_rate. rewrite (make_room_no_evict _ _ _ Hr). cbv zeta. case_stuck; [|done].
  intros _. unfold recorded. cbn [fst snd clients retry_after]. by rewrite lookup_insert_eq.
Qed.

Lemma after_after a b times : (a <= b)%N -> after b (after a times) = after b times.
Proof. apply filter_filter_le. Qed.

Lemma after_length start times : (len_N (after start times) <= len_N times)%N.
Proof. apply len_N_filter_le. Qed.

(** The history after a check of [key] at [now] that was or was not let through. *)
Lemma times_of_step k key now log (granted : bool) :
  times_of k (if granted then log ++ [(key, now)] else log)
  = times_of k log ++ (if String.eqb key k && granted then [now] else []).
Proof. destruct granted; [rewrite times_of_snoc, andb_true_r; done|by rewrite andb_false_r, app_nil_r]. Qed.

Lemma history_split (log pre post : list (string * N)) e x :
  log ++ [e] = pre ++ x :: post -> (post = [] /\ pre = log /\ x = e) \/ exists post', log = pre ++ x :: post'.
Proof.
  destruct post as [|y post _] using rev_ind.
  - intros E. apply app_inj_tail in E as [-> ->]. by left.
  - rewrite app_comm_cons, app_assoc. intros E. apply app_inj_tail in E as [-> _]. right. by exists post.
Qed.

Lemma traffic_inv_step w m s s' : traffic_inv w m s -> traffic_step s s' -> traffic_inv w m s'.
Proof.
  intros Hi [key now Hc Hw Hroom].
  destruct (check_rate_spec key now (limiter s) (times_of key (history s)) Hroom Hw (ti_recorded_sorted _ _ _ Hi key))
    as (Ea & Ereck & Ereco & Ewin & Emax).
  { rewrite (ti_window _ _ _ Hi). apply (ti_recorded _ _ _ Hi). lia. }
  rewrite (ti_window _ _ _ Hi), (ti_max _ _ _ Hi) in *. rewrite Ea.
  set (grants := (len_N (after (now - w) (times_of key (history s))) <? m)%N) in *.
  assert (Hpast : forall k, Forall (fun t => t <= now)%N (times_of k (history s))).
  { intros k. eapply Forall_impl; [apply (ti_past _ _ _ Hi)|]. simpl. lia. }
  assert (Hsorted : forall k l0, l0 = [] \/ l0 = [now] -> StronglySorted N.le (times_of k (history s) ++ l0)).
  { intros k l0 [-> | ->]; [rewrite app_nil_r; apply Hi|apply sorted_snoc; [apply Hi|apply Hpast] ]. }
  split; cbn [limiter history clock]; try done.
  - intros k. rewrite times_of_step. apply Hsorted. case_stuck; auto.
  - intros k. rewrite times_of_step. apply Forall_app. split; [apply Hpast|]. case_stuck; repeat constructor. lia.
  - intros k start Hst. rewrite times_of_step. destruct (String.eqb_spec key k) as [->|Hne]; cbn [andb].
    + rewrite Ereck, !after_app, after_after by done. done.
    + rewrite Ereco by done. rewrite recorded_prune by (rewrite ?(ti_window _ _ _ Hi); try done; apply Hi).
      rewrite (ti_window _ _ _ Hi), after_after, app_nil_r by done. apply (ti_recorded _ _ _ Hi). lia.
  - intros k. destruct (decide (k = key)) as [->|Hne].
    + rewrite Ereck. destruct grants; [|rewrite app_nil_r; by apply filter_sorted, Hi].
      apply sorted_snoc; [by apply filter_sorted, Hi|]. apply Forall_forall. intros x Hx%list_elem_of_In.
      apply filter_In in Hx as [Hx%list_elem_of_In _]. specialize (Hpast key). rewrite Forall_forall in Hpast. auto.
    + rewrite Ereco by done. rewrite recorded_prune by (rewrite ?(ti_window _ _ _ Hi); try done; apply Hi).
      apply filter_sorted, Hi.
  - intros pre k t post. destruct grants eqn:Eg; [|apply (ti_limit _ _ _ Hi)].
    intros [ (-> & -> & [= -> ->]) | [post' E] ]%history_split; [|by eapply (ti_limit _ _ _ Hi)].
    rewrite times_of_snoc, String.eqb_refl, after_app, len_N_app. unfold grants in Eg. bool_prop.
    pose proof (after_length (now - w) [now]). unfold len_N at 2. unfold len_N in *. simpl in *. lia.
Qed.

Lemma traffic_inv_init w m now : traffic_inv (N.max w 1) (N.max m 1) (mkTraffic (limiter_new w m) [] now).
Proof.
  split; cbn; try done; try (intros; constructor). intros pre k t post E. by destruct pre.
Qed.

(** * Properties *)

(** The sliding window holds: in every run in which time does not go back and
    no client is evicted for lack of room, whenever a request is let through, it and the
    requests of the same client let through within the window before it are at most
    [max_requests]. *)
Theorem rate_limit_window w m s pre k t post :
  reachable (fun s => exists now, s = mkTraffic (limiter_new w m) [] now) traffic_step s ->
  history s = pre ++ (k, t) :: post ->
  (len_N (after (t - N.max w 1) (times_of k (pre ++ [(k, t)]))) <= N.max m 1)%N.
Proof.
  intros Hr. eapply (ti_limit (N.max w 1) (N.max m 1)). revert Hr.
  apply reachable_invariant; [intros ? [now ->]; apply traffic_inv_init|apply traffic_inv_step].
Qed.

(** The limiter's memory is bounded whatever is sent: after any check,
    with evictions and clocks of any kind, at most [max_clients] clients, at most
    [max_requests] instants per client and at most 25 recent events are kept. *)
Theorem rate_limiter_bounded key now l : limiter_wf l -> limiter_wf (check_rate key now l).1.
Proof. apply check_rate_wf. Qed.

(** The advertised delay is long enough: a client that was limited at
    [now] and comes back [retry_after] later, with no other traffic, is let through. *)
Theorem retry_after_sufficient key now l :
  limiter_wf l -> has_room key (prune_idle now l) -> (window l <= now)%N ->
  StronglySorted N.le (recorded key l) -> Forall (fun t => t <= now)%N (recorded key l) ->
  allowed (check_rate key now l).2 = false ->
  let later := (now + retry_after (check_rate key now l).2)%N in
  let l' := (check_rate key now l).1 in
  has_room key (prune_idle later l') -> allowed (check_rate key later l').2 = true.
Proof.
  intros Hwf Hroom Hw Hs Hp Hlim. cbv zeta.
  destruct (check_rate_spec key now l (recorded key l) Hroom Hw Hs eq_refl) as (Ea & Erec & _ & Ewin & Emax).
  rewrite Hlim in Ea. rewrite <- Ea, app_nil_r in Erec.
  set (recent := after (now - window l) (recorded key l)) in *.
  assert (Hlen : (max_requests l <= len_N recent)%N) by (symmetry in Ea; by bool_prop).
  assert (Hret : retry_after (check_rate key now l).2 = retry_delay now (window l) recent).
  { rewrite <- Erec. by apply check_rate_limited. }
  set (later := (now + retry_after (check_rate key now l).2)%N).
  set (l' := (check_rate key now l).1) in *. intros Hroom'.
  assert (Hrecent : StronglySorted N.le recent) by (by apply filter_sorted).
  destruct (check_rate_spec key later l' recent Hroom') as (Ea' & _).
  - rewrite Ewin. unfold later. lia.
  - by rewrite Erec.
  - by rewrite Erec.
  - rewrite Ea', Emax, Ewin. apply N.ltb_lt. unfold later. rewrite Hret. unfold retry_delay.
    destruct recent as [|oldest rest] eqn:Er; [pose proof (wf_max _ Hwf); change (len_N []) with 0%N in Hlen; lia|].
    assert (Ho : (oldest <= now)%N).
    { rewrite Forall_forall in Hp. apply Hp. assert (oldest ∈ after (now - window l) (recorded key l)) as Hin
        by (fold recent; rewrite Er; by left).
      apply list_elem_of_In, filter_In in Hin as [Hin _]. by apply list_elem_of_In. }
    set (start := (now + _ - window l)%N). assert (Hst : (oldest <= start)%N) by (unfold start; lia).
    unfold after. simpl. rewrite (proj2 (N.ltb_ge _ _) Hst).
    fold (after start rest). pose proof (after_length start rest).
    pose proof (check_rate_wf key now l Hwf) as Hwf'.
    assert (len_N (oldest :: rest) <= max_requests l)%N as Hle.
    { rewrite <- Emax, <- Erec. fold l' in Hwf'. unfold recorded. destruct (clients l' !! key) eqn:E;
        [by eapply (wf_requests _ Hwf')|]. unfold recorded in Erec. by rewrite E in Erec. }
    rewrite len_N_cons in *. lia.
Qed.
End limiter.

(** ** Witnesses: a concrete iteration order and a short run *)

Definition list_order (m : gmap string ClientWindow) : list (string * ClientWindow) := map_to_list m.

Lemma list_order_perm m : list_order m ≡ₚ map_to_list m.
Proof. done. Qed.

Definition run_check (key : string) (now : N) (s : Traffic) : Traffic :=
  {| limiter := (check_rate list_order key now (limiter s)).1;
     history := if allowed (check_rate list_order key now (limiter s)).2 then history s ++ [(key, now)]
                else history s;
     clock := now |}.

Definition sample_start : Traffic := mkTraffic (limiter_new 1000 2) [] 0.

Definition sample_traffic : Traffic :=
  run_check "a" 5200 (run_check "a" 5100 (run_check "a" 5000 sample_start)).

Lemma sample_traffic_reachable :
  reachable (fun s => exists now, s = mkTraffic (limiter_new 1000 2) [] now) (traffic_step list_order) sample_traffic.
Proof.
  apply (reachable_step _ _ (run_check "a" 5100 (run_check "a" 5000 sample_start))).
  - apply (reachable_step _ _ (run_check "a" 5000 sample_start)).
    + apply (reachable_step _ _ sample_start); [apply reachable_init; by exists 0%N|].
      apply step_check; [vm_compute; discriminate|vm_compute; discriminate|right; vm_compute; reflexivity].
    + apply step_check; [vm_compute; discriminate|vm_compute; discriminate|right; vm_compute; reflexivity].
  - apply step_check; [vm_compute; discriminate|vm_compute; discriminate|right; vm_compute; reflexivity].
Qed.

Lemma rate_limit_window_witness :
  history sample_traffic = [("a", 5000%N); ("a", 5100%N)]
  /\ (len_N (after (5100 - 1000) (times_of "a" [("a", 5000%N); ("a", 5100%N)])) <= 2)%N.
Proof.
  assert (E : history sample_traffic = [("a", 5000%N)] ++ ("a", 5100%N) :: []) by (vm_compute; reflexivity).
  split; [exact E|].
  apply (rate_limit_window list_order 1000 2 sample_traffic [("a", 5000%N)] "a" 5100 []
           sample_traffic_reachable E).
Defined.

Lemma rate_limiter_bounded_witness : limiter_wf (check_rate list_order "a" 5000 (limiter_new 1000 2)).1.
Proof. apply (rate_limiter_bounded list_order list_order_perm), limiter_new_wf. Defined.

Definition sample_full : HttpRateLimiter := limiter (run_check "a" 5100 (run_check "a" 5000 sample_start)).

Lemma sample_full_wf : limiter_wf sample_full.
Proof. apply (check_rate_wf list_order list_order_perm), (check_rate_wf list_order list_order_perm), limiter_new_wf. Qed.

Lemma retry_after_sufficient_witness :
  allowed (check_rate list_order "a" 5200 sample_full).2 = false
  /\ allowed (check_rate list_order "a" 6200 (check_rate list_order "a" 5200 sample_full).1).2 = true.
Proof.
  split; [vm_compute; reflexivity|].
  apply (retry_after_sufficient list_order list_order_perm "a" 5200 sample_full sample_full_wf).
  - right. vm_compute. reflexivity.
  - vm_compute. discriminate.
  - vm_compute. repeat constructor; discriminate.
  - vm_compute. repeat constructor; discriminate.
  - vm_compute. reflexivity.
  - right. vm_compute. reflexivity.
Defined.
