(* ===== verification/McpProtocol.v ===== *)
(** * The MCP envelope (src/mcp_protocol.rs)

    JSON-RPC requests and responses as MCPace reads and writes them: protocol version
    negotiation, request ids and the keys they are remembered under, validation of the
    two envelopes, construction of results and errors. *)

From Stdlib Require Import Ascii.
From S2P Require Import Prelude RustStr BTree Json.

Definition CURRENT_PROTOCOL_VERSION : string := "2025-11-25".
Definition STREAMABLE_HTTP_DEFAULT_PROTOCOL_VERSION : string := "2025-03-26".
Definition SUPPORTED_PROTOCOL_VERSIONS : list string :=
  ["2025-11-25"; "2025-06-18"; "2025-03-26"; "2024-11-05"].
Definition SERVER_NAME : string := "mcpace".
Definition JSONRPC_VERSION : string := "2.0".
Definition ERROR_PARSE : Z := -32700.
Definition ERROR_INVALID_REQUEST : Z := -32600.
Definition ERROR_METHOD_NOT_FOUND : Z := -32601.
Definition ERROR_INVALID_PARAMS : Z := -32602.
Definition ERROR_INTERNAL : Z := -32603.
Definition ERROR_HEADER_MISMATCH : Z := -32001.
Definition ERROR_NOT_INITIALIZED : Z := -32002.
Definition MAX_REQUEST_ID_BYTES : N := 256.

Inductive McpProtocolError :=
| MessageNotObject
| JsonRpcVersionMismatch (actual : option string)
| MethodMissing
| MethodNotString
| MethodEmpty
| ParamsNotObject
| IdMustBeIntegerNumber
| IdMustNotBeNull
| IdMustBeStringOrInteger
| ArgumentsNotObject (method_label : string)
| ResponseJsonRpcVersionMismatch (actual : option string)
| ResponseIdMismatch (expected : Z)
| ResponseHasBothResultAndError
| ResponseMissingResultOrError
| ResponseErrorNotObject.

(** The version between double quotes, as the messages show it. *)
Definition quoted_version : string :=
  String "034" (JSONRPC_VERSION +:+ String "034" EmptyString).

Definition display_protocol_error (e : McpProtocolError) : string :=
  match e with
  | MessageNotObject => "JSON-RPC message must be an object"
  | JsonRpcVersionMismatch (Some actual) =>
      "JSON-RPC request must declare jsonrpc " +:+ quoted_version +:+ "; got '" +:+ actual +:+ "'"
  | JsonRpcVersionMismatch None => "JSON-RPC request must declare jsonrpc " +:+ quoted_version
  | MethodMissing => "JSON-RPC request requires a method"
  | MethodNotString => "JSON-RPC method must be a string"
  | MethodEmpty => "JSON-RPC method must be non-empty"
  | ParamsNotObject => "MCP params must be a JSON object when present"
  | IdMustBeIntegerNumber => "JSON-RPC request id must be an integer number when numeric"
  | IdMustNotBeNull => "JSON-RPC request id must not be null"
  | IdMustBeStringOrInteger => "JSON-RPC id must be a string or integer number when present"
  | ArgumentsNotObject label => label +:+ " arguments must be a JSON object when present"
  | ResponseJsonRpcVersionMismatch (Some actual) =>
      "JSON-RPC response must declare jsonrpc " +:+ quoted_version +:+ "; got '" +:+ actual +:+ "'"
  | ResponseJsonRpcVersionMismatch None => "JSON-RPC response must declare jsonrpc " +:+ quoted_version
  | ResponseIdMismatch expected =>
      "JSON-RPC response id does not match request id " +:+ Z_to_string expected
  | ResponseHasBothResultAndError => "JSON-RPC response cannot contain both result and error"
  | ResponseMissingResultOrError => "JSON-RPC response must contain exactly one of result or error"
  | ResponseErrorNotObject => "JSON-RPC response error must be an object"
  end.

(** ** Versions and methods *)

Definition is_supported_protocol_version (requested : string) : bool :=
  existsb (String.eqb requested) SUPPORTED_PROTOCOL_VERSIONS.

Definition method_is_notification (method : string) : bool := starts_with "notifications/" method.

Definition negotiate_protocol_version (requested : string) : string :=
  unwrap_or (List.find (fun candidate => String.eqb candidate requested) SUPPORTED_PROTOCOL_VERSIONS)
    CURRENT_PROTOCOL_VERSION.

(** ** Request ids *)

Definition is_integer_number_text (value : string) : bool :=
  let digits := unwrap_or (strip_prefix "-" value) value in
  negb (str_is_empty digits) && all_bytes is_ascii_digit digits.

Definition request_id (message : JsonValue) : option JsonValue := value_at_path message ["id"].

Definition request_id_key (id : JsonValue) : option string :=
  match id with
  | JString value => Some ("s:" +:+ value)
  | JNumber value => if is_integer_number_text value then Some ("n:" +:+ value) else None
  | _ => None
  end.

Definition request_id_byte_len (id : JsonValue) : option N :=
  match id with
  | JString value => Some (str_len value)
  | JNumber value => if is_integer_number_text value then Some (str_len value) else None
  | _ => None
  end.

Definition request_id_is_within_limit (id : JsonValue) : bool :=
  match request_id_byte_len id with
  | Some length => (length <=? MAX_REQUEST_ID_BYTES)%N
  | None => false
  end.

Definition is_request_id_value (id : JsonValue) : bool :=
  match id with
  | JString _ => true
  | JNumber value => is_integer_number_text value
  | _ => false
  end.

Definition request_id_or_null (message : JsonValue) : JsonValue := unwrap_or (request_id message) JNull.

(** ** Results and errors *)

Definition rpc_result (id result : JsonValue) : JsonValue :=
  json_object [("jsonrpc", json_string JSONRPC_VERSION); ("id", id); ("result", result)].

Definition rpc_error (id : JsonValue) (code : Z) (message : string) (data : option JsonValue) : JsonValue :=
  let error_value :=
    match data with
    | Some value =>
        json_object [("code", json_number_i64 code); ("message", json_string message); ("data", value)]
    | None => json_object [("code", json_number_i64 code); ("message", json_string message)]
    end in
  json_object [("jsonrpc", json_string JSONRPC_VERSION); ("id", id); ("error", error_value)].

(** ** Validation *)

(** The [jsonrpc] member, or the version error of the envelope. *)
Definition require_version (mismatch : option string -> McpProtocolError)
    (object : list (string * JsonValue)) : result unit McpProtocolError :=
  match bt_get "jsonrpc" object ≫= as_str with
  | Some value => if String.eqb value JSONRPC_VERSION then Ok tt else Err (mismatch (Some value))
  | None => Err (mismatch None)
  end.

Definition require_method (object : list (string * JsonValue)) : result unit McpProtocolError :=
  match bt_get "method" object with
  | Some (JString value) => if str_is_empty (trim value) then Err MethodEmpty else Ok tt
  | Some _ => Err MethodNotString
  | None => Err MethodMissing
  end.

Definition require_params (object : list (string * JsonValue)) : result unit McpProtocolError :=
  match bt_get "params" object with
  | Some (JObject _) => Ok tt
  | Some _ => Err ParamsNotObject
  | None => Ok tt
  end.

Definition require_id (object : list (string * JsonValue)) : result unit McpProtocolError :=
  match bt_get "id" object with
  | Some (JString _) => Ok tt
  | Some (JNumber value) => if is_integer_number_text value then Ok tt else Err IdMustBeIntegerNumber
  | Some JNull => Err IdMustNotBeNull
  | Some _ => Err IdMustBeStringOrInteger
  | None => Ok tt
  end.

Definition validate_request_envelope (message : JsonValue) : result unit McpProtocolError :=
  object ←? ok_or (as_object message) MessageNotObject ;;
  _ ←? require_version JsonRpcVersionMismatch object ;;
  _ ←? require_method object ;;
  _ ←? require_params object ;;
  require_id object.

Definition id_matches (object : list (string * JsonValue)) (expected_id : Z) : bool :=
  match bt_get "id" object ≫= as_i64 with Some id => (id =? expected_id)%Z | None => false end.

Definition validate_response_envelope (message : JsonValue) (expected_id : Z) : result unit McpProtocolError :=
  object ←? ok_or (as_object message) MessageNotObject ;;
  _ ←? require_version ResponseJsonRpcVersionMismatch object ;;
  if id_matches object expected_id then
    match bt_contains "result" object, bt_get "error" object with
    | true, Some _ => Err ResponseHasBothResultAndError
    | false, None => Err ResponseMissingResultOrError
    | false, Some (JObject _) => Ok tt
    | true, None => Ok tt
    | false, Some _ => Err ResponseErrorNotObject
    end
  else Err (ResponseIdMismatch expected_id).

Definition params_arguments_object_or_empty (message : JsonValue) (method_label : string)
    : result JsonValue McpProtocolError :=
  match value_at_path message ["params"; "arguments"] with
  | Some (JObject map) => Ok (JObject map)
  | Some JNull | None => Ok empty_object
  | Some _ => Err (ArgumentsNotObject method_label)
  end.

Definition tool_call_arguments_or_empty (message : JsonValue) : result JsonValue McpProtocolError :=
  params_arguments_object_or_empty message "tools/call".

(** ** Lemmas *)

Lemma negotiate_unsupported requested :
  is_supported_protocol_version requested = false ->
  negotiate_protocol_version requested = CURRENT_PROTOCOL_VERSION.
Proof.
  unfold negotiate_protocol_version, is_supported_protocol_version.
  induction SUPPORTED_PROTOCOL_VERSIONS as [|v vs IH]; [done|].
  simpl. rewrite String.eqb_sym. intros [-> H]%orb_false_iff. auto.
Qed.

Lemma negotiate_supported requested :
  is_supported_protocol_version requested = true ->
  negotiate_protocol_version requested = requested.
Proof.
  unfold negotiate_protocol_version, is_supported_protocol_version.
  induction SUPPORTED_PROTOCOL_VERSIONS as [|v vs IH]; [done|].
  simpl. rewrite String.eqb_sym. destruct (String.eqb_spec v requested); auto.
Qed.

Lemma request_id_key_some id : is_some (request_id_key id) = is_request_id_value id.
Proof. destruct id as [| |t|t| |]; simpl; try done. by destruct (is_integer_number_text t). Qed.

Lemma request_id_key_inj id id' k :
  request_id_key id = Some k -> request_id_key id' = Some k -> id = id'.
Proof.
  destruct id as [| |t|t| |], id' as [| |t'|t'| |]; simpl; try done;
    repeat case_stuck; intros H1 H2; try done.
  all: assert (Hk : Some k = Some k) by done; rewrite <- H1 in Hk at 1; rewrite <- H2 in Hk.
  all: apply (inj Some) in Hk; try discriminate Hk; apply append_inj_r in Hk; by subst.
Qed.

(** The key is two bytes longer than the id. *)
Lemma request_id_key_len id k :
  request_id_key id = Some k -> request_id_byte_len id = Some (str_len k - 2)%N /\ (2 <= str_len k)%N.
Proof.
  destruct id as [| |t|t| |]; simpl; try done; try (destruct (is_integer_number_text t); [|done]).
  all: intros [= <-]; rewrite str_len_app; change (str_len "n:") with 2%N; change (str_len "s:") with 2%N.
  all: split; [f_equal; lia|lia].
Qed.

Lemma require_id_ok object :
  require_id object = Ok tt <-> forall id, bt_get "id" object = Some id -> is_request_id_value id = true.
Proof.
  unfold require_id. destruct (bt_get "id" object) as [id|]; [|done].
  split.
  - intros H ? [= <-]. destruct id as [| |t|t| |]; try done. simpl. by destruct (is_integer_number_text t).
  - intros H. specialize (H id eq_refl). destruct id as [| |t|t| |]; try done. simpl in H. by rewrite H.
Qed.

Lemma require_version_ok mismatch object :
  require_version mismatch object = Ok tt <-> bt_get "jsonrpc" object = Some (JString JSONRPC_VERSION).
Proof.
  unfold require_version. destruct (bt_get "jsonrpc" object) as [v|]; simpl; [|done].
  destruct v as [| |t|t| |]; simpl; try done. destruct (String.eqb_spec t JSONRPC_VERSION); split; congruence.
Qed.

Lemma parse_i64_Z_to_string z :
  (I64_MIN <= z <= I64_MAX)%Z -> parse_i64 (Z_to_string z) = Some z.
Proof.
  intros Hz. unfold Z_to_string. destruct (Z.ltb_spec z 0).
  - unfold parse_i64. rewrite parse_digits_N_to_string. simpl.
    replace (- Z.of_N (Z.to_N (- z)))%Z with z by lia.
    by rewrite (proj2 (Z.leb_le _ _) (proj1 Hz)), (proj2 (Z.leb_le _ _) (proj2 Hz)).
  - rewrite parse_i64_N_to_string by lia. f_equal. lia.
Qed.

Lemma validate_response_iff expected m :
  validate_response_envelope m expected = Ok tt <->
  exists object, m = JObject object
    /\ bt_get "jsonrpc" object = Some (JString JSONRPC_VERSION)
    /\ bt_get "id" object ≫= as_i64 = Some expected
    /\ (is_Some (bt_get "result" object) /\ bt_get "error" object = None
        \/ bt_get "result" object = None /\ exists e, bt_get "error" object = Some (JObject e)).
Proof.
  destruct m as [| | | | |object]; try (split; [done|intros (? & [=] & _)]).
  unfold validate_response_envelope. simpl.
  destruct (require_version _ object) as [ []|] eqn:Ev.
  2:{ split; [done|]. intros (? & [= <-] & Hv & _).
      rewrite <- (require_version_ok ResponseJsonRpcVersionMismatch) in Hv. congruence. }
  rewrite require_version_ok in Ev. unfold id_matches, bt_contains, is_some.
  destruct (bt_get "id" object ≫= as_i64) as [id|] eqn:Ei.
  2:{ split; [done|]. intros (? & [= <-] & _ & Hi & _). congruence. }
  destruct (Z.eqb_spec id expected) as [->|Hne].
  2:{ split; [done|]. intros (? & [= <-] & _ & Hi & _). congruence. }
  destruct (bt_get "result" object) as [r|] eqn:Er; destruct (bt_get "error" object) as [e|] eqn:Ee.
  + split; [done|]. intros (? & [= <-] & _ & _ & [ [_ ?] | [? _] ]); congruence.
  + split; [|done]. intros _. exists object. repeat split; try done. left. eauto.
  + split.
    * intros H. exists object. repeat split; try done. right. destruct e; try done. eauto.
    * intros (? & [= <-] & _ & _ & [ [ [? ?] _] | [_ [e' ?] ] ]); [congruence|]. by simplify_eq.
  + split; [done|]. intros (? & [= <-] & _ & _ & [ [ [? ?] _] | [_ [e' ?] ] ]); congruence.
Qed.

(** The id of an accepted request has a key. *)
Lemma accepted_request_key m id :
  validate_request_envelope m = Ok tt -> request_id m = Some id -> exists k, request_id_key id = Some k.
Proof.
  intros Hm E. assert (Hv : is_request_id_value id = true).
  { revert Hm E. destruct m as [| | | | |object]; try done.
    unfold validate_request_envelope, request_id. simpl. do 3 (case_stuck; [|done]).
    rewrite require_id_ok. intros H. destruct (bt_get "id" object); [|done]. intros [= ->]. by apply H. }
  rewrite <- request_id_key_some in Hv. destruct (request_id_key id); [eauto|done].
Qed.

(** The three-member envelopes MCPace builds, looked up. *)
Lemma envelope_id (member : string) (version id payload : JsonValue) :
  member = "result" \/ member = "error" ->
  bt_get "id" (bt_of_list [("jsonrpc", version); ("id", id); (member, payload)]) = Some id.
Proof. by intros [-> | ->]; vm_compute. Qed.

(** ** Claims *)

(** A request whose envelope is accepted carries either no id or an id with
    a replay key; two accepted requests have the same replay key exactly when they carry the
    same id, so a string id and an integer id are never confused; and an id within the
    256-byte limit has a key of at most 258 bytes, the storage limit of the session store. *)
Theorem request_id_keys_faithful m m' :
  validate_request_envelope m = Ok tt -> validate_request_envelope m' = Ok tt ->
  (forall id, request_id m = Some id -> exists k, request_id_key id = Some k
     /\ (request_id_is_within_limit id = true <-> (str_len k <= MAX_REQUEST_ID_BYTES + 2)%N))
  /\ (request_id m ≫= request_id_key = request_id m' ≫= request_id_key <-> request_id m = request_id m').
Proof.
  pose proof accepted_request_key as Hk.
  intros Hm Hm'. split.
  - intros id E. destruct (Hk m id Hm E) as [k Ek]. exists k. split; [done|].
    destruct (request_id_key_len id k Ek) as [El Hl]. unfold request_id_is_within_limit. rewrite El.
    rewrite N.leb_le. lia.
  - split; [|by intros ->].
    destruct (request_id m) as [id|] eqn:E, (request_id m') as [id'|] eqn:E'; simpl; try done.
    + destruct (Hk m id Hm E) as [k Ek], (Hk m' id' Hm' E') as [k' Ek']. rewrite Ek, Ek'. intros [= <-].
      f_equal. by eapply request_id_key_inj.
    + destruct (Hk m id Hm E) as [k Ek]. by rewrite Ek.
    + destruct (Hk m' id' Hm' E') as [k Ek]. by rewrite Ek.
Qed.

(** A response is accepted for a request id exactly when it is an object that
    declares JSON-RPC 2.0, its id is that integer, and it carries either a result or an
    error object but not both; every result and every error MCPace builds for that id is
    accepted, whatever the payload. *)
Theorem validate_response_envelope_exact expected :
  (forall m, validate_response_envelope m expected = Ok tt <->
     exists object, m = JObject object
       /\ bt_get "jsonrpc" object = Some (JString JSONRPC_VERSION)
       /\ bt_get "id" object ≫= as_i64 = Some expected
       /\ (is_Some (bt_get "result" object) /\ bt_get "error" object = None
           \/ bt_get "result" object = None /\ exists e, bt_get "error" object = Some (JObject e)))
  /\ ((I64_MIN <= expected <= I64_MAX)%Z ->
      forall payload code text data,
        validate_response_envelope (rpc_result (json_number_i64 expected) payload) expected = Ok tt
        /\ validate_response_envelope (rpc_error (json_number_i64 expected) code text data) expected = Ok tt).
Proof.
  split; [exact (validate_response_iff expected)|].
  intros Hz payload code text data.
  assert (Hp : parse_i64 (Z_to_string expected) = Some expected) by (by apply parse_i64_Z_to_string).
  split; apply validate_response_iff; eexists; (split; [reflexivity|]).
  - split; [vm_compute; reflexivity|]. split; [by rewrite (envelope_id "result") by auto|]. left. vm_compute. eauto.
  - split; [vm_compute; reflexivity|]. split; [by rewrite (envelope_id "error") by auto|]. right.
    split; [vm_compute; reflexivity|]. destruct data; vm_compute; eauto.
Qed.

(** ** Witnesses *)

Definition sample_request (id : JsonValue) : JsonValue :=
  json_object [("jsonrpc", json_string "2.0"); ("method", json_string "tools/list"); ("id", id)].

Lemma request_id_keys_faithful_witness :
  validate_request_envelope (sample_request (JString "7")) = Ok tt
  /\ (request_id (sample_request (JString "7")) ≫= request_id_key
        = request_id (sample_request (JNumber "7")) ≫= request_id_key
      <-> request_id (sample_request (JString "7")) = request_id (sample_request (JNumber "7"))).
Proof.
  split; [vm_compute; reflexivity|].
  apply (request_id_keys_faithful (sample_request (JString "7")) (sample_request (JNumber "7")));
    vm_compute; reflexivity.
Defined.

Lemma validate_response_envelope_exact_witness :
  validate_response_envelope (rpc_result (json_number_i64 2) JNull) 2 = Ok tt.
Proof.
  apply (proj2 (validate_response_envelope_exact 2)); [|exact 0%Z|exact EmptyString|exact None].
  split; vm_compute; discriminate.
Defined.
