(* ===== verification/HttpBoundary.v ===== *)
(** * HTTP requests at the boundary (src/dashboard.rs, src/dashboard/http_boundary.rs)

    The parsed request and the checks on its header fields: media types, the lookup of a
    header that may appear at most once, and the Host and Origin validation that keeps other
    sites out. Field names are lower case, as the request parser
    leaves them. *)

From Stdlib Require Import Ascii.
From S2P Require Import Prelude RustStr Json.

Record HttpRequest := mkRequest {
  method : string;
  path : string;
  query : string;
  headers : list (string * string);
  body : list ascii
}.

Inductive McpHttpResponse :=
| ResponseJson (payload : JsonValue)
| ResponseJsonWithHeaders (payload : JsonValue) (headers : list (string * string))
| ResponseJsonStatus (status : string) (payload : JsonValue)
| ResponseAccepted.

Inductive HttpBoundaryError :=
| MissingHost
| MultipleHost
| HostNotAllowed (host : string)
| MultipleOrigin
| OriginNotAllowed (origin : string)
| DuplicateHeader (key : string).

Definition display_boundary_error (e : HttpBoundaryError) : string :=
  match e with
  | MissingHost => "missing required Host header for MCPace serve mode"
  | MultipleHost => "multiple Host headers are not allowed for MCPace serve mode"
  | HostNotAllowed host => "host '" +:+ host +:+ "' is not allowed for MCPace serve mode"
  | MultipleOrigin => "multiple Origin headers are not allowed for MCPace serve mode"
  | OriginNotAllowed origin => "origin '" +:+ origin +:+ "' is not allowed for MCPace serve mode"
  | DuplicateHeader key => "multiple " +:+ key +:+ " headers are not allowed for MCP HTTP requests"
  end.

Definition header_name_symbols : list ascii :=
  ["!"; "#"; "$"; "%"; "&"; "'"; "*"; "+"; "-"; "."; "^"; "_"; "`"; "|"; "~"]%char.

Definition is_valid_http_header_name (name : string) : bool :=
  negb (str_is_empty name)
  && all_bytes (fun byte => existsb (Ascii.eqb byte) header_name_symbols || is_ascii_digit byte
                            || is_ascii_uppercase byte || is_ascii_lowercase byte) name.

Definition is_valid_http_header_value (value : string) : bool :=
  all_bytes (fun byte => Ascii.eqb byte " " || in_range 33 126 byte) value.

(** The values of a field, in order. *)
Definition header_values (key : string) (request : HttpRequest) : list string :=
  map snd (List.filter (fun h => String.eqb (fst h) key) (headers request)).

(** A media type without its parameters. *)
Definition media_type_of (item : string) : string :=
  trim (hd EmptyString (split_char ";" (trim item))).

Definition accepts (request : HttpRequest) (media_type : string) : bool :=
  existsb (fun value => existsb (fun item => eq_ignore_ascii_case (media_type_of item) media_type)
                          (split_char "," value))
    (header_values "accept" request).

Definition accepts_streamable_http_post (request : HttpRequest) : bool :=
  accepts request "application/json" && accepts request "text/event-stream".

Definition content_type_is (request : HttpRequest) (media_type : string) : bool :=
  match header_values "content-type" request with
  | [value] => eq_ignore_ascii_case (media_type_of value) media_type
  | _ => false
  end.

Definition request_header_string_unique (request : option HttpRequest) (key : string)
    : result (option string) HttpBoundaryError :=
  match request with
  | None => Ok None
  | Some request =>
      match header_values (to_ascii_lowercase key) request with
      | [] => Ok None
      | [value] => let trimmed := trim value in Ok (if str_is_empty trimmed then None else Some trimmed)
      | _ :: _ :: _ => Err (DuplicateHeader key)
      end
  end.

Definition request_header_string (request : option HttpRequest) (key : string) : option string :=
  match request_header_string_unique request key with Ok value => value | Err _ => None end.

(** ** Hosts

    [str::parse::<IpAddr>]: the standard library's parser reads from the front and returns
    what it read with the rest of the input; the whole input has to be read. *)

Definition hex_digit_value (c : ascii) : option N :=
  if in_range 48 57 c then Some (code c - 48)%N
  else if in_range 97 102 c then Some (code c - 87)%N
  else if in_range 65 70 c then Some (code c - 55)%N
  else None.

Definition radix_digit (radix : N) (c : ascii) : option N :=
  opt_filter (fun d => d <? radix)%N (hex_digit_value c).

(** The digits at the front: value, number of digits, rest. *)
Fixpoint read_digits (radix value count : N) (l : list ascii) : N * N * list ascii :=
  match l with
  | c :: rest =>
      match radix_digit radix c with
      | Some d => read_digits radix (value * radix + d) (count + 1) rest
      | None => (value, count, l)
      end
  | [] => (value, count, l)
  end.

Definition leading_zero (l : list ascii) : bool :=
  match l with c :: _ => Ascii.eqb c "0" | [] => false end.

Definition read_number (radix max_digits max : N) (allow_zero_prefix : bool) (l : list ascii)
    : option (N * list ascii) :=
  let '(value, count, rest) := read_digits radix 0 0 l in
  if (max_digits <? count)%N || (count =? 0)%N || negb allow_zero_prefix && leading_zero l && (1 <? count)%N
     || (max <? value)%N
  then None else Some (value, rest).

(** [read_separator]: the separator comes first, except before the first element. *)
Definition after_separator (sep : ascii) (index : nat) (l : list ascii) : option (list ascii) :=
  match index with
  | O => Some l
  | S _ => match l with c :: rest => if Ascii.eqb c sep then Some rest else None | [] => None end
  end.

Fixpoint read_octets (remaining index : nat) (l : list ascii) : option (list N * list ascii) :=
  match remaining with
  | O => Some ([], l)
  | S remaining =>
      '(octet, l) ← after_separator "." index l ≫= read_number 10 3 255 false;
      '(octets, l) ← read_octets remaining (S index) l;
      Some (octet :: octets, l)
  end.

Definition read_ipv4_addr (l : list ascii) : option (list N * list ascii) := read_octets 4 0 l.

(** Up to [remaining] groups of 16 bits, the last two of which may be an IPv4 address. *)
Fixpoint read_groups (remaining index : nat) (l : list ascii) : list N * bool * list ascii :=
  match remaining with
  | O => ([], false, l)
  | S remaining' =>
      let embedded := if Nat.ltb 1 remaining then after_separator ":" index l ≫= read_ipv4_addr else None in
      match embedded with
      | Some (octets, rest) =>
          match octets with
          | [one; two; three; four] => ([one * 256 + two; three * 256 + four]%N, true, rest)
          | _ => ([], true, rest)
          end
      | None =>
          match after_separator ":" index l ≫= read_number 16 4 65535 true with
          | Some (group, rest) =>
              let '(groups, ipv4, rest) := read_groups remaining' (S index) rest in
              (group :: groups, ipv4, rest)
          | None => ([], false, l)
          end
      end
  end.

Definition read_ipv6_addr (l : list ascii) : option (list N * list ascii) :=
  let '(head, head_ipv4, rest) := read_groups 8 0 l in
  if Nat.eqb (length head) 8 then Some (head, rest)
  else if head_ipv4 then None
  else match rest with
       | a :: b :: rest =>
           if Ascii.eqb a ":" && Ascii.eqb b ":" then
             let '(tail, _, rest) := read_groups (7 - length head) 0 rest in
             Some (head ++ repeat 0%N (8 - length head - length tail) ++ tail, rest)
           else None
       | _ => None
       end.

Inductive IpAddr := V4 (octets : list N) | V6 (groups : list N).

Definition parse_ip_addr (s : string) : option IpAddr :=
  match read_ipv4_addr (bytes s) with
  | Some (octets, rest) => match rest with [] => Some (V4 octets) | _ => None end
  | None =>
      match read_ipv6_addr (bytes s) with
      | Some (groups, []) => Some (V6 groups)
      | _ => None
      end
  end.

Definition is_loopback (address : IpAddr) : bool :=
  match address with
  | V4 octets => match octets with first :: _ => (first =? 127)%N | [] => false end
  | V6 groups => bool_decide (groups = [0; 0; 0; 0; 0; 0; 0; 1]%N)
  end.

(** [strip_prefix('[').and_then(strip_suffix(']')).unwrap_or(host)]. *)
Definition strip_suffix_char (c : ascii) (s : string) : option string :=
  match rev (bytes s) with
  | a :: rest => if Ascii.eqb a c then Some (of_bytes (rev rest)) else None
  | [] => None
  end.

Definition without_brackets (host : string) : string :=
  unwrap_or (strip_prefix "[" host ≫= strip_suffix_char "]") host.

Definition is_loopback_host (host : string) : bool :=
  let trimmed := trim host in
  if eq_ignore_ascii_case trimmed "localhost" then true
  else match parse_ip_addr (without_brackets trimmed) with
       | Some address => is_loopback address
       | None => false
       end.

Definition valid_port (value : string) : bool :=
  match parse_unsigned 65535 value with Some port => (0 <? port)%N | None => false end.

Definition valid_port_suffix (value : string) : bool :=
  match strip_prefix ":" value with Some port => valid_port port | None => false end.

Definition rsplit_once (c : ascii) (s : string) : option (string * string) :=
  option_map (fun p => (of_bytes (rev (bytes p.2)), of_bytes (rev (bytes p.1))))
    (split_once c (of_bytes (rev (bytes s)))).

Definition count_char (c : ascii) (s : string) : N := len_N (List.filter (Ascii.eqb c) (bytes s)).

Definition origin_host (authority : string) : option string :=
  if starts_with "[" authority then
    match split_once "]" authority with
    | Some (front, suffix) =>
        if str_is_empty suffix || valid_port_suffix suffix then Some (front +:+ "]") else None
    | None => None
    end
  else if (1 <? count_char ":" authority)%N then None
  else match rsplit_once ":" authority with
       | Some (host, port) => if negb (str_is_empty host) && valid_port port then Some host else None
       | None => Some authority
       end.

(** [char::is_whitespace] on some character. *)
Fixpoint any_whitespace (l : list ascii) : bool :=
  match l with
  | [] => false
  | a :: l1 =>
      ws1 a
      || match l1 with
         | b :: l2 => ws2 a b || match l2 with c :: _ => ws3 a b c | [] => false end
         | [] => false
         end
      || any_whitespace l1
  end.

Definition is_valid_http_authority (authority : string) : bool :=
  if str_is_empty authority || contains_char "/" authority || contains_char "@" authority
     || (any_control (bytes authority) || any_whitespace (bytes authority))
  then false
  else if (contains_char "[" authority || contains_char "]" authority) && negb (starts_with "[" authority)
  then false
  else match origin_host authority with
       | None => false
       | Some host =>
           let bare_host := without_brackets host in
           negb (str_is_empty bare_host) && negb (contains_char "[" bare_host)
           && negb (contains_char "]" bare_host)
       end.

Definition is_allowed_local_authority (authority : string) : bool :=
  if is_valid_http_authority authority then
    match origin_host authority with Some host => is_loopback_host host | None => false end
  else false.

Definition origin_authority (origin : string) : option string :=
  if String.eqb origin "null" then None
  else opt_filter is_valid_http_authority (opt_or (strip_prefix "http://" origin) (strip_prefix "https://" origin)).

Definition is_allowed_local_origin (origin : string) : bool :=
  match origin_authority origin with Some authority => is_allowed_local_authority authority | None => false end.

Definition is_allowed_local_host (host_header : string) : bool := is_allowed_local_authority host_header.

Definition validate_origin_for_bind (request : HttpRequest) : result unit HttpBoundaryError :=
  match header_values "host" request with
  | [] => Err MissingHost
  | _ :: _ :: _ => Err MultipleHost
  | [host] =>
      let host := trim host in
      if negb (is_allowed_local_authority host) then Err (HostNotAllowed host)
      else match header_values "origin" request with
           | [] => Ok tt
           | _ :: _ :: _ => Err MultipleOrigin
           | [origin] =>
               let origin := trim origin in
               if negb (is_allowed_local_origin origin)
                  || negb (match origin_authority origin with
                           | Some authority => eq_ignore_ascii_case authority host
                           | None => false
                           end)
               then Err (OriginNotAllowed origin) else Ok tt
           end
  end.

Definition validate_origin (request : HttpRequest) : result unit HttpBoundaryError := validate_origin_for_bind request.

(** ** Lemmas *)

Definition decimal_digits : list ascii := ["0"; "1"; "2"; "3"; "4"; "5"; "6"; "7"; "8"; "9"]%char.

Lemma radix_digit_10 c d : radix_digit 10 c = Some d -> In c decimal_digits /\ d = (code c - 48)%N.
Proof.
  destruct c as [ [] [] [] [] [] [] [] [] ]; vm_compute; intros H; try discriminate H.
  all: injection H as <-; split; [tauto|reflexivity].
Qed.

(** A decimal numeral of one to three digits without a leading zero is the printed number. *)
Definition numeral_value (ds : list ascii) : N := fold_left (fun v c => v * 10 + (code c - 48))%N ds 0%N.

Definition canonical_numeral (ds : list ascii) : bool :=
  leading_zero ds && (1 <? len_N ds)%N || String.eqb (of_bytes ds) (N_to_string (numeral_value ds)).

Lemma canonical_numerals :
  forallb (fun a => canonical_numeral [a] && forallb (fun b => canonical_numeral [a; b]
    && forallb (fun c => canonical_numeral [a; b; c]) decimal_digits) decimal_digits) decimal_digits = true.
Proof. vm_compute. reflexivity. Qed.

Lemma short_numeral_canonical ds :
  Forall (fun c => In c decimal_digits) ds -> (1 <= len_N ds <= 3)%N -> canonical_numeral ds = true.
Proof.
  intros Hds Hlen. pose proof canonical_numerals as Hall. rewrite forallb_forall in Hall.
  destruct Hds as [|a ds Ha Hds]; [unfold len_N in Hlen; simpl in Hlen; lia|].
  specialize (Hall a Ha). apply andb_true_iff in Hall as [H1 Hall]. rewrite forallb_forall in Hall.
  destruct Hds as [|b ds Hb Hds]; [done|].
  specialize (Hall b Hb). apply andb_true_iff in Hall as [H2 Hall]. rewrite forallb_forall in Hall.
  destruct Hds as [|c ds Hc Hds]; [done|]. destruct ds; [by apply Hall|].
  rewrite !len_N_cons in Hlen. lia.
Qed.

(** What [read_digits] has read. *)
Lemma read_digits_spec value count l :
  exists ds, l = ds ++ (read_digits 10 value count l).2 /\ Forall (fun c => In c decimal_digits) ds
    /\ (read_digits 10 value count l).1.1 = fold_left (fun v c => v * 10 + (code c - 48))%N ds value
    /\ (read_digits 10 value count l).1.2 = (count + len_N ds)%N.
Proof.
  revert value count. induction l as [|c l IH]; intros value count; cbn [read_digits].
  { exists []. repeat split; [constructor|]. unfold len_N. simpl. lia. }
  destruct (radix_digit 10 c) as [d|] eqn:E.
  - apply radix_digit_10 in E as [Hc ->].
    destruct (IH (value * 10 + (code c - 48))%N (count + 1)%N) as (ds & El & Hds & Ev & Ec).
    exists (c :: ds). split; [simpl; by f_equal|]. split; [by constructor|]. split; [done|].
    rewrite Ec, len_N_cons. lia.
  - exists []. repeat split; [constructor|]. unfold len_N. simpl. lia.
Qed.

Lemma read_octet_text l n rest :
  read_number 10 3 255 false l = Some (n, rest) -> l = bytes (N_to_string n) ++ rest /\ (n <= 255)%N.
Proof.
  unfold read_number. destruct (read_digits_spec 0 0 l) as (ds & El & Hds & Ev & Ec).
  destruct (read_digits 10 0 0 l) as [ [value count] rest']. cbn [fst snd] in *. case_stuck; [done|].
  intros [= <- <-]. apply orb_false_iff in E as [E Hmax]. apply orb_false_iff in E as [E Hzero].
  apply orb_false_iff in E as [Hlong Hnone]. apply N.ltb_ge in Hmax, Hlong. apply N.eqb_neq in Hnone.
  split; [|done]. rewrite El at 1. f_equal. rewrite Ec in *.
  pose proof (short_numeral_canonical ds Hds ltac:(lia)) as Hcan. unfold canonical_numeral in Hcan.
  assert (Hlz : leading_zero ds = leading_zero l) by (destruct ds; [unfold len_N in Hnone; simpl in Hnone; lia|by rewrite El]).
  rewrite Hlz, <- (N.add_0_l (len_N ds)) in Hcan. cbn [negb andb] in Hzero. rewrite Hzero in Hcan. cbn [orb] in Hcan.
  apply String.eqb_eq in Hcan. rewrite Ev. change (fold_left _ ds 0%N) with (numeral_value ds).
  by rewrite <- Hcan, bytes_of_bytes.
Qed.

(** The text of an IPv4 address is its octets in decimal. *)
Lemma read_ipv4_text l octets rest :
  read_ipv4_addr l = Some (octets, rest) ->
  exists a b c d, octets = [a; b; c; d] /\ (a <= 255 /\ b <= 255 /\ c <= 255 /\ d <= 255)%N
    /\ l = bytes (join "." (map N_to_string [a; b; c; d])) ++ rest.
Proof.
  unfold read_ipv4_addr. cbn [read_octets after_separator mbind option_bind].
  assert (Hsep : forall l' l2, match l' with c :: r => if Ascii.eqb c "." then Some r else None | [] => None end = Some l2 ->
            l' = "."%char :: l2).
  { intros [|c r] l2; [done|]. destruct (Ascii.eqb_spec c "."); [|done]. by intros [= ->]; subst. }
  destruct (read_number 10 3 255 false l) as [ [a l1] |] eqn:Ea; [|done]. cbn.
  apply read_octet_text in Ea as [-> Ha].
  destruct (match l1 with c :: r => _ | [] => _ end) as [l2|] eqn:E1; [|done]. apply Hsep in E1 as ->. cbn.
  destruct (read_number 10 3 255 false l2) as [ [b l3] |] eqn:Eb; [|done]. cbn.
  apply read_octet_text in Eb as [-> Hb].
  destruct (match l3 with c :: r => _ | [] => _ end) as [l4|] eqn:E3; [|done]. apply Hsep in E3 as ->. cbn.
  destruct (read_number 10 3 255 false l4) as [ [c l5] |] eqn:Ec; [|done]. cbn.
  apply read_octet_text in Ec as [-> Hc].
  destruct (match l5 with c :: r => _ | [] => _ end) as [l6|] eqn:E5; [|done]. apply Hsep in E5 as ->. cbn.
  destruct (read_number 10 3 255 false l6) as [ [d l7] |] eqn:Ed; [|done]. cbn.
  apply read_octet_text in Ed as [-> Hd]. intros [= <- <-]. exists a, b, c, d. split; [done|]. split; [done|].
  rewrite !bytes_app. change (bytes ".") with ["."%char]. by rewrite <- !(assoc_L (++)).
Qed.

Lemma parse_ip_loopback s address :
  parse_ip_addr s = Some address -> is_loopback address = true ->
  (exists b c d, (b <= 255 /\ c <= 255 /\ d <= 255)%N /\ s = join "." (map N_to_string [127; b; c; d]%N))
  \/ address = V6 [0; 0; 0; 0; 0; 0; 0; 1]%N.
Proof.
  unfold parse_ip_addr. destruct (read_ipv4_addr (bytes s)) as [ [octets rest] |] eqn:E4.
  - destruct rest; [|done]. intros [= <-] Hl. left.
    apply read_ipv4_text in E4 as (a & b & c & d & -> & Hb & Es). cbn in Hl. apply N.eqb_eq in Hl as ->.
    exists b, c, d. split; [tauto|]. apply bytes_inj. by rewrite Es, app_nil_r.
  - destruct (read_ipv6_addr (bytes s)) as [ [groups [|x rest] ] |]; [|done|done]. intros [= <-] Hl. right.
    cbn in Hl. bool_prop. by subst.
Qed.

Lemma rsplit_once_Some c s l r : rsplit_once c s = Some (l, r) -> s = l +:+ String c r.
Proof.
  unfold rsplit_once. destruct (split_once c _) as [ [x y] |] eqn:E; [|done]. cbn [option_map fst snd].
  intros [= <- <-]. apply split_once_Some in E as [E _]. apply (f_equal bytes) in E.
  rewrite bytes_of_bytes, bytes_app in E. apply (f_equal (@rev ascii)) in E. rewrite rev_involutive, rev_app_distr in E.
  apply bytes_inj. rewrite E, bytes_app.
  change (bytes (String c y)) with (c :: bytes y).
  change (bytes (String c (of_bytes (rev (bytes x))))) with (c :: bytes (of_bytes (rev (bytes x)))).
  rewrite !bytes_of_bytes. cbn [rev]. by rewrite <- (assoc_L (++)).
Qed.

(** An authority is its host, with or without a port. *)
Lemma origin_host_shape authority host :
  origin_host authority = Some host ->
  authority = host \/ exists port, authority = host +:+ ":" +:+ port /\ valid_port port = true.
Proof.
  unfold origin_host. case_stuck.
  - destruct (split_once "]" authority) as [ [front suffix] |] eqn:Es; [|done].
    apply split_once_Some in Es as [-> _]. case_stuck; [|done]. intros [= <-].
    change (String "]" suffix) with ("]" +:+ suffix). bool_prop.
    destruct E0 as [E0|E0].
    + left. by destruct suffix.
    + right. unfold valid_port_suffix in E0. destruct (strip_prefix ":" suffix) as [port|] eqn:Ep; [|done].
      apply strip_prefix_Some in Ep as ->. exists port. by rewrite append_assoc_str.
  - case_stuck; [done|]. destruct (rsplit_once ":" authority) as [ [h port] |] eqn:Er.
    + case_stuck; [|done]. intros [= <-]. bool_prop. right. exists port. split; [|done].
      by apply rsplit_once_Some in Er.
    + intros [= <-]. by left.
Qed.

(** ** Claims *)

(** The names of this machine: localhost in any case, 127.b.c.d in canonical decimal (in
    brackets or not), and the texts of the IPv6 address one. *)
Definition loopback_name (host : string) : Prop :=
  to_ascii_lowercase (trim host) = "localhost"
  \/ (exists b c d, (b <= 255 /\ c <= 255 /\ d <= 255)%N
        /\ without_brackets (trim host) = join "." (map N_to_string [127; b; c; d]%N))
  \/ parse_ip_addr (without_brackets (trim host)) = Some (V6 [0; 0; 0; 0; 0; 0; 0; 1]%N).

Lemma is_loopback_host_name host : is_loopback_host host = true -> loopback_name host.
Proof.
  unfold is_loopback_host, loopback_name. case_stuck.
  - intros _. left. by apply String.eqb_eq in E.
  - destruct (parse_ip_addr _) as [address|] eqn:Ea; [|done]. intros Hl.
    destruct (parse_ip_loopback _ _ Ea Hl) as [H| ->]; auto.
Qed.

Lemma is_allowed_local_authority_host authority :
  is_allowed_local_authority authority = true -> exists host, origin_host authority = Some host /\ loopback_name host.
Proof.
  unfold is_allowed_local_authority. case_stuck; [|done]. destruct (origin_host authority) as [host|]; [|done].
  intros H%is_loopback_host_name. eauto.
Qed.

Lemma origin_authority_Some origin authority :
  origin_authority origin = Some authority ->
  origin = "http://" +:+ authority \/ origin = "https://" +:+ authority.
Proof.
  unfold origin_authority. case_stuck; [done|]. intros [H _]%opt_filter_Some. revert H. unfold opt_or.
  destruct (strip_prefix "http://" origin) eqn:E1.
  - intros [= <-]. left. by apply strip_prefix_Some.
  - intros H. right. by apply strip_prefix_Some.
Qed.

(** C13: every request that passes the boundary check names this machine: it has
    exactly one Host header, whose host is a loopback name, followed by nothing or by a
    port; and it has no Origin header, or exactly one, which is an http or https origin of
    that same authority. A page of another site, or a name rebound to 127.0.0.1, cannot
    pass. *)
Theorem local_requests_only request :
  validate_origin_for_bind request = Ok tt ->
  exists raw host, header_values "host" request = [raw]
    /\ (trim raw = host \/ exists port, trim raw = host +:+ ":" +:+ port /\ valid_port port = true)
    /\ loopback_name host
    /\ (header_values "origin" request = []
        \/ exists origin authority, header_values "origin" request = [origin]
             /\ (trim origin = "http://" +:+ authority \/ trim origin = "https://" +:+ authority)
             /\ to_ascii_lowercase authority = to_ascii_lowercase (trim raw)).
Proof.
  unfold validate_origin_for_bind. destruct (header_values "host" request) as [|raw [|] ]; [done| |done]. cbv zeta.
  destruct (is_allowed_local_authority (trim raw)) eqn:Ea; [|done]. cbn [negb].
  apply is_allowed_local_authority_host in Ea as (host & Eh & Hl). intros H. exists raw, host.
  split; [done|]. split; [by apply origin_host_shape|]. split; [done|]. revert H.
  destruct (header_values "origin" request) as [|origin [|] ]; [by left| |done].
  destruct (negb (is_allowed_local_origin _) || _) eqn:E; [done|]. intros _. right. apply orb_false_iff in E as [_ E].
  destruct (origin_authority (trim origin)) as [authority|] eqn:Eo; [|done]. exists origin, authority.
  split; [done|]. split; [by apply origin_authority_Some|]. by apply negb_false_iff, String.eqb_eq in E.
Qed.

(** ** Witness *)

Definition sample_local_request : HttpRequest :=
  {| method := "POST"; path := "/mcp"; query := EmptyString;
     headers := [("host", " [::1]:8080"); ("origin", "http://[::1]:8080")]; body := [] |}.

Definition sample_rebound_request : HttpRequest :=
  {| method := "POST"; path := "/mcp"; query := EmptyString;
     headers := [("host", "127.0.0.1.evil.example:8080")]; body := [] |}.

Lemma local_requests_only_witness :
  validate_origin_for_bind sample_rebound_request = Err (HostNotAllowed "127.0.0.1.evil.example:8080")
  /\ exists raw host, header_values "host" sample_local_request = [raw]
    /\ (trim raw = host \/ exists port, trim raw = host +:+ ":" +:+ port /\ valid_port port = true)
    /\ loopback_name host
    /\ (header_values "origin" sample_local_request = []
        \/ exists origin authority, header_values "origin" sample_local_request = [origin]
             /\ (trim origin = "http://" +:+ authority \/ trim origin = "https://" +:+ authority)
             /\ to_ascii_lowercase authority = to_ascii_lowercase (trim raw)).
Proof.
  split; [vm_compute; reflexivity|]. apply local_requests_only. vm_compute. reflexivity.
Defined.
