(* ===== verification/HttpSession.v ===== *)
(** * MCP HTTP sessions (src/dashboard/http_session.rs, src/dashboard/mcp_http.rs)

    The store of sessions the Streamable HTTP endpoint keeps, with the request ids each
    session has used, and the four places where a request meets it: initialization, the
    gate in front of every other method, the initialized notification and DELETE. Each is
    one critical section of the store's mutex. Times are numbers of milliseconds; the hash
    map's iteration order is a parameter, because it decides which of several equally old
    sessions is evicted. *)

From Stdlib Require Import Ascii.
From S2P Require Import Prelude RustStr BTree Json McpProtocol HttpBoundary.

Definition DEFAULT_MCP_HTTP_SESSION_TTL_MS : N := 60 * 60 * 1000.
Definition DEFAULT_MCP_HTTP_SESSION_LIMIT : N := 1024.
Definition MAX_MCP_HTTP_SESSION_ID_BYTES : N := 256.
Definition MAX_MCP_HTTP_REQUEST_IDS_PER_SESSION : N := 4096.
Definition MAX_MCP_HTTP_REQUEST_ID_STORAGE_BYTES : N := MAX_REQUEST_ID_BYTES + 2.
Definition MAX_MCP_HTTP_REQUEST_ID_REPLAY_BYTES : N := 512 * 1024.
Definition MAX_MCP_HTTP_GLOBAL_REQUEST_ID_REPLAY_BYTES : N := 16 * 1024 * 1024.
Definition MAX_MCP_HTTP_CLIENT_INFO_FIELD_BYTES : N := 256.
Definition MAX_HTTP_HEADER_LINE_BYTES : N := 8 * 1024.

(** ** Sessions and errors *)

Record McpHttpSession := mkSession {
  id : string;
  protocol_version : string;
  client_name : option string;
  client_version : option string;
  created_at_ms : N;
  last_seen_at_ms : N;
  expires_at_ms : N;
  initialized : bool;
  seen_request_ids : gset string;
  seen_request_id_bytes : N
}.

Record McpHttpSessionView := mkView {
  view_id : string;
  view_protocol_version : string;
  view_initialized : bool
}.

Definition view (s : McpHttpSession) : McpHttpSessionView :=
  {| view_id := id s; view_protocol_version := protocol_version s; view_initialized := initialized s |}.

Inductive McpHttpSessionErrorKind :=
| Missing
| Invalid
| Unknown
| Expired
| ProtocolMismatch
| DuplicateRequestId
| RequestIdLimit.

Record McpHttpSessionError := session_error { kind : McpHttpSessionErrorKind; message : string }.

Definition http_status (e : McpHttpSessionError) : string :=
  match kind e with
  | Unknown | Expired => "404 Not Found"
  | Missing | Invalid | ProtocolMismatch | DuplicateRequestId => "400 Bad Request"
  | RequestIdLimit => "429 Too Many Requests"
  end.

Definition expired_error : McpHttpSessionError :=
  session_error Expired "expired MCP HTTP session; initialize again before sending more requests".

Definition unknown_error : McpHttpSessionError :=
  session_error Unknown "unknown MCP HTTP session; initialize again before sending more requests".

Definition global_budget_error : McpHttpSessionError :=
  session_error RequestIdLimit
    "global MCP HTTP request-id replay budget is full; close an idle session and retry".

Definition id_too_long_error : McpHttpSessionError :=
  session_error Invalid "JSON-RPC request id exceeds the 256 byte limit".

Record McpHttpSessionStore := mkStore {
  sessions : gmap string McpHttpSession;
  max_sessions : N;
  ttl_ms : N;
  pruned_expired_sessions : N
}.

Definition store_new (max_sessions ttl_ms : N) : McpHttpSessionStore :=
  {| sessions := ∅; max_sessions := N.max max_sessions 1; ttl_ms := N.max ttl_ms 1;
     pruned_expired_sessions := 0 |}.

Definition store_default : McpHttpSessionStore :=
  store_new DEFAULT_MCP_HTTP_SESSION_LIMIT DEFAULT_MCP_HTTP_SESSION_TTL_MS.

Definition set_sessions (m : gmap string McpHttpSession) (st : McpHttpSessionStore) : McpHttpSessionStore :=
  {| sessions := m; max_sessions := max_sessions st; ttl_ms := ttl_ms st;
     pruned_expired_sessions := pruned_expired_sessions st |}.

Definition count_pruned (n : N) (st : McpHttpSessionStore) : McpHttpSessionStore :=
  {| sessions := sessions st; max_sessions := max_sessions st; ttl_ms := ttl_ms st;
     pruned_expired_sessions := sat_add USIZE_MAX (pruned_expired_sessions st) n |}.

(** Every operation returns the store it leaves, on errors too. *)
Definition Outcome : Type := McpHttpSessionStore * result McpHttpSessionView McpHttpSessionError.

(** ** Session ids *)

Definition normalize_mcp_http_session_id (value : string) : option string :=
  let trimmed := trim value in
  if str_is_empty trimmed || (MAX_MCP_HTTP_SESSION_ID_BYTES <? str_len trimmed)%N
     || (MAX_HTTP_HEADER_LINE_BYTES <? str_len trimmed)%N
  then None
  else if all_bytes (in_range 33 126) trimmed then Some trimmed else None.

Definition hex_digits : list ascii :=
  ["0"; "1"; "2"; "3"; "4"; "5"; "6"; "7"; "8"; "9"; "a"; "b"; "c"; "d"; "e"; "f"]%char.

Definition hex_char (n : N) : ascii := nth (N.to_nat n) hex_digits "0"%char.

Definition hex_bytes (bs : list ascii) : string :=
  of_bytes (flat_map (fun byte => [hex_char (N.shiftr (code byte) 4); hex_char (N.land (code byte) 15)]) bs).

(** [random] is what the operating system's generator answers for a number of bytes. *)
Definition generated_mcp_http_session_id (random : N -> result (list ascii) string) : result string string :=
  match random 16%N with
  | Ok bs => Ok ("mcpace-" +:+ hex_bytes bs)
  | Err source => Err ("OS randomness unavailable: " +:+ source)
  end.

(** ** Pruning *)

Definition unexpired (now_ms : N) (kv : string * McpHttpSession) : Prop := (now_ms < expires_at_ms kv.2)%N.

#[export] Instance unexpired_dec now kv : Decision (unexpired now kv).
Proof. unfold unexpired. apply _. Defined.

Definition prune_expired (now_ms : N) (st : McpHttpSessionStore) : McpHttpSessionStore :=
  let kept := filter (unexpired now_ms) (sessions st) in
  count_pruned (N.of_nat (size (sessions st) - size kept)) (set_sessions kept st).

(** The session with its mutable part replaced. *)
Definition refreshed (now_ms ttl : N) (s : McpHttpSession) : McpHttpSession :=
  {| id := id s; protocol_version := protocol_version s; client_name := client_name s;
     client_version := client_version s; created_at_ms := created_at_ms s; last_seen_at_ms := now_ms;
     expires_at_ms := sat_add U128_MAX now_ms ttl; initialized := initialized s;
     seen_request_ids := seen_request_ids s; seen_request_id_bytes := seen_request_id_bytes s |}.

Definition made_ready (s : McpHttpSession) : McpHttpSession :=
  {| id := id s; protocol_version := protocol_version s; client_name := client_name s;
     client_version := client_version s; created_at_ms := created_at_ms s;
     last_seen_at_ms := last_seen_at_ms s; expires_at_ms := expires_at_ms s; initialized := true;
     seen_request_ids := seen_request_ids s; seen_request_id_bytes := seen_request_id_bytes s |}.

Definition remembered (key : string) (s : McpHttpSession) : McpHttpSession :=
  {| id := id s; protocol_version := protocol_version s; client_name := client_name s;
     client_version := client_version s; created_at_ms := created_at_ms s;
     last_seen_at_ms := last_seen_at_ms s; expires_at_ms := expires_at_ms s; initialized := initialized s;
     seen_request_ids := {[key]} ∪ seen_request_ids s;
     seen_request_id_bytes := sat_add USIZE_MAX (seen_request_id_bytes s) (str_len key) |}.

(** ** Touching and closing *)

(** The check both begin with: an expired session is removed and reported. *)
Definition drop_if_expired (session_id : string) (now_ms : N) (st : McpHttpSessionStore)
    : option McpHttpSessionStore :=
  match sessions st !! session_id with
  | Some s => if (expires_at_ms s <=? now_ms)%N
              then Some (count_pruned 1 (set_sessions (delete session_id (sessions st)) st))
              else None
  | None => None
  end.

Definition touch (session_id : string) (protocol_header : option string) (now_ms : N)
    (st : McpHttpSessionStore) : Outcome :=
  match drop_if_expired session_id now_ms st with
  | Some st => (st, Err expired_error)
  | None =>
      match sessions st !! session_id with
      | None => (st, Err unknown_error)
      | Some s =>
          match protocol_header with
          | Some header =>
              if String.eqb header (protocol_version s)
              then let s := refreshed now_ms (ttl_ms st) s in
                   (set_sessions (<[session_id := s]> (sessions st)) st, Ok (view s))
              else (st, Err (session_error ProtocolMismatch
                     ("MCP-Protocol-Version header '" +:+ header
                      +:+ "' does not match initialized session protocol '" +:+ protocol_version s +:+ "'")))
          | None => let s := refreshed now_ms (ttl_ms st) s in
                    (set_sessions (<[session_id := s]> (sessions st)) st, Ok (view s))
          end
      end
  end.

Definition close (session_id : string) (now_ms : N) (st : McpHttpSessionStore) : Outcome :=
  match drop_if_expired session_id now_ms st with
  | Some st => (st, Err expired_error)
  | None =>
      match sessions st !! session_id with
      | None => (st, Err unknown_error)
      | Some s => (set_sessions (delete session_id (sessions st)) st, Ok (view s))
      end
  end.

Definition boundary_error (e : HttpBoundaryError) : McpHttpSessionError :=
  session_error Invalid (display_boundary_error e).

(** The session id a request names; [missing] is the message for a request without one. *)
Definition session_id_of (missing : string) (request : HttpRequest) : result string McpHttpSessionError :=
  header ←? map_err boundary_error (request_header_string_unique (Some request) "mcp-session-id") ;;
  raw ←? ok_or header (session_error Missing missing) ;;
  ok_or (normalize_mcp_http_session_id raw)
    (session_error Invalid "invalid Mcp-Session-Id header; expected bounded visible ASCII").

Definition touch_target (request : HttpRequest) : result (string * option string) McpHttpSessionError :=
  session_id ←? session_id_of "missing required Mcp-Session-Id header after initialize" request ;;
  protocol_header ←? map_err boundary_error (request_header_string_unique (Some request) "mcp-protocol-version") ;;
  Ok (session_id, protocol_header).

Definition touch_from_request (request : HttpRequest) (now_ms : N) (st : McpHttpSessionStore) : Outcome :=
  match touch_target request with
  | Err error => (st, Err error)
  | Ok (session_id, protocol_header) => touch session_id protocol_header now_ms st
  end.

Definition close_from_request (request : HttpRequest) (now_ms : N) (st : McpHttpSessionStore) : Outcome :=
  match session_id_of "DELETE /mcp requires Mcp-Session-Id" request with
  | Err error => (st, Err error)
  | Ok session_id => close session_id now_ms st
  end.

Definition mark_initialized_from_request (request : HttpRequest) (now_ms : N) (st : McpHttpSessionStore)
    : Outcome :=
  match touch_from_request request now_ms st with
  | (st, Err error) => (st, Err error)
  | (st, Ok touched) =>
      match sessions st !! view_id touched with
      | None => (st, Err unknown_error)
      | Some s => let s := made_ready s in
                  (set_sessions (<[view_id touched := s]> (sessions st)) st, Ok (view s))
      end
  end.

Section store.
Variable iteration : gmap string McpHttpSession -> list (string * McpHttpSession).

(** The request-id bytes of all sessions. [usize] is wide enough: the sum stays within the
    global budget ([store_wf]). *)
Definition replay_bytes (st : McpHttpSessionStore) : N :=
  sum_by (fun e => seen_request_id_bytes e.2) (iteration (sessions st)).

(** ** Request ids *)

Definition track_request_id (session_id request_id_key : string) (st : McpHttpSessionStore) : Outcome :=
  let global := replay_bytes st in
  match sessions st !! session_id with
  | None => (st, Err unknown_error)
  | Some s =>
      if bool_decide (request_id_key ∈ seen_request_ids s) then
        (st, Err (session_error DuplicateRequestId
                    "JSON-RPC request id was already used in this MCP HTTP session"))
      else if (MAX_MCP_HTTP_REQUEST_ID_STORAGE_BYTES <? str_len request_id_key)%N then
        (st, Err id_too_long_error)
      else if (MAX_MCP_HTTP_GLOBAL_REQUEST_ID_REPLAY_BYTES
                 <? sat_add USIZE_MAX global (str_len request_id_key))%N then
        (st, Err global_budget_error)
      else if (MAX_MCP_HTTP_REQUEST_IDS_PER_SESSION <=? N.of_nat (size (seen_request_ids s)))%N
           || (MAX_MCP_HTTP_REQUEST_ID_REPLAY_BYTES
                 <? sat_add USIZE_MAX (seen_request_id_bytes s) (str_len request_id_key))%N then
        (st, Err (session_error RequestIdLimit
                    "MCP HTTP session request-id replay budget is full; initialize a new session"))
      else
        let s := remembered request_id_key s in
        (set_sessions (<[session_id := s]> (sessions st)) st, Ok (view s))
  end.

(** ** Creation *)

(** [while self.sessions.len() >= self.max_sessions]: every round removes a session, so the
    number of sessions bounds the rounds. *)
Fixpoint evict_loop (fuel : nat) (max : N) (m : gmap string McpHttpSession) : gmap string McpHttpSession :=
  match fuel with
  | O => m
  | S fuel =>
      if (max <=? N.of_nat (size m))%N then
        match min_by_key (fun e => last_seen_at_ms e.2) (iteration m) with
        | None => m
        | Some (oldest_session_id, _) => evict_loop fuel max (delete oldest_session_id m)
        end
      else m
  end.

Definition evict_until_capacity_for_insert (st : McpHttpSessionStore) : McpHttpSessionStore :=
  set_sessions (evict_loop (size (sessions st)) (max_sessions st) (sessions st)) st.

Definition too_long (limit : N) (value : option string) : bool :=
  match value with Some value => (limit <? str_len value)%N | None => false end.

Definition make_capacity (session_id : string) (now_ms : N) (st : McpHttpSessionStore) : McpHttpSessionStore :=
  let st := prune_expired now_ms st in
  if bool_decide (is_Some (sessions st !! session_id)) then st else evict_until_capacity_for_insert st.

Definition key_bytes (key : option string) : N :=
  match key with Some key => str_len key | None => 0 end.

Definition new_session (session_id protocol_version : string) (client_name client_version : option string)
    (initialize_request_id_key : option string) (now_ms ttl : N) : McpHttpSession :=
  {| id := session_id; protocol_version := protocol_version; client_name := client_name;
     client_version := client_version; created_at_ms := now_ms; last_seen_at_ms := now_ms;
     expires_at_ms := sat_add U128_MAX now_ms ttl; initialized := false;
     seen_request_ids := match initialize_request_id_key with Some key => {[key]} | None => ∅ end;
     seen_request_id_bytes := key_bytes initialize_request_id_key |}.

Definition create_or_replace (session_id protocol_version : string) (client_name client_version : option string)
    (initialize_request_id_key : option string) (now_ms : N) (st : McpHttpSessionStore) : Outcome :=
  if too_long MAX_MCP_HTTP_CLIENT_INFO_FIELD_BYTES client_name
     || too_long MAX_MCP_HTTP_CLIENT_INFO_FIELD_BYTES client_version then
    (st, Err (session_error Invalid "MCP clientInfo name/version exceeds the 256 byte field limit"))
  else if too_long MAX_MCP_HTTP_REQUEST_ID_STORAGE_BYTES initialize_request_id_key then
    (st, Err id_too_long_error)
  else
    let st := make_capacity session_id now_ms st in
    let replaced := match sessions st !! session_id with Some s => seen_request_id_bytes s | None => 0%N end in
    let global := (replay_bytes st - replaced)%N in
    if (MAX_MCP_HTTP_GLOBAL_REQUEST_ID_REPLAY_BYTES
          <? sat_add USIZE_MAX global (key_bytes initialize_request_id_key))%N then
      (st, Err global_budget_error)
    else
      let s := new_session session_id protocol_version client_name client_version
                 initialize_request_id_key now_ms (ttl_ms st) in
      (set_sessions (<[session_id := s]> (sessions st)) st, Ok (view s)).

(** ** The snapshot *)

Record McpHttpSessionSnapshot := mkSnapshot {
  snap_session_count : N;
  snap_max_sessions : N;
  snap_ttl_ms : N;
  snap_pruned_expired_sessions : N;
  snap_oldest_created_at_ms : option N;
  snap_newest_last_seen_at_ms : option N;
  snap_named_client_sessions : N;
  snap_versioned_client_sessions : N;
  snap_mcpace_generated_sessions : N;
  snap_request_id_replay_bytes : N;
  snap_max_request_id_replay_bytes : N
}.

(** [Iterator::min] and [Iterator::max]. *)
Definition fold_option (f : N -> N -> N) (l : list N) : option N :=
  match l with [] => None | x :: rest => Some (fold_left f rest x) end.

Definition snapshot (now_ms : N) (st : McpHttpSessionStore) : McpHttpSessionStore * McpHttpSessionSnapshot :=
  let st := prune_expired now_ms st in
  let values := map snd (iteration (sessions st)) in
  let count p := len_N (List.filter p values) in
  (st,
   {| snap_session_count := N.of_nat (size (sessions st));
      snap_max_sessions := max_sessions st;
      snap_ttl_ms := ttl_ms st;
      snap_pruned_expired_sessions := pruned_expired_sessions st;
      snap_oldest_created_at_ms := fold_option N.min (map created_at_ms values);
      snap_newest_last_seen_at_ms := fold_option N.max (map last_seen_at_ms values);
      snap_named_client_sessions := count (fun s => is_some (client_name s));
      snap_versioned_client_sessions := count (fun s => is_some (client_version s));
      snap_mcpace_generated_sessions := count (fun s => starts_with "mcpace-" (id s));
      snap_request_id_replay_bytes := replay_bytes st;
      snap_max_request_id_replay_bytes := MAX_MCP_HTTP_GLOBAL_REQUEST_ID_REPLAY_BYTES |}).

(** ** Where requests meet the store *)

Definition mcp_error_response (id : JsonValue) (code : Z) (message : string) : JsonValue :=
  json_object [("jsonrpc", json_string "2.0"); ("id", id);
    ("error", json_object [("code", json_number_i64 code); ("message", json_string message)])].

Definition session_error_code (kind : McpHttpSessionErrorKind) : Z :=
  match kind with
  | Missing | Invalid | ProtocolMismatch | DuplicateRequestId | RequestIdLimit => ERROR_INVALID_REQUEST
  | Unknown | Expired => ERROR_NOT_INITIALIZED
  end.

Definition session_error_response (error : McpHttpSessionError) (id : JsonValue) : McpHttpResponse :=
  ResponseJsonStatus (http_status error)
    (mcp_error_response id (session_error_code (kind error)) (message error)).

Definition touch_mcp_session_for_request (request : HttpRequest) (id : JsonValue) (now_ms : N)
    (st : McpHttpSessionStore) : McpHttpSessionStore * result McpHttpSessionView McpHttpResponse :=
  let '(st, r) := touch_from_request request now_ms st in
  (st, map_err (fun error => session_error_response error id) r).

Definition mark_mcp_session_initialized (request : HttpRequest) (id : JsonValue) (now_ms : N)
    (st : McpHttpSessionStore) : McpHttpSessionStore * result McpHttpSessionView McpHttpResponse :=
  let '(st, r) := mark_initialized_from_request request now_ms st in
  (st, map_err (fun error => session_error_response error id) r).

Definition not_ready_response (id : JsonValue) : McpHttpResponse :=
  ResponseJsonStatus "400 Bad Request"
    (mcp_error_response id ERROR_NOT_INITIALIZED
       "MCP HTTP session is initialized but not ready; send notifications/initialized before normal operations").

Definition prepare_mcp_session_for_request (request : HttpRequest) (id : JsonValue)
    (request_id_key : option string) (require_initialized : bool) (now_ms : N) (st : McpHttpSessionStore)
    : McpHttpSessionStore * result McpHttpSessionView McpHttpResponse :=
  match touch_from_request request now_ms st with
  | (st, Err error) => (st, Err (session_error_response error id))
  | (st, Ok session) =>
      let '(st, tracked) :=
        match request_id_key with
        | Some key => track_request_id (view_id session) key st
        | None => (st, Ok session)
        end in
      match tracked with
      | Err error => (st, Err (session_error_response error id))
      | Ok session =>
          if require_initialized && negb (view_initialized session) then (st, Err (not_ready_response id))
          else (st, Ok session)
      end
  end.

(** ** Runs

    The critical sections of the store's mutex, in the order they are executed. *)

Inductive Command :=
| CmdInitialize (session_id protocol_version : string) (client_name client_version : option string)
    (initialize_request_id_key : option string) (now_ms : N)
| CmdTouch (request : HttpRequest) (id : JsonValue) (now_ms : N)
| CmdPrepare (request : HttpRequest) (id : JsonValue) (request_id_key : option string)
    (require_initialized : bool) (now_ms : N)
| CmdInitialized (request : HttpRequest) (id : JsonValue) (now_ms : N)
| CmdClose (request : HttpRequest) (now_ms : N)
| CmdSnapshot (now_ms : N).

Definition execute (c : Command) (st : McpHttpSessionStore) : McpHttpSessionStore :=
  match c with
  | CmdInitialize sid protocol name version key now => (create_or_replace sid protocol name version key now st).1
  | CmdTouch request id now => (touch_mcp_session_for_request request id now st).1
  | CmdPrepare request id key require now => (prepare_mcp_session_for_request request id key require now st).1
  | CmdInitialized request id now => (mark_mcp_session_initialized request id now st).1
  | CmdClose request now => (close_from_request request now st).1
  | CmdSnapshot now => (snapshot now st).1
  end.

Definition run (cs : list Command) (st : McpHttpSessionStore) : McpHttpSessionStore :=
  fold_left (fun st c => execute c st) cs st.

(** ** The invariant *)

Definition ids_bytes (ids : gset string) : N := sum_by str_len (elements ids).

Record session_wf (k : string) (s : McpHttpSession) : Prop := {
  swf_id : id s = k;
  swf_bytes : seen_request_id_bytes s = ids_bytes (seen_request_ids s);
  swf_count : (N.of_nat (size (seen_request_ids s)) <= MAX_MCP_HTTP_REQUEST_IDS_PER_SESSION)%N;
  swf_budget : (seen_request_id_bytes s <= MAX_MCP_HTTP_REQUEST_ID_REPLAY_BYTES)%N;
  swf_lengths : forall key, key ∈ seen_request_ids s ->
    (str_len key <= MAX_MCP_HTTP_REQUEST_ID_STORAGE_BYTES)%N
}.

Record store_wf (st : McpHttpSessionStore) : Prop := {
  stwf_max : (1 <= max_sessions st)%N;
  stwf_size : (N.of_nat (size (sessions st)) <= max_sessions st)%N;
  stwf_sessions : forall k s, sessions st !! k = Some s -> session_wf k s;
  stwf_global : (replay_bytes st <= MAX_MCP_HTTP_GLOBAL_REQUEST_ID_REPLAY_BYTES)%N
}.

(** ** Lemmas *)

Lemma ids_bytes_insert key ids : key ∉ ids -> ids_bytes ({[key]} ∪ ids) = (str_len key + ids_bytes ids)%N.
Proof. intros H. unfold ids_bytes. by rewrite (sum_by_perm _ _ _ (elements_union_singleton ids key H)). Qed.

(** Properties of the sessions a store keeps, through removals and updates. *)
Lemma drop_if_expired_Some sid now st st' :
  drop_if_expired sid now st = Some st' ->
  sessions st' = delete sid (sessions st) /\ max_sessions st' = max_sessions st /\ ttl_ms st' = ttl_ms st
  /\ exists s, sessions st !! sid = Some s /\ (expires_at_ms s <= now)%N.
Proof.
  unfold drop_if_expired. destruct (sessions st !! sid) as [s|] eqn:E; [|done].
  destruct (N.leb_spec (expires_at_ms s) now); intros [= <-]. repeat split; eauto.
Qed.

Lemma drop_if_expired_None sid now st s :
  drop_if_expired sid now st = None -> sessions st !! sid = Some s -> (now < expires_at_ms s)%N.
Proof.
  unfold drop_if_expired. intros H E. rewrite E in H. destruct (N.leb_spec (expires_at_ms s) now); done.
Qed.

(** What a successful touch does, and every other one. *)
Lemma touch_cases sid header now st :
  (exists s, sessions st !! sid = Some s /\ (now < expires_at_ms s)%N
     /\ (forall h, header = Some h -> h = protocol_version s)
     /\ touch sid header now st
        = (set_sessions (<[sid := refreshed now (ttl_ms st) s]> (sessions st)) st,
           Ok (view (refreshed now (ttl_ms st) s))))
  \/ (exists e, (touch sid header now st).2 = Err e)
     /\ ((touch sid header now st).1 = st
         \/ exists n, (touch sid header now st).1 = count_pruned n (set_sessions (delete sid (sessions st)) st)).
Proof.
  unfold touch. destruct (drop_if_expired sid now st) as [st'|] eqn:Ed.
  - right. split; [by eexists|]. right. revert Ed. unfold drop_if_expired.
    destruct (sessions st !! sid); [|done]. case_stuck; [|done]. intros [= <-]. by eexists.
  - destruct (sessions st !! sid) as [s|] eqn:Es; [|right; split; [by eexists|by left] ].
    pose proof (drop_if_expired_None _ _ _ _ Ed Es) as Hlt.
    destruct header as [h|].
    + destruct (String.eqb_spec h (protocol_version s)) as [->|Hne].
      * left. exists s. repeat split; try done. by intros h [= <-].
      * right. split; [by eexists|by left].
    + left. exists s. repeat split; done.
Qed.

(** ** Changes

    Every critical section is a sequence of five kinds of change to the sessions. *)

Inductive Label :=
| LForget
| LRefresh (sid : string)
| LReady (sid : string)
| LRemember (sid key : string)
| LCreate (sid : string) (key : option string).

Definition total (m : gmap string McpHttpSession) : N := sum_by (fun e => seen_request_id_bytes e.2) (iteration m).

Inductive change : Label -> McpHttpSessionStore -> McpHttpSessionStore -> Prop :=
| change_forget st st' :
    sessions st' ⊆ sessions st -> max_sessions st' = max_sessions st -> ttl_ms st' = ttl_ms st ->
    change LForget st st'
| change_refresh st sid s now :
    sessions st !! sid = Some s -> (now < expires_at_ms s)%N ->
    change (LRefresh sid) st (set_sessions (<[sid := refreshed now (ttl_ms st) s]> (sessions st)) st)
| change_ready st sid s :
    sessions st !! sid = Some s ->
    change (LReady sid) st (set_sessions (<[sid := made_ready s]> (sessions st)) st)
| change_remember st sid s key :
    sessions st !! sid = Some s -> key ∉ seen_request_ids s ->
    (str_len key <= MAX_MCP_HTTP_REQUEST_ID_STORAGE_BYTES)%N ->
    (N.of_nat (size (seen_request_ids s)) < MAX_MCP_HTTP_REQUEST_IDS_PER_SESSION)%N ->
    (seen_request_id_bytes s + str_len key <= MAX_MCP_HTTP_REQUEST_ID_REPLAY_BYTES)%N ->
    (total (sessions st) + str_len key <= MAX_MCP_HTTP_GLOBAL_REQUEST_ID_REPLAY_BYTES)%N ->
    change (LRemember sid key) st (set_sessions (<[sid := remembered key s]> (sessions st)) st)
| change_create st sid protocol name version key now :
    (key_bytes key <= MAX_MCP_HTTP_REQUEST_ID_STORAGE_BYTES)%N ->
    is_Some (sessions st !! sid) \/ (N.of_nat (size (sessions st)) < max_sessions st)%N ->
    (key_bytes key + total (delete sid (sessions st)) <= MAX_MCP_HTTP_GLOBAL_REQUEST_ID_REPLAY_BYTES)%N ->
    change (LCreate sid key) st
      (set_sessions (<[sid := new_session sid protocol name version key now (ttl_ms st)]> (sessions st)) st).

Inductive changes : list Label -> McpHttpSessionStore -> McpHttpSessionStore -> Prop :=
| changes_nil st : changes [] st st
| changes_cons l ls st st' st'' : change l st st' -> changes ls st' st'' -> changes (l :: ls) st st''.

Lemma changes_one l st st' : change l st st' -> changes [l] st st'.
Proof. intros H. econstructor; [exact H|constructor]. Qed.

Lemma changes_app ls ks st st' st'' : changes ls st st' -> changes ks st' st'' -> changes (ls ++ ks) st st''.
Proof. induction 1; [done|]. intros. simpl. econstructor; eauto. Qed.

(** The invariant rule: what every change with an admitted label keeps. *)
Lemma changes_invariant (I : McpHttpSessionStore -> Prop) (admitted : Label -> Prop) :
  (forall l st st', admitted l -> I st -> change l st st' -> I st') ->
  forall ls st st', changes ls st st' -> Forall admitted ls -> I st -> I st'.
Proof. intros Hstep ls st st'. induction 1; intros Hall; inversion Hall; subst; eauto. Qed.

Hypothesis iteration_perm : forall m, iteration m ≡ₚ map_to_list m.

Lemma total_list m : total m = sum_by (fun e => seen_request_id_bytes e.2) (map_to_list m).
Proof. apply sum_by_perm, iteration_perm. Qed.

Lemma total_insert k s m : total (<[k := s]> m) = (seen_request_id_bytes s + total (delete k m))%N.
Proof.
  rewrite !total_list, <- insert_delete_eq.
  by rewrite (sum_by_perm _ _ _ (map_to_list_insert (delete k m) k s (lookup_delete_eq m k))).
Qed.

Lemma total_delete k s m :
  m !! k = Some s -> total m = (seen_request_id_bytes s + total (delete k m))%N.
Proof. intros H. rewrite <- total_insert. by rewrite insert_id. Qed.

Lemma total_subseteq m m' : m ⊆ m' -> (total m <= total m')%N.
Proof. intros H. rewrite !total_list. apply sum_by_submseteq. by apply map_to_list_submseteq. Qed.

(** Replacing a session by one with as many bytes does not change the total. *)
Lemma total_update k s s' m :
  m !! k = Some s -> seen_request_id_bytes s' = seen_request_id_bytes s -> total (<[k := s']> m) = total m.
Proof. intros H E. by rewrite total_insert, E, <- (total_delete k s m H). Qed.

(** *** Eviction *)

Lemma evict_loop_subseteq fuel max m : evict_loop fuel max m ⊆ m.
Proof.
  revert m. induction fuel as [|fuel IH]; intros m; simpl; [done|]. case_stuck; [|done].
  destruct (min_by_key _ _) as [ [k s] |]; [|done]. etrans; [apply IH|]. apply delete_subseteq.
Qed.

Lemma evict_loop_size fuel max m :
  (1 <= max)%N -> (size m <= fuel)%nat -> (N.of_nat (size (evict_loop fuel max m)) < max)%N.
Proof.
  intros Hmax. revert m. induction fuel as [|fuel IH]; intros m Hf; simpl; [lia|].
  destruct (N.leb_spec max (N.of_nat (size m))); [|done].
  destruct (min_by_key _ _) as [ [k s] |] eqn:E.
  - apply min_by_key_Some in E as [Hin _]. rewrite iteration_perm in Hin. apply elem_of_map_to_list in Hin.
    apply IH. rewrite map_size_delete_Some by eauto. lia.
  - apply min_by_key_None in E. pose proof (iteration_perm m) as Hp. rewrite E in Hp.
    apply Permutation_nil, map_to_list_empty_iff in Hp as ->. rewrite map_size_empty. lia.
Qed.

Lemma make_capacity_change sid now st : change LForget st (make_capacity sid now st).
Proof.
  constructor; unfold make_capacity; case_stuck; try done; cbn -[filter].
  - apply map_filter_subseteq.
  - etrans; [apply evict_loop_subseteq|apply map_filter_subseteq].
Qed.

Lemma make_capacity_room sid now st :
  (1 <= max_sessions st)%N ->
  is_Some (sessions (make_capacity sid now st) !! sid)
  \/ (N.of_nat (size (sessions (make_capacity sid now st))) < max_sessions st)%N.
Proof.
  intros Hmax. unfold make_capacity. case_stuck; bool_prop; [by left|]. right.
  by apply (evict_loop_size _ (max_sessions st)).
Qed.

(** *** The invariant is kept by every change *)

Lemma new_session_wf sid protocol name version key now ttl :
  (key_bytes key <= MAX_MCP_HTTP_REQUEST_ID_STORAGE_BYTES)%N ->
  session_wf sid (new_session sid protocol name version key now ttl).
Proof.
  intros Hk. split; cbn [new_session id seen_request_ids seen_request_id_bytes].
  - done.
  - destruct key as [key|]; [|done]. unfold ids_bytes. rewrite elements_singleton. simpl. lia.
  - destruct key; [rewrite size_singleton|rewrite size_empty]; vm_compute; discriminate.
  - etrans; [exact Hk|]. vm_compute. discriminate.
  - destruct key; set_solver.
Qed.

Lemma remembered_wf sid s key :
  session_wf sid s -> key ∉ seen_request_ids s ->
  (str_len key <= MAX_MCP_HTTP_REQUEST_ID_STORAGE_BYTES)%N ->
  (N.of_nat (size (seen_request_ids s)) < MAX_MCP_HTTP_REQUEST_IDS_PER_SESSION)%N ->
  (seen_request_id_bytes s + str_len key <= MAX_MCP_HTTP_REQUEST_ID_REPLAY_BYTES)%N ->
  session_wf sid (remembered key s) /\ seen_request_id_bytes (remembered key s) = (seen_request_id_bytes s + str_len key)%N.
Proof.
  intros Hwf Hk Hl Hc Hb.
  assert (Hs : sat_add USIZE_MAX (seen_request_id_bytes s) (str_len key) = (seen_request_id_bytes s + str_len key)%N).
  { apply sat_add_exact. etrans; [exact Hb|]. vm_compute. discriminate. }
  split; [|exact Hs]. split; cbn [remembered id seen_request_ids seen_request_id_bytes]; rewrite ?Hs.
  - apply Hwf.
  - rewrite ids_bytes_insert by done. rewrite (swf_bytes _ _ Hwf). lia.
  - rewrite size_union by set_solver. rewrite size_singleton. lia.
  - done.
  - intros key'. rewrite elem_of_union, elem_of_singleton. intros [-> | H]; [done|]. by eapply swf_lengths.
Qed.

(** A store whose sessions have been updated in place. *)
Lemma store_wf_update st sid s s' :
  store_wf st -> sessions st !! sid = Some s -> session_wf sid s' ->
  (total (<[sid := s']> (sessions st)) <= MAX_MCP_HTTP_GLOBAL_REQUEST_ID_REPLAY_BYTES)%N ->
  store_wf (set_sessions (<[sid := s']> (sessions st)) st).
Proof.
  intros Hwf Es Hs' Ht. split; cbn [set_sessions max_sessions sessions]; [apply Hwf| |..].
  - rewrite map_size_insert_Some by eauto. apply Hwf.
  - intros k t [ [<- <-] | [_ ?] ]%lookup_insert_Some; [done|by eapply stwf_sessions].
  - exact Ht.
Qed.

Lemma change_wf l st st' : store_wf st -> change l st st' -> store_wf st'.
Proof.
  intros Hwf Hc. pose proof (stwf_global _ Hwf) as Hg. change (replay_bytes st) with (total (sessions st)) in Hg.
  destruct Hc as [st st' Hsub Hm Ht|st sid s now Es Hlt|st sid s Es|st sid s key Es Hk Hl Hc Hb Ht
    |st sid protocol name version key now Hk Hroom Ht].
  - split; rewrite ?Hm; [apply Hwf| |..].
    + pose proof (map_subseteq_size _ _ Hsub). pose proof (stwf_size _ Hwf). lia.
    + intros k s Hs. eapply stwf_sessions; [exact Hwf|]. by eapply lookup_weaken.
    + etrans; [by apply (total_subseteq _ _ Hsub)|exact Hg].
  - pose proof (stwf_sessions _ Hwf _ _ Es) as Hs. apply (store_wf_update _ _ s); try done.
    + split; apply Hs.
    + by rewrite (total_update sid s).
  - pose proof (stwf_sessions _ Hwf _ _ Es) as Hs. apply (store_wf_update _ _ s); try done.
    + split; apply Hs.
    + by rewrite (total_update sid s).
  - destruct (remembered_wf sid s key (stwf_sessions _ Hwf _ _ Es) Hk Hl Hc Hb) as [Hr Hbytes].
    apply (store_wf_update _ _ s); try done.
    rewrite total_insert, Hbytes. rewrite (total_delete _ _ _ Es) in Ht. lia.
  - split; cbn [set_sessions max_sessions sessions]; [apply Hwf| |..].
    + destruct (sessions st !! sid) as [s0|] eqn:E0.
      * rewrite map_size_insert_Some by eauto. apply Hwf.
      * rewrite map_size_insert_None by done. destruct Hroom as [ [? ?] |]; [done|lia].
    + intros k t [ [<- <-] | [_ ?] ]%lookup_insert_Some; [by apply new_session_wf|by eapply stwf_sessions].
    + change (total (<[sid := new_session sid protocol name version key now (ttl_ms st)]> (sessions st))
              <= MAX_MCP_HTTP_GLOBAL_REQUEST_ID_REPLAY_BYTES)%N.
      by rewrite total_insert.
Qed.

(** *** Every critical section is a sequence of changes *)

(** The session a command is about. *)
Definition target (c : Command) : option string :=
  match c with
  | CmdInitialize sid _ _ _ _ _ => Some sid
  | CmdTouch request _ _ | CmdPrepare request _ _ _ _ | CmdInitialized request _ _ =>
      option_map fst (result_ok (touch_target request))
  | CmdClose request _ => result_ok (session_id_of "DELETE /mcp requires Mcp-Session-Id" request)
  | CmdSnapshot _ => None
  end.

(** The changes a command may make. *)
Definition admits (c : Command) (l : Label) : Prop :=
  match l with
  | LForget => True
  | LRefresh sid => target c = Some sid
  | LReady sid => target c = Some sid /\ exists request id now, c = CmdInitialized request id now
  | LRemember sid key => target c = Some sid /\ exists request id require now, c = CmdPrepare request id (Some key) require now
  | LCreate sid key => exists protocol name version now, c = CmdInitialize sid protocol name version key now
  end.

Lemma touch_changes sid header now st :
  exists ls, changes ls st (touch sid header now st).1
    /\ Forall (fun l => l = LForget \/ l = LRefresh sid) ls
    /\ (forall v, (touch sid header now st).2 = Ok v -> ls = [LRefresh sid]
          /\ exists s, sessions (touch sid header now st).1 !! sid = Some s /\ v = view s).
Proof.
  destruct (touch_cases sid header now st) as [ (s & Es & Hlt & _ & ->) | [ [e He] Hst] ].
  - exists [LRefresh sid]. split; [apply changes_one; by constructor|]. split; [auto|].
    intros v [= <-]. split; [done|]. eexists. split; [cbn; apply lookup_insert_eq|done].
  - destruct Hst as [-> | [n ->] ].
    + exists []. split; [constructor|]. split; [constructor|]. congruence.
    + exists [LForget]. split; [apply changes_one; constructor; try done; apply delete_subseteq|].
      split; [auto|]. congruence.
Qed.

Lemma track_changes sid key st :
  (replay_bytes st <= MAX_MCP_HTTP_GLOBAL_REQUEST_ID_REPLAY_BYTES)%N ->
  (exists v, (track_request_id sid key st).2 = Ok v
     /\ change (LRemember sid key) st (track_request_id sid key st).1
     /\ exists s, sessions (track_request_id sid key st).1 !! sid = Some s /\ v = view s)
  \/ (exists e, (track_request_id sid key st).2 = Err e) /\ (track_request_id sid key st).1 = st.
Proof.
  intros Hg. unfold track_request_id. destruct (sessions st !! sid) as [s|] eqn:Es; [|right; eauto].
  case_stuck; bool_prop; [right; eauto|]. case_stuck; bool_prop; [right; eauto|].
  case_stuck; bool_prop; [right; eauto|]. case_stuck; bool_prop; [right; eauto|]. left.
  eexists. split; [done|]. split; [|eexists; split; [cbn; apply lookup_insert_eq|done] ].
  change (replay_bytes st) with (total (sessions st)) in *.
  assert (sat_add_small : forall a, (sat_add USIZE_MAX a (str_len key) <= MAX_MCP_HTTP_GLOBAL_REQUEST_ID_REPLAY_BYTES)%N ->
            sat_add USIZE_MAX a (str_len key) = (a + str_len key)%N).
  { intros a. unfold sat_add, USIZE_MAX, U64_MAX, MAX_MCP_HTTP_GLOBAL_REQUEST_ID_REPLAY_BYTES. lia. }
  rewrite sat_add_small in *; [|assumption|].
  - constructor; done.
  - etrans; [eassumption|]. vm_compute. discriminate.
Qed.

Lemma changes_wf ls st st' : changes ls st st' -> store_wf st -> store_wf st'.
Proof.
  intros Hc. eapply (changes_invariant store_wf (fun _ => True)); eauto using change_wf. by apply Forall_true.
Qed.

(** A request's touch, with the session it leaves. *)
Lemma touch_from_request_changes request now st :
  exists ls, changes ls st (touch_from_request request now st).1
    /\ Forall (fun l => l = LForget \/ exists sid header, touch_target request = Ok (sid, header) /\ l = LRefresh sid) ls
    /\ (forall v, (touch_from_request request now st).2 = Ok v -> exists sid header s,
          touch_target request = Ok (sid, header) /\ ls = [LRefresh sid]
          /\ sessions (touch_from_request request now st).1 !! sid = Some s /\ v = view s).
Proof.
  unfold touch_from_request. destruct (touch_target request) as [ [sid header] | e] eqn:Et.
  - destruct (touch_changes sid header now st) as (ls & Hc & Hall & Hok). exists ls. split; [done|]. split.
    + eapply Forall_impl; [exact Hall|]. intros l [-> | ->]; [by left|right; eauto].
    + intros v Hv. destruct (Hok v Hv) as (-> & s & Hs & ->). by exists sid, header, s.
  - exists []. split; [constructor|]. split; [constructor|]. done.
Qed.

Lemma prepare_changes request id key require now st :
  store_wf st ->
  let r := prepare_mcp_session_for_request request id key require now st in
  exists ls, changes ls st r.1 /\ Forall (admits (CmdPrepare request id key require now)) ls
    /\ (forall v, r.2 = Ok v -> exists sid header s,
          touch_target request = Ok (sid, header) /\ sessions r.1 !! sid = Some s /\ v = view s
          /\ ls = LRefresh sid :: match key with Some k => [LRemember sid k] | None => [] end
          /\ (require = true -> initialized s = true)).
Proof.
  intros Hwf. unfold prepare_mcp_session_for_request.
  destruct (touch_from_request_changes request now st) as (ls & Hc & Hall & Hok).
  pose proof (changes_wf _ _ _ Hc Hwf) as Hwf1.
  assert (Hadm : Forall (admits (CmdPrepare request id key require now)) ls).
  { eapply Forall_impl; [exact Hall|]. intros l [-> | (sid & header & Et & ->)]; simpl; [done|by rewrite Et]. }
  destruct (touch_from_request request now st) as [st1 [v1|e] ] eqn:E1; cbn [fst snd] in *.
  2:{ exists ls. split; [done|]. split; [done|]. done. }
  destruct (Hok v1 eq_refl) as (sid & header & s & Et & Els & Hs & Hv). subst v1 ls.
  pose proof (swf_id _ _ (stwf_sessions _ Hwf1 _ _ Hs)) as Hid. cbn [view view_id]. rewrite Hid.
  destruct key as [key|].
  - destruct (track_changes sid key st1 (stwf_global _ Hwf1)) as [ (v & Ev & Hch & s2 & Hs2 & ->) | [ [e Ee] Est] ].
    + destruct (track_request_id sid key st1) as [st2 r2]. cbn [fst snd] in *. subst r2. cbv zeta.
      exists [LRefresh sid; LRemember sid key].
      assert (Hend : changes [LRefresh sid; LRemember sid key] st st2)
        by (apply (changes_app [LRefresh sid] [LRemember sid key] _ st1); [done|by apply changes_one]).
      split; [by case_stuck|]. split.
      { constructor; [by inversion Hadm|]. constructor; [|constructor]. simpl. rewrite Et. split; [done|eauto]. }
      intros v. case_stuck; cbn [fst snd]; [done|]. intros [= <-]. exists sid, header, s2. do 4 (split; [done|]).
      intros ->. cbn in E. by destruct (initialized s2).
    + destruct (track_request_id sid key st1) as [st2 r2]. cbn [fst snd] in *. subst r2 st2.
      exists [LRefresh sid]. split; [done|]. split; [done|]. done.
  - exists [LRefresh sid]. split; [by case_stuck|]. split; [done|].
    intros v. case_stuck; cbn [fst snd]; [done|]. intros [= <-]. exists sid, header, s. do 4 (split; [done|]).
    intros ->. cbn in E. by destruct (initialized s).
Qed.

Lemma mark_initialized_changes request id now st :
  store_wf st ->
  exists ls, changes ls st (mark_initialized_from_request request now st).1
    /\ Forall (admits (CmdInitialized request id now)) ls.
Proof.
  intros Hwf. unfold mark_initialized_from_request.
  destruct (touch_from_request_changes request now st) as (ls & Hc & Hall & Hok).
  pose proof (changes_wf _ _ _ Hc Hwf) as Hwf1.
  assert (Hadm : Forall (admits (CmdInitialized request id now)) ls).
  { eapply Forall_impl; [exact Hall|]. intros l [-> | (sid & header & Et & ->)]; simpl; [done|by rewrite Et]. }
  destruct (touch_from_request request now st) as [st1 [v1|e] ] eqn:E1; cbn [fst snd] in *; [|by exists ls].
  destruct (Hok v1 eq_refl) as (sid & header & s & Et & Els & Hs & Hv). subst v1 ls.
  pose proof (swf_id _ _ (stwf_sessions _ Hwf1 _ _ Hs)) as Hid. cbn [view view_id]. rewrite Hid, Hs.
  exists ([LRefresh sid] ++ [LReady sid]). split.
  - eapply changes_app; [exact Hc|]. apply changes_one. by constructor.
  - apply Forall_app. split; [done|]. constructor; [|constructor]. simpl. rewrite Et. eauto.
Qed.

Lemma create_changes sid protocol name version key now st :
  store_wf st ->
  exists ls, changes ls st (create_or_replace sid protocol name version key now st).1
    /\ Forall (admits (CmdInitialize sid protocol name version key now)) ls
    /\ (forall v, (create_or_replace sid protocol name version key now st).2 = Ok v -> ls = [LForget; LCreate sid key]).
Proof.
  intros Hwf. unfold create_or_replace.
  destruct (_ || _); [exists []; split; [constructor|]; by split|].
  destruct (too_long _ key) eqn:Ek; [exists []; split; [constructor|]; by split|]. cbv zeta.
  pose proof (make_capacity_change sid now st) as Hf. pose proof (change_wf _ _ _ Hwf Hf) as Hwf1.
  pose proof (make_capacity_room sid now st (stwf_max _ Hwf)) as Hroom.
  assert (Em : max_sessions (make_capacity sid now st) = max_sessions st) by (by inversion Hf).
  rewrite <- Em in Hroom. set (st1 := make_capacity sid now st) in *. clearbody st1.
  destruct (N.ltb_spec MAX_MCP_HTTP_GLOBAL_REQUEST_ID_REPLAY_BYTES
    (sat_add USIZE_MAX (replay_bytes st1 - match sessions st1 !! sid with Some s => seen_request_id_bytes s | None => 0 end)
       (key_bytes key))) as [Hover|Hfits].
  { exists [LForget]. split; [by apply changes_one|]. split; [by repeat constructor|done]. }
  exists [LForget; LCreate sid key]. split; [|split; [|done] ].
  - econstructor; [exact Hf|]. apply changes_one. constructor; [|done|].
    + destruct key as [key|]; simpl in Ek |- *; [by apply N.ltb_ge|vm_compute; discriminate].
    + change (replay_bytes st1) with (total (sessions st1)) in Hfits.
      assert (Et : (total (sessions st1) - match sessions st1 !! sid with Some s => seen_request_id_bytes s | None => 0 end)%N
                   = total (delete sid (sessions st1))).
      { destruct (sessions st1 !! sid) as [s0|] eqn:E0.
        - rewrite (total_delete _ _ _ E0). lia.
        - rewrite delete_id by done. lia. }
      rewrite Et in Hfits. revert Hfits.
      unfold sat_add, USIZE_MAX, U64_MAX, MAX_MCP_HTTP_GLOBAL_REQUEST_ID_REPLAY_BYTES. lia.
  - constructor; [done|]. constructor; [|constructor]. simpl. eauto.
Qed.

Lemma close_change request now st : change LForget st (close_from_request request now st).1.
Proof.
  unfold close_from_request. destruct (session_id_of _ request) as [sid|e]; [|by constructor].
  unfold close. destruct (drop_if_expired sid now st) as [st'|] eqn:Ed.
  - apply drop_if_expired_Some in Ed as (Es & Hm & Ht & _). constructor; [|done|done].
    cbn [fst]. rewrite Es. apply delete_subseteq.
  - destruct (sessions st !! sid); constructor; try done. apply delete_subseteq.
Qed.

Lemma execute_changes c st :
  store_wf st -> exists ls, changes ls st (execute c st) /\ Forall (admits c) ls.
Proof.
  intros Hwf. destruct c as [sid protocol name version key now|request id now|request id key require now
    |request id now|request now|now]; cbn [execute].
  - destruct (create_changes sid protocol name version key now st Hwf) as (ls & ? & ? & _). eauto.
  - unfold touch_mcp_session_for_request.
    destruct (touch_from_request_changes request now st) as (ls & Hc & Hall & _).
    destruct (touch_from_request request now st) as [st1 r]. exists ls. split; [done|].
    eapply Forall_impl; [exact Hall|]. intros l [-> | (sid & header & Et & ->)]; simpl; [done|by rewrite Et].
  - destruct (prepare_changes request id key require now st Hwf) as (ls & ? & ? & _). eauto.
  - unfold mark_mcp_session_initialized.
    destruct (mark_initialized_changes request id now st Hwf) as (ls & Hc & Hall).
    destruct (mark_initialized_from_request request now st) as [st1 r]. eauto.
  - exists [LForget]. split; [apply changes_one, close_change|by repeat constructor].
  - exists [LForget]. split; [|by repeat constructor]. apply changes_one. constructor; try done.
    apply map_filter_subseteq.
Qed.

Lemma run_app cs ds st : run (cs ++ ds) st = run ds (run cs st).
Proof. apply fold_left_app. Qed.

Lemma run_wf cs st : store_wf st -> store_wf (run cs st).
Proof.
  revert st. induction cs as [|c cs IH]; intros st Hwf; [done|]. simpl. apply IH.
  destruct (execute_changes c st Hwf) as (ls & Hc & _). by eapply changes_wf.
Qed.

(** What the commands of a run keep, when every change they may make keeps it. *)
Lemma run_invariant (I : McpHttpSessionStore -> Prop) (cs : list Command) :
  (forall c l st st', c ∈ cs -> admits c l -> I st -> change l st st' -> I st') ->
  forall st, store_wf st -> I st -> I (run cs st).
Proof.
  induction cs as [|c cs IH]; intros Hstep st Hwf HI; [done|]. simpl.
  destruct (execute_changes c st Hwf) as (ls & Hc & Hall). apply IH.
  - intros c' l st1 st2 Hin. apply Hstep. by right.
  - by eapply changes_wf.
  - eapply (changes_invariant I (admits c)); [|exact Hc|exact Hall|exact HI].
    intros l st1 st2. apply Hstep. by left.
Qed.

Lemma store_new_wf max ttl : store_wf (store_new max ttl).
Proof.
  split; cbn [store_new max_sessions sessions].
  - lia.
  - rewrite map_size_empty. lia.
  - intros k s. by rewrite lookup_empty.
  - change (total ∅ <= MAX_MCP_HTTP_GLOBAL_REQUEST_ID_REPLAY_BYTES)%N. rewrite total_list, map_to_list_empty.
    vm_compute. discriminate.
Qed.

(** *** What single changes keep of one session *)

Definition initializes (c : Command) : option string :=
  match c with CmdInitialize sid _ _ _ _ _ => Some sid | _ => None end.

Definition marks_ready (c : Command) : option string :=
  match c with CmdInitialized _ _ _ => target c | _ => None end.

(** A property of the session [sid], when it is there. *)
Definition session_is (sid : string) (P : McpHttpSession -> Prop) (st : McpHttpSessionStore) : Prop :=
  forall s, sessions st !! sid = Some s -> P s.

Lemma session_is_insert sid P k s m st :
  (k = sid -> P s) -> session_is sid P (set_sessions m st) ->
  session_is sid P (set_sessions (<[k := s]> m) st).
Proof.
  intros Hk Hm t. cbn [set_sessions sessions]. intros [ [<- <-] | [_ ?] ]%lookup_insert_Some; [by apply Hk|by apply Hm].
Qed.

(** A change keeps a property of a session if its own update of the session does. *)
Lemma change_session_is sid P l st st' :
  (forall s now ttl, l = LRefresh sid -> P s -> P (refreshed now ttl s)) ->
  (forall s, l = LReady sid -> P s -> P (made_ready s)) ->
  (forall s key, l = LRemember sid key -> P s -> P (remembered key s)) ->
  (forall protocol name version key now ttl, l = LCreate sid key ->
     P (new_session sid protocol name version key now ttl)) ->
  session_is sid P st -> change l st st' -> session_is sid P st'.
Proof.
  intros H1 H2 H3 H4 HP Hc. destruct Hc as [st st' Hsub ? ?|st k s now Es ?|st k s Es|st k s key Es|st k].
  - intros s Hs. apply HP. by eapply lookup_weaken.
  - apply session_is_insert; [|exact HP]. intros ->. eauto.
  - apply session_is_insert; [|exact HP]. intros ->. eauto.
  - apply session_is_insert; [|exact HP]. intros ->. eauto.
  - apply session_is_insert; [|exact HP]. intros ->. eauto.
Qed.

(** Used request ids stay used until the session is created anew. *)
Lemma run_spent sid k cs st :
  Forall (fun c => initializes c <> Some sid) cs -> store_wf st ->
  session_is sid (fun s => k ∈ seen_request_ids s) st ->
  session_is sid (fun s => k ∈ seen_request_ids s) (run cs st).
Proof.
  intros Hno. rewrite Forall_forall in Hno. apply run_invariant. intros c l st1 st2 Hin Hadm.
  apply change_session_is; try done; [set_solver|].
  intros protocol name version key now ttl ->. destruct Hadm as (? & ? & ? & ? & ->). by destruct (Hno _ Hin).
Qed.

(** A session that is not ready stays so until the notification for it. *)
Lemma run_not_ready sid cs st :
  Forall (fun c => marks_ready c <> Some sid) cs -> store_wf st ->
  session_is sid (fun s => initialized s = false) st ->
  session_is sid (fun s => initialized s = false) (run cs st).
Proof.
  intros Hno. rewrite Forall_forall in Hno. apply run_invariant. intros c l st1 st2 Hin Hadm.
  apply change_session_is; try done.
  intros s ->. destruct Hadm as (Ht & ? & ? & ? & ->). by destruct (Hno _ Hin).
Qed.

(** The deadline of a session does not move while no command names it. *)
Lemma run_deadline sid t cs st :
  Forall (fun c => target c <> Some sid) cs -> store_wf st ->
  session_is sid (fun s => (expires_at_ms s <= t)%N) st ->
  session_is sid (fun s => (expires_at_ms s <= t)%N) (run cs st).
Proof.
  intros Hno. rewrite Forall_forall in Hno. apply run_invariant. intros c l st1 st2 Hin Hadm.
  apply change_session_is; try done.
  - intros s now ttl ->. by destruct (Hno _ Hin).
  - intros protocol name version key now ttl ->. destruct Hadm as (? & ? & ? & ? & ->). by destruct (Hno _ Hin).
Qed.

(** The gate leaves the same store whether or not it asks for a ready session. *)
Lemma prepare_store_require request id key require now st :
  (prepare_mcp_session_for_request request id key require now st).1
  = (prepare_mcp_session_for_request request id key false now st).1.
Proof.
  unfold prepare_mcp_session_for_request. destruct (touch_from_request request now st) as [st1 [v|e] ]; [|done].
  destruct (match key with Some k => _ | None => _ end) as [st2 [v2|e2] ]; [|done]. by case_stuck.
Qed.

(** ** Claims *)

(** How a request id comes to be used in a session: by a request the gate has tracked
    (whether or not it then refused the session as not ready) or by the initialize
    request that created the session. *)
Inductive uses (sid k : string) : McpHttpSessionStore -> Prop :=
| uses_request request header id require now st :
    store_wf st -> touch_target request = Ok (sid, header) ->
    is_ok (prepare_mcp_session_for_request request id (Some k) false now st).2 = true ->
    uses sid k (prepare_mcp_session_for_request request id (Some k) require now st).1
| uses_initialize protocol name version now st :
    store_wf st -> is_ok (create_or_replace sid protocol name version (Some k) now st).2 = true ->
    uses sid k (create_or_replace sid protocol name version (Some k) now st).1.

Lemma is_ok_inv {A E} (r : result A E) : is_ok r = true -> exists a, r = Ok a.
Proof. destruct r; [eauto|done]. Qed.

(** Both ways end with a change that records the id. *)
Lemma changes_last_spent l ls sid k st st' :
  l = LRemember sid k \/ l = LCreate sid (Some k) -> changes (ls ++ [l]) st st' ->
  session_is sid (fun s => k ∈ seen_request_ids s) st'.
Proof.
  intros Hl. revert st. induction ls as [|l0 ls IH]; intros st; cbn [app]; inversion 1 as [|? ? ? st1 ? Hc Hcs]; subst.
  - inversion Hcs; subst. destruct Hc; destruct Hl as [Hl|Hl]; try discriminate Hl; injection Hl; intros; subst.
    all: intros t; cbn [set_sessions sessions]; rewrite lookup_insert_eq; intros [= <-]; set_solver.
  - by apply (IH st1).
Qed.

Lemma uses_spent sid k st : uses sid k st -> store_wf st /\ session_is sid (fun s => k ∈ seen_request_ids s) st.
Proof.
  destruct 1 as [request header id require now st Hwf Et Hok|protocol name version now st Hwf Hok].
  - rewrite prepare_store_require. apply is_ok_inv in Hok as [v Hv].
    destruct (prepare_changes request id (Some k) false now st Hwf) as (ls & Hc & _ & Hls).
    destruct (Hls v Hv) as (sid' & header' & s & Et' & Hs & _ & Els & _). rewrite Et in Et'. injection Et' as <- <-.
    split; [by eapply changes_wf|]. rewrite Els in Hc. by apply (changes_last_spent _ [LRefresh sid] _ _ _ _ (or_introl eq_refl) Hc).
  - apply is_ok_inv in Hok as [v Hv].
    destruct (create_changes sid protocol name version (Some k) now st Hwf) as (ls & Hc & _ & Hls).
    split; [by eapply changes_wf|]. rewrite (Hls v Hv) in Hc.
    by apply (changes_last_spent _ [LForget] _ _ _ _ (or_intror eq_refl) Hc).
Qed.

(** C32: after any sequence of initializations, requests, notifications,
    deletions and snapshots, from an empty store: no more sessions than the limit; the bytes
    a session is charged are exactly the bytes of the request ids it remembers, at most 4096
    of them and 512 KiB; and the sessions together stay within the 16 MiB budget. *)
Theorem session_store_bounded cs max ttl :
  let st := run cs (store_new max ttl) in
  (N.of_nat (size (sessions st)) <= N.max max 1)%N
  /\ (replay_bytes st <= MAX_MCP_HTTP_GLOBAL_REQUEST_ID_REPLAY_BYTES)%N
  /\ forall sid s, sessions st !! sid = Some s ->
       id s = sid
       /\ seen_request_id_bytes s = ids_bytes (seen_request_ids s)
       /\ (seen_request_id_bytes s <= MAX_MCP_HTTP_REQUEST_ID_REPLAY_BYTES)%N
       /\ (N.of_nat (size (seen_request_ids s)) <= MAX_MCP_HTTP_REQUEST_IDS_PER_SESSION)%N.
Proof.
  cbv zeta. pose proof (run_wf cs _ (store_new_wf max ttl)) as Hwf.
  assert (Em : max_sessions (run cs (store_new max ttl)) = N.max max 1).
  { apply (run_invariant (fun st => max_sessions st = N.max max 1)); [|apply store_new_wf|done].
    intros c l st st' _ _ <-. by destruct 1. }
  split; [rewrite <- Em; apply Hwf|]. split; [apply Hwf|].
  intros sid s Hs. pose proof (stwf_sessions _ Hwf _ _ Hs) as Hw. repeat split; apply Hw.
Qed.

(** Once a request id has been used in a session, no later request with the same
    id is let through in that session, whatever happens in between, short of the session
    being initialized anew; a request that was refused because the session was not ready has
    used its id as well. *)
Theorem request_id_replay_refused sid k st cs request header id require now :
  uses sid k st -> Forall (fun c => initializes c <> Some sid) cs ->
  touch_target request = Ok (sid, header) ->
  is_ok (prepare_mcp_session_for_request request id (Some k) require now (run cs st)).2 = false.
Proof.
  intros Hu Hcs Et. destruct (uses_spent _ _ _ Hu) as [Hwf Hsp].
  pose proof (run_spent _ _ _ _ Hcs Hwf Hsp) as Hsp1. pose proof (run_wf cs st Hwf) as Hwf1.
  destruct (is_ok _) eqn:Hok; [|done]. apply is_ok_inv in Hok as [v Hv].
  destruct (prepare_changes request id (Some k) require now _ Hwf1) as (ls & Hc & _ & Hls).
  destruct (Hls v Hv) as (sid' & header' & s & Et' & _ & _ & -> & _). rewrite Et in Et'. injection Et' as <- <-.
  inversion Hc as [|? ? ? st1 ? Hr Hc1]; subst. inversion Hc1 as [|? ? ? st2 ? Hm Hc2]; subst.
  assert (Hs1 : session_is sid (fun s => k ∈ seen_request_ids s) st1)
    by (by apply (change_session_is sid (fun s => k ∈ seen_request_ids s) (LRefresh sid) (run cs st))).
  inversion Hm as [| | |? ? s0 ? E0 Hnot|]; subst. destruct Hnot. exact (Hs1 s0 E0).
Qed.

(** A session that has just been initialized admits no method that needs a ready
    session until a notifications/initialized request names it, whatever other requests,
    initializations and deletions happen in between. *)
Theorem operations_wait_for_initialized sid protocol name version key0 now0 st cs request header id key now :
  store_wf st ->
  is_ok (create_or_replace sid protocol name version key0 now0 st).2 = true ->
  Forall (fun c => marks_ready c <> Some sid) cs ->
  touch_target request = Ok (sid, header) ->
  is_ok (prepare_mcp_session_for_request request id key true now
           (run cs (create_or_replace sid protocol name version key0 now0 st).1)).2 = false.
Proof.
  intros Hwf Hcr Hcs Et. apply is_ok_inv in Hcr as [v0 Hv0].
  destruct (create_changes sid protocol name version key0 now0 st Hwf) as (ls0 & Hc0 & _ & Hls0).
  pose proof (changes_wf _ _ _ Hc0 Hwf) as Hwf0. rewrite (Hls0 v0 Hv0) in Hc0.
  assert (Hn : session_is sid (fun s => initialized s = false) (create_or_replace sid protocol name version key0 now0 st).1).
  { inversion Hc0 as [|? ? ? st1 ? _ Hc1]; subst. inversion Hc1 as [|? ? ? st2 ? Hr Hc2]; subst.
    inversion Hc2; subst. revert Hr. generalize (create_or_replace sid protocol name version key0 now0 st).1.
    intros st2 Hr. inversion Hr; subst. intros t. cbn [set_sessions sessions]. rewrite lookup_insert_eq. by intros [= <-]. }
  set (st0 := (create_or_replace sid protocol name version key0 now0 st).1) in *. clearbody st0.
  pose proof (run_not_ready _ _ _ Hcs Hwf0 Hn) as Hn1. pose proof (run_wf cs st0 Hwf0) as Hwf1.
  destruct (is_ok _) eqn:Hok; [|done]. apply is_ok_inv in Hok as [v Hv].
  destruct (prepare_changes request id key true now _ Hwf1) as (ls & Hc & Hadm & Hls).
  destruct (Hls v Hv) as (sid' & header' & s & Et' & Hs & _ & _ & Hi). rewrite Et in Et'. injection Et' as <- <-.
  specialize (Hi eq_refl). enough (initialized s = false) by congruence.
  apply (changes_invariant (session_is sid (fun s => initialized s = false)) (admits (CmdPrepare request id key true now)))
    in Hc; [by apply Hc| |exact Hadm|exact Hn1].
  intros l st1 st2 Hl. apply change_session_is; try done.
  intros t ->. by destruct Hl as (_ & ? & ? & ? & [=]).
Qed.

(** A request touches a session for exactly one time-to-live. Repeated before
    the deadline it succeeds again; from the deadline on the session is refused to every
    request, unless a request or an initialization named it in the meantime. *)
Theorem idle_session_expires sid header now request st :
  store_wf st -> touch_target request = Ok (sid, header) ->
  is_ok (touch_from_request request now st).2 = true ->
  (now + ttl_ms st <= U128_MAX)%N ->
  let st1 := (touch_from_request request now st).1 in
  (forall now', (now' < now + ttl_ms st)%N -> is_ok (touch_from_request request now' st1).2 = true)
  /\ (forall cs request' header' now',
        Forall (fun c => target c <> Some sid) cs -> touch_target request' = Ok (sid, header') ->
        (now + ttl_ms st <= now')%N -> is_ok (touch_from_request request' now' (run cs st1)).2 = false).
Proof.
  intros Hwf Et Hok Hmax. cbv zeta. revert Hok. unfold touch_from_request. rewrite Et. intros Hok.
  destruct (touch_cases sid header now st) as [ (s & Es & Hlt & Hh & E) | [ [e He] _] ].
  2:{ by rewrite He in Hok. }
  rewrite E. cbn [fst]. set (st1 := set_sessions _ st).
  assert (E1 : sessions st1 !! sid = Some (refreshed now (ttl_ms st) s)) by apply lookup_insert_eq.
  assert (Hexp : expires_at_ms (refreshed now (ttl_ms st) s) = (now + ttl_ms st)%N) by (by apply sat_add_exact).
  assert (Hwf1 : store_wf st1) by (eapply change_wf; [exact Hwf|]; by constructor).
  split.
  - intros now' Hlt'. unfold touch, drop_if_expired. rewrite E1, Hexp, (proj2 (N.leb_gt _ _) Hlt').
    destruct header as [h|]; [|done]. cbn [refreshed protocol_version]. by rewrite (Hh h eq_refl), String.eqb_refl.
  - intros cs request' header' now' Hcs Et' Hge. rewrite Et'.
    assert (Hd : session_is sid (fun s => (expires_at_ms s <= now + ttl_ms st)%N) (run cs st1)).
    { apply run_deadline; [done..|]. intros t. rewrite E1. intros [= <-]. rewrite Hexp. lia. }
    destruct (touch_cases sid header' now' (run cs st1)) as [ (t & Et1 & Hlt1 & _) | [ [e ->] _] ]; [|done].
    specialize (Hd t Et1). simpl in Hd. lia.
Qed.

End store.

(** ** Witnesses *)

Definition sample_iteration (m : gmap string McpHttpSession) : list (string * McpHttpSession) := map_to_list m.

Lemma sample_iteration_perm m : sample_iteration m ≡ₚ map_to_list m.
Proof. done. Qed.

Definition sample_post (sid : string) : HttpRequest :=
  {| method := "POST"; path := "/mcp"; query := EmptyString; headers := [("mcp-session-id", sid)]; body := [] |}.

Definition sample_initialize : Command := CmdInitialize "mcpace-1" "2025-11-25" None None (Some "n:1") 1000.

Definition sample_store : McpHttpSessionStore := run sample_iteration [sample_initialize] (store_new 4 500).

Lemma sample_store_wf : store_wf sample_iteration sample_store.
Proof. apply (run_wf sample_iteration sample_iteration_perm), (store_new_wf sample_iteration sample_iteration_perm). Qed.

Lemma session_store_bounded_witness :
  (N.of_nat (size (sessions (run sample_iteration [sample_initialize] (store_new 4 500)))) <= 4)%N.
Proof. apply (proj1 (session_store_bounded sample_iteration sample_iteration_perm [sample_initialize] 4 500)). Defined.

Lemma request_id_replay_refused_witness :
  is_ok (prepare_mcp_session_for_request sample_iteration (sample_post "mcpace-1") (JNumber "2") (Some "n:2") true 1010
    sample_store).2 = false
  /\ is_ok (prepare_mcp_session_for_request sample_iteration (sample_post "mcpace-1") (JNumber "2") (Some "n:2") true 1030
      (run sample_iteration [CmdInitialized (sample_post "mcpace-1") JNull 1020]
        (prepare_mcp_session_for_request sample_iteration (sample_post "mcpace-1") (JNumber "2") (Some "n:2") true 1010
           sample_store).1)).2 = false.
Proof.
  split; [vm_compute; reflexivity|].
  apply (request_id_replay_refused sample_iteration sample_iteration_perm "mcpace-1" "n:2" _ _ _ None).
  - apply (uses_request _ _ _ _ None); [exact sample_store_wf|vm_compute; reflexivity|vm_compute; reflexivity].
  - repeat constructor. discriminate.
  - vm_compute. reflexivity.
Defined.

Lemma operations_wait_for_initialized_witness :
  is_ok (create_or_replace sample_iteration "mcpace-2" "2025-11-25" None None None 1100 sample_store).2 = true
  /\ is_ok (prepare_mcp_session_for_request sample_iteration (sample_post "mcpace-2") (JNumber "2") (Some "n:2") true 1120
      (run sample_iteration [CmdPrepare (sample_post "mcpace-2") (JNumber "1") (Some "n:1") false 1110]
        (create_or_replace sample_iteration "mcpace-2" "2025-11-25" None None None 1100 sample_store).1)).2 = false.
Proof.
  split; [vm_compute; reflexivity|].
  apply (operations_wait_for_initialized sample_iteration sample_iteration_perm "mcpace-2" _ _ _ _ _ _ _ _ None).
  - exact sample_store_wf.
  - vm_compute. reflexivity.
  - repeat constructor. discriminate.
  - vm_compute. reflexivity.
Defined.

Lemma idle_session_expires_witness :
  is_ok (touch_from_request (sample_post "mcpace-1") 1600
    (run sample_iteration [CmdSnapshot 1300] (touch_from_request (sample_post "mcpace-1") 1100 sample_store).1)).2 = false.
Proof.
  apply (idle_session_expires sample_iteration sample_iteration_perm "mcpace-1" None 1100 (sample_post "mcpace-1") sample_store
           sample_store_wf) with (header' := None).
  - vm_compute. reflexivity.
  - vm_compute. reflexivity.
  - vm_compute. discriminate.
  - repeat constructor. discriminate.
  - vm_compute. reflexivity.
  - vm_compute. discriminate.
Defined.
