(* ===== verification/ProxyUri.v ===== *)
(** * Proxied resource URIs (src/adapter/proxy_uri.rs)

    A resource of an upstream server is offered under a URI of MCPace's own that carries the
    server's name and the upstream URI in hexadecimal; reading it back has to give exactly
    the two. Also the helpers of that file. *)

From Stdlib Require Import Ascii.
From S2P Require Import Prelude RustStr BTree Json.

Definition PROXIED_RESOURCE_SCHEME : string := "mcpace://upstream-resource".

Inductive ProxyResourceUriError :=
| NotProxied (uri : string)
| MissingPayload (uri : string)
| InvalidHexLength
| InvalidHexByte (byte : ascii)
| ServerUtf8 (source : string)
| UriUtf8 (source : string).

(** A byte read as a [char] and printed: one byte below 128, else the two-byte encoding. *)
Definition latin1_to_utf8 (byte : ascii) : string :=
  if (code byte <? 128)%N then String byte EmptyString
  else of_bytes [ascii_of_N (192 + N.shiftr (code byte) 6); ascii_of_N (128 + N.land (code byte) 63)].

Definition display_proxy_error (e : ProxyResourceUriError) : string :=
  match e with
  | NotProxied uri => "resource uri '" +:+ uri +:+ "' is not a MCPace proxied upstream resource"
  | MissingPayload uri => "resource uri '" +:+ uri +:+ "' is missing upstream server or payload"
  | InvalidHexLength => "hex payload length must be even"
  | InvalidHexByte byte => "invalid hex byte '" +:+ latin1_to_utf8 byte +:+ "'"
  | ServerUtf8 source => "proxied resource server is not UTF-8: " +:+ source
  | UriUtf8 source => "proxied resource uri is not UTF-8: " +:+ source
  end.

(** ** Hexadecimal *)

Definition DIGITS : list ascii :=
  ["0"; "1"; "2"; "3"; "4"; "5"; "6"; "7"; "8"; "9"; "a"; "b"; "c"; "d"; "e"; "f"]%char.

Definition digit_at (n : N) : ascii := nth (N.to_nat n) DIGITS "0"%char.

Fixpoint hex_encode_bytes (bs : list ascii) : list ascii :=
  match bs with
  | [] => []
  | byte :: rest => digit_at (N.shiftr (code byte) 4) :: digit_at (N.land (code byte) 15) :: hex_encode_bytes rest
  end.

Definition hex_encode (bs : list ascii) : string := of_bytes (hex_encode_bytes bs).

Definition hex_value (byte : ascii) : result N ProxyResourceUriError :=
  if in_range 48 57 byte then Ok (code byte - 48)%N
  else if in_range 97 102 byte then Ok (code byte - 97 + 10)%N
  else if in_range 65 70 byte then Ok (code byte - 65 + 10)%N
  else Err (InvalidHexByte byte).

Fixpoint hex_decode_bytes (chars : list ascii) : result (list ascii) ProxyResourceUriError :=
  match chars with
  | high :: low :: rest =>
      h ←? hex_value high ;;
      l ←? hex_value low ;;
      bs ←? hex_decode_bytes rest ;;
      Ok (ascii_of_N (N.lor (N.shiftl h 4) l) :: bs)
  | _ => Ok []
  end.

Definition hex_decode (value : string) : result (list ascii) ProxyResourceUriError :=
  if (str_len value mod 2 =? 0)%N then hex_decode_bytes (bytes value) else Err InvalidHexLength.

(** ** [String::from_utf8]

    Where validation stops: the number of valid bytes before the fault, and the length of
    the fault unless the input ended inside a character. *)
Fixpoint utf8_fault (index : N) (l : list ascii) : option (N * option N) :=
  match l with
  | [] => None
  | a :: l1 =>
      if (code a <? 128)%N then utf8_fault (index + 1) l1
      else if in_range 194 223 a then
        match l1 with
        | [] => Some (index, None)
        | b :: l2 => if cont_byte b then utf8_fault (index + 2) l2 else Some (index, Some 1%N)
        end
      else if in_range 224 239 a then
        match l1 with
        | [] => Some (index, None)
        | b :: l2 =>
            if (code a =? 224)%N && in_range 160 191 b
               || (in_range 225 236 a || in_range 238 239 a) && cont_byte b
               || (code a =? 237)%N && in_range 128 159 b
            then match l2 with
                 | [] => Some (index, None)
                 | c :: l3 => if cont_byte c then utf8_fault (index + 3) l3 else Some (index, Some 2%N)
                 end
            else Some (index, Some 1%N)
        end
      else if in_range 240 244 a then
        match l1 with
        | [] => Some (index, None)
        | b :: l2 =>
            if (code a =? 240)%N && in_range 144 191 b
               || in_range 241 243 a && cont_byte b
               || (code a =? 244)%N && in_range 128 143 b
            then match l2 with
                 | [] => Some (index, None)
                 | c :: l3 =>
                     if cont_byte c
                     then match l3 with
                          | [] => Some (index, None)
                          | d :: l4 => if cont_byte d then utf8_fault (index + 4) l4 else Some (index, Some 3%N)
                          end
                     else Some (index, Some 2%N)
                 end
            else Some (index, Some 1%N)
        end
      else Some (index, Some 1%N)
  end.

Definition from_utf8 (bs : list ascii) : result string string :=
  match utf8_fault 0 bs with
  | None => Ok (of_bytes bs)
  | Some (index, Some len) =>
      Err ("invalid utf-8 sequence of " +:+ N_to_string len +:+ " bytes from index " +:+ N_to_string index)
  | Some (index, None) => Err ("incomplete utf-8 byte sequence from index " +:+ N_to_string index)
  end.

(** [String::from_utf8_lossy]: every fault becomes U+FFFD. *)
Definition replacement : list ascii := map ascii_of_N [239; 191; 189]%N.

Fixpoint lossy (fuel : nat) (l : list ascii) : list ascii :=
  match fuel with
  | O => []
  | S fuel =>
      match utf8_fault 0 l with
      | None => l
      | Some (index, Some len) => firstn (N.to_nat index) l ++ replacement ++ lossy fuel (skipn (N.to_nat (index + len)) l)
      | Some (index, None) => firstn (N.to_nat index) l ++ replacement
      end
  end.

Definition from_utf8_lossy (l : list ascii) : string := of_bytes (lossy (S (length l)) l).

(** ** The URIs *)

Definition encode_resource_uri (server upstream_uri : string) : string :=
  PROXIED_RESOURCE_SCHEME +:+ "/" +:+ hex_encode (bytes server) +:+ "/" +:+ hex_encode (bytes upstream_uri).

Definition decode_resource_uri (value : string) : result (string * string) ProxyResourceUriError :=
  rest ←? ok_or (strip_prefix (PROXIED_RESOURCE_SCHEME +:+ "/") value) (NotProxied value) ;;
  encoded ←? ok_or (split_once "/" rest) (MissingPayload value) ;;
  server_bytes ←? hex_decode encoded.1 ;;
  server ←? map_err ServerUtf8 (from_utf8 server_bytes) ;;
  uri_bytes ←? hex_decode encoded.2 ;;
  uri ←? map_err UriUtf8 (from_utf8 uri_bytes) ;;
  Ok (server, uri).

Definition maybe_meta_errors (errors : list JsonValue) : string * JsonValue :=
  ("_meta", json_object [("mcpace/errors", json_array errors)]).

Definition is_unsupported_method_error (error : string) : bool :=
  let lower := to_ascii_lowercase error in
  str_contains "method not found" lower || str_contains "unsupported" lower
  || str_contains "unknown method" lower || str_contains "-32601" lower.

(** ** Lemmas *)

Lemma hex_value_digit n : (n < 16)%N -> hex_value (digit_at n) = Ok n.
Proof. intros H. destruct n as [|p]; [reflexivity|]. do 4 (try destruct p as [p|p|]); try reflexivity; lia. Qed.

Lemma digit_not_slash n : Ascii.eqb "/" (digit_at n) = false.
Proof.
  unfold digit_at. generalize (N.to_nat n). intros k. do 16 (destruct k as [|k]; [reflexivity|]). by destruct k.
Qed.

(** The two digits of a byte put together again. *)
Lemma nibbles_join byte :
  (N.shiftr (code byte) 4 < 16)%N /\ (N.land (code byte) 15 < 16)%N
  /\ ascii_of_N (N.lor (N.shiftl (N.shiftr (code byte) 4) 4) (N.land (code byte) 15)) = byte.
Proof. destruct byte as [ [] [] [] [] [] [] [] [] ]; repeat split. Qed.

Lemma hex_decode_encode_bytes bs : hex_decode_bytes (hex_encode_bytes bs) = Ok bs.
Proof.
  induction bs as [|b bs IH]; [done|]. destruct (nibbles_join b) as (Hh & Hl & E).
  cbn [hex_encode_bytes hex_decode_bytes]. by rewrite !hex_value_digit, IH, E.
Qed.

Lemma hex_encode_even bs : (len_N (hex_encode_bytes bs) mod 2 = 0)%N.
Proof.
  assert (H : len_N (hex_encode_bytes bs) = (len_N bs * 2)%N).
  { induction bs as [|b bs IH]; [done|]. cbn [hex_encode_bytes]. rewrite !len_N_cons, IH. lia. }
  rewrite H. by apply N.Div0.mod_mul.
Qed.

Lemma hex_decode_encode bs : hex_decode (hex_encode bs) = Ok bs.
Proof.
  unfold hex_decode, hex_encode. rewrite str_len_bytes, !bytes_of_bytes, hex_encode_even.
  apply hex_decode_encode_bytes.
Qed.

Lemma hex_encode_no_slash bs : contains_char "/" (hex_encode bs) = false.
Proof.
  unfold contains_char, hex_encode. rewrite bytes_of_bytes.
  induction bs as [|b bs IH]; [done|]. cbn [hex_encode_bytes existsb]. by rewrite !digit_not_slash, IH.
Qed.

Lemma hex_value_lower c n : hex_value c = Ok n -> (n < 16)%N /\ ascii_lower c = digit_at n.
Proof.
  destruct c as [ [] [] [] [] [] [] [] [] ]; vm_compute; intros H; try discriminate H; injection H as <-; by split.
Qed.

Lemma join_nibbles h l : (h < 16)%N -> (l < 16)%N ->
  N.shiftr (code (ascii_of_N (N.lor (N.shiftl h 4) l))) 4 = h
  /\ N.land (code (ascii_of_N (N.lor (N.shiftl h 4) l))) 15 = l.
Proof.
  intros Hh Hl.
  assert (Hall : forallb (fun h => forallb (fun l =>
      (N.shiftr (code (ascii_of_N (N.lor (N.shiftl h 4) l))) 4 =? h)%N
      && (N.land (code (ascii_of_N (N.lor (N.shiftl h 4) l))) 15 =? l)%N) (map N.of_nat (seq 0 16)))
    (map N.of_nat (seq 0 16)) = true) by (vm_compute; reflexivity).
  assert (Hin : forall n, (n < 16)%N -> In n (map N.of_nat (seq 0 16))).
  { intros n Hn. apply in_map_iff. exists (N.to_nat n). split; [lia|]. apply in_seq. lia. }
  rewrite forallb_forall in Hall. specialize (Hall h (Hin h Hh)). rewrite forallb_forall in Hall.
  specialize (Hall l (Hin l Hl)). bool_prop. by split.
Qed.

(** What decodes is the encoding of the result, up to the case of the digits. *)
Lemma hex_decode_bytes_lower chars bs :
  hex_decode_bytes chars = Ok bs -> (len_N chars mod 2 = 0)%N -> map ascii_lower chars = hex_encode_bytes bs.
Proof.
  revert bs. induction chars as [chars IH] using (induction_ltof1 _ (@length ascii)); unfold ltof in IH. intros bs.
  destruct chars as [|h [|l rest] ]; [by intros [= <-]|by intros _ Hl|]. cbn [hex_decode_bytes].
  destruct (hex_value h) as [hv|] eqn:Eh; [|done]. destruct (hex_value l) as [lv|] eqn:El; [|done].
  destruct (hex_decode_bytes rest) as [bs'|] eqn:Er; [|done]. intros [= <-] Hlen.
  apply hex_value_lower in Eh as [Hh Eh]. apply hex_value_lower in El as [Hl El].
  destruct (join_nibbles hv lv Hh Hl) as [Hj1 Hj2]. cbn [map hex_encode_bytes]. rewrite Hj1, Hj2, Eh, El.
  do 2 f_equal. apply IH; [simpl; lia|done|]. rewrite !len_N_cons in Hlen.
  replace (1 + (1 + len_N rest))%N with (len_N rest + 1 * 2)%N in Hlen by lia. by rewrite N.Div0.mod_add in Hlen.
Qed.

Lemma hex_decode_lower s bs : hex_decode s = Ok bs -> to_ascii_lowercase s = hex_encode bs.
Proof.
  unfold hex_decode. rewrite str_len_bytes. case_stuck; [|done]. bool_prop. intros H.
  unfold to_ascii_lowercase, map_bytes, hex_encode. f_equal. by apply hex_decode_bytes_lower.
Qed.

(** *** The fault is absent exactly on valid input *)

Lemma in_range_true lo hi a : in_range lo hi a = true <-> (lo <= code a <= hi)%N.
Proof. unfold in_range. by rewrite andb_true_iff, !N.leb_le. Qed.

Lemma in_range_false lo hi a : in_range lo hi a = false <-> ~ (lo <= code a <= hi)%N.
Proof. rewrite <- in_range_true. by destruct (in_range lo hi a). Qed.

(** Decides the tests on a lead byte that its known range settles negatively. *)
Ltac lead_byte a :=
  rewrite ?in_range_true, ?in_range_false in *;
  repeat match goal with
  | |- context [in_range ?lo ?hi a] => rewrite (proj2 (in_range_false lo hi a)) by lia
  | |- context [(code a =? ?n)%N] => rewrite (proj2 (N.eqb_neq (code a) n)) by lia
  end; cbn [andb orb].

Lemma utf8_fault_valid index l : utf8_fault index l = None <-> utf8_valid l = true.
Proof.
  revert index. induction l as [l IH] using (induction_ltof1 _ (@length ascii)); unfold ltof in IH. intros index.
  destruct l as [|a l1]; [done|]. simpl.
  destruct (code a <? 128)%N; [apply IH; simpl; lia|]. unfold utf8_pair, utf8_triple, utf8_quad.
  destruct (in_range 194 223 a) eqn:E2; [|destruct (in_range 224 239 a) eqn:E3; [|destruct (in_range 240 244 a) eqn:E4] ].
  - destruct l1 as [|b l2]; [done|]. cbn [andb]. destruct (cont_byte b) eqn:Eb; [apply IH; simpl; lia|].
    lead_byte a. by destruct l2 as [|c [|d l4] ].
  - destruct l1 as [|b l2]; [done|]. cbn [andb]. destruct l2 as [|c l3]; [by case_stuck|].
    case_stuck; cbn [andb]; [|lead_byte a; by destruct l3].
    destruct (cont_byte c) eqn:Ec; [apply IH; simpl; lia|]. lead_byte a. by destruct l3.
  - destruct l1 as [|b l2]; [done|]. cbn [andb]. lead_byte a.
    destruct l2 as [|c l3]; [by case_stuck|]. case_stuck; cbn [andb]; [|by destruct l3].
    destruct (cont_byte c) eqn:Ec; cbn [andb]; [|by destruct l3]. destruct l3 as [|d l4]; [done|].
    destruct (cont_byte d) eqn:Ed; cbn [andb]; [apply IH; simpl; lia|done].
  - lead_byte a. by destruct l1 as [|b [|c [|d l4] ] ].
Qed.

Lemma from_utf8_valid s : utf8_valid (bytes s) = true -> from_utf8 (bytes s) = Ok s.
Proof.
  intros H. apply (utf8_fault_valid 0) in H. unfold from_utf8. by rewrite H, of_bytes_bytes.
Qed.

Lemma from_utf8_ok bs s : from_utf8 bs = Ok s -> s = of_bytes bs /\ utf8_valid (bytes s) = true.
Proof.
  unfold from_utf8. destruct (utf8_fault 0 bs) as [ [i [n|] ] |] eqn:E; [done|done|]. intros [= <-].
  rewrite bytes_of_bytes. split; [done|]. by apply (utf8_fault_valid 0).
Qed.

(** ** Claims *)

Lemma decode_encoded server uri :
  utf8_valid (bytes server) = true -> utf8_valid (bytes uri) = true ->
  decode_resource_uri (encode_resource_uri server uri) = Ok (server, uri).
Proof.
  intros Hs Hu. unfold decode_resource_uri, encode_resource_uri.
  rewrite <- append_assoc_str, strip_prefix_app. cbn [ok_or].
  change ("/" +:+ hex_encode (bytes uri)) with (String "/" (hex_encode (bytes uri))).
  rewrite split_once_app by apply hex_encode_no_slash. cbn [ok_or fst snd].
  rewrite hex_decode_encode, (from_utf8_valid server Hs). cbn [map_err].
  by rewrite hex_decode_encode, (from_utf8_valid uri Hu).
Qed.

(** Decoding inverts encoding for every server name and upstream URI, so two
    resources never share a proxied URI; and whatever decodes is, up to the case of its
    letters, the encoding of the pair it decodes to. *)
Theorem resource_uri_roundtrip :
  (forall server uri, utf8_valid (bytes server) = true -> utf8_valid (bytes uri) = true ->
     decode_resource_uri (encode_resource_uri server uri) = Ok (server, uri))
  /\ (forall value server uri, decode_resource_uri value = Ok (server, uri) ->
        utf8_valid (bytes server) = true /\ utf8_valid (bytes uri) = true
        /\ to_ascii_lowercase value = encode_resource_uri server uri).
Proof.
  split.
  - apply decode_encoded.
  - intros value server uri. unfold decode_resource_uri.
    destruct (strip_prefix _ value) as [rest|] eqn:Ep; [|done]. cbn [ok_or].
    destruct (split_once "/" rest) as [ [x y] |] eqn:Es; [|done]. cbn [ok_or fst snd].
    destruct (hex_decode x) as [xb|] eqn:Ex; [|done]. destruct (from_utf8 xb) as [s|] eqn:Ea; [|done]. cbn [map_err].
    destruct (hex_decode y) as [yb|] eqn:Ey; [|done]. destruct (from_utf8 yb) as [u|] eqn:Eb; [|done].
    cbn [map_err]. intros [= -> ->].
    apply strip_prefix_Some in Ep as ->. apply split_once_Some in Es as [-> _].
    apply from_utf8_ok in Ea as [-> Hs], Eb as [-> Hu]. split; [done|]. split; [done|].
    unfold encode_resource_uri. rewrite !bytes_of_bytes, <- (hex_decode_lower _ _ Ex), <- (hex_decode_lower _ _ Ey).
    change (String "/" y) with ("/" +:+ y). by rewrite !lower_app, append_assoc_str.
Qed.

(** ** Witness *)

Lemma resource_uri_roundtrip_witness :
  decode_resource_uri (encode_resource_uri "docs" "file:///a/b") = Ok ("docs", "file:///a/b")
  /\ decode_resource_uri "mcpace://upstream-resource/4A/2f" = Ok ("J", "/").
Proof.
  split; [|vm_compute; reflexivity].
  apply (proj1 resource_uri_roundtrip); vm_compute; reflexivity.
Defined.
