(* ===== verification/ServerRegistry.v ===== *)
(** * The server registry and the runtime profile

    - src/source_type.rs and src/platform_utils.rs: transport and platform names.
    - src/mcp_sources.rs: the registry of servers merged from the settings files.  What the
      file system answers for a source is a [SourceRead]; the merge is the source's loop.
    - src/profile.rs: the catalogue of runtime profiles, the active profile and its server
      overrides, as functions of what the reads of mcpace.config.json gave. *)

From Stdlib Require Import Ascii.
From S2P Require Import Prelude RustStr BTree Json TextUtils Execution.

(** ** Transport names *)

Definition normalize_public_source_type (value : string) : string :=
  let v := to_ascii_lowercase (trim value) in
  if str_is_empty v then EmptyString
  else if one_of ["streamablehttp"; "streamable-http"; "streamable_http"; "http-stream";
                  "remote-http"; "remote"; "http"; "url"] v then "streamable-http"
  else if one_of ["legacy-sse"; "sse-legacy"; "http+sse"; "http-sse"; "remote-sse"; "sse"] v then
    "sse-legacy"
  else if one_of ["stdio"; "local"; "local-stdio"; "local-command"; "command"] v then "stdio"
  else v.

Definition normalize_runtime_source_type (value : string) : string :=
  let v := normalize_public_source_type value in
  if str_is_empty v then EmptyString
  else if String.eqb v "streamable-http" then "http"
  else if String.eqb v "sse-legacy" then "legacy-sse"
  else v.

Definition infer_source_type_with_remote_default (raw_source_type command url remote_default : string)
    (normalize : string -> string) : string :=
  let normalized := normalize raw_source_type in
  if negb (str_is_empty normalized) then normalized
  else if negb (str_is_empty (trim command)) then "stdio"
  else if negb (str_is_empty (trim url)) then remote_default
  else "stdio".

Definition infer_public_source_type (raw_source_type command url : string) : string :=
  infer_source_type_with_remote_default raw_source_type command url "streamable-http"
    normalize_public_source_type.

Definition infer_runtime_source_type (raw_source_type command url : string) : string :=
  infer_source_type_with_remote_default raw_source_type command url "http"
    normalize_runtime_source_type.

(** ** Platforms

    [current] is [current_platform_alias ()], a constant of the build. *)

Definition normalize_platform (value : string) : string :=
  let v := to_ascii_lowercase (trim value) in
  if one_of ["darwin"; "mac"; "osx"; "macos"] v then "macos"
  else if one_of ["win"; "win32"; "windows"; "windows_nt"] v then "windows"
  else v.

Definition supports_current_platform (current : string) (platforms : list string) : bool :=
  match platforms with
  | [] => true
  | _ =>
      existsb (fun platform =>
        let normalized := normalize_platform platform in
        String.eqb normalized current || one_of ["any"; "all"; "*"] normalized) platforms
  end.

(** ** The registry of servers *)

Definition server_name_char (ch : ascii) : ascii :=
  if is_ascii_alphanumeric ch || existsb (Ascii.eqb ch) ["-"; "_"; "."]%char then ch else "-"%char.

Definition normalize_server_name (value : string) : string :=
  to_ascii_lowercase (trim_matches "-" (map_chars server_name_char "-" (trim value))).

Record McpServerEntry := mkEntry {
  entry_name : string;
  entry_normalized_name : string;
  entry_value : JsonValue;
  entry_source : string
}.

Record McpServerRegistry := mkRegistry {
  registry_servers : list (string * McpServerEntry);
  registry_sources : list string;
  registry_warnings : list string
}.

(** What looking at a source's file gives: not there, refused by the check for a regular
    file (with its message), unreadable or malformed (with the message of the read), or
    its JSON. *)
Inductive SourceRead : Type :=
| SourceMissing
| SourceRefused (error : string)
| SourceUnreadable (error : string)
| SourceValue (value : JsonValue).

Definition push_warning (warning : string) (r : McpServerRegistry) : McpServerRegistry :=
  mkRegistry (registry_servers r) (registry_sources r) (registry_warnings r ++ [warning]).

Definition register_server (path : string) (r : McpServerRegistry) (named : string * JsonValue)
    : McpServerRegistry :=
  let '(name, server) := named in
  let normalized_name := normalize_server_name name in
  if str_is_empty normalized_name then
    push_warning ("MCP settings source '" +:+ path +:+ "' contains an empty server name; skipping") r
  else
    let inserted :=
      mkRegistry (bt_insert normalized_name (mkEntry name normalized_name server path) (registry_servers r))
        (registry_sources r) (registry_warnings r) in
    match bt_get normalized_name (registry_servers r) with
    | Some previous =>
        push_warning ("duplicate MCP server '" +:+ name +:+ "' from '" +:+ path
                      +:+ "' overrides earlier source '" +:+ entry_source previous +:+ "'") inserted
    | None => inserted
    end.

Definition load_source (r : McpServerRegistry) (source : string * SourceRead) : McpServerRegistry :=
  let '(path, read) := source in
  match read with
  | SourceMissing =>
      push_warning ("MCP settings source '" +:+ path +:+ "' does not exist; skipping") r
  | SourceRefused error => push_warning error r
  | SourceUnreadable error =>
      push_warning ("failed to read MCP settings source '" +:+ path +:+ "': " +:+ error +:+ "; skipping") r
  | SourceValue value =>
      let r := mkRegistry (registry_servers r) (registry_sources r ++ [path]) (registry_warnings r) in
      match mcp_servers_object value with
      | None =>
          push_warning ("MCP settings source '" +:+ path
                        +:+ "' has no mcpServers or servers object; skipping") r
      | Some servers => fold_left (register_server path) servers r
      end
  end.

(** [warnings] are those of [collect_source_paths], which lists the sources. *)
Definition load_mcp_server_registry (warnings : list string) (sources : list (string * SourceRead))
    : McpServerRegistry :=
  let r := fold_left load_source sources (mkRegistry [] [] warnings) in
  mkRegistry (registry_servers r) (sort_dedup (registry_sources r)) (sort_dedup (registry_warnings r)).

(** ** Runtime profiles *)

Record CatalogProfile := mkProfile {
  profile_name : string;
  profile_description : string;
  server_override_count : N
}.

Record ProfileCatalog := mkCatalog {
  default_profile : string;
  profiles : list (string * CatalogProfile)
}.

Record RuntimeProfileSelection := mkSelection {
  sel_active_profile : string;
  sel_default_profile : string;
  selection_source : string;
  server_overrides : list (string * bool)
}.

Definition builtin_profiles : list (string * string * N) :=
  [("safe", "Required path plus source-default safe optional integrations.", 0%N);
   ("extended", "Reserved for validated local productivity integrations.", 0%N);
   ("full", "Turns on all optional integrations and lets runtime gating decide what actually runs.", 6%N)].

Definition insert_builtin (ps : list (string * CatalogProfile)) (p : string * string * N)
    : list (string * CatalogProfile) :=
  let '(name, description, overrides) := p in bt_insert name (mkProfile name description overrides) ps.

(** One profile of the configuration file: its description falls back to that of the
    profile it replaces. *)
Definition insert_profile (ps : list (string * CatalogProfile)) (named : string * JsonValue)
    : list (string * CatalogProfile) :=
  let '(name, raw_profile) := named in
  let normalized_name := to_ascii_lowercase (trim name) in
  if str_is_empty normalized_name then ps
  else
    let description :=
      unwrap_or
        (opt_or
          (opt_filter (fun v => negb (str_is_empty v))
            (option_map trim (json_get raw_profile "description" ≫= as_str)))
          (option_map profile_description (bt_get normalized_name ps))) EmptyString in
    let override_count :=
      unwrap_or (option_map len_N (json_get raw_profile "serverOverrides" ≫= as_object)) 0%N in
    bt_insert normalized_name (mkProfile normalized_name description override_count) ps.

Definition build_profile_catalog_from_config (json : JsonValue) : ProfileCatalog :=
  let runtime := object_at_path json ["profiles"; "runtime"] in
  let default :=
    to_ascii_lowercase (trim (unwrap_or ((runtime ≫= bt_get "default") ≫= as_str) "safe")) in
  let builtin := fold_left insert_builtin builtin_profiles [] in
  let all :=
    match (runtime ≫= bt_get "profiles") ≫= as_object with
    | Some runtime_profiles => fold_left insert_profile runtime_profiles builtin
    | None => builtin
    end in
  let resolved_default :=
    if str_is_empty default || negb (bt_contains default all) then "safe" else default in
  mkCatalog resolved_default all.

(** [env_profile] is MCPACE_RUNTIME_PROFILE. *)
Definition resolve_active_profile (env_profile : option string) (catalog : ProfileCatalog)
    : string * string :=
  match opt_filter (fun v => negb (str_is_empty v)) (option_map trim env_profile) with
  | Some value =>
      let normalized := to_ascii_lowercase value in
      if bt_contains normalized (profiles catalog) then (normalized, "environment")
      else ("safe", "fallback-safe")
  | None =>
      if bt_contains (default_profile catalog) (profiles catalog) then
        (default_profile catalog, "config-default")
      else ("safe", "fallback-safe")
  end.

Definition override_enabled_value (entry : JsonValue) : bool :=
  match entry with
  | JBool value => value
  | JObject object => unwrap_or (bt_get "enabled" object ≫= as_bool) true
  | _ => true
  end.

Definition insert_override (overrides : list (string * bool)) (named : string * JsonValue)
    : list (string * bool) :=
  let '(server_name, entry) := named in
  let normalized_server_name := normalize_server_name server_name in
  if str_is_empty normalized_server_name then overrides
  else bt_insert normalized_server_name (override_enabled_value entry) overrides.

(** Only the first profile of that name is read ([break]). *)
Definition read_server_overrides (json : JsonValue) (active_profile : string) : list (string * bool) :=
  match object_at_path json ["profiles"; "runtime"; "profiles"] with
  | None => []
  | Some runtime_profiles =>
      match List.find (fun '(name, _) => String.eqb (to_ascii_lowercase (trim name)) active_profile)
              runtime_profiles with
      | None => []
      | Some (_, raw_profile) =>
          match json_get raw_profile "serverOverrides" ≫= as_object with
          | Some entries => fold_left insert_override entries []
          | None => []
          end
      end
  end.

Definition profile_error (path source : string) : string :=
  "failed to load runtime profile config " +:+ path +:+ ": " +:+ source.

(** The file is read twice: once for the catalogue, once for the overrides. *)
Definition load_runtime_profile_selection (config_path : string) (env_profile : option string)
    (catalog_read overrides_read : result JsonValue string) : result RuntimeProfileSelection string :=
  json ←? map_err (profile_error config_path) catalog_read ;;
  let catalog := build_profile_catalog_from_config json in
  let '(active_profile, selection_source) := resolve_active_profile env_profile catalog in
  json ←? map_err (profile_error config_path) overrides_read ;;
  Ok (mkSelection active_profile (default_profile catalog) selection_source
        (read_server_overrides json active_profile)).

Record ProfileSummary := mkSummary {
  sum_name : string;
  sum_description : string;
  is_active : bool;
  sum_override_count : N
}.

Record ProfileReport := mkReport {
  rep_active_profile : string;
  rep_default_profile : string;
  rep_selection_source : string;
  rep_profiles : list ProfileSummary
}.

Definition build_report (catalog : ProfileCatalog) (active_profile selection_source : string)
    : ProfileReport :=
  mkReport active_profile (default_profile catalog) selection_source
    (map (fun profile =>
            mkSummary (profile_name profile) (profile_description profile)
              (String.eqb (profile_name profile) active_profile) (server_override_count profile))
         (bt_values (profiles catalog))).

Definition summary_to_json_value (s : ProfileSummary) : JsonValue :=
  json_object
    [("name", json_string (sum_name s)); ("description", json_string (sum_description s));
     ("isActive", json_bool (is_active s)); ("serverOverrideCount", json_number (sum_override_count s))].

Definition report_to_json_value (r : ProfileReport) : JsonValue :=
  json_object
    [("activeProfile", json_string (rep_active_profile r));
     ("defaultProfile", json_string (rep_default_profile r));
     ("selectionSource", json_string (rep_selection_source r));
     ("profiles", json_array (map summary_to_json_value (rep_profiles r)))].

(** ** The registry holds the last definition of every name *)

(** Every server a source defines, in the order in which the loop meets them. *)
Definition defined_in (source : string * SourceRead) : list McpServerEntry :=
  match source.2 with
  | SourceValue value =>
      map (fun '(name, server) => mkEntry name (normalize_server_name name) server source.1)
          (unwrap_or (mcp_servers_object value) [])
  | _ => []
  end.

Definition named (k : string) (e : McpServerEntry) : bool := String.eqb (entry_normalized_name e) k.

(** The entry filed under [k] after the definitions [es] were added to a registry that
    had [before] there. *)
Definition last_named (k : string) (before : option McpServerEntry) (es : list McpServerEntry)
    : option McpServerEntry :=
  fold_left (fun acc e => if named k e then Some e else acc) es before.

Lemma last_named_spec k before es :
  last_named k before es = opt_or (last (List.filter (named k) es)) before.
Proof.
  unfold last_named. induction es as [|e es IH] using rev_ind; [done|].
  rewrite fold_left_app, List.filter_app. simpl. destruct (named k e); simpl.
  - by rewrite last_snoc.
  - by rewrite app_nil_r.
Qed.

Lemma register_server_get k path r name server :
  k <> EmptyString ->
  bt_get k (registry_servers (register_server path r (name, server)))
  = if String.eqb (normalize_server_name name) k
    then Some (mkEntry name (normalize_server_name name) server path)
    else bt_get k (registry_servers r).
Proof.
  intros Hk. unfold register_server. destruct (str_is_empty _) eqn:Ee; simpl.
  - apply str_is_empty_true in Ee. rewrite Ee. destruct (String.eqb_spec EmptyString k); [by subst|done].
  - assert (H : bt_get k (bt_insert (normalize_server_name name)
                  (mkEntry name (normalize_server_name name) server path) (registry_servers r))
                = if String.eqb (normalize_server_name name) k
                  then Some (mkEntry name (normalize_server_name name) server path)
                  else bt_get k (registry_servers r)).
    { destruct (String.eqb_spec (normalize_server_name name) k) as [<-|Hne].
      - apply bt_get_insert_eq.
      - by apply bt_get_insert_ne. }
    by destruct (bt_get (normalize_server_name name) (registry_servers r)).
Qed.

Lemma register_servers_get k path r (servers : list (string * JsonValue)) :
  k <> EmptyString ->
  bt_get k (registry_servers (fold_left (register_server path) servers r))
  = last_named k (bt_get k (registry_servers r))
      (map (fun '(name, server) => mkEntry name (normalize_server_name name) server path) servers).
Proof.
  intros Hk. revert r. induction servers as [|[name server] servers IH]; intros r; [done|].
  cbn [fold_left map]. rewrite IH, register_server_get by done. done.
Qed.

Lemma load_source_get k r source :
  k <> EmptyString ->
  bt_get k (registry_servers (load_source r source))
  = last_named k (bt_get k (registry_servers r)) (defined_in source).
Proof.
  intros Hk. destruct source as [path [|e|e|value]]; [done..|].
  unfold load_source, defined_in. cbn [fst snd].
  destruct (mcp_servers_object value) as [servers|]; [|done]. simpl.
  by rewrite register_servers_get.
Qed.

Lemma load_sources_get k r sources :
  k <> EmptyString ->
  bt_get k (registry_servers (fold_left load_source sources r))
  = last_named k (bt_get k (registry_servers r)) (flat_map defined_in sources).
Proof.
  intros Hk. revert r. induction sources as [|source sources IH]; intros r; [done|].
  cbn [fold_left flat_map]. rewrite IH, load_source_get by done. unfold last_named.
  by rewrite fold_left_app.
Qed.

(** *** Every entry is filed under its own normalized name *)

Definition registry_wf (servers : list (string * McpServerEntry)) : Prop :=
  bt_wf servers /\
  Forall (fun '(k, e) => k = entry_normalized_name e /\ k = normalize_server_name (entry_name e)
                         /\ k <> EmptyString) servers.

Lemma register_server_wf path r named :
  registry_wf (registry_servers r) -> registry_wf (registry_servers (register_server path r named)).
Proof.
  destruct named as [name server]. intros [Hwf Hall]. unfold register_server.
  destruct (str_is_empty _) eqn:Ee; [done|]. apply str_is_empty_false in Ee.
  assert (H : registry_wf (bt_insert (normalize_server_name name)
                (mkEntry name (normalize_server_name name) server path) (registry_servers r))).
  { split; [by apply bt_insert_wf|]. rewrite Forall_forall in Hall |- *.
    intros [k e] [Heq|Hin]%bt_insert_elem; [by injection Heq as -> ->|by apply (Hall (k, e))]. }
  by destruct (bt_get _ (registry_servers r)).
Qed.

Lemma load_source_wf r source :
  registry_wf (registry_servers r) -> registry_wf (registry_servers (load_source r source)).
Proof.
  intros H. destruct source as [path [|e|e|value]]; [done..|]. unfold load_source.
  destruct (mcp_servers_object value) as [servers|]; [|done].
  apply (fold_left_invariant _ (fun r => registry_wf (registry_servers r))); [|done].
  intros. by apply register_server_wf.
Qed.

Lemma load_mcp_server_registry_wf warnings sources :
  registry_wf (registry_servers (load_mcp_server_registry warnings sources)).
Proof.
  unfold load_mcp_server_registry. cbn [registry_servers].
  apply (fold_left_invariant _ (fun r => registry_wf (registry_servers r))); [|split; constructor].
  intros. by apply load_source_wf.
Qed.

(** Whatever settings files are read, the registry is keyed
    by non-empty normalized names, every entry under its own, and holds under each name the
    last definition of it in the order of the files; unreadable and malformed files
    contribute nothing and hide nothing. *)
Theorem registry_last_definition_wins warnings sources k :
  k <> EmptyString ->
  let servers := registry_servers (load_mcp_server_registry warnings sources) in
  registry_wf servers /\
  bt_get k servers = last (List.filter (named k) (flat_map defined_in sources)).
Proof.
  intros Hk. split; [apply load_mcp_server_registry_wf|].
  unfold load_mcp_server_registry. cbn [registry_servers].
  rewrite load_sources_get by done. rewrite last_named_spec. simpl.
  by destruct (last _).
Qed.

Definition sample_source (path : string) (command : string) : string * SourceRead :=
  (path, SourceValue (json_object [("mcpServers",
     json_object [("Git Hub", json_object [("command", json_string command)])])])).

Lemma registry_last_definition_wins_witness :
  option_map entry_source
    (bt_get "git-hub" (registry_servers (load_mcp_server_registry []
       [sample_source "a.json" "one"; ("b.json", SourceMissing); sample_source "c.json" "two"])))
  = Some "c.json".
Proof.
  rewrite (proj2 (registry_last_definition_wins []
     [sample_source "a.json" "one"; ("b.json", SourceMissing); sample_source "c.json" "two"] "git-hub"
     ltac:(discriminate))).
  vm_compute. reflexivity.
Defined.

(** ** Profiles *)

Lemma insert_profile_keeps k ps named :
  bt_contains k ps = true -> bt_contains k (insert_profile ps named) = true.
Proof.
  destruct named as [name raw]. intros H. unfold insert_profile. destruct (str_is_empty _); [done|].
  unfold bt_contains. set (n := to_ascii_lowercase (trim name)).
  destruct (decide (n = k)) as [->|Hne]; [by rewrite bt_get_insert_eq|by rewrite bt_get_insert_ne].
Qed.

Lemma catalog_has_builtin json name :
  name ∈ ["safe"; "extended"; "full"] ->
  bt_contains name (profiles (build_profile_catalog_from_config json)) = true.
Proof.
  intros Hn. unfold build_profile_catalog_from_config. cbn [profiles].
  set (builtin := fold_left insert_builtin builtin_profiles []).
  assert (Hb : bt_contains name builtin = true).
  { apply list_elem_of_In in Hn. simpl in Hn. destruct Hn as [<-|[<-|[<-|[]]]]; reflexivity. }
  destruct (_ ≫= as_object) as [ps|]; [|done].
  apply (fold_left_invariant _ (fun m => bt_contains name m = true)); [|done].
  intros. by apply insert_profile_keeps.
Qed.

Lemma resolve_active_profile_known env_profile json :
  bt_contains (fst (resolve_active_profile env_profile (build_profile_catalog_from_config json)))
    (profiles (build_profile_catalog_from_config json)) = true.
Proof.
  pose proof (catalog_has_builtin json "safe" ltac:(by left)) as Hs. unfold resolve_active_profile.
  destruct (opt_filter _ _) as [v|].
  - by destruct (bt_contains (to_ascii_lowercase v) _) eqn:E.
  - by destruct (bt_contains (default_profile _) _) eqn:E.
Qed.

Lemma default_profile_known json :
  bt_contains (default_profile (build_profile_catalog_from_config json))
    (profiles (build_profile_catalog_from_config json)) = true.
Proof.
  pose proof (catalog_has_builtin json "safe" ltac:(by left)) as Hs.
  unfold build_profile_catalog_from_config in *. cbn [profiles default_profile] in *.
  destruct (_ || negb _) eqn:E; [done|]. bool_prop. done.
Qed.

(** The profile that is selected always exists, whatever the configuration file and the
    environment say; a name the catalogue does not have falls back to [safe]. *)
Lemma active_profile_known path env_profile read1 read2 sel :
  load_runtime_profile_selection path env_profile read1 read2 = Ok sel ->
  exists json, read1 = Ok json /\
    let catalog := build_profile_catalog_from_config json in
    bt_contains (sel_active_profile sel) (profiles catalog) = true /\
    bt_contains (sel_default_profile sel) (profiles catalog) = true.
Proof.
  unfold load_runtime_profile_selection. destruct read1 as [json|]; [|done]. cbn [map_err].
  destruct (resolve_active_profile _ _) as [active source] eqn:E.
  destruct read2 as [json2|]; [|done]. cbn [map_err]. intros [= <-]. exists json. split; [done|].
  cbn. split; [|apply default_profile_known].
  pose proof (resolve_active_profile_known env_profile json) as H. by rewrite E in H.
Qed.

(** The built-in profile [full] is described as turning
    all optional integrations on and is listed with six overrides, but when it is selected
    on a configuration that does not define it itself, no server is overridden. *)
Theorem full_profile_overrides_nothing path config runtime_profiles :
  object_at_path config ["profiles"; "runtime"; "profiles"] = Some runtime_profiles ->
  Forall (fun '(name, _) => to_ascii_lowercase (trim name) <> "full") runtime_profiles ->
  exists sel,
    load_runtime_profile_selection path (Some "full") (Ok config) (Ok config) = Ok sel /\
    sel_active_profile sel = "full" /\ server_overrides sel = [].
Proof.
  intros Hobj Hall. unfold load_runtime_profile_selection. cbn [map_err].
  pose proof (catalog_has_builtin config "full" ltac:(by right; right; left)) as Hf.
  assert (Hr : resolve_active_profile (Some "full") (build_profile_catalog_from_config config)
               = ("full", "environment")).
  { unfold resolve_active_profile.
    change (opt_filter _ (option_map trim (Some "full"))) with (Some "full"). cbv iota beta.
    change (to_ascii_lowercase "full") with "full". cbv zeta. by rewrite Hf. }
  rewrite Hr. eexists. split; [reflexivity|]. split; [reflexivity|]. cbn [server_overrides].
  unfold read_server_overrides. rewrite Hobj.
  destruct (List.find _ _) as [[name raw]|] eqn:E; [|done].
  apply List.find_some in E as [Hin Heq]. apply String.eqb_eq in Heq.
  rewrite Forall_forall in Hall. apply list_elem_of_In in Hin. by apply (Hall _ Hin) in Heq.
Qed.

Definition sample_config : JsonValue :=
  json_object [("profiles", json_object [("runtime", json_object
    [("default", json_string "manual");
     ("profiles", json_object [("manual", json_object [("serverOverrides", json_object [])])])])])].

Lemma full_profile_overrides_nothing_witness :
  exists sel,
    load_runtime_profile_selection "mcpace.config.json" (Some "full") (Ok sample_config) (Ok sample_config)
      = Ok sel /\ sel_active_profile sel = "full" /\ server_overrides sel = [].
Proof.
  eapply full_profile_overrides_nothing.
  - vm_compute. reflexivity.
  - repeat constructor. vm_compute. discriminate.
Defined.
