(* ===== verification/ServerConfig.v ===== *)
(** * Upstream server configuration (src/upstream/server_config.rs)

    The configuration of the upstream servers: placeholders in its texts
    (src/upstream/process_config.rs), the policy of mcpace.config.json for each server, and
    [load_servers], which joins the registry with the policies.  The process environment
    ([env], what [env::var] gives), the root path as text and the platform's name are
    arguments; paths are those of Unix. *)

From Stdlib Require Import Ascii.
From S2P Require Import Prelude RustStr BTree Json TextUtils Execution ServerRegistry.

(** ** Data (src/upstream.rs) *)

Record ToolRiskPolicy := mkToolPolicy {
  tools : list string;
  risk_class : option string;
  allow_argument : option string;
  description : option string
}.

Record UpstreamServerConfig := mkServer {
  name : string;
  enabled : bool;
  disabled_reason : option string;
  source_type : string;
  command : option string;
  args : list string;
  env : list (string * string);
  headers : list (string * string);
  cwd : option string;
  url : option string;
  timeout_ms : N;
  execution : ExecutionPolicy;
  tool_policies : list ToolRiskPolicy
}.

Record UpstreamServerPolicy := mkServerPolicy {
  profile_enabled : bool;
  platform_supported : bool;
  runtime_enabled : bool;
  policy_execution : ExecutionPolicy;
  policy_tool_policies : list ToolRiskPolicy
}.

Definition DEFAULT_TIMEOUT_MS : N := 120000.
Definition DEFAULT_PROBE_TIMEOUT_MS : N := 30000.

Inductive UpstreamServerConfigError : Type :=
| ConfigRegistry (reason : string)
| ConfigPolicy (reason : string).

Definition display_config_error (e : UpstreamServerConfigError) : string :=
  match e with
  | ConfigRegistry reason => "failed to load upstream server registry: " +:+ reason
  | ConfigPolicy reason => "failed to load upstream server policy: " +:+ reason
  end.

(** ** Placeholders *)

(** [Path::join] on Unix. *)
Definition path_join (base rest : string) : string :=
  if starts_with "/" rest then rest
  else if str_is_empty base || ends_with_char "/" base then base +:+ rest
  else base +:+ "/" +:+ rest.

Definition manager_data_path (root_path : string) : string :=
  path_join (path_join root_path "data") "runtime".

Definition child_process_path (value : string) : string :=
  match strip_prefix "\\?\UNC\" value with
  | Some rest => "\\" +:+ rest
  | None => unwrap_or (strip_prefix "\\?\" value) value
  end.

Definition resolve_placeholder (env : string -> option string) (root_path expression : string) : string :=
  let '(name, fallback) :=
    match split_once_str ":-" expression with
    | Some (name, fallback) => (name, Some fallback)
    | None => (expression, None)
    end in
  if String.eqb name "MCPACE_PRIMARY_WORKSPACE" then child_process_path root_path
  else if String.eqb name "MCPACE_MANAGER_DATA" then child_process_path (manager_data_path root_path)
  else unwrap_or (opt_or (env name) fallback) EmptyString.

Section expansion.
Context (env : string -> option string) (root_path : string).

(** The [while] loop; every turn consumes at least the three bytes of a placeholder, so
    the length of the input is enough fuel. *)
Fixpoint expand_loop (fuel : nat) (output rest : string) : string :=
  match fuel with
  | O => output +:+ rest
  | S fuel =>
      match split_once_str "${" rest with
      | None => output +:+ rest
      | Some (before, after_start) =>
          match split_once "}" after_start with
          | None => (output +:+ before) +:+ "${" +:+ after_start
          | Some (expression, after) =>
              expand_loop fuel ((output +:+ before) +:+ resolve_placeholder env root_path expression) after
          end
      end
  end.

Definition expand_template (input : string) : string :=
  expand_loop (String.length input) EmptyString input.

End expansion.

(** ** Environment names *)

Definition invalid_env_name (value : string) : bool :=
  str_is_empty value || contains_char "=" value || contains_char "000" value
  || contains_char "013" value || contains_char "010" value.

(** [seen] always holds exactly the names pushed so far. *)
Definition insert_env_var_name (names : list string) (value : string) : list string :=
  let value := trim value in
  if invalid_env_name value then names
  else if bool_decide (value ∈ names) then names
  else names ++ [value].

Definition env_var_name_of (value : JsonValue) : option string :=
  match value with
  | JString name => Some name
  | JObject object =>
      let source := trim (unwrap_or (bt_get "source" object ≫= as_str) "local") in
      if negb (String.eqb source "local") then None
      else opt_or (bt_get "name" object) (bt_get "key" object) ≫= as_str
  | _ => None
  end.

Definition env_var_names_from_array (values : option (list JsonValue)) : list string :=
  fold_left (fun names value =>
    match env_var_name_of value with
    | Some name => insert_env_var_name names name
    | None => names
    end) (unwrap_or values []) [].

(** ** Policies of mcpace.config.json *)

Definition context_string (value : option string) : option string := trimmed_non_empty_owned value.
Definition normalize_policy_token (value : string) : string := normalize_flag value.

Definition source_enabled_from_mcp_settings (raw : JsonValue) : bool :=
  if unwrap_or (bool_at_path raw ["disabled"]) false then false
  else unwrap_or (bool_at_path raw ["enabled"]) true.

Definition policy_says (raw_server : JsonValue) (path : list string) (word : string) : bool :=
  match string_at_path raw_server path with
  | Some value => String.eqb (normalize_policy_token value) word
  | None => false
  end.

Definition no_workers (raw_server : JsonValue) (path : list string) : bool :=
  match value_at_path raw_server path ≫= as_i64 with
  | Some value => (value <=? 0)%Z
  | None => false
  end.

Definition server_policy_is_disabled (raw_server : JsonValue) : bool :=
  policy_says raw_server ["policy"; "startupStrategy"] "disabled"
  || policy_says raw_server ["policy"; "routingGroup"] "disabled"
  || policy_says raw_server ["policy"; "concurrencyPolicy"] "plan-only"
  || policy_says raw_server ["policy"; "scopeClass"] "not-runnable"
  || no_workers raw_server ["policy"; "maxWorkers"]
  || policy_says raw_server ["execution"; "mode"] "disabled"
  || no_workers raw_server ["execution"; "maxWorkers"].

Definition non_empty_text (value : string) : bool := negb (str_is_empty value).

Definition parse_tool_policy (raw : JsonValue) : option ToolRiskPolicy :=
  let tools :=
    List.filter non_empty_text (map trim (strings_from_array (array_at_path raw ["tools"]))) in
  match tools with
  | [] => None
  | _ =>
      let risk_class :=
        opt_filter non_empty_text (option_map normalize_policy_token (string_at_path raw ["riskClass"])) in
      let allow_argument :=
        opt_filter non_empty_text (option_map trim (string_at_path raw ["allowArgument"])) in
      match risk_class, allow_argument with
      | None, None => None
      | _, _ =>
          Some (mkToolPolicy tools risk_class allow_argument
                  (opt_filter non_empty_text (option_map trim (string_at_path raw ["description"]))))
      end
  end.

Section policies.
Context (platform : string).

Definition server_policy_of (execution_defaults : ExecutionPolicy) (overrides : list (string * bool))
    (normalized_server_name : string) (raw_server : JsonValue) : UpstreamServerPolicy :=
  let required := unwrap_or (bool_at_path raw_server ["required"]) false in
  let default_enabled := unwrap_or (bool_at_path raw_server ["defaultEnabled"]) false in
  let override_enabled := bt_get normalized_server_name overrides in
  let profile_enabled := if required then true else unwrap_or override_enabled default_enabled in
  let platform_supported :=
    supports_current_platform platform (strings_from_array (array_at_path raw_server ["platforms"])) in
  let execution := for_server execution_defaults raw_server in
  let runtime_enabled := negb (is_disabled execution) && negb (server_policy_is_disabled raw_server) in
  let tool_policies := omap parse_tool_policy (unwrap_or (array_at_path raw_server ["toolPolicies"]) []) in
  mkServerPolicy profile_enabled platform_supported runtime_enabled execution tool_policies.

Definition insert_server_policy (execution_defaults : ExecutionPolicy) (overrides : list (string * bool))
    (policies : list (string * UpstreamServerPolicy)) (named : string * JsonValue)
    : list (string * UpstreamServerPolicy) :=
  let '(server_name, raw_server) := named in
  let normalized_server_name := normalize_server_name server_name in
  if str_is_empty normalized_server_name then policies
  else bt_insert normalized_server_name
         (server_policy_of execution_defaults overrides normalized_server_name raw_server) policies.

(** [is_file]: mcpace.config.json exists.  [config] is what reading it gives, [profile] what
    loading the runtime profile gives (its own reads included). *)
Definition load_upstream_server_policies (is_file : bool) (config : result JsonValue string)
    (profile : result RuntimeProfileSelection string)
    : result (ExecutionPolicy * list (string * UpstreamServerPolicy)) UpstreamServerConfigError :=
  if negb is_file then Ok (conservative, [])
  else
    value ←? map_err ConfigPolicy config ;;
    runtime_profile ←? map_err ConfigPolicy profile ;;
    let execution_defaults := from_config_root value in
    match object_at_path value ["servers"] with
    | None => Ok (execution_defaults, [])
    | Some servers =>
        Ok (execution_defaults,
            fold_left (insert_server_policy execution_defaults (server_overrides runtime_profile)) servers [])
    end.

(** ** Joining the registry with the policies *)

Definition disabled_reason_of (entry : McpServerEntry) (policy : option UpstreamServerPolicy)
    : option string :=
  let refuses (p : UpstreamServerPolicy -> bool) :=
    unwrap_or (option_map (fun policy => negb (p policy)) policy) false in
  if negb (source_enabled_from_mcp_settings (entry_value entry)) then
    Some ("server is disabled in MCP settings source " +:+ entry_source entry)
  else if refuses platform_supported then
    Some ("server is not declared for the current platform '" +:+ platform +:+ "'")
  else if refuses profile_enabled then Some "server is disabled by the active MCPace runtime profile"
  else if refuses runtime_enabled then Some "server is disabled by MCPace runtime policy"
  else None.

Context (environment : string -> option string) (root_path : string).

Definition configured_env (raw : JsonValue) : list (string * string) :=
  fold_left (fun acc '(key, value) =>
    match as_str value with
    | Some text => bt_insert key (expand_template environment root_path text) acc
    | None => acc
    end) (unwrap_or (object_at_path raw ["env"]) []) [].

(** Inherited variables never replace configured ones. *)
Definition inherit_env (env_values : list (string * string)) (key : string) : list (string * string) :=
  if bt_contains key env_values then env_values
  else match environment key with
       | Some value => bt_insert key value env_values
       | None => env_values
       end.

Definition server_env (raw : JsonValue) : list (string * string) :=
  fold_left inherit_env (env_var_names_from_array (array_at_path raw ["env_vars"])) (configured_env raw).

Definition server_headers (raw : JsonValue) : list (string * string) :=
  match object_at_path raw ["headers"] with
  | Some object =>
      bt_of_list (omap (fun '(key, value) =>
        option_map (fun text => (key, expand_template environment root_path text)) (as_str value)) object)
  | None => []
  end.

Definition server_timeout_ms (raw : JsonValue) : N :=
  match opt_filter (fun value => (0 <? value)%Z)
          (opt_or (value_at_path raw ["options"; "timeout"] ≫= as_i64)
                  (value_at_path raw ["initTimeout"] ≫= as_i64)) with
  | Some value => Z.to_N value
  | None => DEFAULT_TIMEOUT_MS
  end.

Definition server_of_entry (execution_defaults : ExecutionPolicy)
    (server_policies : list (string * UpstreamServerPolicy)) (entry : McpServerEntry) : UpstreamServerConfig :=
  let raw := entry_value entry in
  let policy := bt_get (entry_normalized_name entry) server_policies in
  let disabled_reason := disabled_reason_of entry policy in
  let command := option_map (expand_template environment root_path) (string_at_path raw ["command"]) in
  let url := string_at_path raw ["url"] in
  {| name := entry_name entry;
     enabled := negb (is_some disabled_reason);
     disabled_reason := disabled_reason;
     source_type :=
       infer_runtime_source_type (unwrap_or (string_at_path raw ["type"]) EmptyString)
         (unwrap_or command EmptyString) (unwrap_or url EmptyString);
     command := command;
     args := map (expand_template environment root_path) (strings_from_array (array_at_path raw ["args"]));
     env := server_env raw;
     headers := server_headers raw;
     cwd := opt_filter (fun value => negb (str_is_empty (trim value)))
              (option_map (expand_template environment root_path) (string_at_path raw ["cwd"]));
     url := url;
     timeout_ms := server_timeout_ms raw;
     execution := unwrap_or (option_map policy_execution policy) execution_defaults;
     tool_policies := unwrap_or (option_map policy_tool_policies policy) [] |}.

Definition load_servers (registry : result McpServerRegistry string) (is_file : bool)
    (config : result JsonValue string) (profile : result RuntimeProfileSelection string)
    : result (list (string * UpstreamServerConfig)) UpstreamServerConfigError :=
  registry ←? map_err ConfigRegistry registry ;;
  policies ←? load_upstream_server_policies is_file config profile ;;
  Ok (fold_left (fun parsed entry =>
        bt_insert (entry_name entry) (server_of_entry (fst policies) (snd policies) entry) parsed)
      (bt_values (registry_servers registry)) []).

End policies.

Definition find_server (servers : list (string * UpstreamServerConfig)) (server_name : string)
    : option UpstreamServerConfig :=
  opt_or (bt_get server_name servers)
         (List.find (fun server => eq_ignore_ascii_case (name server) server_name) (bt_values servers)).

Definition select_servers (servers : list (string * UpstreamServerConfig)) (selected : option string)
    : list UpstreamServerConfig :=
  List.filter (fun server =>
    match selected with
    | Some n => eq_ignore_ascii_case (name server) n
    | None => true
    end) (bt_values servers).

(** ** Timeouts, fingerprints and callability (src/upstream.rs) *)

Definition timeout_for (server : UpstreamServerConfig) (requested_ms : option N) : N :=
  clamp 1000 300000 (unwrap_or requested_ms (timeout_ms server)).

Definition probe_timeout_for (server : UpstreamServerConfig) (requested_ms : option N) : N :=
  clamp 1000 300000 (unwrap_or requested_ms (N.min (timeout_ms server) DEFAULT_PROBE_TIMEOUT_MS)).

Definition upstream_blocked_status (server : UpstreamServerConfig) : string :=
  if negb (enabled server) then "disabled"
  else if String.eqb (source_type server) "stdio" then "blocked-command-not-found"
  else if String.eqb (source_type server) "http" then "blocked-http-upstream"
  else if String.eqb (source_type server) "legacy-sse" then "blocked-legacy-sse-upstream"
  else "blocked-unsupported-transport".

(** ** Placeholders are expanded once, from left to right *)

Section expansion_lemmas.
Context (environment : string -> option string) (root_path : string).

Lemma expand_loop_output fuel output rest :
  expand_loop environment root_path fuel output rest
  = output +:+ expand_loop environment root_path fuel EmptyString rest.
Proof.
  revert output rest. induction fuel as [|fuel IH]; intros output rest; cbn [expand_loop]; [done|].
  destruct (split_once_str "${" rest) as [[before after]|]; [|done].
  destruct (split_once "}" after) as [[e after']|].
  - rewrite IH. symmetry. rewrite IH. change (EmptyString +:+ before) with before.
    by rewrite !append_assoc_str.
  - change (EmptyString +:+ before) with before. by rewrite !append_assoc_str.
Qed.

(** More fuel than the input is long changes nothing. *)
Lemma expand_loop_fuel fuel1 fuel2 output rest :
  String.length rest <= fuel1 -> String.length rest <= fuel2 ->
  expand_loop environment root_path fuel1 output rest = expand_loop environment root_path fuel2 output rest.
Proof.
  revert fuel2 output rest. induction fuel1 as [|fuel1 IH]; intros fuel2 output rest H1 H2.
  - destruct rest; [|simpl in H1; lia]. by destruct fuel2.
  - destruct fuel2 as [|fuel2]; [destruct rest; [done|simpl in H2; lia]|]. cbn [expand_loop].
    destruct (split_once_str "${" rest) as [[before after]|] eqn:E; [|done].
    apply split_once_str_length in E. simpl in E.
    destruct (split_once "}" after) as [[e after']|] eqn:E'; [|done].
    apply split_once_Some in E' as [-> _]. apply IH.
    all: pose proof (str_len_app e (String "}" after')) as Hl; unfold str_len in Hl; simpl in Hl; lia.
Qed.

Lemma expand_template_plain input : str_contains "${" input = false -> expand_template environment root_path input = input.
Proof.
  intros H. assert (Hn : split_once_str "${" input = None).
  { revert H. induction input as [|a s IH]; [done|]. intros [H1 H2]%orb_false_iff.
    rewrite split_once_str_unfold. destruct (strip_prefix "${" (String a s)) as [r|] eqn:E.
    - apply strip_prefix_Some in E. rewrite E, starts_with_app in H1. done.
    - by rewrite IH. }
  unfold expand_template. destruct (String.length input); [done|]. cbn [expand_loop]. by rewrite Hn.
Qed.

Lemma split_once_str_first sep s before after :
  split_once_str sep s = Some (before, after) ->
  forall tail, split_once_str sep (s +:+ tail) = Some (before, after +:+ tail).
Proof.
  revert before. induction s as [|a s IH]; intros before; rewrite split_once_str_unfold;
    destruct (strip_prefix sep _) as [r|] eqn:E.
  - intros [= <- <-] tail. apply strip_prefix_Some in E.
    destruct sep; [|by rewrite append_cons in E]. change (EmptyString = r) in E. subst r.
    change (EmptyString +:+ tail) with tail. by rewrite split_once_str_unfold.
  - done.
  - intros [= <- <-] tail. apply strip_prefix_Some in E. rewrite E, append_assoc_str.
    by rewrite split_once_str_unfold, strip_prefix_app.
  - destruct (split_once_str sep s) as [[b r]|] eqn:Es; [|done]. intros [= <- <-] tail.
    rewrite append_cons, split_once_str_unfold, (IH b eq_refl).
    destruct (strip_prefix sep (String a (s +:+ tail))) as [r'|] eqn:E'; [|done]. exfalso.
    apply strip_prefix_Some in E'. apply split_once_str_Some in Es. rewrite Es in E', E.
    assert (Hb : bytes sep ++ bytes r' = (String.list_ascii_of_string (String a b) ++ bytes sep) ++ bytes (r +:+ tail)).
    { rewrite <- bytes_app, <- E'. change (String a ((b +:+ sep +:+ r) +:+ tail))
        with ((String a b +:+ sep +:+ r) +:+ tail).
      change (String.list_ascii_of_string (String a b)) with (bytes (String a b)).
      by rewrite !bytes_app, <- !app_assoc. }
    apply (f_equal (take (length (bytes sep)))) in Hb. rewrite take_app_length, take_app_le in Hb
      by (rewrite length_app; lia).
    assert (Hs : String a (b +:+ sep +:+ r)
                 = sep +:+ of_bytes (drop (length (bytes sep)) (bytes (String a b) ++ bytes sep) ++ bytes r)).
    { apply bytes_inj. rewrite bytes_app, bytes_of_bytes.
      change (String a (b +:+ sep +:+ r)) with (String a b +:+ sep +:+ r).
      rewrite !bytes_app. rewrite Hb at 2. by rewrite app_assoc, app_assoc, take_drop. }
    rewrite Hs, strip_prefix_app in E. done.
Qed.

(** One placeholder: what precedes it is copied, its value is inserted as it is (and never
    expanded again), and the expansion goes on behind it. *)
Lemma expand_template_step before expression after :
  split_once_str "${" (before +:+ "${") = Some (before, EmptyString) ->
  contains_char "}" expression = false ->
  expand_template environment root_path (before +:+ "${" +:+ expression +:+ "}" +:+ after)
  = before +:+ resolve_placeholder environment root_path expression
    +:+ expand_template environment root_path after.
Proof.
  intros Hb He. set (input := before +:+ _).
  assert (Hs : split_once_str "${" input = Some (before, expression +:+ "}" +:+ after)).
  { subst input. rewrite <- append_assoc_str. by rewrite (split_once_str_first _ _ _ _ Hb). }
  assert (Hl : S (String.length after) <= String.length input).
  { subst input. pose proof (str_len_app before ("${" +:+ expression +:+ "}" +:+ after)) as H1.
    pose proof (str_len_app "${" (expression +:+ "}" +:+ after)) as H2.
    pose proof (str_len_app expression ("}" +:+ after)) as H3. pose proof (str_len_app "}" after) as H4.
    unfold str_len in *. simpl in *. lia. }
  unfold expand_template at 1. destruct (String.length input) as [|n] eqn:En; [lia|].
  cbn [expand_loop]. rewrite Hs. change ("}" +:+ after) with (String "}" after).
  rewrite (split_once_app _ _ _ He). rewrite expand_loop_output. change (EmptyString +:+ before) with before.
  rewrite append_assoc_str. do 2 f_equal. apply expand_loop_fuel; lia.
Qed.

End expansion_lemmas.

(** ** What loading guarantees *)

Lemma bt_get_fold_insert {A V} (key : A -> string) (val : A -> V) l m k :
  bt_get k (fold_left (fun m x => bt_insert (key x) (val x) m) l m)
  = opt_or (option_map val (last (List.filter (fun x => String.eqb (key x) k) l))) (bt_get k m).
Proof.
  induction l as [|x l IH] using rev_ind; [done|].
  rewrite fold_left_app, List.filter_app. simpl.
  destruct (String.eqb_spec (key x) k) as [<-|Hne]; simpl.
  - by rewrite bt_get_insert_eq, last_snoc.
  - by rewrite bt_get_insert_ne, app_nil_r by done.
Qed.

(** A policy the code can have read from the configuration. *)
Record tool_policy_wf (p : ToolRiskPolicy) : Prop := {
  wf_tools : tools p <> [] /\ Forall (fun t => t <> EmptyString /\ trim t = t) (tools p);
  wf_risk : forall r, risk_class p = Some r -> r <> EmptyString /\ normalize_policy_token r = r;
  wf_argument : forall a, allow_argument p = Some a -> a <> EmptyString /\ trim a = a;
  wf_grantable : risk_class p <> None \/ allow_argument p <> None
}.

Lemma normalize_policy_token_idem v :
  normalize_policy_token (normalize_policy_token v) = normalize_policy_token v.
Proof.
  unfold normalize_policy_token, normalize_flag.
  by rewrite trim_lower, trim_idem, to_ascii_lowercase_idem.
Qed.

Lemma opt_filter_text (f : string -> string) o v :
  opt_filter non_empty_text (option_map f o) = Some v -> v <> EmptyString /\ exists w, v = f w.
Proof.
  intros [H Hn]%opt_filter_Some. unfold non_empty_text in Hn. bool_prop.
  apply str_is_empty_false in Hn. split; [done|]. destruct o as [w|]; [|done]. injection H as <-. by exists w.
Qed.

Lemma parse_tool_policy_wf raw p : parse_tool_policy raw = Some p -> tool_policy_wf p.
Proof.
  unfold parse_tool_policy. set (ts := List.filter non_empty_text _).
  assert (Hts : Forall (fun t => t <> EmptyString /\ trim t = t) ts).
  { apply Forall_forall. intros t [Hin Hn]%list_elem_of_In%List.filter_In.
    unfold non_empty_text in Hn. bool_prop. apply str_is_empty_false in Hn. split; [done|].
    apply List.in_map_iff in Hin as (w & <- & _). apply trim_idem. }
  clearbody ts. destruct ts as [|t ts]; [done|].
  destruct (opt_filter non_empty_text (option_map normalize_policy_token _)) as [r|] eqn:Er;
    destruct (opt_filter non_empty_text (option_map trim (string_at_path raw ["allowArgument"]))) as [a|] eqn:Ea;
    intros [= <-]; try done.
  all: repeat match goal with
    | E : opt_filter _ _ = Some _ |- _ => apply opt_filter_text in E as [? [? ->]]
    end.
  all: constructor; simpl; auto; intros ? [= <-]; split; auto using trim_idem, normalize_policy_token_idem.
Qed.

Lemma conservative_wf : policy_wf conservative.
Proof. replace conservative with (normalize conservative); [apply normalize_wf|by vm_compute]. Qed.

Definition server_policy_wf (p : UpstreamServerPolicy) : Prop :=
  policy_wf (policy_execution p) /\ Forall tool_policy_wf (policy_tool_policies p) /\
  (runtime_enabled p = true -> is_disabled (policy_execution p) = false).

Lemma server_policy_of_wf platform defaults overrides n raw :
  server_policy_wf (server_policy_of platform defaults overrides n raw).
Proof.
  split; [apply normalize_wf|]. cbn [policy_tool_policies policy_execution runtime_enabled server_policy_of].
  split; [|intros H; by bool_prop].
  apply Forall_forall. intros p Hp. apply list_elem_of_omap in Hp as (rawp & _ & Hp).
  by eapply parse_tool_policy_wf.
Qed.

Lemma load_upstream_server_policies_wf platform is_file config profile defaults policies :
  load_upstream_server_policies platform is_file config profile = Ok (defaults, policies) ->
  policy_wf defaults /\ Forall (fun '(_, p) => server_policy_wf p) policies.
Proof.
  unfold load_upstream_server_policies. destruct is_file; simpl.
  2: { intros [= <- <-]. split; [apply conservative_wf|constructor]. }
  destruct config as [value|]; [|done]. destruct profile as [sel|]; [|done]. simpl.
  destruct (object_at_path value ["servers"]) as [servers|]; intros [= <- <-];
    (split; [apply normalize_wf|]); [|constructor].
  apply (fold_left_invariant _ (Forall (fun '(_, p) => server_policy_wf p))); [|constructor].
  intros acc [n raw] Hacc. unfold insert_server_policy. destruct (str_is_empty _); [done|].
  rewrite Forall_forall in Hacc |- *. intros [k p] [Heq|Hin]%bt_insert_elem.
  - injection Heq as -> ->. apply server_policy_of_wf.
  - by apply (Hacc (k, p)).
Qed.

Lemma infer_runtime_source_type_nonempty t c u : infer_runtime_source_type t c u <> EmptyString.
Proof.
  unfold infer_runtime_source_type, infer_source_type_with_remote_default.
  destruct (str_is_empty (normalize_runtime_source_type t)) eqn:E; cbn [negb].
  - by destruct (str_is_empty (trim c)), (str_is_empty (trim u)).
  - by apply str_is_empty_false in E.
Qed.

Lemma server_timeout_ms_pos raw : (0 < server_timeout_ms raw)%N.
Proof.
  unfold server_timeout_ms. destruct (opt_filter _ _) as [z|] eqn:E; [|done].
  apply opt_filter_Some in E as [_ E]. apply Z.ltb_lt in E. lia.
Qed.

(** A server as loading produces it. *)
Record server_wf (s : UpstreamServerConfig) : Prop := {
  wf_source_type : source_type s <> EmptyString;
  wf_timeout : (0 < timeout_ms s)%N;
  wf_execution : policy_wf (execution s);
  wf_tool_policies : Forall tool_policy_wf (tool_policies s);
  wf_enabled : enabled s = true <-> disabled_reason s = None;
  wf_cwd : forall c, cwd s = Some c -> trim c <> EmptyString
}.

Lemma server_of_entry_wf platform environment root defaults policies entry :
  policy_wf defaults -> Forall (fun '(_, p) => server_policy_wf p) policies ->
  server_wf (server_of_entry platform environment root defaults policies entry).
Proof.
  intros Hd Hp. constructor; cbn [source_type timeout_ms execution tool_policies enabled disabled_reason cwd server_of_entry].
  - apply infer_runtime_source_type_nonempty.
  - apply server_timeout_ms_pos.
  - destruct (bt_get _ policies) as [p|] eqn:E; [|done]. apply bt_get_elem in E.
    rewrite Forall_forall in Hp. apply (Hp _ E).
  - destruct (bt_get _ policies) as [p|] eqn:E; [|constructor]. apply bt_get_elem in E.
    rewrite Forall_forall in Hp. apply (Hp _ E).
  - by destruct (disabled_reason_of _ _ _).
  - intros c [_ Hc]%opt_filter_Some. bool_prop. by apply str_is_empty_false in Hc.
Qed.

(** Entries of one registry with the same name are one entry. *)
Lemma registry_names_unique servers e e' :
  registry_wf servers -> e ∈ bt_values servers -> e' ∈ bt_values servers ->
  entry_name e = entry_name e' -> e = e'.
Proof.
  intros [Hwf Hall] [k Hk]%bt_values_elem [k' Hk']%bt_values_elem Hn.
  rewrite Forall_forall in Hall. pose proof (Hall _ Hk) as (_ & E & _). pose proof (Hall _ Hk') as (_ & E' & _).
  assert (k = k') as <- by congruence.
  apply (bt_elem_get _ _ _ Hwf) in Hk. apply (bt_elem_get _ _ _ Hwf) in Hk'. congruence.
Qed.

Lemma last_filter_elem {A} (p : A -> bool) l x :
  last (List.filter p l) = Some x -> x ∈ l /\ p x = true.
Proof.
  intros [k H]%last_Some. rewrite list_elem_of_In, <- List.filter_In, H, <- list_elem_of_In. set_solver.
Qed.

Lemma loaded_get platform environment root (servers : list (string * McpServerEntry)) defaults policies k :
  bt_get k (fold_left (fun parsed entry =>
      bt_insert (entry_name entry) (server_of_entry platform environment root defaults policies entry) parsed)
    (bt_values servers) [])
  = option_map (server_of_entry platform environment root defaults policies)
      (last (List.filter (fun e => String.eqb (entry_name e) k) (bt_values servers))).
Proof. rewrite (bt_get_fold_insert entry_name). simpl. by destruct (option_map _ _). Qed.

(** Every server that loading yields is well formed: it is filed
    under its own name, has a transport and a positive timeout, a well-formed execution
    policy, tool guards each of which can be granted, and a reason exactly when it is
    disabled. *)
Theorem loaded_servers_well_formed platform environment root registry is_file config profile servers :
  load_servers platform environment root registry is_file config profile = Ok servers ->
  forall k s, bt_get k servers = Some s -> name s = k /\ server_wf s.
Proof.
  unfold load_servers. destruct registry as [registry|]; [|done]. cbn [map_err].
  destruct (load_upstream_server_policies _ _ _ _) as [[defaults policies]|] eqn:E; [|done].
  apply load_upstream_server_policies_wf in E as [Hd Hp]. intros [= <-] k s. cbn [fst snd].
  rewrite loaded_get. intros H. destruct (last _) as [e|] eqn:El; [|done]. injection H as <-.
  apply last_filter_elem in El as [_ El]. apply String.eqb_eq in El.
  split; [exact El|]. by apply server_of_entry_wf.
Qed.

(** No server of the registry is lost or confused with another, and
    each one is enabled exactly when its settings do not switch it off and its policy, if it
    has one, supports the platform, is on in the active profile and can run. *)
Theorem loading_decides_enabled platform environment root registry is_file config profile servers
    defaults policies :
  registry_wf (registry_servers registry) ->
  load_upstream_server_policies platform is_file config profile = Ok (defaults, policies) ->
  load_servers platform environment root (Ok registry) is_file config profile = Ok servers ->
  forall e, e ∈ bt_values (registry_servers registry) ->
  exists s, bt_get (entry_name e) servers = Some s /\
    (enabled s = true <->
       source_enabled_from_mcp_settings (entry_value e) = true /\
       forall p, bt_get (entry_normalized_name e) policies = Some p ->
         platform_supported p = true /\ profile_enabled p = true /\ runtime_enabled p = true) /\
    (enabled s = true -> bt_get (entry_normalized_name e) policies <> None -> is_disabled (execution s) = false).
Proof.
  intros Hreg Hpol. unfold load_servers. cbn [map_err]. rewrite Hpol. intros [= <-] e He. cbn [fst snd].
  rewrite loaded_get.
  assert (Hlast : last (List.filter (fun e' => String.eqb (entry_name e') (entry_name e))
                         (bt_values (registry_servers registry))) = Some e).
  { destruct (last _) as [e'|] eqn:El.
    - apply last_filter_elem in El as [He' Heq]. apply String.eqb_eq in Heq. f_equal.
      by eapply registry_names_unique.
    - apply last_None in El. exfalso. assert (Hin : In e []); [|done]. rewrite <- El. apply List.filter_In.
      rewrite <- list_elem_of_In. split; [done|apply String.eqb_refl]. }
  rewrite Hlast. eexists. split; [reflexivity|]. cbn [enabled execution server_of_entry].
  unfold disabled_reason_of. destruct (source_enabled_from_mcp_settings (entry_value e)); cbn [negb is_some].
  2: { split; [|done]. split; [done|]. by intros [? _]. }
  destruct (bt_get (entry_normalized_name e) policies) as [p|] eqn:Ep; simpl; [|by split].
  apply load_upstream_server_policies_wf in Hpol as [_ Hw]. rewrite Forall_forall in Hw.
  pose proof (Hw _ (bt_get_elem _ _ _ Ep)) as (_ & _ & Hrun). split.
  - split.
    + intros H. split; [done|]. intros q [= <-].
      by destruct (platform_supported p), (profile_enabled p), (runtime_enabled p).
    + intros [_ H]. destruct (H p eq_refl) as (-> & -> & ->). done.
  - intros H _. apply Hrun. by destruct (platform_supported p), (profile_enabled p), (runtime_enabled p).
Qed.

(** ** A configuration *)

Definition sample_registry : McpServerRegistry :=
  load_mcp_server_registry []
    [("mcp_settings.json", SourceValue (json_object [("mcpServers", json_object
        [("GitHub", json_object [("command", json_string "gh-mcp")]);
         ("notes", json_object [("disabled", json_bool true); ("command", json_string "notes")])])]))].

Definition sample_policies : JsonValue :=
  json_object [("servers", json_object [("github", json_object
    [("defaultEnabled", json_bool true);
     ("toolPolicies", json_array [json_object
        [("tools", json_array [json_string "delete_*"]); ("riskClass", json_string "Mutation")]])])])].

Definition sample_selection : RuntimeProfileSelection := mkSelection "safe" "safe" "config-default" [].

Definition sample_load :=
  load_servers "linux" (fun _ => None) "/w" (Ok sample_registry) true (Ok sample_policies) (Ok sample_selection).

Lemma loaded_servers_well_formed_witness :
  exists servers s, sample_load = Ok servers /\ bt_get "GitHub" servers = Some s /\ name s = "GitHub" /\ server_wf s.
Proof.
  destruct sample_load as [servers|e] eqn:E; [|vm_compute in E; discriminate].
  destruct (bt_get "GitHub" servers) as [s|] eqn:G.
  - exists servers, s. split; [done|]. split; [done|].
    exact (loaded_servers_well_formed _ _ _ _ _ _ _ _ E _ _ G).
  - exfalso. vm_compute in E. injection E as <-. vm_compute in G. discriminate.
Defined.

Lemma loading_decides_enabled_witness :
  exists servers s, sample_load = Ok servers /\ bt_get "GitHub" servers = Some s /\ enabled s = true.
Proof.
  destruct sample_load as [servers|e] eqn:E; [|vm_compute in E; discriminate].
  destruct (load_upstream_server_policies "linux" true (Ok sample_policies) (Ok sample_selection))
    as [[defaults policies]|] eqn:P; [|vm_compute in P; discriminate].
  destruct (bt_get "github" (registry_servers sample_registry)) as [e|] eqn:G; [|vm_compute in G; discriminate].
  destruct (loading_decides_enabled "linux" (fun _ => None) "/w" sample_registry true _ _ servers defaults policies
              (load_mcp_server_registry_wf _ _) P E e) as (s & Hs & [_ Hen] & _).
  { apply bt_values_elem. exists "github". by apply bt_get_elem. }
  vm_compute in G. injection G as <-. exists servers, s. split; [done|]. split; [exact Hs|].
  apply Hen. split; [vm_compute; reflexivity|]. vm_compute in P. injection P as <- <-.
  intros p Hp. vm_compute in Hp. injection Hp as <-. by vm_compute.
Defined.
