(* ===== verification/TaskPool.v ===== *)
(** * The worker threads of the server tasks (src/upstream/server_config.rs)

    [run_server_tasks] hands the servers to worker threads that take them from a shared
    iterator, run the task (a panic becomes a result) and send it back with its index.
    The threads are a step relation over single critical sections; the main thread drains
    the channel once every sender is gone.  When no thread can be spawned the main thread
    runs the same loop itself, which is the system with one worker.  A panic is caught only
    in a build that unwinds; the release profile aborts the process instead, and then there
    is no result at all. *)

From S2P Require Import Prelude RustStr BTree Json Execution ServerConfig.

Definition upstream_worker_panic_result (server_name : string) : JsonValue :=
  json_object
    [("name", json_string server_name); ("ok", json_bool false);
     ("status", json_string "worker-panicked");
     ("error", json_string "internal upstream discovery worker panicked")].

Section tasks.

(** What the task does with a server: a result, or a panic. *)
Context (task : UpstreamServerConfig -> option JsonValue) (servers : list UpstreamServerConfig).

(** [catch_unwind] around the task. *)
Definition guarded_task (server : UpstreamServerConfig) : JsonValue :=
  unwrap_or (task server) (upstream_worker_panic_result (name server)).

Inductive WorkerStage : Type :=
| WorkerReady
| WorkerRunning (index : nat)
| WorkerDone.

#[export] Instance WorkerStage_eq_dec : EqDecision WorkerStage.
Proof. solve_decision. Defined.

Record Tasks := mkTasks {
  pending : nat;                        (* position of the shared iterator *)
  workers : list WorkerStage;
  sent : list (nat * JsonValue)         (* the channel, oldest first *)
}.

Definition tasks_start (spawned : nat) : Tasks := mkTasks 0 (replicate (Nat.max 1 spawned) WorkerReady) [].

(** One turn of worker [w]: [guard.next()] under the mutex, or the task and the send. *)
Definition worker_turn (w : nat) (t : Tasks) : option Tasks :=
  match workers t !! w with
  | Some WorkerReady =>
      if decide (pending t < length servers) then
        Some (mkTasks (S (pending t)) (<[w := WorkerRunning (pending t)]> (workers t)) (sent t))
      else Some (mkTasks (pending t) (<[w := WorkerDone]> (workers t)) (sent t))
  | Some (WorkerRunning index) =>
      match servers !! index with
      | Some server =>
          Some (mkTasks (pending t) (<[w := WorkerReady]> (workers t)) (sent t ++ [(index, guarded_task server)]))
      | None => None
      end
  | _ => None
  end.

(** The slots the main thread fills; an index outside is ignored. *)
Definition collect_results (received : list (nat * JsonValue)) : list (option JsonValue) :=
  fold_left (fun results '(index, result) => <[index := Some result]> results) received
    (replicate (length servers) None).

Definition finish_results (results : list (option JsonValue)) : list JsonValue :=
  imap (fun index result =>
    unwrap_or result
      (upstream_worker_panic_result (unwrap_or (option_map name (servers !! index)) "unknown"))) results.

(** With at most one server the task runs on the calling thread, uncaught. *)
Definition run_inline : option (list JsonValue) := mapM task servers.

(** *** Executions *)

Inductive runs (spawned : nat) : nat -> Tasks -> Prop :=
| runs_start : runs spawned 0 (tasks_start spawned)
| runs_turn k t w t' : runs spawned k t -> worker_turn w t = Some t' -> runs spawned (S k) t'.

Definition all_done (t : Tasks) : Prop := Forall (fun w => w = WorkerDone) (workers t).

(** Work left: two turns per server not yet taken, one per running task, one per worker
    that has not stopped. *)
Definition stage_left (w : WorkerStage) : N :=
  match w with WorkerReady => 1 | WorkerRunning _ => 2 | WorkerDone => 0 end.

Definition work_left (t : Tasks) : N :=
  2 * N.of_nat (length servers - pending t) + sum_by stage_left (workers t).

Record tasks_inv (spawned : nat) (t : Tasks) : Prop := {
  inv_workers : length (workers t) = Nat.max 1 spawned;
  inv_pending : pending t <= length servers;
  inv_sent : forall i r, (i, r) ∈ sent t -> exists s, servers !! i = Some s /\ r = guarded_task s;
  inv_taken : forall i, i < pending t ->
    WorkerRunning i ∈ workers t \/ exists r, (i, r) ∈ sent t;
  inv_running : forall w i, workers t !! w = Some (WorkerRunning i) -> i < pending t;
  inv_done : WorkerDone ∈ workers t -> pending t = length servers
}.

Lemma sum_by_insert {A} (f : A -> N) l i x y :
  l !! i = Some x -> (sum_by f (<[i := y]> l) + f x = sum_by f l + f y)%N.
Proof.
  revert i. induction l as [|z l IH]; intros [|i] H; simplify_eq/=; [lia|].
  specialize (IH i H). lia.
Qed.

Lemma elem_of_insert_other (l : list WorkerStage) w x y z :
  l !! w = Some x -> z ∈ l -> z <> x -> z ∈ <[w := y]> l.
Proof.
  intros Hx [j Hj]%list_elem_of_lookup Hne. apply list_elem_of_lookup. exists j.
  rewrite list_lookup_insert_ne; [done|]. intros ->. congruence.
Qed.

Lemma elem_of_insert_inv (l : list WorkerStage) w y z : z ∈ <[w := y]> l -> z = y \/ z ∈ l.
Proof.
  intros [j Hj]%list_elem_of_lookup. destruct (decide (j = w)) as [->|Hne].
  - destruct (decide (w < length l)) as [Hlt|Hge].
    + rewrite list_lookup_insert_eq in Hj by done. left. congruence.
    + rewrite list_insert_ge in Hj by lia. right. by eapply list_elem_of_lookup_2.
  - rewrite list_lookup_insert_ne in Hj by done. right. by eapply list_elem_of_lookup_2.
Qed.

Lemma tasks_start_inv spawned : tasks_inv spawned (tasks_start spawned).
Proof.
  constructor; simpl.
  - apply length_replicate.
  - lia.
  - set_solver.
  - lia.
  - intros w i H. apply lookup_replicate_1 in H as [H _]. done.
  - intros [H _]%elem_of_replicate. done.
Qed.

Lemma worker_turn_inv spawned w t t' : tasks_inv spawned t -> worker_turn w t = Some t' -> tasks_inv spawned t'.
Proof.
  intros [Hw Hp Hs Ht Hr Hd]. unfold worker_turn.
  destruct (workers t !! w) as [[|index|]|] eqn:Ew; [| |done..].
  - destruct (decide _) as [Hlt|Hge]; intros [= <-]; constructor; simpl; rewrite ?length_insert; auto; try lia.
    + intros i Hi. destruct (decide (i = pending t)) as [->|].
      { left. apply list_elem_of_lookup. exists w. apply list_lookup_insert_eq. by eapply lookup_lt_Some. }
      destruct (Ht i ltac:(lia)) as [H|H]; [left|by right]. by eapply elem_of_insert_other.
    + intros j i Hj. destruct (decide (j = w)) as [->|Hne].
      { rewrite list_lookup_insert_eq in Hj by (by eapply lookup_lt_Some). injection Hj as <-. lia. }
      rewrite list_lookup_insert_ne in Hj by done. apply Hr in Hj. lia.
    + intros [H|H]%elem_of_insert_inv; [done|]. apply Hd in H. lia.
    + intros i Hi. destruct (Ht i Hi) as [H|H]; [left|by right]. by eapply elem_of_insert_other.
    + intros j i Hj. destruct (decide (j = w)) as [->|Hne].
      { rewrite list_lookup_insert_eq in Hj by (by eapply lookup_lt_Some). done. }
      rewrite list_lookup_insert_ne in Hj by done. by eapply Hr.
  - destruct (servers !! index) as [s|] eqn:Es; [|done]. intros [= <-]; constructor; simpl; rewrite ?length_insert; auto.
    + intros i r [H|H]%elem_of_app; [by apply Hs|]. apply list_elem_of_singleton in H as [= -> ->]. by exists s.
    + intros i Hi. destruct (decide (i = index)) as [->|Hne].
      { right. exists (guarded_task s). set_solver. }
      destruct (Ht i Hi) as [H|[r H]]; [left|right].
      * eapply elem_of_insert_other; [done..|congruence].
      * exists r. set_solver.
    + intros j i Hj. destruct (decide (j = w)) as [->|Hne].
      { rewrite list_lookup_insert_eq in Hj by (by eapply lookup_lt_Some). done. }
      rewrite list_lookup_insert_ne in Hj by done. by eapply Hr.
    + intros [H|H]%elem_of_insert_inv; [done|by apply Hd].
Qed.

Lemma worker_turn_work w t t' : worker_turn w t = Some t' -> (work_left t' + 1 = work_left t)%N.
Proof.
  unfold worker_turn, work_left. destruct (workers t !! w) as [[|index|]|] eqn:Ew; [| |done..].
  - destruct (decide _) as [Hlt|Hge]; intros [= <-]; simpl;
      [pose proof (sum_by_insert stage_left _ _ _ (WorkerRunning (pending t)) Ew)
      |pose proof (sum_by_insert stage_left _ _ _ WorkerDone Ew)]; simpl in *; lia.
  - destruct (servers !! index); [|done]. intros [= <-]. simpl.
    pose proof (sum_by_insert stage_left _ _ _ WorkerReady Ew). simpl in *. lia.
Qed.

Lemma sum_by_replicate {A} (f : A -> N) n x : sum_by f (replicate n x) = (N.of_nat n * f x)%N.
Proof. induction n; simpl; lia. Qed.

Lemma runs_inv spawned k t : runs spawned k t ->
  tasks_inv spawned t /\ (N.of_nat k + work_left t = 2 * len_N servers + N.of_nat (Nat.max 1 spawned))%N.
Proof.
  induction 1 as [|k t w t' Hr [Hi Hk] Hw].
  - split; [apply tasks_start_inv|]. unfold work_left, tasks_start, len_N. cbn [pending workers].
    rewrite sum_by_replicate. simpl. lia.
  - split; [by eapply worker_turn_inv|]. apply worker_turn_work in Hw. lia.
Qed.

Definition correct (received : list (nat * JsonValue)) : Prop :=
  forall i r, (i, r) ∈ received -> exists s, servers !! i = Some s /\ r = guarded_task s.

Lemma collect_results_length received : length (collect_results received) = length servers.
Proof.
  apply (fold_left_invariant _ (fun l => length l = length servers)); [|apply length_replicate].
  intros l [j r] Hl. by rewrite length_insert.
Qed.

Lemma collect_results_lookup received i :
  correct received -> i < length servers ->
  collect_results received !! i
  = Some (if bool_decide (i ∈ received.*1) then guarded_task <$> servers !! i else None).
Proof.
  intros Hok Hi. induction received as [|[j r] received IH] using rev_ind.
  { by apply lookup_replicate_2. }
  assert (Hok' : correct received) by (intros ? ? ?; apply Hok; set_solver). specialize (IH Hok').
  assert (Hc : collect_results (received ++ [(j, r)]) = <[j := Some r]> (collect_results received)).
  { unfold collect_results. by rewrite fold_left_app. }
  rewrite Hc. rewrite fmap_app. change ([(j, r)].*1) with [j]. destruct (decide (j = i)) as [->|Hne].
  - rewrite bool_decide_eq_true_2 by set_solver.
    destruct (Hok i r) as (s & -> & ->); [set_solver|].
    apply list_lookup_insert_eq. by rewrite collect_results_length.
  - rewrite list_lookup_insert_ne, IH by done. f_equal.
    by rewrite (bool_decide_ext (i ∈ received.*1 ++ [j]) (i ∈ received.*1)) by set_solver.
Qed.

(** Filling the slots with correct results fills them correctly, in any order. *)
Lemma collect_results_correct received :
  correct received -> (forall i, i < length servers -> exists r, (i, r) ∈ received) ->
  finish_results (collect_results received) = map guarded_task servers.
Proof.
  intros Hok Hall. apply list_eq. intros i. unfold finish_results. rewrite list_lookup_imap.
  change (map guarded_task servers) with (guarded_task <$> servers). rewrite list_lookup_fmap.
  destruct (decide (i < length servers)) as [Hi|Hi].
  - destruct (Hall i Hi) as [r Hr]. rewrite collect_results_lookup by done.
    rewrite bool_decide_eq_true_2 by (apply list_elem_of_fmap; by exists (i, r)).
    destruct (Hok _ _ Hr) as (s & -> & _). done.
  - rewrite (lookup_ge_None_2 servers) by lia. by rewrite lookup_ge_None_2 by (rewrite collect_results_length; lia).
Qed.

Lemma all_done_complete spawned t : tasks_inv spawned t -> all_done t ->
  finish_results (collect_results (sent t)) = map guarded_task servers.
Proof.
  intros [Hw Hp Hs Ht Hr Hd] Hall. unfold all_done in Hall. rewrite Forall_forall in Hall.
  apply collect_results_correct; [done|]. intros i Hi.
  destruct (Ht i) as [H|H]; [|by apply Hall in H|done].
  rewrite Hd; [done|]. destruct (workers t) as [|x l] eqn:El; [simpl in Hw; lia|].
  rewrite (Hall x) by set_solver. set_solver.
Qed.

Lemma turn_possible spawned t : tasks_inv spawned t -> ~ all_done t -> exists w t', worker_turn w t = Some t'.
Proof.
  intros [Hw Hp Hs Ht Hr Hd] Hn.
  destruct (decide (Exists (fun w => w <> WorkerDone) (workers t))) as [H|H].
  - apply Exists_exists in H as (x & [w Hx]%list_elem_of_lookup & Hne). exists w. unfold worker_turn. rewrite Hx.
    destruct x as [|i|]; [destruct (decide _); eauto| |done].
    destruct (servers !! i) as [s|] eqn:Es; [eauto|]. apply lookup_ge_None in Es. apply Hr in Hx. lia.
  - exfalso. apply Hn. apply Forall_forall. intros x Hx. destruct (decide (x = WorkerDone)) as [|Hne]; [done|].
    exfalso. apply H, Exists_exists. by exists x.
Qed.

End tasks.

(** C20: however the worker threads interleave and however many could
    be spawned, the tasks are over after a bounded number of turns, no reachable state is
    stuck before, and the collected results are those of running the task (with its panics
    caught) on every server in order. *)
Theorem parallel_tasks_equal_sequential task servers spawned k t :
  runs task servers spawned k t ->
  (N.of_nat k <= 2 * len_N servers + N.of_nat (Nat.max 1 spawned))%N /\
  (~ all_done t -> exists w t', worker_turn task servers w t = Some t') /\
  (all_done t -> finish_results servers (collect_results servers (sent t)) = map (guarded_task task) servers).
Proof.
  intros [Hi Hk]%runs_inv. split; [lia|]. split.
  - by eapply turn_possible.
  - by eapply all_done_complete.
Qed.

(** Two workers, three servers, the second of which panics. *)
Definition sample_task (s : UpstreamServerConfig) : option JsonValue :=
  if String.eqb (name s) "b" then None else Some (json_string (name s)).

Definition sample_server_named (n : string) : UpstreamServerConfig :=
  mkServer n true None "stdio" None [] [] [] None None 1000 conservative [].

Definition sample_servers : list UpstreamServerConfig := map sample_server_named ["a"; "b"; "c"].

Fixpoint run_turns (ws : list nat) (t : Tasks) : option Tasks :=
  match ws with
  | [] => Some t
  | w :: ws => match worker_turn sample_task sample_servers w t with Some t' => run_turns ws t' | None => None end
  end.

Lemma run_turns_runs k t ws t' :
  runs sample_task sample_servers 2 k t -> run_turns ws t = Some t' ->
  runs sample_task sample_servers 2 (length ws + k) t'.
Proof.
  revert k t. induction ws as [|w ws IH]; intros k t Hr H; simpl in *; [by injection H as <-|].
  destruct (worker_turn _ _ w t) as [t1|] eqn:E; [|done].
  replace (S (length ws + k)) with (length ws + S k) by lia. eapply IH; [|done]. by econstructor.
Qed.

Lemma parallel_tasks_equal_sequential_witness :
  exists t, runs sample_task sample_servers 2 8 t /\
    finish_results sample_servers (collect_results sample_servers (sent t))
    = [json_string "a"; upstream_worker_panic_result "b"; json_string "c"].
Proof.
  destruct (run_turns [0; 1; 1; 1; 0; 1; 0; 1] (tasks_start 2)) as [t|] eqn:E; [|vm_compute in E; discriminate].
  assert (R : runs sample_task sample_servers 2 8 t) by exact (run_turns_runs 0 _ _ _ (runs_start _ _ _) E).
  exists t. split; [exact R|].
  rewrite (proj2 (proj2 (parallel_tasks_equal_sequential _ _ _ _ _ R))); [vm_compute; reflexivity|].
  vm_compute in E. injection E as <-. unfold all_done. simpl. repeat constructor.
Defined.
