(* ===== verification/ToolPolicy.v ===== *)
(** * Tool guards (src/upstream/lease_runtime.rs)

    A server's tool policies guard its tools by name patterns; a call of a guarded tool
    needs an explicit grant in the arguments of the MCPace tool that makes it.  The check
    that the tool is one the server advertises is here too.  [BTreeSet<String>] is
    [gset string]. *)

From Stdlib Require Import Ascii.
From S2P Require Import Prelude RustStr BTree Json TextUtils Execution ServerConfig.

Definition ALLOW_UNKNOWN_TOOL_ARGUMENT : string := "allowUnknownTool".
Definition ALLOW_UNKNOWN_UPSTREAM_TOOL_ARGUMENT : string := "allowUnknownUpstreamTool".

Record UpstreamToolCall := mkToolCall { call_tool : string; call_arguments : JsonValue }.

Record UpstreamLeaseContext := mkContext {
  client_id : option string;
  session_id : option string;
  project_root : option string;
  transport : option string;
  metadata : option JsonValue;
  ttl_ms : option N;
  allow_arguments : gset string;
  allowed_tool_risk_classes : gset string
}.

(** ** Patterns *)

(** The loop over the non-empty segments; [anchored]: the pattern does not start with a
    star.  The result is the rest of the value, or [None] for [return false]. *)
Fixpoint wildcard_loop (anchored first : bool) (segments : list string) (rest : string) : option string :=
  match segments with
  | [] => Some rest
  | segment :: segments =>
      match split_once_str segment rest with
      | None => None
      | Some (before, after) =>
          if first && anchored && negb (str_is_empty before) then None
          else wildcard_loop anchored false segments after
      end
  end.

Definition wildcard_match (pattern value : string) : bool :=
  if negb (contains_char "*" pattern) then false
  else
    match wildcard_loop (negb (starts_with "*" pattern)) true
            (List.filter non_empty_text (split_char "*" pattern)) value with
    | None => false
    | Some rest => ends_with_char "*" pattern || str_is_empty rest
    end.

Definition tool_pattern_matches (pattern tool_name : string) : bool :=
  let pattern := to_ascii_lowercase (trim pattern) in
  let tool_name := to_ascii_lowercase (trim tool_name) in
  if str_is_empty pattern then false
  else if String.eqb pattern "*" || String.eqb pattern tool_name then true
  else wildcard_match pattern tool_name.

(** ** Policies *)

Definition matches_tool (policy : ToolRiskPolicy) (tool_name : string) : bool :=
  existsb (fun pattern => tool_pattern_matches pattern tool_name) (tools policy).

Definition is_allowed (policy : ToolRiskPolicy) (context : option UpstreamLeaseContext) : bool :=
  match context with
  | None => false
  | Some context =>
      match allow_argument policy with
      | Some argument => bool_decide (argument ∈ allow_arguments context)
      | None => false
      end
      || match risk_class policy with
         | Some risk_class => bool_decide (risk_class ∈ allowed_tool_risk_classes context)
         | None => false
         end
  end.

Definition blocked_message (policy : ToolRiskPolicy) (server_name tool_name : string) : string :=
  let grants :=
    match allow_argument policy with Some argument => ["set " +:+ argument +:+ "=true"] | None => [] end
    ++ match risk_class policy with
       | Some risk_class => ["include '" +:+ risk_class +:+ "' in allowToolRiskClasses"]
       | None => []
       end in
  let grant_hint :=
    match grants with
    | [] => "declare an explicit allow rule in mcpace.config.json"
    | _ => join " or " grants
    end in
  let detail := match description policy with Some value => " (" +:+ value +:+ ")" | None => EmptyString end in
  "upstream server '" +:+ server_name +:+ "' tool '" +:+ tool_name
  +:+ "' requires explicit risk authorization: " +:+ grant_hint
  +:+ " on upstream_call/upstream_batch" +:+ detail.

(** The loop of [validate_upstream_tool_policy]. *)
Fixpoint check_policies (server_name tool_name : string) (context : option UpstreamLeaseContext)
    (policies : list ToolRiskPolicy) : result unit string :=
  match policies with
  | [] => Ok tt
  | policy :: policies =>
      if negb (matches_tool policy tool_name) || is_allowed policy context
      then check_policies server_name tool_name context policies
      else Err (blocked_message policy server_name tool_name)
  end.

Definition validate_upstream_tool_policy (server : UpstreamServerConfig) (tool_name : string)
    (context : option UpstreamLeaseContext) : result unit string :=
  check_policies (name server) tool_name context (tool_policies server).

Fixpoint check_batch (server : UpstreamServerConfig) (context : option UpstreamLeaseContext)
    (index : N) (calls : list UpstreamToolCall) : result unit string :=
  match calls with
  | [] => Ok tt
  | call :: calls =>
      let tool_name := trim (call_tool call) in
      if str_is_empty tool_name then
        Err ("upstream_batch calls[" +:+ N_to_string index +:+ "] requires non-empty 'tool'")
      else
        _ ←? validate_upstream_tool_policy server tool_name context ;;
        check_batch server context (index + 1) calls
  end.

Definition validate_upstream_batch_tool_policy (server : UpstreamServerConfig)
    (calls : list UpstreamToolCall) (context : option UpstreamLeaseContext) : result unit string :=
  check_batch server context 0 calls.

(** ** Grants in the arguments of a call *)

(** The loop over an array of strings; empty texts are skipped. *)
Fixpoint collect_items (normalize : string -> string) (error : string) (items : list JsonValue)
    (values : gset string) : result (gset string) string :=
  match items with
  | [] => Ok values
  | item :: items =>
      match as_str item with
      | None => Err error
      | Some item =>
          let item := normalize item in
          collect_items normalize error items (if str_is_empty item then values else {[item]} ∪ values)
      end
  end.

Definition collect_allow_argument_list (value : JsonValue) (values : gset string)
    : result (gset string) string :=
  match value with
  | JArray items => collect_items trim "allowArguments must be an array of strings" items values
  | JNull => Ok values
  | _ => Err "allowArguments must be an array of strings"
  end.

Fixpoint collect_allow_entries (object : list (string * JsonValue)) (values : gset string)
    : result (gset string) string :=
  match object with
  | [] => Ok values
  | (key, value) :: object =>
      if negb (starts_with "allow" key) || String.eqb key "allowToolRiskClasses" then
        collect_allow_entries object values
      else if String.eqb key "allowArguments" then
        values ←? collect_allow_argument_list value values ;;
        collect_allow_entries object values
      else
        match value with
        | JBool true => collect_allow_entries object ({[key]} ∪ values)
        | JBool false | JNull => collect_allow_entries object values
        | _ => Err (key +:+ " must be a boolean")
        end
  end.

Definition collect_allow_arguments (arguments : JsonValue) : result (gset string) string :=
  match as_object arguments with
  | None => Ok ∅
  | Some object => collect_allow_entries object ∅
  end.

Definition collect_allowed_tool_risk_classes (arguments : JsonValue) : result (gset string) string :=
  match value_at_path arguments ["allowToolRiskClasses"] with
  | Some (JArray values) =>
      collect_items (fun value => to_ascii_lowercase (trim value)) "allowToolRiskClasses must be an array of strings" values ∅
  | Some JNull | None => Ok ∅
  | Some _ => Err "allowToolRiskClasses must be an array of strings"
  end.

(** ** Advertised tools *)

Definition advertised_names (tools : JsonValue) : list string :=
  List.filter non_empty_text
    (map trim (omap (fun tool => string_at_path tool ["name"]) (unwrap_or (as_array tools) []))).

Definition tool_names_from_tools_list (server : UpstreamServerConfig) (tools : JsonValue)
    (source_hint : string) : result (gset string) string :=
  let advertised : gset string := list_to_set (advertised_names tools) in
  if bool_decide (advertised = ∅) then
    Err ("refusing to call upstream server '" +:+ name server
         +:+ "' because its tools/list returned no named tools" +:+ source_hint +:+ "; pass "
         +:+ ALLOW_UNKNOWN_TOOL_ARGUMENT +:+ "=true only for explicitly trusted dynamic hidden tools")
  else Ok advertised.

Definition unknown_tool_message (server : UpstreamServerConfig) (tool_name : string) : string :=
  "refusing to call upstream server '" +:+ name server +:+ "' tool '" +:+ tool_name
  +:+ "' because it is not present in the server's current tools/list; use upstream_search/upstream_tools to refresh discovery, or pass "
  +:+ ALLOW_UNKNOWN_TOOL_ARGUMENT +:+ "=true only for explicitly trusted dynamic hidden tools".

Definition ensure_tool_name_in_verified_set (server : UpstreamServerConfig) (tool_name : string)
    (advertised : gset string) : result unit string :=
  if bool_decide (advertised = ∅) then Ok tt
  else if bool_decide (tool_name ∈ advertised) then Ok tt
  else Err (unknown_tool_message server tool_name).

Definition context_allows_unknown_tool (context : option UpstreamLeaseContext) : bool :=
  match context with
  | None => false
  | Some context =>
      bool_decide (ALLOW_UNKNOWN_TOOL_ARGUMENT ∈ allow_arguments context)
      || bool_decide (ALLOW_UNKNOWN_UPSTREAM_TOOL_ARGUMENT ∈ allow_arguments context)
  end.

(** [setting] is MCPACE_ALLOW_UNKNOWN_UPSTREAM_TOOLS. *)
Definition known_tool_validation_enabled (setting : option string) : bool :=
  negb match setting with
       | Some value => one_of ["1"; "true"; "yes"; "on"] (to_ascii_lowercase (trim value))
       | None => false
       end.

Definition known_tool_validation_required (setting : option string) (context : option UpstreamLeaseContext)
    : bool :=
  known_tool_validation_enabled setting && negb (context_allows_unknown_tool context).

(** [listed]: the answer of [cached_tools_list], with whether it came from the cache. *)
Definition verified_tool_names_for_call (setting : option string) (server : UpstreamServerConfig)
    (listed : result (JsonValue * bool) string) (context : option UpstreamLeaseContext)
    : result (gset string) string :=
  if negb (known_tool_validation_required setting context) then Ok ∅
  else
    listed ←? map_err (fun error =>
      "refusing to call upstream server '" +:+ name server
      +:+ "' because tools/list could not verify the requested tool: " +:+ error
      +:+ ". Retry after upstream_tools/upstream_probe succeeds, or pass " +:+ ALLOW_UNKNOWN_TOOL_ARGUMENT
      +:+ "=true only when the server intentionally supports dynamic hidden tools.") listed ;;
    let '(tools, cache_hit) := listed in
    tool_names_from_tools_list server tools (if (cache_hit : bool) then " from cache" else EmptyString).

Definition validate_upstream_tool_known (setting : option string) (server : UpstreamServerConfig)
    (tool_name : string) (listed : result (JsonValue * bool) string)
    (context : option UpstreamLeaseContext) : result unit string :=
  tools ←? verified_tool_names_for_call setting server listed context ;;
  ensure_tool_name_in_verified_set server tool_name tools.

Fixpoint ensure_all_known (server : UpstreamServerConfig) (calls : list UpstreamToolCall)
    (tools : gset string) : result unit string :=
  match calls with
  | [] => Ok tt
  | call :: calls =>
      _ ←? ensure_tool_name_in_verified_set server (trim (call_tool call)) tools ;;
      ensure_all_known server calls tools
  end.

Definition validate_upstream_batch_tools_known (setting : option string) (server : UpstreamServerConfig)
    (calls : list UpstreamToolCall) (listed : result (JsonValue * bool) string)
    (context : option UpstreamLeaseContext) : result unit string :=
  match calls with
  | [] => Ok tt
  | _ =>
      tools ←? verified_tool_names_for_call setting server listed context ;;
      ensure_all_known server calls tools
  end.

(** The pooled variant: the cached list if there is one, else a list call over the checked
    out session and its validation. *)
Definition verified_tool_names_for_call_with_pool (setting : option string) (server : UpstreamServerConfig)
    (cached : option JsonValue) (listed : result JsonValue string)
    (validate : JsonValue -> result JsonValue string) (context : option UpstreamLeaseContext)
    : result (gset string) string :=
  if negb (known_tool_validation_required setting context) then Ok ∅
  else
    match cached with
    | Some tools => tool_names_from_tools_list server tools " from cache"
    | None =>
        result ←? listed ;;
        tools ←? validate result ;;
        tool_names_from_tools_list server tools " from pooled session"
    end.

(** What [upstream_policy] reports about a tool. *)
Definition tool_policy_json (policy : ToolRiskPolicy) : JsonValue :=
  json_object
    [("riskClass", json_string_or_null (risk_class policy));
     ("allowArgument", json_string_or_null (allow_argument policy));
     ("description", json_string_or_null (description policy))].

Definition tool_policy_info (servers : result (list (string * UpstreamServerConfig)) string)
    (server_name tool_name : string) : result JsonValue string :=
  let server_name := trim server_name in
  let tool_name := trim tool_name in
  if str_is_empty server_name then Err "tool_policy_info requires a non-empty server name"
  else if str_is_empty tool_name then Err "tool_policy_info requires a non-empty tool name"
  else
    servers ←? servers ;;
    server ←? ok_or (find_server servers server_name)
                ("upstream server '" +:+ server_name +:+ "' is not configured") ;;
    let policies :=
      map tool_policy_json (List.filter (fun p => matches_tool p tool_name) (tool_policies server)) in
    Ok (json_object
          [("server", json_string server_name); ("tool", json_string tool_name);
           ("guardRequired", json_bool (match policies with [] => false | _ => true end));
           ("policyCount", json_number (len_N policies)); ("policies", json_array policies)]).

(** ** Patterns mean what they say

    [glob p v]: the value [v] matches the pattern [p], in which a star stands for any text. *)

Inductive glob : string -> string -> Prop :=
| glob_nil : glob EmptyString EmptyString
| glob_char c p v : c <> "*"%char -> glob p v -> glob (String c p) (String c v)
| glob_star p u v : glob p v -> glob (String "*" p) (u +:+ v).

Lemma glob_star_inv p v : glob (String "*" p) v -> exists u w, v = u +:+ w /\ glob p w.
Proof. inversion 1; subst; [done|eauto]. Qed.

Lemma glob_literal s p v :
  contains_char "*" s = false -> glob (s +:+ p) v <-> exists w, v = s +:+ w /\ glob p w.
Proof.
  revert v. induction s as [|c s IH]; intros v Hs.
  - change (EmptyString +:+ p) with p. split; [intros H; by exists v|by intros (w & -> & H)].
  - rewrite append_cons. rewrite contains_char_cons in Hs. apply orb_false_iff in Hs as [Hc Hs].
    assert (Hne : c <> "*"%char) by (intros ->; by rewrite Ascii.eqb_refl in Hc). split.
    + inversion 1 as [|? ? v' ? H'|]; subst; [|done]. apply (IH v' Hs) in H' as (w & -> & Hw). by exists w.
    + intros (w & -> & Hw). rewrite append_cons. constructor; [done|]. apply IH; [done|]. by exists w.
Qed.

Lemma glob_empty v : glob EmptyString v <-> v = EmptyString.
Proof. split; [by inversion 1|intros ->; constructor]. Qed.

(** The segments in order, with anything between them; [exact]: nothing behind the last. *)
Fixpoint in_order (exact : bool) (segments : list string) (v : string) : Prop :=
  match segments with
  | [] => exact = true -> v = EmptyString
  | x :: segments => exists u w, v = u +:+ x +:+ w /\ in_order exact segments w
  end.

Lemma in_order_prepend exact segments u v :
  segments <> [] \/ exact = false -> in_order exact segments v -> in_order exact segments (u +:+ v).
Proof.
  intros Hs. destruct segments as [|x segments]; simpl.
  - destruct Hs as [Hs | ->]; done.
  - intros (u' & w & -> & H). exists (u +:+ u'), w. by rewrite append_assoc_str.
Qed.

Lemma wildcard_loop_sound exact segments v rest :
  wildcard_loop false true segments v = Some rest \/ wildcard_loop true false segments v = Some rest
  \/ wildcard_loop false false segments v = Some rest ->
  (exact = true -> rest = EmptyString) -> in_order exact segments v.
Proof.
  intros H Hr. revert v H. induction segments as [|x segments IH]; intros v H; cbn [wildcard_loop] in H.
  - assert (v = rest) as -> by (destruct H as [H|[H|H]]; congruence). exact Hr.
  - destruct (split_once_str x v) as [[b a]|] eqn:E; [|by destruct H as [?|[?|?]]].
    apply split_once_str_Some in E. exists b, a. split; [done|]. apply IH. simpl in H.
    destruct H as [H|[H|H]]; auto.
Qed.

Lemma wildcard_loop_complete first segments v :
  in_order false segments v -> exists rest, wildcard_loop false first segments v = Some rest.
Proof.
  revert first v. induction segments as [|x segments IH]; intros first v; [by exists v|].
  intros (u & w & -> & H). cbn [wildcard_loop].
  destruct (split_once_str_found x u w) as (l & r & -> & z & ->).
  rewrite andb_false_r. cbn [andb]. apply IH. apply in_order_prepend; [by right|done].
Qed.

Lemma wildcard_loop_unanchored a segments v :
  wildcard_loop a false segments v = wildcard_loop false false segments v.
Proof.
  revert v. induction segments as [|x segments IH]; intros v; [done|]. cbn [wildcard_loop].
  destruct (split_once_str x v) as [[b w]|]; [|done]. cbn [andb]. apply IH.
Qed.

(** *** Segments of a pattern *)

Lemma ends_with_char_app c s x : x <> EmptyString -> ends_with_char c (s +:+ x) = ends_with_char c x.
Proof.
  intros Hx. unfold ends_with_char. rewrite bytes_app, rev_app_distr.
  destruct (rev (bytes x)) as [|a l] eqn:E; [|done].
  apply (f_equal (@rev ascii)) in E. rewrite rev_involutive in E. simpl in E.
  exfalso. apply Hx. apply bytes_inj. exact E.
Qed.

Lemma ends_with_char_free c x : contains_char c x = false -> ends_with_char c x = false.
Proof.
  unfold contains_char, ends_with_char. intros H. destruct (rev (bytes x)) as [|a l] eqn:E; [done|].
  destruct (Ascii.eqb_spec a c) as [->|]; [|done].
  assert (Hin : In c (bytes x)) by (apply in_rev; rewrite E; by left).
  enough (existsb (Ascii.eqb c) (bytes x) = true) by congruence.
  apply existsb_exists. exists c. split; [done|apply Ascii.eqb_refl].
Qed.

Lemma filter_all_empty xs : List.filter non_empty_text xs = [] -> Forall (fun x => x = EmptyString) xs.
Proof.
  induction xs as [|x xs IH]; [constructor|]. simpl. unfold non_empty_text at 1.
  destruct (str_is_empty x) eqn:E; [|done]. apply str_is_empty_true in E. constructor; auto.
Qed.

Definition star : string := "*".

Lemma glob_join x y ys v :
  contains_char "*" x = false ->
  glob (join star (x :: y :: ys)) v <-> exists w, v = x +:+ w /\ exists u z, w = u +:+ z /\ glob (join star (y :: ys)) z.
Proof.
  intros Hx. change (join star (x :: y :: ys)) with (x +:+ String "*" (join star (y :: ys))).
  rewrite glob_literal by done. split; intros (w & -> & H); exists w; (split; [done|]).
  - by apply glob_star_inv.
  - destruct H as (u & z & -> & H). by constructor.
Qed.

Lemma tail_in_order ys v :
  ys <> [] -> Forall (fun x => contains_char "*" x = false) ys ->
  (exists u w, v = u +:+ w /\ glob (join star ys) w)
  <-> in_order (non_empty_text (List.last ys EmptyString)) (List.filter non_empty_text ys) v.
Proof.
  induction ys as [|y ys IH] in v |- *; intros Hn Hf; [done|]. clear Hn.
  inversion Hf as [|? ? Hy Hys]; subst. destruct ys as [|y2 ys].
  - cbn [join List.last List.filter]. unfold non_empty_text at 1 2.
    assert (Hg : forall w, glob y w <-> w = y).
    { intros w. rewrite <- (append_empty_r y) at 1. rewrite glob_literal by done. split.
      - intros (z & -> & Hz%glob_empty). subst. apply append_empty_r.
      - intros ->. exists EmptyString. by rewrite append_empty_r, glob_empty. }
    setoid_rewrite Hg. destruct (str_is_empty y) eqn:E; cbn [negb in_order].
    + apply str_is_empty_true in E as ->. split; [done|]. intros _. exists v, EmptyString. by rewrite append_empty_r.
    + split.
      * intros (u & w & -> & ->). exists u, EmptyString. by rewrite append_empty_r.
      * intros (u & w & -> & Hw). rewrite Hw by done. exists u, y. by rewrite append_empty_r.
  - set (ex := non_empty_text _). assert (Hex : ex = non_empty_text (List.last (y2 :: ys) EmptyString)) by done.
    assert (Hup : List.filter non_empty_text (y2 :: ys) <> [] \/ ex = false).
    { destruct (List.filter non_empty_text (y2 :: ys)) eqn:Ef; [right|by left].
      apply filter_all_empty in Ef. rewrite Hex. unfold non_empty_text.
      rewrite (proj2 (str_is_empty_true _)); [done|]. rewrite Forall_forall in Ef. apply Ef.
      apply list_elem_of_In. destruct (exists_last (l := y2 :: ys)) as (l & a & ->); [done|].
      rewrite List.last_last. apply in_or_app. right. by left. }
    clearbody ex. rewrite <- Hex in IH.
    assert (Hg : forall w, glob (join star (y :: y2 :: ys)) w
                 <-> exists z, w = y +:+ z /\ in_order ex (List.filter non_empty_text (y2 :: ys)) z).
    { intros w. rewrite glob_join by done. by setoid_rewrite IH. }
    setoid_rewrite Hg. change (List.filter non_empty_text (y :: y2 :: ys)) with
      (if non_empty_text y then y :: List.filter non_empty_text (y2 :: ys)
       else List.filter non_empty_text (y2 :: ys)).
    unfold non_empty_text at 2. destruct (str_is_empty y) eqn:E; cbn [negb].
    + apply str_is_empty_true in E as ->. split.
      * intros (u & w & -> & z & -> & H). by apply in_order_prepend.
      * intros H. exists EmptyString, v. split; [done|]. by exists v.
    + cbn [in_order]. split.
      * intros (u & w & -> & z & -> & H). by exists u, z.
      * intros (u & w & -> & H). exists u, (y +:+ w). split; [done|]. by exists w.
Qed.

Lemma ends_with_last pattern x y ys :
  split_char "*" pattern = x :: y :: ys ->
  ends_with_char "*" pattern = negb (non_empty_text (List.last (y :: ys) EmptyString)).
Proof.
  intros Hs. rewrite <- (join_split_char "*" pattern), Hs.
  pose proof (split_char_free "*" pattern) as Hf. rewrite Hs in Hf. clear Hs pattern.
  inversion Hf as [|? ? Hx Hys]; subst. clear Hf. revert x Hx.
  induction ys as [|y2 ys IH] in y, Hys |- *; intros x Hx; inversion Hys as [|? ? Hy Hys']; subst.
  - change (join (String "*" EmptyString) [x; y]) with (x +:+ String "*" y). simpl List.last. unfold non_empty_text.
    destruct y as [|c y].
    + rewrite ends_with_char_app by done. by vm_compute.
    + rewrite ends_with_char_app by done. change (String "*" (String c y)) with ("*" +:+ String c y).
      rewrite ends_with_char_app by done. by rewrite ends_with_char_free.
  - change (join (String "*" EmptyString) (x :: y :: y2 :: ys))
      with (x +:+ "*" +:+ join (String "*" EmptyString) (y :: y2 :: ys)).
    change (List.last (y :: y2 :: ys) EmptyString) with (List.last (y2 :: ys) EmptyString).
    rewrite <- append_assoc_str, ends_with_char_app.
    + by apply IH.
    + intros H. apply (f_equal bytes) in H.
      change (join (String "*" EmptyString) (y :: y2 :: ys)) with (y +:+ String "*" (join (String "*" EmptyString) (y2 :: ys))) in H.
      rewrite bytes_app in H. by destruct (bytes y).
Qed.

(** The pattern and the loop, by the two shapes of a pattern with a star. *)
Lemma glob_segments pattern v x y ys :
  split_char "*" pattern = x :: y :: ys ->
  glob pattern v <-> exists w, v = x +:+ w /\
    in_order (negb (ends_with_char "*" pattern)) (List.filter non_empty_text (y :: ys)) w.
Proof.
  intros Hs. rewrite (ends_with_last _ _ _ _ Hs), negb_involutive.
  pose proof (split_char_free "*" pattern) as Hf. rewrite Hs in Hf. inversion Hf as [|? ? Hx Hys]; subst.
  rewrite <- (join_split_char "*" pattern) at 1. rewrite Hs.
  change (join (String "*" EmptyString)) with (join star). rewrite glob_join by done.
  by setoid_rewrite (tail_in_order (y :: ys)); [|done..].
Qed.

(** A pattern with a star only matches values that fit it with stars
    standing for any text, and when the pattern ends with a star it matches all of them. *)
Theorem wildcard_match_equivalence pattern value :
  contains_char "*" pattern = true ->
  (wildcard_match pattern value = true -> glob pattern value) /\
  (ends_with_char "*" pattern = true -> wildcard_match pattern value = true <-> glob pattern value).
Proof.
  intros Hc. destruct (contains_split _ _ Hc) as (x & y & ys & Hs).
  destruct (split_char_head "*" pattern) as (x' & xs & Hs' & He). rewrite Hs in Hs'. injection Hs' as <- <-.
  assert (Hp : str_is_empty pattern = false) by (by destruct pattern).
  rewrite Hp in He. cbn [orb] in He.
  assert (Hsound : wildcard_match pattern value = true -> glob pattern value).
  { unfold wildcard_match. rewrite Hc, Hs. cbn [negb]. rewrite (glob_segments _ _ _ _ _ Hs).
    change (List.filter non_empty_text (x :: y :: ys)) with
      (if non_empty_text x then x :: List.filter non_empty_text (y :: ys) else List.filter non_empty_text (y :: ys)).
    rewrite <- He. unfold non_empty_text at 1. destruct (str_is_empty x) eqn:Ex; cbn [negb].
    - destruct (wildcard_loop _ _ _ _) as [rest|] eqn:El; [|done]. intros H. exists value.
      apply str_is_empty_true in Ex as ->. split; [done|].
      apply (wildcard_loop_sound _ _ _ rest); [by left|].
      intros Hn. apply negb_true_iff in Hn. rewrite Hn in H. by apply str_is_empty_true in H.
    - cbn [wildcard_loop]. destruct (split_once_str x value) as [[b a]|] eqn:E; [|done]. cbn [andb].
      destruct (str_is_empty b) eqn:Eb; cbn [negb]; [|done]. apply str_is_empty_true in Eb as ->.
      apply split_once_str_Some in E. destruct (wildcard_loop _ _ _ _) as [rest|] eqn:El; [|done]. intros H.
      exists a. split; [exact E|]. apply (wildcard_loop_sound _ _ _ rest); [right; by left|].
      intros Hn. apply negb_true_iff in Hn. rewrite Hn in H. by apply str_is_empty_true in H. }
  split; [exact Hsound|]. intros Hend. split; [exact Hsound|].
  rewrite (glob_segments _ _ _ _ _ Hs), Hend. cbn [negb]. intros (w & -> & H).
  unfold wildcard_match. rewrite Hc, Hs, Hend. cbn [negb orb].
  change (List.filter non_empty_text (x :: y :: ys)) with
      (if non_empty_text x then x :: List.filter non_empty_text (y :: ys) else List.filter non_empty_text (y :: ys)).
  rewrite <- He. unfold non_empty_text at 1. destruct (str_is_empty x) eqn:Ex; cbn [negb].
  - apply str_is_empty_true in Ex as ->. change (EmptyString +:+ w) with w.
    destruct (wildcard_loop_complete true _ _ H) as [rest ->]. done.
  - cbn [wildcard_loop]. rewrite split_once_str_unfold, strip_prefix_app. cbn [andb str_is_empty negb].
    rewrite wildcard_loop_unanchored. destruct (wildcard_loop_complete false _ _ H) as [rest ->]. done.
Qed.

Lemma wildcard_match_equivalence_witness :
  glob "db_*_table*" "db_drop_table_now".
Proof.
  apply (wildcard_match_equivalence "db_*_table*" "db_drop_table_now"); vm_compute; reflexivity.
Defined.

(** ** Guarded tools need a grant *)

Lemma check_policies_Ok server_name tool_name context policies :
  check_policies server_name tool_name context policies = Ok tt <->
  forall p, p ∈ policies -> matches_tool p tool_name = true -> is_allowed p context = true.
Proof.
  induction policies as [|p policies IH]; cbn [check_policies].
  - split; [|done]. intros _ p Hp. by apply elem_of_nil in Hp.
  - destruct (negb (matches_tool p tool_name) || is_allowed p context) eqn:E.
    + rewrite IH. split.
      * intros H q [-> | Hq]%elem_of_cons Hm; [|by apply H]. rewrite Hm in E. exact E.
      * intros H q Hq. apply H. by right.
    + apply orb_false_iff in E as [Em Ea]. apply negb_false_iff in Em. split; [done|].
      intros H. rewrite (H p) in Ea; [done|by left|done].
Qed.

Lemma check_batch_Ok server context index calls :
  check_batch server context index calls = Ok tt <->
  forall c, c ∈ calls -> trim (call_tool c) <> EmptyString /\
    validate_upstream_tool_policy server (trim (call_tool c)) context = Ok tt.
Proof.
  revert index. induction calls as [|c calls IH]; intros index; cbn [check_batch].
  - split; [|done]. intros _ c Hc. by apply elem_of_nil in Hc.
  - destruct (str_is_empty (trim (call_tool c))) eqn:E.
    + split; [done|]. intros H. apply str_is_empty_true in E. destruct (H c); [by left|done].
    + apply str_is_empty_false in E.
      destruct (validate_upstream_tool_policy server (trim (call_tool c)) context) as [[]|e] eqn:Ev.
      * rewrite IH. split; [|intros H c' Hc'; apply H; by right].
        intros H c' [-> | Hc']%elem_of_cons; [done|by apply H].
      * split; [done|]. intros H. destruct (H c) as [_ H']; [by left|congruence].
Qed.

(** *** What the arguments of a call grant *)

(** [args] names [grant] among its allow arguments. *)
Definition names_grant (object : list (string * JsonValue)) (grant : string) : Prop :=
  ((grant, JBool true) ∈ object /\ starts_with "allow" grant = true) \/
  exists items, ("allowArguments", JArray items) ∈ object /\
    exists raw, JString raw ∈ items /\ trim raw = grant /\ grant <> EmptyString.

Lemma collect_items_spec normalize error items values out :
  collect_items normalize error items values = Ok out ->
  forall g, g ∈ out <-> (g ∈ values) \/
    exists raw, JString raw ∈ items /\ normalize raw = g /\ g <> EmptyString.
Proof.
  revert values. induction items as [|item items IH]; intros values; cbn [collect_items].
  - intros [= <-] g. set_solver.
  - destruct item as [| | |raw| |]; try done. cbn [as_str]. intros H g. rewrite (IH _ H).
    setoid_rewrite elem_of_cons. destruct (str_is_empty (normalize raw)) eqn:E.
    + apply str_is_empty_true in E. split.
      * intros [Hg|(r & Hr & Ht & Hn)]; [by left|right; eauto].
      * intros [Hg|(r & [Hr|Hr] & Ht & Hn)]; [by left| |right; eauto]. injection Hr as ->. congruence.
    + apply str_is_empty_false in E. rewrite elem_of_union, elem_of_singleton. split.
      * intros [ [-> | Hg] | (r & Hr & Ht & Hn) ]; [right; eauto|by left|right; eauto].
      * intros [Hg|(r & [Hr|Hr] & Ht & Hn)]; [left; by right| |right; eauto].
        injection Hr as ->. left. by left.
Qed.

Lemma names_grant_cons key value object g :
  names_grant ((key, value) :: object) g <->
  (g = key /\ value = JBool true /\ starts_with "allow" g = true)
  \/ (key = "allowArguments" /\ exists items, value = JArray items /\
      exists raw, JString raw ∈ items /\ trim raw = g /\ g <> EmptyString)
  \/ names_grant object g.
Proof.
  unfold names_grant. setoid_rewrite elem_of_cons. split.
  - intros [ [[[= -> <-]|H] Hs] | (items & [[= <- <-]|H] & Hr) ]; [auto|auto|right; left; eauto|right; right; right; eauto].
  - intros [ (-> & -> & Hs) | [ (-> & items & -> & Hr) | [[H Hs]|(items & H & Hr)] ] ].
    + left. auto.
    + right. exists items. auto.
    + left. auto.
    + right. exists items. auto.
Qed.

Lemma collect_allow_entries_sound object values out g :
  collect_allow_entries object values = Ok out -> g ∈ out -> (g ∈ values) \/ names_grant object g.
Proof.
  revert values. induction object as [|[key value] object IH]; intros values; cbn [collect_allow_entries].
  - intros [= <-]. by left.
  - rewrite names_grant_cons. destruct (_ || _) eqn:E1; [intros H Hg; destruct (IH _ H Hg); auto|].
    apply orb_false_iff in E1 as [E1%negb_false_iff _].
    destruct (String.eqb_spec key "allowArguments") as [->|Hne].
    + destruct (collect_allow_argument_list value values) as [values'|] eqn:Ec; [|done]. intros H Hg.
      destruct (IH _ H Hg) as [Hv|]; [|auto]. unfold collect_allow_argument_list in Ec.
      destruct value as [| | | |items|]; simplify_eq; [by left|].
      rewrite (collect_items_spec _ _ _ _ _ Ec) in Hv. destruct Hv as [Hv|Hv]; [auto|].
      right. right. left. eauto.
    + destruct value as [|[]| | | |]; try done; intros Hr Hg; destruct (IH _ Hr Hg) as [Hv|]; auto.
      apply elem_of_union in Hv as [->%elem_of_singleton|Hv]; [|auto]. right. left.
      repeat split. assumption.
Qed.

(** A context whose grants were read from the arguments of a call. *)
Definition context_from (arguments : JsonValue) (context : UpstreamLeaseContext) : Prop :=
  collect_allow_arguments arguments = Ok (allow_arguments context) /\
  collect_allowed_tool_risk_classes arguments = Ok (allowed_tool_risk_classes context).

(** The arguments authorize the policy: its argument is granted by name, or its risk class
    is listed. *)
Definition authorizes (arguments : JsonValue) (p : ToolRiskPolicy) : Prop :=
  (exists object g, arguments = JObject object /\ allow_argument p = Some g /\ names_grant object g) \/
  (exists items raw r, value_at_path arguments ["allowToolRiskClasses"] = Some (JArray items) /\
     risk_class p = Some r /\ JString raw ∈ items /\ to_ascii_lowercase (trim raw) = r).

Lemma is_allowed_authorized arguments context p :
  context_from arguments context -> is_allowed p (Some context) = true -> authorizes arguments p.
Proof.
  intros [Ha Hr]. unfold is_allowed. intros [H|H]%orb_true_iff.
  - left. destruct (allow_argument p) as [g|]; [|done]. apply bool_decide_eq_true in H.
    unfold collect_allow_arguments in Ha. destruct arguments as [| | | | |object]; cbn [as_object] in Ha;
      try (injection Ha as Ha; rewrite <- Ha in H; set_solver).
    exists object, g. split; [done|]. split; [done|].
    destruct (collect_allow_entries_sound _ _ _ _ Ha H); [set_solver|done].
  - right. destruct (risk_class p) as [r|]; [|done]. apply bool_decide_eq_true in H.
    unfold collect_allowed_tool_risk_classes in Hr.
    destruct (value_at_path arguments _) as [[| | | |items|]|] eqn:Ev; try done;
      try (injection Hr as Hr; rewrite <- Hr in H; set_solver).
    apply (collect_items_spec _ _ _ _ _ Hr) in H as [H|(raw & Hin & Ht & _)]; [set_solver|].
    by exists items, raw, r.
Qed.

(** C6: a call passes the policy check exactly when every policy that
    matches the tool is granted by the context; without a context no guarded tool passes,
    and with the grants read from the call's arguments each of these policies is
    authorized explicitly there. *)
Theorem guarded_tools_need_grant server tool_name context :
  (validate_upstream_tool_policy server tool_name context = Ok tt <->
   forall p, p ∈ tool_policies server -> matches_tool p tool_name = true -> is_allowed p context = true) /\
  (validate_upstream_tool_policy server tool_name context = Ok tt ->
   forall p, p ∈ tool_policies server -> matches_tool p tool_name = true ->
   exists c, context = Some c /\
     forall arguments, context_from arguments c -> authorizes arguments p).
Proof.
  unfold validate_upstream_tool_policy. rewrite check_policies_Ok. split; [done|].
  intros H p Hp Hm. specialize (H p Hp Hm). destruct context as [c|]; [|done].
  exists c. split; [done|]. intros arguments Hf. by eapply is_allowed_authorized.
Qed.

Definition sample_policy : ToolRiskPolicy := mkToolPolicy ["delete_*"] (Some "mutation") None None.

Definition sample_guarded : UpstreamServerConfig :=
  mkServer "github" true None "stdio" None [] [] [] None None 1000 conservative [sample_policy].

Definition sample_arguments : JsonValue :=
  json_object [("allowToolRiskClasses", json_array [json_string " Mutation "])].

Definition sample_grant : UpstreamLeaseContext :=
  mkContext None None None None None None ∅ {["mutation"]}.

Lemma sample_context_from : context_from sample_arguments sample_grant.
Proof. split; vm_compute; reflexivity. Qed.

Lemma guarded_tools_need_grant_witness :
  validate_upstream_tool_policy sample_guarded "Delete_Repo" None <> Ok tt /\
  authorizes sample_arguments sample_policy.
Proof.
  split.
  - intros H. destruct (proj2 (guarded_tools_need_grant sample_guarded "Delete_Repo" None) H sample_policy)
      as (c & Hc & _); [by left|vm_compute; reflexivity|discriminate].
  - destruct (proj2 (guarded_tools_need_grant sample_guarded "Delete_Repo" (Some sample_grant))) with sample_policy
      as (c & Hc & H); [vm_compute; reflexivity|by left|vm_compute; reflexivity|].
    injection Hc as <-. apply H, sample_context_from.
Defined.

(** Every guard that can be loaded can be opened: some arguments are read as a grant of it. *)
Lemma guard_can_be_opened p :
  tool_policy_wf p ->
  exists arguments context, context_from arguments context /\ is_allowed p (Some context) = true.
Proof.
  intros [_ Hr Ha Hg]. destruct (risk_class p) as [r|] eqn:Er.
  - destruct (Hr r eq_refl) as [Hne Hn]. unfold normalize_policy_token, normalize_flag in Hn.
    exists (json_object [("allowToolRiskClasses", json_array [json_string r])]),
      (mkContext None None None None None None ∅ {[r]}).
    assert (Hc : collect_items (fun value => to_ascii_lowercase (trim value))
              "allowToolRiskClasses must be an array of strings" [JString r] ∅ = Ok ({[r]} ∪ ∅)).
    { cbn [collect_items as_str]. rewrite Hn. by destruct r. }
    split; [split; [reflexivity|]|].
    + change (collect_allowed_tool_risk_classes _) with
        (collect_items (fun value => to_ascii_lowercase (trim value))
              "allowToolRiskClasses must be an array of strings" [JString r] ∅).
      rewrite Hc. cbn. f_equal. set_solver.
    + unfold is_allowed. rewrite Er. cbn [allowed_tool_risk_classes].
      rewrite (bool_decide_eq_true_2 (r ∈ _)) by set_solver. apply orb_true_r.
  - destruct (allow_argument p) as [a|] eqn:Ea; [|by destruct Hg].
    destruct (Ha a eq_refl) as [Hne Hn].
    exists (json_object [("allowArguments", json_array [json_string a])]),
      (mkContext None None None None None None {[a]} ∅).
    split; [split; [|reflexivity]|].
    + change (collect_allow_arguments _) with
        (values ←? collect_items trim "allowArguments must be an array of strings" [JString a] ∅ ;;
         collect_allow_entries [] values).
      cbn [collect_items as_str collect_allow_entries]. rewrite Hn. destruct a; [done|]. cbn. f_equal. set_solver.
    + unfold is_allowed. rewrite Ea. cbn [allow_arguments].
      by rewrite (bool_decide_eq_true_2 (a ∈ _)) by set_solver.
Qed.

(** A guard on all tools that end in a suffix does not cover a tool in
    which the suffix occurs twice: the loop takes the first occurrence and then finds text
    left over.  Such a tool fits the pattern and is called without any grant. *)
Theorem suffix_pattern_misses_repeated_suffix :
  exists server p tool,
    p ∈ tool_policies server /\ tools p = ["*_delete"] /\ glob "*_delete" tool /\
    matches_tool p tool = false /\ validate_upstream_tool_policy server tool None = Ok tt.
Proof.
  exists (mkServer "db" true None "stdio" None [] [] [] None None 1000 conservative
            [mkToolPolicy ["*_delete"] (Some "mutation") None None]),
    (mkToolPolicy ["*_delete"] (Some "mutation") None None), "bulk_delete_delete".
  split; [by left|]. split; [done|]. split; [|split; vm_compute; reflexivity].
  change "bulk_delete_delete" with ("bulk_delete" +:+ "_delete"). apply glob_star.
  repeat (apply glob_char; [discriminate|]). apply glob_nil.
Qed.

(** ** Advertised tools *)

Lemma ensure_all_known_Ok server calls tools :
  ensure_all_known server calls tools = Ok tt <->
  forall c, c ∈ calls -> tools = ∅ \/ trim (call_tool c) ∈ tools.
Proof.
  induction calls as [|c calls IH]; cbn [ensure_all_known].
  - split; [|done]. intros _ c Hc. by apply elem_of_nil in Hc.
  - unfold ensure_tool_name_in_verified_set.
    destruct (bool_decide_reflect (tools = ∅)) as [He|He]; [|destruct (bool_decide_reflect (trim (call_tool c) ∈ tools))].
    + rewrite IH. split; intros H c' Hc'; left; done.
    + rewrite IH. split; [|intros H c' Hc'; apply H; by right].
      intros H c' [-> | Hc']%elem_of_cons; [by right|by apply H].
    + split; [done|]. intros H. destruct (H c); [by left|done..].
Qed.

(** While the check of tool names is on and the caller did not ask to skip it, every tool of a
    batch that passes is one the server's list names. *)
Lemma batch_tools_are_advertised setting server calls listed context :
  known_tool_validation_required setting context = true ->
  validate_upstream_batch_tools_known setting server calls listed context = Ok tt ->
  forall c, c ∈ calls -> exists tools hit, listed = Ok (tools, hit) /\ trim (call_tool c) ∈ advertised_names tools.
Proof.
  intros Hreq. unfold validate_upstream_batch_tools_known, verified_tool_names_for_call. rewrite Hreq. cbn [negb].
  destruct calls as [|c0 calls]; [intros _ c Hc; by apply elem_of_nil in Hc|].
  destruct listed as [[tools hit]|]; [|done]. cbn [map_err]. unfold tool_names_from_tools_list.
  destruct (bool_decide_reflect (list_to_set (C := gset string) (advertised_names tools) = ∅)) as [|Hne]; [done|].
  rewrite ensure_all_known_Ok. intros H c Hc. exists tools, hit. split; [done|].
  destruct (H c Hc) as [|Hin]; [done|]. by apply elem_of_list_to_set in Hin.
Qed.
