(* ===== verification/ToolAudit.v ===== *)
(** * The audit record of tool calls (src/upstream/lease_runtime.rs)

    Every tool call leaves one audit line: its sizes and durations, the token usage the
    upstream or the client reported, the kind of its outcome, and a shortened trace.  The
    hash of the standard library and the JSON printer are the classes of Json and
    Execution; the clock and the sequence number of the call id are arguments. *)

From Stdlib Require Import Ascii.
From S2P Require Import Prelude RustStr BTree Json TextUtils Execution LeaseStore SessionPool.
From S2P Require Import ServerConfig ToolPolicy.

Record ToolAuditMetrics := mkMetrics {
  queue_duration_ms : N;
  upstream_duration_ms : N;
  total_duration_ms : N;
  request_bytes : N;
  response_bytes : N;
  estimated_input_tokens : N;
  estimated_output_tokens : N;
  reported_input_tokens : option N;
  reported_output_tokens : option N;
  reported_total_tokens : option N;
  token_usage_source : option string
}.

Record ReportedTokenUsage := mkUsage {
  usage_input : option N;
  usage_output : option N;
  usage_total : option N;
  usage_source : option string
}.

Definition usage_default : ReportedTokenUsage := mkUsage None None None None.

(** ** Token usage *)

Definition estimate_payload_tokens (bytes : N) : N :=
  if (bytes =? 0)%N then 0 else (sat_add USIZE_MAX bytes 3 / 4)%N.

Definition optional_json_u128 (value : option N) : JsonValue := optional_number value.

Definition json_at_path (value : JsonValue) (path : list string) : option JsonValue := value_at_path value path.

Definition json_u128 (value : JsonValue) : option N :=
  match value with
  | JNumber number | JString number => parse_u128 number
  | _ => None
  end.

Definition token_count (value : JsonValue) (keys : list string) : option N :=
  find_map (fun key => json_get value key ≫= json_u128) keys.

Definition usage_candidates (value : JsonValue) : list JsonValue :=
  omap (json_at_path value)
    [["_meta"; "usage"]; ["usage"]; ["metadata"; "usage"]; ["upstreamResult"; "_meta"; "usage"];
     ["upstreamResult"; "usage"]; ["result"; "_meta"; "usage"]; ["result"; "usage"]; ["_meta"]; ["metadata"]]
  ++ [value].

Definition usage_reported (u : ReportedTokenUsage) : bool :=
  is_some (usage_input u) || is_some (usage_output u) || is_some (usage_total u).

Definition candidate_usage (candidate : JsonValue) : option ReportedTokenUsage :=
  let input := token_count candidate ["inputTokens"; "input_tokens"; "promptTokens"; "prompt_tokens"] in
  let output :=
    token_count candidate ["outputTokens"; "output_tokens"; "completionTokens"; "completion_tokens"] in
  let explicit_total := token_count candidate ["totalTokens"; "total_tokens"] in
  let total :=
    opt_or explicit_total
      match input, output with
      | Some l, Some r => Some (sat_add U128_MAX l r)
      | _, _ => None
      end in
  let usage := mkUsage input output total None in
  if usage_reported usage then Some usage else None.

Definition extract_reported_token_usage (value : JsonValue) : option ReportedTokenUsage :=
  find_map candidate_usage (usage_candidates value).

Definition merge_reported_token_usage (primary fallback : ReportedTokenUsage) : ReportedTokenUsage :=
  let used_primary := usage_reported primary in
  let fills (f : ReportedTokenUsage -> option N) := negb (is_some (f primary)) && is_some (f fallback) in
  let used_fallback :=
    negb used_primary || fills usage_input || fills usage_output || fills usage_total in
  mkUsage (opt_or (usage_input primary) (usage_input fallback))
    (opt_or (usage_output primary) (usage_output fallback))
    (opt_or (usage_total primary) (usage_total fallback))
    match used_primary, used_fallback with
    | true, true => Some "mixed"
    | true, false => usage_source primary
    | false, true => usage_source fallback
    | false, false => None
    end.

Definition add_tokens (first second : option N) : option N :=
  match first, second with
  | Some a, Some b => Some (sat_add U128_MAX a b)
  | Some value, None | None, Some value => Some value
  | None, None => None
  end.

Definition sum_reported_token_usage (left right : ReportedTokenUsage) : ReportedTokenUsage :=
  mkUsage (add_tokens (usage_input left) (usage_input right))
    (add_tokens (usage_output left) (usage_output right))
    (add_tokens (usage_total left) (usage_total right))
    match usage_reported left, usage_reported right with
    | true, true => Some "upstream_results"
    | true, false => usage_source left
    | false, true => usage_source right
    | false, false => None
    end.

Definition with_source (source : string) (u : ReportedTokenUsage) : ReportedTokenUsage :=
  mkUsage (usage_input u) (usage_output u) (usage_total u) (Some source).

Definition reported_token_usage (result : option JsonValue) (context : option UpstreamLeaseContext)
    : ReportedTokenUsage :=
  let result_usage :=
    unwrap_or (option_map (with_source "upstream_result") (result ≫= extract_reported_token_usage))
      usage_default in
  let context_usage :=
    unwrap_or (option_map (with_source "request_context")
                 ((context ≫= metadata) ≫= extract_reported_token_usage)) usage_default in
  merge_reported_token_usage result_usage context_usage.

Definition reported_token_usage_for_results (results : list JsonValue)
    (context : option UpstreamLeaseContext) : ReportedTokenUsage :=
  let aggregate :=
    fold_left (fun aggregate result =>
      sum_reported_token_usage aggregate (reported_token_usage (Some result) None)) results usage_default in
  merge_reported_token_usage aggregate (reported_token_usage None context).

(** ** The kind of an outcome *)

Record ToolAuditOutcome := mkOutcome { outcome : string; error_kind : string; failure_stage : string }.

Definition mentions (message : string) (words : list string) : bool :=
  existsb (fun word => str_contains word message) words.

Definition classify_tool_audit_outcome (bridge_ok upstream_ok : bool) (error : option string)
    : ToolAuditOutcome :=
  if bridge_ok && upstream_ok then mkOutcome "success" "none" "complete"
  else if bridge_ok then mkOutcome "tool_error" "upstream_tool_error" "upstream"
  else
    let message := to_ascii_lowercase (unwrap_or error EmptyString) in
    if mentions message ["policy"; "risk"; "allowunknown"; "not allowed"; "blocked"; "denied"] then
      mkOutcome "denied" "policy_denied" "policy"
    else if mentions message ["auth"; "credential"; "access token"; "api token"; "bearer token";
                              "missing token"; "invalid token"; "token expired"; "unauthorized";
                              "forbidden"] then
      mkOutcome "denied" "authorization" "authorization"
    else if mentions message ["timeout"; "timed out"] then
      mkOutcome "timeout" "timeout" (if mentions message ["queue"; "lease"] then "queue" else "upstream")
    else if mentions message ["queue"; "lease"; "capacity"; "busy"] then
      mkOutcome "rejected" "capacity" "queue"
    else if mentions message ["unknown tool"; "schema"; "argument"; "invalid"; "duplicate"] then
      mkOutcome "invalid" "validation" "validation"
    else if mentions message ["spawn"; "stdio"; "http"; "connect"; "transport"; "status"; "process"] then
      mkOutcome "transport_error" "transport" "upstream"
    else mkOutcome "bridge_error" "internal" "bridge".

(** ** Texts of the record *)

(** [{:x}], without leading zeros. *)
Definition hex_lower (n : N) : string :=
  let fix drop_zeros (fuel : nat) (s : string) : string :=
    match fuel, s with
    | S fuel, String "0" (String _ _ as rest) => drop_zeros fuel rest
    | _, _ => s
    end in
  drop_zeros 32 (hex_pad 32 n EmptyString).

Definition tool_audit_id (timestamp sequence : N) : string :=
  "tc-" +:+ hex_lower timestamp +:+ "-" +:+ hex_lower sequence.

Definition compact_trace_value (value : string) : string :=
  let '(prefix, rest) := take_chars 48 (bytes (trim value)) in
  match rest with
  | _ :: _ => of_bytes prefix +:+ "…"
  | [] => of_bytes prefix
  end.

Definition context_field (context : option UpstreamLeaseContext) (key : string) : JsonValue :=
  json_string_or_null
    (if String.eqb key "client_id" then context ≫= ToolPolicy.client_id
     else if String.eqb key "session_id" then context ≫= ToolPolicy.session_id
     else if String.eqb key "project_root" then context ≫= ToolPolicy.project_root
     else if String.eqb key "transport" then context ≫= ToolPolicy.transport
     else None).

Section records.
Context `{SerdeJson} `{Hasher}.

Definition argument_fingerprint (arguments : JsonValue) : string :=
  let compact := to_compact_string arguments in
  "len" +:+ N_to_string (str_len compact) +:+ "-" +:+ hex16 (hash_str compact).

(** [{:08x}] of the low 32 bits. *)
Definition short_hash (value : string) : string :=
  hex_pad 8 (N.land (hash_str value) 4294967295) EmptyString.

Definition trace_text (session project client server_name hash : string) : string :=
  "chat=" +:+ compact_trace_value session +:+ " project=" +:+ compact_trace_value project
  +:+ " client=" +:+ compact_trace_value client +:+ " -> " +:+ server_name +:+ "#" +:+ hash.

Definition upstream_session_trace (server_name : string) (context : option UpstreamLeaseContext)
    (pool_key : option UpstreamSessionKey) : string :=
  match pool_key with
  | Some key =>
      trace_text (SessionPool.session_id key) (SessionPool.project_root key) (SessionPool.client_id key) server_name
        (short_hash (SessionPool.server_name key +:+ "|" +:+ execution_mode key +:+ "|"
                     +:+ SessionPool.affinity_fingerprint key +:+ "|" +:+ server_fingerprint key))
  | None =>
      let client := unwrap_or (context ≫= ToolPolicy.client_id) "mcpace-upstream-bridge" in
      let session := unwrap_or (context ≫= ToolPolicy.session_id) "anonymous-session" in
      let project := unwrap_or (context ≫= ToolPolicy.project_root) "unresolved-project" in
      trace_text session project client server_name
        (short_hash (server_name +:+ "|" +:+ session +:+ "|" +:+ project))
  end.

(** ** Metrics *)

Definition metrics_of (request response : N) (usage : ReportedTokenUsage) (queue upstream total : N)
    : ToolAuditMetrics :=
  mkMetrics queue upstream total request response (estimate_payload_tokens request)
    (estimate_payload_tokens response) (usage_input usage) (usage_output usage) (usage_total usage)
    (usage_source usage).

Definition for_single (arguments : JsonValue) (result : option JsonValue)
    (context : option UpstreamLeaseContext) (queue upstream total : N) : ToolAuditMetrics :=
  metrics_of (str_len (to_compact_string arguments))
    (unwrap_or (option_map (fun value => str_len (to_compact_string value)) result) 0%N)
    (reported_token_usage result context) queue upstream total.

Definition for_batch (calls : list UpstreamToolCall) (results : option (list JsonValue))
    (context : option UpstreamLeaseContext) (queue upstream total : N) : ToolAuditMetrics :=
  metrics_of
    (sum_by (fun call => str_len (call_tool call) + str_len (to_compact_string (call_arguments call)))%N calls)
    (unwrap_or (option_map (sum_by (fun value => str_len (to_compact_string value))) results) 0%N)
    (reported_token_usage_for_results (unwrap_or results []) context) queue upstream total.

Definition metrics_log_fields (m : ToolAuditMetrics) : list (string * JsonValue) :=
  [("metricsSchema", json_string "mcpace.toolAuditMetrics.v1");
   ("queueDurationMs", json_number (queue_duration_ms m));
   ("upstreamDurationMs", json_number (upstream_duration_ms m));
   ("totalDurationMs", json_number (total_duration_ms m));
   ("requestBytes", json_number (request_bytes m));
   ("responseBytes", json_number (response_bytes m));
   ("estimatedInputTokens", json_number (estimated_input_tokens m));
   ("estimatedOutputTokens", json_number (estimated_output_tokens m));
   ("estimatedTotalTokens",
     json_number (sat_add USIZE_MAX (estimated_input_tokens m) (estimated_output_tokens m)));
   ("tokenEstimateMethod", json_string "utf8-bytes-div-4");
   ("reportedInputTokens", optional_json_u128 (reported_input_tokens m));
   ("reportedOutputTokens", optional_json_u128 (reported_output_tokens m));
   ("reportedTotalTokens", optional_json_u128 (reported_total_tokens m));
   ("tokenUsageSource", json_string_or_null (token_usage_source m))].

(** ** Records *)

Definition context_fields (context : option UpstreamLeaseContext) (error : option string)
    : list (string * JsonValue) :=
  [("clientId", context_field context "client_id"); ("sessionId", context_field context "session_id");
   ("projectRoot", context_field context "project_root"); ("transport", context_field context "transport");
   ("error", json_string_or_null error)].

Definition log_tool_call_audit (call_id server_name tool_name : string) (arguments : JsonValue)
    (context : option UpstreamLeaseContext) (bridge_ok upstream_ok pooled : bool)
    (lease_id : option string) (pool_key : option UpstreamSessionKey) (metrics : ToolAuditMetrics)
    (error : option string) : LogEvent :=
  let upstream_is_error := bridge_ok && negb upstream_ok in
  let audit := classify_tool_audit_outcome bridge_ok upstream_ok error in
  {| log_level := if bridge_ok && upstream_ok then "info" else "warn";
     log_event := "tool_call_audit";
     log_fields :=
       [("auditSchema", json_string "mcpace.toolAudit.v2"); ("callId", json_string call_id);
        ("requestKind", json_string "tools/call"); ("callCount", json_number 1);
        ("outcome", json_string (outcome audit)); ("errorKind", json_string (error_kind audit));
        ("failureStage", json_string (failure_stage audit)); ("server", json_string server_name);
        ("tool", json_string tool_name); ("bridgeOk", json_bool bridge_ok);
        ("upstreamOk", json_bool upstream_ok); ("upstreamIsError", json_bool upstream_is_error);
        ("pooled", json_bool pooled); ("leaseId", json_string_or_null lease_id);
        ("trace", json_string (upstream_session_trace server_name context pool_key));
        ("argumentsFingerprint", json_string (argument_fingerprint arguments))]
       ++ context_fields context error ++ metrics_log_fields metrics |}.

Definition log_tool_batch_audit (call_id server_name : string) (calls : list UpstreamToolCall)
    (context : option UpstreamLeaseContext) (bridge_ok pooled : bool)
    (lease_id : option string) (pool_key : option UpstreamSessionKey)
    (upstream_ok_count upstream_failed_count : N) (metrics : ToolAuditMetrics)
    (error : option string) : LogEvent :=
  let upstream_ok := bridge_ok && (upstream_failed_count =? 0)%N in
  let audit := classify_tool_audit_outcome bridge_ok upstream_ok error in
  {| log_level := if bridge_ok && upstream_ok then "info" else "warn";
     log_event := "tool_batch_audit";
     log_fields :=
       [("auditSchema", json_string "mcpace.toolAudit.v2"); ("callId", json_string call_id);
        ("requestKind", json_string "tools/call.batch");
        ("outcome", json_string (outcome audit)); ("errorKind", json_string (error_kind audit));
        ("failureStage", json_string (failure_stage audit)); ("server", json_string server_name);
        ("bridgeOk", json_bool bridge_ok); ("upstreamOk", json_bool upstream_ok);
        ("upstreamOkCount", json_number upstream_ok_count);
        ("upstreamFailedCount", json_number upstream_failed_count);
        ("callCount", json_number (len_N calls));
        ("tools", json_array (map (fun call => json_string (call_tool call)) calls));
        ("argumentsFingerprints",
          json_array (map (fun call => json_string (argument_fingerprint (call_arguments call))) calls));
        ("pooled", json_bool pooled); ("leaseId", json_string_or_null lease_id);
        ("trace", json_string (upstream_session_trace server_name context pool_key))]
       ++ context_fields context error ++ metrics_log_fields metrics |}.

End records.

(** ** What the audit shows and what it hides *)

Lemma mentions_contains message words w :
  w ∈ words -> str_contains w message = true -> mentions message words = true.
Proof. intros Hw Hc. apply existsb_exists. exists w. by rewrite <- list_elem_of_In. Qed.

Lemma str_contains_lower w l r :
  to_ascii_lowercase w = w -> str_contains w (to_ascii_lowercase (l +:+ w +:+ r)) = true.
Proof. intros Hw. rewrite !lower_app, Hw. apply str_contains_app. Qed.

(** A call that a guard refused is audited as denied by policy, whatever the names are. *)
Lemma blocked_call_audited_as_denied policy server_name tool_name :
  classify_tool_audit_outcome false false (Some (blocked_message policy server_name tool_name))
  = mkOutcome "denied" "policy_denied" "policy".
Proof.
  assert (Hm : exists r, blocked_message policy server_name tool_name
    = ("upstream server '" +:+ server_name +:+ "' tool '" +:+ tool_name +:+ "' requires explicit ") +:+ "risk" +:+ r).
  { unfold blocked_message. cbv zeta. eexists (" authorization: " +:+ _). rewrite !append_assoc_str. reflexivity. }
  destruct Hm as [r ->]. unfold classify_tool_audit_outcome. cbn [andb unwrap_or].
  by rewrite (mentions_contains _ _ "risk") by (apply str_contains_lower; done) || set_solver.
Qed.

(** The message of [remaining_upstream_timeout]. *)
Definition timed_out_before (server_name phase : string) : string :=
  "upstream server '" +:+ server_name +:+ "' timed out before " +:+ phase.

(** The audit takes the kind of a failure from words in its message,
    which includes the server's name: a timeout is audited as such for one server and as a
    refused authorization for another, by their names alone. *)
Theorem timeout_audited_as_authorization :
  error_kind (classify_tool_audit_outcome false false (Some (timed_out_before "github" "tools/call"))) = "timeout"
  /\ error_kind (classify_tool_audit_outcome false false (Some (timed_out_before "oauth-proxy" "tools/call")))
     = "authorization".
Proof. split; vm_compute; reflexivity. Qed.

Section hiding.
Context `{SerdeJson} `{Hasher}.

(** The audit record of a call depends on the arguments only through the length
    and the hash of their text, and on the result only through the length of its text and
    the token usage it reports: two calls that agree on these leave the same record. *)
Theorem audit_hides_payloads call_id server tool args args' context bridge_ok upstream_ok pooled lease key
    result result' queue upstream total error :
  str_len (to_compact_string args) = str_len (to_compact_string args') ->
  hash_str (to_compact_string args) = hash_str (to_compact_string args') ->
  str_len (to_compact_string result) = str_len (to_compact_string result') ->
  extract_reported_token_usage result = extract_reported_token_usage result' ->
  log_tool_call_audit call_id server tool args context bridge_ok upstream_ok pooled lease key
    (for_single args (Some result) context queue upstream total) error
  = log_tool_call_audit call_id server tool args' context bridge_ok upstream_ok pooled lease key
    (for_single args' (Some result') context queue upstream total) error.
Proof.
  intros Hl Hh Hr Hu. unfold log_tool_call_audit, for_single, argument_fingerprint, reported_token_usage.
  cbn [option_map unwrap_or mbind option_bind]. by rewrite Hl, Hh, Hr, Hu.
Qed.

End hiding.

(** Two results whose texts have the same length. *)
Lemma audit_hides_payloads_witness :
  let H := TreeCodec.codec in let H0 := FnvHasher.hasher in
  log_tool_call_audit "tc-1" "github" "search" (json_bool true) None true true false None None
    (for_single (json_bool true) (Some (json_string "a")) None 1 2 3) None
  = log_tool_call_audit "tc-1" "github" "search" (json_bool true) None true true false None None
    (for_single (json_bool true) (Some (json_string "b")) None 1 2 3) None.
Proof.
  intros H H0. apply audit_hides_payloads; vm_compute; reflexivity.
Defined.

(** *** Sums of reported usage *)

Fixpoint reported_sum (l : list (option N)) : option N :=
  match l with
  | [] => None
  | x :: l =>
      match x, reported_sum l with
      | Some a, Some b => Some (a + b)%N
      | Some a, None => Some a
      | None, r => r
      end
  end.

Lemma add_tokens_fold l acc :
  (forall a, acc = Some a -> a <= U128_MAX)%N ->
  Forall (fun x => forall a, x = Some a -> a <= U128_MAX)%N l ->
  fold_left add_tokens l acc
  = match acc, reported_sum l with
    | Some a, Some b => Some (N.min (a + b) U128_MAX)
    | Some a, None => Some a
    | None, Some b => Some (N.min b U128_MAX)
    | None, None => None
    end.
Proof.
  intros Ha Hl. revert acc Ha. induction Hl as [|x l Hx Hl IH]; intros acc Ha; [by destruct acc|].
  cbn [fold_left reported_sum]. rewrite IH.
  - destruct acc as [a|], x as [b|]; cbn [add_tokens]; destruct (reported_sum l) as [c|]; try done;
      f_equal; try specialize (Ha a eq_refl); try specialize (Hx b eq_refl); sat_lia.
  - intros v. destruct acc as [a|], x as [b|]; cbn [add_tokens]; intros [= <-]; auto using sat_add_le_max.
Qed.

Lemma usage_fold_input (f : ReportedTokenUsage -> option N) results acc :
  (forall u v, f (sum_reported_token_usage u v) = add_tokens (f u) (f v)) ->
  f (fold_left (fun aggregate result =>
       sum_reported_token_usage aggregate (reported_token_usage (Some result) None)) results acc)
  = fold_left add_tokens (map (fun r => f (reported_token_usage (Some r) None)) results) (f acc).
Proof. intros Hf. revert acc. induction results as [|r results IH]; intros acc; [done|]. simpl. by rewrite IH, Hf. Qed.

Lemma token_count_le value keys a : token_count value keys = Some a -> (a <= U128_MAX)%N.
Proof.
  unfold token_count. induction keys as [|k keys IH]; [done|]. cbn [find_map].
  destruct (json_get value k ≫= json_u128) as [b|] eqn:E; [|done]. intros [= <-].
  destruct (json_get value k) as [v|]; [|done]. cbn in E.
  destruct v; try done; by apply parse_unsigned_le in E.
Qed.

Lemma extract_input_le value u a :
  extract_reported_token_usage value = Some u -> usage_input u = Some a -> (a <= U128_MAX)%N.
Proof.
  unfold extract_reported_token_usage. induction (usage_candidates value) as [|c cs IH]; [done|]. cbn [find_map].
  destruct (candidate_usage c) as [v|] eqn:E; [|done]. intros [= ->]. unfold candidate_usage in E.
  destruct (usage_reported _); [|done]. injection E as <-. apply token_count_le.
Qed.

(** The input tokens of a batch are the saturated sum of what its results report, and none
    when none reports any. *)
Lemma batch_input_tokens results :
  usage_input (reported_token_usage_for_results results None)
  = option_map (fun total => N.min total U128_MAX)
      (reported_sum (map (fun r => usage_input (reported_token_usage (Some r) None)) results)).
Proof.
  unfold reported_token_usage_for_results.
  change (usage_input (merge_reported_token_usage ?a ?b)) with (opt_or (usage_input a) (usage_input b)).
  rewrite (usage_fold_input usage_input) by done. rewrite add_tokens_fold; [|done|].
  - cbn [usage_default usage_input]. by destruct (reported_sum _).
  - apply Forall_forall. intros x Hx a ->. apply list_elem_of_In, List.in_map_iff in Hx as (r & Hr & _).
    unfold reported_token_usage in Hr. cbn [mbind option_bind option_map unwrap_or] in Hr.
    destruct (extract_reported_token_usage r) as [u|] eqn:E; [|done].
    apply (extract_input_le r u); [done|]. cbn in Hr. by destruct (usage_input u).
Qed.

(** The texts of a trace are cut after 48 characters. *)
Lemma compact_trace_value_bounded value :
  chars_count (bytes (compact_trace_value value)) <= 49.
Proof.
  unfold compact_trace_value. pose proof (take_chars_count 48 (bytes (trim value))) as H.
  destruct (take_chars 48 (bytes (trim value))) as [front rest]. cbn [fst] in H.
  destruct rest as [|c rest]; rewrite ?bytes_app, bytes_of_bytes; [lia|].
  unfold chars_count in *. rewrite List.filter_app, length_app.
  change (length (List.filter _ (bytes "…"))) with 1. lia.
Qed.
