(* ===== verification/ToolCache.v ===== *)
(** * Tool lists: paging, validation and caching (src/upstream/tool_cache.rs, src/upstream.rs)

    - [ToolListPagination]: the pages of a tools/list reply and their limits;
    - [validate_tools_list_result];
    - the two caches, in memory and on disk, with their clocks as arguments (the memory
      cache uses the monotonic clock, the files the wall clock); the cache directory is a
      map from file names to the time of modification and the parsed file;
    - the single flight of loads as a step relation of interleaved callers. *)

From Stdlib Require Import Ascii.
From S2P Require Import Prelude RustStr BTree Json TextUtils Execution McpProtocol ServerConfig.

Definition TOOL_LIST_CACHE_TTL_MS : N := 30000.
Definition TOOL_LIST_CACHE_MAX_ENTRIES : nat := 128.
Definition UPSTREAM_TOOL_LIST_MAX_PAGES : N := 100.
Definition UPSTREAM_TOOL_LIST_MAX_TOOLS : N := 10000.
Definition UPSTREAM_TOOL_LIST_MAX_BYTES : N := 33554432.
Definition TOOL_LIST_DISK_CACHE_SCHEMA_VERSION : Z := 3.
Definition PACKAGE_VERSION : string := "0.8.2".

(** ** Pages *)

Record ToolListPagination := mkPages {
  page_tools : list JsonValue;
  seen_cursors : gset string;
  pages : N;
  page_bytes : N
}.

Definition pagination_new : ToolListPagination := mkPages [] ∅ 0 0.

Definition no_tools_array (server_name : string) : string :=
  "upstream server '" +:+ server_name +:+ "' tools/list result must contain a tools array".

Section pages.
Context `{SerdeJson}.

(** The loop over the tools of a page. *)
Fixpoint add_tools (server_name : string) (new : list JsonValue) (p : ToolListPagination)
    : ToolListPagination * option string :=
  match new with
  | [] => (p, None)
  | tool :: new =>
      let total := sat_add USIZE_MAX (page_bytes p) (str_len (to_compact_string tool)) in
      if (UPSTREAM_TOOL_LIST_MAX_BYTES <? total)%N then
        (mkPages (page_tools p) (seen_cursors p) (pages p) total,
         Some ("upstream server '" +:+ server_name +:+ "' tools/list exceeded the "
               +:+ N_to_string UPSTREAM_TOOL_LIST_MAX_BYTES +:+ "-byte cumulative safety limit"))
      else add_tools server_name new (mkPages (page_tools p ++ [tool]) (seen_cursors p) (pages p) total)
  end.

Definition next_cursor (server_name : string) (result : JsonValue) : Prelude.result (option string) string :=
  match value_at_path result ["nextCursor"] with
  | None | Some JNull => Ok None
  | Some (JString value) =>
      if str_is_empty (trim value) then Ok None
      else if (str_len value <=? 4096)%N then Ok (Some value)
      else Err ("upstream server '" +:+ server_name +:+ "' tools/list returned an oversized nextCursor")
  | Some _ => Err ("upstream server '" +:+ server_name +:+ "' tools/list returned a non-string nextCursor")
  end.

Definition add_page (server_name : string) (result : JsonValue) (p : ToolListPagination)
    : ToolListPagination * Prelude.result (option string) string :=
  match array_at_path result ["tools"] with
  | None => (p, Err (no_tools_array server_name))
  | Some new =>
      if (UPSTREAM_TOOL_LIST_MAX_TOOLS <? sat_add USIZE_MAX (len_N (page_tools p)) (len_N new))%N then
        (p, Err ("upstream server '" +:+ server_name +:+ "' tools/list exceeded the "
                 +:+ N_to_string UPSTREAM_TOOL_LIST_MAX_TOOLS +:+ "-tool safety limit"))
      else
        match add_tools server_name new p with
        | (p, Some error) => (p, Err error)
        | (p, None) =>
            let p := mkPages (page_tools p) (seen_cursors p) (sat_add USIZE_MAX (pages p) 1) (page_bytes p) in
            match next_cursor server_name result with
            | Err error => (p, Err error)
            | Ok None => (p, Ok None)
            | Ok (Some cursor) =>
                if (UPSTREAM_TOOL_LIST_MAX_PAGES <=? pages p)%N then
                  (p, Err ("upstream server '" +:+ server_name +:+ "' tools/list exceeded the "
                           +:+ N_to_string UPSTREAM_TOOL_LIST_MAX_PAGES +:+ "-page safety limit"))
                else if bool_decide (cursor ∈ seen_cursors p) then
                  (p, Err ("upstream server '" +:+ server_name
                           +:+ "' tools/list repeated pagination cursor '" +:+ cursor +:+ "'"))
                else (mkPages (page_tools p) ({[cursor]} ∪ seen_cursors p) (pages p) (page_bytes p),
                      Ok (Some cursor))
            end
        end
  end.

End pages.

Definition pagination_finish (p : ToolListPagination) : JsonValue :=
  json_object [("tools", json_array (page_tools p))].

(** ** Validation of a tool list *)

Fixpoint validate_tools (server : string) (index : N) (tools : list JsonValue) (names : gset string)
    : result unit string :=
  match tools with
  | [] => Ok tt
  | tool :: tools =>
      tool_name ←? ok_or (opt_filter non_empty_text (option_map trim (string_at_path tool ["name"])))
        ("upstream server '" +:+ server +:+ "' tools/list item " +:+ N_to_string index
         +:+ " has no non-empty name") ;;
      if bool_decide (tool_name ∈ names) then
        Err ("upstream server '" +:+ server +:+ "' tools/list returned duplicate tool name '" +:+ tool_name
             +:+ "'")
      else
        match value_at_path tool ["inputSchema"] with
        | Some (JObject _) => validate_tools server (index + 1) tools ({[tool_name]} ∪ names)
        | _ => Err ("upstream server '" +:+ server +:+ "' tool '" +:+ tool_name +:+ "' has no object inputSchema")
        end
  end.

Definition validate_tools_list_result (server : UpstreamServerConfig) (result : JsonValue)
    : Prelude.result JsonValue string :=
  tools ←? ok_or (value_at_path result ["tools"] ≫= as_array) (no_tools_array (name server)) ;;
  _ ←? validate_tools (name server) 0 tools ∅ ;;
  Ok (json_array tools).

(** ** Keys *)

Record ToolListCacheKey := mkCacheKey {
  key_root_path : string;
  key_server_name : string;
  key_settings_modified_ms : N;
  key_settings_len : N;
  key_server_fingerprint : string
}.

Definition cache_key_tuple (k : ToolListCacheKey) :=
  (key_root_path k, (key_server_name k, (key_settings_modified_ms k, (key_settings_len k,
   key_server_fingerprint k)))).

Lemma cache_key_tuple_inj a b : cache_key_tuple a = cache_key_tuple b -> a = b.
Proof. destruct a, b. unfold cache_key_tuple. simpl. by intros [=]; subst. Qed.

#[export, refine] Instance cache_key_order : KeyOrder ToolListCacheKey := {
  key_cmp a b := key_cmp (cache_key_tuple a) (cache_key_tuple b)
}.
Proof.
  - intros a b. rewrite key_cmp_eq. split; [apply cache_key_tuple_inj|by intros ->].
  - intros a b. apply key_cmp_antisym.
  - intros a b c. apply key_cmp_trans.
Defined.

#[export] Instance cache_key_eq_dec : EqDecision ToolListCacheKey.
Proof. solve_decision. Defined.

#[export, refine] Instance cache_key_countable : Countable ToolListCacheKey :=
  inj_countable' cache_key_tuple (fun '(r, (s, (m, (l, f)))) => mkCacheKey r s m l f) _.
Proof. by intros []. Defined.

Section fingerprints.
Context `{Hasher}.

Definition unit_separator : string := String "031" EmptyString.

Definition fingerprint_secret_value (value : string) : string :=
  "len" +:+ N_to_string (str_len value) +:+ "-hash" +:+ hex16 (hash_str value).

Definition fingerprint_secret_map (values : list (string * string)) : string :=
  join unit_separator (map (fun '(key, value) => key +:+ ":" +:+ fingerprint_secret_value value) values).

Definition server_fingerprint (server : UpstreamServerConfig) : string :=
  "protocol=" +:+ CURRENT_PROTOCOL_VERSION
  +:+ "|enabled=" +:+ (if enabled server then "true" else "false")
  +:+ "|type=" +:+ source_type server
  +:+ "|command=" +:+ unwrap_or (command server) EmptyString
  +:+ "|args=" +:+ join unit_separator (args server)
  +:+ "|env=" +:+ fingerprint_secret_map (env server)
  +:+ "|headers=" +:+ fingerprint_secret_map (headers server)
  +:+ "|cwd=" +:+ unwrap_or (cwd server) EmptyString
  +:+ "|url=" +:+ unwrap_or (url server) EmptyString
  +:+ "|timeout=" +:+ N_to_string (timeout_ms server)
  +:+ "|execution=" +:+ policy_fingerprint (execution server).

(** [cache_root] is the canonical root path, [settings] the fingerprint of the settings files. *)
Definition tool_list_cache_key (cache_root : string) (settings : N * N) (server : UpstreamServerConfig)
    : ToolListCacheKey :=
  mkCacheKey cache_root (name server) (fst settings) (snd settings) (server_fingerprint server).

End fingerprints.

Definition feed_byte (hash : N) (byte : N) : N := wrapping_mul64 (N.lxor hash byte) 1099511628211.

Definition feed_stable_hash (hash : N) (text : string) : N :=
  feed_byte (fold_left (fun hash c => feed_byte hash (code c)) (bytes text) hash) 255.

Definition disk_cache_key_hash (key : ToolListCacheKey) : string :=
  hex16 (fold_left feed_stable_hash
    [key_root_path key; key_server_name key; N_to_string (key_settings_modified_ms key);
     N_to_string (key_settings_len key); key_server_fingerprint key; PACKAGE_VERSION;
     CURRENT_PROTOCOL_VERSION] 14695981039346656037%N).

Definition stem_char (ch : ascii) : ascii :=
  if is_ascii_alphanumeric ch || existsb (Ascii.eqb ch) ["-"; "_"; "."]%char then ch else "_"%char.

(** [trim_matches] of ['.'], ['_'] and ['-']. *)
Definition stem_edge (ch : ascii) : bool := existsb (Ascii.eqb ch) ["."; "_"; "-"]%char.

Fixpoint drop_edge (l : list ascii) : list ascii :=
  match l with [] => [] | a :: l' => if stem_edge a then drop_edge l' else l end.

Definition safe_cache_file_stem (value : string) : string :=
  let chars := fst (take_chars 48 (bytes (map_chars stem_char "_" value))) in
  let stem := of_bytes (rev (drop_edge (rev (drop_edge chars)))) in
  if str_is_empty stem then "server" else stem.

Definition disk_cache_file_name (key : ToolListCacheKey) : string :=
  safe_cache_file_stem (key_server_name key) +:+ "-" +:+ disk_cache_key_hash key +:+ ".json".

(** ** The caches *)

Record CachedToolList := mkCached { stored_at : N; cached_tools : JsonValue }.

Definition MemoryCache : Type := list (ToolListCacheKey * CachedToolList).
Definition DiskCache : Type := gmap string (N * JsonValue).

(** The fuel is the number of entries. *)
Fixpoint prune_loop (fuel : nat) (cache : MemoryCache) : MemoryCache :=
  match fuel with
  | O => cache
  | S fuel =>
      if decide (TOOL_LIST_CACHE_MAX_ENTRIES < length cache) then
        match min_by_key (fun entry => stored_at (snd entry)) cache with
        | Some (oldest_key, _) => prune_loop fuel (bt_remove oldest_key cache)
        | None => cache
        end
      else cache
  end.

Definition prune_tool_list_cache (cache : MemoryCache) : MemoryCache := prune_loop (length cache) cache.

Definition read_memory_cached_tools (key : ToolListCacheKey) (now : N) (cache : MemoryCache)
    : MemoryCache * option JsonValue :=
  match bt_get key cache with
  | None => (cache, None)
  | Some entry =>
      if (now - stored_at entry <=? TOOL_LIST_CACHE_TTL_MS)%N then (cache, Some (cached_tools entry))
      else (bt_remove key cache, None)
  end.

Definition write_memory_cached_tools (key : ToolListCacheKey) (now : N) (tools : JsonValue)
    (cache : MemoryCache) : MemoryCache :=
  prune_tool_list_cache (bt_insert key (mkCached now tools) cache).

Definition u128_at_path (value : JsonValue) (path : list string) : option N :=
  match value_at_path value path with
  | Some (JNumber text) | Some (JString text) => parse_u128 text
  | _ => None
  end.

(** The checks of a cache file, without the clock: whose tools it holds and since when. *)
Definition disk_entry (key : ToolListCacheKey) (value : JsonValue) : option N :=
  if negb (bool_decide ((value_at_path value ["schemaVersion"] ≫= as_i64)
                        = Some TOOL_LIST_DISK_CACHE_SCHEMA_VERSION)) then None
  else if negb (bool_decide (string_at_path value ["keyHash"] = Some (disk_cache_key_hash key))) then None
  else if negb (bool_decide (string_at_path value ["serverName"] = Some (key_server_name key))) then None
  else u128_at_path value ["storedAtUnixMs"].

(** [unix_now] is [None] when the wall clock reads before 1970. *)
Definition read_disk_cached_tools (key : ToolListCacheKey) (unix_now : option N) (disk : DiskCache)
    : DiskCache * option JsonValue :=
  match disk !! disk_cache_file_name key with
  | None => (disk, None)
  | Some (_, value) =>
      match disk_entry key value, unix_now with
      | Some stored, Some now =>
          if (sat_add U128_MAX now 300000 <? stored)%N
             || (sat_add U128_MAX stored TOOL_LIST_CACHE_TTL_MS <? now)%N
          then (delete (disk_cache_file_name key) disk, None)
          else
            match value_at_path value ["tools"] with
            | Some (JArray items) => (disk, Some (JArray items))
            | _ => (disk, None)
            end
      | _, _ => (disk, None)
      end
  end.

Definition disk_envelope (key : ToolListCacheKey) (stored : N) (items : list JsonValue) : JsonValue :=
  json_object
    [("schemaVersion", json_number_i64 TOOL_LIST_DISK_CACHE_SCHEMA_VERSION);
     ("storedAtUnixMs", json_string (N_to_string stored)); ("keyHash", json_string (disk_cache_key_hash key));
     ("serverName", json_string (key_server_name key)); ("mcpaceVersion", json_string PACKAGE_VERSION);
     ("mcpProtocolVersion", json_string CURRENT_PROTOCOL_VERSION); ("toolCount", json_number (len_N items));
     ("tools", json_array items)].

(** Newest first; equal times by path. *)
Definition disk_order (a b : string * (N * JsonValue)) : Prop :=
  (b.2.1 < a.2.1)%N \/ (a.2.1 = b.2.1 /\ String.le a.1 b.1).

#[export] Instance disk_order_dec : RelDecision disk_order.
Proof. intros a b. unfold disk_order. solve_decision. Defined.

Definition prune_disk_tool_cache (disk : DiskCache) : DiskCache :=
  list_to_map (take TOOL_LIST_CACHE_MAX_ENTRIES (merge_sort disk_order (map_to_list disk))).

(** [written]: the directory exists and the atomic write succeeds; [modified] is the time the
    file system gives the new file. *)
Definition write_disk_cached_tools (key : ToolListCacheKey) (unix_now : option N) (written : bool)
    (modified : N) (tools : JsonValue) (disk : DiskCache) : DiskCache :=
  match tools, unix_now with
  | JArray items, Some stored =>
      if written then
        prune_disk_tool_cache
          (<[disk_cache_file_name key := (modified, disk_envelope key stored items)]> disk)
      else disk
  | _, _ => disk
  end.

Record ToolCaches := mkCaches { memory : MemoryCache; disk : DiskCache }.

(** What the clocks and the file system answer during one access. *)
Record CacheIo := mkCacheIo { mono_now : N; unix_now : option N; io_written : bool; io_modified : N }.

Definition read_cached_tools (io : CacheIo) (key : ToolListCacheKey) (c : ToolCaches)
    : ToolCaches * option JsonValue :=
  match read_memory_cached_tools key (mono_now io) (memory c) with
  | (mem, Some tools) => (mkCaches mem (disk c), Some tools)
  | (mem, None) =>
      match read_disk_cached_tools key (unix_now io) (disk c) with
      | (dsk, Some tools) => (mkCaches (write_memory_cached_tools key (mono_now io) tools mem) dsk, Some tools)
      | (dsk, None) => (mkCaches mem dsk, None)
      end
  end.

Definition write_cached_tools (io : CacheIo) (key : ToolListCacheKey) (tools : JsonValue) (c : ToolCaches)
    : ToolCaches :=
  mkCaches (write_memory_cached_tools key (mono_now io) tools (memory c))
    (write_disk_cached_tools key (unix_now io) (io_written io) (io_modified io) tools (disk c)).

(** ** Fetching all pages

    The loop of [run_stdio_tools_list] and of the pooled [list_tools]: [reply] is what the
    upstream answers to each request.  [None]: the fuel ran out. *)

Section fetching.
Context `{SerdeJson} (server_name : string) (reply : N -> option string -> result JsonValue string).

Fixpoint fetch_pages (fuel : nat) (page : N) (cursor : option string) (p : ToolListPagination)
    : option (N * result JsonValue string) :=
  match fuel with
  | O => None
  | S fuel =>
      match reply page cursor with
      | Err error => Some ((page + 1)%N, Err error)
      | Ok page_result =>
          match add_page server_name page_result p with
          | (_, Err error) => Some ((page + 1)%N, Err error)
          | (p, Ok None) => Some ((page + 1)%N, Ok (pagination_finish p))
          | (p, Ok (Some cursor)) => fetch_pages fuel (page + 1) (Some cursor) p
          end
      end
  end.

Definition tool_size (tool : JsonValue) : N := str_len (to_compact_string tool).

Record pages_ok (p : ToolListPagination) : Prop := {
  ok_tools : (len_N (page_tools p) <= UPSTREAM_TOOL_LIST_MAX_TOOLS)%N;
  ok_bytes : page_bytes p = sum_by tool_size (page_tools p);
  ok_limit : (page_bytes p <= UPSTREAM_TOOL_LIST_MAX_BYTES)%N
}.

Lemma sum_by_app {A} (f : A -> N) l k : sum_by f (l ++ k) = (sum_by f l + sum_by f k)%N.
Proof. induction l as [|x l IH]; simpl; [done|]. rewrite IH. lia. Qed.

Lemma add_tools_ok new p p' error :
  page_bytes p = sum_by tool_size (page_tools p) -> (page_bytes p <= UPSTREAM_TOOL_LIST_MAX_BYTES)%N ->
  add_tools server_name new p = (p', error) ->
  pages p' = pages p /\ seen_cursors p' = seen_cursors p /\
  (error = None -> page_tools p' = page_tools p ++ new /\
     page_bytes p' = sum_by tool_size (page_tools p') /\ (page_bytes p' <= UPSTREAM_TOOL_LIST_MAX_BYTES)%N).
Proof.
  revert p. induction new as [|tool new IH]; intros p Hb Hl; cbn [add_tools].
  - intros [= <- <-]. split_and!; [done|done|]. intros _. by rewrite app_nil_r.
  - destruct (N.ltb_spec UPSTREAM_TOOL_LIST_MAX_BYTES (sat_add USIZE_MAX (page_bytes p) (str_len (to_compact_string tool))))
      as [Hlt|Hge].
    + by intros [= <- <-].
    + intros Hadd. apply IH in Hadd as (Hp & Hs & Hok); cbn [page_bytes page_tools pages seen_cursors] in *.
      * split_and!; [done|done|]. intros He. destruct (Hok He) as (Ht & Hb' & Hl').
        split_and!; [|done|done]. by rewrite Ht, <- app_assoc.
      * rewrite sum_by_app, <- Hb. cbn [sum_by]. rewrite N.add_0_r. exact (sat_add_fits _ _ _ _ Hge eq_refl).
      * exact Hge.
Qed.

Lemma add_page_ok result p p' cursor :
  pages_ok p -> (pages p < UPSTREAM_TOOL_LIST_MAX_PAGES)%N ->
  add_page server_name result p = (p', Ok cursor) ->
  pages_ok p' /\ pages p' = (pages p + 1)%N /\
  (cursor <> None -> (pages p' < UPSTREAM_TOOL_LIST_MAX_PAGES)%N).
Proof.
  intros [Ht Hb Hl] Hp. unfold add_page. destruct (array_at_path result ["tools"]) as [new|]; [|done].
  destruct (N.ltb_spec UPSTREAM_TOOL_LIST_MAX_TOOLS (sat_add USIZE_MAX (len_N (page_tools p)) (len_N new))) as [|Hn]; [done|].
  destruct (add_tools server_name new p) as [q error] eqn:Ea.
  apply add_tools_ok in Ea as (Hq & _ & Hok); [|done..]. destruct error as [e|]; [done|].
  destruct (Hok eq_refl) as (Htools & Hb' & Hl').
  assert (Hpages : sat_add USIZE_MAX (pages q) 1 = (pages p + 1)%N).
  { rewrite Hq. apply sat_add_exact. change UPSTREAM_TOOL_LIST_MAX_PAGES with 100%N in Hp.
    change USIZE_MAX with 18446744073709551615%N. lia. }
  assert (Hqok : pages_ok (mkPages (page_tools q) (seen_cursors q) (sat_add USIZE_MAX (pages q) 1) (page_bytes q))).
  { split; cbn [page_tools page_bytes]; [|done|done]. rewrite Htools, len_N_app.
    by rewrite <- (sat_add_fits _ _ _ _ Hn eq_refl). }
  destruct (next_cursor server_name result) as [[c|]|]; [|intros [= <- <-]; done|done].
  cbn [pages seen_cursors]. rewrite Hpages.
  destruct (N.leb_spec UPSTREAM_TOOL_LIST_MAX_PAGES (pages p + 1)) as [|Hlt]; [done|].
  destruct (bool_decide _); [done|]. intros [= <- <-].
  rewrite Hpages in Hqok. destruct Hqok. split_and!; [by constructor|done|done].
Qed.

Lemma fetch_pages_bounded fuel page cursor p :
  pages_ok p -> pages p = page -> (page < UPSTREAM_TOOL_LIST_MAX_PAGES)%N ->
  (UPSTREAM_TOOL_LIST_MAX_PAGES <= page + N.of_nat fuel)%N ->
  exists requests outcome, fetch_pages fuel page cursor p = Some (requests, outcome) /\
    (requests <= UPSTREAM_TOOL_LIST_MAX_PAGES)%N /\
    (forall value, outcome = Ok value -> exists q, value = pagination_finish q /\ pages_ok q).
Proof.
  revert page cursor p. induction fuel as [|fuel IH]; intros page cursor p Hok Hp Hlt Hf; [lia|].
  cbn [fetch_pages]. destruct (reply page cursor) as [r|e].
  2: { eexists _, _. split; [done|]. split; [lia|done]. }
  destruct (add_page server_name r p) as [q [[c|]|e]] eqn:Ea.
  - pose proof (add_page_ok _ _ _ _ Hok ltac:(by subst) Ea) as (Hq & Hpq & Hc).
    specialize (Hc ltac:(done)). apply IH; [done|lia|lia|lia].
  - pose proof (add_page_ok _ _ _ _ Hok ltac:(by subst) Ea) as (Hq & Hpq & _).
    eexists _, _. split; [done|]. split; [lia|]. intros v [= <-]. by exists q.
  - eexists _, _. split; [done|]. split; [lia|done].
Qed.

(** Whatever an upstream answers, listing its tools ends after at most 100
    requests, and a list that is returned holds at most 10,000 tools whose texts together
    have at most 32 MiB. *)
Theorem tool_list_paging_bounded :
  exists requests outcome,
    fetch_pages 100 0 None pagination_new = Some (requests, outcome) /\ (requests <= 100)%N /\
    forall value, outcome = Ok value ->
      exists items, value = json_object [("tools", json_array items)] /\
        (len_N items <= 10000)%N /\ (sum_by tool_size items <= 33554432)%N.
Proof.
  destruct (fetch_pages_bounded 100 0 None pagination_new) as (r & o & Hf & Hr & Ho).
  - by split; vm_compute.
  - done.
  - done.
  - done.
  - exists r, o. split_and!; [done|done|]. intros v Hv. destruct (Ho v Hv) as (q & -> & [Ht Hb Hl]).
    exists (page_tools q). split_and!; [done|done|]. by rewrite <- Hb.
Qed.

End fetching.

(** ** Validated lists *)

Definition tool_name_of (tool : JsonValue) : option string :=
  opt_filter non_empty_text (option_map trim (string_at_path tool ["name"])).

Definition has_schema (tool : JsonValue) : Prop :=
  exists m, value_at_path tool ["inputSchema"] = Some (JObject m).

Lemma validate_tools_Ok server index tools names :
  validate_tools server index tools names = Ok tt <->
  exists ns, Forall2 (fun tool n => tool_name_of tool = Some n /\ has_schema tool) tools ns /\
    NoDup ns /\ forall n, n ∈ ns -> n ∉ names.
Proof.
  revert index names. induction tools as [|tool tools IH]; intros index names; cbn [validate_tools].
  - split; [|done]. intros _. exists []. split_and!; [constructor|constructor|set_solver].
  - change (opt_filter non_empty_text _) with (tool_name_of tool).
    destruct (tool_name_of tool) as [n|] eqn:En; cbn [ok_or].
    2: { split; [done|]. intros (ns & Hf & _). inversion Hf as [|? ? ? ? [? _]]; congruence. }
    destruct (bool_decide_reflect (n ∈ names)) as [Hin|Hout].
    + split; [done|]. intros (ns & Hf & _ & Hnew). inversion Hf as [|? n' ? ? [Hn' _]]; subst.
      rewrite En in Hn'. injection Hn' as <-. exfalso. by apply (Hnew n); [left|].
    + destruct (value_at_path tool ["inputSchema"]) as [[| | | | |m]|] eqn:Es;
        try (split; [done|]; intros (ns & Hf & _); inversion Hf as [|? ? ? ? [_ [m' Hm']]]; congruence).
      rewrite IH. split.
      * intros (ns & Hf & Hnd & Hnew). exists (n :: ns). split_and!.
        -- constructor; [split; [done|by exists m]|done].
        -- constructor; [|done]. intros Hn. by apply Hnew in Hn; set_solver.
        -- intros x [-> | Hx]%elem_of_cons; [done|]. specialize (Hnew x Hx). set_solver.
      * intros (ns & Hf & Hnd & Hnew). inversion Hf as [|? n' ? ns' [Hn' _] Hf']; subst.
        rewrite En in Hn'. injection Hn' as <-. exists ns'. apply NoDup_cons in Hnd as [Hn Hnd].
        split_and!; [done|done|]. intros x Hx [->%elem_of_singleton|Hx']%elem_of_union; [done|].
        apply (Hnew x); [by right|done].
Qed.

(** A tool list passes validation exactly when it is an array of tools with
    non-empty, pairwise distinct names and an object as input schema each, and it is then
    returned unchanged. *)
Theorem validated_tool_lists_exact server result out :
  validate_tools_list_result server result = Ok out <->
  exists items ns, value_at_path result ["tools"] = Some (JArray items) /\ out = JArray items /\
    Forall2 (fun tool n => tool_name_of tool = Some n /\ has_schema tool) items ns /\ NoDup ns.
Proof.
  unfold validate_tools_list_result.
  destruct (value_at_path result ["tools"]) as [[| | | |items|]|] eqn:Et; cbn [mbind option_bind as_array ok_or];
    try (split; [done|by intros (? & ? & [=] & _)]).
  destruct (validate_tools (name server) 0 items ∅) as [[]|e] eqn:Ev.
  - apply validate_tools_Ok in Ev as (ns & Hf & Hnd & _). split.
    + intros [= <-]. by exists items, ns.
    + by intros (items' & ns' & [= <-] & -> & _).
  - split; [done|]. intros (items' & ns & [= <-] & -> & Hf & Hnd).
    enough (validate_tools (name server) 0 items ∅ = Ok tt) by congruence.
    apply validate_tools_Ok. exists ns. split_and!; [done|done|set_solver].
Qed.

(** A list of two tools. *)
Definition sample_tool (n : string) : JsonValue :=
  json_object [("name", json_string n); ("inputSchema", json_object [])].

Definition sample_cache_server : UpstreamServerConfig :=
  mkServer "github" true None "stdio" None [] [] [] None None 1000 conservative [].

Lemma validated_tool_lists_exact_witness :
  exists items ns, JArray [sample_tool "search"; sample_tool " open "] = JArray items /\
    Forall2 (fun tool n => tool_name_of tool = Some n /\ has_schema tool) items ns /\ NoDup ns.
Proof.
  destruct (proj1 (validated_tool_lists_exact sample_cache_server
      (json_object [("tools", json_array [sample_tool "search"; sample_tool " open "])])
      (JArray [sample_tool "search"; sample_tool " open "])) ltac:(vm_compute; reflexivity))
    as (items & ns & _ & H & Hf & Hn).
  by exists items, ns.
Defined.

(** ** The memory cache stays small *)

Definition memory_ok (cache : MemoryCache) : Prop :=
  bt_wf cache /\ length cache <= TOOL_LIST_CACHE_MAX_ENTRIES.

Lemma prune_loop_ok fuel cache :
  bt_wf cache -> length cache <= TOOL_LIST_CACHE_MAX_ENTRIES + fuel ->
  memory_ok (prune_loop fuel cache) /\ (forall e, e ∈ prune_loop fuel cache -> e ∈ cache).
Proof.
  revert cache. induction fuel as [|fuel IH]; intros cache Hwf Hl; cbn [prune_loop].
  { split; [split; [done|lia]|done]. }
  case_decide as Hd; [|split; [split; [done|lia]|done]].
  destruct (min_by_key _ cache) as [[k e]|] eqn:Em.
  - apply min_by_key_Some in Em as [Hin _]. apply (bt_elem_get _ _ _ Hwf) in Hin.
    pose proof (bt_length_remove _ _ _ Hin) as Hr.
    destruct (IH (bt_remove k cache)) as [H1 H2]; [by apply bt_remove_wf|lia|].
    split; [done|]. intros x Hx. eapply bt_remove_elem. by apply H2.
  - apply min_by_key_None in Em as ->. simpl in Hd. lia.
Qed.

Lemma write_memory_ok key now tools cache :
  memory_ok cache ->
  memory_ok (write_memory_cached_tools key now tools cache) /\
  (forall k e, (k, e) ∈ write_memory_cached_tools key now tools cache ->
     (k, e) = (key, mkCached now tools) \/ (k, e) ∈ cache).
Proof.
  intros [Hwf Hl]. unfold write_memory_cached_tools, prune_tool_list_cache.
  destruct (prune_loop_ok (length (bt_insert key (mkCached now tools) cache))
              (bt_insert key (mkCached now tools) cache)) as [H1 H2]; [by apply bt_insert_wf|lia|].
  split; [done|]. intros k e Hin%H2. by apply bt_insert_elem in Hin.
Qed.

Lemma read_memory_ok key now cache mem out :
  memory_ok cache -> read_memory_cached_tools key now cache = (mem, out) ->
  memory_ok mem /\ (forall e, e ∈ mem -> e ∈ cache) /\
  (forall tools, out = Some tools -> exists e, (key, e) ∈ cache /\ cached_tools e = tools /\
     (now - stored_at e <= TOOL_LIST_CACHE_TTL_MS)%N).
Proof.
  intros [Hwf Hl]. unfold read_memory_cached_tools. destruct (bt_get key cache) as [e|] eqn:Eg.
  2: { intros [= <- <-]. done. }
  destruct (N.leb_spec (now - stored_at e) TOOL_LIST_CACHE_TTL_MS); intros [= <- <-].
  - split_and!; [done|done|]. intros t [= <-]. exists e. split_and!; [by apply bt_get_elem|done|done].
  - split_and!; [split; [by apply bt_remove_wf|]|intros x; apply bt_remove_elem|done].
    apply bt_length_remove in Eg. lia.
Qed.

(** ** Files *)

Lemma envelope_at key stored items :
  let v := disk_envelope key stored items in
  string_at_path v ["keyHash"] = Some (disk_cache_key_hash key) /\
  string_at_path v ["serverName"] = Some (key_server_name key) /\
  value_at_path v ["storedAtUnixMs"] = Some (JString (N_to_string stored)) /\
  value_at_path v ["tools"] = Some (JArray items).
Proof.
  unfold disk_envelope, string_at_path. cbv zeta.
  generalize (json_number_i64 TOOL_LIST_DISK_CACHE_SCHEMA_VERSION), (N_to_string stored),
    (disk_cache_key_hash key), (key_server_name key), (json_number (len_N items)).
  intros a b c d g. vm_compute. split_and!; reflexivity.
Qed.

(** What a file written for one key tells a reader of another. *)
Lemma disk_entry_envelope key key' stored items t :
  disk_entry key (disk_envelope key' stored items) = Some t ->
  t = stored /\ disk_cache_key_hash key = disk_cache_key_hash key' /\ key_server_name key = key_server_name key'.
Proof.
  unfold disk_entry. destruct (envelope_at key' stored items) as (-> & -> & Hs & _).
  destruct (bool_decide (_ = Some TOOL_LIST_DISK_CACHE_SCHEMA_VERSION)); [|done]. cbn [negb].
  destruct (bool_decide_reflect (Some (disk_cache_key_hash key') = Some (disk_cache_key_hash key))) as [Hh|]; [|done].
  destruct (bool_decide_reflect (Some (key_server_name key') = Some (key_server_name key))) as [Hn|]; [|done].
  cbn [negb]. unfold u128_at_path. rewrite Hs. intros Hp.
  split_and!; [|congruence|congruence].
  unfold parse_u128 in Hp. destruct (N.leb_spec stored U128_MAX) as [Hle|Hgt].
  - rewrite parse_unsigned_N_to_string in Hp by done. congruence.
  - exfalso. pose proof (parse_unsigned_le _ _ _ Hp) as Hle. unfold parse_unsigned in Hp.
    destruct (N_to_string_head stored) as (c & s & E & Hd). rewrite E in Hp.
    rewrite plus_match_digit in Hp by done. rewrite <- E, parse_digits_N_to_string in Hp.
    apply opt_filter_Some in Hp as [[= <-] _]. lia.
Qed.

Lemma prune_disk_lookup disk f v : prune_disk_tool_cache disk !! f = Some v -> disk !! f = Some v.
Proof.
  unfold prune_disk_tool_cache. intros Hl%elem_of_list_to_map_2.
  assert (H : (f, v) ∈ merge_sort disk_order (map_to_list disk)).
  { rewrite <- (take_drop TOOL_LIST_CACHE_MAX_ENTRIES (merge_sort _ _)). apply elem_of_app. by left. }
  rewrite merge_sort_Permutation in H. by apply elem_of_map_to_list in H.
Qed.

(** ** How old a served list can be

    Several processes share the cache directory; here one process is followed, the loads of
    the others are [write_disk_cached_tools].  Both clocks advance together: at time [t] the
    monotonic clock reads [t] and the wall clock [Some t].  [loads] are the lists that were
    fetched from upstream servers, with their keys and times. *)

Record CacheSystem := mkCacheSystem {
  clock : N;
  caches : ToolCaches;
  loads : list (ToolListCacheKey * N * JsonValue)
}.

Definition io_at (t : N) (written : bool) (modified : N) : CacheIo := mkCacheIo t (Some t) written modified.

Inductive cache_step (s : CacheSystem) : CacheSystem -> Prop :=
| cache_load key items t written modified :
    (clock s <= t)%N ->
    cache_step s (mkCacheSystem t (write_cached_tools (io_at t written modified) key (JArray items) (caches s))
                    ((key, t, JArray items) :: loads s))
| cache_foreign_load key items t written modified :
    (clock s <= t)%N ->
    cache_step s (mkCacheSystem t
                    (mkCaches (memory (caches s))
                       (write_disk_cached_tools key (Some t) written modified (JArray items) (disk (caches s))))
                    ((key, t, JArray items) :: loads s))
| cache_read key t :
    (clock s <= t)%N ->
    cache_step s (mkCacheSystem t (fst (read_cached_tools (io_at t false 0) key (caches s))) (loads s)).

Definition cache_start (s : CacheSystem) : Prop := caches s = mkCaches [] ∅ /\ loads s = [].

Definition cache_reachable : CacheSystem -> Prop := reachable cache_start cache_step.

(** [tools] was loaded at [t0] for a key of the same server and fingerprint hash. *)
Definition loaded_as (s : CacheSystem) (key : ToolListCacheKey) (t0 : N) (tools : JsonValue) : Prop :=
  exists key', (key', t0, tools) ∈ loads s /\ disk_cache_key_hash key' = disk_cache_key_hash key /\
    key_server_name key' = key_server_name key.

Record cache_inv (s : CacheSystem) : Prop := {
  ci_memory : memory_ok (memory (caches s));
  ci_fresh : forall k e, (k, e) ∈ memory (caches s) ->
    (stored_at e <= clock s)%N /\ exists t0, loaded_as s k t0 (cached_tools e) /\
      (t0 <= stored_at e)%N /\ (stored_at e <= t0 + TOOL_LIST_CACHE_TTL_MS)%N;
  ci_disk : forall f m v, disk (caches s) !! f = Some (m, v) ->
    exists k t0 items, (k, t0, JArray items) ∈ loads s /\ v = disk_envelope k t0 items /\ (t0 <= clock s)%N
}.

Lemma write_disk_lookup key t written modified items d f v :
  write_disk_cached_tools key (Some t) written modified (JArray items) d !! f = Some v ->
  v = (modified, disk_envelope key t items) \/ d !! f = Some v.
Proof.
  unfold write_disk_cached_tools. destruct written; [|by right]. intros H%prune_disk_lookup.
  apply lookup_insert_Some in H as [[_ H]|[_ H]]; [by left|by right].
Qed.

Lemma read_disk_served key t d d' tools :
  read_disk_cached_tools key (Some t) d = (d', Some tools) ->
  d' = d /\ exists f m v stored, d !! f = Some (m, v) /\ disk_entry key v = Some stored /\
    value_at_path v ["tools"] = Some tools /\
    (t <= sat_add U128_MAX stored TOOL_LIST_CACHE_TTL_MS)%N.
Proof.
  unfold read_disk_cached_tools. destruct (d !! _) as [[m v]|] eqn:El; [|done].
  destruct (disk_entry key v) as [stored|] eqn:Ed; [|done].
  destruct (_ || _) eqn:Eb; [done|]. apply orb_false_iff in Eb as [_ Eb%N.ltb_ge].
  destruct (value_at_path v ["tools"]) as [[| | | |items|]|] eqn:Ev; try done. intros [= <- <-].
  split; [done|]. by exists (disk_cache_file_name key), m, v, stored.
Qed.

Lemma read_disk_subset key t d f v :
  fst (read_disk_cached_tools key t d) !! f = Some v -> d !! f = Some v.
Proof.
  unfold read_disk_cached_tools. destruct (d !! _) as [[m w]|]; [|done].
  destruct (disk_entry key w), t; try done. destruct (_ || _); cbn [fst]; [by intros [_ H]%lookup_delete_Some|].
  by destruct (value_at_path w ["tools"]) as [[]|].
Qed.

Lemma sat_add_le max a b : (sat_add max a b <= a + b)%N.
Proof. sat_lia. Qed.

(** The list a read returns was loaded at most [TTL] ago when it comes from a file, and at
    most twice as long ago when it comes from memory. *)
Lemma read_served s key t tools :
  cache_inv s -> (clock s <= t)%N ->
  snd (read_cached_tools (io_at t false 0) key (caches s)) = Some tools ->
  exists t0, loaded_as s key t0 tools /\ (t0 <= t <= t0 + 2 * TOOL_LIST_CACHE_TTL_MS)%N.
Proof.
  intros [Hm Hf Hd] Ht. unfold read_cached_tools. cbn [mono_now unix_now io_at].
  destruct (read_memory_cached_tools key t (memory (caches s))) as [mem [out|]] eqn:Er;
    pose proof (read_memory_ok _ _ _ _ _ Hm Er) as (_ & _ & Hout).
  - intros [= <-]. destruct (Hout _ eq_refl) as (e & Hin & <- & Hage).
    destruct (Hf _ _ Hin) as (Hs & t0 & Hl & H1 & H2). exists t0. split; [done|lia].
  - destruct (read_disk_cached_tools key (Some t) (disk (caches s))) as [d [out|]] eqn:Ed; [|done].
    intros [= <-]. apply read_disk_served in Ed as (_ & f & m & v & stored & Hl & He & Hv & Hage).
    destruct (Hd _ _ _ Hl) as (k & t0 & items & Hload & -> & Hc).
    apply disk_entry_envelope in He as (-> & Hh & Hn).
    destruct (envelope_at k t0 items) as (_ & _ & _ & Ht0). rewrite Ht0 in Hv. injection Hv as <-.
    exists t0. split; [by exists k|]. pose proof (sat_add_le U128_MAX t0 TOOL_LIST_CACHE_TTL_MS). lia.
Qed.

Lemma loaded_as_more s key t0 tools c x :
  loaded_as s key t0 tools -> loaded_as (mkCacheSystem c (caches s) (x :: loads s)) key t0 tools.
Proof. intros (k & Hk & H). exists k. split; [by right|done]. Qed.

Lemma cache_inv_step s s' : cache_inv s -> cache_step s s' -> cache_inv s'.
Proof.
  intros Hinv. pose proof Hinv as [Hm Hf Hd]. destruct 1 as [key items t written modified Ht|key items t written modified Ht|key t Ht].
  - destruct (write_memory_ok key t (JArray items) _ Hm) as [H1 H2].
    split; cbn [caches clock loads write_cached_tools memory disk mono_now unix_now io_at io_written io_modified].
    + exact H1.
    + intros k e [[= -> ->]|Hin]%H2.
      * cbn [stored_at cached_tools]. split; [lia|]. exists t. split; [|lia]. exists key. split; [by left|done].
      * destruct (Hf _ _ Hin) as (Hs & t0 & Hl & H3). split; [lia|]. exists t0. split; [|done].
        by apply (loaded_as_more s _ _ _ t).
    + intros f m v [[= -> ->]|Hin]%write_disk_lookup.
      * exists key, t, items. split; [by left|]. split; [done|lia].
      * destruct (Hd _ _ _ Hin) as (k & t0 & its & Hl & -> & Hc). exists k, t0, its. split; [by right|]. split; [done|lia].
  - split; cbn [caches clock loads memory disk].
    + exact Hm.
    + intros k e Hin. destruct (Hf _ _ Hin) as (Hs & t0 & Hl & H3). split; [lia|]. exists t0. split; [|done].
      by apply (loaded_as_more s _ _ _ t).
    + intros f m v [[= -> ->]|Hin]%write_disk_lookup.
      * exists key, t, items. split; [by left|]. split; [done|lia].
      * destruct (Hd _ _ _ Hin) as (k & t0 & its & Hl & -> & Hc). exists k, t0, its. split; [by right|]. split; [done|lia].
  - assert (Hsub : forall f m v, disk (fst (read_cached_tools (io_at t false 0) key (caches s))) !! f = Some (m, v) ->
      exists k t0 items, (k, t0, JArray items) ∈ loads s /\ v = disk_envelope k t0 items /\ (t0 <= t)%N).
    { intros f m v Hv. destruct (Hd f m v) as (k & t0 & its & H1 & H2 & H3).
      - unfold read_cached_tools in Hv. destruct (read_memory_cached_tools _ _ _) as [mem [out|]]; [done|].
        destruct (read_disk_cached_tools key (unix_now (io_at t false 0)) (disk (caches s))) as [d [out|]] eqn:Ed;
          (eapply (read_disk_subset key (Some t))); cbn in Ed; rewrite Ed; exact Hv.
      - exists k, t0, its. split_and!; [done|done|lia]. }
    pose proof (read_served s key t) as Hserved. unfold read_cached_tools in *.
    cbn [mono_now unix_now io_at] in *.
    destruct (read_memory_cached_tools key t (memory (caches s))) as [mem out] eqn:Er.
    pose proof (read_memory_ok _ _ _ _ _ Hm Er) as (Hm' & Hsubm & _).
    assert (Hf' : forall k e, (k, e) ∈ mem -> (stored_at e <= t)%N /\ exists t0, loaded_as s k t0 (cached_tools e) /\
      (t0 <= stored_at e)%N /\ (stored_at e <= t0 + TOOL_LIST_CACHE_TTL_MS)%N).
    { intros k e Hin%Hsubm. destruct (Hf _ _ Hin) as (Hs & Hrest). split; [lia|done]. }
    destruct out as [tools|]; [split; [exact Hm'|exact Hf'|exact Hsub]|].
    destruct (read_disk_cached_tools key (Some t) (disk (caches s))) as [d [tools|]] eqn:Ed;
      [|split; [exact Hm'|exact Hf'|exact Hsub]].
    destruct (write_memory_ok key t tools mem Hm') as [H1 H2].
    split; cbn [caches clock loads fst memory disk] in *; [exact H1| |exact Hsub].
    intros k e [[= -> ->]|Hin]%H2; [|by apply Hf']. cbn [stored_at cached_tools]. split; [lia|].
    apply read_disk_served in Ed as (_ & f & m & v & stored & Hl & He & Hv & Hage).
    destruct (Hd _ _ _ Hl) as (k & t0 & items & Hload & -> & Hc).
    apply disk_entry_envelope in He as (-> & Hh & Hn).
    destruct (envelope_at k t0 items) as (_ & _ & _ & Ht0). rewrite Ht0 in Hv. injection Hv as <-.
    exists t0. split; [by exists k|]. pose proof (sat_add_le U128_MAX t0 TOOL_LIST_CACHE_TTL_MS). lia.
Qed.

Lemma cache_reachable_inv s : cache_reachable s -> cache_inv s.
Proof.
  apply reachable_invariant; [|apply cache_inv_step].
  intros s0 [Hc Hl]. split; rewrite Hc.
  - split; [constructor|simpl; lia].
  - intros k e Hin. by apply elem_of_nil in Hin.
  - intros f m v Hv. exfalso. by apply (lookup_empty_Some (M := gmap string) f (m, v)).
Qed.

(** The memory cache never holds more than 128 lists, and a list that is
    served from the caches was fetched for the same server, under the same key hash, at most
    twice the lifetime of 30 seconds ago. *)
Theorem cached_tools_staleness s key t tools :
  cache_reachable s -> (clock s <= t)%N ->
  length (memory (caches s)) <= 128 /\
  (snd (read_cached_tools (io_at t false 0) key (caches s)) = Some tools ->
   exists t0, loaded_as s key t0 tools /\ (t0 <= t <= t0 + 60000)%N).
Proof.
  intros Hr%cache_reachable_inv Ht. split; [apply Hr|]. intros H. by apply (read_served s key t tools).
Qed.

(** One process loads at time 0, another reads the file after 30 seconds, and again
    after 60. *)
Definition sample_key : ToolListCacheKey := mkCacheKey "/w" "github" 1 2 "fp".
Definition sample_list : JsonValue := JArray [sample_tool "search"].

Definition sample_start : CacheSystem := mkCacheSystem 0 (mkCaches [] ∅) [].

Definition sample_loaded : CacheSystem :=
  mkCacheSystem 0
    (mkCaches (memory (caches sample_start))
       (write_disk_cached_tools sample_key (Some 0%N) true 7 sample_list (disk (caches sample_start))))
    ((sample_key, 0%N, sample_list) :: loads sample_start).

Definition sample_after_read : CacheSystem :=
  mkCacheSystem 30000 (fst (read_cached_tools (io_at 30000 false 0) sample_key (caches sample_loaded)))
    (loads sample_loaded).

Lemma sample_after_read_reachable : cache_reachable sample_after_read.
Proof.
  apply (reachable_step _ _ sample_loaded).
  - apply (reachable_step _ _ sample_start); [by apply reachable_init|].
    exact (cache_foreign_load sample_start sample_key [sample_tool "search"] 0 true 7 (N.le_refl 0)).
  - exact (cache_read sample_loaded sample_key 30000 (N.le_0_l 30000)).
Qed.

Lemma cached_tools_staleness_witness :
  exists t0, loaded_as sample_after_read sample_key t0 sample_list /\ (t0 <= 60000 <= t0 + 60000)%N.
Proof.
  apply (cached_tools_staleness sample_after_read sample_key 60000 sample_list sample_after_read_reachable).
  - vm_compute. discriminate.
  - vm_compute. reflexivity.
Defined.

(** The lifetime of 30 seconds is not kept: a list read from a file shortly before
    it expires is stored in memory as if it were new, and is served until it is 60 seconds
    old. *)
Theorem cache_lifetime_doubles :
  exists s key tools,
    cache_reachable s /\ loads s = [(key, 0%N, tools)] /\
    snd (read_cached_tools (io_at 60000 false 0) key (caches s)) = Some tools.
Proof.
  exists sample_after_read, sample_key, sample_list.
  split; [apply sample_after_read_reachable|]. split; [reflexivity|]. vm_compute. reflexivity.
Qed.
