(* ===== verification/ToolFlight.v ===== *)
(** * Single flight of tool-list loads (src/upstream/tool_cache.rs)

    [acquire_tool_list_load_permit_or_cached] and the drop of [ToolListLoadPermit], as a step
    relation of interleaved callers over the shared set of keys in flight.  Each step is one
    critical section; what the cache answers to a woken caller, and how a load ends, is left
    to the environment. *)

From S2P Require Import Prelude.

Section flight.
Context {K : Type} `{Countable K}.

Inductive FlightStage : Type :=
| Entering (key : K)      (* before the lock, in the first or a later turn of the loop *)
| Waiting (key : K)       (* on the condition variable *)
| Woken (key : K)         (* the key left the set; about to read the cache *)
| Loading (key : K)       (* holds the permit *)
| Served                  (* returned [Cached] *)
| Finished.               (* the permit was dropped *)

Record Flight := mkFlight { in_flight : gset K; callers : gmap nat FlightStage }.

Definition set_stage (c : nat) (stage : FlightStage) (s : Flight) : gmap nat FlightStage :=
  <[c := stage]> (callers s).

(** One critical section of caller [c]; [hit]: the cache has the list. *)
Definition caller_turn (c : nat) (hit : bool) (s : Flight) : option Flight :=
  match callers s !! c with
  | Some (Entering key) =>
      if decide (key ∈ in_flight s) then Some (mkFlight (in_flight s) (set_stage c (Waiting key) s))
      else Some (mkFlight ({[key]} ∪ in_flight s) (set_stage c (Loading key) s))
  | Some (Waiting key) =>
      if decide (key ∈ in_flight s) then None
      else Some (mkFlight (in_flight s) (set_stage c (Woken key) s))
  | Some (Woken key) =>
      Some (mkFlight (in_flight s) (set_stage c (if hit then Served else Entering key) s))
  | Some (Loading key) => Some (mkFlight (in_flight s ∖ {[key]}) (set_stage c Finished s))
  | _ => None
  end.

Inductive flight_step (s : Flight) : Flight -> Prop :=
| flight_call c key : callers s !! c = None -> flight_step s (mkFlight (in_flight s) (set_stage c (Entering key) s))
| flight_turn c hit s' : caller_turn c hit s = Some s' -> flight_step s s'.

Definition flight_reachable : Flight -> Prop := reachable (fun s => s = mkFlight ∅ ∅) flight_step.

(** The keys in flight are exactly those of the callers that hold a permit, each held once. *)
Record flight_inv (s : Flight) : Prop := {
  fi_loader : forall c key, callers s !! c = Some (Loading key) -> key ∈ in_flight s;
  fi_held : forall key, key ∈ in_flight s -> exists c, callers s !! c = Some (Loading key);
  fi_once : forall c c' key, callers s !! c = Some (Loading key) -> callers s !! c' = Some (Loading key) -> c = c'
}.

(** Steps that neither take nor drop a permit. *)
Lemma flight_inv_quiet s c stage :
  flight_inv s -> (forall key, stage <> Loading key) ->
  (forall key, callers s !! c <> Some (Loading key)) ->
  flight_inv (mkFlight (in_flight s) (set_stage c stage s)).
Proof.
  intros [Hl Hh Ho] Hs Hc. unfold set_stage. split; cbn [in_flight callers].
  - intros c' key [[_ E]|[_ E]]%lookup_insert_Some; [by destruct (Hs key)|by apply (Hl c')].
  - intros key Hk. destruct (Hh key Hk) as [c' Hc']. exists c'.
    rewrite lookup_insert_ne; [done|]. intros ->. by apply (Hc key).
  - intros c1 c2 key [[_ E1]|[_ E1]]%lookup_insert_Some [[_ E2]|[_ E2]]%lookup_insert_Some;
      try (by destruct (Hs key)). by eapply Ho.
Qed.

Lemma flight_inv_step s s' : flight_inv s -> flight_step s s' -> flight_inv s'.
Proof.
  intros Hinv. destruct 1 as [c key Hc|c hit s' Ht].
  - apply flight_inv_quiet; [done|done|]. intros k. by rewrite Hc.
  - unfold caller_turn in Ht. destruct (callers s !! c) as [[key|key|key|key| |]|] eqn:Ec; try done.
    + destruct (decide (key ∈ in_flight s)) as [Hin|Hout]; injection Ht as <-.
      { apply flight_inv_quiet; [done|done|]. intros k. by rewrite Ec. }
      destruct Hinv as [Hl Hh Ho]. unfold set_stage. split; cbn [in_flight callers].
      * intros c' k [[_ [= ->]]|[_ E]]%lookup_insert_Some; [set_solver|]. apply Hl in E. set_solver.
      * intros k [->%elem_of_singleton|Hk]%elem_of_union; [exists c; by rewrite lookup_insert_eq|].
        destruct (Hh k Hk) as [c' Hc']. exists c'. rewrite lookup_insert_ne; [done|]. intros ->. congruence.
      * intros c1 c2 k [[<- [= <-]]|[_ E1]]%lookup_insert_Some [[<- E2]|[_ E2]]%lookup_insert_Some; try done.
        -- by apply Hl in E2.
        -- injection E2 as <-. by apply Hl in E1.
        -- by eapply Ho.
    + destruct (decide _); [done|]. injection Ht as <-. apply flight_inv_quiet; [done|done|]. intros k. by rewrite Ec.
    + injection Ht as <-. apply flight_inv_quiet; [done|by destruct hit|]. intros k. by rewrite Ec.
    + injection Ht as <-. destruct Hinv as [Hl Hh Ho]. unfold set_stage. split; cbn [in_flight callers].
      * intros c' k [[_ ?]|[Hne E]]%lookup_insert_Some; [done|]. apply elem_of_difference. split; [by eapply Hl|].
        intros ->%elem_of_singleton. apply Hne. by eapply Ho.
      * intros k [Hk Hne]%elem_of_difference. destruct (Hh k Hk) as [c' Hc']. exists c'.
        rewrite lookup_insert_ne; [done|]. intros ->. rewrite Ec in Hc'. injection Hc' as ->. set_solver.
      * intros c1 c2 k [[_ ?]|[_ E1]]%lookup_insert_Some [[_ ?]|[_ E2]]%lookup_insert_Some; try done. by eapply Ho.
Qed.

Lemma flight_reachable_inv s : flight_reachable s -> flight_inv s.
Proof.
  apply reachable_invariant; [|apply flight_inv_step]. intros s0 ->. split; cbn; set_solver.
Qed.

Definition unfinished (stage : FlightStage) : Prop :=
  match stage with Served | Finished => False | _ => True end.

End flight.

Arguments FlightStage K : clear implicits.
Arguments Flight K {_ _}.

(** At any time at most one caller loads the tools of a key, and no caller is left
    behind: one that waits has a loader it waits for, or can go on, and as long as some
    caller has not returned, some caller can take a step. *)
Theorem tool_list_single_flight {K : Type} `{Countable K} (s : Flight K) :
  flight_reachable s ->
  (forall c c' key, callers s !! c = Some (Loading key) -> callers s !! c' = Some (Loading key) -> c = c') /\
  (forall c key, callers s !! c = Some (Waiting key) ->
     (exists c', callers s !! c' = Some (Loading key)) \/ caller_turn c true s <> None) /\
  (forall c stage, callers s !! c = Some stage -> unfinished stage ->
     exists c' s', caller_turn c' true s = Some s').
Proof.
  intros [Hl Hh Ho]%flight_reachable_inv. split_and!.
  - exact Ho.
  - intros c key Hc. unfold caller_turn. rewrite Hc. destruct (decide (key ∈ in_flight s)) as [Hin|]; [left; auto|by right].
  - intros c stage Hc Hu. destruct stage as [key|key|key|key| |]; try done.
    + exists c. unfold caller_turn. rewrite Hc. destruct (decide _); eauto.
    + destruct (decide (key ∈ in_flight s)) as [Hin|Hout].
      * destruct (Hh key Hin) as [c' Hc']. exists c'. unfold caller_turn. rewrite Hc'. eauto.
      * exists c. unfold caller_turn. rewrite Hc. destruct (decide _); [done|]. eauto.
    + exists c. unfold caller_turn. rewrite Hc. eauto.
    + exists c. unfold caller_turn. rewrite Hc. eauto.
Qed.

(** Two callers of one key: the first loads, the second waits. *)
Definition sample_arrived : Flight N := mkFlight ∅ (set_stage 0 (Entering 5%N) (mkFlight ∅ ∅)).
Definition sample_loading : Flight N := mkFlight ({[5%N]} ∪ ∅) (set_stage 0 (Loading 5%N) sample_arrived).
Definition sample_second : Flight N := mkFlight (in_flight sample_loading) (set_stage 1 (Entering 5%N) sample_loading).
Definition sample_flight : Flight N := mkFlight (in_flight sample_second) (set_stage 1 (Waiting 5%N) sample_second).

Lemma sample_flight_reachable : flight_reachable sample_flight.
Proof.
  apply (reachable_step _ _ sample_second); [|by apply (flight_turn _ 1 true); vm_compute].
  apply (reachable_step _ _ sample_loading); [|exact (flight_call sample_loading 1 5%N eq_refl)].
  apply (reachable_step _ _ sample_arrived); [|by apply (flight_turn _ 0 true); vm_compute].
  apply (reachable_step _ _ (mkFlight ∅ ∅)); [by apply reachable_init|exact (flight_call (mkFlight ∅ ∅) 0 5%N eq_refl)].
Qed.

Lemma tool_list_single_flight_witness :
  exists c' s', caller_turn c' true sample_flight = Some s'.
Proof.
  apply (proj2 (proj2 (tool_list_single_flight sample_flight sample_flight_reachable)) 1 (Waiting 5%N)).
  - reflexivity.
  - exact I.
Defined.
