(* ===== verification/LeaseRuntime.v ===== *)
(** * Tool calls under a lease (src/upstream/lease_runtime.rs)

    A tool call checks its policy, takes a lease (waiting in its lane if the policy allows
    it), verifies the tool, calls the upstream server and gives the lease back.  What the
    rest of the system answers to a call (the configuration, the queue, the lease store, the
    upstream server, the clocks) is the argument of the flows; they return what they do, as a
    list of [CallEvent]s in order, and their result.

    The guard's [Drop] runs where Rust runs it: at the end of the function on an early
    return, inside [finalize_upstream_lease] when the release fails there. *)

From Stdlib Require Import Ascii.
From S2P Require Import Prelude RustStr BTree Json TextUtils Execution LeaseRoute LeaseStore LeaseQueue.
From S2P Require Import SessionPool ServerConfig ToolPolicy ToolAudit ToolCache.

Record LeaseQueueMetrics := mkQueueMetrics {
  attempts : N;
  wait_ms : N;
  queue_timeout : N;
  queue_ticket : option N;
  depth_at : N;
  ahead_at : N
}.

(** The counters of the heartbeat thread, as the guard reads them. *)
Record LeaseHeartbeat := mkHeartbeat { lost : bool; renewal_count : N; failure_count : N }.

Record UpstreamLeaseGuard := mkGuard {
  guard_lease_id : string;
  guard_lease : JsonValue;
  guard_queue : LeaseQueueMetrics;
  guard_affinity : ExecutionAffinityKey
}.

Inductive CallEvent : Type :=
| TicketTaken (ticket : N)
| TicketCompleted (ticket : N)
| TicketCancelled (ticket : N)
| LeaseTaken (lease_id : string)
| HeartbeatStopped
| ToolsListed
| WorkerTaken
| WorkerInvalidated
| WorkerReturned
| UpstreamCalled (tools : list string)
| ReleaseRun (lease_id : string) (ok : bool)
| LanesNotified
| Audited (record : LogEvent).

(** ** The heartbeat *)

Definition lease_heartbeat_interval (ttl : N) : N :=
  let ttl := if (ttl <=? U64_MAX)%N then ttl else U64_MAX in
  let upper_bound := N.max (ttl - 1) 1 in
  N.min (clamp 50 30000 (ttl / 3)) upper_bound.

(** One slice of [sleep_interruptibly] at [now]; [None]: the sleep is over. *)
Definition sleep_slice (stop : bool) (now deadline : N) : option N :=
  if stop then None
  else if (deadline <=? now)%N then None
  else Some (N.min (deadline - now) 25).

(** A turn of the thread: the stop flag before and after the sleep, and what the renewal
    answers if it comes to it. *)
Record Beat := mkBeat { stop_before : bool; stop_after : bool; renewal : result JsonValue string }.

Definition renewal_succeeded (r : result JsonValue string) : bool :=
  match r with
  | Ok json => bool_decide (string_at_path json ["status"] = Some "renewed")
  | Err _ => false
  end.

Fixpoint heartbeat_loop (beats : list Beat) (hb : LeaseHeartbeat) : LeaseHeartbeat :=
  match beats with
  | [] => hb
  | b :: beats =>
      if stop_before b || stop_after b then hb
      else if renewal_succeeded (renewal b) then
        heartbeat_loop beats (mkHeartbeat (lost hb) (renewal_count hb + 1) (failure_count hb))
      else mkHeartbeat true (renewal_count hb) (failure_count hb + 1)
  end.

Definition heartbeat_start : LeaseHeartbeat := mkHeartbeat false 0 0.

(** ** The world around a call *)

Record UpstreamPoolCallOutcome := mkPoolOutcome {
  po_enabled : bool;
  po_hit : bool;
  po_session_call_count : N;
  po_session_age_ms : N;
  po_pool_size : N;
  po_max_pool_size : N;
  po_idle_ttl_ms : N;
  po_evicted_idle_count : N;
  po_evicted_capacity_count : N
}.

(** What the rest of the system answers during a call.  [R] is the type of the upstream's
    reply: one result, or the results of a batch. *)
Record CallWorld (R : Type) := mkCallWorld {
  cw_servers : result (list (string * UpstreamServerConfig)) string;
  cw_callable : UpstreamServerConfig -> result unit string;
  cw_setting : option string;
  cw_root : string;
  cw_settings : N * N;
  cw_acquired : list CallEvent * result UpstreamLeaseGuard string;
  cw_attached_at : N;
  cw_verify_at : N;
  cw_call_at : N;
  cw_listed : result (JsonValue * bool) string;
  cw_checkout : result unit string;
  cw_cached : option JsonValue;
  cw_pool_listed : result JsonValue string;
  cw_reply : result R string;
  cw_pool_outcome : result UpstreamPoolCallOutcome string;
  cw_heartbeat : LeaseHeartbeat;
  cw_release : result JsonValue string;
  cw_release_again : result JsonValue string;
  cw_queue_ms : N;
  cw_upstream_ms : N;
  cw_total_ms : N;
  cw_call_id : string
}.

Arguments cw_servers {R}. Arguments cw_callable {R}. Arguments cw_setting {R}. Arguments cw_root {R}.
Arguments cw_settings {R}. Arguments cw_acquired {R}. Arguments cw_attached_at {R}.
Arguments cw_verify_at {R}. Arguments cw_call_at {R}. Arguments cw_listed {R}.
Arguments cw_checkout {R}. Arguments cw_cached {R}. Arguments cw_pool_listed {R}.
Arguments cw_reply {R}. Arguments cw_pool_outcome {R}. Arguments cw_heartbeat {R}.
Arguments cw_release {R}. Arguments cw_release_again {R}. Arguments cw_queue_ms {R}.
Arguments cw_upstream_ms {R}. Arguments cw_total_ms {R}. Arguments cw_call_id {R}.

(** ** Taking the lease *)

Definition effective_ttl (context : option UpstreamLeaseContext) (timeout : N) : N :=
  match opt_filter (fun value => 0 <? value)%N (context ≫= ToolPolicy.ttl_ms) with
  | Some ttl => ttl
  | None => sat_add U128_MAX timeout 5000
  end.

Section runtime.
Context `{SerdeJson} `{Hasher}.

Definition lease_request (root_path : string) (server : UpstreamServerConfig)
    (context : option UpstreamLeaseContext) (ttl : N) : RuntimeLeaseRequest :=
  {| req_server_name := name server;
     req_client_id :=
       Some (unwrap_or (context_string (context ≫= ToolPolicy.client_id)) "mcpace-upstream-bridge");
     req_session_id := context_string (context ≫= ToolPolicy.session_id);
     req_project_root :=
       opt_or (context_string (context ≫= ToolPolicy.project_root)) (Some (child_process_path root_path));
     req_transport :=
       Some (unwrap_or (context_string (context ≫= ToolPolicy.transport)) (source_type server));
     req_metadata_json := option_map to_compact_string (context ≫= ToolPolicy.metadata);
     req_ttl_ms := Some ttl;
     req_takeover := false |}.

Definition execution_affinity_key (server : UpstreamServerConfig) (context : option UpstreamLeaseContext)
    : result ExecutionAffinityKey string :=
  map_err display_policy_error
    (affinity_key (execution server)
       {| ctx_client_id := context ≫= ToolPolicy.client_id;
          ctx_session_id := context ≫= ToolPolicy.session_id;
          ctx_project_root := context ≫= ToolPolicy.project_root;
          ctx_transport := opt_or (context ≫= ToolPolicy.transport) (Some (source_type server));
          ctx_metadata := context ≫= ToolPolicy.metadata |}).

Definition upstream_lease_lane_key (cache_root : string) (server : UpstreamServerConfig)
    (affinity : ExecutionAffinityKey) : string :=
  "root=" +:+ short_hash cache_root +:+ "|server=" +:+ short_hash (ToolCache.server_fingerprint server)
  +:+ "|affinity=" +:+ short_hash (key_fingerprint affinity).

Definition runtime_lease_blocked_error (server_name reason : string) (json : JsonValue) : string :=
  "runtime lease blocked for upstream server '" +:+ server_name +:+ "': " +:+ reason +:+ " | "
  +:+ to_compact_string json.

(** The lease inside the reply of the store. *)
Definition leased_json (json : JsonValue) : JsonValue := unwrap_or (value_at_path json ["lease"]) json.

Definition queue_timed_out (server_name : string) (waited attempts : N) (blocked : JsonValue) : string :=
  "upstream lease queue timed out for server '" +:+ server_name +:+ "' after " +:+ N_to_string waited
  +:+ " ms and " +:+ N_to_string attempts +:+ " attempt(s): "
  +:+ unwrap_or (string_at_path blocked ["reason"]) "runtime lease acquisition remained blocked"
  +:+ " | " +:+ to_compact_string blocked.

(** One attempt: the store's answer, the clock at the deadline test and when the lease is
    attached, and the wait before the next attempt. *)
Record LeaseAttempt := mkAttempt {
  answer : result RuntimeLeaseAcquireResult string;
  tested_at : N;
  retry_from : N;
  retry_timed_out : bool;
  retry_until : N
}.

(** What the queue, the store and the clock answer while the lease is taken. *)
Record AcquireWorld := mkAcquireWorld {
  queued_at : N;
  enqueue_answer : result LeaseQueuePosition LeaseQueueError;
  head_answer : result unit LeaseQueueError;
  attempt_answers : list LeaseAttempt;
  gave_up_at : N
}.

(** The retry loop; [None]: the given answers are used up before it returns. *)
Fixpoint acquire_loop (server_name lane_key : string) (position : LeaseQueuePosition) (affinity : ExecutionAffinityKey)
    (queued timeout gave_up : N) (count : N) (answers : list LeaseAttempt)
    : option (list CallEvent * result UpstreamLeaseGuard string) :=
  let deadline := (queued + timeout)%N in
  match answers with
  | [] => None
  | a :: answers =>
      let count := sat_add USIZE_MAX count 1 in
      match answer a with
      | Err error => Some ([TicketCancelled (ticket position)], Err error)
      | Ok (Acquired lease_id json) =>
          Some ([LeaseTaken lease_id; TicketCompleted (ticket position)],
                Ok (mkGuard lease_id (leased_json json)
                      (mkQueueMetrics count (tested_at a - queued) timeout (Some (ticket position))
                         (depth_at_enqueue position) (ahead_at_enqueue position)) affinity))
      | Ok (Blocked json) =>
          if (deadline <=? tested_at a)%N then
            Some ([TicketCancelled (ticket position)],
                  Err (queue_timed_out server_name (gave_up - queued) count json))
          else
            match wait_for_retry lane_key (ticket position) 50 (retry_from a) deadline
                    (retry_timed_out a) (retry_until a) with
            | Err error => Some ([TicketCancelled (ticket position)], Err (display_queue_error error))
            | Ok _ => acquire_loop server_name lane_key position affinity queued timeout gave_up count answers
            end
      end
  end.

Definition acquire_upstream_lease_once (server_name : string) (affinity : ExecutionAffinityKey)
    (a : result RuntimeLeaseAcquireResult string) : list CallEvent * result UpstreamLeaseGuard string :=
  match a with
  | Err error => ([], Err error)
  | Ok (Acquired lease_id json) =>
      ([LeaseTaken lease_id],
       Ok (mkGuard lease_id (leased_json json) (mkQueueMetrics 1 0 0 None 0 0) affinity))
  | Ok (Blocked json) =>
      ([], Err (runtime_lease_blocked_error server_name
                  (unwrap_or (string_at_path json ["reason"]) "runtime lease acquisition was blocked") json))
  end.

Definition acquire_upstream_lease (w : AcquireWorld) (cache_root : string) (server : UpstreamServerConfig)
    (context : option UpstreamLeaseContext)
    : option (list CallEvent * result UpstreamLeaseGuard string) :=
  if is_disabled (execution server) then
    Some ([], Err ("upstream server '" +:+ name server +:+ "' is disabled by execution policy"))
  else
    match execution_affinity_key server context with
    | Err error => Some ([], Err error)
    | Ok affinity =>
        let timeout := queue_timeout_ms (execution server) in
        if (timeout =? 0)%N then
          match attempt_answers w with
          | a :: _ => Some (acquire_upstream_lease_once (name server) affinity (answer a))
          | [] => None
          end
        else
          let lane_key := upstream_lease_lane_key cache_root server affinity in
          match enqueue_answer w with
          | Err error => Some ([], Err (display_queue_error error))
          | Ok position =>
              match head_answer w with
              | Err error =>
                  Some ([TicketTaken (ticket position); TicketCancelled (ticket position)],
                        Err (display_queue_error error))
              | Ok _ =>
                  match acquire_loop (name server) lane_key position affinity (queued_at w) timeout
                          (gave_up_at w) 0 (attempt_answers w) with
                  | Some (events, outcome) => Some (TicketTaken (ticket position) :: events, outcome)
                  | None => None
                  end
              end
          end
    end.

(** ** Giving the lease back *)

(** [Drop] of a guard that still holds its lease. *)
Definition drop_guard (guard : UpstreamLeaseGuard) (again : result JsonValue string) : list CallEvent :=
  [HeartbeatStopped; ReleaseRun (guard_lease_id guard) (is_ok again); LanesNotified].

Record UpstreamLeaseOutcome := mkLeaseOutcome {
  lo_lease_id : option string;
  lo_lease : JsonValue;
  lo_release : JsonValue;
  lo_heartbeat : LeaseHeartbeat;
  lo_queue : LeaseQueueMetrics
}.

(** [released] answers [guard.release()], [again] the second try of the guard's drop. *)
Definition finalize_upstream_lease (guard : UpstreamLeaseGuard) (hb : LeaseHeartbeat)
    (released again : result JsonValue string) : list CallEvent * result UpstreamLeaseOutcome string :=
  match released with
  | Ok release =>
      ([HeartbeatStopped; ReleaseRun (guard_lease_id guard) true; LanesNotified],
       Ok (mkLeaseOutcome (Some (guard_lease_id guard)) (guard_lease guard) release hb (guard_queue guard)))
  | Err error =>
      ([HeartbeatStopped; ReleaseRun (guard_lease_id guard) false;
        ReleaseRun (guard_lease_id guard) (is_ok again); LanesNotified], Err error)
  end.

Definition upstream_lease_entries (o : UpstreamLeaseOutcome) : list (string * JsonValue) :=
  [("leaseAttached", json_bool true); ("leaseId", json_string_or_null (lo_lease_id o));
   ("lease", lo_lease o); ("leaseReleased", json_bool true); ("leaseRelease", lo_release o);
   ("leaseBypassReason", JNull); ("leaseHeartbeatStarted", json_bool true);
   ("leaseHeartbeatRenewalCount", json_number (renewal_count (lo_heartbeat o)));
   ("leaseHeartbeatLost", json_bool (lost (lo_heartbeat o)));
   ("leaseHeartbeatFailureCount", json_number (failure_count (lo_heartbeat o)));
   ("leaseQueueAttempts", json_number (attempts (lo_queue o)));
   ("leaseQueueWaitMs", json_number (wait_ms (lo_queue o)));
   ("leaseQueueTimeoutMs", json_number (queue_timeout (lo_queue o)));
   ("leaseQueueTicket", optional_number (queue_ticket (lo_queue o)));
   ("leaseQueueDepthAtEnqueue", json_number (depth_at (lo_queue o)));
   ("leaseQueueAheadAtEnqueue", json_number (ahead_at (lo_queue o)))].

(** ** One call *)

Definition upstream_pool_entries (o : UpstreamPoolCallOutcome) : list (string * JsonValue) :=
  [("sessionPoolEnabled", json_bool (po_enabled o)); ("sessionPoolHit", json_bool (po_hit o));
   ("sessionPoolReused", json_bool (po_hit o));
   ("sessionPoolSessionCallCount", json_number (po_session_call_count o));
   ("sessionPoolSessionAgeMs", json_number (po_session_age_ms o));
   ("sessionPoolSize", json_number (po_pool_size o));
   ("sessionPoolMaxSize", json_number (po_max_pool_size o));
   ("sessionPoolIdleTtlMs", json_number (po_idle_ttl_ms o));
   ("sessionPoolEvictedIdleCount", json_number (po_evicted_idle_count o));
   ("sessionPoolEvictedCapacityCount", json_number (po_evicted_capacity_count o))].

Definition upstream_session_key (cache_root : string) (settings : N * N) (server : UpstreamServerConfig)
    (affinity : ExecutionAffinityKey) : UpstreamSessionKey :=
  {| root_path := cache_root; SessionPool.server_name := name server;
     settings_modified_ms := fst settings; settings_len := snd settings;
     SessionPool.server_fingerprint := ToolCache.server_fingerprint server;
     SessionPool.client_id := key_client_id affinity; SessionPool.session_id := key_session_id affinity;
     SessionPool.project_root := key_project_root affinity; SessionPool.transport := key_transport affinity;
     execution_mode := mode_as_str (mode (execution server));
     SessionPool.affinity_fingerprint := key_fingerprint affinity |}.

Definition validate_tool_call_result (server_name tool_name : string) (result : JsonValue)
    : Prelude.result bool string :=
  let prefix := "upstream server '" +:+ server_name +:+ "' tool '" +:+ tool_name in
  object ←? ok_or (as_object result) (prefix +:+ "' returned a non-object tools/call result") ;;
  match bt_get "content" object with
  | Some (JArray _) =>
      match bt_get "isError" object with
      | Some (JBool value) => Ok value
      | Some _ => Err (prefix +:+ "' returned a non-boolean isError value")
      | None => Ok false
      end
  | _ => Err (prefix +:+ "' tools/call result must contain a content array")
  end.

Definition remaining_upstream_timeout (now deadline : N) (server_name phase : string) : result N string :=
  if (deadline - now =? 0)%N then Err (timed_out_before server_name phase) else Ok (deadline - now)%N.

(** The lookup every entry point starts with. *)
Definition lookup_server {R} (w : CallWorld R) (server_name : string) : result UpstreamServerConfig string :=
  servers ←? cw_servers w ;;
  server ←? ok_or (find_server servers server_name)
              ("upstream server '" +:+ server_name +:+ "' is not configured") ;;
  _ ←? cw_callable w server ;;
  Ok server.

Section single.
Context (w : CallWorld JsonValue) (server_name tool_name : string) (arguments : JsonValue)
  (context : option UpstreamLeaseContext) (server : UpstreamServerConfig) (effective_timeout : N).

Definition audit_call (pooled bridge_ok upstream_ok : bool) (lease_id : option string)
    (key : option UpstreamSessionKey) (reply : option JsonValue) (queue_ms upstream_ms : N)
    (error : option string) : CallEvent :=
  Audited (log_tool_call_audit (cw_call_id w) server_name tool_name arguments context bridge_ok upstream_ok
             pooled lease_id key (for_single arguments reply context queue_ms upstream_ms (cw_total_ms w)) error).

(** The failure of a call that holds its lease: audited, then the guard is dropped. *)
Definition fail_call (pooled : bool) (key : option UpstreamSessionKey) (guard : UpstreamLeaseGuard)
    (before : list CallEvent) (reply : option JsonValue) (upstream_ms : N) (error : string)
    : list CallEvent * result JsonValue string :=
  (before ++ audit_call pooled false false None key reply (cw_queue_ms w) upstream_ms (Some error)
          :: drop_guard guard (cw_release_again w),
   Err error).

Definition call_reply (upstream_is_error : bool) (metrics : ToolAuditMetrics) (reply : JsonValue)
    (entries : list (string * JsonValue)) : JsonValue :=
  json_object
    ([("ok", json_bool (negb upstream_is_error)); ("bridgeOk", json_bool true);
      ("upstreamOk", json_bool (negb upstream_is_error)); ("upstreamIsError", json_bool upstream_is_error);
      ("server", json_string server_name); ("tool", json_string tool_name);
      ("timeoutMs", json_number effective_timeout);
      ("observability", json_object (metrics_log_fields metrics)); ("upstreamResult", reply)] ++ entries).

(** The reply is valid: release the lease, audit, answer. *)
Definition settle_call (pooled : bool) (key : option UpstreamSessionKey) (guard : UpstreamLeaseGuard)
    (before : list CallEvent) (reply : JsonValue) (upstream_is_error : bool)
    (entries : list (string * JsonValue)) : list CallEvent * result JsonValue string :=
  match finalize_upstream_lease guard (cw_heartbeat w) (cw_release w) (cw_release_again w) with
  | (events, Err error) =>
      (before ++ events ++ [audit_call pooled false false None key (Some reply) (cw_queue_ms w)
                              (cw_upstream_ms w) (Some error)], Err error)
  | (events, Ok o) =>
      let metrics := for_single arguments (Some reply) context (cw_queue_ms w) (cw_upstream_ms w) (cw_total_ms w) in
      (before ++ events ++ [audit_call pooled true (negb upstream_is_error) (lo_lease_id o) key (Some reply)
                              (cw_queue_ms w) (cw_upstream_ms w) None],
       Ok (call_reply upstream_is_error metrics reply (entries ++ upstream_lease_entries o)))
  end.

(** From the attached lease on. *)
Definition call_held (guard : UpstreamLeaseGuard) : list CallEvent * result JsonValue string :=
  let deadline := (cw_attached_at w + effective_timeout)%N in
  match remaining_upstream_timeout (cw_verify_at w) deadline server_name "tools/list verification" with
  | Err error => fail_call false None guard [] None 0 error
  | Ok _ =>
      let listed := if known_tool_validation_required (cw_setting w) context then [ToolsListed] else [] in
      match validate_upstream_tool_known (cw_setting w) server tool_name (cw_listed w) context with
      | Err error => fail_call false None guard listed None 0 error
      | Ok _ =>
          match remaining_upstream_timeout (cw_call_at w) deadline server_name "tools/call" with
          | Err error => fail_call false None guard listed None (cw_upstream_ms w) error
          | Ok _ =>
              let called := listed ++ [UpstreamCalled [tool_name]] in
              match cw_reply w with
              | Err error => fail_call false None guard called None (cw_upstream_ms w) error
              | Ok reply =>
                  match validate_tool_call_result (name server) tool_name reply with
                  | Err error => fail_call false None guard called (Some reply) (cw_upstream_ms w) error
                  | Ok upstream_is_error => settle_call false None guard called reply upstream_is_error []
                  end
              end
          end
      end
  end.

(** The closure that runs on a worker of the pool. *)
Definition pooled_call : list CallEvent
    * result (JsonValue * option UpstreamPoolCallOutcome * result bool string) string :=
  match cw_checkout w with
  | Err error => ([], Err error)
  | Ok _ =>
      let listed := if known_tool_validation_required (cw_setting w) context then [ToolsListed] else [] in
      match (tools ←? verified_tool_names_for_call_with_pool (cw_setting w) server (cw_cached w)
                        (cw_pool_listed w) (validate_tools_list_result server) context ;;
             ensure_tool_name_in_verified_set server tool_name tools) with
      | Err error => (WorkerTaken :: listed ++ [WorkerReturned], Err error)
      | Ok _ =>
          let called := WorkerTaken :: listed ++ [UpstreamCalled [tool_name]] in
          match cw_reply w with
          | Err error => (called ++ [WorkerReturned], Err error)
          | Ok reply =>
              match validate_tool_call_result (name server) tool_name reply with
              | Err error => (called ++ [WorkerInvalidated; WorkerReturned], Ok (reply, None, Err error))
              | Ok upstream_is_error =>
                  match cw_pool_outcome w with
                  | Err error => (called ++ [WorkerReturned], Err error)
                  | Ok o => (called ++ [WorkerReturned], Ok (reply, Some o, Ok upstream_is_error))
                  end
              end
          end
      end
  end.

Definition call_held_pooled (guard : UpstreamLeaseGuard) : list CallEvent * result JsonValue string :=
  let key := upstream_session_key (cw_root w) (cw_settings w) server (guard_affinity guard) in
  match pooled_call with
  | (events, Err error) => fail_call true (Some key) guard events None (cw_upstream_ms w) error
  | (events, Ok (reply, _, Err error)) =>
      fail_call true (Some key) guard events (Some reply) (cw_upstream_ms w) error
  | (events, Ok (reply, Some o, Ok upstream_is_error)) =>
      settle_call true (Some key) guard events reply upstream_is_error (upstream_pool_entries o)
  | (events, Ok (_, None, Ok _)) =>
      (events ++ drop_guard guard (cw_release_again w),
       Err "validated pooled upstream call is missing its pool outcome")
  end.

(** The policy check and the lease around either. *)
Definition call_guarded (pooled : bool) : list CallEvent * result JsonValue string :=
  match validate_upstream_tool_policy server tool_name context with
  | Err error => ([audit_call pooled false false None None None 0 0 (Some error)], Err error)
  | Ok _ =>
      let '(events, acquired) := cw_acquired w in
      match acquired with
      | Err error =>
          (events ++ [audit_call pooled false false None None None (cw_queue_ms w) 0 (Some error)], Err error)
      | Ok guard =>
          let '(more, outcome) := if pooled then call_held_pooled guard else call_held guard in
          (events ++ more, outcome)
      end
  end.

End single.

Definition call_tool_with_context (w : CallWorld JsonValue) (server_name tool_name : string)
    (arguments : JsonValue) (timeout_ms : option N) (context : option UpstreamLeaseContext)
    : list CallEvent * result JsonValue string :=
  let server_name := trim server_name in
  let tool_name := trim tool_name in
  if str_is_empty server_name then ([], Err "upstream_call requires non-empty 'server'")
  else if str_is_empty tool_name then ([], Err "upstream_call requires non-empty 'tool'")
  else
    match lookup_server w server_name with
    | Err error => ([], Err error)
    | Ok server =>
        call_guarded w server_name tool_name arguments context server (timeout_for server timeout_ms) false
    end.

(** An HTTP server has no worker process: the call goes through the other entry point. *)
Definition call_tool_with_pooled_context (w : CallWorld JsonValue) (server_name tool_name : string)
    (arguments : JsonValue) (timeout_ms : option N) (context : option UpstreamLeaseContext)
    : list CallEvent * result JsonValue string :=
  let server_name := trim server_name in
  let tool_name := trim tool_name in
  if str_is_empty server_name then ([], Err "upstream_call requires non-empty 'server'")
  else if str_is_empty tool_name then ([], Err "upstream_call requires non-empty 'tool'")
  else
    match lookup_server w server_name with
    | Err error => ([], Err error)
    | Ok server =>
        if String.eqb (source_type server) "http" then
          call_tool_with_context w server_name tool_name arguments timeout_ms context
        else call_guarded w server_name tool_name arguments context server (timeout_for server timeout_ms) true
    end.

(** ** A batch of calls *)

Section batch.
Context (w : CallWorld (list JsonValue)) (server_name : string) (calls : list UpstreamToolCall)
  (context : option UpstreamLeaseContext) (server : UpstreamServerConfig) (effective_timeout : N).

Definition audit_batch (pooled bridge_ok : bool) (lease_id : option string) (key : option UpstreamSessionKey)
    (ok_count failed_count : N) (replies : option (list JsonValue)) (queue_ms upstream_ms : N)
    (error : option string) : CallEvent :=
  Audited (log_tool_batch_audit (cw_call_id w) server_name calls context bridge_ok pooled lease_id key
             ok_count failed_count (for_batch calls replies context queue_ms upstream_ms (cw_total_ms w)) error).

Definition fail_batch (pooled : bool) (key : option UpstreamSessionKey) (guard : UpstreamLeaseGuard)
    (before : list CallEvent) (upstream_ms : N) (error : string) : list CallEvent * result JsonValue string :=
  (before ++ audit_batch pooled false None key 0 (len_N calls) None (cw_queue_ms w) upstream_ms (Some error)
          :: drop_guard guard (cw_release_again w),
   Err error).

Definition upstream_ok_item (item : JsonValue) : bool := unwrap_or (bool_at_path item ["upstreamOk"]) false.

Definition batch_reply (ok_count failed_count : N) (metrics : ToolAuditMetrics) (replies : list JsonValue)
    (entries : list (string * JsonValue)) : JsonValue :=
  json_object
    ([("ok", json_bool (failed_count =? 0)%N); ("bridgeOk", json_bool true);
      ("upstreamOk", json_bool (failed_count =? 0)%N); ("server", json_string server_name);
      ("timeoutMs", json_number effective_timeout); ("callCount", json_number (len_N replies));
      ("upstreamOkCount", json_number ok_count); ("upstreamFailedCount", json_number failed_count);
      ("observability", json_object (metrics_log_fields metrics)); ("results", json_array replies)] ++ entries).

Definition settle_batch (pooled : bool) (key : option UpstreamSessionKey) (guard : UpstreamLeaseGuard)
    (before : list CallEvent) (replies : list JsonValue) (entries : list (string * JsonValue))
    : list CallEvent * result JsonValue string :=
  match finalize_upstream_lease guard (cw_heartbeat w) (cw_release w) (cw_release_again w) with
  | (events, Err error) =>
      (before ++ events ++ [audit_batch pooled false None key 0 (len_N calls) (Some replies) (cw_queue_ms w)
                              (cw_upstream_ms w) (Some error)], Err error)
  | (events, Ok o) =>
      let ok_count := len_N (List.filter upstream_ok_item replies) in
      let failed_count := (len_N replies - ok_count)%N in
      let metrics := for_batch calls (Some replies) context (cw_queue_ms w) (cw_upstream_ms w) (cw_total_ms w) in
      (before ++ events ++ [audit_batch pooled true (lo_lease_id o) key ok_count failed_count (Some replies)
                              (cw_queue_ms w) (cw_upstream_ms w) None],
       Ok (batch_reply ok_count failed_count metrics replies (entries ++ upstream_lease_entries o)))
  end.

Definition batch_held (guard : UpstreamLeaseGuard) : list CallEvent * result JsonValue string :=
  let deadline := (cw_attached_at w + effective_timeout)%N in
  match remaining_upstream_timeout (cw_verify_at w) deadline server_name "tools/list verification" with
  | Err error => fail_batch false None guard [] 0 error
  | Ok _ =>
      let listed := if known_tool_validation_required (cw_setting w) context then [ToolsListed] else [] in
      match validate_upstream_batch_tools_known (cw_setting w) server calls (cw_listed w) context with
      | Err error => fail_batch false None guard listed 0 error
      | Ok _ =>
          match remaining_upstream_timeout (cw_call_at w) deadline server_name "tools/call batch" with
          | Err error => fail_batch false None guard listed (cw_upstream_ms w) error
          | Ok _ =>
              let called := listed ++ [UpstreamCalled (map call_tool calls)] in
              match cw_reply w with
              | Err error => fail_batch false None guard called (cw_upstream_ms w) error
              | Ok replies => settle_batch false None guard called replies []
              end
          end
      end
  end.

Definition pooled_batch : list CallEvent * result (list JsonValue * UpstreamPoolCallOutcome) string :=
  match cw_checkout w with
  | Err error => ([], Err error)
  | Ok _ =>
      let listed := if known_tool_validation_required (cw_setting w) context then [ToolsListed] else [] in
      match (match calls with
             | [] => Ok tt
             | _ =>
                 tools ←? verified_tool_names_for_call_with_pool (cw_setting w) server (cw_cached w)
                            (cw_pool_listed w) (validate_tools_list_result server) context ;;
                 ensure_all_known server calls tools
             end) with
      | Err error => (WorkerTaken :: listed ++ [WorkerReturned], Err error)
      | Ok _ =>
          let called := WorkerTaken :: listed ++ [UpstreamCalled (map call_tool calls)] in
          match cw_reply w with
          | Err error => (called ++ [WorkerReturned], Err error)
          | Ok replies =>
              match cw_pool_outcome w with
              | Err error => (called ++ [WorkerReturned], Err error)
              | Ok o => (called ++ [WorkerReturned], Ok (replies, o))
              end
          end
      end
  end.

Definition batch_held_pooled (guard : UpstreamLeaseGuard) : list CallEvent * result JsonValue string :=
  let key := upstream_session_key (cw_root w) (cw_settings w) server (guard_affinity guard) in
  match pooled_batch with
  | (events, Err error) => fail_batch true (Some key) guard events (cw_upstream_ms w) error
  | (events, Ok (replies, o)) => settle_batch true (Some key) guard events replies (upstream_pool_entries o)
  end.

Definition batch_guarded (pooled : bool) : list CallEvent * result JsonValue string :=
  match validate_upstream_batch_tool_policy server calls context with
  | Err error => ([audit_batch pooled false None None 0 (len_N calls) None 0 0 (Some error)], Err error)
  | Ok _ =>
      let '(events, acquired) := cw_acquired w in
      match acquired with
      | Err error =>
          (events ++ [audit_batch pooled false None None 0 (len_N calls) None (cw_queue_ms w) 0 (Some error)],
           Err error)
      | Ok guard =>
          let '(more, outcome) := if pooled then batch_held_pooled guard else batch_held guard in
          (events ++ more, outcome)
      end
  end.

End batch.

Definition call_tools_with_context (w : CallWorld (list JsonValue)) (server_name : string)
    (calls : list UpstreamToolCall) (timeout_ms : option N) (context : option UpstreamLeaseContext)
    : list CallEvent * result JsonValue string :=
  let server_name := trim server_name in
  if str_is_empty server_name then ([], Err "upstream_batch requires non-empty 'server'")
  else match calls with
  | [] => ([], Err "upstream_batch requires at least one call")
  | _ =>
    match lookup_server w server_name with
    | Err error => ([], Err error)
    | Ok server => batch_guarded w server_name calls context server (timeout_for server timeout_ms) false
    end
  end.

Definition call_tools_with_pooled_context (w : CallWorld (list JsonValue)) (server_name : string)
    (calls : list UpstreamToolCall) (timeout_ms : option N) (context : option UpstreamLeaseContext)
    : list CallEvent * result JsonValue string :=
  let server_name := trim server_name in
  if str_is_empty server_name then ([], Err "upstream_batch requires non-empty 'server'")
  else match calls with
  | [] => ([], Err "upstream_batch requires at least one call")
  | _ =>
    match lookup_server w server_name with
    | Err error => ([], Err error)
    | Ok server =>
        if String.eqb (source_type server) "http" then
          call_tools_with_context w server_name calls timeout_ms context
        else batch_guarded w server_name calls context server (timeout_for server timeout_ms) true
    end
  end.

End runtime.
