(* ===== verification/CallDiscipline.v ===== *)
(** * The discipline of tool calls (src/upstream/lease_runtime.rs)

    Theorems about the flows of LeaseRuntime: every path takes, uses and gives back its lease
    in order and leaves one audit record; waiting for a lease ends; the heartbeat keeps the
    lease of LeaseStore's table alive. *)

From Stdlib Require Import Ascii.
From S2P Require Import Prelude RustStr BTree Json TextUtils Execution LeaseRoute LeaseStore LeaseQueue.
From S2P Require Import SessionPool ServerConfig ToolPolicy ToolAudit ToolCache LeaseRuntime.

Section discipline.
Context `{SerdeJson} `{Hasher}.

(** ** The discipline of a call

    [phase] is what the events so far say: no lease yet, the lease held (and how often its
    release was tried in vain), or the lease given back. *)

Inductive phase : Type :=
| NoLease
| HoldsLease (lease_id : string) (failed : nat)
| GaveBack.

Definition advance_phase (p : phase) (e : CallEvent) : option phase :=
  match e, p with
  | LeaseTaken id, NoLease => Some (HoldsLease id 0)
  | LeaseTaken _, _ => None
  | (ToolsListed | WorkerTaken | WorkerInvalidated | WorkerReturned | UpstreamCalled _), HoldsLease _ O => Some p
  | (ToolsListed | WorkerTaken | WorkerInvalidated | WorkerReturned | UpstreamCalled _), _ => None
  | ReleaseRun id ok, HoldsLease held failed =>
      if String.eqb id held then Some (if (ok : bool) then GaveBack else HoldsLease held (S failed)) else None
  | ReleaseRun _ _, _ => None
  | _, _ => Some p
  end.

Fixpoint run_phases (p : phase) (es : list CallEvent) : option phase :=
  match es with
  | [] => Some p
  | e :: es => match advance_phase p e with Some p => run_phases p es | None => None end
  end.

Definition audits (es : list CallEvent) : nat :=
  length (List.filter (fun e => match e with Audited _ => true | _ => false end) es).

Definition reaches_upstream (e : CallEvent) : bool :=
  match e with ToolsListed | WorkerTaken | UpstreamCalled _ => true | _ => false end.

(** A finished call: one audit record is written, the upstream is used only while the lease
    is held, and a lease that was taken is given back, exactly once; only when its last
    release was refused ([accepts] is what the store says to it) is it still held, and then
    the call fails. *)
Definition disciplined (accepts : bool) (es : list CallEvent) (outcome : result JsonValue string) : Prop :=
  audits es = 1 /\
  exists p, run_phases NoLease es = Some p /\
    match p with
    | NoLease => existsb reaches_upstream es = false /\ is_ok outcome = false
    | HoldsLease _ failed => accepts = false /\ 1 <= failed /\ is_ok outcome = false
    | GaveBack => True
    end.

(** The events of taking the lease, as [acquire_upstream_lease] produces them. *)
Definition acquisition (a : list CallEvent * result UpstreamLeaseGuard string) : Prop :=
  audits (fst a) = 0 /\ existsb reaches_upstream (fst a) = false /\
  run_phases NoLease (fst a)
  = Some match snd a with Ok guard => HoldsLease (guard_lease_id guard) 0 | Err _ => NoLease end.

Lemma run_phases_app p es fs :
  run_phases p (es ++ fs) = match run_phases p es with Some q => run_phases q fs | None => None end.
Proof. revert p. induction es as [|e es IH]; intros p; [done|]. simpl. by destruct (advance_phase p e). Qed.

Lemma audits_app es fs : audits (es ++ fs) = audits es + audits fs.
Proof. unfold audits. by rewrite List.filter_app, length_app. Qed.

Lemma acquire_loop_acquisition server_name lane position affinity queued timeout gave_up count answers a :
  acquire_loop server_name lane position affinity queued timeout gave_up count answers = Some a ->
  acquisition a.
Proof.
  revert count. induction answers as [|x answers IH]; intros count; cbn [acquire_loop]; [done|].
  destruct (answer x) as [[id json|json]|e]; [by intros [= <-]| |by intros [= <-]].
  destruct (_ <=? _)%N; [by intros [= <-]|].
  destruct (wait_for_retry _ _ _ _ _ _ _); [apply IH|by intros [= <-]].
Qed.

Lemma acquire_acquisition aw root server context a :
  acquire_upstream_lease aw root server context = Some a -> acquisition a.
Proof.
  unfold acquire_upstream_lease. destruct (is_disabled _); [by intros [= <-]|].
  destruct (execution_affinity_key server context) as [affinity|]; [|by intros [= <-]].
  destruct (_ =? 0)%N.
  { destruct (attempt_answers aw) as [|x xs]; [done|]. intros [= <-].
    unfold acquire_upstream_lease_once. by destruct (answer x) as [[]|]. }
  destruct (enqueue_answer aw) as [position|]; [|by intros [= <-]].
  destruct (head_answer aw); [|by intros [= <-]].
  destruct (acquire_loop _ _ _ _ _ _ _ _ _) as [[events outcome]|] eqn:E; [|done]. intros [= <-].
  by apply acquire_loop_acquisition in E.
Qed.

(** *** While the lease is held *)

Definition held_ok (accepts : bool) (guard : UpstreamLeaseGuard) (es : list CallEvent) (outcome : result JsonValue string) : Prop :=
  audits es = 1 /\
  exists p, run_phases (HoldsLease (guard_lease_id guard) 0) es = Some p /\
    match p with
    | NoLease => False
    | HoldsLease _ failed => accepts = false /\ 1 <= failed /\ is_ok outcome = false
    | GaveBack => True
    end.

(** Events that only use the lease. *)
Definition uses_lease (guard : UpstreamLeaseGuard) (es : list CallEvent) : Prop :=
  audits es = 0 /\
  run_phases (HoldsLease (guard_lease_id guard) 0) es = Some (HoldsLease (guard_lease_id guard) 0).

Lemma fail_held guard before record again (error : string) :
  uses_lease guard before ->
  held_ok (is_ok again) guard (before ++ Audited record :: drop_guard guard again) (Err error).
Proof.
  intros [Ha Hr]. split; [by rewrite audits_app, Ha|]. rewrite run_phases_app, Hr. cbn. rewrite String.eqb_refl.
  destruct again; eexists; by repeat split; simpl; auto.
Qed.

Lemma finalize_held guard hb released again before record (outcome : result JsonValue string) :
  uses_lease guard before ->
  is_ok (snd (finalize_upstream_lease guard hb released again)) = is_ok outcome ->
  held_ok (is_ok again) guard (before ++ fst (finalize_upstream_lease guard hb released again) ++ [Audited record]) outcome.
Proof.
  intros [Ha Hr]. unfold finalize_upstream_lease. destruct released as [release|e]; cbn [fst snd is_ok]; intros Ho.
  - split; [by rewrite audits_app, Ha|]. rewrite run_phases_app, Hr. cbn. rewrite String.eqb_refl. by eexists.
  - split; [by rewrite audits_app, Ha|]. rewrite run_phases_app, Hr. cbn. rewrite !String.eqb_refl.
    destruct again; cbn; eexists; by repeat split; simpl; auto; lia.
Qed.

(** One case per shape of a list of uses. *)
Ltac solve_uses := repeat case_match; split; reflexivity.

Lemma settle_call_held w server_name tool_name arguments context timeout pooled key guard before reply flag entries :
  uses_lease guard before ->
  let a := settle_call w server_name tool_name arguments context timeout pooled key guard before reply flag entries in
  held_ok (is_ok (cw_release_again w)) guard (fst a) (snd a).
Proof.
  intros Hu. unfold settle_call.
  pose proof (finalize_held guard (cw_heartbeat w) (cw_release w) (cw_release_again w) before) as Hf.
  destruct (finalize_upstream_lease _ _ _ _) as [events [o|e]]; cbn [fst snd] in *; by apply Hf.
Qed.

Lemma call_held_ok w server_name tool_name arguments context server timeout guard :
  let a := call_held w server_name tool_name arguments context server timeout guard in
  held_ok (is_ok (cw_release_again w)) guard (fst a) (snd a).
Proof.
  cbv zeta. unfold call_held.
  destruct (remaining_upstream_timeout (cw_verify_at w) _ _ _); [|by apply fail_held].
  destruct (validate_upstream_tool_known _ _ _ _ _); [|apply fail_held; solve_uses].
  destruct (remaining_upstream_timeout (cw_call_at w) _ _ _); [|apply fail_held; solve_uses].
  destruct (cw_reply w) as [reply|]; [|apply fail_held; solve_uses].
  destruct (validate_tool_call_result _ _ _) as [flag|]; [|apply fail_held; solve_uses].
  apply settle_call_held; solve_uses.
Qed.

Lemma pooled_call_uses w tool_name context server guard :
  let a := pooled_call w tool_name context server in
  uses_lease guard (fst a) /\ (forall reply flag, snd a <> Ok (reply, None, Ok flag)).
Proof. cbv zeta. unfold pooled_call. repeat case_match; split; try (split; reflexivity); discriminate. Qed.

Lemma call_held_pooled_ok w server_name tool_name arguments context server timeout guard :
  let a := call_held_pooled w server_name tool_name arguments context server timeout guard in
  held_ok (is_ok (cw_release_again w)) guard (fst a) (snd a).
Proof.
  cbv zeta. unfold call_held_pooled. destruct (pooled_call_uses w tool_name context server guard) as [Hu Hn].
  destruct (pooled_call w tool_name context server) as [events [[[reply [o|]] [flag|e]]|e]]; cbn [fst snd] in *.
  - by apply settle_call_held.
  - by apply fail_held.
  - by destruct (Hn reply flag).
  - by apply fail_held.
  - by apply fail_held.
Qed.

Lemma settle_batch_held w server_name calls context timeout pooled key guard before replies entries :
  uses_lease guard before ->
  let a := settle_batch w server_name calls context timeout pooled key guard before replies entries in
  held_ok (is_ok (cw_release_again w)) guard (fst a) (snd a).
Proof.
  intros Hu. unfold settle_batch.
  pose proof (finalize_held guard (cw_heartbeat w) (cw_release w) (cw_release_again w) before) as Hf.
  destruct (finalize_upstream_lease _ _ _ _) as [events [o|e]]; cbn [fst snd] in *; by apply Hf.
Qed.

Lemma batch_held_ok w server_name calls context server timeout guard :
  let a := batch_held w server_name calls context server timeout guard in held_ok (is_ok (cw_release_again w)) guard (fst a) (snd a).
Proof.
  cbv zeta. unfold batch_held.
  destruct (remaining_upstream_timeout (cw_verify_at w) _ _ _); [|by apply fail_held].
  destruct (validate_upstream_batch_tools_known _ _ _ _ _); [|apply fail_held; solve_uses].
  destruct (remaining_upstream_timeout (cw_call_at w) _ _ _); [|apply fail_held; solve_uses].
  destruct (cw_reply w) as [replies|]; [|apply fail_held; solve_uses].
  apply settle_batch_held; solve_uses.
Qed.

Lemma batch_held_pooled_ok w server_name calls context server timeout guard :
  let a := batch_held_pooled w server_name calls context server timeout guard in held_ok (is_ok (cw_release_again w)) guard (fst a) (snd a).
Proof.
  cbv zeta. unfold batch_held_pooled.
  assert (Hu : uses_lease guard (fst (pooled_batch w calls context server))).
  { unfold pooled_batch. destruct (cw_checkout w); [|done].
    destruct (match calls with [] => _ | _ => _ end); [|solve_uses].
    destruct (cw_reply w); [|solve_uses]. destruct (cw_pool_outcome w); solve_uses. }
  destruct (pooled_batch w calls context server) as [events [[replies o]|e]]; cbn [fst snd] in *.
  - by apply settle_batch_held.
  - by apply fail_held.
Qed.

(** *** Around the lease *)

Lemma acquired_disciplined accepts a record (more : UpstreamLeaseGuard -> list CallEvent * result JsonValue string) :
  acquisition a -> (forall guard, held_ok accepts guard (fst (more guard)) (snd (more guard))) ->
  let b := match snd a with
           | Err error => (fst a ++ [Audited record], Err error)
           | Ok guard => (fst a ++ fst (more guard), snd (more guard))
           end in
  disciplined accepts (fst b) (snd b).
Proof.
  intros (Ha & Hu & Hr) Hm. destruct (snd a) as [guard|error]; cbn [fst snd].
  - destruct (Hm guard) as (Haud & p & Hp & Hend). split; [by rewrite audits_app, Ha|].
    exists p. rewrite run_phases_app, Hr. split; [done|]. by destruct p.
  - split; [by rewrite audits_app, Ha|]. exists NoLease. rewrite run_phases_app, Hr. split; [done|].
    by rewrite existsb_app, Hu.
Qed.

Lemma refused_disciplined accepts record (error : string) : disciplined accepts [Audited record] (Err error).
Proof. split; [done|]. by exists NoLease. Qed.

Lemma call_guarded_disciplined w server_name tool_name arguments context server timeout pooled :
  acquisition (cw_acquired w) ->
  let a := call_guarded w server_name tool_name arguments context server timeout pooled in
  disciplined (is_ok (cw_release_again w)) (fst a) (snd a).
Proof.
  intros Ha. unfold call_guarded. destruct (validate_upstream_tool_policy _ _ _); [|apply refused_disciplined].
  set (more guard := if pooled then call_held_pooled w server_name tool_name arguments context server timeout guard
                     else call_held w server_name tool_name arguments context server timeout guard).
  assert (Hm : forall guard, held_ok (is_ok (cw_release_again w)) guard (fst (more guard)) (snd (more guard))).
  { intros guard. unfold more. destruct pooled; [apply call_held_pooled_ok|apply call_held_ok]. }
  pose proof (acquired_disciplined (is_ok (cw_release_again w)) (cw_acquired w)) as Hd. specialize (fun record => Hd record more Ha Hm).
  destruct (cw_acquired w) as [events [guard|error]]; cbn [fst snd] in *; [|apply Hd].
  specialize (Hd (mkLog EmptyString EmptyString [])). unfold more in *. cbv zeta in Hd.
  destruct (if pooled then _ else _) as [m o]. exact Hd.
Qed.

Lemma batch_guarded_disciplined w server_name calls context server timeout pooled :
  acquisition (cw_acquired w) ->
  let a := batch_guarded w server_name calls context server timeout pooled in
  disciplined (is_ok (cw_release_again w)) (fst a) (snd a).
Proof.
  intros Ha. unfold batch_guarded. destruct (validate_upstream_batch_tool_policy _ _ _); [|apply refused_disciplined].
  set (more guard := if pooled then batch_held_pooled w server_name calls context server timeout guard
                     else batch_held w server_name calls context server timeout guard).
  assert (Hm : forall guard, held_ok (is_ok (cw_release_again w)) guard (fst (more guard)) (snd (more guard))).
  { intros guard. unfold more. destruct pooled; [apply batch_held_pooled_ok|apply batch_held_ok]. }
  pose proof (acquired_disciplined (is_ok (cw_release_again w)) (cw_acquired w)) as Hd. specialize (fun record => Hd record more Ha Hm).
  destruct (cw_acquired w) as [events [guard|error]]; cbn [fst snd] in *; [|apply Hd].
  specialize (Hd (mkLog EmptyString EmptyString [])). unfold more in *. cbv zeta in Hd.
  destruct (if pooled then _ else _) as [m o]. exact Hd.
Qed.

Lemma acquired_or_upstream_needs_policy w server_name tool_name arguments context server timeout pooled e :
  e ∈ fst (call_guarded w server_name tool_name arguments context server timeout pooled) ->
  (forall record, e <> Audited record) -> validate_upstream_tool_policy server tool_name context = Ok tt.
Proof.
  unfold call_guarded. destruct (validate_upstream_tool_policy _ _ _) as [[]|]; [done|].
  intros ->%list_elem_of_singleton Hn. by edestruct Hn.
Qed.

Lemma lookup_server_name {R} (w : CallWorld R) n server : lookup_server w (trim (trim n)) = Ok server <-> lookup_server w (trim n) = Ok server.
Proof. by rewrite trim_idem. Qed.

(** The two entry points for one call, and the two for a batch. *)
Definition call_entry (pooled : bool) :=
  if pooled then call_tool_with_pooled_context else call_tool_with_context.

Definition batch_entry (pooled : bool) :=
  if pooled then call_tools_with_pooled_context else call_tools_with_context.

(** The server and the tool a call is for; [None] when it does not get as far as a server. *)
Definition call_target (w : CallWorld JsonValue) (server_name tool_name : string) : option UpstreamServerConfig :=
  if str_is_empty (trim server_name) || str_is_empty (trim tool_name) then None
  else result_ok (lookup_server w (trim server_name)).

Definition batch_target (w : CallWorld (list JsonValue)) (server_name : string) (calls : list UpstreamToolCall)
    : option UpstreamServerConfig :=
  if str_is_empty (trim server_name) || (match calls with [] => true | _ => false end) then None
  else result_ok (lookup_server w (trim server_name)).

Lemma call_entry_cases pooled w server_name tool_name arguments timeout context :
  let a := call_entry pooled w server_name tool_name arguments timeout context in
  match call_target w server_name tool_name with
  | None => exists error, a = ([], Err error)
  | Some server => exists p, lookup_server w (trim server_name) = Ok server /\
      a = call_guarded w (trim server_name) (trim tool_name) arguments context server (timeout_for server timeout) p
  end.
Proof.
  cbv zeta. unfold call_target.
  assert (Hbase : forall sn tn, trim sn = trim server_name -> trim tn = trim tool_name ->
    match (if str_is_empty (trim server_name) || str_is_empty (trim tool_name) then None else result_ok (lookup_server w (trim server_name))) with
    | None => exists error, call_tool_with_context w sn tn arguments timeout context = ([], Err error)
    | Some server => exists p, lookup_server w (trim server_name) = Ok server /\
        call_tool_with_context w sn tn arguments timeout context
        = call_guarded w (trim server_name) (trim tool_name) arguments context server (timeout_for server timeout) p
    end).
  { intros sn tn Es Et. unfold call_tool_with_context. rewrite Es, Et.
    destruct (str_is_empty (trim server_name)); [cbn; eauto|]. destruct (str_is_empty (trim tool_name)); [cbn; eauto|]. cbn [orb].
    destruct (lookup_server w (trim server_name)) as [server|e]; cbn; eauto. }
  destruct pooled; cbn [call_entry]; [|by apply Hbase].
  specialize (Hbase (trim server_name) (trim tool_name) (trim_idem _) (trim_idem _)).
  unfold call_tool_with_pooled_context. destruct (str_is_empty (trim server_name)); [cbn; eauto|].
  destruct (str_is_empty (trim tool_name)); [cbn; eauto|]. cbn [orb] in *.
  destruct (lookup_server w (trim server_name)) as [server|e] eqn:E; cbn [result_ok] in *; [|eauto].
  destruct (String.eqb _ _); [|eauto]. exact Hbase.
Qed.

Lemma batch_entry_cases pooled w server_name calls timeout context :
  let a := batch_entry pooled w server_name calls timeout context in
  match batch_target w server_name calls with
  | None => exists error, a = ([], Err error)
  | Some server => exists p, lookup_server w (trim server_name) = Ok server /\
      a = batch_guarded w (trim server_name) calls context server (timeout_for server timeout) p
  end.
Proof.
  cbv zeta. unfold batch_target. destruct pooled; cbn [batch_entry].
  - unfold call_tools_with_pooled_context, call_tools_with_context. rewrite trim_idem.
    destruct (str_is_empty (trim server_name)); [cbn; eauto|]. destruct calls as [|c calls]; [cbn; eauto|]. cbn [orb].
    destruct (lookup_server w (trim server_name)) as [server|e] eqn:E; cbn; [|eauto].
    destruct (String.eqb _ _); eauto.
  - unfold call_tools_with_context.
    destruct (str_is_empty (trim server_name)); [cbn; eauto|]. destruct calls as [|c calls]; [cbn; eauto|]. cbn [orb].
    destruct (lookup_server w (trim server_name)) as [server|e] eqn:E; cbn; eauto.
Qed.

(** C3: a tool call, pooled or not, that names a tool and a configured, callable server checks
    the guards before anything else happens, uses the server only while it holds the lease it
    took, writes exactly one audit record, and gives the lease back exactly once on every
    path, errors and timeouts included, if the store accepts the release; if the store
    refuses it to the end, the call fails.  A call that names no such tool and server fails
    and does nothing at all, and is not recorded. *)
Theorem tool_calls_disciplined pooled w aw server_name tool_name arguments timeout context :
  (forall server, lookup_server w (trim server_name) = Ok server ->
     acquire_upstream_lease aw (cw_root w) server context = Some (cw_acquired w)) ->
  let a := call_entry pooled w server_name tool_name arguments timeout context in
  match call_target w server_name tool_name with
  | None => fst a = [] /\ is_ok (snd a) = false
  | Some server =>
      disciplined (is_ok (cw_release_again w)) (fst a) (snd a) /\
      ((exists e, e ∈ fst a /\ forall record, e <> Audited record) ->
       validate_upstream_tool_policy server (trim tool_name) context = Ok tt)
  end.
Proof.
  intros Hacq. cbv zeta.
  pose proof (call_entry_cases pooled w server_name tool_name arguments timeout context) as Hc. cbv zeta in Hc.
  destruct (call_target w server_name tool_name) as [server|]; [|by destruct Hc as [error ->] ].
  destruct Hc as (p & Hs & ->). split; [apply call_guarded_disciplined; by eapply acquire_acquisition, Hacq|].
  intros (e & He & Hn). by eapply acquired_or_upstream_needs_policy.
Qed.

(** The same for a batch of calls. *)
Lemma batch_calls_disciplined pooled w aw server_name calls timeout context :
  (forall server, lookup_server w (trim server_name) = Ok server ->
     acquire_upstream_lease aw (cw_root w) server context = Some (cw_acquired w)) ->
  let a := batch_entry pooled w server_name calls timeout context in
  match batch_target w server_name calls with
  | None => fst a = [] /\ is_ok (snd a) = false
  | Some server =>
      disciplined (is_ok (cw_release_again w)) (fst a) (snd a) /\
      ((exists e, e ∈ fst a /\ forall record, e <> Audited record) ->
       validate_upstream_batch_tool_policy server calls context = Ok tt)
  end.
Proof.
  intros Hacq. cbv zeta. pose proof (batch_entry_cases pooled w server_name calls timeout context) as Hc. cbv zeta in Hc.
  destruct (batch_target w server_name calls) as [server|]; [|by destruct Hc as [error ->] ].
  destruct Hc as (p & Hs & ->). split; [apply batch_guarded_disciplined; by eapply acquire_acquisition, Hacq|].
  intros (e & He & Hn). unfold batch_guarded in He.
  destruct (validate_upstream_batch_tool_policy server calls context) as [[]|]; [done|].
  apply list_elem_of_singleton in He as ->. by edestruct Hn.
Qed.

(** ** Waiting ends *)

Lemma acquire_loop_ends server_name lane position affinity queued timeout gave_up count answers k :
  (forall i a, answers !! i = Some a -> queued + k + N.of_nat i <= tested_at a)%N ->
  (k <= timeout < k + len_N answers)%N ->
  acquire_loop server_name lane position affinity queued timeout gave_up count answers <> None.
Proof.
  revert count k. induction answers as [|a answers IH]; intros count k Hclock Hlen; cbn [acquire_loop].
  { change (len_N []) with 0%N in Hlen. lia. }
  destruct (answer a) as [[id json|json]|e]; [done| |done].
  destruct (N.leb_spec (queued + timeout) (tested_at a)) as [|Hlt]; [done|].
  destruct (wait_for_retry _ _ _ _ _ _ _); [|done].
  apply (IH _ (k + 1)%N).
  - intros i b Hb. specialize (Hclock (S i) b Hb). lia.
  - specialize (Hclock 0 a eq_refl). rewrite len_N_cons in Hlen. lia.
Qed.

(** Taking a lease always returns: when the clock moves on by at least a millisecond
    per attempt, it makes at most as many attempts as its queue timeout has milliseconds, and
    one more. *)
Theorem lease_wait_ends aw root server context :
  (forall i a, attempt_answers aw !! i = Some a -> queued_at aw + N.of_nat i <= tested_at a)%N ->
  (queue_timeout_ms (execution server) < len_N (attempt_answers aw))%N ->
  exists a, acquire_upstream_lease aw root server context = Some a /\ acquisition a.
Proof.
  intros Hclock Hlen.
  destruct (acquire_upstream_lease aw root server context) as [a|] eqn:E.
  { exists a. split; [done|]. by eapply acquire_acquisition. }
  exfalso. unfold acquire_upstream_lease in E. destruct (is_disabled _); [done|].
  destruct (execution_affinity_key server context); [|done].
  destruct (_ =? 0)%N.
  { destruct (attempt_answers aw); [|done]. change (len_N []) with 0%N in Hlen. lia. }
  destruct (enqueue_answer aw) as [position|]; [|done]. destruct (head_answer aw); [|done].
  destruct (acquire_loop _ _ _ _ _ _ _ _ _) as [[]|] eqn:El; [done|].
  apply (acquire_loop_ends _ _ _ _ _ _ _ _ _ 0%N) in El; [done| |lia].
  intros i x Ha. specialize (Hclock i x Ha). lia.
Qed.

End discipline.

(** ** The heartbeat keeps the lease

    What happens to the lease table while a call holds its lease: the renewals of its own
    heartbeat, and the purge every other command starts with. *)

Inductive TableEvent : Type :=
| Renewal (t : N)
| Purge (t : N).

Definition table_event (id : string) (ttl : N) (ls : JsonMap) (e : TableEvent) : JsonMap :=
  match e with
  | Renewal t => fst (LeaseTable.renew id (normalize_ttl (Some ttl)) t (LeaseTable.expire t ls))
  | Purge t => LeaseTable.expire t ls
  end.

(** Every event comes less than [gap] after the last renewal. *)
Fixpoint timely (gap last : N) (es : list TableEvent) : Prop :=
  match es with
  | [] => True
  | Renewal t :: es => (t < last + gap)%N /\ timely gap t es
  | Purge t :: es => (t < last + gap)%N /\ timely gap last es
  end.

Definition event_time (e : TableEvent) : N := match e with Renewal t | Purge t => t end.

Lemma heartbeat_interval_third ttl :
  (150 <= ttl)%N -> (3 * lease_heartbeat_interval ttl <= normalize_ttl (Some ttl))%N.
Proof.
  intros Httl. unfold normalize_ttl. cbn [opt_filter].
  destruct (N.ltb_spec 0 ttl); [|lia]. unfold lease_heartbeat_interval, clamp, MAX_LEASE_TTL_MS.
  set (u := if (ttl <=? U64_MAX)%N then ttl else U64_MAX).
  assert (Hu : (u <= ttl)%N) by (unfold u; destruct (N.leb_spec ttl U64_MAX); lia).
  assert (Hu3 : (150 <= u)%N) by (unfold u, U64_MAX; destruct (N.leb_spec ttl 18446744073709551615); lia).
  pose proof (N.Div0.mul_div_le u 3) as Hd.
  assert (Hlow : (50 <= u / 3)%N) by (change 50%N with (150 / 3)%N; by apply N.Div0.div_le_mono).
  clearbody u. lia.
Qed.

(** The sleep between two renewals is shorter than the life of the lease, for every [ttl]
    above one millisecond. *)
Lemma heartbeat_interval_short ttl :
  (2 <= ttl)%N -> (0 < lease_heartbeat_interval ttl < normalize_ttl (Some ttl))%N.
Proof.
  intros Httl. unfold normalize_ttl. cbn [opt_filter].
  destruct (N.ltb_spec 0 ttl); [|lia]. unfold lease_heartbeat_interval, clamp, MAX_LEASE_TTL_MS, U64_MAX.
  destruct (N.leb_spec ttl 18446744073709551615).
  - pose proof (N.le_0_l (ttl / 3)). lia.
  - change (18446744073709551615 / 3)%N with 6148914691236517205%N. lia.
Qed.

(** The table holds the lease, with an expiry at [t]. *)
Definition lives_until (id : string) (t : N) (ls : JsonMap) : Prop :=
  bt_wf ls /\ exists m, bt_get id ls = Some (JObject m) /\ expires_at_ms (JObject m) = Some t.

Lemma lives_expire id t now ls : lives_until id t ls -> (now < t)%N -> lives_until id t (LeaseTable.expire now ls).
Proof.
  intros (Hwf & m & Hg & He) Ht. split; [by apply bt_retain_wf|]. exists m. split; [|done].
  unfold LeaseTable.expire. rewrite bt_get_retain by done. rewrite Hg.
  assert (Hu : unexpired now (JObject m) = true) by (unfold unexpired; rewrite He; by apply N.ltb_lt).
  cbn. by rewrite Hu.
Qed.

Lemma lives_renew id t now ttl ls :
  lives_until id t ls -> (now + ttl <= U128_MAX)%N -> lives_until id (now + ttl) (fst (LeaseTable.renew id ttl now ls)).
Proof.
  intros (Hwf & m & Hg & _) Hn. unfold LeaseTable.renew. rewrite Hg. cbn [fst].
  rewrite sat_add_exact by done. split; [by apply bt_insert_wf|].
  eexists. rewrite bt_get_insert_eq. cbn [renew_record]. split; [reflexivity|].
  exact (renew_record_expires now (now + ttl) ttl m Hn).
Qed.

(** A lease of at least 150 ms survives as long as its heartbeat is alive: if no
    store access comes three heartbeat intervals or more after the last renewal, the lease is
    in the table throughout, whatever the other commands purge. *)
Theorem heartbeat_keeps_lease id ttl t0 es ls m :
  (150 <= ttl)%N -> bt_wf ls -> bt_get id ls = Some (JObject m) ->
  expires_at_ms (JObject m) = Some (t0 + normalize_ttl (Some ttl))%N ->
  timely (3 * lease_heartbeat_interval ttl) t0 es ->
  Forall (fun e => event_time e + normalize_ttl (Some ttl) <= U128_MAX)%N es ->
  bt_get id (fold_left (table_event id ttl) es ls) <> None.
Proof.
  intros Httl Hwf Hg He Ht Hmax. pose proof (heartbeat_interval_third ttl Httl) as Hthird.
  assert (Hl : lives_until id (t0 + normalize_ttl (Some ttl)) ls) by (split; eauto).
  clear Hwf Hg He m. revert t0 ls Ht Hl. induction Hmax as [|e es He Hmax IH]; intros t0 ls Ht Hl.
  - destruct Hl as (_ & m & Hg & _). cbn [fold_left]. by rewrite Hg.
  - cbn [fold_left]. destruct e as [t|t]; cbn [timely] in Ht; destruct Ht as [Ht Hrest]; cbn [table_event event_time] in *.
    + apply (IH t); [done|]. eapply lives_renew; [|done]. eapply lives_expire; [done|lia].
    + apply (IH t0); [done|]. apply lives_expire; [done|lia].
Qed.

(** A lease of five seconds with one renewal; the interval is a third of it. *)
Definition sample_lease_table : JsonMap :=
  [("lease:1", JObject [("expiresAtMs", JNumber "5007"); ("leaseId", JString "lease:1")])].

Lemma heartbeat_keeps_lease_witness :
  bt_get "lease:1" (fold_left (table_event "lease:1" 5000) [Purge 4000; Renewal 4900; Purge 9800]%N sample_lease_table)
  <> None.
Proof.
  apply (heartbeat_keeps_lease "lease:1" 5000 7 _ _ [("expiresAtMs", JNumber "5007"); ("leaseId", JString "lease:1")]).
  - vm_compute. discriminate.
  - constructor; constructor.
  - reflexivity.
  - vm_compute. reflexivity.
  - vm_compute. tauto.
  - repeat constructor; vm_compute; discriminate.
Defined.

(** ** Concrete calls *)

Definition sample_position : LeaseQueuePosition := {| ticket := 3; depth_at_enqueue := 1; ahead_at_enqueue := 0 |}.

Definition sample_acquire_world : AcquireWorld :=
  mkAcquireWorld 100 (Ok sample_position) (Ok tt)
    [mkAttempt (Ok (Blocked JNull)) 100 100 true 150; mkAttempt (Ok (Acquired "lease:1" JNull)) 150 150 false 150] 150.

Definition sample_upstream : UpstreamServerConfig :=
  mkServer "docs" true None "stdio" (Some "docs-mcp") [] [] [] None None 1000 (normalize (for_mode Shared)) [].

Definition sample_reply : JsonValue := json_object [("content", json_array [])].

Definition sample_world : CallWorld JsonValue :=
  {| cw_servers := Ok [("docs", sample_upstream)]; cw_callable := fun _ => Ok tt; cw_setting := Some "on";
     cw_root := "/w"; cw_settings := (0, 0)%N;
     cw_acquired :=
       match acquire_upstream_lease (H := TreeCodec.codec) (H0 := FnvHasher.hasher) sample_acquire_world "/w"
               sample_upstream None with
       | Some a => a
       | None => ([], Err EmptyString)
       end;
     cw_attached_at := 150; cw_verify_at := 151; cw_call_at := 152; cw_listed := Err "not asked";
     cw_checkout := Ok tt; cw_cached := None; cw_pool_listed := Err "not asked"; cw_reply := Ok sample_reply;
     cw_pool_outcome := Ok (mkPoolOutcome true false 1 0 1 4 1000 0 0); cw_heartbeat := heartbeat_start;
     cw_release := Ok JNull; cw_release_again := Ok JNull; cw_queue_ms := 50; cw_upstream_ms := 5;
     cw_total_ms := 60; cw_call_id := "tc-1-1" |}.

Lemma tool_calls_disciplined_witness :
  let H := TreeCodec.codec in let H0 := FnvHasher.hasher in
  let a := call_entry true sample_world " docs " "search" (json_object []) None None in
  disciplined true (fst a) (snd a).
Proof.
  intros H H0 a.
  destruct (tool_calls_disciplined (H := H) (H0 := H0) true sample_world sample_acquire_world " docs " "search"
              (json_object []) None None) as [Hd _].
  - intros server Hs. vm_compute in Hs. injection Hs as <-. vm_compute. reflexivity.
  - exact Hd.
Defined.

Definition sample_impatient : UpstreamServerConfig :=
  mkServer "docs" true None "stdio" (Some "docs-mcp") [] [] [] None None 1000
    (normalize (apply_json (for_mode Shared) (json_object [("queueTimeoutMs", json_number 1)]) "server.execution")) [].

Lemma lease_wait_ends_witness :
  let H := TreeCodec.codec in let H0 := FnvHasher.hasher in
  exists a, acquire_upstream_lease
      (mkAcquireWorld 100 (Ok sample_position) (Ok tt)
         [mkAttempt (Ok (Blocked JNull)) 100 100 false 100; mkAttempt (Ok (Blocked JNull)) 101 101 false 101] 101)
      "/w" sample_impatient None = Some a /\ acquisition a.
Proof.
  intros H H0. apply lease_wait_ends.
  - intros [|[|i]] a Ha; [injection Ha as <-|injection Ha as <-|done]; vm_compute; discriminate.
  - vm_compute. reflexivity.
Defined.
