(* ===== verification/ToolNames.v ===== *)
(** * Names of projected tools and prompts (src/adapter.rs)

    A tool of an upstream server can be offered to clients under a name of MCPace's own:
    prefix, server, tool and a short hash, joined by underscores, in the alphabet and length
    that clients accept.  [unique_projected_name] retries with a number until the name is
    free; it is given as many attempts as there are used names, and two more. *)

From Stdlib Require Import Ascii DecimalString DecimalFacts DecimalN.
From S2P Require Import Prelude RustStr Execution LeaseRoute.

Definition PROJECTED_TOOL_PREFIX : string := "u".
Definition PROJECTED_PROMPT_PREFIX : string := "p".
Definition PROJECTED_NAME_MAX : N := 64.

(** ** Tokens *)

Definition trim_token_edges (value : string) : string := trim_matches "_" value.

(** The loop over the characters; a character outside ASCII is a run of bytes none of which
    is alphanumeric, so that going over bytes gives the same text. *)
Fixpoint safe_token_loop (last_was_sep : bool) (chars : list ascii) : list ascii :=
  match chars with
  | [] => []
  | ch :: rest =>
      let lower := ascii_lower ch in
      if is_ascii_alphanumeric lower then lower :: safe_token_loop false rest
      else if negb last_was_sep then "_"%char :: safe_token_loop true rest
      else safe_token_loop last_was_sep rest
  end.

Definition safe_token (value : string) : string :=
  let trimmed := trim_token_edges (of_bytes (safe_token_loop false (bytes (trim value)))) in
  if str_is_empty trimmed then "item" else trimmed.

Definition truncate_ascii (value : string) (max_chars : N) : string :=
  of_bytes (fst (take_chars (N.to_nat max_chars) (bytes value))).

(** ** The hash *)

Definition short_hash_step (hash : N) (byte : ascii) : N :=
  wrapping_mul64 (N.lxor hash (code byte)) 1099511628211.

Definition short_hash (value : string) : string :=
  let hash := fold_left short_hash_step (bytes value) 14695981039346656037%N in
  of_bytes (fst (take_chars 10 (bytes (hex16 hash)))).

(** ** Names *)

(** [replace("__", "_")]. *)
Fixpoint replace_double (l : list ascii) : list ascii :=
  match l with
  | a :: ((b :: rest) as tail) =>
      if Ascii.eqb a "_" && Ascii.eqb b "_" then "_"%char :: replace_double rest
      else a :: replace_double tail
  | _ => l
  end.

(** The [while] loop; every round removes a character. *)
Fixpoint collapse_loop (fuel : nat) (candidate : string) : string :=
  match fuel with
  | O => candidate
  | S fuel =>
      if str_contains "__" candidate then collapse_loop fuel (of_bytes (replace_double (bytes candidate)))
      else candidate
  end.

Definition projected_safe_name (prefix server item hash : string) (suffix : N) : string :=
  let prefix := safe_token prefix in
  let server := safe_token server in
  let item := safe_token item in
  let suffix_text := if (suffix =? 0)%N then EmptyString else "_" +:+ N_to_string suffix in
  let reserved := (str_len prefix + str_len hash + str_len suffix_text + 3)%N in
  let body_budget := N.max (PROJECTED_NAME_MAX - reserved) 2 in
  let server_budget := N.min (N.min (str_len server) 18) (N.max (body_budget / 2) 1) in
  let item_budget := N.max (body_budget - server_budget) 1 in
  let server := trim_token_edges (truncate_ascii server server_budget) in
  let item := trim_token_edges (truncate_ascii item item_budget) in
  let candidate := prefix +:+ "_" +:+ server +:+ "_" +:+ item +:+ "_" +:+ hash +:+ suffix_text in
  let candidate := collapse_loop (String.length candidate) candidate in
  if (str_len candidate <=? PROJECTED_NAME_MAX)%N then candidate
  else trim_matches "_" (truncate_ascii candidate PROJECTED_NAME_MAX).

Fixpoint unique_loop (fuel : nat) (prefix server item hash : string) (suffix : N) (used_names : gset string)
    : option (string * gset string) :=
  match fuel with
  | O => None
  | S fuel =>
      let candidate := projected_safe_name prefix server item hash suffix in
      if decide (candidate ∈ used_names)
      then unique_loop fuel prefix server item hash (sat_add USIZE_MAX suffix 1) used_names
      else Some (candidate, {[candidate]} ∪ used_names)
  end.

Definition unique_projected_name (prefix server item : string) (used_names : gset string)
    : option (string * gset string) :=
  let hash := short_hash (server +:+ String "031" item) in
  unique_loop (2 + size used_names) prefix server item hash 0 used_names.

(** ** Words: what the parts and the whole look like

    Lower-case letters and digits, with single underscores between them. *)

Definition word_char (c : ascii) : bool := is_ascii_lowercase c || is_ascii_digit c.

Fixpoint sep_ok (sep : bool) (l : list ascii) : bool :=
  match l with
  | [] => true
  | c :: l => if Ascii.eqb c "_" then negb sep && sep_ok true l else word_char c && sep_ok false l
  end.

Definition word (l : list ascii) : Prop :=
  l <> [] /\ sep_ok true l = true /\ head (rev l) <> Some "_"%char.

Lemma sep_ok_app b l k : sep_ok b (l ++ k) = true -> sep_ok b l = true.
Proof.
  revert b. induction l as [|c l IH]; intros b; cbn [sep_ok app]; [done|].
  destruct (Ascii.eqb c "_"); intros [-> H]%andb_true_iff; eauto.
Qed.

Lemma sep_ok_weaken b l : sep_ok true l = true -> sep_ok b l = true.
Proof. destruct b; [done|]. destruct l as [|c l]; [done|]. cbn. by destruct (Ascii.eqb c "_"). Qed.

Lemma sep_ok_false_head b c l : sep_ok b (c :: l) = true -> c <> "_"%char -> sep_ok true (c :: l) = true.
Proof. cbn. intros H Hc. by rewrite (proj2 (Ascii.eqb_neq _ _) Hc) in *. Qed.

Lemma trim_start_sep b l : sep_ok b l = true -> sep_ok true (trim_start_char "_" l) = true.
Proof.
  revert b. induction l as [|c l IH]; intros b; [done|]. cbn [trim_start_char].
  destruct (Ascii.eqb c "_") eqn:E.
  - cbn [sep_ok]. rewrite E. intros [_ H]%andb_true_iff. eauto.
  - intros H. eapply sep_ok_false_head; [done|]. by apply Ascii.eqb_neq.
Qed.

(** Trimming the edges leaves a word or nothing. *)
Lemma trim_edges_word b s :
  sep_ok b (bytes s) = true -> trim_token_edges s = EmptyString \/ word (bytes (trim_token_edges s)).
Proof.
  intros H%trim_start_sep. unfold trim_token_edges, trim_matches.
  set (l := trim_start_char "_" (bytes s)) in *.
  destruct (trim_start_char_suffix "_" (rev l)) as [pre E].
  apply (f_equal (@rev ascii)) in E. rewrite rev_involutive, rev_app_distr in E.
  pose proof (trim_start_char_head "_" (rev l)) as Hh.
  destruct (trim_start_char "_" (rev l)) as [|c k] eqn:Ek; [by left|right].
  rewrite bytes_of_bytes. split_and!.
  - intros E'. apply (f_equal length) in E'. rewrite length_rev in E'. done.
  - rewrite E in H. by apply sep_ok_app in H.
  - by rewrite rev_involutive.
Qed.

Lemma word_trim s : word (bytes s) -> trim_token_edges s = s.
Proof.
  intros (Hn & Hs & Hl). unfold trim_token_edges, trim_matches.
  rewrite (trim_start_char_id "_" (bytes s)).
  - rewrite (trim_start_char_id "_") by done. by rewrite rev_involutive, of_bytes_bytes.
  - destruct (bytes s) as [|c l]; [done|]. cbn in *. intros [= ->]. done.
Qed.

Lemma safe_token_loop_sep b l : sep_ok b (safe_token_loop b l) = true.
Proof.
  revert b. induction l as [|c l IH]; intros b; [done|]. cbn [safe_token_loop].
  destruct (is_ascii_alphanumeric (ascii_lower c)) eqn:E.
  - assert (Hw : word_char (ascii_lower c) = true /\ Ascii.eqb (ascii_lower c) "_" = false)
      by (clear -E; by destruct c as [[][][][][][][][]]).
    destruct Hw as [Hw Hn]. cbn [sep_ok]. rewrite Hn, Hw. apply IH.
  - destruct b; cbn [negb]; [apply IH|]. cbn. apply IH.
Qed.

Lemma safe_token_word value : word (bytes (safe_token value)).
Proof.
  unfold safe_token.
  destruct (trim_edges_word false (of_bytes (safe_token_loop false (bytes (trim value))))) as [-> | H].
  - rewrite bytes_of_bytes. apply safe_token_loop_sep.
  - by vm_compute.
  - destruct (str_is_empty _) eqn:E; [|done]. apply str_is_empty_true in E. by rewrite E in H.
Qed.

Lemma word_char_ascii c : word_char c = true -> in_range 128 191 c = false /\ (code c <? 128)%N = true.
Proof. by destruct c as [[][][][][][][][]]. Qed.

Lemma sep_ok_take b l n : sep_ok b l = true -> fst (take_chars n l) = firstn n l.
Proof.
  revert b n. induction l as [|c l IH]; intros b n; [by destruct n|]. cbn [sep_ok].
  intros H. assert (Hc : in_range 128 191 c = false /\ exists b', sep_ok b' l = true).
  { destruct (Ascii.eqb c "_") eqn:E.
    - apply Ascii.eqb_eq in E as ->. apply andb_true_iff in H as [_ H]. eauto.
    - apply andb_true_iff in H as [Hc H]. split; [by apply word_char_ascii|eauto]. }
  destruct Hc as [Hr [b' Hb]]. cbn [take_chars]. rewrite Hr. destruct n as [|n]; [done|].
  specialize (IH b' n Hb). destruct (take_chars n l) as [f r]. cbn in *. by rewrite IH.
Qed.

Lemma word_head l : word l -> exists c k, l = c :: k /\ word_char c = true /\ c <> "_"%char.
Proof.
  intros (Hn & Hs & _). destruct l as [|c k]; [done|]. cbn in Hs. exists c, k.
  destruct (Ascii.eqb_spec c "_"); [done|]. apply andb_true_iff in Hs as [Hs _]. done.
Qed.

Lemma trim_token_edges_len s : (str_len (trim_token_edges s) <= str_len s)%N.
Proof.
  unfold trim_token_edges, trim_matches. rewrite !str_len_bytes, bytes_of_bytes. unfold len_N.
  rewrite length_rev. destruct (trim_start_char_suffix "_" (bytes s)) as [p E].
  destruct (trim_start_char_suffix "_" (rev (trim_start_char "_" (bytes s)))) as [q E'].
  apply (f_equal length) in E, E'. rewrite length_app in E, E'. rewrite length_rev in E'. cbn [fst] in *.
  lia.
Qed.

(** A budgeted part of a token is a word within its budget. *)
Lemma budgeted_word value n :
  (1 <= n)%N ->
  let t := trim_token_edges (truncate_ascii (safe_token value) n) in
  word (bytes t) /\ (str_len t <= n)%N.
Proof.
  intros Hn. cbn zeta. pose proof (safe_token_word value) as Hw.
  destruct (word_head _ Hw) as (c & k & E & Hc & Hu). destruct Hw as (_ & Hs & _).
  unfold truncate_ascii. rewrite (sep_ok_take true) by done.
  set (l := firstn (N.to_nat n) (bytes (safe_token value))).
  assert (Hl : sep_ok true l = true).
  { apply (sep_ok_app true l (skipn (N.to_nat n) (bytes (safe_token value)))).
    unfold l. by rewrite firstn_skipn. }
  assert (Hlen : (str_len (of_bytes l) <= n)%N).
  { rewrite str_len_bytes, bytes_of_bytes. unfold len_N, l. rewrite length_firstn. lia. }
  pose proof (trim_token_edges_len (of_bytes l)) as Hle. split; [|lia].
  destruct (trim_edges_word true (of_bytes l)) as [H | H]; [by rewrite bytes_of_bytes| |done].
  exfalso. unfold trim_token_edges, trim_matches in H. rewrite bytes_of_bytes in H.
  assert (Hhd : exists k', l = c :: k').
  { unfold l. rewrite E. destruct (N.to_nat n) eqn:En; [lia|]. cbn. eauto. }
  destruct Hhd as [k' ->].
  rewrite (trim_start_char_id "_" (c :: k')) in H by (cbn; congruence).
  apply (f_equal bytes) in H. rewrite bytes_of_bytes in H. apply (f_equal (@rev ascii)) in H.
  rewrite rev_involutive in H. cbn [rev bytes String.list_ascii_of_string] in H.
  clear -H Hu. induction (rev k') as [|x r IH]; cbn in H.
  - destruct (Ascii.eqb_spec c "_"); done.
  - destruct (Ascii.eqb x "_"); [by apply IH|done].
Qed.

Lemma sep_ok_join b l k :
  sep_ok b l = true -> l <> [] -> head (rev l) <> Some "_"%char -> sep_ok true k = true ->
  sep_ok b (l ++ "_"%char :: k) = true.
Proof.
  revert b. induction l as [|c l IH]; intros b Hl Hn Hh Hk; [done|]. cbn [app sep_ok] in *.
  destruct l as [|d l].
  - destruct (Ascii.eqb_spec c "_") as [-> |]; [done|]. apply andb_true_iff in Hl as [-> _]. done.
  - assert (Hh' : head (rev (d :: l)) <> Some "_"%char).
    { intros E. apply Hh. cbn [rev] in *. destruct (rev l ++ [d]) eqn:Er; [by destruct (rev l)|done]. }
    destruct (Ascii.eqb c "_"); apply andb_true_iff in Hl as [-> Hl]; apply IH; auto.
Qed.

Lemma word_join l k : word l -> word k -> word (l ++ "_"%char :: k).
Proof.
  intros (Hn & Hs & Hh) (Hn' & Hs' & Hh'). split_and!.
  - by destruct l.
  - by apply sep_ok_join.
  - rewrite rev_app_distr. cbn [rev]. rewrite <- !app_assoc. cbn [app].
    destruct (rev k) as [|c r] eqn:E; [|done].
    apply (f_equal (@rev ascii)) in E. by rewrite rev_involutive in E.
Qed.

Lemma word_of_chars l : l <> [] -> Forall (fun c => word_char c = true) l -> word l.
Proof.
  intros Hn Hf. assert (Hu : forall c, word_char c = true -> Ascii.eqb c "_" = false)
    by (intros c; by destruct c as [[][][][][][][][]]).
  split_and!; [done| |].
  - assert (Hs : forall b, sep_ok b l = true); [|done].
    clear Hn. induction Hf as [|c l Hc Hf IH]; intros b; [done|]. cbn. rewrite (Hu c Hc), Hc. apply IH.
  - apply Forall_rev in Hf. destruct Hf as [|c r Hc]; [done|]. cbn. intros [= ->]. done.
Qed.

Lemma hex_pad_word d n acc :
  Forall (fun c => word_char c = true) (bytes acc) ->
  Forall (fun c => word_char c = true) (bytes (hex_pad d n acc)) /\
  length (bytes (hex_pad d n acc)) = d + length (bytes acc).
Proof.
  revert n acc. induction d as [|d IH]; intros n acc Ha; [done|]. cbn [hex_pad].
  destruct (IH (n / 16)%N (String (hex_digit (n mod 16)) acc)) as [H1 H2].
  { constructor; [|done]. assert (H : (n mod 16 < 16)%N) by (apply N.mod_lt; lia).
    revert H. generalize (n mod 16)%N. intros m H.
    unfold hex_digit, word_char, is_ascii_lowercase, is_ascii_digit, in_range.
    rewrite code_ascii_of_N by (case_stuck; lia). apply orb_true_iff.
    destruct (N.ltb_spec m 10); [right|left]; apply andb_true_iff; split; apply N.leb_le; lia. }
  split; [done|]. rewrite H2. symmetry. apply plus_n_Sm.
Qed.

Lemma short_hash_shape value : word (bytes (short_hash value)) /\ str_len (short_hash value) = 10%N.
Proof.
  unfold short_hash. set (h := fold_left _ _ _). clearbody h.
  destruct (hex_pad_word 16 h EmptyString ltac:(constructor)) as [Hf Hl]. change (hex_pad 16 h EmptyString) with (hex16 h) in *.
  assert (Hw : word (bytes (hex16 h))) by (apply word_of_chars; [by destruct (bytes _)|done]).
  destruct Hw as (_ & Hs & _). rewrite (sep_ok_take true) by done.
  rewrite str_len_bytes, bytes_of_bytes. unfold len_N. rewrite length_firstn, Hl. split; [|done].
  apply word_of_chars; [|by apply Forall_take].
  intros E. apply (f_equal length) in E. rewrite length_firstn, Hl in E. done.
Qed.

(** The number of digits of a number. *)
Lemma uint_value_ge acc d : (acc * 10 ^ str_len (NilEmpty.string_of_uint d) <= uint_value acc d)%N.
Proof.
  revert acc. induction d; intros acc; cbn [NilEmpty.string_of_uint uint_value].
  { change (10 ^ str_len "")%N with 1%N. lia. }
  all: match goal with |- (_ * 10 ^ str_len (String ?c ?s) <= uint_value ?a _)%N =>
    replace (str_len (String c s)) with (N.succ (str_len s)) by (unfold str_len; cbn [String.length]; lia);
    rewrite N.pow_succ_r'; etrans; [|apply (IHd a)]; generalize (10 ^ str_len s)%N; intros X; nia end.
Qed.

Lemma N_to_string_len n k : (0 < n < 10 ^ k)%N -> (str_len (N_to_string n) <= k)%N.
Proof.
  intros [Hp Hn]. unfold N_to_string.
  assert (Hv : uint_value 0 (N.to_uint n) = n) by (by rewrite uint_value_of_uint, DecimalN.Unsigned.of_to).
  pose proof (DecimalN.Unsigned.to_of (N.to_uint n)) as Hu. rewrite DecimalN.Unsigned.of_to in Hu.
  set (d := N.to_uint n) in *. clearbody d.
  assert (Hd : exists c e, (1 <= c)%N /\ uint_value 0 d = uint_value c e /\
    str_len (NilEmpty.string_of_uint d) = N.succ (str_len (NilEmpty.string_of_uint e))).
  { destruct d as [|d|d|d|d|d|d|d|d|d|d]; [cbn in Hv; lia|
      exfalso|exists 1%N, d|exists 2%N, d|exists 3%N, d|exists 4%N, d|exists 5%N, d|exists 6%N, d
      |exists 7%N, d|exists 8%N, d|exists 9%N, d];
      try (split_and!; [lia|reflexivity|unfold str_len; cbn [NilEmpty.string_of_uint String.length]; lia]).
    clear -Hu Hv Hp. unfold Decimal.unorm in Hu. cbn [Decimal.nzhead] in Hu.
    destruct (Decimal.nzhead d) as [|u| | | | | | | | | ] eqn:E; try done.
    - injection Hu as ->. cbn in Hv. lia.
    - by pose proof (DecimalFacts.nzhead_nonzero d u E). }
  destruct Hd as (c & e & Hc & E & ->). pose proof (uint_value_ge c e) as Hge.
  rewrite <- E, Hv in Hge. apply N.le_succ_l. apply (N.pow_lt_mono_r_iff 10); [lia|]. nia.
Qed.

(** ** Shape of the names *)

Lemma sep_ok_no_double b s : sep_ok b (bytes s) = true -> str_contains "__" s = false.
Proof.
  revert b. induction s as [|c s IH]; intros b; [done|].
  change (bytes (String c s)) with (c :: bytes s). intros H.
  cbn [str_contains]. apply orb_false_iff. split.
  - unfold starts_with. cbn [String.prefix]. destruct (Ascii.ascii_dec "_" c) as [<- |]; [|done].
    cbn in H. apply andb_true_iff in H as [_ H]. destruct s as [|d s]; [done|].
    change (bytes (String d s)) with (d :: bytes s) in H. cbn [String.prefix].
    cbn in H. destruct (Ascii.ascii_dec "_" d) as [<- |]; [done|done].
  - cbn [sep_ok] in H. destruct (Ascii.eqb c "_"); apply andb_true_iff in H as [_ H]; eauto.
Qed.

Lemma collapse_loop_word fuel s : word (bytes s) -> collapse_loop fuel s = s.
Proof.
  intros (_ & H & _). destruct fuel; [done|]. cbn. by rewrite (sep_ok_no_double true).
Qed.

Definition suffix_text (suffix : N) : string :=
  if (suffix =? 0)%N then EmptyString else "_" +:+ N_to_string suffix.

Lemma digits_word n : word (bytes (N_to_string n)).
Proof.
  apply word_of_chars.
  - destruct (N_to_string_head n) as (c & s & -> & _). done.
  - pose proof (N_to_string_all_digits n) as H. unfold all_bytes in H. rewrite forallb_forall in H.
    apply Forall_forall. intros c Hc. apply list_elem_of_In in Hc. apply H in Hc.
    unfold word_char. by rewrite Hc, orb_true_r.
Qed.

Lemma suffix_text_len suffix : (suffix <= USIZE_MAX)%N -> (str_len (suffix_text suffix) <= 21)%N.
Proof.
  intros H. unfold suffix_text. destruct (N.eqb_spec suffix 0); [done|].
  rewrite str_len_app. change (str_len "_") with 1%N.
  pose proof (N_to_string_len suffix 20). apply N.add_le_mono_l with (p := 1%N) (m := 20%N).
  apply H0. split; [lia|]. eapply N.le_lt_trans; [exact H|]. done.
Qed.

(** The parts of a name for some budgets, and its length. *)
Definition name_of (prefix server item hash : string) (suffix : N) : string :=
  prefix +:+ "_" +:+ server +:+ "_" +:+ item +:+ "_" +:+ hash +:+ suffix_text suffix.

Lemma name_of_word prefix server item hash suffix :
  word (bytes prefix) -> word (bytes server) -> word (bytes item) -> word (bytes hash) ->
  word (bytes (name_of prefix server item hash suffix)).
Proof.
  intros Hp Hs Hi Hh. unfold name_of. rewrite !bytes_app. change (bytes "_") with ["_"%char]. cbn [app].
  apply word_join, word_join, word_join; try done.
  unfold suffix_text. destruct (suffix =? 0)%N.
  - change (bytes EmptyString) with (@nil ascii). by rewrite app_nil_r.
  - rewrite bytes_app. apply word_join; [done|apply digits_word].
Qed.

Lemma name_of_len prefix server item hash suffix :
  str_len (name_of prefix server item hash suffix)
  = (str_len prefix + str_len server + str_len item + str_len hash + str_len (suffix_text suffix) + 3)%N.
Proof. unfold name_of. rewrite !str_len_app. change (str_len "_") with 1%N. lia. Qed.

Lemma projected_safe_name_shape prefix server item hash suffix :
  (str_len (safe_token prefix) <= 8)%N -> word (bytes hash) -> str_len hash = 10%N ->
  (suffix <= USIZE_MAX)%N ->
  exists s i, projected_safe_name prefix server item hash suffix = name_of (safe_token prefix) s i hash suffix /\
    word (bytes s) /\ word (bytes i) /\ word (bytes (name_of (safe_token prefix) s i hash suffix)) /\
    (str_len (name_of (safe_token prefix) s i hash suffix) <= PROJECTED_NAME_MAX)%N.
Proof.
  intros Hp Hh Hl Hs. pose proof (suffix_text_len suffix Hs) as Hx.
  unfold projected_safe_name. fold (suffix_text suffix). rewrite Hl.
  set (reserved := (str_len (safe_token prefix) + 10 + str_len (suffix_text suffix) + 3)%N).
  assert (Hr : (reserved <= 42)%N) by (unfold reserved; lia).
  unfold PROJECTED_NAME_MAX.
  set (body := N.max (64 - reserved) 2).
  assert (Hbody : (22 <= body)%N /\ (body + reserved = 64)%N) by (unfold body; lia).
  set (sb := N.min (N.min (str_len (safe_token server)) 18) (N.max (body / 2) 1)).
  assert (Hsb : (1 <= sb <= 18)%N).
  { assert (Hd : (11 <= body / 2)%N) by (apply N.div_le_lower_bound; lia).
    assert (Hn : (1 <= str_len (safe_token server))%N).
    { destruct (word_head _ (safe_token_word server)) as (c & k & E & _).
      rewrite str_len_bytes, E, len_N_cons. lia. }
    unfold sb. lia. }
  destruct (budgeted_word server sb) as [Hws Hls]; [lia|].
  destruct (budgeted_word item (N.max (body - sb) 1)) as [Hwi Hli]; [lia|].
  set (s := trim_token_edges _) in Hws, Hls |- *. set (i := trim_token_edges (truncate_ascii (safe_token item) _)) in *.
  exists s, i. fold (name_of (safe_token prefix) s i hash suffix).
  assert (Hw : word (bytes (name_of (safe_token prefix) s i hash suffix)))
    by (apply name_of_word; try done; apply safe_token_word).
  assert (Hlen : (str_len (name_of (safe_token prefix) s i hash suffix) <= 64)%N).
  { rewrite name_of_len, Hl. unfold reserved in *. lia. }
  rewrite collapse_loop_word by done. rewrite (proj2 (N.leb_le _ _) Hlen). done.
Qed.

(** ** Freshness *)

Lemma last_segment (l l' d e : list ascii) c :
  l ++ c :: d = l' ++ c :: e -> c ∉ d -> c ∉ e -> d = e.
Proof.
  intros E Hd He. apply app_eq_inv in E as [ (k & -> & E) | (k & -> & E) ]; destruct k as [|x k]; cbn in E;
    try congruence.
  - exfalso. injection E as <- ->. apply He. apply elem_of_app. right. left.
  - exfalso. injection E as <- ->. apply Hd. apply elem_of_app. right. left.
Qed.

Lemma digits_no_underscore n : "_"%char ∉ bytes (N_to_string n).
Proof.
  intros H%list_elem_of_In. pose proof (N_to_string_all_digits n) as Hd. unfold all_bytes in Hd.
  rewrite forallb_forall in Hd. by apply Hd in H.
Qed.

Lemma name_of_suffix_inj p s i p' s' i' h n m :
  n <> 0%N -> m <> 0%N -> name_of p s i h n = name_of p' s' i' h m -> n = m.
Proof.
  intros Hn Hm E. unfold name_of, suffix_text in E.
  rewrite (proj2 (N.eqb_neq _ _) Hn), (proj2 (N.eqb_neq _ _) Hm) in E.
  apply (f_equal bytes) in E. rewrite !bytes_app in E. change (bytes "_") with ["_"%char] in E.
  rewrite !(app_assoc _ ["_"%char]) in E. rewrite !app_assoc in E. rewrite <- (app_assoc _ ["_"%char] (bytes (N_to_string n))) in E.
  rewrite <- (app_assoc _ ["_"%char] (bytes (N_to_string m))) in E. cbn [app] in E.
  apply last_segment in E; [|apply digits_no_underscore..].
  by apply bytes_inj, N_to_string_inj in E.
Qed.

Section names.
Context (prefix server item hash : string).
Context (Hprefix : (str_len (safe_token prefix) <= 8)%N).
Context (Hhash : word (bytes hash)) (Hlen : str_len hash = 10%N).

Local Notation "'candidate' n" := (projected_safe_name prefix server item hash n) (at level 10, n at level 9).

Lemma candidates_distinct n m :
  (n <= USIZE_MAX)%N -> (m <= USIZE_MAX)%N -> n <> 0%N -> m <> 0%N -> candidate n = candidate m -> n = m.
Proof using Hprefix Hhash Hlen.
  intros Hn Hm Hn0 Hm0.
  destruct (projected_safe_name_shape prefix server item hash n) as (s & i & -> & _); try done.
  destruct (projected_safe_name_shape prefix server item hash m) as (s' & i' & -> & _); try done.
  by apply name_of_suffix_inj.
Qed.

Lemma unique_loop_None fuel suffix used :
  (suffix + N.of_nat fuel <= USIZE_MAX)%N ->
  unique_loop fuel prefix server item hash suffix used = None ->
  forall i, (i < N.of_nat fuel)%N -> candidate (suffix + i) ∈ used.
Proof.
  revert suffix. induction fuel as [|fuel IH]; intros suffix Hs H i Hi; [lia|].
  cbn [unique_loop] in H. destruct (decide _) as [Hu|]; [|done].
  rewrite sat_add_exact in H by lia. destruct (N.eq_dec i 0%N) as [-> |Hi0]; [by rewrite N.add_0_r|].
  replace (suffix + i)%N with (suffix + 1 + (i - 1))%N by lia. eapply IH; [|done|]; lia.
Qed.

Lemma unique_loop_Some fuel suffix used name used' :
  (suffix + N.of_nat fuel <= USIZE_MAX)%N ->
  unique_loop fuel prefix server item hash suffix used = Some (name, used') ->
  (name ∉ used) /\ used' = {[name]} ∪ used /\ exists n, (n <= USIZE_MAX)%N /\ name = candidate n.
Proof.
  revert suffix. induction fuel as [|fuel IH]; intros suffix Hs H; [done|].
  cbn [unique_loop] in H. destruct (decide _) as [Hu|Hu].
  - rewrite sat_add_exact in H by lia. eapply IH; [|done]. lia.
  - injection H as <- <-. split_and!; [done|done|]. exists suffix. split; [lia|done].
Qed.

(** Among one more candidates than there are used names, one is free. *)
Lemma unique_loop_finds used :
  (2 + N.of_nat (size used) <= USIZE_MAX)%N ->
  unique_loop (2 + size used) prefix server item hash 0 used <> None.
Proof using Hprefix Hhash Hlen.
  intros Hs H. pose proof (unique_loop_None (2 + size used) 0 used) as Hin.
  specialize (Hin ltac:(lia) H).
  set (names := map (fun k => candidate (N.of_nat k)) (seq 1 (S (size used)))).
  assert (Hnd : NoDup names).
  { unfold names. apply NoDup_fmap_2_strong; [|apply NoDup_seq].
    intros x y Hx%elem_of_seq Hy%elem_of_seq E. apply Nat2N.inj. apply candidates_distinct; try done; lia. }
  assert (Hsub : (list_to_set names : gset string) ⊆ used).
  { intros x Hx%elem_of_list_to_set. unfold names in Hx. apply list_elem_of_fmap in Hx as (k & -> & Hk%elem_of_seq).
    apply (Hin (N.of_nat k)). lia. }
  apply subseteq_size in Hsub. rewrite size_list_to_set in Hsub by done.
  unfold names in Hsub. rewrite length_map, length_seq in Hsub. lia.
Qed.

End names.

(** Every name found is new, a word of at most 64 characters and starts with the prefix. *)
Definition projected_name (prefix name : string) : Prop :=
  word (bytes name) /\ (str_len name <= PROJECTED_NAME_MAX)%N /\
  starts_with (safe_token prefix +:+ "_") name = true.

Lemma unique_projected_name_spec prefix server item used :
  (str_len (safe_token prefix) <= 8)%N -> (2 + N.of_nat (size used) <= USIZE_MAX)%N ->
  exists name, unique_projected_name prefix server item used = Some (name, {[name]} ∪ used) /\
    (name ∉ used) /\ projected_name prefix name.
Proof.
  intros Hp Hs. unfold unique_projected_name. set (hash := short_hash _).
  destruct (short_hash_shape (server +:+ String "031" item)) as [Hw Hl].
  destruct (unique_loop _ _ _ _ _ _ _) as [ [name used'] |] eqn:E.
  - apply unique_loop_Some in E as (Hn & -> & n & Hm & ->); [|done..|lia].
    destruct (projected_safe_name_shape prefix server item hash n) as (s & i & E & _ & _ & Hword & Hlen); try done.
    rewrite E in *. eexists. split; [done|]. split; [done|]. split; [done|]. split; [done|].
    unfold name_of. rewrite <- append_assoc_str. apply starts_with_app.
  - by apply unique_loop_finds in E.
Qed.
