(* ===== verification/SortBy.v ===== *)
(** * Stable sorting and bounded selection

    [slice::sort_by] is a stable sort.  For a strict weak order the stable sort of a list is
    unique; it is written here as insertion of the elements from the left, each behind the
    elements that do not come after it.  Keeping only the first [k] elements after every
    insertion gives the first [k] elements of the sorted list. *)

From S2P Require Import Prelude.

Section sort_by.
Context {A : Type} (before : A -> A -> bool).

(** [x] goes before the first element that it precedes. *)
Fixpoint insert_by (x : A) (l : list A) : list A :=
  match l with
  | [] => [x]
  | y :: l => if before x y then x :: y :: l else y :: insert_by x l
  end.

Definition sort_by (l : list A) : list A := fold_left (fun acc x => insert_by x acc) l [].

Lemma insert_by_perm x l : insert_by x l ≡ₚ x :: l.
Proof.
  induction l as [|y l IH]; [done|]. cbn [insert_by]. destruct (before x y); [done|].
  rewrite IH. apply Permutation_swap.
Qed.

Lemma fold_insert_perm l acc : fold_left (fun acc x => insert_by x acc) l acc ≡ₚ l ++ acc.
Proof.
  revert acc. induction l as [|x l IH]; intros acc; [done|]. cbn [fold_left]. rewrite IH, insert_by_perm.
  symmetry. apply Permutation_middle.
Qed.

Lemma sort_by_perm l : sort_by l ≡ₚ l.
Proof. unfold sort_by. rewrite fold_insert_perm. by rewrite app_nil_r. Qed.

Lemma sort_by_elem x l : x ∈ sort_by l <-> x ∈ l.
Proof. by rewrite sort_by_perm. Qed.

Lemma sort_by_length l : length (sort_by l) = length l.
Proof. by rewrite sort_by_perm. Qed.

(** Only what is within the first [k] places after an insertion depends on the first [k]
    elements before it. *)
Lemma firstn_insert_by k x l : firstn k (insert_by x (firstn k l)) = firstn k (insert_by x l).
Proof.
  revert l. induction k as [|k IH]; intros l; [done|]. destruct l as [|y l]; [done|].
  cbn [firstn insert_by]. destruct (before x y) eqn:E.
  - cbn [firstn]. f_equal. destruct k as [|k]; [done|]. cbn [firstn]. f_equal.
    rewrite firstn_firstn. f_equal. lia.
  - cbn [firstn]. f_equal. apply IH.
Qed.

Lemma bounded_fold k l acc acc' :
  firstn k acc = firstn k acc' ->
  firstn k (fold_left (fun acc x => firstn k (insert_by x acc)) l acc)
  = firstn k (fold_left (fun acc x => insert_by x acc) l acc').
Proof.
  revert acc acc'. induction l as [|x l IH]; intros acc acc' E; [done|]. cbn [fold_left]. apply IH.
  rewrite firstn_firstn, Nat.min_id. by rewrite <- firstn_insert_by, E, firstn_insert_by.
Qed.

(** Selecting with a bound is sorting and cutting off. *)
Lemma bounded_selection k l :
  fold_left (fun acc x => firstn k (insert_by x acc)) l [] = firstn k (sort_by l).
Proof.
  unfold sort_by. rewrite <- (bounded_fold k l [] []) by done. symmetry. apply take_ge.
  assert (H : forall l acc, length acc <= k -> length (fold_left (fun acc x => firstn k (insert_by x acc)) l acc) <= k).
  { clear l. intros l. induction l as [|x l IH]; intros acc Ha; [done|]. cbn [fold_left]. apply IH.
    rewrite length_firstn. lia. }
  apply H. cbn. lia.
Qed.

(** With a transitive and total order the result is sorted: nothing precedes an element in
    front of it. *)
Context (Htrans : forall x y z, before y x = false -> before z y = false -> before z x = false).
Context (Hasym : forall x y, before x y = true -> before y x = false).

Lemma insert_by_sorted x l :
  StronglySorted (fun a b => before b a = false) l ->
  StronglySorted (fun a b => before b a = false) (insert_by x l).
Proof using Htrans Hasym.
  induction 1 as [|y l Hs IH Hf]; [by repeat constructor|]. cbn [insert_by].
  destruct (before x y) eqn:E.
  - constructor; [by constructor|]. apply Hasym in E. constructor; [done|].
    eapply Forall_impl; [exact Hf|]. cbn. intros z Hz. eauto.
  - constructor; [done|]. rewrite insert_by_perm. by constructor.
Qed.

Lemma sort_by_sorted l : StronglySorted (fun a b => before b a = false) (sort_by l).
Proof using Htrans Hasym.
  unfold sort_by. apply (fold_left_invariant _ (fun acc => StronglySorted (fun a b => before b a = false) acc)).
  - intros acc x Ha. by apply insert_by_sorted.
  - constructor.
Qed.

(** What is cut off does not precede what is kept. *)
Lemma sort_by_cut k l x y :
  x ∈ firstn k (sort_by l) -> y ∈ skipn k (sort_by l) -> before y x = false.
Proof using Htrans Hasym.
  pose proof (sort_by_sorted l) as Hs. rewrite <- (take_drop k (sort_by l)) in Hs.
  intros Hx Hy. apply StronglySorted_app in Hs as (H & _ & _). exact (H x y Hx Hy).
Qed.

End sort_by.
