(* ===== verification/ToolView.v ===== *)
(** * Views of upstream tools, prompts and resources (src/adapter.rs, src/adapter/discovery.rs)

    What MCPace shows of the tools, prompts and resources of upstream servers: shortened
    texts, tags and safety hints guessed from names, compacted schemas, the definitions
    under MCPace's names, and the pages of a list.  The process environment is a parameter
    ([environment name] is what [std::env::var(name).ok()] gives). *)

From Stdlib Require Import Ascii.
From S2P Require Import Prelude RustStr BTree Json ProxyUri.

Definition DEFAULT_PROJECTED_DESCRIPTION_CHARS : N := 360.
Definition DEFAULT_PROJECTED_SCHEMA_DESCRIPTION_CHARS : N := 160.
Definition PROXIED_TEMPLATE_SCHEME : string := "mcpace://upstream-resource-template".

Record ToolSurfaceOptions := mkSurface { include_title : bool; include_annotations : bool }.

Definition surface_current : ToolSurfaceOptions := mkSurface true true.
Definition surface_compact : ToolSurfaceOptions := mkSurface false false.

(** ** Texts *)

(** Every character that is not an ASCII letter or digit becomes a space. *)
Definition normalize_text (value : string) : string :=
  map_chars (fun ch => if is_ascii_alphanumeric ch then ascii_lower ch else " "%char) " " value.

(** [split_whitespace] of a text whose only white space is the space, as [normalize_text]
    gives. *)
Definition split_spaces (value : string) : list string :=
  List.filter (fun term => negb (str_is_empty term)) (split_char " " value).

Definition truncate_chars (value : string) (max_chars : N) : string :=
  let '(front, rest) := take_chars (N.to_nat max_chars) (bytes value) in
  match rest with
  | [] => of_bytes front
  | _ => of_bytes front +:+ "…"
  end.

Definition string_or (d : string) (o : option string) : string := unwrap_or o d.

(** [string_at_path(tool, &[key]).unwrap_or("")]. *)
Definition text_of (tool : JsonValue) (key : string) : string :=
  string_or EmptyString (string_at_path tool [key]).

Definition value_or_null (tool : JsonValue) (key : string) : JsonValue :=
  unwrap_or (value_at_path tool [key]) JNull.

(** [as_object().cloned().unwrap_or_else(BTreeMap::new)]. *)
Definition object_or_empty (value : JsonValue) : list (string * JsonValue) :=
  unwrap_or (as_object value) [].

Definition contains_any (needles : list string) (haystack : string) : bool :=
  existsb (fun needle => str_contains needle haystack) needles.

(** ** Tags and safety *)

Definition capability_needles : list (string * list string) :=
  [("read", ["read"; "get"; "list"; "show"; "status"; "inspect"; "fetch"]);
   ("write", ["write"; "create"; "update"; "delete"; "remove"; "edit"; "patch"; "commit"; "insert"]);
   ("search", ["search"; "find"; "query"; "lookup"; "grep"]);
   ("file", ["file"; "filesystem"; "path"; "directory"; "folder"]);
   ("web", ["web"; "http"; "url"; "fetch"; "scrape"; "page"]);
   ("interactive", ["page"; "click"; "navigate"; "screenshot"; "javascript"]);
   ("git", ["git"; "commit"; "branch"; "repo"; "diff"; "pull"; "push"]);
   ("memory", ["memory"; "remember"; "knowledge"; "note"]);
   ("db", ["sql"; "sqlite"; "database"; "query"; "table"]);
   ("docs", ["docs"; "documentation"; "context7"; "reference"]);
   ("time", ["time"; "date"; "timezone"; "clock"])].

Definition tool_capability_tags (tool : JsonValue) : list string :=
  let haystack := normalize_text (join " " (map (text_of tool)
    ["server"; "name"; "qualifiedName"; "title"; "description"])) in
  sort_dedup (map fst (List.filter (fun '(_, needles) => contains_any needles haystack) capability_needles)).

Definition safety_haystack (tool : JsonValue) : string :=
  normalize_text (join " " (map (text_of tool) ["name"; "title"; "description"])).

Definition inferred_destructive (tool : JsonValue) : bool :=
  contains_any
    ["delete"; "remove"; "destroy"; "drop"; "kill"; "shutdown"; "write"; "create"; "update"; "edit";
     "patch"; "commit"; "push"; "click"; "type"; "navigate"; "javascript"]
    (safety_haystack tool).

Definition inferred_read_only (tool : JsonValue) : bool :=
  contains_any
    ["read"; "get"; "list"; "show"; "status"; "inspect"; "search"; "find"; "query"; "fetch"]
    (safety_haystack tool)
  && negb (inferred_destructive tool).

Definition tool_parallel_safety (tool : JsonValue) : JsonValue :=
  let annotations := value_at_path tool ["annotations"] in
  let hint key := annotations ≫= fun value => bool_at_path value [key] in
  let read_only := unwrap_or (hint "readOnlyHint") (inferred_read_only tool) in
  let destructive := unwrap_or (hint "destructiveHint") (inferred_destructive tool) in
  let idempotent := unwrap_or (hint "idempotentHint") (read_only && negb destructive) in
  let can_parallelize := read_only && idempotent && negb destructive in
  json_object
    [("readOnly", json_bool read_only);
     ("idempotent", json_bool idempotent);
     ("destructive", json_bool destructive);
     ("crossServerParallelCandidate", json_bool can_parallelize);
     ("basis", json_string (if is_some annotations then "tool annotations with conservative fallback"
        else "name/description inference because upstream annotations were missing"))].

Definition tool_projection_rank (tool : JsonValue) : N :=
  let tags := tool_capability_tags tool in
  let parallel := tool_parallel_safety tool in
  let rank := 100%N in
  let rank := if existsb (fun tag => bool_decide (tag ∈ ["read"; "search"; "memory"; "docs"; "time"])) tags
              then (rank - 20)%N else rank in
  let rank := if unwrap_or (bool_at_path parallel ["readOnly"]) false then (rank - 10)%N else rank in
  if unwrap_or (bool_at_path parallel ["destructive"]) false then sat_add USIZE_MAX rank 40 else rank.

(** ** The environment (src/resources.rs) *)

Section environment.
Context (environment : string -> option string).

Definition env_usize (name : string) : option N := environment name ≫= fun v => parse_usize (trim v).
Definition env_u64 (name : string) : option N := environment name ≫= fun v => parse_u64 (trim v).

Definition env_bool (name : string) : option bool :=
  environment name ≫= fun v =>
    let v := to_ascii_lowercase (trim v) in
    if bool_decide (v ∈ ["1"; "true"; "yes"; "on"]) then Some true
    else if bool_decide (v ∈ ["0"; "false"; "no"; "off"]) then Some false
    else None.

(** ** Schemas *)

Definition should_drop_schema_key (key : string) : bool :=
  bool_decide (key ∈ ["$comment"; "examples"; "example"; "markdownDescription"; "x-docs"; "x-examples"]).

Fixpoint compact_schema (value : JsonValue) (depth : nat) : JsonValue :=
  if 8 <? depth then json_string "<schema truncated>"
  else
    match value with
    | JObject map =>
        JObject (bt_of_list (flat_map (fun '(key, value) =>
          if should_drop_schema_key key then []
          else
            [(key,
              if String.eqb key "description" || String.eqb key "markdownDescription" || String.eqb key "title"
              then match value with
                   | JString text =>
                       json_string (truncate_chars text
                         (unwrap_or (env_usize "MCPACE_PROJECTED_SCHEMA_DESCRIPTION_CHARS")
                            DEFAULT_PROJECTED_SCHEMA_DESCRIPTION_CHARS))
                   | other => compact_schema other (S depth)
                   end
              else compact_schema value (S depth))]) map))
    | JArray items =>
        let limit := unwrap_or (env_usize "MCPACE_PROJECTED_SCHEMA_ARRAY_LIMIT") 40%N in
        JArray (firstn (N.to_nat limit) (map (fun item => compact_schema item (S depth)) items))
    | other => other
    end.

Definition projected_schema (schema : JsonValue) : JsonValue :=
  if unwrap_or (env_bool "MCPACE_PROJECTED_SCHEMA_COMPACTION") true then compact_schema schema 0
  else schema.

(** ** Definitions under MCPace's names *)

Definition prefixed_description (server name description : string) : string :=
  let trimmed := trim description in
  if str_is_empty trimmed then "Upstream " +:+ name +:+ " on MCP server " +:+ server +:+ "."
  else "[" +:+ server +:+ "] " +:+
       truncate_chars trimmed
         (unwrap_or (env_usize "MCPACE_PROJECTED_DESCRIPTION_CHARS") DEFAULT_PROJECTED_DESCRIPTION_CHARS).

Definition or_insert (key : string) (value : JsonValue) (map : list (string * JsonValue))
    : list (string * JsonValue) :=
  if bt_contains key map then map else bt_insert key value map.

Definition projected_tool_definition (server_name tool_name projected_name : string) (tool : JsonValue)
    : JsonValue :=
  let description := text_of tool "description" in
  let map := object_or_empty tool in
  let map := bt_insert "name" (json_string projected_name) map in
  let map := bt_insert "description" (json_string (prefixed_description server_name tool_name description)) map in
  let map := or_insert "title" (json_string (server_name +:+ " / " +:+ tool_name)) map in
  let map := bt_insert "inputSchema"
    (match value_at_path tool ["inputSchema"] with
     | Some schema => projected_schema schema
     | None => json_object [("type", json_string "object")]
     end) map in
  let map :=
    match value_at_path tool ["outputSchema"] with
    | Some output_schema => bt_insert "outputSchema" (projected_schema output_schema) map
    | None => map
    end in
  let meta := unwrap_or (bt_get "_meta" map ≫= as_object) [] in
  let meta := bt_insert "mcpace/projected" (json_bool true) meta in
  let meta := bt_insert "mcpace/upstream"
    (json_object [("server", json_string server_name); ("tool", json_string tool_name)]) meta in
  let meta := bt_insert "mcpace/tags" (json_array (List.map json_string (tool_capability_tags tool))) meta in
  let meta := bt_insert "mcpace/parallelSafety" (tool_parallel_safety tool) meta in
  JObject (bt_insert "_meta" (JObject meta) map).

Definition projected_prompt_definition (server_name prompt_name projected_name : string) (prompt : JsonValue)
    : JsonValue :=
  let map := object_or_empty prompt in
  let map := bt_insert "name" (json_string projected_name) map in
  let description := text_of prompt "description" in
  let map := bt_insert "description" (json_string (prefixed_description server_name prompt_name description)) map in
  JObject (if bt_contains "title" map then map
           else bt_insert "title" (json_string (server_name +:+ " / " +:+ prompt_name)) map).

Definition projected_resource_definition (server_name uri : string) (resource : JsonValue) : JsonValue :=
  let map := object_or_empty resource in
  let map := bt_insert "uri" (json_string (encode_resource_uri server_name uri)) map in
  let name := string_or uri (string_at_path resource ["name"]) in
  JObject (bt_insert "name" (json_string (server_name +:+ " / " +:+ name)) map).

Definition projected_resource_template_definition (server_name : string) (template : JsonValue) : JsonValue :=
  let map := object_or_empty template in
  let map :=
    match string_at_path template ["uriTemplate"] with
    | Some uri_template =>
        bt_insert "uriTemplate"
          (json_string (PROXIED_TEMPLATE_SCHEME +:+ "/" +:+ hex_encode (bytes server_name) +:+ "/" +:+
             hex_encode (bytes uri_template))) map
    | None => map
    end in
  let name := string_or "template" (string_at_path template ["name"]) in
  JObject (bt_insert "name" (json_string (server_name +:+ " / " +:+ name)) map).

Definition rewrite_resource_contents (server_name : string) (result : JsonValue) : JsonValue :=
  match array_at_path result ["contents"] with
  | None => result
  | Some contents =>
      json_object [("contents", json_array (List.map (fun content =>
        let map := object_or_empty content in
        JObject (match string_at_path content ["uri"] with
                 | Some uri => bt_insert "uri" (json_string (encode_resource_uri server_name uri)) map
                 | None => map
                 end)) contents))]
  end.

Definition shape_tool_for_client (tool : JsonValue) (options : ToolSurfaceOptions) : JsonValue :=
  match tool with
  | JObject map =>
      let map := if include_title options then map else bt_remove "title" map in
      let map := if include_annotations options then map else bt_remove "annotations" map in
      JObject map
  | _ => tool
  end.

(** ** Pages *)

Definition parse_cursor (cursor : option string) : option N :=
  cursor ≫= fun raw =>
    let raw := trim raw in
    if str_is_empty raw then Some 0%N
    else parse_usize (unwrap_or (strip_prefix "offset:" raw) raw).

Definition page_size_env (field : string) : string :=
  if String.eqb field "tools" then "MCPACE_TOOL_PAGE_SIZE"
  else if String.eqb field "prompts" then "MCPACE_PROMPT_PAGE_SIZE"
  else if String.eqb field "resources" then "MCPACE_RESOURCE_PAGE_SIZE"
  else if String.eqb field "resourceTemplates" then "MCPACE_RESOURCE_TEMPLATE_PAGE_SIZE"
  else "MCPACE_PAGE_SIZE".

Definition paginated_list (field : string) (items : list JsonValue) (cursor : option string)
    (extra_entries : list (string * JsonValue)) : JsonValue :=
  match opt_or (env_usize (page_size_env field)) (env_usize "MCPACE_PAGE_SIZE") with
  | None => json_object ((field, json_array items) :: extra_entries)
  | Some page_size =>
      let page_size := clamp 1 512 page_size in
      let start := N.min (unwrap_or (parse_cursor cursor) 0%N) (len_N items) in
      let stop := N.min (sat_add USIZE_MAX start page_size) (len_N items) in
      let page := firstn (N.to_nat (stop - start)) (skipn (N.to_nat start) items) in
      json_object ((field, json_array page) ::
        (if (stop <? len_N items)%N then [("nextCursor", json_string ("offset:" +:+ N_to_string stop))] else [])
        ++ extra_entries)
  end.

Definition paginated_tool_list (tools : list JsonValue) (cursor : option string) : JsonValue :=
  paginated_list "tools" tools cursor [].

End environment.

(** ** Following the cursors

    A client that asks for a list and follows [nextCursor] as long as there is one. *)

Fixpoint follow_pages (fuel : nat) (list_page : option string -> JsonValue) (field : string)
    (cursor : option string) : option (list (list JsonValue)) :=
  match fuel with
  | O => None
  | S fuel =>
      let reply := list_page cursor in
      let page := unwrap_or (array_at_path reply [field]) [] in
      match string_at_path reply ["nextCursor"] with
      | None => Some [page]
      | Some next => option_map (cons page) (follow_pages fuel list_page field (Some next))
      end
  end.

Lemma parse_cursor_offset n :
  (n <= USIZE_MAX)%N -> parse_cursor (Some ("offset:" +:+ N_to_string n)) = Some n.
Proof.
  intros Hn. unfold parse_cursor. cbn [mbind option_bind].
  assert (Hv : all_bytes visible ("offset:" +:+ N_to_string n) = true).
  { pose proof (N_to_string_all_digits n) as Hd. unfold all_bytes in *. rewrite bytes_app, forallb_app. apply andb_true_iff. split; [done|].
    rewrite forallb_forall in *. intros d Hin%Hd. clear -Hin. by destruct d as [[][][][][][][][]]. }
  rewrite (trim_visible_text _ Hv).
  cbn [str_is_empty]. rewrite strip_prefix_app. cbn [unwrap_or]. by apply parse_unsigned_N_to_string.
Qed.

Lemma bt_get_fold_skip {V} (l : list (string * V)) m k :
  Forall (fun p => fst p <> k) l ->
  bt_get k (fold_left (fun m kv => bt_insert (fst kv) (snd kv) m) l m) = bt_get k m.
Proof.
  intros H. revert m. induction H as [|[k' v] l Hk Hl IH]; intros m; [done|].
  cbn [fold_left fst snd]. rewrite IH. by apply bt_get_insert_ne.
Qed.

Lemma value_at_head k v rest path :
  Forall (fun p => fst p <> k) rest ->
  value_at_path (json_object ((k, v) :: rest)) (k :: path) = value_at_path v path.
Proof.
  intros H. cbn [value_at_path json_object json_get]. unfold bt_of_list. cbn [fold_left fst snd].
  rewrite (bt_get_fold_skip rest) by done. cbn [bt_insert bt_get].
  by rewrite (proj2 (key_cmp_eq k k) eq_refl).
Qed.

Lemma value_at_absent k entries :
  Forall (fun p => fst p <> k) entries -> value_at_path (json_object entries) [k] = None.
Proof.
  intros H. cbn [value_at_path json_object json_get]. unfold bt_of_list. by rewrite (bt_get_fold_skip entries).
Qed.

Section pages.
Context (environment : string -> option string) (field : string) (items : list JsonValue).
Context (extra_entries : list (string * JsonValue)).
Context (Hfield : field <> "nextCursor").
Context (Hextra : Forall (fun p => fst p <> field /\ fst p <> "nextCursor") extra_entries).
Context (Hlen : (len_N items + 512 <= USIZE_MAX)%N).

Definition page_limit : option N :=
  opt_or (env_usize environment (page_size_env field)) (env_usize environment "MCPACE_PAGE_SIZE").

(** The page that starts at [start], and where the next one starts. *)
Definition page_at (size start : N) : list JsonValue :=
  firstn (N.to_nat size) (skipn (N.to_nat start) items).

Lemma paginated_reply cursor size :
  page_limit = Some size ->
  let size := clamp 1 512 size in
  let start := N.min (unwrap_or (parse_cursor cursor) 0%N) (len_N items) in
  let reply := paginated_list environment field items cursor extra_entries in
  array_at_path reply [field] = Some (page_at size start) /\
  string_at_path reply ["nextCursor"]
  = if (start + size <? len_N items)%N then Some ("offset:" +:+ N_to_string (start + size)) else None.
Proof using Hfield Hextra Hlen.
  intros Hp. cbn zeta. unfold paginated_list, page_limit in *. rewrite Hp. cbv zeta.
  assert (Hs : (1 <= clamp 1 512 size <= 512)%N) by (apply clamp_bounds; lia).
  set (p := clamp 1 512 size) in *. clearbody p.
  set (start := N.min (unwrap_or (parse_cursor cursor) 0%N) (len_N items)). assert (Hst : (start <= len_N items)%N) by (unfold start; lia).
  clearbody start. rewrite sat_add_exact by lia.
  assert (He1 : Forall (fun p => fst p <> field) extra_entries) by (eapply Forall_impl; [exact Hextra|by intros ? []]).
  assert (He2 : Forall (fun p => fst p <> "nextCursor") extra_entries)
    by (eapply Forall_impl; [exact Hextra|by intros ? []]).
  assert (Hpage : firstn (N.to_nat (N.min (start + p) (len_N items) - start)) (skipn (N.to_nat start) items)
                  = page_at p start).
  { unfold page_at. destruct (N.le_gt_cases (start + p) (len_N items)).
    - f_equal. lia.
    - rewrite !take_ge; [done|..]; rewrite length_drop; unfold len_N in *; lia. }
  rewrite Hpage. unfold array_at_path, string_at_path. split.
  - rewrite value_at_head; [done|].
    destruct (_ <? _)%N; [|exact He1]. by constructor.
  - destruct (N.ltb_spec (start + p) (len_N items)).
    + rewrite (N.min_l (start + p)) by lia. rewrite (proj2 (N.ltb_lt _ _)) by done.
      cbn [value_at_path json_object json_get]. unfold bt_of_list. cbn [app fold_left fst snd].
      rewrite (bt_get_fold_skip extra_entries) by done. by rewrite bt_get_insert_eq.
    + rewrite (N.min_r (start + p)) by lia. rewrite N.ltb_irrefl.
      rewrite value_at_absent; [done|]. by constructor.
Qed.

Lemma follow_from fuel cursor size :
  page_limit = Some size ->
  let start := N.min (unwrap_or (parse_cursor cursor) 0%N) (len_N items) in
  (len_N items - start < N.of_nat fuel)%N ->
  exists pages, follow_pages fuel (fun c => paginated_list environment field items c extra_entries) field cursor
                = Some pages /\
    concat pages = skipn (N.to_nat start) items /\ Forall (fun p => length p <= 512) pages.
Proof using Hfield Hextra Hlen.
  intros Hp. revert cursor. induction fuel as [|fuel IH]; intros cursor; cbn zeta; [lia|].
  intros Hf. cbn [follow_pages]. destruct (paginated_reply cursor size Hp) as [Ea En]. cbn zeta in Ea, En.
  rewrite Ea, En. cbn [unwrap_or].
  set (start := N.min (unwrap_or (parse_cursor cursor) 0%N) (len_N items)) in *. set (p := clamp 1 512 size) in *.
  assert (Hs : (1 <= p <= 512)%N) by (apply clamp_bounds; lia).
  assert (Hpage : length (page_at p start) <= 512) by (unfold page_at; rewrite length_firstn; lia).
  destruct (N.ltb_spec (start + p) (len_N items)) as [Hl|Hl].
  - specialize (IH (Some ("offset:" +:+ N_to_string (start + p)))).
    rewrite parse_cursor_offset in IH by lia. cbn [unwrap_or] in IH. rewrite N.min_l in IH by lia.
    destruct IH as (pages & -> & Hc & Hall); [lia|]. exists (page_at p start :: pages).
    split; [done|]. split; [|by constructor]. cbn [concat]. rewrite Hc. unfold page_at.
    rewrite <- (take_drop (N.to_nat p) (skipn (N.to_nat start) items)) at 2. f_equal.
    rewrite drop_drop. f_equal. lia.
  - exists [page_at p start]. split; [done|]. split; [|by constructor]. cbn [concat]. rewrite app_nil_r.
    unfold page_at. apply take_ge. rewrite length_drop. unfold len_N in *. lia.
Qed.

End pages.

(** C37: a client that asks for a list of tools, prompts or resources and follows the
    cursors gets every item exactly once and in order, after at most one reply per item; with
    a page size set, no page has more than 512 items. *)
Theorem pages_complete environment field items extra_entries :
  field <> "nextCursor" ->
  Forall (fun p => fst p <> field /\ fst p <> "nextCursor") extra_entries ->
  (len_N items + 512 <= USIZE_MAX)%N ->
  exists pages,
    follow_pages (S (length items)) (fun c => paginated_list environment field items c extra_entries) field None
    = Some pages /\
    concat pages = items /\
    (page_limit environment field <> None -> Forall (fun p => length p <= 512) pages).
Proof.
  intros Hf He Hl. destruct (page_limit environment field) as [size|] eqn:Ep.
  - destruct (follow_from environment field items extra_entries Hf He Hl (S (length items)) None size Ep)
      as (pages & Hpages & Hc & Hall).
    { cbn. unfold len_N. lia. }
    exists pages. split; [done|]. split; [|done]. rewrite Hc. change (unwrap_or (parse_cursor None) 0%N) with 0%N. by rewrite N.min_0_l.
  - exists [items]. unfold page_limit in Ep. cbn [follow_pages]. unfold paginated_list. rewrite Ep.
    assert (He1 : Forall (fun p => fst p <> field) extra_entries) by (eapply Forall_impl; [exact He|by intros ? []]).
    unfold array_at_path, string_at_path. rewrite value_at_head by done.
    rewrite value_at_absent.
    + split; [done|]. split; [|done]. cbn. apply app_nil_r.
    + constructor; [done|]. eapply Forall_impl; [exact He|by intros ? []].
Qed.

Lemma pages_complete_witness :
  exists pages,
    follow_pages 4 (fun c => paginated_list
        (fun name => if String.eqb name "MCPACE_PAGE_SIZE" then Some "2" else None)
        "tools" [JNull; JBool true; JBool false] c []) "tools" None = Some pages /\
    concat pages = [JNull; JBool true; JBool false] /\ Forall (fun p => length p <= 512) pages.
Proof.
  destruct (pages_complete (fun name => if String.eqb name "MCPACE_PAGE_SIZE" then Some "2" else None)
              "tools" [JNull; JBool true; JBool false] []) as (pages & H1 & H2 & H3);
    [done|constructor|by vm_compute|].
  exists pages. split; [exact H1|]. split; [exact H2|]. apply H3. vm_compute. discriminate.
Defined.
