(* ===== verification/ToolExposure.v ===== *)
(** * Exposing upstream tools to clients (src/adapter.rs)

    MCPace lists its own tools and, if the operator asks for it, the tools of upstream
    servers under projected names, within a budget and only those that the projection
    safety level lets through.  A call of a projected name is resolved by building the same
    set again.  The catalogues of upstream tools and the policy lookup
    ([tool_policy_info]) are parameters here; the environment is that of [ToolView]. *)

From Stdlib Require Import Ascii.
From S2P Require Import Prelude RustStr BTree Json ProxyUri McpProtocol SortBy ToolNames ToolView.

Definition DEFAULT_TOOL_BUDGET : N := 64.
Definition DEFAULT_TOOL_TOKEN_BUDGET : N := 24000.
Definition DEFAULT_PROJECTION_CANDIDATE_MULTIPLIER : N := 8.
Definition DEFAULT_PROJECTION_CANDIDATE_LIMIT_MAX : N := 8192.
Definition DEFAULT_PROJECTION_BROKER_SAMPLE_LIMIT : N := 64.
Definition DEFAULT_TOOLS_LIST_TIMEOUT_MS : N := 5000.

Inductive ToolExposureMode := ExposeAuto | ExposeBroker | ExposeNative | ExposeHybrid | ExposeMinimal.
Inductive ProjectionSafety := SafetySafe | SafetyReview | SafetyAll.
Inductive ManagementSurfaceMode := SurfaceAdapter | SurfaceFull | SurfaceMinimal.

#[export] Instance ToolExposureMode_eq_dec : EqDecision ToolExposureMode.
Proof. solve_decision. Defined.

Record ToolExposureOptions := mkExposure {
  exposure_mode : ToolExposureMode;
  budget : N;
  token_budget : N;
  exposure_timeout_ms : option N;
  refresh : bool;
  projection_safety : ProjectionSafety
}.

Record ProjectedToolTarget := mkToolTarget { target_server : string; target_tool : string }.

Record ProjectedToolSet := mkToolSet {
  set_tools : list JsonValue;
  raw_upstream_tool_count : N;
  total_upstream_tool_count : N;
  broker_only_tool_count : N;
  projected_tool_count : N;
  estimated_total_tokens : N;
  estimated_projected_tokens : N;
  truncated : bool;
  projection_enabled : bool;
  reason : string;
  catalog : JsonValue
}.

Record ProjectionDecision := mkDecision { projectable : bool; decision_reason : string }.

Record ProjectionReasonMetrics := mkMetrics {
  m_projectable_total : N;
  m_raw_total : N;
  m_broker_only_total : N;
  m_estimated_total_tokens : N;
  m_catalog_ok : bool;
  m_enabled : bool;
  m_truncated : bool
}.

(** ** Settings *)

Definition settings_token (value : string) : string := replace_char "_" "-" (to_ascii_lowercase (trim value)).

Definition parse_projection_safety (value : string) : ProjectionSafety :=
  let value := settings_token value in
  if bool_decide (value ∈ ["all"; "max"; "maximum"; "everything"]) then SafetyAll
  else if bool_decide (value ∈ ["safe"; "readonly"; "read-only"; "conservative"]) then SafetySafe
  else SafetyReview.

Definition projection_safety_name (safety : ProjectionSafety) : string :=
  match safety with SafetySafe => "safe" | SafetyReview => "review" | SafetyAll => "all" end.

Definition parse_tool_exposure_mode (value : string) : ToolExposureMode :=
  let value := settings_token value in
  if bool_decide (value ∈ ["native"; "project"; "projected"; "direct"]) then ExposeNative
  else if bool_decide (value ∈ ["hybrid"; "mixed"; "budgeted"]) then ExposeHybrid
  else if bool_decide (value ∈ ["broker"; "wrapper"; "wrapped"; "catalog"]) then ExposeBroker
  else if bool_decide (value ∈ ["minimal"; "small"; "tiny"]) then ExposeMinimal
  else ExposeAuto.

Definition default_tool_exposure_mode : ToolExposureMode := ExposeBroker.

Definition tool_exposure_mode_name (mode : ToolExposureMode) : string :=
  match mode with
  | ExposeAuto => "auto" | ExposeBroker => "broker" | ExposeNative => "native"
  | ExposeHybrid => "hybrid" | ExposeMinimal => "minimal"
  end.

Definition management_surface_mode_name (mode : ManagementSurfaceMode) : string :=
  match mode with SurfaceAdapter => "adapter" | SurfaceFull => "full" | SurfaceMinimal => "minimal" end.

Definition adapter_management_tool (name : string) : bool :=
  bool_decide (name ∈ ["adapter_profile"; "adapter_route"; "upstream_search"; "surface_manifest";
    "upstream_catalog"; "upstream_tools"; "upstream_call"; "upstream_batch"]).

Definition minimal_management_tool (name : string) : bool :=
  bool_decide (name ∈ ["adapter_profile"; "adapter_route"; "upstream_search"; "upstream_call"; "upstream_batch"]).

Definition protocol_rank (protocol_version : string) : N :=
  if String.eqb protocol_version "2024-11-05" then 1
  else if String.eqb protocol_version "2025-03-26" then 2
  else if String.eqb protocol_version "2025-06-18" then 3
  else if String.eqb protocol_version "2025-11-25" then 4
  else 4.

Definition adapter_capabilities : JsonValue :=
  json_object
    [("tools", json_object [("listChanged", json_bool false)]);
     ("resources", json_object [("subscribe", json_bool false); ("listChanged", json_bool false)]);
     ("prompts", json_object [("listChanged", json_bool false)])].

(** ** Signals in tool names *)

Definition conservative_read_only_name_signal (tool_name : string) : bool :=
  match split_spaces (normalize_text tool_name) with
  | [] => false
  | first :: _ =>
      bool_decide (first ∈ ["get"; "list"; "read"; "search"; "find"; "query"; "fetch"; "status"; "describe";
        "inspect"; "observe"; "snapshot"])
  end.

Definition mutating_name_signal (tool_name : string) : bool :=
  existsb (fun term => bool_decide (term ∈
      ["create"; "update"; "delete"; "remove"; "write"; "save"; "edit"; "patch"; "put"; "post"; "execute";
       "exec"; "run"; "start"; "stop"; "restart"; "kill"; "click"; "type"; "press"; "navigate"; "drag";
       "upload"; "submit"]))
    (split_spaces (normalize_text tool_name)).

(** ** The decision *)

Definition projection_decision (tool policy : JsonValue) (safety : ProjectionSafety) : ProjectionDecision :=
  let guard_required := unwrap_or (bool_at_path policy ["guardRequired"]) false in
  let read_only := bool_decide (bool_at_path tool ["annotations"; "readOnlyHint"] = Some true) in
  let destructive := bool_decide (bool_at_path tool ["annotations"; "destructiveHint"] = Some true) in
  let tool_name := text_of tool "name" in
  let conservative_read_signal := conservative_read_only_name_signal tool_name in
  let mutation_signal := mutating_name_signal tool_name in
  match safety with
  | SafetyAll => mkDecision true "projectionSafety=all"
  | SafetyReview =>
      if guard_required then mkDecision false "requires explicit MCPace policy authorization"
      else if destructive || mutation_signal
      then mkDecision false "appears mutating or destructive; broker keeps explicit routing controls available"
      else mkDecision true "not policy-guarded and no destructive signal"
  | SafetySafe =>
      if guard_required then mkDecision false "requires explicit MCPace policy authorization"
      else if read_only || (conservative_read_signal && negb destructive && negb mutation_signal)
      then mkDecision true "read-only annotation or conservative read-only name signal"
      else mkDecision false "unknown or mutating semantics under projectionSafety=safe"
  end.

Definition decorate_projectable_tool (tool policy : JsonValue) (decision : ProjectionDecision) : JsonValue :=
  let map := object_or_empty tool in
  let meta := unwrap_or (bt_get "_meta" map ≫= as_object) [] in
  let meta := bt_insert "mcpace/projectionDecision"
    (json_object [("projectable", json_bool (projectable decision));
                  ("reason", json_string (decision_reason decision))]) meta in
  let meta := bt_insert "mcpace/policy" policy meta in
  JObject (bt_insert "_meta" (JObject meta) map).

Definition call_object (server_name tool_name : string) : JsonValue :=
  json_object
    [("tool", json_string "upstream_call");
     ("arguments", json_object [("server", json_string server_name); ("tool", json_string tool_name)])].

Definition compact_broker_only_tool (server_name tool_name : string) (tool policy : JsonValue) (reason : string)
    : JsonValue :=
  json_object
    [("server", json_string server_name);
     ("name", json_string tool_name);
     ("title", value_or_null tool "title");
     ("description", json_string (truncate_chars (text_of tool "description") 220));
     ("reason", json_string reason);
     ("guardRequired", json_bool (unwrap_or (bool_at_path policy ["guardRequired"]) false));
     ("call", call_object server_name tool_name)].

(** ** Arguments of projected calls *)

Definition control_key (key : string) : bool := String.eqb key "_mcpace" || String.eqb key "mcpace".

Definition strip_projected_adapter_arguments (arguments : JsonValue) : JsonValue :=
  match arguments with
  | JObject map => JObject (bt_of_list (List.filter (fun '(key, _) => negb (control_key key)) map))
  | _ => arguments
  end.

Definition merge_control_object (target : list (string * JsonValue)) (value : option JsonValue)
    : list (string * JsonValue) :=
  match value ≫= as_object with
  | None => target
  | Some object => fold_left (fun target '(key, value) => bt_insert key value target) object target
  end.

Definition projected_adapter_control_arguments (arguments : JsonValue) : JsonValue :=
  let controls := merge_control_object [] (value_at_path arguments ["_mcpace"]) in
  JObject (merge_control_object controls (value_at_path arguments ["mcpace"])).

(** ** The catalogue of candidates *)

Record ProjectionCounts := mkCounts {
  c_raw : N;
  c_projectable : N;
  c_broker_only : N;
  c_stored_projectable : N;
  c_stored_broker_only : N
}.

Record ServerTools := mkServerTools {
  projectable_tools : list JsonValue;
  broker_only_tools : list JsonValue;
  server_projectable_count : N;
  server_broker_only_count : N
}.

Definition bump (n : N) : N := sat_add USIZE_MAX n 1.

(** [string_at_path(.., &["name"]).map(str::trim).filter(|value| !value.is_empty())]. *)
Definition trimmed_name (value : JsonValue) : option string :=
  opt_filter (fun v => negb (str_is_empty v)) (option_map trim (string_at_path value ["name"])).

Definition items_at (value : JsonValue) (key : string) : list JsonValue :=
  unwrap_or (array_at_path value [key]) [].

Definition is_true_at (value : JsonValue) (key : string) : bool :=
  unwrap_or (bool_at_path value [key]) false.

(** [.and_then(JsonValue::as_i64).filter(|value| *value >= 0).map(|value| value as usize)]. *)
Definition count_at (value : JsonValue) (key : string) : option N :=
  option_map Z.to_N (opt_filter (fun z => (0 <=? z)%Z) (value_at_path value [key] ≫= as_i64)).

Definition management_full_names : list string := ["full"; "debug"; "management"].

Section adapter.
Context `{SerdeJson} (environment : string -> option string).
Context (cached_catalog : result JsonValue string) (raw_catalog : option N -> bool -> result JsonValue string).
Context (policy_info : string -> string -> result JsonValue string).

Definition tool_exposure_mode_from_env : ToolExposureMode :=
  match opt_or (environment "MCPACE_TOOL_EXPOSURE") (environment "MCPACE_UPSTREAM_TOOL_EXPOSURE") with
  | Some value => parse_tool_exposure_mode value
  | None => default_tool_exposure_mode
  end.

Definition options_from_env : ToolExposureOptions := {|
  exposure_mode := tool_exposure_mode_from_env;
  budget := clamp 1 2048 (unwrap_or (opt_or (env_usize environment "MCPACE_TOOL_BUDGET")
              (env_usize environment "MCPACE_NATIVE_TOOL_BUDGET")) DEFAULT_TOOL_BUDGET);
  token_budget := clamp 1000 1000000 (unwrap_or (opt_or (env_usize environment "MCPACE_TOOL_TOKEN_BUDGET")
              (env_usize environment "MCPACE_NATIVE_TOOL_TOKEN_BUDGET")) DEFAULT_TOOL_TOKEN_BUDGET);
  exposure_timeout_ms := opt_or (env_u64 environment "MCPACE_TOOLS_LIST_TIMEOUT_MS")
              (Some DEFAULT_TOOLS_LIST_TIMEOUT_MS);
  refresh := unwrap_or (env_bool environment "MCPACE_TOOLS_LIST_REFRESH") false;
  projection_safety :=
    match opt_or (environment "MCPACE_PROJECTED_TOOL_SAFETY") (environment "MCPACE_TOOL_PROJECTION_SAFETY") with
    | Some value => parse_projection_safety value
    | None => SafetySafe
    end
|}.

Definition options_for_call_resolution : ToolExposureOptions := {|
  exposure_mode := exposure_mode options_from_env;
  budget := budget options_from_env;
  token_budget := token_budget options_from_env;
  exposure_timeout_ms := exposure_timeout_ms options_from_env;
  refresh := false;
  projection_safety := projection_safety options_from_env
|}.

Definition tool_surface_options_from_protocol (protocol_version : string) : ToolSurfaceOptions :=
  let by_rank :=
    if (protocol_rank "2025-03-26" <=? protocol_rank protocol_version)%N then surface_current else surface_compact in
  match option_map (fun v => to_ascii_lowercase (trim v)) (environment "MCPACE_TOOL_SCHEMA_STYLE") with
  | Some style =>
      if String.eqb style "compact" then surface_compact
      else if bool_decide (style ∈ ["native"; "current"; "modern"]) then surface_current
      else by_rank
  | None => by_rank
  end.

Definition tool_surface_options_from_initialize (initialize_params : option JsonValue) : ToolSurfaceOptions :=
  tool_surface_options_from_protocol
    (string_or CURRENT_PROTOCOL_VERSION (initialize_params ≫= fun p => string_at_path p ["protocolVersion"])).

Definition tool_surface_options_from_http_header (protocol_header : option string) : ToolSurfaceOptions :=
  tool_surface_options_from_protocol
    (string_or STREAMABLE_HTTP_DEFAULT_PROTOCOL_VERSION
       (opt_filter (fun v => negb (str_is_empty v)) (option_map trim protocol_header))).

Definition management_surface_mode_from_env : ManagementSurfaceMode :=
  if bool_decide (tool_exposure_mode_from_env = ExposeMinimal) then SurfaceMinimal
  else
    match option_map (fun v => to_ascii_lowercase (trim v)) (environment "MCPACE_MANAGEMENT_SURFACE") with
    | Some value =>
        if bool_decide (value ∈ management_full_names)
           && unwrap_or (env_bool environment "MCPACE_ALLOW_FULL_MANAGEMENT") false
        then SurfaceFull
        else if bool_decide (value ∈ ["minimal"; "tiny"; "strict"]) then SurfaceMinimal
        else SurfaceAdapter
    | None => SurfaceAdapter
    end.

Definition should_keep_management_tool (name : string) : bool :=
  match management_surface_mode_from_env with
  | SurfaceFull => true
  | SurfaceAdapter => adapter_management_tool name
  | SurfaceMinimal => minimal_management_tool name
  end.

Definition visible_tool_names (all_tool_names : list string) : list string :=
  List.filter should_keep_management_tool all_tool_names.

Definition projection_candidate_limit (options : ToolExposureOptions) : N :=
  let default := N.max (N.max (sat_mul USIZE_MAX (budget options) DEFAULT_PROJECTION_CANDIDATE_MULTIPLIER)
                          (budget options)) 1 in
  clamp (N.max (budget options) 1) DEFAULT_PROJECTION_CANDIDATE_LIMIT_MAX
    (unwrap_or (env_usize environment "MCPACE_PROJECTION_CANDIDATE_LIMIT") default).

Definition projection_broker_sample_limit : N :=
  clamp 0 10000 (unwrap_or (env_usize environment "MCPACE_PROJECTION_BROKER_SAMPLE_LIMIT")
                   DEFAULT_PROJECTION_BROKER_SAMPLE_LIMIT).

Definition policy_of (server_name tool_name : string) : JsonValue :=
  match policy_info server_name tool_name with
  | Ok policy => policy
  | Err error => json_object [("guardRequired", json_bool false); ("policyLookupError", json_string error)]
  end.

Section catalogue.
Context (options : ToolExposureOptions).
Let candidate_limit : N := projection_candidate_limit options.
Let broker_sample_limit : N := projection_broker_sample_limit.

(** One tool that stays behind the broker; at most a sample of them is kept. *)
Definition keep_broker_only (item : JsonValue) (st : ProjectionCounts * ServerTools)
    : ProjectionCounts * ServerTools :=
  let '(c, s) := st in
  let store := (c_stored_broker_only c <? broker_sample_limit)%N in
  (mkCounts (c_raw c) (c_projectable c) (bump (c_broker_only c)) (c_stored_projectable c)
     (if store then bump (c_stored_broker_only c) else c_stored_broker_only c),
   mkServerTools (projectable_tools s)
     (if store then broker_only_tools s ++ [item] else broker_only_tools s)
     (server_projectable_count s) (bump (server_broker_only_count s))).

Definition keep_projectable (item : JsonValue) (st : ProjectionCounts * ServerTools)
    : ProjectionCounts * ServerTools :=
  let '(c, s) := st in
  let store := (c_stored_projectable c <? candidate_limit)%N in
  (mkCounts (c_raw c) (bump (c_projectable c)) (c_broker_only c)
     (if store then bump (c_stored_projectable c) else c_stored_projectable c) (c_stored_broker_only c),
   mkServerTools
     (if store then projectable_tools s ++ [item] else projectable_tools s)
     (broker_only_tools s) (bump (server_projectable_count s)) (server_broker_only_count s)).

Definition catalog_tool (server_name : string) (st : ProjectionCounts * ServerTools) (tool : JsonValue)
    : ProjectionCounts * ServerTools :=
  let '(c, s) := st in
  let st := (mkCounts (bump (c_raw c)) (c_projectable c) (c_broker_only c) (c_stored_projectable c)
               (c_stored_broker_only c), s) in
  match trimmed_name tool with
  | None =>
      keep_broker_only
        (json_object [("name", json_string "<unnamed>"); ("reason", json_string "missing tool name")]) st
  | Some tool_name =>
      let policy := policy_of server_name tool_name in
      let decision := projection_decision tool policy (projection_safety options) in
      if projectable decision then keep_projectable (decorate_projectable_tool tool policy decision) st
      else keep_broker_only
             (compact_broker_only_tool server_name tool_name tool policy (decision_reason decision)) st
  end.

Definition server_entry (server_name : string) (listing : JsonValue) (s : ServerTools) : JsonValue :=
  json_object
    [("name", json_string server_name);
     ("ok", json_bool true);
     ("rawToolCount", json_number (len_N (items_at listing "tools")));
     ("projectableToolCount", json_number (server_projectable_count s));
     ("brokerOnlyToolCount", json_number (server_broker_only_count s));
     ("projectableToolSampleCount", json_number (len_N (projectable_tools s)));
     ("brokerOnlyToolSampleCount", json_number (len_N (broker_only_tools s)));
     ("projectableToolsTruncated", json_bool (len_N (projectable_tools s) <? server_projectable_count s)%N);
     ("brokerOnlyToolsTruncated", json_bool (len_N (broker_only_tools s) <? server_broker_only_count s)%N);
     ("cacheHit", value_or_null listing "cacheHit");
     ("projectableTools", json_array (projectable_tools s));
     ("brokerOnlyTools", json_array (broker_only_tools s))].

Definition failed_entry (server_name error : string) : JsonValue :=
  json_object
    [("name", json_string server_name);
     ("ok", json_bool false);
     ("rawToolCount", json_number 0);
     ("projectableToolCount", json_number 0);
     ("brokerOnlyToolCount", json_number 0);
     ("projectableTools", json_array []);
     ("brokerOnlyTools", json_array []);
     ("error", json_string error)].

(** One listing: the counters, the entries and the errors so far. *)
Definition catalog_listing (st : ProjectionCounts * list JsonValue * list JsonValue) (listing : JsonValue)
    : ProjectionCounts * list JsonValue * list JsonValue :=
  let '(c, servers, errors) := st in
  let server_name := string_or "unknown" (string_at_path listing ["name"]) in
  if is_true_at listing "ok" then
    let '(c, s) := fold_left (catalog_tool server_name) (items_at listing "tools") (c, mkServerTools [] [] 0 0) in
    (c, servers ++ [server_entry server_name listing s], errors)
  else
    let error := string_or "tools/list failed" (string_at_path listing ["error"]) in
    (c, servers ++ [failed_entry server_name error],
     errors ++ [json_object [("server", json_string server_name); ("method", json_string "tools/list");
                             ("error", json_string error)]]).

Definition catalog_source : result JsonValue string :=
  match exposure_mode options with
  | ExposeAuto => if refresh options then raw_catalog (exposure_timeout_ms options) (refresh options)
                  else cached_catalog
  | _ => raw_catalog (exposure_timeout_ms options) (refresh options)
  end.

Definition projection_catalog : result JsonValue string :=
  catalog ←? catalog_source ;;
  let '(c, servers, errors) :=
    fold_left catalog_listing (items_at catalog "servers") (mkCounts 0 0 0 0 0, [], []) in
  Ok (json_object
    [("ok", json_bool (match errors with [] => true | _ => false end));
     ("mode", json_string "projection-catalog");
     ("summary", json_string "Discovered full upstream tool definitions for native projection, then kept policy-guarded or clearly mutating tools behind broker calls unless projection safety allows them.");
     ("projectionSafety", json_string (projection_safety_name (projection_safety options)));
     ("serverCount", json_number (len_N servers));
     ("rawToolCount", json_number (c_raw c));
     ("projectableToolCount", json_number (c_projectable c));
     ("brokerOnlyToolCount", json_number (c_broker_only c));
     ("projectableCandidateLimit", json_number candidate_limit);
     ("projectableCandidateCount", json_number (c_stored_projectable c));
     ("brokerOnlySampleLimit", json_number broker_sample_limit);
     ("brokerOnlySampleCount", json_number (c_stored_broker_only c));
     ("projectionCandidatesTruncated", json_bool (c_stored_projectable c <? c_projectable c)%N);
     ("servers", json_array servers);
     maybe_meta_errors errors]).

End catalogue.

(** ** The projected set *)

Definition estimate_json_tokens (value : JsonValue) : N :=
  (sat_add USIZE_MAX (str_len (to_compact_string value)) 3 / 4)%N.

Fixpoint take_budgeted (tools : list JsonValue) (first : bool) (used_tokens token_budget : N) : list JsonValue :=
  match tools with
  | [] => []
  | tool :: tools =>
      let tool_tokens := N.max (estimate_json_tokens tool) 1 in
      let used := sat_add USIZE_MAX used_tokens tool_tokens in
      if negb first && (token_budget <? used)%N then []
      else tool :: take_budgeted tools false used token_budget
  end.

Definition take_tools_with_budget (tools : list JsonValue) (count_budget token_budget : N) : list JsonValue :=
  take_budgeted (firstn (N.to_nat count_budget) tools) true 0 token_budget.

(** One server of the catalogue; [None] when the names run out. *)
Fixpoint project_tools (server_name : string) (tools : list JsonValue) (used_names : gset string)
    : option (list JsonValue * gset string) :=
  match tools with
  | [] => Some ([], used_names)
  | tool :: tools =>
      match trimmed_name tool with
      | None => project_tools server_name tools used_names
      | Some tool_name =>
          '(projected_name, used_names) ← unique_projected_name PROJECTED_TOOL_PREFIX server_name tool_name used_names;
          '(rest, used_names) ← project_tools server_name tools used_names;
          Some (projected_tool_definition environment server_name tool_name projected_name tool :: rest, used_names)
      end
  end.

Fixpoint project_servers (servers : list JsonValue) (used_names : gset string) : option (list JsonValue) :=
  match servers with
  | [] => Some []
  | server :: servers =>
      match (if is_true_at server "ok" then trimmed_name server else None) with
      | None => project_servers servers used_names
      | Some server_name =>
          '(projected, used_names) ← project_tools server_name (items_at server "projectableTools") used_names;
          rest ← project_servers servers used_names;
          Some (projected ++ rest)
      end
  end.

Definition tool_before (l r : JsonValue) : bool :=
  match N.compare (tool_projection_rank l) (tool_projection_rank r) with
  | Lt => true
  | Gt => false
  | Eq => match str_cmp (text_of l "name") (text_of r "name") with Lt => true | _ => false end
  end.

Definition projection_reason (options : ToolExposureOptions) (m : ProjectionReasonMetrics) : string :=
  let safety := projection_safety_name (projection_safety options) in
  let projectable := N_to_string (m_projectable_total m) in
  let raw := N_to_string (m_raw_total m) in
  let broker_only := N_to_string (m_broker_only_total m) in
  let tokens := N_to_string (m_estimated_total_tokens m) in
  let count_budget := N_to_string (budget options) in
  let tokens_budget := N_to_string (token_budget options) in
  let counts := "rawToolCount=" +:+ raw +:+ ", brokerOnlyToolCount=" +:+ broker_only in
  let counts_safety := counts +:+ ", projectionSafety=" +:+ safety in
  match exposure_mode options, m_catalog_ok m, m_enabled m, m_truncated m with
  | ExposeAuto, true, true, false =>
      "auto projection enabled because " +:+ projectable +:+ " projectable upstream tools fit countBudget="
      +:+ count_budget +:+ " and tokenBudget=" +:+ tokens_budget +:+ "; estimatedTokens=" +:+ tokens
      +:+ "; " +:+ counts_safety
  | ExposeAuto, false, _, _ =>
      "auto projection disabled because the cached upstream catalog is incomplete or stale; broker tools remain available while refresh/warmup can repopulate the cache"
  | ExposeAuto, true, false, _ =>
      if (m_raw_total m =? 0)%N then "auto projection disabled because no callable upstream tools were discovered"
      else if (m_projectable_total m =? 0)%N then
        "auto projection disabled because no tools passed projectionSafety=" +:+ safety +:+ "; " +:+ counts
      else
        "auto projection disabled because " +:+ projectable +:+ " projectable upstream tools or ~" +:+ tokens
        +:+ " tokens exceed countBudget=" +:+ count_budget +:+ " / tokenBudget=" +:+ tokens_budget
        +:+ "; broker tools remain available; " +:+ counts_safety
  | ExposeNative, _, true, true =>
      "native projection enabled and truncated from " +:+ projectable +:+ " projectable tools by countBudget="
      +:+ count_budget +:+ " / tokenBudget=" +:+ tokens_budget +:+ "; estimatedTokens=" +:+ tokens +:+ "; "
      +:+ counts_safety
  | ExposeNative, _, true, false =>
      "native projection enabled for " +:+ projectable +:+ " projectable upstream tools; estimatedTokens=" +:+ tokens
      +:+ "; " +:+ counts_safety
  | ExposeHybrid, _, true, true =>
      "hybrid projection exposed the highest-ranked prefix of " +:+ projectable
      +:+ " projectable tools within countBudget=" +:+ count_budget +:+ " / tokenBudget=" +:+ tokens_budget
      +:+ "; broker search remains available for the rest; " +:+ counts_safety
  | ExposeHybrid, _, true, false =>
      "hybrid projection exposed all " +:+ projectable +:+ " projectable tools and keeps broker search available; "
      +:+ counts_safety
  | ExposeBroker, _, _, _ => "broker mode keeps upstream tools behind upstream_search/upstream_call"
  | ExposeMinimal, _, _, _ => "minimal mode keeps only essential adapter tools"
  | _, _, _, _ => "projection disabled"
  end.

(** The set for a catalogue and the projected tools of its servers. *)
Definition tool_set_of (options : ToolExposureOptions) (catalog : JsonValue) (projected_all : list JsonValue)
    : ProjectedToolSet :=
  let projected_all := sort_by tool_before projected_all in
  let projectable_total := unwrap_or (count_at catalog "projectableToolCount") (len_N projected_all) in
  let raw_total := unwrap_or (count_at catalog "rawToolCount") projectable_total in
  let broker_only_total := unwrap_or (count_at catalog "brokerOnlyToolCount") (raw_total - projectable_total)%N in
  let catalog_ok := is_true_at catalog "ok" in
  let total_tokens := sum_by estimate_json_tokens projected_all in
  let full_catalog_fits :=
    (projectable_total <=? budget options)%N && (total_tokens <=? token_budget options)%N in
  let enabled :=
    match exposure_mode options with
    | ExposeNative | ExposeHybrid => (0 <? projectable_total)%N
    | ExposeAuto => catalog_ok && (0 <? projectable_total)%N && full_catalog_fits
    | ExposeBroker | ExposeMinimal => false
    end in
  let projected :=
    if enabled then take_tools_with_budget projected_all (budget options) (token_budget options) else [] in
  let projected_count := len_N projected in
  let projected_tokens := sum_by estimate_json_tokens projected in
  let truncated :=
    enabled && ((projected_count <? projectable_total)%N || (projected_tokens <? total_tokens)%N) in
  {| set_tools := projected;
     raw_upstream_tool_count := raw_total;
     total_upstream_tool_count := projectable_total;
     broker_only_tool_count := broker_only_total;
     projected_tool_count := projected_count;
     estimated_total_tokens := total_tokens;
     estimated_projected_tokens := projected_tokens;
     truncated := truncated;
     projection_enabled := enabled;
     reason := projection_reason options
       (mkMetrics projectable_total raw_total broker_only_total total_tokens catalog_ok enabled truncated);
     catalog := catalog |}.

Definition projected_tool_set (reserved_names : gset string) (options : ToolExposureOptions)
    : option (result ProjectedToolSet string) :=
  match projection_catalog options with
  | Err error => Some (Err error)
  | Ok catalog =>
      projected_all ← project_servers (items_at catalog "servers") reserved_names;
      Some (Ok (tool_set_of options catalog projected_all))
  end.

(** The first tool of that name. *)
Definition resolve_in (tools : list JsonValue) (projected_name : string)
    : result (option ProjectedToolTarget) string :=
  match List.find (fun tool => bool_decide (string_at_path tool ["name"] = Some projected_name)) tools with
  | None => Ok None
  | Some tool =>
      match string_at_path tool ["_meta"; "mcpace/upstream"; "server"] with
      | None => Err ("projected tool '" +:+ projected_name +:+ "' is missing upstream server metadata")
      | Some server =>
          match string_at_path tool ["_meta"; "mcpace/upstream"; "tool"] with
          | None => Err ("projected tool '" +:+ projected_name +:+ "' is missing upstream tool metadata")
          | Some upstream_tool => Ok (Some (mkToolTarget server upstream_tool))
          end
      end
  end.

Definition resolve_projected_tool (projected_name : string) (reserved_names : gset string)
    (options : ToolExposureOptions) : option (result (option ProjectedToolTarget) string) :=
  match exposure_mode options with
  | ExposeBroker | ExposeMinimal => Some (Ok None)
  | _ =>
      projected ← projected_tool_set reserved_names options;
      Some (projected ←? projected ;;
            if negb (projection_enabled projected) then Ok None
            else resolve_in (set_tools projected) projected_name)
  end.

Definition tool_names (tools : list JsonValue) : list string :=
  omap (fun tool => string_at_path tool ["name"]) tools.

Definition augment_tool_definitions_with_options (base_tools : list JsonValue) (options : ToolExposureOptions)
    : option (list JsonValue) :=
  match exposure_mode options with
  | ExposeBroker | ExposeMinimal => Some base_tools
  | _ =>
      projected ← projected_tool_set (list_to_set (tool_names base_tools)) options;
      Some (match projected with
            | Ok projected => if projection_enabled projected then base_tools ++ set_tools projected else base_tools
            | Err _ => base_tools
            end)
  end.

Definition augment_tool_definitions (base_tools : list JsonValue) : option (list JsonValue) :=
  augment_tool_definitions_with_options base_tools options_from_env.

Definition tool_list_result (base_tools : list JsonValue) (initialize_params : option JsonValue)
    (cursor : option string) : option JsonValue :=
  let surface_options := tool_surface_options_from_initialize initialize_params in
  let base :=
    map (fun tool => shape_tool_for_client tool surface_options)
      (List.filter (fun tool =>
         match string_at_path tool ["name"] with Some name => should_keep_management_tool name | None => false end)
       base_tools) in
  tools ← augment_tool_definitions base;
  Some (paginated_tool_list environment (map (fun tool => shape_tool_for_client tool surface_options) tools) cursor).

End adapter.
