(* ===== verification/ExposureSafety.v ===== *)
(** * What clients are offered, and what their calls reach

    Proofs about [ToolExposure]: names are new and well shaped, a call of a listed name
    reaches the tool it was listed for, the budgets hold, and guarded tools are not
    offered. *)

From Stdlib Require Import Ascii.
From S2P Require Import Prelude RustStr BTree Json SortBy ToolNames ToolView ServerConfig ToolPolicy ToolExposure.

(** ** Definitions under a projected name *)

Lemma get_or_insert_ne k key v m : key <> k -> bt_get k (or_insert key v m) = bt_get k m.
Proof. intros Hk. unfold or_insert. destruct (bt_contains key m); [done|]. by apply bt_get_insert_ne. Qed.

Section definitions.
Context (environment : string -> option string).

Lemma projected_definition_name server tool_name n tool :
  string_at_path (projected_tool_definition environment server tool_name n tool) ["name"] = Some n.
Proof.
  unfold projected_tool_definition, string_at_path. cbn [value_at_path json_get].
  rewrite bt_get_insert_ne by done. set (m := bt_insert "inputSchema" _ _).
  assert (Hm : bt_get "name" m = Some (json_string n)).
  { unfold m. rewrite bt_get_insert_ne, get_or_insert_ne, bt_get_insert_ne by done. apply bt_get_insert_eq. }
  destruct (json_get tool "outputSchema"); [rewrite bt_get_insert_ne by done|]; by rewrite Hm.
Qed.

Lemma projected_definition_upstream server tool_name n tool key :
  value_at_path (projected_tool_definition environment server tool_name n tool) ["_meta"; "mcpace/upstream"; key]
  = value_at_path (json_object [("server", json_string server); ("tool", json_string tool_name)]) [key].
Proof.
  unfold projected_tool_definition. cbn [value_at_path json_get mbind option_bind].
  rewrite bt_get_insert_eq. cbn [json_get]. rewrite !bt_get_insert_ne by done.
  rewrite bt_get_insert_eq. done.
Qed.

Lemma projected_definition_server server tool_name n tool :
  string_at_path (projected_tool_definition environment server tool_name n tool)
    ["_meta"; "mcpace/upstream"; "server"] = Some server.
Proof. unfold string_at_path. by rewrite projected_definition_upstream. Qed.

Lemma projected_definition_tool server tool_name n tool :
  string_at_path (projected_tool_definition environment server tool_name n tool)
    ["_meta"; "mcpace/upstream"; "tool"] = Some tool_name.
Proof. unfold string_at_path. by rewrite projected_definition_upstream. Qed.

End definitions.

(** ** Projection of a catalogue *)

Definition name_at (tool : JsonValue) : option string := string_at_path tool ["name"].

(** A definition made for a tool of a server. *)
Definition made_for (environment : string -> option string) (server : string) (tool d : JsonValue) : Prop :=
  exists tool_name n, trimmed_name tool = Some tool_name /\ projected_name PROJECTED_TOOL_PREFIX n /\
    d = projected_tool_definition environment server tool_name n tool.

(** Definitions [out] use new and pairwise distinct names: none of [used], all of [used']. *)
Record fresh_names (used used' : gset string) (out : list JsonValue) : Prop := {
  fresh_subset : used ⊆ used';
  fresh_nodup : NoDup (map name_at out);
  fresh_new : forall d, d ∈ out -> exists n, name_at d = Some n /\ (n ∉ used) /\ n ∈ used'
}.

Lemma fresh_nil used : fresh_names used used [].
Proof. split; [done|constructor|]. intros d Hd. by apply not_elem_of_nil in Hd. Qed.

Lemma fresh_app used1 used2 used3 out out' :
  fresh_names used1 used2 out -> fresh_names used2 used3 out' -> fresh_names used1 used3 (out ++ out').
Proof.
  intros [Hs Hn Hf] [Hs' Hn' Hf']. split; [by etrans| |].
  - rewrite map_app. apply NoDup_app. split; [done|]. split; [|done].
    intros x (d & -> & Hd)%list_elem_of_fmap (d' & E & Hd')%list_elem_of_fmap.
    destruct (Hf d Hd) as (n & Hd1 & _ & Hin). destruct (Hf' d' Hd') as (n' & Hd2 & Hnot & _).
    rewrite Hd1, Hd2 in E. by injection E as ->.
  - intros d [Hd|Hd]%elem_of_app.
    + destruct (Hf d Hd) as (n & ? & ? & ?). exists n. split_and!; [done|done|set_solver].
    + destruct (Hf' d Hd) as (n & ? & ? & ?). exists n. split_and!; [done|set_solver|done].
Qed.

Lemma safe_prefix : (str_len (safe_token PROJECTED_TOOL_PREFIX) <= 8)%N.
Proof. by vm_compute. Qed.

Section projection.
Context (environment : string -> option string).

Lemma project_tools_spec server tools used :
  (2 + N.of_nat (size used + length tools) <= USIZE_MAX)%N ->
  exists out used', project_tools environment server tools used = Some (out, used') /\
    size used' <= size used + length tools /\ fresh_names used used' out /\
    forall d, d ∈ out -> exists tool, tool ∈ tools /\ made_for environment server tool d.
Proof.
  revert used. induction tools as [|tool tools IH]; intros used Hs; cbn [project_tools length] in *.
  { exists [], used. split; [done|]. split; [lia|]. split; [apply fresh_nil|].
    intros d Hd. by apply not_elem_of_nil in Hd. }
  destruct (trimmed_name tool) as [tool_name|] eqn:Et.
  - destruct (unique_projected_name_spec PROJECTED_TOOL_PREFIX server tool_name used safe_prefix)
      as (n & -> & Hn & Hshape); [lia|]. cbn [mbind option_bind].
    assert (Hsz : size ({[n]} ∪ used) = S (size used)) by (rewrite size_union, size_singleton; [lia|set_solver]).
    destruct (IH ({[n]} ∪ used)) as (out & used' & -> & Hsize & Hfresh & Hmade); [lia|]. cbn [mbind option_bind].
    eexists _, used'. split; [reflexivity|]. split; [lia|]. split.
    + eapply (fresh_app used ({[n]} ∪ used) used' [_] out); [|done]. split; [set_solver|apply NoDup_singleton|].
      intros d Hd%list_elem_of_singleton. subst d. exists n. unfold name_at.
      rewrite projected_definition_name. split_and!; [done|done|set_solver].
    + intros d [-> |Hd]%elem_of_cons.
      * exists tool. split; [by left|]. by exists tool_name, n.
      * destruct (Hmade d Hd) as (t & ? & ?). exists t. split; [by right|done].
  - destruct (IH used) as (out & used' & -> & Hsize & Hfresh & Hmade); [lia|].
    exists out, used'. split; [done|]. split; [lia|]. split; [done|].
    intros d Hd. destruct (Hmade d Hd) as (t & ? & ?). exists t. split; [by right|done].
Qed.

(** The number of tools a catalogue holds for projection. *)
Definition candidates (servers : list JsonValue) : nat :=
  sum_list_with (fun server => length (items_at server "projectableTools")) servers.

Lemma project_servers_spec servers used :
  (2 + N.of_nat (size used + candidates servers) <= USIZE_MAX)%N ->
  exists out used', project_servers environment servers used = Some out /\ fresh_names used used' out /\
    forall d, d ∈ out -> exists server server_name tool, server ∈ servers /\ is_true_at server "ok" = true /\
      trimmed_name server = Some server_name /\ tool ∈ items_at server "projectableTools" /\
      made_for environment server_name tool d.
Proof.
  revert used. induction servers as [|server servers IH]; intros used Hs; cbn [project_servers].
  { exists [], used. split; [done|]. split; [apply fresh_nil|]. intros d Hd. by apply not_elem_of_nil in Hd. }
  cbn [candidates sum_list_with] in Hs. fold (candidates servers) in Hs.
  destruct (if is_true_at server "ok" then trimmed_name server else None) as [server_name|] eqn:E.
  - destruct (is_true_at server "ok") eqn:Eok; [|done].
    destruct (project_tools_spec server_name (items_at server "projectableTools") used)
      as (out & used1 & -> & Hsize & Hfresh & Hmade); [lia|]. cbn [mbind option_bind].
    destruct (IH used1) as (rest & used' & -> & Hfresh' & Hmade'); [lia|]. cbn [mbind option_bind].
    exists (out ++ rest), used'. split; [done|]. split; [by eapply fresh_app|].
    intros d [Hd|Hd]%elem_of_app.
    + destruct (Hmade d Hd) as (tool & Hin & Hm). exists server, server_name, tool. by split; [left|].
    + destruct (Hmade' d Hd) as (s & sn & tool & ? & ?). exists s, sn, tool. by split; [right|].
  - destruct (IH used) as (out & used' & -> & Hfresh & Hmade); [lia|]. exists out, used'. split; [done|].
    split; [done|]. intros d Hd. destruct (Hmade d Hd) as (s & sn & tool & ? & ?). exists s, sn, tool. by split; [right|].
Qed.

End projection.

(** ** Budgets *)

Section budgets.
Context `{SerdeJson}.

Lemma take_budgeted_prefix tools first used budget :
  exists rest, tools = take_budgeted tools first used budget ++ rest.
Proof.
  revert first used. induction tools as [|t tools IH]; intros first used; [by exists []|]. cbn [take_budgeted].
  destruct (_ && _); [by exists (t :: tools)|].
  destruct (IH false (sat_add USIZE_MAX used (N.max (estimate_json_tokens t) 1))) as [rest E].
  exists rest. cbn [app]. by f_equal.
Qed.

Lemma take_budgeted_tokens tools first used budget :
  (used <= budget)%N -> (budget < USIZE_MAX)%N ->
  let out := take_budgeted tools first used budget in
  (used + sum_by estimate_json_tokens out <= budget)%N \/ (first = true /\ length out <= 1).
Proof.
  intros Hu Hb. cbn zeta. revert first used Hu.
  induction tools as [|t tools IH]; intros first used Hu; cbn [take_budgeted]; [left; cbn; lia|].
  set (tokens := N.max (estimate_json_tokens t) 1). set (u := sat_add USIZE_MAX used tokens).
  destruct (N.ltb_spec budget u) as [Hlt|Hge].
  - destruct first; cbn [negb andb]; [|left; cbn; lia]. right. split; [done|]. cbn [length].
    destruct tools as [|t' tools]; cbn [take_budgeted]; [cbn; lia|]. cbn [negb andb].
    assert (Hu' : (budget < sat_add USIZE_MAX u (N.max (estimate_json_tokens t') 1))%N).
    { unfold sat_add in *. lia. }
    rewrite (proj2 (N.ltb_lt _ _) Hu'). cbn. lia.
  - rewrite andb_false_r. assert (E : u = (used + tokens)%N) by (by eapply sat_add_fits).
    destruct (IH false u Hge) as [Hs|[? _]]; [|done]. left. cbn [sum_by]. unfold tokens in *. lia.
Qed.

Lemma take_tools_within tools count budget :
  (budget < USIZE_MAX)%N ->
  let out := take_tools_with_budget tools count budget in
  (len_N out <= count)%N /\ ((sum_by estimate_json_tokens out <= budget)%N \/ length out <= 1).
Proof.
  intros Hb. cbn zeta. unfold take_tools_with_budget. set (l := firstn _ _).
  destruct (take_budgeted_prefix l true 0 budget) as [rest E]. split.
  - apply (f_equal length) in E. rewrite length_app in E. unfold l in E at 1. rewrite length_firstn in E.
    unfold len_N. lia.
  - destruct (take_budgeted_tokens l true 0 budget) as [?|[_ ?]]; [lia|done|left; lia|by right].
Qed.

Lemma take_tools_elem tools count budget t : t ∈ take_tools_with_budget tools count budget -> t ∈ tools.
Proof.
  unfold take_tools_with_budget. set (l := firstn _ _).
  destruct (take_budgeted_prefix l true 0 budget) as [rest E]. intros Ht.
  assert (Hl : t ∈ l) by (rewrite E; apply elem_of_app; by left).
  rewrite <- (take_drop (N.to_nat count) tools). apply elem_of_app. by left.
Qed.

Lemma take_tools_names tools count budget :
  NoDup (map name_at tools) -> NoDup (map name_at (take_tools_with_budget tools count budget)).
Proof.
  unfold take_tools_with_budget. set (l := firstn _ _). intros Hn.
  destruct (take_budgeted_prefix l true 0 budget) as [rest E].
  assert (Hl : NoDup (map name_at l)).
  { unfold l. rewrite <- (take_drop (N.to_nat count) tools), map_app in Hn. by apply NoDup_app in Hn as (? & _). }
  rewrite E, map_app in Hl. by apply NoDup_app in Hl as (? & _).
Qed.

End budgets.

(** ** What the catalogue offers *)

Definition listing_name (listing : JsonValue) : string := string_or "unknown" (string_at_path listing ["name"]).

Section catalogue.
Context `{SerdeJson} (environment : string -> option string).
Context (cached_catalog : result JsonValue string) (raw_catalog : option N -> bool -> result JsonValue string).
Context (policy_info : string -> string -> result JsonValue string).
Context (options : ToolExposureOptions).
Context (Hbudget : (budget options <= DEFAULT_PROJECTION_CANDIDATE_LIMIT_MAX)%N).

Definition decision (server_name : string) (tool : JsonValue) (tool_name : string) : ProjectionDecision :=
  projection_decision tool (policy_of policy_info server_name tool_name) (projection_safety options).

(** A tool that is let through. *)
Definition let_through (server_name : string) (tool : JsonValue) (tool_name : string) : Prop :=
  trimmed_name tool = Some tool_name /\ projectable (decision server_name tool tool_name) = true.

Definition decorated (server_name : string) (tool d : JsonValue) : Prop :=
  exists tool_name, let_through server_name tool tool_name /\
    d = decorate_projectable_tool tool (policy_of policy_info server_name tool_name) (decision server_name tool tool_name).

Lemma limit_bounds : (projection_candidate_limit environment options <= DEFAULT_PROJECTION_CANDIDATE_LIMIT_MAX)%N.
Proof using Hbudget.
  unfold projection_candidate_limit. apply clamp_bounds.
  change DEFAULT_PROJECTION_CANDIDATE_LIMIT_MAX with 8192%N in *. lia.
Qed.

Lemma catalog_tool_step server_name c s tool :
  (c_stored_projectable c <= projection_candidate_limit environment options)%N ->
  exists added,
    let '(c', s') := catalog_tool environment policy_info options server_name (c, s) tool in
    projectable_tools s' = projectable_tools s ++ added /\
    c_stored_projectable c' = (c_stored_projectable c + len_N added)%N /\
    (c_stored_projectable c' <= projection_candidate_limit environment options)%N /\ forall d, d ∈ added -> decorated server_name tool d.
Proof using Hbudget.
  intros Hc. assert (Hnone : forall d : JsonValue, d ∈ [] -> decorated server_name tool d)
    by (intros d Hd; by apply not_elem_of_nil in Hd).
  unfold catalog_tool. destruct (trimmed_name tool) as [tool_name|] eqn:Et.
  - destruct (projectable (projection_decision tool _ _)) eqn:Ed.
    + unfold keep_projectable. cbn [c_stored_projectable c_raw c_projectable c_broker_only c_stored_broker_only].
      destruct (N.ltb_spec (c_stored_projectable c) (projection_candidate_limit environment options)) as [Hlt|Hge].
      * eexists [_]. cbn [projectable_tools c_stored_projectable]. split; [reflexivity|].
        pose proof limit_bounds as Hl. change DEFAULT_PROJECTION_CANDIDATE_LIMIT_MAX with 8192%N in Hl.
        unfold bump. rewrite sat_add_exact by (change USIZE_MAX with 18446744073709551615%N; lia).
        split; [done|]. split; [lia|]. intros d Hd%list_elem_of_singleton. subst d. exists tool_name. by split.
      * exists []. cbn. rewrite app_nil_r. by rewrite N.add_0_r.
    + exists []. cbn. rewrite app_nil_r. by rewrite N.add_0_r.
  - exists []. cbn. rewrite app_nil_r. by rewrite N.add_0_r.
Qed.

Lemma catalog_tools_spec server_name tools c s :
  (c_stored_projectable c <= projection_candidate_limit environment options)%N ->
  exists added,
    let '(c', s') := fold_left (catalog_tool environment policy_info options server_name) tools (c, s) in
    projectable_tools s' = projectable_tools s ++ added /\
    c_stored_projectable c' = (c_stored_projectable c + len_N added)%N /\
    (c_stored_projectable c' <= projection_candidate_limit environment options)%N /\
    forall d, d ∈ added -> exists tool, tool ∈ tools /\ decorated server_name tool d.
Proof using Hbudget.
  revert c s. induction tools as [|tool tools IH]; intros c s Hc; cbn [fold_left].
  { exists []. rewrite app_nil_r, N.add_0_r. split_and!; try done. intros d Hd. by apply not_elem_of_nil in Hd. }
  destruct (catalog_tool_step server_name c s tool Hc) as [a Ha].
  destruct (catalog_tool _ _ _ _ (c, s) tool) as [c1 s1]. destruct Ha as (Hp & Hn & Hle & Hd).
  destruct (IH c1 s1 Hle) as [b Hb]. exists (a ++ b).
  destruct (fold_left _ _ _) as [c2 s2]. destruct Hb as (Hp' & Hn' & Hle' & Hd').
  rewrite Hp', Hp, app_assoc, Hn', Hn, len_N_app. split_and!; [done|lia|lia|].
  intros d [Hx|Hx]%elem_of_app.
  - exists tool. split; [by left|auto].
  - destruct (Hd' d Hx) as (t & ? & ?). exists t. split; [by right|done].
Qed.

(** An entry of the catalogue stands for a listing, and holds tools of it that were let through. *)
Definition entry_from (listings : list JsonValue) (entry : JsonValue) : Prop :=
  is_true_at entry "ok" = true ->
  exists listing, listing ∈ listings /\ is_true_at listing "ok" = true /\
    string_at_path entry ["name"] = Some (listing_name listing) /\
    forall d, d ∈ items_at entry "projectableTools" ->
      exists tool, tool ∈ items_at listing "tools" /\ decorated (listing_name listing) tool d.

Lemma catalog_listings_spec listings c entries errors :
  (c_stored_projectable c <= projection_candidate_limit environment options)%N ->
  exists added,
    let '(c', entries', _) := fold_left (catalog_listing environment policy_info options) listings (c, entries, errors) in
    entries' = entries ++ added /\
    c_stored_projectable c' = (c_stored_projectable c + N.of_nat (candidates added))%N /\
    (c_stored_projectable c' <= projection_candidate_limit environment options)%N /\ Forall (entry_from listings) added.
Proof using Hbudget.
  revert c entries errors. induction listings as [|listing listings IH]; intros c entries errors Hc; cbn [fold_left].
  { exists []. rewrite app_nil_r, N.add_0_r. split_and!; [done|done|done|constructor]. }
  assert (Hweak : forall l, Forall (entry_from listings) l -> Forall (entry_from (listing :: listings)) l).
  { intros l Hl. eapply Forall_impl; [exact Hl|]. intros e He Hok. destruct (He Hok) as (x & ? & ?).
    exists x. split; [by right|done]. }
  assert (Hone : exists c1 e1 errors1,
    catalog_listing environment policy_info options (c, entries, errors) listing = (c1, entries ++ [e1], errors1) /\
    c_stored_projectable c1 = (c_stored_projectable c + len_N (items_at e1 "projectableTools"))%N /\
    (c_stored_projectable c1 <= projection_candidate_limit environment options)%N /\ entry_from (listing :: listings) e1).
  { unfold catalog_listing. fold (listing_name listing). destruct (is_true_at listing "ok") eqn:Eok.
    - destruct (catalog_tools_spec (listing_name listing) (items_at listing "tools") c (mkServerTools [] [] 0 0) Hc)
        as [a Ha]. destruct (fold_left _ _ _) as [c1 s1]. destruct Ha as (Hp & Hn & Hle & Hd). cbn [projectable_tools] in Hp.
      eexists c1, _, errors. split; [reflexivity|].
      change (items_at (server_entry (listing_name listing) listing s1) "projectableTools") with (projectable_tools s1).
      rewrite Hp. cbn [app]. split; [done|]. split; [done|]. intros _. exists listing. split; [by left|].
      split; [done|]. split; [reflexivity|].
      change (items_at (server_entry (listing_name listing) listing s1) "projectableTools") with (projectable_tools s1).
      rewrite Hp. exact Hd.
    - eexists c, _, _. split; [reflexivity|]. split; [symmetry; apply N.add_0_r|]. split; [done|].
      intros Hk. by change (false = true) in Hk. }
  destruct Hone as (c1 & e1 & errors1 & -> & Hn & Hle & He). destruct (IH c1 (entries ++ [e1]) errors1 Hle) as [b Hb].
  exists (e1 :: b). destruct (fold_left _ _ _) as [ [c2 entries2] errors2]. destruct Hb as (E & Hn2 & Hle2 & Hf).
  rewrite E, <- app_assoc. split; [done|]. split; [|split; [done|constructor; auto]]. rewrite Hn2, Hn.
  cbn [candidates sum_list_with]. fold (candidates b). unfold len_N. lia.
Qed.

End catalogue.

Lemma trimmed_name_decorated tool policy decision n :
  trimmed_name tool = Some n -> trimmed_name (decorate_projectable_tool tool policy decision) = Some n.
Proof.
  unfold trimmed_name, decorate_projectable_tool, object_or_empty, string_at_path.
  destruct tool as [| | | | |m]; try done. cbn [value_at_path json_get as_object unwrap_or].
  by rewrite bt_get_insert_ne by done.
Qed.

Lemma trimmed_name_trim v n : trimmed_name v = Some n -> string_at_path v ["name"] ≫= (fun s => Some (trim s)) = Some n.
Proof.
  unfold trimmed_name. intros [H _]%opt_filter_Some. by destruct (string_at_path v ["name"]).
Qed.

Section exposure.
Context `{SerdeJson} (environment : string -> option string).
Context (cached_catalog : result JsonValue string) (raw_catalog : option N -> bool -> result JsonValue string).
Context (policy_info : string -> string -> result JsonValue string).
Context (options : ToolExposureOptions) (reserved : gset string).

(** What a definition in a projected set stands for: a tool that some reachable server of the
    catalogue lists and that the safety level lets through. *)
Definition offers (source d : JsonValue) (server tool_name : string) : Prop :=
  exists listing tool tool',
    listing ∈ items_at source "servers" /\ is_true_at listing "ok" = true /\
    trim (listing_name listing) = server /\ server <> EmptyString /\ tool ∈ items_at listing "tools" /\
    let_through policy_info options (listing_name listing) tool tool_name /\
    exists n, projected_name PROJECTED_TOOL_PREFIX n /\
      d = projected_tool_definition environment server tool_name n tool'.

Context (Hbudget : (budget options <= DEFAULT_PROJECTION_CANDIDATE_LIMIT_MAX)%N).
Context (Hreserved : (8194 + N.of_nat (size reserved) <= USIZE_MAX)%N).

Lemma projected_set_spec :
  (exists e, projected_tool_set environment cached_catalog raw_catalog policy_info reserved options = Some (Err e)) \/
  (exists source cat all used',
     catalog_source cached_catalog raw_catalog options = Ok source /\
     projected_tool_set environment cached_catalog raw_catalog policy_info reserved options
     = Some (Ok (tool_set_of options cat all)) /\
     fresh_names reserved used' all /\
     forall d, d ∈ all -> exists server tool_name, offers source d server tool_name).
Proof using Hbudget Hreserved.
  unfold projected_tool_set, projection_catalog.
  destruct (catalog_source cached_catalog raw_catalog options) as [source|e] eqn:Es; [right|left; by exists e].
  destruct (catalog_listings_spec environment policy_info options Hbudget (items_at source "servers")
              (mkCounts 0 0 0 0 0) [] []) as [entries He]; [apply N.le_0_l|].
  destruct (fold_left _ _ _) as [ [c entries'] errors]. destruct He as (E & Hn & Hle & Hf).
  cbn [app c_stored_projectable] in E, Hn. subst entries'.
  pose proof (limit_bounds environment options Hbudget) as Hl.
  change DEFAULT_PROJECTION_CANDIDATE_LIMIT_MAX with 8192%N in Hl.
  match goal with |- context [items_at ?j "servers"] =>
    lazymatch j with source => fail | _ => set (cat := j) end end.
  change (items_at cat "servers") with entries.
  destruct (project_servers_spec environment entries reserved) as (all & used' & -> & Hfresh & Hmade); [lia|].
  cbn [mbind option_bind]. exists source, cat, all, used'. split; [done|]. split; [done|]. split; [done|].
  intros d Hd. destruct (Hmade d Hd) as (entry & server & tool' & Hin & Hok & Hname & Htool & tool_name & n & Ht & Hsh & ->).
  rewrite Forall_forall in Hf. destruct (Hf entry Hin Hok) as (listing & Hlin & Hlok & Hln & Hdec).
  destruct (Hdec tool' Htool) as (tool & Htin & tool_name' & Hthrough & ->).
  assert (Heq : tool_name' = tool_name).
  { destruct Hthrough as [Hraw _]. rewrite (trimmed_name_decorated _ _ _ _ Hraw) in Ht. congruence. }
  subst tool_name'. exists server, tool_name, listing, tool. eexists. split_and!; try done.
  - apply trimmed_name_trim in Hname. rewrite Hln in Hname. by injection Hname.
  - unfold trimmed_name in Hname. apply opt_filter_Some in Hname as [_ Hne]. by intros ->.
  - by exists n.
Qed.

(** The names of the definitions of a set are distinct, and none is reserved. *)
Lemma set_tools_spec source cat all used' :
  fresh_names reserved used' all ->
  (forall d, d ∈ all -> exists server tool_name, offers source d server tool_name) ->
  let tools := set_tools (tool_set_of options cat all) in
  NoDup (map name_at tools) /\
  forall d, d ∈ tools -> exists n server tool_name, name_at d = Some n /\ (n ∉ reserved) /\
    projected_name PROJECTED_TOOL_PREFIX n /\ offers source d server tool_name /\
    resolve_in tools n = Ok (Some (mkToolTarget server tool_name)).
Proof.
  intros [_ Hnd Hnew] Hoff. cbn zeta. unfold tool_set_of. cbn [set_tools].
  destruct (match exposure_mode options with ExposeAuto => _ | _ => _ end) eqn:Een.
  2: { split; [constructor|]. intros d Hd. by apply not_elem_of_nil in Hd. }
  set (sorted := sort_by tool_before all). set (out := take_tools_with_budget sorted _ _).
  assert (Hp : Permutation sorted all) by apply sort_by_perm.
  assert (Hout : NoDup (map name_at out)).
  { apply take_tools_names. change (NoDup (name_at <$> sorted)). by rewrite Hp. }
  split; [done|]. intros d Hd.
  assert (Hall : d ∈ all) by (apply (sort_by_elem tool_before); by eapply take_tools_elem).
  destruct (Hoff d Hall) as (server & tool_name & Ho). pose proof Ho as Ho'.
  destruct Ho' as (listing & tool & tool' & _ & _ & _ & _ & _ & _ & n & Hsh & Ed).
  destruct (Hnew d Hall) as (n' & Hn & Hnot & _).
  assert (Hnn : name_at d = Some n) by (rewrite Ed; apply projected_definition_name).
  assert (n' = n) as -> by congruence.
  exists n, server, tool_name. split_and!; try done.
  assert (Hfind : List.find (fun tool => bool_decide (string_at_path tool ["name"] = Some n)) out = Some d).
  { clear -Hout Hd Hnn. induction out as [|x out IH]; [by apply not_elem_of_nil in Hd|].
    cbn [map] in Hout. apply NoDup_cons in Hout as [Hx Hout]. cbn [List.find].
    destruct (bool_decide_reflect (string_at_path x ["name"] = Some n)) as [Ex|Ex].
    - apply elem_of_cons in Hd as [-> |Hd]; [done|]. exfalso. apply Hx.
      apply list_elem_of_fmap. exists d. unfold name_at in *. by rewrite Ex, Hnn.
    - apply elem_of_cons in Hd as [-> |Hd]; [by unfold name_at in Hnn|]. by apply IH. }
  unfold resolve_in. rewrite Hfind, Ed, projected_definition_server, projected_definition_tool. done.
Qed.

(** C15: building the projected tools always ends, and when it
    succeeds the names are pairwise distinct, differ from MCPace's own and fit clients; and a
    call of any listed name is resolved to the server and tool it was listed for, one that a
    reachable server lists and the safety level lets through. *)
Theorem projected_calls_reach_their_tool :
  exists r, projected_tool_set environment cached_catalog raw_catalog policy_info reserved options = Some r /\
  forall set, r = Ok set -> projection_enabled set = true ->
    NoDup (map name_at (set_tools set)) /\
    forall d, d ∈ set_tools set -> exists source n server tool_name,
      catalog_source cached_catalog raw_catalog options = Ok source /\ offers source d server tool_name /\
      name_at d = Some n /\ (n ∉ reserved) /\ projected_name PROJECTED_TOOL_PREFIX n /\
      resolve_projected_tool environment cached_catalog raw_catalog policy_info n reserved options
      = Some (Ok (Some (mkToolTarget server tool_name))).
Proof using Hbudget Hreserved.
  destruct projected_set_spec as [ [e He] | (source & cat & all & used' & Hs & He & Hfresh & Hoff) ];
    rewrite He; eexists; (split; [reflexivity|]); [done|].
  intros set [= <-] Hen. destruct (set_tools_spec source cat all used' Hfresh Hoff) as [Hnd Hd].
  split; [exact Hnd|]. intros d Hin. destruct (Hd d Hin) as (n & server & tool_name & Hn & Hnot & Hsh & Ho & Hr).
  exists source, n, server, tool_name. split_and!; try done.
  unfold resolve_projected_tool. rewrite He. cbn [mbind option_bind]. rewrite Hen. cbn [negb]. rewrite Hr.
  destruct (exposure_mode options) eqn:Em; try done; exfalso; unfold tool_set_of in Hen; cbn in Hen; by rewrite Em in Hen.
Qed.

(** What a resolved name stands for. *)
Lemma resolved_offered n target :
  resolve_projected_tool environment cached_catalog raw_catalog policy_info n reserved options
  = Some (Ok (Some target)) ->
  exists source d, catalog_source cached_catalog raw_catalog options = Ok source /\
    offers source d (target_server target) (target_tool target).
Proof using Hbudget Hreserved.
  unfold resolve_projected_tool.
  destruct projected_set_spec as [ [e He] | (source & cat & all & used' & Hs & He & Hfresh & Hoff) ]; rewrite He;
    [by destruct (exposure_mode options)|].
  intros Hr. assert (Hin : resolve_in (set_tools (tool_set_of options cat all)) n = Ok (Some target)).
  { destruct (exposure_mode options); cbn [mbind option_bind] in Hr; try done;
      destruct (negb _); try done; by injection Hr. }
  clear Hr. destruct (set_tools_spec source cat all used' Hfresh Hoff) as [_ Hd].
  unfold resolve_in in Hin. destruct (List.find _ _) as [d|] eqn:Ef; [|done].
  apply find_some in Ef as [Hdin Hdn]. apply list_elem_of_In in Hdin. apply bool_decide_eq_true in Hdn.
  destruct (Hd d Hdin) as (n' & server & tool_name & Hn & _ & _ & Ho & Hr).
  destruct Ho as (listing & tool & tool' & Ho). pose proof Ho as (_ & _ & _ & _ & _ & _ & n'' & _ & Ed).
  rewrite Ed, projected_definition_server, projected_definition_tool in Hin. injection Hin as <-.
  exists source, d. split; [done|]. by exists listing, tool, tool'.
Qed.

(** The projected tools are at most as many as the count budget, and their
    estimated tokens fit the token budget unless a single tool exceeds it. *)
Theorem projection_within_budget set :
  (token_budget options < USIZE_MAX)%N ->
  projected_tool_set environment cached_catalog raw_catalog policy_info reserved options = Some (Ok set) ->
  (len_N (set_tools set) <= budget options)%N /\
  ((estimated_projected_tokens set <= token_budget options)%N \/ length (set_tools set) <= 1).
Proof using Hbudget Hreserved.
  intros Ht. destruct projected_set_spec as [ [e He] | (source & cat & all & used' & _ & He & _) ]; rewrite He; [done|].
  intros [= <-]. unfold tool_set_of. cbn [set_tools estimated_projected_tokens].
  destruct (match exposure_mode options with ExposeAuto => _ | _ => _ end).
  - apply take_tools_within. done.
  - split; [apply N.le_0_l|left; apply N.le_0_l].
Qed.

End exposure.

(** A catalogue of one server with a reading and a deleting tool. *)
#[local] Instance sample_serde : SerdeJson := {|
  serde_number := N;
  number_parse := fun _ => None;
  number_print := fun _ => EmptyString;
  print_compact := fun _ => EmptyString;
  print_pretty := fun _ => EmptyString;
  parse_text := fun _ => Err EmptyString
|}.

Definition sample_tool (name : string) : JsonValue := json_object [("name", json_string name)].

Definition sample_catalog : JsonValue :=
  json_object [("servers", json_array [json_object
    [("name", json_string "github"); ("ok", json_bool true);
     ("tools", json_array [sample_tool "list_issues"; sample_tool "delete_repo"])]])].

Definition sample_options : ToolExposureOptions := mkExposure ExposeNative 64 24000 None false SafetySafe.

Definition sample_servers : list (string * UpstreamServerConfig) := [].

Definition sample_set : option (result ProjectedToolSet string) :=
  projected_tool_set (fun _ => None) (Err EmptyString) (fun _ _ => Ok sample_catalog)
    (tool_policy_info (Ok sample_servers)) {["upstream_call"]} sample_options.

Lemma sample_set_names :
  match sample_set with
  | Some (Ok set) => projection_enabled set = true /\ tool_names (set_tools set) = ["u_github_list_issues_e9caa715cd"]
  | _ => False
  end.
Proof. vm_compute. split; reflexivity. Qed.

Lemma sample_set_exists :
  exists set, sample_set = Some (Ok set) /\ projection_enabled set = true /\
    tool_names (set_tools set) = ["u_github_list_issues_e9caa715cd"].
Proof.
  assert (G : forall o : option (result ProjectedToolSet string),
    match o with
    | Some (Ok set) => projection_enabled set = true /\ tool_names (set_tools set) = ["u_github_list_issues_e9caa715cd"]
    | _ => False
    end ->
    exists set, o = Some (Ok set) /\ projection_enabled set = true /\
      tool_names (set_tools set) = ["u_github_list_issues_e9caa715cd"]).
  { intros [ [set|] |] Ho; [by exists set|done..]. }
  exact (G sample_set sample_set_names).
Qed.

Lemma sample_within : (8194 + N.of_nat (size ({["upstream_call"]} : gset string)) <= USIZE_MAX)%N.
Proof. rewrite size_singleton. by vm_compute. Qed.

Lemma projected_calls_reach_their_tool_witness :
  exists set, sample_set = Some (Ok set) /\ tool_names (set_tools set) = ["u_github_list_issues_e9caa715cd"] /\
    NoDup (map name_at (set_tools set)).
Proof.
  destruct sample_set_exists as (set & E & Hen & Hn).
  destruct (projected_calls_reach_their_tool (fun _ => None) (Err EmptyString) (fun _ _ => Ok sample_catalog)
    (tool_policy_info (Ok sample_servers)) sample_options {["upstream_call"]} ltac:(by vm_compute) sample_within)
    as (r & Hr & H).
  exists set. split; [exact E|]. split; [exact Hn|].
  exact (proj1 (H set (Some_inj _ _ (eq_trans (eq_sym Hr) E)) Hen)).
Defined.

Lemma projection_within_budget_witness :
  exists set, sample_set = Some (Ok set) /\ (len_N (set_tools set) <= 64)%N.
Proof.
  destruct sample_set_exists as (set & E & _). exists set. split; [exact E|].
  exact (proj1 (projection_within_budget (fun _ => None) (Err EmptyString) (fun _ _ => Ok sample_catalog)
    (tool_policy_info (Ok sample_servers)) sample_options {["upstream_call"]} ltac:(by vm_compute) sample_within
    set ltac:(by vm_compute) E)).
Defined.

(** ** Guarded tools are not offered *)

Section guards.
Context `{SerdeJson} (environment : string -> option string).
Context (cached_catalog : result JsonValue string) (raw_catalog : option N -> bool -> result JsonValue string).
Context (configured : result (list (string * UpstreamServerConfig)) string).
Context (options : ToolExposureOptions) (reserved : gset string).
Context (Hbudget : (budget options <= DEFAULT_PROJECTION_CANDIDATE_LIMIT_MAX)%N).
Context (Hreserved : (8194 + N.of_nat (size reserved) <= USIZE_MAX)%N).

Lemma policy_of_guard servers server_name tool_name s :
  trim server_name <> EmptyString -> trim tool_name <> EmptyString ->
  find_server servers (trim server_name) = Some s ->
  bool_at_path (policy_of (tool_policy_info (Ok servers)) server_name tool_name) ["guardRequired"]
  = Some (match List.filter (fun p => matches_tool p (trim tool_name)) (tool_policies s) with [] => false | _ => true end).
Proof.
  intros Hs Ht Hf. unfold policy_of, tool_policy_info.
  rewrite (proj2 (str_is_empty_false _) Hs), (proj2 (str_is_empty_false _) Ht), Hf. cbn [ok_or].
  by destruct (List.filter _ _).
Qed.

(** The tool as its server lists it in the catalogue that is projected. *)
Definition listed (server_name tool_name : string) (tool : JsonValue) : Prop :=
  exists source listing, catalog_source cached_catalog raw_catalog options = Ok source
    /\ listing ∈ items_at source "servers" /\ is_true_at listing "ok" = true
    /\ trim (listing_name listing) = server_name /\ tool ∈ items_at listing "tools" /\ trimmed_name tool = Some tool_name.

(** The tool says that it only reads. *)
Definition declared_read_only (tool : JsonValue) : Prop := bool_at_path tool ["annotations"; "readOnlyHint"] = Some true.
Definition declared_destructive (tool : JsonValue) : Prop := bool_at_path tool ["annotations"; "destructiveHint"] = Some true.

(** Its server's policies, as far as they can be read, let everyone use it. *)
Definition unguarded (server_name tool_name : string) : Prop :=
  forall servers s p, configured = Ok servers -> find_server servers server_name = Some s -> p ∈ tool_policies s ->
    matches_tool p tool_name = false.

(** What the decision lets through, below the level that lets everything through. *)
Lemma let_through_unguarded server_name tool tool_name :
  let_through (tool_policy_info configured) options server_name tool tool_name -> projection_safety options <> SafetyAll ->
  trim server_name <> EmptyString -> unguarded (trim server_name) tool_name.
Proof.
  intros [Ht Hp] Hsafe Hne servers s p -> Hs Hin. pose proof Ht as Ht'. unfold trimmed_name in Ht'. apply opt_filter_Some in Ht' as [Ht1 Ht2].
  assert (Htrim : trim tool_name = tool_name).
  { destruct (string_at_path tool ["name"]) as [x|]; [|done]. injection Ht1 as <-. apply trim_idem. }
  assert (Htn : trim tool_name <> EmptyString) by (rewrite Htrim; intros E; by rewrite E in Ht2).
  pose proof (policy_of_guard servers server_name tool_name s Hne Htn Hs) as Hg.
  unfold decision, projection_decision in Hp. rewrite Hg in Hp. cbn [unwrap_or] in Hp. rewrite Htrim in Hp.
  destruct (List.filter _ _) eqn:Ef.
  - destruct (matches_tool p tool_name) eqn:Em; [|done]. exfalso.
    apply list_elem_of_In in Hin. assert (Hi : In p []) by (rewrite <- Ef; by apply filter_In). done.
  - by destruct (projection_safety options).
Qed.

Lemma let_through_safe server_name tool tool_name :
  let_through (tool_policy_info configured) options server_name tool tool_name -> projection_safety options = SafetySafe ->
  declared_read_only tool \/
  (conservative_read_only_name_signal (text_of tool "name") = true /\
   mutating_name_signal (text_of tool "name") = false /\ ~ declared_destructive tool).
Proof.
  intros [_ Hp] Hs. unfold decision, projection_decision in Hp. rewrite Hs in Hp.
  destruct (unwrap_or _ _); [done|]. destruct (_ || _) eqn:E; [|done].
  apply orb_true_iff in E as [E%bool_decide_eq_true| [ [E1 E2%negb_true_iff]%andb_true_iff E3%negb_true_iff]%andb_true_iff].
  - by left.
  - right. split_and!; [done|done|]. by apply bool_decide_eq_false in E2.
Qed.

Lemma let_through_review server_name tool tool_name :
  let_through (tool_policy_info configured) options server_name tool tool_name -> projection_safety options = SafetyReview ->
  mutating_name_signal (text_of tool "name") = false /\ ~ declared_destructive tool.
Proof.
  intros [_ Hp] Hs. unfold decision, projection_decision in Hp. rewrite Hs in Hp.
  destruct (unwrap_or _ _); [done|]. destruct (_ || _) eqn:E; [done|]. apply orb_false_iff in E as [E1 E2].
  split; [done|]. by apply bool_decide_eq_false in E1.
Qed.

(** C16: unless the operator asked for all tools, a call by a projected name reaches a tool
    that its server lists in the catalogue and that no policy of that server guards, as far
    as the configured servers can be read.  The tool as it is listed is, at the safe level,
    declared read-only, or has a reading name without a mutating word and is not declared
    destructive; at the review level it has no mutating word in its name and is not declared
    destructive; and this holds even when the policies cannot be read. *)
Theorem guarded_tools_not_projected n target :
  projection_safety options <> SafetyAll ->
  resolve_projected_tool environment cached_catalog raw_catalog (tool_policy_info configured) n reserved options
  = Some (Ok (Some target)) ->
  unguarded (target_server target) (target_tool target) /\
  exists tool, listed (target_server target) (target_tool target) tool /\
    match projection_safety options with
    | SafetySafe =>
        declared_read_only tool \/
        (conservative_read_only_name_signal (text_of tool "name") = true /\
         mutating_name_signal (text_of tool "name") = false /\ ~ declared_destructive tool)
    | _ => mutating_name_signal (text_of tool "name") = false /\ ~ declared_destructive tool
    end.
Proof using Hbudget Hreserved.
  intros Hsafe Hr.
  destruct (resolved_offered environment cached_catalog raw_catalog (tool_policy_info configured) options reserved
    Hbudget Hreserved n target Hr) as (source & d & Hsource & listing & tool & tool' & Hin & Hok & Hname & Hne & Htool & Hlet & _).
  rewrite <- Hname in Hne |- *. split; [by eapply let_through_unguarded|]. exists tool. split.
  - exists source, listing. split_and!; try done. apply Hlet.
  - destruct (projection_safety options) eqn:Es; [by eapply let_through_safe|by eapply let_through_review|done].
Qed.

End guards.

Lemma guarded_tools_not_projected_witness :
  resolve_projected_tool (fun _ => None) (Err EmptyString) (fun _ _ => Ok sample_catalog)
    (tool_policy_info (Ok sample_servers)) "u_github_list_issues_e9caa715cd" {["upstream_call"]} sample_options
  = Some (Ok (Some (mkToolTarget "github" "list_issues"))) /\
  exists tool, listed (Err EmptyString) (fun _ _ => Ok sample_catalog) sample_options "github" "list_issues" tool /\
     (declared_read_only tool \/
      (conservative_read_only_name_signal (text_of tool "name") = true /\
       mutating_name_signal (text_of tool "name") = false /\ ~ declared_destructive tool)).
Proof.
  assert (Hr : resolve_projected_tool (fun _ => None) (Err EmptyString) (fun _ _ => Ok sample_catalog)
    (tool_policy_info (Ok sample_servers)) "u_github_list_issues_e9caa715cd" {["upstream_call"]} sample_options
    = Some (Ok (Some (mkToolTarget "github" "list_issues")))) by (vm_compute; reflexivity).
  split; [exact Hr|].
  exact (proj2 (guarded_tools_not_projected (fun _ => None) (Err EmptyString) (fun _ _ => Ok sample_catalog)
    (Ok sample_servers) sample_options {["upstream_call"]} ltac:(by vm_compute) sample_within
    "u_github_list_issues_e9caa715cd" (mkToolTarget "github" "list_issues") ltac:(done) Hr)).
Defined.

(** ** What the code does not mean to do *)

(** When the configured servers cannot be read, a tool counts as unguarded and is projected. *)
Lemma unreadable_policies_guard_nothing :
  match resolve_projected_tool (fun _ => None) (Err EmptyString) (fun _ _ => Ok sample_catalog)
    (tool_policy_info (Err "unreadable")) "u_github_list_issues_e9caa715cd" {["upstream_call"]} sample_options with
  | Some (Ok (Some target)) => target_tool target = "list_issues"
  | _ => False
  end.
Proof. vm_compute. reflexivity. Qed.
