(* ===== verification/ServerModel.v ===== *)
(** * Server records (src/server/model.rs)

    What MCPace knows of a configured server for planning, and how it is reported.  The
    definitions that use the records are in [ToolSearch] and [RoutePlan]. *)

From S2P Require Import Prelude RustStr BTree Json Execution.

Definition json_strings (l : list string) : JsonValue := json_array (map json_string l).

Record ServerRecord := mkServerRecord {
  sr_name : string;
  sr_kind : string;
  sr_required : bool;
  sr_default_enabled : bool;
  sr_profile_enabled : bool;
  sr_platform_supported : bool;
  sr_effective_enabled : bool;
  sr_auto_start : bool;
  sr_transport_preference : string;
  sr_supported_transports : list string;
  sr_platforms : list string;
  sr_required_commands : list string;
  sr_scope_class : string;
  sr_concurrency_policy : string;
  sr_state_binding : string;
  sr_credential_binding : string;
  sr_parallelism_limit : N;
  sr_parallel_safety_class : string;
  sr_runtime_type : string;
  sr_state_class : string;
  sr_effect_class : string;
  sr_default_pool_model : string;
  sr_max_workers : N;
  sr_max_in_flight_per_worker : N;
  sr_execution : ExecutionPolicy;
  sr_transport_status : string;
  sr_launcher_kind : string;
  sr_lock_domains : list string;
  sr_profile_evidence : list JsonValue;
  sr_conflict_domain : string;
  sr_project_root_mode : string;
  sr_worktree_binding : string;
  sr_state_profile_mode : string;
  sr_host_lock : string;
  sr_startup_strategy : string;
  sr_routing_group : string;
  sr_discovery_requires_lease : bool;
  sr_health_url : string;
  sr_source_enabled : bool;
  sr_source_type : string;
  sr_source_path : string;
  sr_source_command : string;
  sr_source_args : list string;
  sr_source_env_names : list string;
  sr_source_header_names : list string;
  sr_source_url : string;
  sr_tool_policies : list JsonValue;
  sr_installer_target : string;
  sr_installer_method : string;
  sr_installer_package : string;
  sr_installer_verify_command : string
}.

Record SourceServerRecord := mkSourceServer {
  src_name : string;
  src_enabled : bool;
  src_source_type : string;
  src_command : string;
  src_url : string;
  src_args : list string;
  src_env_names : list string;
  src_header_names : list string;
  src_source_path : string;
  src_profile_hints : list string;
  src_execution : option JsonValue;
  src_policy : option JsonValue
}.

Definition summary_json_value (r : ServerRecord) : JsonValue :=
  json_object [("name", json_string (sr_name r));
     ("kind", json_string (sr_kind r));
     ("required", json_bool (sr_required r));
     ("defaultEnabled", json_bool (sr_default_enabled r));
     ("profileEnabled", json_bool (sr_profile_enabled r));
     ("platformSupported", json_bool (sr_platform_supported r));
     ("sourceEnabled", json_bool (sr_source_enabled r));
     ("sourceType", json_string (sr_source_type r));
     ("sourcePath", json_string (sr_source_path r));
     ("sourceCommand", json_string (sr_source_command r));
     ("sourceArgs", json_strings (sr_source_args r));
     ("sourceEnvNames", json_strings (sr_source_env_names r));
     ("sourceHeaderNames", json_strings (sr_source_header_names r));
     ("sourceUrl", json_string (sr_source_url r));
     ("effectiveEnabled", json_bool (sr_effective_enabled r));
     ("transportPreference", json_string (sr_transport_preference r));
     ("scopeClass", json_string (sr_scope_class r));
     ("concurrencyPolicy", json_string (sr_concurrency_policy r));
     ("stateBinding", json_string (sr_state_binding r));
     ("credentialBinding", json_string (sr_credential_binding r));
     ("parallelismLimit", json_number (sr_parallelism_limit r));
     ("parallelSafetyClass", json_string (sr_parallel_safety_class r));
     ("runtimeType", json_string (sr_runtime_type r));
     ("stateClass", json_string (sr_state_class r));
     ("effectClass", json_string (sr_effect_class r));
     ("defaultPoolModel", json_string (sr_default_pool_model r));
     ("maxWorkers", json_number (sr_max_workers r));
     ("maxInFlightPerWorker", json_number (sr_max_in_flight_per_worker r));
     ("execution", to_json_value (sr_execution r));
     ("transportStatus", json_string (sr_transport_status r));
     ("launcherKind", json_string (sr_launcher_kind r));
     ("lockDomains", json_strings (sr_lock_domains r));
     ("profileEvidence", json_array (sr_profile_evidence r));
     ("conflictDomain", json_string (sr_conflict_domain r));
     ("projectRootMode", json_string (sr_project_root_mode r));
     ("worktreeBinding", json_string (sr_worktree_binding r));
     ("stateProfileMode", json_string (sr_state_profile_mode r));
     ("hostLock", json_string (sr_host_lock r));
     ("startupStrategy", json_string (sr_startup_strategy r));
     ("routingGroup", json_string (sr_routing_group r));
     ("discoveryRequiresLease", json_bool (sr_discovery_requires_lease r))].

Definition capabilities_json_value (r : ServerRecord) : JsonValue :=
  json_object [("name", json_string (sr_name r));
     ("kind", json_string (sr_kind r));
     ("required", json_bool (sr_required r));
     ("autoStart", json_bool (sr_auto_start r));
     ("profileEnabled", json_bool (sr_profile_enabled r));
     ("platformSupported", json_bool (sr_platform_supported r));
     ("effectiveEnabled", json_bool (sr_effective_enabled r));
     ("supportedTransports", json_strings (sr_supported_transports r));
     ("platforms", json_strings (sr_platforms r));
     ("requiredCommands", json_strings (sr_required_commands r));
     ("routingPolicy", json_object [("scopeClass", json_string (sr_scope_class r));
     ("concurrencyPolicy", json_string (sr_concurrency_policy r));
     ("stateBinding", json_string (sr_state_binding r));
     ("credentialBinding", json_string (sr_credential_binding r));
     ("parallelismLimit", json_number (sr_parallelism_limit r));
     ("parallelSafetyClass", json_string (sr_parallel_safety_class r));
     ("runtimeType", json_string (sr_runtime_type r));
     ("stateClass", json_string (sr_state_class r));
     ("effectClass", json_string (sr_effect_class r));
     ("defaultPoolModel", json_string (sr_default_pool_model r));
     ("maxWorkers", json_number (sr_max_workers r));
     ("maxInFlightPerWorker", json_number (sr_max_in_flight_per_worker r));
     ("execution", to_json_value (sr_execution r));
     ("transportStatus", json_string (sr_transport_status r));
     ("launcherKind", json_string (sr_launcher_kind r));
     ("lockDomains", json_strings (sr_lock_domains r));
     ("profileEvidence", json_array (sr_profile_evidence r));
     ("conflictDomain", json_string (sr_conflict_domain r));
     ("projectRootMode", json_string (sr_project_root_mode r));
     ("worktreeBinding", json_string (sr_worktree_binding r));
     ("stateProfileMode", json_string (sr_state_profile_mode r));
     ("hostLock", json_string (sr_host_lock r));
     ("startupStrategy", json_string (sr_startup_strategy r));
     ("routingGroup", json_string (sr_routing_group r));
     ("discoveryRequiresLease", json_bool (sr_discovery_requires_lease r))]);
     ("healthUrl", json_string (sr_health_url r));
     ("sourceEnabled", json_bool (sr_source_enabled r));
     ("sourceType", json_string (sr_source_type r));
     ("sourcePath", json_string (sr_source_path r));
     ("sourceCommand", json_string (sr_source_command r));
     ("sourceArgs", json_strings (sr_source_args r));
     ("sourceEnvNames", json_strings (sr_source_env_names r));
     ("sourceHeaderNames", json_strings (sr_source_header_names r));
     ("sourceUrl", json_string (sr_source_url r));
     ("toolPolicies", json_array (sr_tool_policies r));
     ("installer", json_object [("target", json_string (sr_installer_target r));
     ("method", json_string (sr_installer_method r));
     ("package", json_string (sr_installer_package r));
     ("verifyCommand", json_string (sr_installer_verify_command r))])].

