(* ===== verification/ToolSearch.v ===== *)
(** * Searching upstream tools (src/adapter/discovery.rs)

    [upstream_search] scores the tools of upstream servers against the words of a query and
    keeps the best.  The server records, the tool listings and catalogues are parameters:
    what the upstream servers answer. *)

From Stdlib Require Import Ascii.
From S2P Require Import Prelude RustStr BTree Json ProxyUri ServerModel SortBy ToolView ToolExposure.

Definition DEFAULT_SEARCH_DESCRIPTION_CHARS : N := 220.
Definition DEFAULT_UPSTREAM_SEARCH_SERVER_LIMIT : N := 6.
Definition DEFAULT_UPSTREAM_SEARCH_MIN_SERVER_SCORE : N := 40.

(** ** Scores *)

Definition search_terms (query : string) : list string :=
  List.filter (fun term => (2 <=? str_len term)%N) (map trim (split_spaces (normalize_text query))).

Definition points (condition : bool) (n : N) : N := if condition then n else 0%N.

Definition score_tool (tool : JsonValue) (terms : list string) : N :=
  match terms with
  | [] => 1%N
  | _ =>
      let server := normalize_text (text_of tool "server") in
      let name := normalize_text (text_of tool "name") in
      let qualified := normalize_text (text_of tool "qualifiedName") in
      let title := normalize_text (text_of tool "title") in
      let description := normalize_text (text_of tool "description") in
      let all := join " " [server; name; qualified; title; description] in
      sum_by (fun term =>
        (points (String.eqb name term || String.eqb qualified term) 80 + points (str_contains term name) 40
         + points (str_contains term qualified) 30 + points (str_contains term title) 20
         + points (str_contains term description) 10 + points (str_contains term server) 5
         + points (str_contains term all) 1)%N) terms
  end.

Definition any_term_matches (terms needles : list string) : bool :=
  existsb (fun term => existsb (fun needle =>
    String.eqb term needle || ((4 <=? str_len needle)%N && str_contains needle term)) needles) terms.

Definition capability_affinity_score (name haystack : string) (terms : list string) : N :=
  let wants_browser := any_term_matches terms
    ["browser"; "page"; "tab"; "click"; "navigate"; "screenshot"; "dom"; "javascript"; "localhost";
     "playwright"; "chrome"; "url"] in
  if wants_browser
     && (contains_any ["browser"; "playwright"] name || contains_any ["browser"; "playwright"; "chrome"; "cdp"] haystack)
  then 90
  else
    let wants_git := any_term_matches terms ["git"; "repo"; "branch"; "commit"; "pull"; "push"; "issue"; "pr"] in
    if wants_git && (contains_any ["git"; "github"] name || contains_any ["git"; "github"] haystack) then 60
    else
      let wants_docs := any_term_matches terms ["docs"; "documentation"; "reference"; "library"; "package"] in
      if wants_docs && (contains_any ["docs"; "context"] name || contains_any ["docs"; "documentation"] haystack)
      then 50
      else 0.

Definition score_search_server_fields (name metadata : string) (terms : list string) : N :=
  match terms with
  | [] => 0%N
  | _ =>
      let name := normalize_text name in
      let metadata := normalize_text metadata in
      let haystack := name +:+ " " +:+ metadata in
      (sum_by (fun term =>
         (points (String.eqb name term) 120 + points (str_contains term name) 60
          + points (str_contains term metadata) 12 + points (str_contains term haystack) 2)%N) terms
       + capability_affinity_score name haystack terms)%N
  end.

(** ** The best so far *)

Definition ScoredSearchTool : Type := N * string * JsonValue.

Definition item_score (item : ScoredSearchTool) : N := item.1.1.
Definition item_key (item : ScoredSearchTool) : string := item.1.2.

(** A higher score, or the same with a smaller key. *)
Definition scored_before (item other : ScoredSearchTool) : bool :=
  (item_score other <? item_score item)%N
  || ((item_score item =? item_score other)%N
      && match str_cmp (item_key item) (item_key other) with Lt => true | _ => false end).

Fixpoint position {A} (p : A -> bool) (l : list A) : nat :=
  match l with
  | [] => 0
  | x :: l => if p x then 0 else S (position p l)
  end.

Definition insert_scored_tool_bounded (scored : list ScoredSearchTool) (item : ScoredSearchTool) (keep_limit : N)
    : list ScoredSearchTool :=
  if (keep_limit =? 0)%N then scored
  else
    let position := position (scored_before item) scored in
    if (keep_limit <=? N.of_nat position)%N then scored
    else
      let scored := firstn position scored ++ item :: skipn position scored in
      if (keep_limit <? len_N scored)%N then removelast scored else scored.

Definition selected_search_result (scored : list ScoredSearchTool) (has_terms : bool) : JsonValue :=
  match scored with
  | top :: rest =>
      if negb has_terms then JNull
      else
        let top_score := item_score top in
        if (top_score =? 0)%N then JNull
        else
          let second_score := match rest with second :: _ => item_score second | [] => 0%N end in
          let confident := (30 <=? top_score)%N && ((second_score =? 0)%N || (second_score + 20 <=? top_score)%N) in
          json_object
            [("confident", json_bool confident); ("topScore", json_number top_score);
             ("nextScore", json_number second_score); ("result", snd top)]
  | [] => JNull
  end.

(** ** Views *)

Definition search_tool_view (server : string) (tool : JsonValue) (include_schema : bool) : option JsonValue :=
  name ← trimmed_name tool;
  Some (json_object
    ([("server", json_string server);
      ("name", json_string name);
      ("qualifiedName", json_string (server +:+ "." +:+ name));
      ("title", value_or_null tool "title");
      ("description", json_string (text_of tool "description"));
      ("call", call_object server name)]
     ++ (if include_schema
         then match value_at_path tool ["inputSchema"] with Some schema => [("inputSchema", schema)] | None => [] end
         else []))).

Section search.
Context `{SerdeJson} (environment : string -> option string).

Definition compact_search_tool (tool : JsonValue) (score : N) (include_schema : bool) : JsonValue :=
  json_object
    ([("server", json_string (text_of tool "server"));
      ("name", json_string (text_of tool "name"));
      ("qualifiedName", json_string (text_of tool "qualifiedName"));
      ("title", value_or_null tool "title");
      ("description", json_string (truncate_chars (text_of tool "description") DEFAULT_SEARCH_DESCRIPTION_CHARS));
      ("call", value_or_null tool "call");
      ("score", json_number score);
      ("tags", json_strings (tool_capability_tags tool));
      ("parallelSafety", tool_parallel_safety tool)]
     ++ (if include_schema
         then match value_at_path tool ["inputSchema"] with
              | Some schema => [("inputSchema", compact_schema environment schema 0)]
              | None => []
              end
         else [])).

Record SearchState := mkSearch {
  search_space_tool_count : N;
  total_matches : N;
  scored : list ScoredSearchTool;
  searched_servers : list string;
  search_errors : list JsonValue
}.

Definition search_start : SearchState := mkSearch 0 0 [] [] [].

(** One tool of a listing. *)
Definition scan_tool (server : string) (terms : list string) (include_schema : bool) (keep_limit : N)
    (st : SearchState) (raw_tool : JsonValue) : SearchState :=
  let st := mkSearch (bump (search_space_tool_count st)) (total_matches st) (scored st) (searched_servers st)
              (search_errors st) in
  match search_tool_view server raw_tool include_schema with
  | None => st
  | Some tool =>
      let score := score_tool tool terms in
      if match terms with [] => true | _ => false end || (0 <? score)%N then
        let key := text_of tool "server" +:+ ":" +:+ text_of tool "name" in
        mkSearch (search_space_tool_count st) (bump (total_matches st))
          (insert_scored_tool_bounded (scored st) (score, key, compact_search_tool tool score include_schema) keep_limit)
          (searched_servers st) (search_errors st)
      else st
  end.

Definition scan_search_listing (server : string) (listing : JsonValue) (terms : list string)
    (include_schema : bool) (keep_limit : N) (st : SearchState) : SearchState :=
  fold_left (scan_tool server terms include_schema keep_limit) (items_at listing "tools") st.

Definition scan_catalog_listing (terms : list string) (include_schema : bool) (keep_limit : N)
    (st : SearchState) (listing : JsonValue) : SearchState :=
  let server := string_or "unknown" (string_at_path listing ["name"]) in
  let st := mkSearch (search_space_tool_count st) (total_matches st) (scored st) (searched_servers st ++ [server])
              (search_errors st) in
  if negb (is_true_at listing "ok") then
    match string_at_path listing ["error"] with
    | Some error =>
        mkSearch (search_space_tool_count st) (total_matches st) (scored st) (searched_servers st)
          (search_errors st ++ [json_object [("server", json_string server); ("method", json_string "tools/list");
                                             ("error", json_string error)]])
    | None => st
    end
  else scan_search_listing server listing terms include_schema keep_limit st.

Definition scan_search_catalog (catalog : JsonValue) (terms : list string) (include_schema : bool)
    (keep_limit : N) (st : SearchState) : SearchState :=
  fold_left (scan_catalog_listing terms include_schema keep_limit) (items_at catalog "servers") st.

(** ** Candidate servers *)

Definition upstream_search_server_limit : N :=
  clamp 1 128 (unwrap_or (env_usize environment "MCPACE_UPSTREAM_SEARCH_SERVER_LIMIT")
                 DEFAULT_UPSTREAM_SEARCH_SERVER_LIMIT).

Definition upstream_search_min_server_score : N :=
  clamp 0 1000 (unwrap_or (env_usize environment "MCPACE_UPSTREAM_SEARCH_MIN_SERVER_SCORE")
                  DEFAULT_UPSTREAM_SEARCH_MIN_SERVER_SCORE).

Definition score_server_record_for_search (record : ServerRecord) (terms : list string) : N :=
  let metadata := join " "
    [sr_kind record; sr_source_type record; sr_source_command record; sr_source_url record;
     sr_transport_preference record; join " " (sr_supported_transports record);
     join " " (sr_required_commands record); sr_launcher_kind record; sr_routing_group record;
     sr_scope_class record; sr_state_binding record;
     join " " (map to_compact_string (sr_tool_policies record));
     sr_installer_target record; sr_installer_package record] in
  score_search_server_fields (sr_name record) metadata terms.

(** The enabled servers that score enough, the first of each name. *)
Fixpoint ranked_loop (terms : list string) (min_score : N) (records : list ServerRecord) (seen : gset string)
    : list (N * string) :=
  match records with
  | [] => []
  | record :: records =>
      if negb (sr_effective_enabled record) || negb (sr_source_enabled record)
      then ranked_loop terms min_score records seen
      else
        let score := score_server_record_for_search record terms in
        let name := trim (sr_name record) in
        let key := to_ascii_lowercase name in
        if (score <? min_score)%N || str_is_empty name || bool_decide (key ∈ seen)
        then ranked_loop terms min_score records seen
        else (score, name) :: ranked_loop terms min_score records ({[key]} ∪ seen)
  end.

Definition ranked_before (l r : N * string) : bool :=
  (fst r <? fst l)%N
  || ((fst l =? fst r)%N
      && match str_cmp (to_ascii_lowercase (snd l)) (to_ascii_lowercase (snd r)) with Lt => true | _ => false end).

Definition ranked_upstream_search_servers (records : result (list ServerRecord) string) (terms : list string)
    (limit min_score : N) : result (N * list string) string :=
  records ←? records ;;
  let scored := sort_by ranked_before (ranked_loop terms min_score records ∅) in
  Ok (len_N scored, map snd (firstn (N.to_nat limit) scored)).

(** [dedup_by(eq_ignore_ascii_case)] keeps the first of each run. *)
Fixpoint dedup_names (last : option string) (names : list string) : list string :=
  match names with
  | [] => []
  | name :: names =>
      if match last with Some l => eq_ignore_ascii_case name l | None => false end then dedup_names last names
      else name :: dedup_names (Some name) names
  end.

Definition callable_names (names : result (list string) string) (errors : list JsonValue)
    : list string * list JsonValue :=
  match names with
  | Ok names => (names, errors)
  | Err error => ([], errors ++ [json_object [("server", json_string "*"); ("error", json_string error)]])
  end.

Definition name_before (l r : string) : bool :=
  match str_cmp (to_ascii_lowercase l) (to_ascii_lowercase r) with Lt => true | _ => false end.

Definition fallback_upstream_search_servers (names : result (list string) string) (limit : N)
    (errors : list JsonValue) : list string * list JsonValue :=
  let '(names, errors) := callable_names names errors in
  (firstn (N.to_nat limit) (dedup_names None (sort_by name_before names)), errors).

(** ** The search *)

Record SearchSources := mkSources {
  list_tools_of : string -> result JsonValue string;
  catalog_of_servers : list string -> result JsonValue string;
  catalog_of_all : result JsonValue string;
  server_records : result (list ServerRecord) string;
  callable_server_names : result (list string) string
}.

Record SearchPlan := mkPlan {
  plan_state : SearchState;
  plan_catalog_ok : bool;
  plan_strategy : string;
  plan_candidates : N;
  plan_limits : JsonValue * JsonValue
}.

Definition scan_from (catalog : result JsonValue string) (terms : list string) (include_schema : bool)
    (keep_limit : N) (errors : list JsonValue) (strategy : string) (candidates : N)
    (limits : JsonValue * JsonValue) : result SearchPlan string :=
  catalog ←? catalog ;;
  Ok (mkPlan (scan_search_catalog catalog terms include_schema keep_limit (mkSearch 0 0 [] [] errors))
        (is_true_at catalog "ok") strategy candidates limits).

Definition plan_search (sources : SearchSources) (selected_server : option string) (terms : list string)
    (include_schema : bool) (keep_limit : N) : result SearchPlan string :=
  match selected_server with
  | Some server =>
      listing ←? list_tools_of sources server ;;
      Ok (mkPlan (scan_search_listing server listing terms include_schema keep_limit (mkSearch 0 0 [] [server] []))
            true "selected-server" 0 (JNull, JNull))
  | None =>
      if negb (match terms with [] => true | _ => false end)
         && negb (unwrap_or (env_bool environment "MCPACE_UPSTREAM_SEARCH_EXHAUSTIVE") false)
      then
        let limit := upstream_search_server_limit in
        let min_score := upstream_search_min_server_score in
        let limits := (json_number limit, json_number min_score) in
        match ranked_upstream_search_servers (server_records sources) terms limit min_score with
        | Ok (ranked_count, candidate :: candidates) =>
            scan_from (catalog_of_servers sources (candidate :: candidates)) terms include_schema keep_limit []
              "query-ranked-candidate-catalog" ranked_count limits
        | Ok (ranked_count, []) =>
            match fallback_upstream_search_servers (callable_server_names sources) limit [] with
            | ([], errors) =>
                Ok (mkPlan (mkSearch 0 0 [] [] errors) true "query-ranked-no-candidates" ranked_count limits)
            | (fallback_servers, errors) =>
                scan_from (catalog_of_servers sources fallback_servers) terms include_schema keep_limit errors
                  "query-ranked-fallback-catalog" ranked_count limits
            end
        | Err error =>
            scan_from (catalog_of_all sources) terms include_schema keep_limit
              [json_object [("server", json_string "*"); ("method", json_string "server-candidate-ranking");
                            ("error", json_string error)]]
              "live-catalog-all" 0 limits
        end
      else scan_from (catalog_of_all sources) terms include_schema keep_limit [] "live-catalog-all" 0 (JNull, JNull)
  end.

Definition upstream_search (sources : SearchSources) (server_name query : option string) (limit : N)
    (include_schema : bool) : result JsonValue string :=
  let limit := clamp 1 100 limit in
  let keep_limit := N.max limit 2 in
  let terms := search_terms (string_or EmptyString query) in
  let selected_server := opt_filter (fun v => negb (str_is_empty v)) (option_map trim server_name) in
  plan ←? plan_search sources selected_server terms include_schema keep_limit ;;
  let st := plan_state plan in
  let selected := selected_search_result (scored st) (match terms with [] => false | _ => true end) in
  let results := map snd (firstn (N.to_nat limit) (scored st)) in
  Ok (json_object
    [("ok", json_bool (plan_catalog_ok plan || match results with [] => false | _ => true end));
     ("mode", json_string "upstream-search");
     ("summary", json_string "Searched configured upstream MCP tool catalogs with bounded top-k selection and returned compact ready-to-call results. Query searches first rank candidate servers from local metadata; if metadata has no candidate, MCPace falls back to a bounded callable-server catalog scan before requiring MCPACE_UPSTREAM_SEARCH_EXHAUSTIVE=true for full fan-out. Use each call object with upstream_call, or use a projected u_<server>_<tool>_<hash> name when it appears in tools/list.");
     ("query", match query with Some value => json_string (trim value) | None => JNull end);
     ("server", json_string_or_null selected_server);
     ("limit", json_number limit);
     ("searchStrategy", json_string (plan_strategy plan));
     ("candidateServerLimit", fst (plan_limits plan));
     ("minCandidateServerScore", snd (plan_limits plan));
     ("candidateServerCount", json_number (plan_candidates plan));
     ("searchedServerCount", json_number (len_N (searched_servers st)));
     ("searchedServers", json_strings (searched_servers st));
     ("searchSpaceToolCount", json_number (search_space_tool_count st));
     ("matchCount", json_number (total_matches st));
     ("resultCount", json_number (len_N results));
     ("includeSchema", json_bool include_schema);
     ("selected", selected);
     ("results", json_array results);
     maybe_meta_errors (search_errors st)]).

End search.

(** ** The results are the best matches *)

Lemma str_cmp_not_lt_trans x y z :
  str_cmp y x <> Lt -> str_cmp z y <> Lt -> str_cmp z x <> Lt.
Proof.
  intros Hyx Hzy Hzx. destruct (str_cmp z y) eqn:E; [|done|].
  - apply str_cmp_eq in E as ->. done.
  - apply Hyx. apply (str_cmp_trans y z x); [|done]. rewrite str_cmp_antisym, E. done.
Qed.

Lemma scored_before_spec x y :
  scored_before x y = true <->
  (item_score y < item_score x)%N \/ (item_score x = item_score y /\ str_cmp (item_key x) (item_key y) = Lt).
Proof.
  unfold scored_before. rewrite orb_true_iff, andb_true_iff, N.ltb_lt, N.eqb_eq.
  destruct (str_cmp (item_key x) (item_key y)); naive_solver.
Qed.

Lemma scored_before_false x y :
  scored_before x y = false <->
  (item_score x < item_score y)%N \/ (item_score x = item_score y /\ str_cmp (item_key x) (item_key y) <> Lt).
Proof.
  rewrite <- not_true_iff_false, scored_before_spec.
  destruct (N.lt_trichotomy (item_score x) (item_score y)) as [?|[?|?]]; split.
  - by left.
  - intros _ [?|[? _]]; lia.
  - intros Hn. right. split; [done|]. intros Hc. apply Hn. by right.
  - intros [?|[_ Hc]] [?|[_ ?]]; try lia. done.
  - intros Hn. exfalso. apply Hn. by left.
  - intros [?|[? _]]; lia.
Qed.

Lemma scored_before_trans x y z :
  scored_before y x = false -> scored_before z y = false -> scored_before z x = false.
Proof.
  rewrite !scored_before_false. intros [?|[E ?]] [?|[E' ?]]; [left; lia..|].
  right. split; [lia|]. by eapply str_cmp_not_lt_trans.
Qed.

Lemma scored_before_asym x y : scored_before x y = true -> scored_before y x = false.
Proof.
  rewrite scored_before_spec, scored_before_false. intros [?|[E Hc]]; [by left|right].
  split; [done|]. by rewrite str_cmp_antisym, Hc.
Qed.

Lemma position_insert {A} (before : A -> A -> bool) x l :
  firstn (position (before x) l) l ++ x :: skipn (position (before x) l) l = insert_by before x l.
Proof.
  induction l as [|y l IH]; [done|]. cbn [position insert_by]. destruct (before x y); [done|].
  cbn [firstn skipn app]. by rewrite IH.
Qed.

Lemma insert_by_end {A} (before : A -> A -> bool) x l :
  position (before x) l = length l -> insert_by before x l = l ++ [x].
Proof.
  induction l as [|y l IH]; [done|]. cbn [position insert_by length app].
  destruct (before x y); [done|]. intros [= E]. by rewrite IH.
Qed.

Lemma position_le {A} (p : A -> bool) l : position p l <= length l.
Proof. induction l as [|x l IH]; cbn; [lia|]. destruct (p x); lia. Qed.

Lemma insert_bounded_spec scored item keep_limit :
  (0 < keep_limit)%N -> (len_N scored <= keep_limit)%N ->
  insert_scored_tool_bounded scored item keep_limit
  = firstn (N.to_nat keep_limit) (insert_by scored_before item scored).
Proof.
  intros Hk Hl. unfold insert_scored_tool_bounded. rewrite (proj2 (N.eqb_neq _ _)) by lia.
  pose proof (position_le (scored_before item) scored) as Hp. rewrite position_insert.
  assert (Hlen : length (insert_by scored_before item scored) = S (length scored)) by (by rewrite insert_by_perm).
  unfold len_N in *. destruct (N.leb_spec keep_limit (N.of_nat (position (scored_before item) scored))).
  - rewrite insert_by_end by lia. rewrite take_app_le by lia. symmetry. apply take_ge. lia.
  - destruct (N.ltb_spec keep_limit (N.of_nat (length (insert_by scored_before item scored)))).
    + rewrite removelast_firstn_len, Hlen. f_equal. lia.
    + symmetry. apply take_ge. lia.
Qed.

Section matches.
Context `{SerdeJson} (environment : string -> option string).
Context (terms : list string) (include_schema : bool).

(** What a tool of a listing contributes: nothing, or itself with its score. *)
Definition tool_match (server : string) (raw_tool : JsonValue) : option ScoredSearchTool :=
  tool ← search_tool_view server raw_tool include_schema;
  let score := score_tool tool terms in
  if match terms with [] => true | _ => false end || (0 <? score)%N
  then Some (score, text_of tool "server" +:+ ":" +:+ text_of tool "name",
             compact_search_tool environment tool score include_schema)
  else None.

Definition listing_matches (listing : JsonValue) : list ScoredSearchTool :=
  if is_true_at listing "ok"
  then omap (tool_match (string_or "unknown" (string_at_path listing ["name"]))) (items_at listing "tools")
  else [].

Definition catalog_matches (catalog : JsonValue) : list ScoredSearchTool :=
  flat_map listing_matches (items_at catalog "servers").

Context (keep_limit : N) (Hkeep : (0 < keep_limit)%N).

Definition keep (acc : list ScoredSearchTool) (x : ScoredSearchTool) : list ScoredSearchTool :=
  firstn (N.to_nat keep_limit) (insert_by scored_before x acc).

Lemma keep_length l acc : (len_N acc <= keep_limit)%N -> (len_N (fold_left keep l acc) <= keep_limit)%N.
Proof.
  revert acc. induction l as [|x l IH]; intros acc Ha; [done|]. cbn [fold_left]. apply IH.
  unfold keep, len_N. rewrite length_firstn. lia.
Qed.

Lemma scan_tool_step server tool st :
  (len_N (scored st) <= keep_limit)%N ->
  let st' := scan_tool environment server terms include_schema keep_limit st tool in
  scored st' = match tool_match server tool with Some x => keep (scored st) x | None => scored st end /\
  total_matches st' = match tool_match server tool with Some _ => bump (total_matches st) | None => total_matches st end.
Proof using Hkeep.
  intros Hl. cbn zeta. unfold scan_tool, tool_match.
  destruct (search_tool_view server tool include_schema) as [view|]; cbn [mbind option_bind]; [|done].
  destruct (_ || _); [|done]. cbn [scored total_matches]. rewrite insert_bounded_spec by done. done.
Qed.

Lemma scan_tools_spec server tools st :
  (len_N (scored st) <= keep_limit)%N ->
  let st' := fold_left (scan_tool environment server terms include_schema keep_limit) tools st in
  scored st' = fold_left keep (omap (tool_match server) tools) (scored st) /\
  total_matches st' = fold_left (fun n _ => bump n) (omap (tool_match server) tools) (total_matches st).
Proof using Hkeep.
  cbn zeta. revert st. induction tools as [|tool tools IH]; intros st Hl; [done|]. cbn [fold_left omap list_omap].
  destruct (scan_tool_step server tool st Hl) as [Hs Ht].
  assert (Hl' : (len_N (scored (scan_tool environment server terms include_schema keep_limit st tool)) <= keep_limit)%N).
  { rewrite Hs. destruct (tool_match server tool); [|done]. unfold keep, len_N. rewrite length_firstn. lia. }
  destruct (IH _ Hl') as [-> ->]. rewrite Hs, Ht. by destruct (tool_match server tool).
Qed.

Lemma scan_catalog_spec listings st :
  (len_N (scored st) <= keep_limit)%N ->
  let st' := fold_left (scan_catalog_listing environment terms include_schema keep_limit) listings st in
  scored st' = fold_left keep (flat_map listing_matches listings) (scored st) /\
  total_matches st' = fold_left (fun n _ => bump n) (flat_map listing_matches listings) (total_matches st).
Proof using Hkeep.
  cbn zeta. revert st. induction listings as [|listing listings IH]; intros st Hl; [done|].
  cbn [fold_left flat_map]. rewrite !fold_left_app.
  assert (Hone : let st1 := scan_catalog_listing environment terms include_schema keep_limit st listing in
    scored st1 = fold_left keep (listing_matches listing) (scored st) /\
    total_matches st1 = fold_left (fun n _ => bump n) (listing_matches listing) (total_matches st)).
  { cbn zeta. unfold scan_catalog_listing, listing_matches. destruct (is_true_at listing "ok"); cbn [negb].
    - apply (scan_tools_spec _ _ (mkSearch _ _ (scored st) _ _)). done.
    - by destruct (string_at_path listing ["error"]). }
  destruct Hone as [Hs Ht]. rewrite <- Hs, <- Ht. apply IH. rewrite Hs. by apply keep_length.
Qed.

Lemma bump_count {A} (l : list A) n :
  (n + len_N l <= USIZE_MAX)%N -> fold_left (fun n _ => bump n) l n = (n + len_N l)%N.
Proof.
  revert n. induction l as [|x l IH]; intros n Hn; [unfold len_N; cbn; lia|].
  rewrite len_N_cons in Hn |- *. cbn [fold_left]. unfold bump at 2. rewrite sat_add_exact by lia.
  rewrite IH by lia. lia.
Qed.

(** C25: scanning a catalogue keeps exactly the first tools, in order, of all
    matching tools sorted by score and name, whatever the bound on what is kept; nothing left
    out ranks before a result, and the number of matches is exact. *)
Theorem search_results_are_best catalog errors limit :
  (limit <= keep_limit)%N -> (len_N (catalog_matches catalog) <= USIZE_MAX)%N ->
  let st := scan_search_catalog environment catalog terms include_schema keep_limit (mkSearch 0 0 [] [] errors) in
  let best := sort_by scored_before (catalog_matches catalog) in
  firstn (N.to_nat limit) (scored st) = firstn (N.to_nat limit) best /\
  total_matches st = len_N (catalog_matches catalog) /\
  forall result other, result ∈ firstn (N.to_nat limit) (scored st) -> other ∈ skipn (N.to_nat limit) best ->
    scored_before other result = false.
Proof using Hkeep.
  intros Hlim Hlen. cbn zeta. unfold scan_search_catalog.
  destruct (scan_catalog_spec (items_at catalog "servers") (mkSearch 0 0 [] [] errors)) as [Hs Ht].
  { apply N.le_0_l. }
  rewrite Hs, Ht. cbn [scored total_matches]. fold (catalog_matches catalog).
  unfold keep. rewrite bounded_selection, firstn_firstn, Nat.min_l by lia.
  split; [done|]. split; [by rewrite bump_count|].
  intros result other. apply sort_by_cut; [exact scored_before_trans|exact scored_before_asym].
Qed.

End matches.

Definition sample_search_catalog : JsonValue :=
  json_object [("servers", json_array [json_object [("name", json_string "fs"); ("ok", json_bool true);
    ("tools", json_array (map (fun name => json_object [("name", json_string name)]) ["read"; "write"; "read_all"]))]])].

Lemma search_results_are_best_witness :
  let st := scan_search_catalog (fun _ => None) sample_search_catalog ["read"] false 2 (mkSearch 0 0 [] [] []) in
  map item_key (firstn (N.to_nat 1) (scored st)) = ["fs:read"] /\ total_matches st = 2%N.
Proof.
  cbv zeta.
  destruct (search_results_are_best (fun _ => None) ["read"] false 2 ltac:(done) sample_search_catalog [] 1
    ltac:(done) ltac:(by vm_compute)) as (H1 & H2 & _).
  split; [rewrite H1|rewrite H2]; vm_compute; reflexivity.
Defined.
