(* ===== verification/RoutePlan.v ===== *)
(** * Route plans for many calls (src/adapter/discovery.rs)

    [adapter_route] groups the calls a client wants to make into lanes, one per server, and
    the lanes into groups that exclude one another.  The server records and the live
    catalogue are parameters. *)

From Stdlib Require Import Ascii.
From S2P Require Import Prelude RustStr BTree Json ServerModel ToolView ToolExposure.

Record PlannedUpstreamCall := mkPlanned {
  planned_server : string;
  planned_tool : string;
  planned_arguments : JsonValue;
  planned_source : string
}.

(** ** Reading the calls *)

Definition call_label (index : N) : string := "adapter_route.calls[" +:+ N_to_string index +:+ "]".

Definition non_empty_trimmed (value : option string) : option string :=
  opt_filter (fun v => negb (str_is_empty v)) (option_map trim value).

Definition non_empty_array_string (items : list JsonValue) (array_index : nat) (call_index : N) (label : string)
    : result string string :=
  ok_or (non_empty_trimmed (items !! array_index ≫= as_str))
    (call_label call_index +:+ "[" +:+ N_to_string (N.of_nat array_index) +:+ "] must be a non-empty " +:+ label +:+ " string").

Definition parse_wrapped_upstream_call (value : JsonValue) (index : N) (path : list string) (source : string)
    : result PlannedUpstreamCall string :=
  args ←? ok_or (value_at_path value path) (call_label index +:+ " upstream_call object is missing arguments") ;;
  server ←? ok_or (non_empty_trimmed (string_at_path args ["server"]))
              (call_label index +:+ " upstream_call is missing server") ;;
  tool ←? ok_or (non_empty_trimmed (string_at_path args ["tool"]))
            (call_label index +:+ " upstream_call is missing tool") ;;
  Ok (mkPlanned server tool (unwrap_or (value_at_path args ["arguments"]) empty_object) source).

Definition parse_planned_call (value : JsonValue) (index : N) : result PlannedUpstreamCall string :=
  match as_array value with
  | Some items =>
      if (len_N items <? 2)%N || (3 <? len_N items)%N then
        Err (call_label index +:+ " tuple form must be [server, tool] or [server, tool, arguments]")
      else
        server ←? non_empty_array_string items 0 index "server" ;;
        tool ←? non_empty_array_string items 1 index "tool" ;;
        Ok (mkPlanned server tool (unwrap_or (items !! 2) empty_object) "tuple")
  | None =>
      match as_str value with
      | Some text =>
          match opt_or (split_once ":" text) (split_once "." text) with
          | Some (server, tool) => Ok (mkPlanned (trim server) (trim tool) empty_object "qualified-string")
          | None => Err (call_label index +:+ " string must look like server:tool or server.tool")
          end
      | None =>
          let wrapper_tool := string_at_path value ["tool"] in
          if bool_decide (wrapper_tool = Some "upstream_call") then
            parse_wrapped_upstream_call value index ["arguments"] "upstream-call-object"
          else if bool_decide (wrapper_tool = Some "upstream_batch") then
            Err (call_label index +:+ " is an upstream_batch; pass each inner call separately or omit calls to inspect topology")
          else if bool_decide (string_at_path value ["call"; "tool"] = Some "upstream_call") then
            parse_wrapped_upstream_call value index ["call"; "arguments"] "upstream-search-result"
          else
            match non_empty_trimmed (string_at_path value ["server"]),
                  non_empty_trimmed (opt_or (string_at_path value ["name"])
                    (opt_or (string_at_path value ["toolName"]) (string_at_path value ["tool"]))) with
            | Some server, Some tool =>
                Ok (mkPlanned server tool (unwrap_or (value_at_path value ["arguments"]) empty_object)
                      "server-tool-object")
            | _, _ =>
                Err (call_label index +:+ " must include server/tool, an upstream_search result, an upstream_call object, or [server, tool]")
            end
      end
  end.

Fixpoint parse_calls_loop (index : N) (items : list JsonValue) : result (list PlannedUpstreamCall) string :=
  match items with
  | [] => Ok []
  | item :: items =>
      call ←? parse_planned_call item index ;;
      calls ←? parse_calls_loop (index + 1) items ;;
      Ok (call :: calls)
  end.

Definition parse_planned_calls (value : JsonValue) : result (list PlannedUpstreamCall) string :=
  items ←? ok_or (as_array value) "adapter_route.calls must be an array" ;;
  parse_calls_loop 0 items.

(** ** Server records *)

Definition non_empty_or (value fallback : string) : string :=
  let trimmed := trim value in
  if str_is_empty trimmed then fallback else trimmed.

Definition server_is_stateful (record : ServerRecord) : bool :=
  negb (String.eqb (sr_runtime_type record) "stateless")
  || negb (bool_decide (sr_state_binding record ∈ [EmptyString; "none"; "stateless"]))
  || bool_decide (sr_concurrency_policy record ∈ ["single-session"; "single-writer"]).

Definition server_requires_serialization (record : ServerRecord) : bool :=
  let policy := to_ascii_lowercase (sr_concurrency_policy record) in
  (sr_parallelism_limit record <=? 1)%N || str_contains "single" policy || str_contains "exclusive" policy
  || str_contains "writer" policy.

Definition server_topology_item (record : ServerRecord) : JsonValue :=
  json_object
    [("name", json_string (sr_name record));
     ("effectiveEnabled", json_bool (sr_effective_enabled record));
     ("sourceEnabled", json_bool (sr_source_enabled record));
     ("sourceType", json_string (sr_source_type record));
     ("transportPreference", json_string (sr_transport_preference record));
     ("routingGroup", json_string (non_empty_or (sr_routing_group record) (sr_name record)));
     ("conflictDomain", json_string (non_empty_or (sr_conflict_domain record) (sr_name record)));
     ("concurrencyPolicy", json_string (sr_concurrency_policy record));
     ("parallelismLimit", json_number (sr_parallelism_limit record));
     ("stateBinding", json_string (sr_state_binding record));
     ("scopeClass", json_string (sr_scope_class record));
     ("runtimeType", json_string (sr_runtime_type record));
     ("stateClass", json_string (sr_state_class record));
     ("effectClass", json_string (sr_effect_class record));
     ("hostLock", json_string (sr_host_lock record));
     ("batchRecommended", json_bool (server_is_stateful record));
     ("serializeByDefault", json_bool (server_requires_serialization record))].

(** ** Lanes *)

Definition planned_call_tuple (call : PlannedUpstreamCall) : JsonValue :=
  json_array [json_string (planned_tool call); planned_arguments call].

Definition lane_server_name (record : option ServerRecord) (fallback_server : string)
    (calls : list PlannedUpstreamCall) : string :=
  match record, calls with
  | Some record, _ => sr_name record
  | None, call :: _ => planned_server call
  | None, [] => fallback_server
  end.

Definition execution_lane (record : option ServerRecord) (fallback_server : string)
    (calls : list PlannedUpstreamCall) : JsonValue :=
  let server := lane_server_name record fallback_server calls in
  let of_record {A} (f : ServerRecord -> A) (d : A) := match record with Some r => f r | None => d end in
  let conflict_domain := of_record (fun r => non_empty_or (sr_conflict_domain r) (sr_name r)) server in
  let many := (1 <? len_N calls)%N in
  let batch_recommended := many || of_record server_is_stateful true in
  let recommended_tool := if many then "upstream_batch" else "upstream_call" in
  let call_object :=
    if many then
      json_object
        [("tool", json_string "upstream_batch");
         ("arguments", json_object [("server", json_string server);
                                    ("calls", json_array (map planned_call_tuple calls))])]
    else
      match calls with
      | call :: _ =>
          json_object
            [("tool", json_string "upstream_call");
             ("arguments", json_object [("server", json_string server); ("tool", json_string (planned_tool call));
                                        ("arguments", planned_arguments call)])]
      | [] => JNull
      end in
  json_object
    [("server", json_string server);
     ("callCount", json_number (len_N calls));
     ("tools", json_array (map (fun call =>
        json_object [("name", json_string (planned_tool call)); ("source", json_string (planned_source call))]) calls));
     ("recommendedTool", json_string recommended_tool);
     ("batchRecommended", json_bool batch_recommended);
     ("call", call_object);
     ("conflictDomain", json_string conflict_domain);
     ("routingGroup", json_string (of_record (fun r => non_empty_or (sr_routing_group r) (sr_name r)) server));
     ("concurrencyPolicy", json_string (of_record sr_concurrency_policy "unknown"));
     ("parallelismLimit", json_number (of_record sr_parallelism_limit 1%N));
     ("stateBinding", json_string (of_record sr_state_binding "unknown"));
     ("serializeWithinLane", json_bool (of_record server_requires_serialization true))].

(** ** The plan *)

(** [entry(key).or_default().push(x)]. *)
Definition push_under {A} (key : string) (x : A) (m : list (string * list A)) : list (string * list A) :=
  bt_insert key (unwrap_or (bt_get key m) [] ++ [x]) m.

Definition server_key (call : PlannedUpstreamCall) : string := to_ascii_lowercase (trim (planned_server call)).

Definition records_by_name (records : list ServerRecord) : list (string * ServerRecord) :=
  fold_left (fun m r => bt_insert (to_ascii_lowercase (sr_name r)) r m) records [].

(** One call: its warnings and where it goes. *)
Definition place_call (by_name : list (string * ServerRecord))
    (st : list (string * list PlannedUpstreamCall) * list string) (call : PlannedUpstreamCall)
    : list (string * list PlannedUpstreamCall) * list string :=
  let '(by_server, warnings) := st in
  let key := server_key call in
  if str_is_empty key then
    (by_server, warnings ++ ["call '" +:+ planned_tool call +:+ "' has no server; use upstream_search first or provide server/tool explicitly"])
  else
    let warnings :=
      if bt_contains key by_name then warnings
      else warnings ++ ["server '" +:+ planned_server call +:+ "' is not declared in mcpace.config.json; MCPace can still try the merged MCP settings registry, but topology policy is unknown"] in
    (push_under key call by_server, warnings).

Definition group_calls (by_name : list (string * ServerRecord)) (calls : list PlannedUpstreamCall)
    : list (string * list PlannedUpstreamCall) * list string :=
  fold_left (place_call by_name) calls ([], []).

Definition lane_conflict_domain (record : option ServerRecord) (key : string) : string :=
  match record with
  | Some r => non_empty_or (sr_conflict_domain r) (sr_name r)
  | None => key
  end.

Definition plan_lanes (by_name : list (string * ServerRecord)) (by_server : list (string * list PlannedUpstreamCall))
    : list JsonValue := map (fun '(key, calls) => execution_lane (bt_get key by_name) key calls) by_server.

Definition lane_server_of (by_name : list (string * ServerRecord)) (key : string) (calls : list PlannedUpstreamCall)
    : string :=
  string_or key (string_at_path (execution_lane (bt_get key by_name) key calls) ["server"]).

Definition conflict_groups (by_name : list (string * ServerRecord))
    (by_server : list (string * list PlannedUpstreamCall)) : list (string * list string) :=
  fold_left (fun groups '(key, calls) =>
      push_under (lane_conflict_domain (bt_get key by_name) key) (lane_server_of by_name key calls) groups)
    by_server [].

Definition conflict_groups_json (groups : list (string * list string)) : JsonValue :=
  json_array (map (fun '(domain, servers) =>
    json_object
      [("conflictDomain", json_string domain);
       ("servers", json_strings servers);
       ("guidance", json_string "Run at most one lane in this conflict domain at a time unless an explicit server policy raises parallelismLimit.")])
    groups).

Definition adapter_route_plan (records : result (list ServerRecord) string) (calls : option JsonValue)
    (live_catalog : option (result JsonValue string)) : result JsonValue string :=
  records ←? records ;;
  planned_calls ←? match calls with Some value => parse_planned_calls value | None => Ok [] end ;;
  let by_name := records_by_name records in
  let '(by_server, warnings) := group_calls by_name planned_calls in
  let lanes := plan_lanes by_name by_server in
  let groups := conflict_groups by_name by_server in
  live_catalog ←? match live_catalog with
                  | Some (Ok catalog) => Ok (Some catalog)
                  | Some (Err e) => Err e
                  | None => Ok None
                  end ;;
  Ok (json_object
    [("ok", json_bool true);
     ("mode", json_string "adapter-route-plan");
     ("summary", json_string "Dynamic routing plan built from configured server policy plus optional live MCP discovery. Same-server calls are batched; calls sharing a conflict domain are serialized; independent conflict domains can be scheduled concurrently by a client that supports parallel tool calls.");
     ("executionModel", json_object
        [("batchSameServerCalls", json_bool true);
         ("serializeWithinConflictDomain", json_bool true);
         ("parallelizeDifferentConflictDomains", json_bool true);
         ("parallelismSource", json_string "mcpace.config.json server policy, live tools/list annotations, and runtime lease arbitration; no hardcoded client/server maps");
         ("statefulTool", json_string "upstream_batch for ordered calls that must share one upstream initialize/session");
         ("statelessTool", json_string "upstream_call for one call or for clients that cannot expose projected tools")]);
     ("callCount", json_number (sum_by (fun '(_, calls) => len_N calls) by_server));
     ("laneCount", json_number (len_N lanes));
     ("lanes", json_array lanes);
     ("conflictGroups", conflict_groups_json groups);
     ("serverTopology", json_array (map server_topology_item records));
     ("warnings", json_strings warnings);
     ("liveCatalog", unwrap_or live_catalog JNull)]).

(** ** What the plan guarantees *)

Section grouping.
Context {A B : Type} (key : A -> string) (val : A -> B).

Definition under (k : string) (m : list (string * list B)) : list B := unwrap_or (bt_get k m) [].

Lemma under_push k k' x (m : list (string * list B)) :
  under k (push_under k' x m) = under k m ++ (if String.eqb k' k then [x] else []).
Proof.
  unfold under, push_under. destruct (String.eqb_spec k' k) as [-> |Hne].
  - by rewrite bt_get_insert_eq.
  - by rewrite bt_get_insert_ne, app_nil_r by done.
Qed.

Lemma under_fold l m k :
  under k (fold_left (fun m x => push_under (key x) (val x) m) l m)
  = under k m ++ map val (List.filter (fun x => String.eqb (key x) k) l).
Proof.
  revert m. induction l as [|x l IH]; intros m; [by rewrite app_nil_r|]. cbn [fold_left List.filter].
  rewrite IH, under_push. destruct (String.eqb (key x) k); [|by rewrite app_nil_r].
  by rewrite <- app_assoc.
Qed.

(** Groups are filed in order and none is empty. *)
Definition groups_wf (m : list (string * list B)) : Prop :=
  bt_wf m /\ Forall (fun p => snd p <> []) m.

Lemma push_under_wf k x m : groups_wf m -> groups_wf (push_under k x m).
Proof.
  intros [Hw Hf]. split; [by apply bt_insert_wf|]. apply Forall_forall. intros p [-> |Hp]%bt_insert_elem.
  - cbn. by destruct (unwrap_or (bt_get k m) []).
  - rewrite Forall_forall in Hf. auto.
Qed.

End grouping.

(** Grouping keeps the calls that name a server, each under its server. *)
Lemma place_calls_spec by_name calls st :
  fst (fold_left (place_call by_name) calls st)
  = fold_left (fun m c => push_under (server_key c) c m)
      (List.filter (fun c => negb (str_is_empty (server_key c))) calls) (fst st).
Proof.
  revert st. induction calls as [|c calls IH]; intros [m w]; [done|]. cbn [fold_left List.filter]. rewrite IH.
  unfold place_call. destruct (str_is_empty (server_key c)); [done|].
  by destruct (bt_contains _ _).
Qed.

Lemma group_calls_spec by_name calls :
  fst (group_calls by_name calls)
  = fold_left (fun m c => push_under (server_key c) c m)
      (List.filter (fun c => negb (str_is_empty (server_key c))) calls) [].
Proof. apply place_calls_spec. Qed.

Lemma fold_push_wf (l : list PlannedUpstreamCall) m :
  groups_wf m -> groups_wf (fold_left (fun m c => push_under (server_key c) c m) l m).
Proof. intros Hm. apply fold_left_invariant; [|done]. intros a x. apply push_under_wf. Qed.

Lemma filter_and {A} (p q : A -> bool) l : List.filter p (List.filter q l) = List.filter (fun x => p x && q x) l.
Proof.
  induction l as [|x l IH]; [done|]. cbn. destruct (q x), (p x) eqn:E; cbn; rewrite ?E, ?IH; done.
Qed.

Lemma fold_push_total (l : list PlannedUpstreamCall) m :
  bt_wf m ->
  sum_by (fun '(_, calls) => len_N calls) (fold_left (fun m c => push_under (server_key c) c m) l m)
  = (sum_by (fun '(_, calls) => len_N calls) m + len_N l)%N.
Proof.
  revert m. induction l as [|c l IH]; intros m Hm; [unfold len_N; cbn; lia|]. cbn [fold_left].
  rewrite IH by (by apply bt_insert_wf). rewrite len_N_cons.
  enough (E : sum_by (fun '(_, calls) => len_N calls) (push_under (server_key c) c m)
            = (sum_by (fun '(_, calls) => len_N calls) m + 1)%N) by lia.
  clear IH l. unfold push_under. generalize (server_key c). intros k. revert Hm.
  induction m as [|[k' v] m IHm]; intros Hm; [done|]. cbn [bt_insert bt_get]. destruct (key_cmp k k') eqn:E.
  - cbn [unwrap_or sum_by]. rewrite len_N_app. change (len_N [c]) with 1%N. lia.
  - cbn [sum_by]. rewrite (bt_get_None_lt k m).
    + cbn [unwrap_or sum_by app]. change (len_N [c]) with 1%N. lia.
    + unfold bt_wf in Hm. apply StronglySorted_inv in Hm as [_ Hm]. eapply Forall_impl; [exact Hm|].
      intros q Hq. unfold key_lt in *. by eapply key_cmp_trans.
  - cbn [sum_by]. unfold bt_wf in Hm. apply StronglySorted_inv in Hm as [Hm _]. rewrite IHm by done. lia.
Qed.

(** A route plan loses no call that names a server and invents none: every
    server's lane holds exactly the calls to it, in their order, no lane is empty, and the
    servers of the lanes of one conflict domain are exactly those of its group. *)
Theorem route_plan_partitions_calls by_name calls :
  let by_server := fst (group_calls by_name calls) in
  groups_wf by_server /\
  (forall k, under k by_server = List.filter (fun c => String.eqb (server_key c) k && negb (str_is_empty k)) calls) /\
  sum_by (fun '(_, calls) => len_N calls) by_server
  = len_N (List.filter (fun c => negb (str_is_empty (server_key c))) calls) /\
  forall domain, under domain (conflict_groups by_name by_server)
    = map (fun '(key, calls) => lane_server_of by_name key calls)
        (List.filter (fun '(key, _) => String.eqb (lane_conflict_domain (bt_get key by_name) key) domain) by_server).
Proof.
  cbn zeta. rewrite group_calls_spec. set (named := List.filter _ calls). split_and!.
  - apply fold_push_wf. split; [apply bt_nil_wf|constructor].
  - intros k. rewrite (under_fold server_key (fun c => c)). cbn [under unwrap_or bt_get app]. rewrite map_id.
    unfold named. rewrite filter_and. apply filter_ext. intros c.
    by destruct (String.eqb_spec (server_key c) k) as [<- |].
  - rewrite fold_push_total by apply bt_nil_wf. done.
  - intros domain. unfold conflict_groups. set (l := fold_left _ named []).
    transitivity (under domain (fold_left (fun groups p =>
      push_under (lane_conflict_domain (bt_get (fst p) by_name) (fst p)) (lane_server_of by_name (fst p) (snd p)) groups) l [])).
    { f_equal. clearbody l. generalize (@nil (string * list string)).
      induction l as [|[k cs] l IH]; intros m; [done|]. cbn [fold_left fst snd]. apply IH. }
    rewrite (under_fold (fun p => lane_conflict_domain (bt_get (fst p) by_name) (fst p))
               (fun p => lane_server_of by_name (fst p) (snd p))).
    cbn [under unwrap_or bt_get app]. clearbody l. induction l as [|[k cs] l IH]; [done|]. cbn [List.filter fst snd].
    destruct (String.eqb _ _); cbn [map fst snd]; by rewrite IH.
Qed.

(** The lane of a server that is not declared names the conflict domain as the call spells the
    server, the group as its lower-case key: a reader of the plan finds no group for the
    lane's domain. *)
Theorem undeclared_lane_has_no_group :
  exists call lane, plan_lanes [] (fst (group_calls [] [call])) = [lane] /\
    string_at_path lane ["conflictDomain"] = Some "GitHub" /\
    under "GitHub" (conflict_groups [] (fst (group_calls [] [call]))) = [] /\
    under "github" (conflict_groups [] (fst (group_calls [] [call]))) = ["GitHub"].
Proof.
  exists (mkPlanned "GitHub" "list_issues" empty_object "tuple"). eexists. split; [reflexivity|].
  split_and!; vm_compute; reflexivity.
Qed.
