(* ===== verification/PolicyAudit.v ===== *)
(** * Audit of tool policies (src/upstream/policy_audit.rs)

    What MCPace thinks of a tool from its annotations, its name, its texts and its schemas,
    and whether a declared policy covers it.  A [BTreeSet<String>] is a map to [unit]. *)

From Stdlib Require Import Ascii.
From S2P Require Import Prelude RustStr BTree Json ServerConfig ToolPolicy.

Record AdvisoryClassification := mkAdvisory {
  risk_classes : list (string * unit);
  signals : list string
}.

Record ToolPolicyAudit := mkAudit {
  audit_value : JsonValue;
  has_annotations : bool;
  has_advisory_risk : bool;
  guard_recommended : bool;
  policy_covered : bool;
  unknown_semantics : bool;
  review_recommended : bool
}.

Definition add_advisory_signal (risk_class signal : string) (a : AdvisoryClassification) : AdvisoryClassification :=
  mkAdvisory (bt_insert risk_class tt (risk_classes a)) (signals a ++ [signal]).

(** [split(|c| !c.is_ascii_alphanumeric())]: a character outside ASCII separates at each of
    its bytes, which only adds empty pieces. *)
Definition tool_name_tokens (lower_name : string) : list (string * unit) :=
  fold_left (fun set token => bt_insert token tt set)
    (List.filter (fun token => negb (str_is_empty token))
       (split_char " " (map_bytes (fun c => if is_ascii_alphanumeric c then c else " "%char) lower_name))) [].

Definition has_token (tokens : list (string * unit)) (token : string) : bool := bt_contains token tokens.

(** One [for token in [..] { if tokens.contains(token) { .. } }] loop. *)
Definition add_token_signals (tokens : list (string * unit)) (class prefix : string) (words : list string)
    (a : AdvisoryClassification) : AdvisoryClassification :=
  fold_left (fun a token =>
    if has_token tokens token then add_advisory_signal class (prefix +:+ token) a else a) words a.

Definition metadata_patterns : list string :=
  ["ignore previous"; "ignore all previous"; "ignore the user"; "system prompt"; "developer message";
   "hidden instruction"; "do not tell the user"; "don't tell the user"; "secretly"; "exfiltrate"; "send secrets";
   "steal"; "api key"; "apikey"; "credential"; "credentials"; "private key"; "ssh key"; "access token";
   "refresh token"; "password"].

Definition newline : string := String "010" EmptyString.

Definition add_metadata_based_advisory_signals (tool : JsonValue) (a : AdvisoryClassification)
    : AdvisoryClassification :=
  let line key := match string_at_path tool [key] with Some value => value +:+ newline | None => EmptyString end in
  let lower := to_ascii_lowercase (line "title" +:+ line "description") in
  if str_is_empty (trim lower) then a
  else fold_left (fun a pattern =>
         if str_contains pattern lower
         then add_advisory_signal "metadata-injection" ("metadata-pattern:" +:+ pattern) a
         else a) metadata_patterns a.

Fixpoint collect_schema_words (value : JsonValue) : list string :=
  match value with
  | JString value => [value]
  | JArray items => flat_map collect_schema_words items
  | JObject object => flat_map (fun '(key, value) => key :: collect_schema_words value) object
  | _ => []
  end.

Definition collect_optional_words (value : option JsonValue) : list string :=
  match value with Some value => collect_schema_words value | None => [] end.

Definition credential_words : list string :=
  ["token"; "apikey"; "api_key"; "authorization"; "secret"; "password"; "credential"].

Definition add_schema_based_advisory_signals (tool : JsonValue) (a : AdvisoryClassification)
    : AdvisoryClassification :=
  let schema_words :=
    collect_optional_words (value_at_path tool ["inputSchema"])
    ++ collect_optional_words (value_at_path tool ["outputSchema"]) in
  match schema_words with
  | [] => a
  | _ =>
      let joined := to_ascii_lowercase (join " " schema_words) in
      let tokens := tool_name_tokens joined in
      let add class words := add_token_signals tokens class "schema-token:" words in
      let a := add "mutation" ["write"; "delete"; "remove"; "update"; "create"; "insert"; "upsert"; "patch";
                 "deploy"; "publish"; "send"] a in
      let a := add "filesystem-access" ["path"; "file"; "filename"; "directory"; "dir"; "cwd"; "workspace"; "root"] a in
      let a := add "database-access" ["sql"; "query"; "statement"; "table"; "database"; "schema"] a in
      let a := add "open-world" ["url"; "uri"; "endpoint"; "host"; "domain"; "webhook"; "request"] a in
      let a := add "credential-input" credential_words a in
      add "system-control" ["command"; "shell"; "script"; "args"; "argv"; "executable"; "process"] a
  end.

Definition add_name_based_advisory_signals (tool_name : string) (a : AdvisoryClassification)
    : AdvisoryClassification :=
  let lower := to_ascii_lowercase (trim tool_name) in
  let tokens := tool_name_tokens lower in
  let page := str_contains "page" lower || str_contains "web" lower in
  let add class words := add_token_signals tokens class "name-token:" words in
  let a := add "mutation"
    ["write"; "create"; "delete"; "remove"; "update"; "edit"; "move"; "rename"; "patch"; "insert"; "upsert";
     "append"; "add"; "commit"; "checkout"; "reset"; "publish"; "deploy"; "install"] a in
  let a :=
    if existsb (has_token tokens) ["read"; "list"; "describe"] then a
    else add "system-control"
           ["powershell"; "shell"; "command"; "exec"; "execute"; "process"; "registry"; "clipboard"] a in
  let a := if str_contains "run_code" lower || str_contains "run-code" lower
           then add_advisory_signal "system-control" "name-pattern:run_code" a else a in
  let a := add (if page then "interaction-control" else "desktop-control")
    ["click"; "type"; "press"; "shortcut"; "scroll"; "drag"; "hover"; "select"; "navigate"; "resize"; "tab"; "tabs";
     "upload"; "dialog"; "evaluate"; "fill"; "close"] a in
  let a := add "interaction-control"
    ["javascript"; "cdp"; "permission"; "permissions"; "downloads"; "files"; "action"; "clear"; "slider"] a in
  let a := add (if page then "interaction-observation" else "desktop-observation")
    ["screenshot"; "snapshot"; "scrape"; "screen"] a in
  add "open-world" ["fetch"; "search"; "http"; "url"; "web"; "request"] a.

Definition annotation_is (tool : JsonValue) (hint : string) (value : bool) : bool :=
  bool_decide (bool_at_path tool ["annotations"; hint] = Some value).

Definition classify_tool_advisory (tool : JsonValue) : AdvisoryClassification :=
  let a := mkAdvisory [] [] in
  let a := if annotation_is tool "destructiveHint" true
           then add_advisory_signal "mutation" "mcp.destructiveHint=true" a else a in
  let a := if annotation_is tool "readOnlyHint" false
           then add_advisory_signal "not-readonly" "mcp.readOnlyHint=false" a else a in
  let a := if annotation_is tool "openWorldHint" true
           then add_advisory_signal "open-world" "mcp.openWorldHint=true" a else a in
  let a := match string_at_path tool ["name"] with
           | Some name => add_name_based_advisory_signals name a
           | None => a
           end in
  let a := add_metadata_based_advisory_signals tool a in
  add_schema_based_advisory_signals tool a.

Definition risk_class_recommends_policy (risk_class : string) : bool :=
  bool_decide (risk_class ∈ ["mutation"; "not-readonly"; "interaction-control"; "interaction-observation";
    "desktop-control"; "desktop-observation"; "system-control"; "metadata-injection"; "filesystem-access";
    "database-access"; "credential-input"]).

Definition audit_recommendation (policy_status : string) (guard_recommended policy_covered unknown_semantics : bool)
    : string :=
  if guard_recommended && negb policy_covered then
    "Add an explicit mcpace.config.json toolPolicies entry before using this tool routinely; keep runtime enforcement declarative instead of hardcoding this tool in Rust."
  else if String.eqb policy_status "unprotected-advisory-risk" then
    "Review the upstream tool semantics and add a toolPolicies guard if it can mutate local, remote, interactive, or host state."
  else if unknown_semantics then
    "No MCP annotations or MCPace policy describe this tool; inspect the upstream server documentation before relying on parallel or unattended calls."
  else if policy_covered then
    "Covered by declarative MCPace policy; callers must use the configured allow argument or risk-class opt-in for guarded calls."
  else "No guard is currently recommended from annotations or generic name heuristics.".

Definition tool_annotation_keys (tool : JsonValue) : list string :=
  match object_at_path tool ["annotations"] with Some object => bt_keys object | None => [] end.

Definition tool_policy_summary (policy : ToolRiskPolicy) : JsonValue :=
  json_object
    [("tools", json_array (map json_string (tools policy)));
     ("riskClass", json_string_or_null (risk_class policy));
     ("allowArgument", json_string_or_null (allow_argument policy));
     ("description", json_string_or_null (description policy))].

Definition tool_policy_summaries (policies : list ToolRiskPolicy) : list JsonValue :=
  map tool_policy_summary policies.

Definition audit_status (tool : JsonValue) (guard_recommended policy_covered has_advisory_risk unknown_semantics : bool)
    : string :=
  if guard_recommended && negb policy_covered then "unprotected-guard-recommended"
  else if has_advisory_risk && negb policy_covered then "unprotected-advisory-risk"
  else if has_advisory_risk && policy_covered then "covered-advisory-risk"
  else if unknown_semantics then "review-unknown-semantics"
  else if annotation_is tool "readOnlyHint" true then "read-only-annotated"
  else if policy_covered then "policy-covered"
  else "no-risk-detected".

Definition audit_tool (server : UpstreamServerConfig) (tool : JsonValue) : ToolPolicyAudit :=
  let name := unwrap_or (string_at_path tool ["name"]) "<unnamed>" in
  let title := string_at_path tool ["title"] in
  let description := unwrap_or (opt_or (string_at_path tool ["description"]) title) EmptyString in
  let annotation_keys := tool_annotation_keys tool in
  let has_annotations := match annotation_keys with [] => false | _ => true end in
  let annotations := unwrap_or (value_at_path tool ["annotations"]) empty_object in
  let classification := classify_tool_advisory tool in
  let matching_policies :=
    map tool_policy_summary (List.filter (fun policy => matches_tool policy name) (tool_policies server)) in
  let policy_covered := match matching_policies with [] => false | _ => true end in
  let has_advisory_risk := match risk_classes classification with [] => false | _ => true end in
  let guard_recommended := existsb risk_class_recommends_policy (bt_keys (risk_classes classification)) in
  let unknown_semantics := negb has_annotations && negb has_advisory_risk && negb policy_covered in
  let review_recommended :=
    ((has_advisory_risk || guard_recommended) && negb policy_covered) || unknown_semantics in
  let policy_status := audit_status tool guard_recommended policy_covered has_advisory_risk unknown_semantics in
  let recommendation := audit_recommendation policy_status guard_recommended policy_covered unknown_semantics in
  {| audit_value := json_object
       [("name", json_string name);
        ("title", json_string_or_null title);
        ("description", json_string description);
        ("policyStatus", json_string policy_status);
        ("policyCovered", json_bool policy_covered);
        ("guardRecommended", json_bool guard_recommended);
        ("reviewRecommended", json_bool review_recommended);
        ("hasAnnotations", json_bool has_annotations);
        ("annotationKeys", json_array (map json_string annotation_keys));
        ("annotations", annotations);
        ("advisoryRiskClasses", json_array (map json_string (bt_keys (risk_classes classification))));
        ("advisorySignals", json_array (map json_string (signals classification)));
        ("matchingPolicies", json_array matching_policies);
        ("recommendation", json_string recommendation)];
     has_annotations := has_annotations;
     has_advisory_risk := has_advisory_risk;
     guard_recommended := guard_recommended;
     policy_covered := policy_covered;
     unknown_semantics := unknown_semantics;
     review_recommended := review_recommended |}.

(** ** What the audit says about calls *)

Lemma existsb_risk_some (m : list (string * unit)) p : existsb p (bt_keys m) = true -> m <> [].
Proof. by destruct m. Qed.

(** The audit calls a tool covered exactly when a call of it without a grant is
    blocked; and a tool it does not recommend for review is covered, or carries annotations
    and shows no risk. *)
Theorem audit_matches_enforcement server tool name :
  string_at_path tool ["name"] = Some name ->
  let audit := audit_tool server tool in
  (policy_covered audit = false <-> validate_upstream_tool_policy server name None = Ok tt) /\
  (review_recommended audit = false ->
   policy_covered audit = true \/ (has_advisory_risk audit = false /\ has_annotations audit = true)) /\
  (guard_recommended audit = true -> has_advisory_risk audit = true).
Proof.
  intros Hn. cbn zeta. unfold audit_tool. rewrite Hn. cbn [unwrap_or policy_covered review_recommended
    has_advisory_risk has_annotations guard_recommended]. split_and!.
  - unfold validate_upstream_tool_policy. rewrite check_policies_Ok.
    destruct (List.filter (fun policy => matches_tool policy name) (tool_policies server)) as [|p l] eqn:E; cbn [map].
    + split; [|done]. intros _ p Hp Hm. exfalso.
      assert (Hi : In p []) by (rewrite <- E; apply filter_In; split; [by apply list_elem_of_In|done]). done.
    + split; [done|]. intros H. exfalso.
      assert (Hi : In p (p :: l)) by (by left). rewrite <- E in Hi. apply filter_In in Hi as [Hi Hm].
      apply list_elem_of_In in Hi. by specialize (H p Hi Hm).
  - intros [H1 H2]%orb_false_iff. destruct (map tool_policy_summary _); [|by left]. right. cbn [negb] in *.
    rewrite andb_true_r in H1, H2. apply orb_false_iff in H1 as [H1 _]. rewrite H1 in H2 |- *. cbn [negb] in H2.
    rewrite andb_true_r in H2. apply negb_false_iff in H2. done.
  - intros H%existsb_risk_some. by destruct (risk_classes _).
Qed.

Lemma audit_matches_enforcement_witness :
  let tool := json_object [("name", json_string "delete_repo")] in
  policy_covered (audit_tool sample_guarded tool) = true /\
  validate_upstream_tool_policy sample_guarded "delete_repo" None <> Ok tt.
Proof.
  cbv zeta. split; [vm_compute; reflexivity|]. intros H.
  apply (proj1 (audit_matches_enforcement sample_guarded (json_object [("name", json_string "delete_repo")])
    "delete_repo" eq_refl)) in H. by vm_compute in H.
Defined.

(** ** A token that never occurs *)

Lemma split_char_chars c d s x :
  x ∈ split_char c s -> contains_char d x = true -> contains_char d s = true.
Proof.
  revert x. induction s as [|a s IH]; intros x; cbn [split_char].
  - intros [-> |Hx]%elem_of_cons; [done|by apply not_elem_of_nil in Hx].
  - rewrite contains_char_cons. destruct (Ascii.eqb a c).
    + intros [-> |Hx]%elem_of_cons Hd; [done|]. rewrite (IH x Hx Hd). apply orb_true_r.
    + destruct (split_char c s) as [|y ys] eqn:E; [by destruct s; cbn in E; repeat case_match|].
      intros [-> |Hx]%elem_of_cons.
      * rewrite contains_char_cons. intros [-> |Hd]%orb_true_iff; [done|]. rewrite (IH y); [apply orb_true_r|by left|done].
      * intros Hd. rewrite (IH x); [apply orb_true_r|by right|done].
Qed.

Lemma fold_insert_keys (l : list string) m k :
  bt_contains k (fold_left (fun set token => bt_insert token tt set) l m) = true -> k ∈ l \/ bt_contains k m = true.
Proof.
  revert m. induction l as [|x l IH]; intros m; [by right|]. cbn [fold_left]. intros [H|H]%IH.
  - left. by right.
  - unfold bt_contains in *. destruct (decide (x = k)) as [-> |Hne]; [left; by left|].
    right. by rewrite bt_get_insert_ne in H.
Qed.

(** Names and schemas are split at underscores before the words are looked up, so the word
    [api_key] of the credential list is found in no text. *)
Theorem api_key_is_never_found text : has_token (tool_name_tokens text) "api_key" = false.
Proof.
  apply not_true_is_false. unfold has_token, tool_name_tokens. intros [H|H]%fold_insert_keys; [|done].
  apply list_elem_of_In, filter_In in H as [H _]. apply list_elem_of_In in H.
  pose proof (split_char_chars " " "_" _ _ H eq_refl) as Hc.
  unfold contains_char, map_bytes in Hc. rewrite bytes_of_bytes in Hc.
  apply existsb_exists in Hc as (c & Hin & Hc). apply Ascii.eqb_eq in Hc as <-.
  apply in_map_iff in Hin as (d & Hd & _). destruct (is_ascii_alphanumeric d) eqn:Ed; [|done]. by subst d.
Qed.
