(* ===== verification/CatalogProjection.v ===== *)
(** * Projection of a catalogue by server and tool names (src/upstream/projection.rs)

    The library's other way to offer upstream tools: names that carry server and tool in
    hexadecimal and can be decoded without a catalogue.  Which servers are callable, their
    tool lists and the elapsed time are parameters.  A [&str] may only be sliced between
    characters, anything else panics: a decoder's outcome is a value or a panic. *)

From Stdlib Require Import Ascii.
From S2P Require Import Prelude RustStr BTree Json ProxyUri ServerConfig ToolPolicy PolicyAudit ToolExposure.

Inductive UpstreamProjectionSafety := ProjectSafe | ProjectReview | ProjectAll.

Definition parse_upstream_safety (value : string) : UpstreamProjectionSafety :=
  let value := settings_token value in
  if bool_decide (value ∈ ["all"; "unsafe"; "maximum"; "max"]) then ProjectAll
  else if bool_decide (value ∈ ["review"; "unknown"; "balanced"]) then ProjectReview
  else ProjectSafe.

(** ** Names *)

Definition encode_projected_component (value : string) : string := hex_encode (bytes value).

Definition is_name_char (c : ascii) : bool :=
  is_ascii_alphanumeric c || Ascii.eqb c "_" || Ascii.eqb c "-".

Definition projected_tool_name_is_recommended_shape (name : string) : bool :=
  negb (str_is_empty name) && (str_len name <=? 64)%N && negb (str_contains "__" name)
  && all_bytes is_name_char name.

Definition encode_projected_tool_name (server tool : string) : option string :=
  let server := encode_projected_component (trim server) in
  let tool := encode_projected_component (trim tool) in
  if str_is_empty server || str_is_empty tool then None
  else
    let name := "u_" +:+ server +:+ "_" +:+ tool in
    if projected_tool_name_is_recommended_shape name then Some name else None.

(** [u8::from_str_radix(s, 16)] of a text of two bytes: a sign is accepted before a digit. *)
Definition radix16 (a b : ascii) : option N :=
  if Ascii.eqb a "+" then result_ok (hex_value b)
  else match hex_value a, hex_value b with
       | Ok h, Ok l => Some (N.lor (N.shiftl h 4) l)
       | _, _ => None
       end.

(** The loop over the pairs: a slice that does not end between two characters panics. *)
Fixpoint decode_pairs (l : list ascii) : outcome (option (list ascii)) :=
  match l with
  | a :: b :: rest =>
      if match rest with c :: _ => cont_byte c | [] => false end then Panics
      else
        match radix16 a b with
        | None => Returns None
        | Some byte =>
            match decode_pairs rest with
            | Panics => Panics
            | Returns None => Returns None
            | Returns (Some bs) => Returns (Some (ascii_of_N byte :: bs))
            end
        end
  | _ => Returns (Some [])
  end.

Definition decode_projected_component (value : string) : outcome (option string) :=
  if str_is_empty value || negb (str_len value mod 2 =? 0)%N then Returns None
  else
    match decode_pairs (bytes value) with
    | Panics => Panics
    | Returns None => Returns None
    | Returns (Some bs) => Returns (if utf8_valid bs then Some (of_bytes bs) else None)
    end.

Definition decode_projected_tool_name (name : string) : outcome (option (string * string)) :=
  match strip_prefix "u_" name ≫= split_once "_" with
  | None => Returns None
  | Some (server, tool) =>
      match decode_projected_component server with
      | Panics => Panics
      | Returns None => Returns None
      | Returns (Some server) =>
          match decode_projected_component tool with
          | Panics => Panics
          | Returns None => Returns None
          | Returns (Some tool) =>
              Returns (if str_is_empty (trim server) || str_is_empty (trim tool) then None else Some (server, tool))
          end
      end
  end.

(** ** The catalogue *)

Definition default_tool_input_schema : JsonValue := json_object [("type", json_string "object")].

Definition projected_description (server_name original_tool_name description : string) : string :=
  let prefix := "Upstream MCP tool `" +:+ original_tool_name +:+ "` on server `" +:+ server_name
                +:+ "` routed through MCPace. " in
  if str_is_empty description then prefix else prefix +:+ description.

Definition project_tool_definition (server_name original_tool_name projected_name : string) (tool audit : JsonValue)
    : JsonValue :=
  let object := unwrap_or (as_object tool) [] in
  let title := unwrap_or (opt_or (string_at_path tool ["title"]) (string_at_path tool ["name"])) original_tool_name in
  let description := trim (unwrap_or (string_at_path tool ["description"]) EmptyString) in
  let object := bt_insert "name" (json_string projected_name) object in
  let object := bt_insert "title" (json_string (server_name +:+ " · " +:+ title)) object in
  let object := bt_insert "description"
    (json_string (projected_description server_name original_tool_name description)) object in
  let object := if bt_contains "inputSchema" object then object
                else bt_insert "inputSchema" default_tool_input_schema object in
  let meta := unwrap_or (object_at_path tool ["_meta"]) [] in
  let meta := bt_insert "mcpace/upstreamServer" (json_string server_name) meta in
  let meta := bt_insert "mcpace/upstreamTool" (json_string original_tool_name) meta in
  let meta := bt_insert "mcpace/projected" (json_bool true) meta in
  let meta := bt_insert "mcpace/policyStatus" (json_string_or_null (string_at_path audit ["policyStatus"])) meta in
  JObject (bt_insert "_meta" (JObject meta) object).

Record CatalogCounts := mkCatalogCounts {
  projected : list JsonValue;
  server_count : N;
  ok_server_count : N;
  skipped_server_count : N;
  raw_tool_count : N;
  projected_tool_count : N;
  skipped_guarded_count : N;
  skipped_unknown_count : N;
  skipped_name_count : N;
  catalog_truncated : bool
}.

Definition catalog_start : CatalogCounts := mkCatalogCounts [] 0 0 0 0 0 0 0 0 false.

(** The flags the loop reads back from the audit's JSON. *)
Definition audit_flag (audit : ToolPolicyAudit) (key : string) : bool :=
  unwrap_or (bool_at_path (audit_value audit) [key]) false.

Definition should_skip (safety : UpstreamProjectionSafety) (audit : ToolPolicyAudit) : bool :=
  let policy_covered := audit_flag audit "policyCovered" in
  let guard_recommended := audit_flag audit "guardRecommended" in
  let unknown_semantics := audit_flag audit "unknownSemantics" in
  match safety with
  | ProjectAll => false
  | ProjectReview => policy_covered || guard_recommended
  | ProjectSafe => policy_covered || guard_recommended || unknown_semantics
  end.

Definition project_tool (safety : UpstreamProjectionSafety) (max_tools : option N) (server : UpstreamServerConfig)
    (c : CatalogCounts) (tool : JsonValue) : CatalogCounts :=
  let with_ p n_raw n_proj n_guard n_unknown n_name t :=
    mkCatalogCounts p (server_count c) (ok_server_count c) (skipped_server_count c) n_raw n_proj n_guard n_unknown
      n_name t in
  let raw := bump (raw_tool_count c) in
  let p := projected c in
  let n := projected_tool_count c in
  let g := skipped_guarded_count c in
  let u := skipped_unknown_count c in
  let s := skipped_name_count c in
  let t := catalog_truncated c in
  match trimmed_name tool with
  | None => with_ p raw n g u (bump s) t
  | Some original_tool_name =>
      let audit := audit_tool server tool in
      if should_skip safety audit then
        if audit_flag audit "unknownSemantics" then with_ p raw n g (bump u) s t else with_ p raw n (bump g) u s t
      else
        match encode_projected_tool_name (name server) original_tool_name with
        | None => with_ p raw n g u (bump s) t
        | Some projected_name =>
            if match max_tools with Some max_tools => (max_tools <=? n)%N | None => false end
            then with_ p raw n g u s true
            else with_ (p ++ [project_tool_definition (name server) original_tool_name projected_name tool (audit_value audit)])
                       raw (bump n) g u s t
        end
  end.

Definition project_server (safety : UpstreamProjectionSafety) (max_tools : option N)
    (callable : UpstreamServerConfig -> bool) (tools_of : UpstreamServerConfig -> result JsonValue string)
    (c : CatalogCounts) (server : UpstreamServerConfig) : CatalogCounts :=
  let set_servers ok skipped :=
    mkCatalogCounts (projected c) (bump (server_count c)) ok skipped (raw_tool_count c) (projected_tool_count c)
      (skipped_guarded_count c) (skipped_unknown_count c) (skipped_name_count c) (catalog_truncated c) in
  if negb (callable server) then set_servers (ok_server_count c) (bump (skipped_server_count c))
  else
    match tools_of server with
    | Err _ => set_servers (ok_server_count c) (bump (skipped_server_count c))
    | Ok tools =>
        fold_left (project_tool safety max_tools server) (unwrap_or (as_array tools) [])
          (set_servers (bump (ok_server_count c)) (skipped_server_count c))
    end.

Definition projected_tool_catalog (servers : result (list (string * UpstreamServerConfig)) string)
    (callable : UpstreamServerConfig -> bool) (tools_of : UpstreamServerConfig -> result JsonValue string)
    (safety : UpstreamProjectionSafety) (max_tools : option N) (elapsed_ms : N) : result JsonValue string :=
  servers ←? servers ;;
  let c := fold_left (project_server safety max_tools callable tools_of) (bt_values servers) catalog_start in
  Ok (json_object
    [("ok", json_bool true);
     ("mode", json_string "projected-upstream-tools");
     ("serverCount", json_number (server_count c));
     ("okServerCount", json_number (ok_server_count c));
     ("skippedServerCount", json_number (skipped_server_count c));
     ("rawToolCount", json_number (raw_tool_count c));
     ("projectedToolCount", json_number (projected_tool_count c));
     ("skippedGuardedToolCount", json_number (skipped_guarded_count c));
     ("skippedUnknownToolCount", json_number (skipped_unknown_count c));
     ("skippedNameToolCount", json_number (skipped_name_count c));
     ("truncated", json_bool (catalog_truncated c));
     ("safety", json_string (match safety with ProjectSafe => "safe" | ProjectReview => "review" | ProjectAll => "all" end));
     ("maxTools", optional_number max_tools);
     ("elapsedMs", json_number elapsed_ms);
     ("tools", json_array (projected c))]).

(** ** Names decode to what was encoded *)

Lemma digit_at_plain n : (n < 16)%N ->
  Ascii.eqb (digit_at n) "+" = false /\ cont_byte (digit_at n) = false /\ Ascii.eqb (digit_at n) "_" = false.
Proof.
  intros H. destruct n as [|p]; [done|]. do 4 (try destruct p as [p|p|]); try (by vm_compute); lia.
Qed.

Lemma radix16_digits h l : (h < 16)%N -> (l < 16)%N ->
  radix16 (digit_at h) (digit_at l) = Some (N.lor (N.shiftl h 4) l).
Proof.
  intros Hh Hl. unfold radix16. destruct (digit_at_plain h Hh) as (-> & _ & _). by rewrite !hex_value_digit.
Qed.

Lemma decode_pairs_encode bs : decode_pairs (hex_encode_bytes bs) = Returns (Some bs).
Proof.
  induction bs as [|b bs IH]; [done|]. destruct (nibbles_join b) as (Hh & Hl & E).
  cbn [hex_encode_bytes decode_pairs].
  assert (Hc : match hex_encode_bytes bs with c :: _ => cont_byte c | [] => false end = false).
  { destruct bs as [|b' bs']; [done|]. cbn [hex_encode_bytes]. destruct (nibbles_join b') as (Hh' & _ & _).
    by apply digit_at_plain. }
  rewrite Hc, radix16_digits, IH, E by done. done.
Qed.

Lemma decode_component_encode s :
  s <> EmptyString -> utf8_valid (bytes s) = true ->
  decode_projected_component (encode_projected_component s) = Returns (Some s).
Proof.
  intros Hs Hu. unfold decode_projected_component, encode_projected_component, hex_encode.
  assert (He : str_is_empty (of_bytes (hex_encode_bytes (bytes s))) = false) by (by destruct s).
  rewrite He, str_len_bytes, !bytes_of_bytes, hex_encode_even. cbn [orb negb N.eqb].
  rewrite decode_pairs_encode, Hu. by rewrite of_bytes_bytes.
Qed.

Lemma hex_no_underscore bs : contains_char "_" (hex_encode bs) = false.
Proof.
  unfold contains_char, hex_encode. rewrite bytes_of_bytes.
  induction bs as [|b bs IH]; [done|]. destruct (nibbles_join b) as (Hh & Hl & _).
  cbn [hex_encode_bytes existsb]. rewrite IH, (Ascii.eqb_sym "_"), (Ascii.eqb_sym "_").
  by destruct (digit_at_plain _ Hh) as (_ & _ & ->), (digit_at_plain _ Hl) as (_ & _ & ->).
Qed.

(** A projected name decodes, without a panic, to the server and the tool it was
    made from, without surrounding white space. *)
Theorem projected_name_roundtrip server tool name :
  utf8_valid (bytes (trim server)) = true -> utf8_valid (bytes (trim tool)) = true ->
  encode_projected_tool_name server tool = Some name ->
  decode_projected_tool_name name = Returns (Some (trim server, trim tool)) /\ (str_len name <= 64)%N.
Proof.
  intros Hs Ht. unfold encode_projected_tool_name.
  destruct (str_is_empty (encode_projected_component (trim server))) eqn:Es; [done|].
  destruct (str_is_empty (encode_projected_component (trim tool))) eqn:Et; [done|]. cbn [orb].
  destruct (projected_tool_name_is_recommended_shape _) eqn:Esh; [|done]. intros [= <-]. split.
  - unfold decode_projected_tool_name. rewrite strip_prefix_app. cbn [mbind option_bind].
    change ("_" +:+ encode_projected_component (trim tool)) with (String "_" (encode_projected_component (trim tool))).
    rewrite split_once_app by apply hex_no_underscore.
    assert (Hse : trim server <> EmptyString) by (intros E; by rewrite E in Es).
    assert (Hte : trim tool <> EmptyString) by (intros E; by rewrite E in Et).
    rewrite !decode_component_encode by done.
    by rewrite !trim_idem, (proj2 (str_is_empty_false _) Hse), (proj2 (str_is_empty_false _) Hte).
  - unfold projected_tool_name_is_recommended_shape in Esh. bool_prop. done.
Qed.

Lemma projected_name_roundtrip_witness :
  decode_projected_tool_name "u_676974_6c6f67" = Returns (Some ("git", "log")).
Proof.
  refine (proj1 (projected_name_roundtrip " git" "log" "u_676974_6c6f67" _ _ _)); vm_compute; reflexivity.
Defined.

(** Decoding is not total on texts: a two-byte character that straddles a pair is sliced in the
    middle. *)
Theorem decoding_can_panic :
  exists name, utf8_valid (bytes name) = true /\ decode_projected_tool_name name = Panics.
Proof. exists "u_aéb_00". split; vm_compute; reflexivity. Qed.

(** The safe level is meant for tools that look read-only or low-risk.  The loop reads the flag
    for unknown semantics from the audit's JSON, where it is not written, so a tool about
    which nothing is known is projected too. *)
Theorem safe_level_projects_unknown_tools :
  exists server tool c,
    unknown_semantics (audit_tool server tool) = true /\
    c = project_tool ProjectSafe None server catalog_start tool /\ projected_tool_count c = 1%N.
Proof.
  exists (mkServer "x" true None "stdio" None [] [] [] None None 1000 Execution.conservative []),
    (json_object [("name", json_string "frobnicate")]).
  eexists. split; [vm_compute; reflexivity|]. split; [reflexivity|]. vm_compute. reflexivity.
Qed.

Lemma unknown_flag_never_written server tool : audit_flag (audit_tool server tool) "unknownSemantics" = false.
Proof. reflexivity. Qed.
