(* ===== verification/HttpUpstream.v ===== *)
(** * HTTP upstream servers (src/upstream/http_runtime.rs, src/upstream.rs)

    The address of an HTTP upstream server, the headers configured for it and the text of
    the requests sent over plain HTTP, and when a configured server can be called at all.
    Resolving commands and directories is the file system's part and a parameter. *)

From Stdlib Require Import Ascii.
From S2P Require Import Prelude RustStr BTree Json TextUtils HttpBoundary ServerConfig.

Record ParsedHttpUrl := mkUrl {
  target_url : string;
  secure : bool;
  target_host : string;
  target_port : N;
  target_path : string;
  host_header : string
}.

(** ** Addresses *)

Definition control_or_space (s : string) : bool := any_control (bytes s) || any_whitespace (bytes s).

(** The text up to the first slash or question mark, and from it on. *)
Fixpoint split_at_path (l : list ascii) : list ascii * list ascii :=
  match l with
  | [] => ([], [])
  | c :: rest =>
      if Ascii.eqb c "/" || Ascii.eqb c "?" then ([], l)
      else let '(front, back) := split_at_path rest in (c :: front, back)
  end.

Definition split_http_authority_and_path (rest : string) : result (string * string) string :=
  let '(front, back) := split_at_path (bytes rest) in
  match front, back with
  | [], _ => Err "HTTP upstream URL has an empty authority"
  | _, [] => Ok (rest, "/")
  | _, _ =>
      let suffix := of_bytes back in
      let path := if starts_with "/" suffix then suffix else "/" +:+ suffix in
      if any_control (bytes path) then Err "HTTP upstream URL path cannot contain control characters"
      else Ok (of_bytes front, path)
  end.

Definition parse_required_http_port (port authority : string) : result N string :=
  let invalid := "invalid HTTP upstream port in '" +:+ authority +:+ "'" in
  if str_is_empty port then Err invalid
  else ok_or (opt_filter (fun value => negb (value =? 0)%N) (parse_unsigned 65535 port)) invalid.

Definition parse_optional_http_port (suffix authority : string) (default_port : N) : result N string :=
  if str_is_empty suffix then Ok default_port
  else
    match strip_prefix ":" suffix with
    | None => Err ("invalid HTTP upstream authority '" +:+ authority +:+ "'")
    | Some port => parse_required_http_port port authority
    end.

Definition parse_http_authority (authority : string) (default_port : N) : result (string * N * string) string :=
  let invalid := "invalid HTTP upstream authority '" +:+ authority +:+ "'" in
  if str_is_empty authority || contains_char "/" authority || contains_char "@" authority || control_or_space authority
  then Err invalid
  else
    match strip_prefix "[" authority with
    | Some after =>
        match split_once "]" after with
        | None => Err ("invalid IPv6 HTTP upstream authority '" +:+ authority +:+ "'")
        | Some (host, suffix) =>
            if str_is_empty (trim host) || control_or_space host
            then Err ("invalid IPv6 HTTP upstream host '" +:+ authority +:+ "'")
            else
              port ←? parse_optional_http_port suffix authority default_port ;;
              Ok (host, port,
                  if str_is_empty suffix then "[" +:+ host +:+ "]"
                  else "[" +:+ host +:+ "]:" +:+ N_to_string port)
        end
    | None =>
        if (1 <? count_char ":" authority)%N
        then Err ("IPv6 HTTP upstream authorities must be bracketed: '" +:+ authority +:+ "'")
        else
          parts ←? match rsplit_once ":" authority with
                   | Some (host, port) =>
                       if str_is_empty host then Err invalid
                       else port ←? parse_required_http_port port authority ;; Ok (host, port, true)
                   | None => Ok (authority, default_port, false)
                   end ;;
          let '(host, port, explicit_port) := parts in
          if str_is_empty (trim host) || control_or_space host
          then Err ("HTTP upstream URL has an invalid host: " +:+ authority)
          else Ok (host, port, if explicit_port then host +:+ ":" +:+ N_to_string port else host)
    end.

(** [trim_matches(['[', ']'])]. *)
Fixpoint drop_brackets (l : list ascii) : list ascii :=
  match l with
  | [] => []
  | c :: rest => if Ascii.eqb c "[" || Ascii.eqb c "]" then drop_brackets rest else l
  end.

Definition trim_brackets (s : string) : string := of_bytes (rev (drop_brackets (rev (drop_brackets (bytes s))))).

(** [to_ipv4_mapped().map(is_loopback)] on the groups. *)
Definition mapped_loopback (groups : list N) : bool :=
  match groups with
  | [0; 0; 0; 0; 0; 65535; high; _]%N => (N.shiftr high 8 =? 127)%N
  | _ => false
  end.

Definition plain_http_upstream_host_is_loopback (host : string) : bool :=
  let normalized := trim_brackets (trim host) in
  eq_ignore_ascii_case normalized "localhost"
  || match parse_ip_addr normalized with
     | Some (V6 groups) => is_loopback (V6 groups) || mapped_loopback groups
     | Some address => is_loopback address
     | None => false
     end.

(** What follows the scheme. *)
Definition parse_after_scheme (url : string) (secure : bool) (rest : string) (default_port : N)
    : result ParsedHttpUrl string :=
  split ←? split_http_authority_and_path rest ;;
  let '(authority, path) := split in
  parsed ←? parse_http_authority authority default_port ;;
  let '(host, port, host_header) := parsed in
  if negb secure && negb (plain_http_upstream_host_is_loopback host) then
    Err ("direct plain-HTTP MCP upstreams are limited to loopback hosts; '" +:+ host
         +:+ "' must use HTTPS or a local gateway")
  else Ok (mkUrl url secure host port path host_header).

Definition parse_http_url (url : string) : result ParsedHttpUrl string :=
  if str_is_empty url || control_or_space url then
    Err "HTTP upstream URL cannot be empty or contain whitespace/control characters"
  else if contains_char "#" url || contains_char backslash url then
    Err "HTTP upstream URL cannot contain fragments or backslashes"
  else
    let normalized_url := to_ascii_lowercase url in
    if starts_with "https://" normalized_url then parse_after_scheme url true (of_bytes (skipn 8 (bytes url))) 443
    else if starts_with "http://" normalized_url then parse_after_scheme url false (of_bytes (skipn 7 (bytes url))) 80
    else Err ("HTTP upstream URL must start with http:// or https://: " +:+ url).

(** ** Configured headers *)

Fixpoint validate_headers_loop (normalized_names : gset string) (headers : list (string * string)) : result unit string :=
  match headers with
  | [] => Ok tt
  | (name, value) :: headers =>
      let lower := to_ascii_lowercase name in
      if decide (lower ∈ normalized_names) then
        Err ("HTTP upstream configured duplicate header name '" +:+ name +:+ "' with different casing")
      else if negb (valid_http_header_name name) then
        Err ("HTTP upstream configured an invalid header name '" +:+ name +:+ "'")
      else if reserved_mcp_http_header_name name then
        Err ("HTTP upstream header '" +:+ name +:+ "' is managed by MCPace and cannot be overridden")
      else if negb (valid_http_field_value value) then
        Err ("HTTP upstream configured an invalid value for header '" +:+ name +:+ "'")
      else validate_headers_loop ({[lower]} ∪ normalized_names) headers
  end.

Definition validate_configured_headers (headers : list (string * string)) : result unit string :=
  validate_headers_loop ∅ headers.

Definition http_upstream_configuration_error (url : string) (headers : list (string * string)) : option string :=
  match parse_http_url url with
  | Err error => Some error
  | Ok _ => match validate_configured_headers headers with Err error => Some error | Ok _ => None end
  end.

Definition http_upstream_url_is_callable (url : string) : bool :=
  negb (is_some (http_upstream_configuration_error url [])).

(** ** The text of a request *)

Definition CRLF : string := String "013" (String "010" EmptyString).

Definition append_configured_headers (request : string) (headers : list (string * string)) : string :=
  fold_left (fun request '(name, value) => request +:+ name +:+ ": " +:+ value +:+ CRLF) headers request.

Definition plain_post (target : ParsedHttpUrl) (body : string) (session_id : option string)
    (protocol_version : string) (headers : list (string * string)) : result string string :=
  let request :=
    "POST " +:+ target_path target +:+ " HTTP/1.1" +:+ CRLF +:+ "Host: " +:+ host_header target +:+ CRLF
    +:+ "Accept: application/json, text/event-stream" +:+ CRLF +:+ "Content-Type: application/json" +:+ CRLF
    +:+ "MCP-Protocol-Version: " +:+ protocol_version +:+ CRLF
    +:+ "Content-Length: " +:+ N_to_string (str_len body) +:+ CRLF +:+ "Connection: close" +:+ CRLF in
  let request := append_configured_headers request headers in
  match session_id with
  | Some session_id =>
      if valid_http_header_value session_id
      then Ok (request +:+ "Mcp-Session-Id: " +:+ session_id +:+ CRLF +:+ CRLF +:+ body)
      else Err "HTTP upstream returned an invalid MCP session id header"
  | None => Ok (request +:+ CRLF +:+ body)
  end.

Definition plain_delete (target : ParsedHttpUrl) (session_id protocol_version : string)
    (headers : list (string * string)) : string :=
  let request :=
    "DELETE " +:+ target_path target +:+ " HTTP/1.1" +:+ CRLF +:+ "Host: " +:+ host_header target +:+ CRLF
    +:+ "MCP-Protocol-Version: " +:+ protocol_version +:+ CRLF +:+ "Mcp-Session-Id: " +:+ session_id +:+ CRLF
    +:+ "Content-Length: 0" +:+ CRLF +:+ "Connection: close" +:+ CRLF in
  append_configured_headers request headers +:+ CRLF.

(** ** Whether a server can be called (src/upstream.rs) *)

Definition nul : ascii := "000".

Definition invalid_env_entry (entry : string * string) : bool :=
  let '(name, value) := entry in
  str_is_empty name || contains_char "=" name || contains_char nul name || contains_char nul value.

Definition trimmed_non_empty (value : option string) : option string :=
  opt_filter (fun v => negb (str_is_empty v)) (option_map trim value).

Section callable.
Context (validate_stdio_cwd : string -> string -> option string).
Context (resolve_command_for_cwd : string -> string -> result string string).
Context (root_path : string).

Definition server_runtime_callable (server : UpstreamServerConfig) : bool * option string * option string :=
  let blocked error := (false, None, Some error) in
  let named text := "upstream server '" +:+ name server +:+ text in
  if negb (enabled server) then (false, None, None)
  else if String.eqb (source_type server) "http" then
    match trimmed_non_empty (url server) with
    | None => blocked ("HTTP upstream server '" +:+ name server +:+ "' has no url configured")
    | Some url =>
        match http_upstream_configuration_error url (headers server) with
        | Some error => blocked error
        | None => (true, None, None)
        end
    end
  else if String.eqb (source_type server) "legacy-sse" then
    blocked (named "' declares the deprecated HTTP+SSE transport. Use a stdio compatibility adapter or migrate the endpoint to Streamable HTTP before direct forwarding.")
  else if negb (String.eqb (source_type server) "stdio") then
    blocked (named ("' uses unsupported '" +:+ source_type server +:+ "' transport"))
  else if existsb (contains_char nul) (args server) then
    blocked (named "' contains a NUL byte in a stdio argument")
  else
    match List.find invalid_env_entry (env server) with
    | Some (entry, _) => blocked (named ("' contains an invalid environment entry '" +:+ entry +:+ "'"))
    | None =>
        match trimmed_non_empty (command server) with
        | None => blocked (named "' has no stdio command configured")
        | Some command =>
            let cwd := unwrap_or (cwd server) root_path in
            match validate_stdio_cwd cwd (name server) with
            | Some cwd_error => blocked cwd_error
            | None =>
                match resolve_command_for_cwd command cwd with
                | Ok path => (true, Some path, None)
                | Err error =>
                    blocked ("failed to resolve command '" +:+ command +:+ "' for upstream server '" +:+ name server
                             +:+ "': " +:+ error)
                end
            end
        end
    end.

Definition ensure_callable_stdio (server : UpstreamServerConfig) : result unit string :=
  let '(runtime_callable, _, command_error) := server_runtime_callable server in
  if runtime_callable then Ok tt
  else if negb (enabled server) then
    Err ("upstream server '" +:+ name server +:+ "' is disabled: "
         +:+ unwrap_or (disabled_reason server) "server is disabled by source or policy")
  else
    match command_error with
    | Some error => Err error
    | None =>
        if negb (String.eqb (source_type server) "stdio") && negb (String.eqb (source_type server) "http") then
          Err ("upstream server '" +:+ name server +:+ "' uses '" +:+ source_type server
               +:+ "' transport. This MCPace bridge forwards stdio and Streamable HTTP/HTTPS upstreams; configure a compatibility adapter or call runtime_diagnostics for exact status.")
        else Err ("upstream server '" +:+ name server +:+ "' is not callable through the stdio bridge")
    end.

End callable.

(** ** Plain HTTP stays on this machine *)

Lemma split_at_path_spec l front back :
  split_at_path l = (front, back) ->
  l = front ++ back /\ (back = [] \/ exists c rest, back = c :: rest /\ (c = "/"%char \/ c = "?"%char)).
Proof.
  revert front back. induction l as [|c l IH]; intros front back; cbn [split_at_path]; [intros [= <- <-]; auto|].
  destruct (Ascii.eqb_spec c "/") as [-> |]; [intros [= <- <-]; split; [done|right; eauto]|].
  destruct (Ascii.eqb_spec c "?") as [-> |]; [intros [= <- <-]; split; [done|right; eauto]|]. cbn [orb].
  destruct (split_at_path l) as [f b]. intros [= <- <-]. destruct (IH f b eq_refl) as [-> H]. by split.
Qed.

(** How an authority names its host. *)
Definition names_host (authority host : string) : Prop :=
  authority = host \/ authority = "[" +:+ host +:+ "]" \/
  exists port, authority = host +:+ ":" +:+ port \/ authority = "[" +:+ host +:+ "]:" +:+ port.

Lemma parse_port_bounds port authority p : parse_required_http_port port authority = Ok p -> (1 <= p <= 65535)%N.
Proof.
  unfold parse_required_http_port. destruct (str_is_empty port); [done|].
  destruct (opt_filter _ _) as [v|] eqn:E; [|done]. cbn [ok_or]. intros [= <-].
  apply opt_filter_Some in E as [E Hz]. apply parse_unsigned_le in E. apply negb_true_iff, N.eqb_neq in Hz. lia.
Qed.

Lemma parse_authority_spec authority default_port host port header :
  (1 <= default_port <= 65535)%N ->
  parse_http_authority authority default_port = Ok (host, port, header) ->
  names_host authority host /\ (1 <= port <= 65535)%N /\ contains_char "@" authority = false /\
  control_or_space host = false /\
  (header = host \/ header = "[" +:+ host +:+ "]" \/ header = host +:+ ":" +:+ N_to_string port \/
   header = "[" +:+ host +:+ "]:" +:+ N_to_string port).
Proof.
  intros Hd. unfold parse_http_authority.
  destruct (str_is_empty authority || _ || _ || _) eqn:E; [done|]. bool_prop.
  destruct (strip_prefix "[" authority) as [after|] eqn:Ep.
  - apply strip_prefix_Some in Ep. destruct (split_once "]" after) as [ [h suffix] |] eqn:Es; [|done].
    apply split_once_Some in Es as [Es _]. destruct (str_is_empty (trim h) || control_or_space h) eqn:Eh; [done|].
    apply orb_false_iff in Eh as [_ Eh].
    destruct (parse_optional_http_port suffix authority default_port) as [p|] eqn:Eo; [|done].
    intros [= -> -> <-]. unfold parse_optional_http_port in Eo.
    destruct (str_is_empty suffix) eqn:Ee.
    + injection Eo as <-. apply str_is_empty_true in Ee as ->. subst after. split_and!; try done; [|lia|lia|auto].
      right. left. by rewrite Ep.
    + destruct (strip_prefix ":" suffix) as [pt|] eqn:Ec; [|done]. apply parse_port_bounds in Eo.
      apply strip_prefix_Some in Ec. subst. split_and!; try done; [|lia|lia|auto].
      right. right. exists pt. by right.
  - destruct (1 <? count_char ":" authority)%N; [done|].
    destruct (rsplit_once ":" authority) as [ [h pt] |] eqn:Er.
    + apply rsplit_once_Some in Er. destruct (str_is_empty h); [done|].
      destruct (parse_required_http_port pt authority) as [p|] eqn:Eo; [|done]. cbv beta iota.
      destruct (str_is_empty (trim h) || control_or_space h) eqn:Eh; [done|]. apply orb_false_iff in Eh as [_ Eh].
      intros [= <- <- <-]. apply parse_port_bounds in Eo. split_and!; try done; [|lia|lia|auto].
      right. right. exists pt. by left.
    + cbv beta iota. destruct (str_is_empty (trim authority) || control_or_space authority) eqn:Eh; [done|].
      apply orb_false_iff in Eh as [_ Eh]. intros [= <- <- <-]. split_and!; try done; [by left|lia|lia|by left].
Qed.

Lemma starts_with_firstn p s : starts_with p s = true -> firstn (String.length p) (bytes s) = bytes p.
Proof.
  revert s. induction p as [|a p IH]; intros s; [done|]. destruct s as [|b s]; [done|].
  unfold starts_with. cbn [String.prefix]. destruct (Ascii.ascii_dec a b) as [-> |]; [|done].
  intros H. cbn. f_equal. by apply IH.
Qed.

(** What a parsed address says about its target. *)
Record target_ok (t : ParsedHttpUrl) (authority : string) : Prop := {
  ok_names : names_host authority (target_host t);
  ok_no_user : contains_char "@" authority = false;
  ok_port : (1 <= target_port t <= 65535)%N;
  ok_path : any_control (bytes (target_path t)) = false;
  ok_host : control_or_space (target_host t) = false;
  ok_header : host_header t = target_host t \/ host_header t = "[" +:+ target_host t +:+ "]" \/
    host_header t = target_host t +:+ ":" +:+ N_to_string (target_port t) \/
    host_header t = "[" +:+ target_host t +:+ "]:" +:+ N_to_string (target_port t);
  ok_loopback : secure t = false -> plain_http_upstream_host_is_loopback (target_host t) = true
}.

Definition path_part (rest : string) : Prop :=
  rest = EmptyString \/ exists c r, rest = String c r /\ (c = "/"%char \/ c = "?"%char).

Lemma split_http_spec rest authority path :
  split_http_authority_and_path rest = Ok (authority, path) ->
  any_control (bytes path) = false /\ exists tail, rest = authority +:+ tail /\ path_part tail.
Proof.
  unfold split_http_authority_and_path. destruct (split_at_path (bytes rest)) as [front back] eqn:Es.
  apply split_at_path_spec in Es as [Es Hback]. destruct front as [|f front]; [done|]. destruct back as [|b back].
  - intros [= <- <-]. split; [done|]. exists EmptyString. split; [by rewrite append_empty_r|by left].
  - destruct (any_control _) eqn:Ec; [done|]. intros [= <- <-]. split; [exact Ec|].
    exists (of_bytes (b :: back)). split.
    + apply bytes_inj. rewrite bytes_app, !bytes_of_bytes, Es.
      change (bytes (String f (of_bytes front))) with (f :: bytes (of_bytes front)).
      change (bytes (String b (of_bytes back))) with (b :: bytes (of_bytes back)).
      by rewrite !bytes_of_bytes.
    + right. destruct Hback as [?|(c & r & E & Hc)]; [done|]. injection E as <- <-. by exists b, (of_bytes back).
Qed.

Lemma parse_after_scheme_spec u sec rest dp t :
  (1 <= dp <= 65535)%N -> parse_after_scheme u sec rest dp = Ok t ->
  secure t = sec /\ exists authority tail, rest = authority +:+ tail /\ path_part tail /\ target_ok t authority.
Proof.
  intros Hdp. unfold parse_after_scheme.
  destruct (split_http_authority_and_path rest) as [ [authority path] |] eqn:Es; [|done].
  apply split_http_spec in Es as (Hpath & tail & Hrest & Htail).
  destruct (parse_http_authority authority dp) as [ [ [h pt] hd] |] eqn:Ea; [|done].
  apply (parse_authority_spec authority dp h pt hd Hdp) in Ea as (Hn & Hp & Hat & Hc & Hh).
  destruct (negb sec && _) eqn:El; [done|]. intros [= <-]. split; [done|]. exists authority, tail.
  split; [done|]. split; [done|]. split; cbn [target_host target_port target_path host_header secure]; try done.
  intros ->. cbn in El. by apply negb_false_iff in El.
Qed.

Lemma lower_prefix p u :
  starts_with p (to_ascii_lowercase u) = true ->
  to_ascii_lowercase (of_bytes (firstn (String.length p) (bytes u))) = p.
Proof.
  intros Hp%starts_with_firstn. apply bytes_inj. rewrite <- Hp. unfold to_ascii_lowercase, map_bytes.
  rewrite !bytes_of_bytes. symmetry. apply firstn_map.
Qed.

Lemma parse_http_url_spec u t :
  parse_http_url u = Ok t ->
  exists scheme authority tail, u = scheme +:+ authority +:+ tail /\
    to_ascii_lowercase scheme = (if secure t then "https://" else "http://") /\ path_part tail /\
    target_ok t authority.
Proof.
  unfold parse_http_url. destruct (_ || control_or_space u); [done|]. destruct (_ || contains_char backslash u); [done|].
  cbv zeta. assert (Hu : forall k rest, of_bytes (skipn k (bytes u)) = rest -> u = of_bytes (firstn k (bytes u)) +:+ rest).
  { intros k rest <-. apply bytes_inj. by rewrite bytes_app, !bytes_of_bytes, firstn_skipn. }
  destruct (starts_with "https://" _) eqn:E1; [|destruct (starts_with "http://" _) eqn:E2; [|done]].
  - intros (Hs & authority & tail & Hr & Ht & Ho)%parse_after_scheme_spec; [|lia].
    exists (of_bytes (firstn 8 (bytes u))), authority, tail. rewrite Hs. split_and!; try done; [by apply Hu|exact (lower_prefix _ _ E1)].
  - intros (Hs & authority & tail & Hr & Ht & Ho)%parse_after_scheme_spec; [|lia].
    exists (of_bytes (firstn 7 (bytes u))), authority, tail. rewrite Hs. split_and!; try done; [by apply Hu|exact (lower_prefix _ _ E2)].
Qed.

(** C17: an upstream address without TLS is accepted only when its authority, between the
    scheme and the path and without a user part, names this machine: the host the
    connection goes to is a loopback address or localhost, on a proper port. *)
Theorem plain_http_stays_local u t :
  parse_http_url u = Ok t -> secure t = false ->
  exists scheme authority tail, u = scheme +:+ authority +:+ tail /\ to_ascii_lowercase scheme = "http://" /\
    path_part tail /\ contains_char "@" authority = false /\ names_host authority (target_host t) /\
    (1 <= target_port t <= 65535)%N /\
    (eq_ignore_ascii_case (trim_brackets (trim (target_host t))) "localhost" = true \/
     exists address, parse_ip_addr (trim_brackets (trim (target_host t))) = Some address /\
       (is_loopback address = true \/ exists groups, address = V6 groups /\ mapped_loopback groups = true)).
Proof.
  intros (scheme & authority & tail & Hu & Hs & Ht & [Hn Hat Hp _ _ _ Hl])%parse_http_url_spec Hsec.
  rewrite Hsec in Hs. exists scheme, authority, tail. split_and!; try done; try lia.
  specialize (Hl Hsec). unfold plain_http_upstream_host_is_loopback in Hl.
  apply orb_true_iff in Hl as [Hl|Hl]; [by left|right].
  destruct (parse_ip_addr _) as [ [octets|groups] |]; [| |done]; eexists; (split; [reflexivity|]); [by left|].
  apply orb_true_iff in Hl as [Hl|Hl]; [by left|right]. by exists groups.
Qed.

Lemma plain_http_stays_local_witness :
  parse_http_url "HTTP://127.0.0.1:8080/mcp" = Ok (mkUrl "HTTP://127.0.0.1:8080/mcp" false "127.0.0.1" 8080 "/mcp" "127.0.0.1:8080") /\
  is_ok (parse_http_url "http://localhost@evil.example/mcp") = false /\
  is_ok (parse_http_url "http://evil.example/mcp") = false /\
  exists scheme authority tail, "HTTP://127.0.0.1:8080/mcp" = scheme +:+ authority +:+ tail /\ to_ascii_lowercase scheme = "http://".
Proof.
  assert (Hp : parse_http_url "HTTP://127.0.0.1:8080/mcp"
    = Ok (mkUrl "HTTP://127.0.0.1:8080/mcp" false "127.0.0.1" 8080 "/mcp" "127.0.0.1:8080")) by (vm_compute; reflexivity).
  split; [exact Hp|]. split; [vm_compute; reflexivity|]. split; [vm_compute; reflexivity|].
  destruct (plain_http_stays_local _ _ Hp eq_refl) as (scheme & authority & tail & Hu & Hs & _).
  by exists scheme, authority, tail.
Defined.
