(* ===== verification/HttpProbe.v ===== *)
(** * Reading HTTP responses (src/http_probe.rs)

    The response parser, the decoding of chunked bodies, the search for a JSON-RPC message
    in a stream of server-sent events, and the loop that reads a response until it is
    complete. A response is a text of bytes. Chunked bodies are decoded against an inductive
    grammar; the arithmetic on a chunk's announced size is that of [usize]. *)

From Stdlib Require Import Ascii.
From S2P Require Import Prelude RustStr BTree Json TextUtils HttpBoundary.

Definition DEFAULT_MAX_RESPONSE_BYTES : N := 8 * 1024 * 1024.

Definition CR : ascii := "013".
Definition LF : ascii := "010".
Definition crlf : list ascii := [CR; LF].
Definition CRLF_text : string := of_bytes crlf.

Record HttpResponse := mkResponse {
  status_line : string;
  status : N;
  headers : list (string * string);
  content_type : string;
  content_length : option N;
  transfer_encoding : string;
  response_body : string
}.

Definition response_header (response : HttpResponse) (name : string) : option string :=
  option_map snd (List.find (fun '(candidate, _) => eq_ignore_ascii_case candidate name) (headers response)).

Definition is_event_stream (response : HttpResponse) : bool :=
  str_contains "text/event-stream" (to_ascii_lowercase (content_type response)).

(** ** Chunked bodies *)

(** The bytes before the first line end and those after it. *)
Fixpoint find_crlf (l : list ascii) : option (list ascii * list ascii) :=
  match l with
  | a :: tail =>
      match tail with
      | b :: rest =>
          if Ascii.eqb a CR && Ascii.eqb b LF then Some ([], rest)
          else match find_crlf tail with
               | Some (front, rest) => Some (a :: front, rest)
               | None => None
               end
      | [] => None
      end
  | [] => None
  end.

Fixpoint hex_digits_value (acc : N) (s : string) : option N :=
  match s with
  | EmptyString => Some acc
  | String c s => d ← hex_digit_value c; hex_digits_value (acc * 16 + d) s
  end.

(** [usize::from_str_radix(s, 16)]. *)
Definition usize_from_hex (s : string) : option N :=
  let digits := match s with String "+" rest => rest | _ => s end in
  if str_is_empty digits then None
  else opt_filter (fun n => n <=? USIZE_MAX)%N (hex_digits_value 0 digits).

Definition header_value_byte (byte : ascii) : bool :=
  Ascii.eqb byte "009" || Ascii.eqb byte " " || in_range 33 126 byte || (128 <=? code byte)%N.

(** The size of a size line, without its extensions. *)
Definition chunk_size (line : list ascii) : option N :=
  usize_from_hex (trim (unwrap_or (head (split_char ";" (of_bytes line))) EmptyString)).

Definition check_trailer (trailer : list ascii) : result unit string :=
  if negb (utf8_valid trailer) then Err "chunked HTTP body has a non-UTF-8 trailer"
  else
    match split_once ":" (of_bytes trailer) with
    | None => Err "chunked HTTP body has a malformed trailer"
    | Some (name, value) =>
        if negb (valid_http_header_name (trim name)) || negb (all_bytes header_value_byte value)
        then Err "chunked HTTP body has an invalid trailer"
        else Ok tt
    end.

(** The trailers after the last chunk; a round takes at least a line end away. *)
Fixpoint read_trailers (fuel : nat) (l : list ascii) : result unit string :=
  match fuel with
  | O => Err "chunked HTTP body is missing the final trailer terminator"
  | S fuel =>
      match find_crlf l with
      | None => Err "chunked HTTP body is missing the final trailer terminator"
      | Some ([], rest) =>
          match rest with
          | [] => Ok tt
          | _ => Err "chunked HTTP body has bytes after the final terminator"
          end
      | Some (trailer, rest) => _ ←? check_trailer trailer ;; read_trailers fuel rest
      end
  end.

(** [offset] counts the bytes before [l]. The sum of the offset and an announced size that
    does not fit [usize] panics, as an overflow or in the slice that it makes. *)
Fixpoint decode_chunks (fuel : nat) (offset : N) (l decoded : list ascii) : outcome (result (list ascii) string) :=
  match fuel with
  | O => Returns (Err "chunked HTTP body is incomplete")
  | S fuel =>
      match find_crlf l with
      | None => Returns (Err "chunked HTTP body is incomplete")
      | Some (line, l) =>
          if negb (utf8_valid line) then Returns (Err "chunked HTTP body has a non-UTF-8 size line")
          else
            match chunk_size line with
            | None => Returns (Err "chunked HTTP body has an invalid chunk size")
            | Some size =>
                let offset := (offset + len_N line + 2)%N in
                if (size =? 0)%N then Returns (_ ←? read_trailers (S (length l)) l ;; Ok decoded)
                else if (USIZE_MAX <? offset + size)%N then Panics
                else if (len_N l <? size)%N then Returns (Err "chunked HTTP body is incomplete")
                else
                  let decoded := decoded ++ firstn (N.to_nat size) l in
                  let rest := skipn (N.to_nat size) l in
                  let offset := (offset + size)%N in
                  match rest with
                  | a :: b :: rest' =>
                      if Ascii.eqb a CR && Ascii.eqb b LF then decode_chunks fuel (offset + 2) rest' decoded
                      else Returns (Err "chunked HTTP body is missing a chunk terminator")
                  | [_] => Returns (Err "chunked HTTP body is missing a chunk terminator")
                  | [] => decode_chunks fuel offset [] decoded
                  end
            end
      end
  end.

Definition decode_chunked_body (body : list ascii) : outcome (result (list ascii) string) :=
  decode_chunks (S (length body)) 0 body [].

Definition is_chunked (response : HttpResponse) : bool :=
  str_contains "chunked" (to_ascii_lowercase (transfer_encoding response)).

Definition body_bytes (response : HttpResponse) : outcome (result (list ascii) string) :=
  let body := response_body response in
  if is_chunked response then decode_chunked_body (bytes body)
  else
    Returns match content_length response with
            | Some content_length =>
                if (str_len body <? content_length)%N then
                  Err ("HTTP response body is truncated: expected " +:+ N_to_string content_length
                       +:+ " bytes, received " +:+ N_to_string (str_len body))
                else Ok (firstn (N.to_nat content_length) (bytes body))
            | None => Ok (bytes body)
            end.

(** ** The head of a response *)

Record HeadScan := mkScan {
  scan_headers : list (string * string);
  scan_content_type : string;
  scan_content_length : option N;
  scan_transfer_encoding : string;
  transfer_encoding_seen : bool
}.

Definition scan_start : HeadScan := mkScan [] EmptyString None EmptyString false.

Definition push_header (header : string * string) (s : HeadScan) : HeadScan :=
  mkScan (scan_headers s ++ [header]) (scan_content_type s) (scan_content_length s) (scan_transfer_encoding s)
    (transfer_encoding_seen s).

Definition scan_header_line (s : HeadScan) (line : string) : result HeadScan string :=
  match split_once ":" line with
  | None => Err ("HTTP response contains malformed header line: " +:+ line)
  | Some (name, value) =>
      let name := trim name in
      let value := trim value in
      if negb (valid_http_header_name name) || negb (all_bytes header_value_byte value)
      then Err ("HTTP response contains an invalid header: " +:+ name)
      else
        let lower := to_ascii_lowercase name in
        s ←? (if String.eqb lower "content-type" then
                Ok (mkScan (scan_headers s) value (scan_content_length s) (scan_transfer_encoding s)
                      (transfer_encoding_seen s))
              else if String.eqb lower "content-length" then
                match parse_usize value with
                | None => Err "HTTP response has an invalid Content-Length header"
                | Some parsed =>
                    if is_some (scan_content_length s)
                    then Err "HTTP response has duplicate Content-Length headers"
                    else Ok (mkScan (scan_headers s) (scan_content_type s) (Some parsed) (scan_transfer_encoding s)
                               (transfer_encoding_seen s))
                end
              else if String.eqb lower "transfer-encoding" then
                if transfer_encoding_seen s then Err "HTTP response has duplicate Transfer-Encoding headers"
                else Ok (mkScan (scan_headers s) (scan_content_type s) (scan_content_length s) value true)
              else Ok s) ;;
        Ok (push_header (name, value) s)
  end.

Fixpoint scan_head (s : HeadScan) (lines : list string) : result HeadScan string :=
  match lines with
  | [] => Ok s
  | line :: lines => s ←? scan_header_line s line ;; scan_head s lines
  end.

Definition bare_line_byte (byte : ascii) : bool := Ascii.eqb byte LF || Ascii.eqb byte CR || (code byte =? 0)%N.

(** The version and the status, when it is a number of three digits. *)
Definition parse_status_line (status_line : string) : result (string * N) string :=
  if existsb bare_line_byte (bytes status_line) then Err "HTTP response status line contains invalid line framing"
  else
    let '(http_version, rest) :=
      match next_word (bytes status_line) with Some (word, rest) => (word, rest) | None => (EmptyString, []) end in
    let value := '(word, _) ← next_word rest; parse_unsigned 65535 word in
    match opt_filter (fun value => (100 <=? value)%N && (value <=? 599)%N) value with
    | None => Err ("HTTP response has malformed status line: " +:+ status_line)
    | Some status =>
        if negb (String.eqb http_version "HTTP/1.0" || String.eqb http_version "HTTP/1.1")
        then Err ("HTTP response has unsupported version in status line: " +:+ status_line)
        else Ok (http_version, status)
    end.

(** The only transfer coding is [chunked]. *)
Definition supported_transfer_encoding (transfer_encoding : string) : bool :=
  match List.filter (fun coding => negb (str_is_empty coding)) (map trim (split_char "," transfer_encoding)) with
  | [coding] => eq_ignore_ascii_case coding "chunked"
  | _ => false
  end.

Definition parse_response (raw : string) : result HttpResponse string :=
  parts ←? ok_or (split_once_str (CRLF_text +:+ CRLF_text) raw) "HTTP response missing header/body separator" ;;
  let '(headers_text, body) := parts in
  let lines := split_str CRLF_text headers_text in
  let status_line := unwrap_or (head lines) EmptyString in
  parsed ←? parse_status_line status_line ;;
  scan ←? scan_head scan_start (tail lines) ;;
  let transfer_encoding := scan_transfer_encoding scan in
  if is_some (scan_content_length scan) && negb (str_is_empty transfer_encoding) then
    Err "HTTP response cannot combine Content-Length with Transfer-Encoding"
  else if negb (str_is_empty transfer_encoding) && negb (supported_transfer_encoding transfer_encoding) then
    Err "HTTP response uses an unsupported or ambiguous Transfer-Encoding"
  else
    Ok (mkResponse status_line (snd parsed) (scan_headers scan) (scan_content_type scan)
          (scan_content_length scan) transfer_encoding body).

(** ** Server-sent events *)

(** [str::lines]. *)
Definition strip_cr (line : string) : string :=
  match rev (bytes line) with
  | c :: front => if Ascii.eqb c CR then of_bytes (rev front) else line
  | [] => line
  end.

Fixpoint text_lines_loop (pieces : list string) : list string :=
  match pieces with
  | [] => []
  | [last] => if str_is_empty last then [] else [last]
  | piece :: pieces => strip_cr piece :: text_lines_loop pieces
  end.

Definition text_lines (s : string) : list string := text_lines_loop (split_char LF s).

Definition json_response_id_matches (value : JsonValue) (expected_id : option Z) : bool :=
  match expected_id with
  | Some expected_id =>
      match value_at_path value ["id"] ≫= as_i64 with Some id => (id =? expected_id)%Z | None => false end
  | None => true
  end.

Definition event_data (event : string) : string :=
  trim (join (of_bytes [LF]) (map trim (omap (strip_prefix "data:") (text_lines event)))).

Section serde.
Context `{SerdeJson}.

Definition event_matches (expected_id : option Z) (data : string) : bool :=
  if str_is_empty data then false
  else match parse_str data with
       | Ok value => json_response_id_matches value expected_id
       | Err _ => false
       end.

Definition sse_json_rpc_body (body : string) (expected_id : option Z) : option string :=
  let normalized := replace_str CRLF_text (of_bytes [LF]) body in
  List.find (event_matches expected_id) (map event_data (split_str (of_bytes [LF; LF]) normalized)).

Definition sse_json_body (body : string) : option string := sse_json_rpc_body body None.

(** ** When a response is complete *)

Definition utf8_body (response : HttpResponse) : outcome (option string) :=
  match body_bytes response with
  | Panics => Panics
  | Returns (Ok body) => Returns (if utf8_valid body then Some (of_bytes body) else None)
  | Returns (Err _) => Returns None
  end.

Definition map_outcome {A B} (f : A -> B) (o : outcome A) : outcome B :=
  match o with Returns a => Returns (f a) | Panics => Panics end.

Definition generic_http_body_ready (parsed : HttpResponse) : outcome bool :=
  if is_event_stream parsed then
    map_outcome (fun body => is_some (body ≫= sse_json_body)) (utf8_body parsed)
  else if is_chunked parsed then map_outcome is_ok (body_bytes parsed)
  else
    Returns match content_length parsed with
            | Some content_length => (content_length <=? str_len (response_body parsed))%N
            | None => is_ok (parse_str (trim (response_body parsed)))
            end.

Definition response_ready (raw : string) : outcome bool :=
  match parse_response raw with Ok parsed => generic_http_body_ready parsed | Err _ => Returns false end.

Definition mcp_json_rpc_response_ready (raw : string) (expected_id : option Z) : outcome bool :=
  match parse_response raw with
  | Err _ => Returns false
  | Ok parsed =>
      if ((status parsed =? 202) || (status parsed =? 204) || (status parsed =? 304))%N then Returns true
      else if negb ((200 <=? status parsed) && (status parsed <? 300))%N then generic_http_body_ready parsed
      else if is_event_stream parsed then
        map_outcome (fun body => is_some (body ≫= fun body => sse_json_rpc_body body expected_id)) (utf8_body parsed)
      else
        match generic_http_body_ready parsed with
        | Panics => Panics
        | Returns false => Returns false
        | Returns true =>
            map_outcome (fun body =>
                let body := match body with Ok body => body | Err _ => [] end in
                utf8_valid body
                && match parse_str (trim (of_bytes body)) with
                   | Ok value => json_response_id_matches value expected_id
                   | Err _ => false
                   end)
              (body_bytes parsed)
        end
  end.

Record HttpJsonResponse := mkJsonResponse { json_headers : list (string * string); json_value : JsonValue }.

Definition parse_json_response (response : string) : outcome (result HttpJsonResponse string) :=
  match parse_response response with
  | Err error => Returns (Err error)
  | Ok parsed =>
      if negb (status parsed =? 200)%N then Returns (Err ("HTTP request failed: " +:+ status_line parsed))
      else
        map_outcome (fun body =>
            body ←? body ;;
            body ←? (if utf8_valid body then Ok (of_bytes body) else Err "HTTP probe returned a non-UTF-8 body") ;;
            json_body ←? (if is_event_stream parsed
                          then ok_or (sse_json_body body) "HTTP probe SSE response did not contain a JSON-RPC response"
                          else Ok (trim body)) ;;
            json ←? map_err (fun error => "parse HTTP JSON response: " +:+ error) (parse_str json_body) ;;
            Ok (mkJsonResponse (headers parsed) json))
          (body_bytes parsed)
  end.

End serde.

(** ** The reading loop *)

Inductive ReadEvent :=
| ReadBytes (piece : list ascii)
| ReadEnd
| ReadTimedOut
| ReadFailed (error : string).

(** One entry per round: whether the deadline lies ahead, and what the socket answers.
    [None]: the answers given do not suffice. *)
Fixpoint read_response_until (max_response_bytes : N) (ready : string -> outcome bool) (raw : list ascii)
    (reads : list (bool * ReadEvent)) : option (outcome (result string string)) :=
  let timed_out := Err "timed out while reading HTTP probe response" in
  let if_ready otherwise :=
    if utf8_valid raw then
      match ready (of_bytes raw) with
      | Panics => Some Panics
      | Returns true => Some (Returns (Ok (of_bytes raw)))
      | Returns false => otherwise
      end
    else otherwise in
  match reads with
  | [] => None
  | (false, _) :: _ => Some (Returns timed_out)
  | (true, ReadEnd) :: _ =>
      Some (Returns (if utf8_valid raw then Ok (of_bytes raw) else Err "HTTP probe returned a non-UTF-8 response"))
  | (true, ReadTimedOut) :: _ => if_ready (Some (Returns timed_out))
  | (true, ReadFailed error) :: _ => Some (Returns (Err ("read response: " +:+ error)))
  | (true, ReadBytes piece) :: reads =>
      let raw := raw ++ piece in
      if (max_response_bytes <? len_N raw)%N
      then Some (Returns (Err "HTTP probe response exceeded the maximum supported size"))
      else
        if utf8_valid raw then
          match ready (of_bytes raw) with
          | Panics => Some Panics
          | Returns true => Some (Returns (Ok (of_bytes raw)))
          | Returns false => read_response_until max_response_bytes ready raw reads
          end
        else read_response_until max_response_bytes ready raw reads
  end.

(** ** The grammar of chunked bodies *)

Definition crlf_free (l : list ascii) : Prop := find_crlf l = None.

Lemma find_crlf_cons a b l :
  find_crlf (a :: b :: l) =
  if Ascii.eqb a CR && Ascii.eqb b LF then Some ([], l)
  else match find_crlf (b :: l) with Some (front, rest) => Some (a :: front, rest) | None => None end.
Proof. reflexivity. Qed.

Lemma find_crlf_Some l front rest : find_crlf l = Some (front, rest) -> l = front ++ crlf ++ rest /\ crlf_free front.
Proof.
  unfold crlf_free. revert front rest. induction l as [|a l IH]; intros front rest; [done|]. destruct l as [|b l]; [done|].
  rewrite find_crlf_cons. destruct (Ascii.eqb a CR && Ascii.eqb b LF) eqn:E.
  - intros [= <- <-]. apply andb_true_iff in E as [-> %Ascii.eqb_eq -> %Ascii.eqb_eq]. done.
  - destruct (find_crlf (b :: l)) as [ [f r] |] eqn:Er; [|done]. intros [= <- <-].
    destruct (IH f r eq_refl) as [H1 H2]. split; [by rewrite H1|]. destruct f as [|c f]; [done|].
    cbn [app] in H1. injection H1 as -> _. by rewrite find_crlf_cons, E, H2.
Qed.

Lemma find_crlf_app front rest : crlf_free front -> find_crlf (front ++ crlf ++ rest) = Some (front, rest).
Proof.
  unfold crlf_free. induction front as [|a front IH]; intros H; [done|].
  destruct front as [|b front]; cbn [app crlf] in *; rewrite find_crlf_cons.
  - change (Ascii.eqb CR LF) with false. by rewrite andb_false_r, IH.
  - rewrite find_crlf_cons in H. destruct (Ascii.eqb a CR && Ascii.eqb b LF); [done|].
    rewrite IH; [done|]. by destruct (find_crlf (b :: front)) as [ [? ?] |].
Qed.

Inductive trailer_section : list ascii -> Prop :=
| trailers_end : trailer_section crlf
| trailers_line line rest :
    line <> [] -> crlf_free line -> check_trailer line = Ok tt -> trailer_section rest ->
    trailer_section (line ++ crlf ++ rest).

(** A body and what it carries. *)
Inductive chunked_body : list ascii -> list ascii -> Prop :=
| last_chunk line rest :
    crlf_free line -> utf8_valid line = true -> chunk_size line = Some 0%N -> trailer_section rest ->
    chunked_body (line ++ crlf ++ rest) []
| data_chunk line data rest decoded :
    crlf_free line -> utf8_valid line = true -> data <> [] -> chunk_size line = Some (len_N data) ->
    chunked_body rest decoded ->
    chunked_body (line ++ crlf ++ data ++ crlf ++ rest) (data ++ decoded).

Lemma read_trailers_spec fuel l : length l < fuel -> read_trailers fuel l = Ok tt <-> trailer_section l.
Proof.
  revert l. induction fuel as [|fuel IH]; intros l Hf; [lia|]. cbn [read_trailers]. split.
  - destruct (find_crlf l) as [ [line rest] |] eqn:E; [|done]. apply find_crlf_Some in E as [-> Hfree].
    destruct line as [|c line].
    + destruct rest; [|done]. intros _. apply trailers_end.
    + destruct (check_trailer (c :: line)) as [ [] |] eqn:Ec; [|done]. intros H.
      apply trailers_line; [done|done|done|]. apply IH; [|done]. rewrite !length_app in Hf. cbn [length crlf] in Hf. lia.
  - destruct 1 as [|line rest Hne Hfree Hok Hrest]; [done|]. rewrite find_crlf_app by done.
    destruct line as [|c line]; [done|]. rewrite Hok. apply IH; [|done].
    rewrite !length_app in Hf. cbn [length crlf] in Hf. lia.
Qed.

Lemma decode_chunks_spec fuel offset l acc d :
  length l < fuel -> (offset + len_N l <= USIZE_MAX)%N ->
  decode_chunks fuel offset l acc = Returns (Ok d) <-> exists tail, chunked_body l tail /\ d = acc ++ tail.
Proof.
  revert offset l acc d. induction fuel as [|fuel IH]; intros offset l acc d Hf Hmax; [lia|]. cbn [decode_chunks]. split.
  - destruct (find_crlf l) as [ [line rest] |] eqn:E; [|done]. apply find_crlf_Some in E as [-> Hfree].
    destruct (utf8_valid line) eqn:Hu; [|done]. cbn [negb]. destruct (chunk_size line) as [size|] eqn:Hs; [|done].
    destruct (N.eqb_spec size 0) as [-> |Hz].
    + destruct (read_trailers _ rest) as [ [] |] eqn:Ht; [|done]. intros [= <-]. exists [].
      apply read_trailers_spec in Ht; [|lia]. split; [by apply last_chunk|by rewrite app_nil_r].
    + destruct (USIZE_MAX <? _)%N; [done|]. destruct (N.ltb_spec (len_N rest) size) as [|Hle]; [done|].
      pose proof (take_drop (N.to_nat size) rest) as Hsplit.
      assert (Hlen : len_N (firstn (N.to_nat size) rest) = size).
      { unfold len_N in *. rewrite length_firstn. lia. }
      set (data := firstn (N.to_nat size) rest) in *. destruct (skipn (N.to_nat size) rest) as [|a [|b rest'] ] eqn:Er; [|done|].
      * by destruct fuel.
      * destruct (Ascii.eqb a CR && Ascii.eqb b LF) eqn:Ec; [|done].
        apply andb_true_iff in Ec as [-> %Ascii.eqb_eq -> %Ascii.eqb_eq].
        rewrite <- Hsplit in Hf, Hmax. rewrite !length_app in Hf. rewrite !len_N_app in Hmax. cbn [length crlf] in Hf.
        change (len_N crlf) with 2%N in Hmax. rewrite !len_N_cons in Hmax. rewrite Hlen in Hmax.
        intros (tail & Hc & ->)%IH; [|lia|lia]. exists (data ++ tail). split; [|by rewrite app_assoc].
        rewrite <- Hsplit. apply data_chunk; try done; [|by rewrite Hlen]. intros Hd. rewrite Hd in Hlen. by subst size.
  - intros (tail & Hc & ->). destruct Hc as [line rest Hfree Hu Hs Ht|line data rest tail Hfree Hu Hne Hs Hc];
      rewrite find_crlf_app by done; rewrite Hu, Hs; cbn [negb].
    + rewrite (proj2 (read_trailers_spec _ rest (Nat.lt_succ_diag_r _)) Ht). cbn. by rewrite app_nil_r.
    + rewrite !length_app in Hf. rewrite !len_N_app in Hmax. change (len_N crlf) with 2%N in Hmax.
      rewrite (proj2 (N.eqb_neq _ 0)); [|by destruct data].
      rewrite (proj2 (N.ltb_ge USIZE_MAX _)) by lia. rewrite !len_N_app.
      rewrite (proj2 (N.ltb_ge (_ + _) _)) by lia.
      rewrite (Nat2N.id (length data) : N.to_nat (len_N data) = length data), take_app_length, drop_app_length. cbn [app crlf].
      change (Ascii.eqb CR CR && Ascii.eqb LF LF) with true. cbn [length crlf] in Hf.
      rewrite app_assoc. apply IH; [lia| |eauto]. lia.
Qed.

(** Decoding a chunked body succeeds exactly on the bodies of the grammar, and yields what
    they carry; it always ends. *)
Theorem chunked_bodies_decoded body d :
  (len_N body <= USIZE_MAX)%N -> decode_chunked_body body = Returns (Ok d) <-> chunked_body body d.
Proof.
  intros Hmax. unfold decode_chunked_body. rewrite decode_chunks_spec by (lia || exact Hmax). split.
  - by intros (tail & Hc & ->).
  - intros Hc. by exists d.
Qed.

Definition sample_chunked : string :=
  "5;note=x" +:+ CRLF_text +:+ "hello" +:+ CRLF_text +:+ "3" +:+ CRLF_text +:+ " ok" +:+ CRLF_text
  +:+ "0" +:+ CRLF_text +:+ "Trailer: t" +:+ CRLF_text +:+ CRLF_text.

Lemma chunked_bodies_decoded_witness : chunked_body (bytes sample_chunked) (bytes "hello ok").
Proof.
  apply (proj1 (chunked_bodies_decoded (bytes sample_chunked) (bytes "hello ok") ltac:(vm_compute; discriminate))).
  vm_compute. reflexivity.
Defined.

(** A size that is a number of machine width but too large to be added to the offset makes
    the decoder panic, and with it the test whether a response is complete. *)
Definition overflowing_response : string :=
  "HTTP/1.1 200 OK" +:+ CRLF_text +:+ "Transfer-Encoding: chunked" +:+ CRLF_text +:+ CRLF_text
  +:+ "ffffffffffffffff" +:+ CRLF_text.

Theorem chunk_size_overflow_panics `{SerdeJson} id :
  mcp_json_rpc_response_ready overflowing_response id = Panics /\ response_ready overflowing_response = Panics.
Proof. split; vm_compute; reflexivity. Qed.

(** ** One framing per response *)

Definition headers_named (name : string) (headers : list (string * string)) : list (string * string) :=
  List.filter (fun '(n, _) => String.eqb (to_ascii_lowercase n) name) headers.

Definition scan_inv (s : HeadScan) : Prop :=
  match scan_content_length s with
  | None => headers_named "content-length" (scan_headers s) = []
  | Some n => exists name value, headers_named "content-length" (scan_headers s) = [(name, value)] /\
                parse_usize value = Some n
  end /\
  if transfer_encoding_seen s
  then exists name, headers_named "transfer-encoding" (scan_headers s) = [(name, scan_transfer_encoding s)]
  else headers_named "transfer-encoding" (scan_headers s) = [] /\ scan_transfer_encoding s = EmptyString.

Lemma headers_named_app k a b : headers_named k (a ++ b) = headers_named k a ++ headers_named k b.
Proof. apply List.filter_app. Qed.

Lemma headers_named_other k name value :
  String.eqb (to_ascii_lowercase name) k = false -> headers_named k [(name, value)] = [].
Proof. intros E. cbn. by rewrite E. Qed.

Lemma scan_header_line_inv s line s' : scan_header_line s line = Ok s' -> scan_inv s -> scan_inv s'.
Proof.
  unfold scan_header_line. destruct (split_once ":" line) as [ [name value] |]; [|done].
  set (n := trim name). set (v := trim value). destruct (_ || _); [done|].
  intros H [H1 H2]. unfold scan_inv. destruct (String.eqb_spec (to_ascii_lowercase n) "content-type") as [E|E1].
  - injection H as <-. cbn [scan_headers scan_content_length scan_transfer_encoding transfer_encoding_seen push_header].
    rewrite !headers_named_app, !headers_named_other, !app_nil_r by (by rewrite E). done.
  - destruct (String.eqb_spec (to_ascii_lowercase n) "content-length") as [E|E2].
    + destruct (parse_usize v) as [parsed|] eqn:Ep; [|done].
      destruct (scan_content_length s) as [|] eqn:Ec; [done|]. injection H as <-.
      cbn [scan_headers scan_content_length scan_transfer_encoding transfer_encoding_seen push_header].
      rewrite !headers_named_app, H1. rewrite (headers_named_other "transfer-encoding") by (by rewrite E).
      rewrite app_nil_r. split; [|done]. exists n, v. cbn. by rewrite E.
    + destruct (String.eqb_spec (to_ascii_lowercase n) "transfer-encoding") as [E|E3].
      * destruct (transfer_encoding_seen s) eqn:Es; [done|]. injection H as <-.
        cbn [scan_headers scan_content_length scan_transfer_encoding transfer_encoding_seen push_header].
        rewrite !headers_named_app. rewrite (headers_named_other "content-length") by (by rewrite E).
        rewrite app_nil_r. split; [done|]. exists n. destruct H2 as [-> _]. cbn. by rewrite E.
      * injection H as <-.
        cbn [scan_headers scan_content_length scan_transfer_encoding transfer_encoding_seen push_header].
        rewrite !headers_named_app, !headers_named_other, !app_nil_r by (by apply String.eqb_neq). done.
Qed.

Lemma scan_head_inv lines s s' : scan_head s lines = Ok s' -> scan_inv s -> scan_inv s'.
Proof.
  revert s. induction lines as [|line lines IH]; intros s; cbn [scan_head]; [by intros [= <-]|].
  destruct (scan_header_line s line) as [s1|] eqn:E; [|done]. intros H Hs. eapply IH; [done|].
  by eapply scan_header_line_inv.
Qed.

Definition part_of (x s : string) : Prop := exists l r, s = l +:+ x +:+ r.

Lemma part_of_trans x y s : part_of x y -> part_of y s -> part_of x s.
Proof. intros (l & r & ->) (l' & r' & ->). exists (l' +:+ l), (r +:+ r'). by rewrite !append_assoc_str. Qed.

Lemma part_of_trim s : part_of (trim s) s.
Proof.
  destruct (drop_front_suffix ws1 ws2 ws3 (bytes s)) as [pre Hpre].
  destruct (trim_end_bytes_prefix (trim_start_bytes (bytes s))) as [suf Hsuf].
  exists (of_bytes pre), (of_bytes suf). apply bytes_inj. unfold trim. rewrite !bytes_app, !bytes_of_bytes.
  by rewrite <- Hsuf.
Qed.

Lemma split_char_prefix c s y ys : split_char c s = y :: ys -> exists r, s = y +:+ r.
Proof.
  revert y ys. induction s as [|a s IH]; intros y ys; cbn [split_char]; [intros [= <- <-]; by exists EmptyString|].
  destruct (Ascii.eqb a c); [intros [= <- <-]; by exists (String a s)|].
  destruct (split_char c s) as [|z zs]; intros [= <- <-]; [by exists s|].
  destruct (IH z zs eq_refl) as [r ->]. by exists r.
Qed.

Lemma part_of_split_char c s x : x ∈ split_char c s -> part_of x s.
Proof.
  revert x. induction s as [|a s IH]; intros x Hx.
  - apply list_elem_of_singleton in Hx as ->. by exists EmptyString, EmptyString.
  - destruct (split_char c (String a s)) as [|y ys] eqn:E; [by apply not_elem_of_nil in Hx|].
    apply elem_of_cons in Hx as [-> |Hx]; [apply split_char_prefix in E as [r ->]; by exists EmptyString, r|].
    assert (H : x ∈ split_char c s).
    { cbn [split_char] in E. destruct (Ascii.eqb a c); [by injection E as _ <-|].
      destruct (split_char c s); injection E as _ <-; [done|by right]. }
    destruct (IH x H) as (l & r & ->). by exists (String a l), r.
Qed.

Lemma part_of_contains x s : part_of x s -> str_contains x s = true.
Proof. intros (l & r & ->). apply str_contains_app. Qed.

Lemma part_of_lower x s : part_of x s -> part_of (to_ascii_lowercase x) (to_ascii_lowercase s).
Proof. intros (l & r & ->). exists (to_ascii_lowercase l), (to_ascii_lowercase r). by rewrite !lower_app. Qed.

Lemma supported_is_chunked te :
  supported_transfer_encoding te = true -> str_contains "chunked" (to_ascii_lowercase te) = true.
Proof.
  unfold supported_transfer_encoding.
  destruct (List.filter _ _) as [|coding [|] ] eqn:E; [done| |done]. intros Hc.
  assert (Hin : coding ∈ map trim (split_char "," te)).
  { apply list_elem_of_In. eapply (proj1 (filter_In _ _ _)). rewrite E. by left. }
  apply list_elem_of_fmap in Hin as (piece & -> & Hp).
  apply part_of_contains. unfold eq_ignore_ascii_case in Hc. apply String.eqb_eq in Hc.
  change "chunked" with (to_ascii_lowercase "chunked"). rewrite <- Hc. apply part_of_lower.
  eapply part_of_trans; [apply part_of_trim|by eapply part_of_split_char].
Qed.

(** A response that is accepted has one framing: what follows its first blank line is its
    body, there is at most one Content-Length, at most one Transfer-Encoding and not both
    (an empty one aside), and the decoded body is what the chunks carry, or as many bytes
    as announced, or everything. *)
Theorem response_framing raw r b :
  parse_response raw = Ok r -> body_bytes r = Returns (Ok b) -> (str_len raw <= USIZE_MAX)%N ->
  (exists head, raw = head +:+ CRLF_text +:+ CRLF_text +:+ response_body r) /\
  length (headers_named "content-length" (headers r)) <= 1 /\
  length (headers_named "transfer-encoding" (headers r)) <= 1 /\
  match content_length r with
  | Some n => Forall (fun h => snd h = EmptyString) (headers_named "transfer-encoding" (headers r)) /\
              (exists h, headers_named "content-length" (headers r) = [h] /\ parse_usize (snd h) = Some n) /\
              (n <= str_len (response_body r))%N /\ b = firstn (N.to_nat n) (bytes (response_body r))
  | None => headers_named "content-length" (headers r) = [] /\
            (b = bytes (response_body r) \/
             exists h, headers_named "transfer-encoding" (headers r) = [h] /\
               supported_transfer_encoding (snd h) = true /\ chunked_body (bytes (response_body r)) b)
  end.
Proof.
  intros Hp Hb Hmax. unfold parse_response in Hp.
  destruct (split_once_str _ raw) as [ [text body] |] eqn:Es; [|done]. apply split_once_str_Some in Es.
  cbn [ok_or] in Hp. cbv zeta in Hp. destruct (parse_status_line _) as [parsed|]; [|done].
  destruct (scan_head _ _) as [scan|] eqn:Ec; [|done].
  apply scan_head_inv in Ec as [Hcl Hte]; [|done].
  destruct (is_some (scan_content_length scan) && _) eqn:Eb; [done|].
  destruct (negb (str_is_empty (scan_transfer_encoding scan)) && _) eqn:Et; [done|]. injection Hp as <-.
  cbn [response_body headers content_length] in *.
  assert (Hfront : exists head, raw = head +:+ CRLF_text +:+ CRLF_text +:+ body).
  { exists text. by rewrite Es, append_assoc_str. }
  unfold body_bytes, is_chunked in Hb. cbn [transfer_encoding response_body content_length] in Hb.
  assert (Hlte : length (headers_named "transfer-encoding" (scan_headers scan)) <= 1).
  { destruct (transfer_encoding_seen scan); [destruct Hte as [? ->]|destruct Hte as [-> _]]; cbn; lia. }
  split; [done|]. destruct (scan_content_length scan) as [n|].
  - cbn [is_some andb] in Eb. apply negb_false_iff, str_is_empty_true in Eb. rewrite Eb in Hb.
    change (str_contains "chunked" (to_ascii_lowercase EmptyString)) with false in Hb. cbv iota in Hb.
    destruct Hcl as (name & value & Hcl & Hv). destruct (N.ltb_spec (str_len body) n); [done|]. injection Hb as <-.
    rewrite Hcl. split_and!; try done; [|by exists (name, value)].
    destruct (transfer_encoding_seen scan); [|by destruct Hte as [-> _]]. destruct Hte as [? ->].
    constructor; [done|constructor].
  - rewrite Hcl. split_and!; [cbn; lia|done|done|].
    destruct (str_is_empty (scan_transfer_encoding scan)) eqn:Ee.
    + apply str_is_empty_true in Ee. rewrite Ee in Hb.
      change (str_contains "chunked" (to_ascii_lowercase EmptyString)) with false in Hb. injection Hb as <-. by left.
    + cbn [negb andb] in Et. apply negb_false_iff in Et. rewrite supported_is_chunked in Hb by done.
      apply chunked_bodies_decoded in Hb.
      * right. destruct (transfer_encoding_seen scan); [|destruct Hte as [_ Hte]; by rewrite Hte in Ee].
        destruct Hte as [name ->]. by exists (name, scan_transfer_encoding scan).
      * rewrite <- str_len_bytes. rewrite Es, !str_len_app in Hmax. lia.
Qed.

Lemma response_framing_witness :
  exists r, parse_response ("HTTP/1.1 200 OK" +:+ CRLF_text +:+ "Transfer-Encoding: chunked" +:+ CRLF_text +:+ CRLF_text
                            +:+ sample_chunked) = Ok r /\
  length (headers_named "content-length" (headers r)) <= 1 /\ str_len (response_body r) = 42%N.
Proof.
  eexists. split; [vm_compute; reflexivity|].
  destruct (response_framing ("HTTP/1.1 200 OK" +:+ CRLF_text +:+ "Transfer-Encoding: chunked" +:+ CRLF_text
      +:+ CRLF_text +:+ sample_chunked) _ (bytes "hello ok") ltac:(vm_compute; reflexivity) ltac:(vm_compute; reflexivity)
      ltac:(vm_compute; discriminate)) as (_ & H & _).
  split; [exact H|vm_compute; reflexivity].
Defined.

(** ** What the reading loop returns *)

Definition piece_of (read : bool * ReadEvent) : list ascii :=
  match snd read with ReadBytes piece => piece | _ => [] end.

Lemma read_response_spec max ready raw reads :
  (len_N raw <= max)%N -> Forall (fun read => snd read = ReadBytes (piece_of read) -> piece_of read <> []) reads ->
  ((max < len_N raw + len_N reads)%N -> read_response_until max ready raw reads <> None) /\
  forall text, read_response_until max ready raw reads = Some (Returns (Ok text)) ->
    utf8_valid (bytes text) = true /\ (str_len text <= max)%N /\
    exists k, bytes text = raw ++ concat (map piece_of (firstn k reads)).
Proof.
  intros Hraw Hne. revert raw Hraw. induction Hne as [|[alive event] reads Hp Hne IH]; intros raw Hraw; cbn [read_response_until].
  { split; [change (len_N []) with 0%N; lia|done]. }
  assert (Hend : utf8_valid raw = true -> utf8_valid (bytes (of_bytes raw)) = true /\ (str_len (of_bytes raw) <= max)%N /\
    exists k, bytes (of_bytes raw) = raw ++ concat (map piece_of (firstn k ((alive, event) :: reads)))).
  { intros Hu. rewrite str_len_bytes, bytes_of_bytes. split_and!; [done|done|]. exists 0. cbn. by rewrite app_nil_r. }
  destruct alive; [|by split]. destruct event as [piece| | |error].
  - specialize (Hp eq_refl). cbn in Hp. destruct (N.ltb_spec max (len_N (raw ++ piece))) as [|Hle]; [by split|].
    assert (Hlen : (1 <= len_N piece)%N) by (destruct piece; [done|rewrite len_N_cons; lia]).
    destruct (IH (raw ++ piece) Hle) as [IH1 IH2].
    assert (Hgo : ((max < len_N raw + len_N ((true, ReadBytes piece) :: reads))%N ->
        read_response_until max ready (raw ++ piece) reads <> None) /\
      forall text, read_response_until max ready (raw ++ piece) reads = Some (Returns (Ok text)) ->
        utf8_valid (bytes text) = true /\ (str_len text <= max)%N /\
        exists k, bytes text = raw ++ concat (map piece_of (firstn k ((true, ReadBytes piece) :: reads)))).
    { split.
      - intros Hm. apply IH1. rewrite len_N_app. rewrite len_N_cons in Hm. lia.
      - intros text (Hu & Hl & k & Hk)%IH2. split_and!; [done|done|]. exists (S k). cbn. by rewrite Hk, app_assoc. }
    destruct (utf8_valid (raw ++ piece)) eqn:Hu; [|done].
    destruct (ready (of_bytes (raw ++ piece))) as [ [|] |]; [|done|by split]. split; [done|].
    intros text [= <-]. rewrite str_len_bytes, bytes_of_bytes. split_and!; [done|done|]. exists 1. cbn. by rewrite app_nil_r.
  - split; [done|]. intros text. destruct (utf8_valid raw) eqn:Hu; [|done]. intros [= <-]. by apply Hend.
  - split; [by repeat case_match|]. intros text. destruct (utf8_valid raw) eqn:Hu; [|done].
    destruct (ready (of_bytes raw)) as [ [|] |]; [|done|done]. intros [= <-]. by apply Hend.
  - by split.
Qed.

(** Reading a response always ends, after at most as many reads as the limit has bytes, and
    one more; the text it returns is what was read up to some point, is valid UTF-8 and is
    within the limit. *)
Theorem reading_ends_within_limit max ready reads :
  Forall (fun read => snd read = ReadBytes (piece_of read) -> piece_of read <> []) reads ->
  ((max < len_N reads)%N -> read_response_until max ready [] reads <> None) /\
  forall text, read_response_until max ready [] reads = Some (Returns (Ok text)) ->
    utf8_valid (bytes text) = true /\ (str_len text <= max)%N /\
    exists k, bytes text = concat (map piece_of (firstn k reads)).
Proof.
  intros Hne. destruct (read_response_spec max ready [] reads ltac:(unfold len_N; cbn; lia) Hne) as [H1 H2].
  split; [|exact H2]. intros Hm. apply H1. unfold len_N at 1. cbn. lia.
Qed.

Definition sample_reads : list (bool * ReadEvent) :=
  [(true, ReadBytes (bytes "HTTP/1.1 204 No")); (true, ReadBytes (bytes " Content" ++ crlf ++ crlf)); (true, ReadEnd)].

Lemma reading_ends_within_limit_witness :
  read_response_until 8000 (fun _ => Returns false) [] sample_reads
  = Some (Returns (Ok ("HTTP/1.1 204 No Content" +:+ CRLF_text +:+ CRLF_text))) /\
  (str_len ("HTTP/1.1 204 No Content" +:+ CRLF_text +:+ CRLF_text) <= 8000)%N.
Proof.
  split; [vm_compute; reflexivity|].
  destruct (reading_ends_within_limit 8000 (fun _ => Returns false) sample_reads
    ltac:(unfold sample_reads; repeat (apply List.Forall_cons; [intros ?; discriminate|]); apply List.Forall_nil)) as [_ H].
  exact (proj1 (proj2 (H ("HTTP/1.1 204 No Content" +:+ CRLF_text +:+ CRLF_text) ltac:(vm_compute; reflexivity)))).
Defined.
