(* ===== verification/Diagnostics.v ===== *)
(** * Diagnostics of upstream servers (src/upstream/diagnostics.rs)

    What an upstream server wrote, before it is shown: bearer tokens and the values of
    assignments to sensitive keys are replaced, and the text is cut. Texts are split into
    characters, each the list of its bytes; which characters outside ASCII are letters or
    digits is the standard library's table and a parameter. *)

From Stdlib Require Import Ascii.
From S2P Require Import Prelude RustStr.

Definition STDERR_DIAGNOSTIC_MAX_LINES : N := 6.
Definition STDERR_DIAGNOSTIC_MAX_CHARS_PER_LINE : nat := 320.
Definition DIAGNOSTIC_REDACTION : string := "<redacted>".

Definition char : Type := list ascii.

(** [str::chars]: a byte and the continuation bytes that follow it. *)
Definition add_byte (c : ascii) (chars : list char) : list char :=
  match chars with
  | (d :: ch) :: rest => if cont_byte d then (c :: d :: ch) :: rest else [c] :: chars
  | _ => [c] :: chars
  end.

Definition chars_of (l : list ascii) : list char := fold_right add_byte [] l.

Definition is_whitespace (ch : char) : bool :=
  match ch with
  | [a] => ws1 a
  | [a; b] => ws2 a b
  | [a; b; c] => ws3 a b c
  | _ => false
  end.

Definition is_char (c : ascii) (ch : char) : bool := match ch with [a] => Ascii.eqb a c | _ => false end.

Definition separator (ch : char) : bool := is_char "=" ch || is_char ":" ch.
Definition quote (ch : char) : bool := is_char "'" ch || is_char "034" ch.
Definition value_end (ch : char) : bool :=
  is_whitespace ch || is_char "," ch || is_char ";" ch || is_char "|" ch || is_char ")" ch || is_char "}" ch.

Fixpoint span (p : char -> bool) (l : list char) : list char * list char :=
  match l with
  | c :: rest => if p c then let '(front, back) := span p rest in (c :: front, back) else ([], l)
  | [] => ([], [])
  end.

(** ** Bearer tokens *)

Definition skip_bearer_token (after : list ascii) : list ascii :=
  concat (snd (span (fun ch => negb (value_end ch)) (chars_of after))).

(** Every round takes a token away. *)
Fixpoint redact_bearer_loop (fuel : nat) (value : list ascii) : list ascii :=
  match fuel with
  | O => value
  | S fuel =>
      match split_once_str "bearer " (to_ascii_lowercase (of_bytes value)) with
      | None => value
      | Some (before, _) =>
          let start := String.length before in
          firstn start value ++ bytes "Bearer " ++ bytes DIAGNOSTIC_REDACTION
          ++ redact_bearer_loop fuel (skip_bearer_token (skipn (start + 7) value))
      end
  end.

Definition redact_bearer_tokens (value : string) : string :=
  of_bytes (redact_bearer_loop (String.length value) (bytes value)).

(** ** Sensitive assignments *)

Definition sensitive_markers : list string :=
  ["token"; "secret"; "password"; "passwd"; "api_key"; "apikey"; "access_key"; "accesskey"; "private_key";
   "privatekey"; "authorization"; "credential"; "credentials"].

Definition diagnostic_key_is_sensitive (key : list char) : bool :=
  let word c := is_ascii_alphanumeric c || Ascii.eqb c "_" in
  let kept := flat_map (fun ch => match ch with [c] => if word c then [c] else [] | _ => [] end) key in
  let normalized := to_ascii_lowercase (of_bytes kept) in
  negb (str_is_empty normalized) && existsb (fun marker => str_contains marker normalized) sensitive_markers.

Section redaction.
Context (other_alphanumeric : char -> bool).

Definition is_alphanumeric (ch : char) : bool :=
  match ch with
  | [c] => is_ascii_alphanumeric c
  | _ => other_alphanumeric ch
  end.

Definition key_char (ch : char) : bool :=
  is_alphanumeric ch || is_char "_" ch || is_char "-" ch || is_char "." ch.

(** The key that ends where [before] begins; [before] is read backwards. Only the last
    character may be a quote. *)
Fixpoint take_key (at_end : bool) (before : list char) : list char :=
  match before with
  | ch :: rest => if key_char ch || (quote ch && at_end) then ch :: take_key false rest else []
  | [] => []
  end.

Definition trim_chars (p : char -> bool) (l : list char) : list char :=
  rev (snd (span p (rev (snd (span p l))))).

Definition assignment_key (before : list char) : list char :=
  trim_chars quote (trim_chars is_whitespace (rev (take_key true (snd (span is_whitespace before))))).

(** The value at the front: what is skipped, and the rest. *)
Definition skip_sensitive_diagnostic_value (l : list char) : list char * list char :=
  match l with
  | [] => ([], [])
  | ch :: rest =>
      if quote ch then
        match span (fun c => negb (bool_decide (c = ch))) rest with
        | (inside, closing :: rest) => (ch :: inside ++ [closing], rest)
        | (inside, []) => (ch :: inside, [])
        end
      else span (fun c => negb (value_end c)) l
  end.

(** [before] holds the characters passed, the last first; a round passes at least one. *)
Fixpoint redact_loop (fuel : nat) (before rest : list char) : list char :=
  match fuel with
  | O => []
  | S fuel =>
      match rest with
      | [] => []
      | current :: rest =>
          if separator current && diagnostic_key_is_sensitive (assignment_key before) then
            let '(spaces, rest) := span is_whitespace rest in
            let '(skipped, rest) := skip_sensitive_diagnostic_value rest in
            current :: spaces ++ map (fun c => [c]) (bytes DIAGNOSTIC_REDACTION)
            ++ redact_loop fuel (rev skipped ++ rev spaces ++ current :: before) rest
          else current :: redact_loop fuel (current :: before) rest
      end
  end.

Definition redact_chars (l : list char) : list char := redact_loop (length l) [] l.

Definition redact_sensitive_assignments (value : string) : string :=
  of_bytes (concat (redact_chars (chars_of (bytes value)))).

Definition truncate_diagnostic_text (value : string) : string :=
  let chars := chars_of (bytes value) in
  if (length chars <=? STDERR_DIAGNOSTIC_MAX_CHARS_PER_LINE)%nat then value
  else of_bytes (concat (firstn STDERR_DIAGNOSTIC_MAX_CHARS_PER_LINE chars)) +:+ "…<truncated>".

Definition sanitize_upstream_diagnostic (value : string) : string :=
  truncate_diagnostic_text (redact_sensitive_assignments (redact_bearer_tokens value)).

(** [lines] is what the server's error output has ready. *)
Fixpoint stderr_lines (lines : list string) (kept : list string) : list string :=
  match lines with
  | [] => kept
  | line :: lines =>
      let trimmed := trim line in
      let kept := if str_is_empty trimmed then kept else kept ++ [sanitize_upstream_diagnostic trimmed] in
      if (STDERR_DIAGNOSTIC_MAX_LINES <=? len_N kept)%N then kept else stderr_lines lines kept
  end.

Definition stderr_suffix (lines : list string) : string :=
  match stderr_lines lines [] with
  | [] => EmptyString
  | lines => "; stderr: " +:+ join " | " lines
  end.

End redaction.

(** A Basic credential is not redacted: the value of the header ends at the space. *)
Theorem basic_credentials_are_shown other_alphanumeric :
  sanitize_upstream_diagnostic other_alphanumeric "Authorization: Basic dXNlcjpwYXNz"
  = "Authorization: <redacted> dXNlcjpwYXNz".
Proof. vm_compute. reflexivity. Qed.

(** A value that follows two keys is shown: the first key takes the second for its value. *)
Theorem value_after_two_keys_is_shown other_alphanumeric :
  sanitize_upstream_diagnostic other_alphanumeric "invalid credentials: password: hunter2"
  = "invalid credentials: <redacted> hunter2".
Proof. vm_compute. reflexivity. Qed.

(** ** Redacted values do not show *)

Lemma span_app p l k : Forall (fun c => p c = true) l ->
  span p (l ++ k) = (l ++ fst (span p k), snd (span p k)).
Proof.
  induction 1 as [|c l Hc Hl IH]; cbn [app span]; [by destruct (span p k)|].
  rewrite Hc, IH. done.
Qed.

Lemma span_stop p c l : p c = false -> span p (c :: l) = ([], c :: l).
Proof. intros H. cbn. by rewrite H. Qed.

Lemma span_eq p l : l = fst (span p l) ++ snd (span p l).
Proof. induction l as [|c l IH]; [done|]. cbn. destruct (p c); [|done]. destruct (span p l). cbn in *. by rewrite <- IH. Qed.

Lemma span_front p l : Forall (fun c => p c = true) (fst (span p l)).
Proof.
  induction l as [|c l IH]; cbn; [constructor|]. destruct (p c) eqn:E; [|constructor].
  destruct (span p l). by constructor.
Qed.

Lemma span_back p l c k : snd (span p l) = c :: k -> p c = false.
Proof.
  induction l as [|d l IH]; cbn; [done|]. destruct (p d) eqn:E; [by destruct (span p l)|]. by intros [= <- _].
Qed.

Lemma skip_value_eq l : l = fst (skip_sensitive_diagnostic_value l) ++ snd (skip_sensitive_diagnostic_value l).
Proof.
  destruct l as [|ch rest]; [done|]. unfold skip_sensitive_diagnostic_value. destruct (quote ch); [|apply span_eq].
  pose proof (span_eq (fun c => negb (bool_decide (c = ch))) rest) as H.
  destruct (span _ rest) as [inside [|closing k] ]; cbn in *; rewrite H; [by rewrite app_nil_r|].
  by rewrite <- !app_assoc.
Qed.

Lemma length_snd_span p l : length (snd (span p l)) <= length l.
Proof. rewrite (span_eq p l) at 2. rewrite length_app. lia. Qed.

Lemma length_snd_skip l : length (snd (skip_sensitive_diagnostic_value l)) <= length l.
Proof. rewrite (skip_value_eq l) at 2. rewrite length_app. lia. Qed.

Lemma separator_plain s : separator s = true -> is_whitespace s = false /\ quote s = false /\ value_end s = false.
Proof.
  unfold separator, is_char. destruct s as [|a [|b s] ]; [done| |done].
  intros [H|H]%orb_true_iff; apply Ascii.eqb_eq in H as ->; vm_compute; done.
Qed.

Lemma value_end_plain c : value_end c = true -> quote c = false /\ separator c = false.
Proof.
  unfold quote, separator, is_char. destruct c as [|a [|b c] ]; [done| |done].
  intros H. destruct (Ascii.eqb_spec a "'"); [by subst|]. destruct (Ascii.eqb_spec a "034"); [by subst|].
  destruct (Ascii.eqb_spec a "="); [by subst|]. destruct (Ascii.eqb_spec a ":"); [by subst|]. done.
Qed.

Section shown.
Context (other_alphanumeric : char -> bool).
Context (Hspace : forall ch, is_whitespace ch = true -> other_alphanumeric ch = false).

Lemma value_end_no_key c : value_end c = true -> key_char other_alphanumeric c = false.
Proof.
  unfold key_char, is_alphanumeric. intros H. destruct c as [|a [|b c] ]; [done| |].
  - unfold is_char. revert H. unfold value_end, is_whitespace, is_char, ws1. revert a.
    assert (Hall : forall a, (in_range 9 13 a || (code a =? 32)%N || Ascii.eqb a "," || Ascii.eqb a ";"
        || Ascii.eqb a "|" || Ascii.eqb a ")" || Ascii.eqb a "}") = true ->
      (is_ascii_alphanumeric a || Ascii.eqb a "_" || Ascii.eqb a "-" || Ascii.eqb a ".") = false).
    { intros [ [] [] [] [] [] [] [] [] ]; vm_compute; done. }
    exact Hall.
  - assert (Hw : is_whitespace (a :: b :: c) = true).
    { unfold value_end in H. cbn [is_char] in H. by rewrite !orb_false_r in H. }
    by rewrite Hspace.
Qed.

Lemma redact_loop_fuel f1 f2 before rest :
  length rest <= f1 -> length rest <= f2 ->
  redact_loop other_alphanumeric f1 before rest = redact_loop other_alphanumeric f2 before rest.
Proof.
  revert f2 before rest. induction f1 as [|f1 IH]; intros f2 before rest H1 H2.
  - destruct rest; [by destruct f2|cbn in H1; lia].
  - destruct rest as [|c rest]; [by destruct f2|]. destruct f2 as [|f2]; [cbn in H2; lia|]. cbn [redact_loop length] in *.
    destruct (separator c && _).
    + pose proof (length_snd_span is_whitespace rest) as Hl. destruct (span is_whitespace rest) as [spaces k].
      pose proof (length_snd_skip k) as Hk. destruct (skip_sensitive_diagnostic_value k) as [skipped k']. cbn in Hl, Hk.
      do 3 f_equal. apply IH; lia.
    + f_equal. apply IH; lia.
Qed.

(** The first character that is not a space is no separator. *)
Definition no_separator_next (l : list char) : Prop :=
  match snd (span is_whitespace l) with s :: _ => separator s = false | [] => True end.

(** Two pasts that look the same to the keys that follow. *)
Definition same_keys (b1 b2 rest : list char) : Prop :=
  exists x c r1 r2, b1 = x ++ c :: r1 /\ b2 = x ++ c :: r2 /\ value_end c = true /\
    (Exists (fun ch => is_whitespace ch = false) (x ++ [c]) \/ no_separator_next rest).

Lemma same_keys_key b1 b2 s rest :
  same_keys b1 b2 (s :: rest) -> separator s = true ->
  assignment_key other_alphanumeric b1 = assignment_key other_alphanumeric b2.
Proof.
  intros (x & c & r1 & r2 & -> & -> & Hc & Hw) Hs. unfold assignment_key. do 3 f_equal.
  assert (Hex : Exists (fun ch => is_whitespace ch = false) (x ++ [c])).
  { destruct Hw as [|Hn]; [done|]. unfold no_separator_next in Hn. rewrite span_stop in Hn.
    - cbn in Hn. by rewrite Hs in Hn.
    - by apply separator_plain in Hs as (? & ? & ?). }
  clear Hw. revert Hex. induction x as [|d x IH]; cbn [app].
  - intros Hex. inversion Hex as [? ? Hd|? ? Hd]; [|by inversion Hd]. subst. rewrite !span_stop by done. cbn [snd take_key].
    rewrite value_end_no_key by done. apply value_end_plain in Hc as [-> _]. done.
  - intros Hex. destruct (is_whitespace d) eqn:Ed.
    + cbn [span]. rewrite Ed. inversion Hex as [? ? Hd|? ? Hd]; [by rewrite Ed in Hd|]. subst. specialize (IH Hd).
      destruct (span is_whitespace (x ++ c :: r1)), (span is_whitespace (x ++ c :: r2)). exact IH.
    + rewrite !span_stop by done. cbn [snd].
      assert (Ht : forall at_end l, take_key other_alphanumeric at_end (l ++ c :: r1)
                     = take_key other_alphanumeric at_end (l ++ c :: r2)).
      { clear -Hspace Hc. intros at_end l. revert at_end. induction l as [|e l IH]; intros at_end; cbn [app take_key].
        - rewrite value_end_no_key by done. apply value_end_plain in Hc as [-> _]. done.
        - destruct (_ || _); [|done]. by rewrite IH. }
      change (d :: x ++ c :: r1) with ((d :: x) ++ c :: r1). rewrite Ht. done.
Qed.

Lemma redact_loop_same fuel b1 b2 rest :
  same_keys b1 b2 rest ->
  redact_loop other_alphanumeric fuel b1 rest = redact_loop other_alphanumeric fuel b2 rest.
Proof.
  revert b1 b2 rest. induction fuel as [|fuel IH]; intros b1 b2 rest Hs; [done|]. destruct rest as [|s rest]; [done|].
  cbn [redact_loop]. destruct (separator s) eqn:Es.
  - rewrite (same_keys_key b1 b2 s rest) by done. destruct Hs as (x & c & r1 & r2 & -> & -> & Hc & _).
    assert (Hnw : is_whitespace s = false) by (by apply separator_plain in Es as (? & ? & ?)). cbn [andb].
    destruct (diagnostic_key_is_sensitive _).
    + destruct (span is_whitespace rest) as [spaces k]. destruct (skip_sensitive_diagnostic_value k) as [skipped k'].
      do 3 f_equal. apply IH. exists (rev skipped ++ rev spaces ++ s :: x), c, r1, r2. split_and!; [| |done|left].
      * by rewrite <- !app_assoc.
      * by rewrite <- !app_assoc.
      * apply Exists_exists. exists s. split; [|done]. rewrite !elem_of_app. left. right. right. by left.
    + f_equal. apply IH. exists (s :: x), c, r1, r2. split_and!; [done|done|done|left]. by constructor.
  - cbn [andb]. f_equal. apply IH. destruct Hs as (x & c & r1 & r2 & -> & -> & Hc & Hw).
    exists (s :: x), c, r1, r2. split_and!; [done|done|done|].
    destruct (is_whitespace s) eqn:Ew; [|left; by constructor].
    destruct Hw as [Hw|Hw]; [left; by constructor 2|right].
    unfold no_separator_next in *. cbn [span] in Hw. rewrite Ew in Hw. by destruct (span is_whitespace rest).
Qed.

(** What follows a value. *)
Definition value_over (t : list char) : Prop :=
  match t with
  | [] => True
  | c :: _ => value_end c = true /\ (is_whitespace c = true -> no_separator_next t)
  end.

Definition plain_value (v : list char) : Prop :=
  v <> [] /\ Forall (fun c => value_end c = false /\ quote c = false) v.

Lemma skip_plain v t : plain_value v -> value_over t -> skip_sensitive_diagnostic_value (v ++ t) = (v, t).
Proof.
  intros [Hne Hv] Ht. destruct v as [|a v]; [done|]. cbn [app]. unfold skip_sensitive_diagnostic_value.
  inversion Hv as [|? ? [H1 H2] Hv']; subst. rewrite H2.
  change (a :: v ++ t) with ((a :: v) ++ t). rewrite span_app.
  - destruct t as [|c t]; [by rewrite app_nil_r|]. destruct Ht as [Hc _]. rewrite span_stop by (by rewrite Hc).
    by rewrite app_nil_r.
  - eapply Forall_impl; [exact Hv|]. intros c [-> _]. done.
Qed.

Lemma plain_no_space v t : plain_value v -> span is_whitespace (v ++ t) = ([], v ++ t).
Proof.
  intros [Hne Hv]. destruct v as [|a v]; [done|]. apply span_stop. inversion Hv as [|? ? [H1 _] _]; subst.
  unfold value_end in H1. destruct (is_whitespace a); [done|done].
Qed.

(** After the value: the past holds it, and does not matter. *)
Lemma redact_after v1 v2 before t :
  value_over t ->
  redact_loop other_alphanumeric (length t) (rev v1 ++ before) t
  = redact_loop other_alphanumeric (length t) (rev v2 ++ before) t.
Proof.
  destruct t as [|c t]; [done|]. intros [Hc Hw]. cbn [length redact_loop].
  pose proof (value_end_plain c Hc) as [_ Hns]. rewrite Hns. cbn [andb]. f_equal. apply redact_loop_same.
  exists [], c, (rev v1 ++ before), (rev v2 ++ before). split_and!; [done|done|done|].
  destruct (is_whitespace c) eqn:Ew; [|left; by constructor]. right. specialize (Hw eq_refl).
  unfold no_separator_next in *. cbn [span] in Hw. rewrite Ew in Hw. by destruct (span is_whitespace t).
Qed.

Lemma span_inside p l k : snd (span p l) <> [] -> span p (l ++ k) = (fst (span p l), snd (span p l) ++ k).
Proof.
  induction l as [|c l IH]; cbn [app span]; [done|]. destruct (p c); [|done].
  destruct (span p l) as [front back]. cbn [fst snd] in *. intros H. by rewrite (IH H).
Qed.

Lemma span_over p l k : snd (span p l) = [] -> span p (l ++ k) = (l ++ fst (span p k), snd (span p k)).
Proof.
  intros H. apply span_app. pose proof (span_front p l) as Hf. rewrite (span_eq p l) at 1. by rewrite H, app_nil_r.
Qed.

Lemma span_before p l c k : p c = false -> span p (l ++ c :: k) = (fst (span p l), snd (span p l) ++ c :: k).
Proof.
  intros Hc. destruct (snd (span p l)) eqn:E.
  - rewrite span_over by done. rewrite span_stop by done. cbn [fst snd app]. rewrite app_nil_r.
    rewrite (span_eq p l) at 1. by rewrite E, app_nil_r.
  - rewrite <- E. apply span_inside. by rewrite E.
Qed.

Section assignment.
Context (P spaces t : list char) (s : char).
Context (Hs : separator s = true).
Context (Hkey : diagnostic_key_is_sensitive (assignment_key other_alphanumeric (rev P)) = true).
Context (Hspaces : Forall (fun c => is_whitespace c = true) spaces).
Context (Hnear : spaces = [] \/ Forall (fun c => separator c = false) P).
Context (Ht : value_over t).

Lemma redact_at_key v f :
  plain_value v -> length (s :: spaces ++ v ++ t) <= f ->
  redact_loop other_alphanumeric f (rev P) (s :: spaces ++ v ++ t) =
  s :: spaces ++ map (fun c => [c]) (bytes DIAGNOSTIC_REDACTION)
  ++ redact_loop other_alphanumeric (length t) (rev v ++ rev spaces ++ s :: rev P) t.
Proof.
  intros Hv Hf. destruct f as [|f]; [cbn in Hf; lia|]. cbn [redact_loop length] in *.
  rewrite Hs, Hkey. cbn [andb]. rewrite !length_app in Hf. rewrite span_app, plain_no_space by done. cbn [fst snd].
  rewrite app_nil_r, skip_plain by done. do 3 f_equal. apply redact_loop_fuel; lia.
Qed.

(** Consumption that starts before the key's separator and reaches it covers the value. *)
Lemma skip_across v p :
  plain_value v -> match p with a :: _ => quote a = false | [] => True end ->
  snd (span (fun c => negb (value_end c)) p) = [] ->
  skip_sensitive_diagnostic_value (p ++ s :: v ++ t) = (p ++ s :: v, t).
Proof.
  intros Hv Ha Hp. destruct (separator_plain s Hs) as (_ & Hq & He).
  pose proof (skip_plain v t Hv Ht) as Hsk. destruct Hv as [Hne Hv]. destruct v as [|b v]; [done|].
  inversion Hv as [|? ? [_ Hb] _]; subst. cbn [app] in Hsk. unfold skip_sensitive_diagnostic_value in Hsk. rewrite Hb in Hsk.
  assert (Hspan : span (fun c => negb (value_end c)) (p ++ s :: (b :: v) ++ t) = (p ++ s :: b :: v, t)).
  { rewrite span_over by done. cbn [span]. rewrite He. cbn [negb app]. by rewrite Hsk. }
  unfold skip_sensitive_diagnostic_value. destruct p as [|a p]; cbn [app] in *; [by rewrite Hq|by rewrite Ha].
Qed.

Lemma skip_inside p k :
  match p with
  | a :: p' => if quote a then snd (span (fun c => negb (bool_decide (c = a))) p') <> []
               else snd (span (fun c => negb (value_end c)) p) <> []
  | [] => False
  end ->
  skip_sensitive_diagnostic_value (p ++ k)
  = (fst (skip_sensitive_diagnostic_value p), snd (skip_sensitive_diagnostic_value p) ++ k).
Proof.
  destruct p as [|a p]; [done|]. cbn [app]. unfold skip_sensitive_diagnostic_value. destruct (quote a).
  - intros H. rewrite span_inside by done. destruct (span _ p) as [inside [|closing rest] ]; [done|]. done.
  - intros H. change (a :: p ++ k) with ((a :: p) ++ k). by rewrite span_inside.
Qed.

Lemma skip_quoted v a p :
  plain_value v -> quote a = true -> snd (span (fun c => negb (bool_decide (c = a))) p) = [] ->
  exists tail rest, skip_sensitive_diagnostic_value ((a :: p) ++ s :: v ++ t) = ((a :: p) ++ s :: v ++ tail, rest) /\
    t = tail ++ rest /\ (rest = [] \/ exists front, tail = front ++ [a]) /\
    (tail, rest) = match span (fun c => negb (bool_decide (c = a))) t with
                   | (inside, closing :: rest) => (inside ++ [closing], rest)
                   | (inside, []) => (inside, [])
                   end.
Proof.
  intros [Hne Hv] Ha Hp. cbn [app]. unfold skip_sensitive_diagnostic_value. rewrite Ha.
  rewrite span_over by done. destruct (separator_plain s Hs) as (_ & Hq & _).
  change (s :: v ++ t) with ((s :: v) ++ t). rewrite span_app.
  - pose proof (span_eq (fun c => negb (bool_decide (c = a))) t) as Heq.
    pose proof (span_back (fun c => negb (bool_decide (c = a))) t) as Hback.
    destruct (span _ t) as [inside [|closing rest] ]; cbn [fst snd] in *.
    + exists inside, []. split_and!; [|exact Heq|by left|done]. cbn [app]. by rewrite <- ?app_assoc.
    + exists (inside ++ [closing]), rest. specialize (Hback closing rest eq_refl).
      apply negb_false_iff, bool_decide_eq_true in Hback as ->. split_and!; [|by rewrite <- app_assoc|right; eauto|done].
      by repeat (rewrite <- app_assoc; cbn [app]).
  - constructor.
    + apply negb_true_iff, bool_decide_eq_false. intros ->. by rewrite Hq in Ha.
    + eapply Forall_impl; [exact Hv|]. intros c [_ Hc]. apply negb_true_iff, bool_decide_eq_false.
      intros ->. by rewrite Hc in Ha.
Qed.

(** The value skipped for an earlier key: it ends before the separator of the key or covers
    the value after it. *)
Lemma redact_skipped v1 v2 p before f1 f2 :
  plain_value v1 -> plain_value v2 ->
  (forall p' before', length p' <= length p -> rev P = rev p' ++ before' ->
     redact_loop other_alphanumeric f1 before' (p' ++ s :: v1 ++ t)
     = redact_loop other_alphanumeric f2 before' (p' ++ s :: v2 ++ t)) ->
  rev P = rev p ++ before -> length t <= f1 -> length t <= f2 ->
  let skip1 := skip_sensitive_diagnostic_value (p ++ s :: v1 ++ t) in
  let skip2 := skip_sensitive_diagnostic_value (p ++ s :: v2 ++ t) in
  redact_loop other_alphanumeric f1 (rev (fst skip1) ++ before) (snd skip1)
  = redact_loop other_alphanumeric f2 (rev (fst skip2) ++ before) (snd skip2).
Proof.
  intros H1 H2 IH HP Hf1 Hf2. cbv zeta.
  destruct p as [|a p].
  - rewrite !(skip_across _ []) by done. cbn [fst snd app rev]. rewrite <- !app_assoc.
    rewrite (redact_loop_fuel f1 (length t)), (redact_loop_fuel f2 (length t)) by lia. by apply redact_after.
  - destruct (quote a) eqn:Ea.
    + destruct (snd (span (fun c => negb (bool_decide (c = a))) p)) as [|b k] eqn:Ek.
      * destruct (skip_quoted v1 a p H1 Ea Ek) as (tail & rest & Hk1 & Htt & Hor & Hval).
        destruct (skip_quoted v2 a p H2 Ea Ek) as (tail2 & rest2 & Hk2 & _ & _ & Hval2). rewrite <- Hval in Hval2.
        injection Hval2 as -> ->. rewrite Hk1, Hk2. cbn [fst snd]. destruct Hor as [-> |[front ->] ].
        { by destruct f1, f2. }
        destruct front as [|c front]; rewrite Htt in Ht.
        { destruct Ht as [Hc _]. apply value_end_plain in Hc as [Hc _]. by rewrite Hc in Ea. }
        assert (Hpast : forall v, rev ((a :: p) ++ s :: v ++ (c :: front) ++ [a]) ++ before
                  = (a :: rev front) ++ c :: rev ((a :: p) ++ s :: v) ++ before).
        { intros v. change ((a :: p) ++ s :: v ++ (c :: front) ++ [a]) with ((a :: p) ++ (s :: v) ++ (c :: front) ++ [a]).
          rewrite !rev_app_distr. cbn [rev app]. by repeat (rewrite <- app_assoc; cbn [app]). }
        rewrite !Hpast. rewrite (redact_loop_fuel f1 (length rest)), (redact_loop_fuel f2 (length rest))
          by (rewrite Htt, !length_app in Hf1, Hf2; lia).
        apply redact_loop_same. eexists (a :: rev front), c, _, _. split_and!; [done|done|by destruct Ht|left].
        constructor. destruct (is_whitespace a) eqn:Ew; [|done]. exfalso.
        assert (Hve : value_end a = true) by (unfold value_end; by rewrite Ew).
        apply value_end_plain in Hve as [Hve _]. by rewrite Hve in Ea.
      * rewrite !skip_inside by (rewrite Ea, Ek; done). cbn [fst snd]. apply IH; [apply length_snd_skip|].
        rewrite (skip_value_eq (a :: p)) in HP at 1. rewrite HP, rev_app_distr, <- app_assoc. done.
    + destruct (snd (span (fun c => negb (value_end c)) (a :: p))) as [|b k] eqn:Ek.
      * rewrite !skip_across by done. cbn [fst snd]. rewrite !rev_app_distr. cbn [rev]. rewrite <- !app_assoc.
        rewrite (redact_loop_fuel f1 (length t)), (redact_loop_fuel f2 (length t)) by lia. by apply redact_after.
      * rewrite !skip_inside by (rewrite Ea, Ek; done). cbn [fst snd]. apply IH; [apply length_snd_skip|].
        rewrite (skip_value_eq (a :: p)) in HP at 1. rewrite HP, rev_app_distr, <- app_assoc. done.
Qed.

(** The whole scan, from any point before the separator of the key. *)
Lemma redact_scan v1 v2 n p before f1 f2 :
  plain_value v1 -> plain_value v2 -> length p <= n -> rev P = rev p ++ before ->
  length (p ++ s :: spaces ++ v1 ++ t) <= f1 -> length (p ++ s :: spaces ++ v2 ++ t) <= f2 ->
  redact_loop other_alphanumeric f1 before (p ++ s :: spaces ++ v1 ++ t) = redact_loop other_alphanumeric f2 before (p ++ s :: spaces ++ v2 ++ t).
Proof.
  intros H1 H2. revert p before f1 f2. induction n as [|n IH]; intros p before f1 f2 Hn HP Hf1 Hf2.
  - destruct p as [|c p]; [|cbn in Hn; lia]. cbn [rev app] in *. subst before. rewrite !redact_at_key by done.
    do 3 f_equal. by apply redact_after.
  - destruct p as [|c p]; [by apply (IH [] before); [cbn; lia|..]|].
    destruct f1 as [|f1]; [cbn in Hf1; lia|]. destruct f2 as [|f2]; [cbn in Hf2; lia|].
    cbn [length app redact_loop rev] in *. rewrite <- app_assoc in HP. cbn [app] in HP.
    destruct (separator c && _) eqn:Esens; [|f_equal; apply IH; [lia|done|lia|lia]].
    apply andb_true_iff in Esens as [Ec _]. destruct Hnear as [-> |Hno].
    + cbn [app] in *. destruct (separator_plain s Hs) as (Hsw & Hsq & _).
      pose proof (length_snd_span is_whitespace p) as Hlp. rewrite !span_before by done.
      pose proof (span_eq is_whitespace p) as Hp.
      destruct (span is_whitespace p) as [sp p2]. cbn [fst snd] in *.
      pose proof (redact_skipped v1 v2 p2 (rev sp ++ c :: before) f1 f2 H1 H2) as Hk. cbv zeta in Hk.
      destruct (skip_sensitive_diagnostic_value (p2 ++ s :: v1 ++ t)) as [k1 r1].
      destruct (skip_sensitive_diagnostic_value (p2 ++ s :: v2 ++ t)) as [k2 r2]. cbn [fst snd] in Hk.
      do 3 f_equal. apply Hk.
      * intros p' before' Hl Hb. rewrite length_app in *. cbn [length] in *. rewrite length_app in *.
        apply IH; [lia|done|rewrite !length_app; cbn [length]; rewrite length_app; lia..].
      * rewrite HP, Hp, rev_app_distr, <- app_assoc. done.
      * rewrite !length_app in Hf1. cbn [length] in Hf1. rewrite !length_app in Hf1. lia.
      * rewrite !length_app in Hf2. cbn [length] in Hf2. rewrite !length_app in Hf2. lia.
    + exfalso. assert (Hin : c ∈ P). { rewrite <- (rev_involutive P), HP, rev_app_distr, rev_involutive. cbn [rev].
        rewrite !elem_of_app. left. right. by left. }
      rewrite Forall_forall in Hno. by rewrite (Hno c Hin) in Ec.
Qed.

End assignment.

End shown.

(** The value of a sensitive assignment does not show: when the key before a separator is
    sensitive, the redacted text is the same whatever plain value follows, and so the value
    cannot be told from it. The value follows the separator directly, or after spaces if no
    separator comes earlier in the text. *)
Theorem sensitive_values_do_not_show other_alphanumeric P s spaces v1 v2 t :
  (forall ch, is_whitespace ch = true -> other_alphanumeric ch = false) ->
  diagnostic_key_is_sensitive (assignment_key other_alphanumeric (rev P)) = true -> separator s = true ->
  Forall (fun c => is_whitespace c = true) spaces -> spaces = [] \/ Forall (fun c => separator c = false) P ->
  plain_value v1 -> plain_value v2 -> value_over t ->
  redact_chars other_alphanumeric (P ++ s :: spaces ++ v1 ++ t)
  = redact_chars other_alphanumeric (P ++ s :: spaces ++ v2 ++ t).
Proof.
  intros Hsp Hkey Hs Hspaces Hnear H1 H2 Ht. unfold redact_chars.
  eapply redact_scan with (n := length P); try done. by rewrite app_nil_r.
Qed.

Lemma sensitive_values_do_not_show_witness :
  redact_chars (fun _ => false) (chars_of (bytes "login failed: api-key=s3cr3t, retry in 5s"))
  = redact_chars (fun _ => false) (chars_of (bytes "login failed: api-key=hunter22, retry in 5s")).
Proof.
  apply (sensitive_values_do_not_show (fun _ => false) (chars_of (bytes "login failed: api-key")) ["="%char] []
    (chars_of (bytes "s3cr3t")) (chars_of (bytes "hunter22")) (chars_of (bytes ", retry in 5s"))).
  - done.
  - vm_compute. reflexivity.
  - vm_compute. reflexivity.
  - constructor.
  - by left.
  - split; [vm_compute; discriminate|]. vm_compute. repeat constructor.
  - split; [vm_compute; discriminate|]. vm_compute. repeat constructor.
  - vm_compute. split; [reflexivity|discriminate].
Defined.

(** ** Bounds *)

Lemma concat_chars_of l : concat (chars_of l) = l.
Proof.
  induction l as [|c l IH]; [done|]. cbn [chars_of fold_right]. change (fold_right add_byte [] l) with (chars_of l).
  unfold add_byte. destruct (chars_of l) as [|[|d ch] rest] eqn:E.
  - cbn in *. by rewrite <- IH.
  - cbn in *. by rewrite <- IH.
  - destruct (cont_byte d); cbn in *; by rewrite <- IH.
Qed.

Lemma stderr_lines_bound other_alphanumeric lines kept :
  (len_N kept < 6)%N -> (len_N (stderr_lines other_alphanumeric lines kept) <= 6)%N.
Proof.
  revert kept. induction lines as [|line lines IH]; intros kept Hk; cbn [stderr_lines]; [lia|].
  set (kept' := if str_is_empty (trim line) then kept else _).
  assert (Hk' : (len_N kept' <= 6)%N).
  { unfold kept'. destruct (str_is_empty _); [lia|]. rewrite len_N_app, len_N_cons. change (len_N []) with 0%N. lia. }
  destruct (N.leb_spec STDERR_DIAGNOSTIC_MAX_LINES (len_N kept')) as [|Hlt]; [done|]. by apply IH.
Qed.

(** A diagnostic shows at most 320 characters of what a server wrote, and of its error lines
    at most six. *)
Theorem diagnostics_bounded other_alphanumeric lines value :
  (len_N (stderr_lines other_alphanumeric lines []) <= 6)%N /\
  exists kept suffix, length kept <= 320 /\ (suffix = EmptyString \/ suffix = "…<truncated>") /\
    sanitize_upstream_diagnostic other_alphanumeric value = of_bytes (concat kept) +:+ suffix.
Proof.
  split; [by apply stderr_lines_bound|]. unfold sanitize_upstream_diagnostic, truncate_diagnostic_text.
  set (text := redact_sensitive_assignments _ _).
  destruct (Nat.leb_spec (length (chars_of (bytes text))) STDERR_DIAGNOSTIC_MAX_CHARS_PER_LINE) as [Hle|_].
  - exists (chars_of (bytes text)), EmptyString. split_and!; [exact Hle|by left|].
    by rewrite concat_chars_of, of_bytes_bytes, append_empty_r.
  - eexists (firstn _ (chars_of (bytes text))), _. split_and!; [|by right|reflexivity].
    rewrite length_firstn. unfold STDERR_DIAGNOSTIC_MAX_CHARS_PER_LINE. lia.
Qed.
