(* ===== verification/HttpFlow.v ===== *)
(** * Conversations with HTTP upstream servers (src/upstream/http_runtime.rs, src/upstream.rs)

    An MCP session over HTTP: initialize, the initialized notification, the requests and the
    closing DELETE, under one deadline. A flow reads the clock and exchanges messages, both
    given by the number of the step, and records what it sends. *)

From Stdlib Require Import Ascii.
From S2P Require Import Prelude RustStr BTree Json TextUtils McpProtocol HttpProbe ServerConfig ToolPolicy ToolCache.
From S2P Require Import SessionPool LeaseRuntime HttpUpstream Diagnostics.

Record UpstreamHttpResponse := mkUpstreamResponse {
  up_status : N;
  up_content_type : string;
  up_session_id : option string;
  up_body : string
}.

(** The requests sent, with the session and version in their headers and their timeout, and
    the responses that came back. *)
Inductive HttpEvent :=
| Posted (payload : JsonValue) (session : option string) (version : string) (timeout : N)
| Answered (response : UpstreamHttpResponse)
| Ended (session version : string) (request : option string) (timeout : N).

(** ** Flows *)

Record FlowState := mkFlow { steps : nat; trace : list HttpEvent }.

Definition flow (A : Type) : Type := FlowState -> FlowState * outcome (result A string).

Definition lift {A} (r : result A string) : flow A := fun st => (st, Returns r).
Definition throw {A} (error : string) : flow A := lift (Err error).

Definition bind {A B} (m : flow A) (k : A -> flow B) : flow B := fun st =>
  match m st with
  | (st, Returns (Ok a)) => k a st
  | (st, Returns (Err error)) => (st, Returns (Err error))
  | (st, Panics) => (st, Panics)
  end.

(** The result of a closure, to be looked at. *)
Definition attempt {A} (m : flow A) : flow (result A string) := fun st =>
  match m st with
  | (st, Returns r) => (st, Returns (Ok r))
  | (st, Panics) => (st, Panics)
  end.

Definition emit (e : HttpEvent) : flow unit := fun st =>
  (mkFlow (steps st) (trace st ++ [e]), Returns (Ok tt)).

Notation "x ←! m ;; k" := (bind m (fun x => k)) (at level 100, m at next level, right associativity) : mcpace_scope.

(** ** Answers *)

Definition jsonrpc_request (id : Z) (method : string) (params : option JsonValue) : JsonValue :=
  json_object
    ([("jsonrpc", json_string "2.0"); ("id", json_number_i64 id); ("method", json_string method)]
     ++ match params with Some params => [("params", params)] | None => [] end).

Definition batch_tool_call_error (server_name : string) (completed total : N) (error : string) : string :=
  "upstream server '" +:+ server_name +:+ "' batch stopped at call " +:+ N_to_string (sat_add USIZE_MAX completed 1)
  +:+ " of " +:+ N_to_string total +:+ " after " +:+ N_to_string completed
  +:+ " completed call(s); earlier calls may already have side effects: " +:+ error.

Definition server_info_field (server_info : list (string * JsonValue)) (field : string) : bool :=
  match bt_get field server_info ≫= as_str with
  | Some value => negb (str_is_empty (trim value))
  | None => false
  end.

Definition negotiated_protocol_version (server_name : string) (initialize_result : JsonValue) : result string string :=
  let prefix := "upstream server '" +:+ server_name +:+ "' " in
  version ←? ok_or (trimmed_non_empty (string_at_path initialize_result ["protocolVersion"]))
    (prefix +:+ "initialize result did not contain protocolVersion") ;;
  if negb (is_supported_protocol_version version) then
    Err (prefix +:+ "selected unsupported MCP protocol version '" +:+ version +:+ "'")
  else
    match value_at_path initialize_result ["capabilities"] with
    | Some (JObject _) =>
        server_info ←? ok_or (object_at_path initialize_result ["serverInfo"])
          (prefix +:+ "initialize result must contain a serverInfo object") ;;
        match List.find (fun field => negb (server_info_field server_info field)) ["name"; "version"] with
        | Some field => Err (prefix +:+ "initialize serverInfo must contain non-empty '" +:+ field +:+ "'")
        | None => Ok version
        end
    | _ => Err (prefix +:+ "initialize result must contain a capabilities object")
    end.

Section answers.
Context `{SerdeJson} (other_alphanumeric : char -> bool).

Definition parse_http_response (raw : string) : outcome (result UpstreamHttpResponse string) :=
  match parse_response raw with
  | Err error => Returns (Err ("HTTP upstream returned a malformed response: " +:+ error))
  | Ok parsed =>
      map_outcome (fun body =>
          body ←? map_err (fun error => "failed to decode HTTP upstream response body: " +:+ error) body ;;
          if utf8_valid body then
            Ok (mkUpstreamResponse (HttpProbe.status parsed) (content_type parsed)
                  (response_header parsed "mcp-session-id") (of_bytes body))
          else Err "HTTP upstream returned a non-UTF-8 body")
        (body_bytes parsed)
  end.

Definition json_body_from_response (response : UpstreamHttpResponse) (expected_id : option Z) : result string string :=
  if str_contains "text/event-stream" (to_ascii_lowercase (up_content_type response)) then
    ok_or (sse_json_rpc_body (up_body response) expected_id)
      "HTTP upstream SSE response did not contain a matching JSON-RPC response"
  else Ok (trim (up_body response)).

Definition jsonrpc_result (server_name method : string) (expected_id : Z) (response : UpstreamHttpResponse)
    : result JsonValue string :=
  let prefix := "HTTP upstream server '" +:+ server_name +:+ "' returned " in
  if negb ((200 <=? up_status response) && (up_status response <? 300))%N then
    let auth_hint :=
      if ((up_status response =? 401) || (up_status response =? 403))%N
      then " Authentication is required; configure an explicit --header NAME=VALUE (environment placeholders are supported) or use an OAuth-capable stdio adapter. MCPace does not perform upstream OAuth authorization flows."
      else EmptyString in
    Err (prefix +:+ "status " +:+ N_to_string (up_status response) +:+ " for " +:+ method +:+ ": "
         +:+ sanitize_upstream_diagnostic other_alphanumeric (trim (up_body response)) +:+ auth_hint)
  else
    body ←? json_body_from_response response (Some expected_id) ;;
    value ←? map_err (fun error => prefix +:+ "invalid JSON for " +:+ method +:+ ": " +:+ error) (parse_str body) ;;
    _ ←? map_err (fun error => prefix +:+ "a malformed JSON-RPC response for " +:+ method +:+ ": "
                               +:+ display_protocol_error error) (validate_response_envelope value expected_id) ;;
    match value_at_path value ["error"] with
    | Some error =>
        Err (prefix +:+ "JSON-RPC error for " +:+ method +:+ ": "
             +:+ sanitize_upstream_diagnostic other_alphanumeric (to_compact_string error))
    | None => Ok (unwrap_or (value_at_path value ["result"]) JNull) (* [expect]: it is there, [validated_result] *)
    end.

End answers.

(** The [expect] of [jsonrpc_result]: a validated response without an error has a result. *)
Lemma validated_result value id :
  validate_response_envelope value id = Ok tt -> value_at_path value ["error"] = None ->
  exists r, value_at_path value ["result"] = Some r.
Proof.
  intros Hv He. destruct value as [| | | | |object]; try done. cbn [value_at_path json_get] in He |- *.
  unfold validate_response_envelope in Hv. cbn [as_object ok_or] in Hv.
  destruct (require_version _ _); [|done]. destruct (id_matches object id); [|done].
  unfold bt_contains in Hv. destruct (bt_get "result" object) as [r|]; [by exists r|].
  by destruct (bt_get "error" object).
Qed.

(** ** Complete responses *)

Lemma generic_ready_body `{SerdeJson} r :
  is_event_stream r = false -> generic_http_body_ready r = Returns true -> exists b, body_bytes r = Returns (Ok b).
Proof.
  unfold generic_http_body_ready, body_bytes. intros ->. destruct (is_chunked r).
  - destruct (decode_chunked_body _) as [ [b|e] |]; cbn; [by exists b|done|done].
  - intros [= Hr]. destruct (content_length r) as [n|]; [|eauto]. apply N.leb_le in Hr.
    rewrite (proj2 (N.ltb_ge _ _) Hr). eauto.
Qed.

(** Reading stops early only when the answer is there: a response found complete for an id,
    with a status that announces a body, is decoded without an error to a JSON value with
    that id. *)
Theorem complete_responses_carry_the_answer `{SerdeJson} raw id r :
  parse_response raw = Ok r -> mcp_json_rpc_response_ready raw (Some id) = Returns true ->
  (200 <= HttpProbe.status r < 300)%N -> (HttpProbe.status r <> 202 /\ HttpProbe.status r <> 204)%N ->
  exists response body value,
    parse_http_response raw = Returns (Ok response) /\ json_body_from_response response (Some id) = Ok body /\
    parse_str body = Ok value /\ (value_at_path value ["id"] ≫= as_i64) = Some id.
Proof.
  intros Hp. unfold mcp_json_rpc_response_ready, parse_http_response. rewrite Hp. intros Hr Hs Hn.
  assert (Hid : forall value, json_response_id_matches value (Some id) = true ->
    (value_at_path value ["id"] ≫= as_i64) = Some id).
  { intros value. unfold json_response_id_matches. destruct (_ ≫= _) as [i|]; [|done]. by intros ->%Z.eqb_eq. }
  destruct (_ || _) eqn:E1 in Hr; [rewrite !orb_true_iff, !N.eqb_eq in E1; lia|].
  destruct (negb _) eqn:E2 in Hr; [rewrite negb_true_iff, andb_false_iff, N.leb_gt, N.ltb_ge in E2; lia|].
  destruct (is_event_stream r) eqn:Ee.
  - unfold utf8_body in Hr. destruct (body_bytes r) as [ [b|e] |]; cbn [map_outcome] in Hr; [|done|done].
    destruct (utf8_valid b) eqn:Eu; [|done]. injection Hr as Hr. change (Some (of_bytes b) ≫= ?f) with (f (of_bytes b)) in Hr.
    destruct (sse_json_rpc_body (of_bytes b) (Some id)) as [data|] eqn:Ed; [|done].
    cbn [map_outcome map_err]. rewrite Eu. unfold sse_json_rpc_body in Ed. pose proof (find_some _ _ Ed) as [_ Hm].
    unfold event_matches in Hm. destruct (str_is_empty data); [done|].
    destruct (parse_str data) as [value|] eqn:Ev; [|done].
    eexists _, data, value. split_and!; [done| |done|by apply Hid].
    unfold json_body_from_response. cbn [up_content_type up_body]. unfold is_event_stream in Ee. rewrite Ee.
    unfold sse_json_rpc_body. by rewrite Ed.
  - destruct (generic_http_body_ready r) as [ [|] |] eqn:Eg; [|done|done].
    destruct (generic_ready_body r Ee Eg) as [b Eb]. rewrite Eb in Hr |- *. cbn [map_outcome map_err] in *.
    injection Hr as Hr. apply andb_true_iff in Hr as [Eu Hr]. rewrite Eu.
    destruct (parse_str (trim (of_bytes b))) as [value|] eqn:Ev; [|done].
    eexists _, (trim (of_bytes b)), value. split_and!; [done| |done|by apply Hid].
    unfold json_body_from_response. cbn [up_content_type up_body]. unfold is_event_stream in Ee. by rewrite Ee.
Qed.

(** A parser that knows one message. *)
Definition one_message_serde : SerdeJson := {|
  serde_number := N;
  number_parse := parse_u64;
  number_print := N_to_string;
  print_compact := fun _ => EmptyString;
  print_pretty := fun _ => EmptyString;
  parse_text := fun text =>
    if String.eqb text "{id:2}" then Ok (SObject [("id", SNumber 2%N)]) else Err "unexpected text"
|}.

Definition sample_event_response : string :=
  "HTTP/1.1 200 OK" +:+ CRLF_text +:+ "Content-Type: text/event-stream" +:+ CRLF_text +:+ CRLF_text
  +:+ "event: message" +:+ CRLF_text +:+ "data: {id:2}" +:+ CRLF_text +:+ CRLF_text.

Lemma complete_responses_carry_the_answer_witness :
  exists response body value,
    parse_http_response sample_event_response = Returns (Ok response) /\
    json_body_from_response (H := one_message_serde) response (Some 2%Z) = Ok body /\
    parse_str (H := one_message_serde) body = Ok value /\ (value_at_path value ["id"] ≫= as_i64) = Some 2%Z.
Proof.
  eapply (complete_responses_carry_the_answer (H := one_message_serde) sample_event_response 2).
  - vm_compute. reflexivity.
  - vm_compute. reflexivity.
  - vm_compute. split; [discriminate|reflexivity].
  - split; vm_compute; discriminate.
Defined.

(** ** Conversations *)

Record HttpUpstreamSession := mkUpstreamSession {
  us_target : ParsedHttpUrl;
  us_agent : bool;
  us_session_id : option string;
  us_version : string
}.

Definition initialize_params : JsonValue :=
  json_object
    [("protocolVersion", json_string CURRENT_PROTOCOL_VERSION);
     ("capabilities", empty_object);
     ("clientInfo", json_object [("name", json_string "mcpace-upstream-http-bridge");
                                 ("version", json_string PACKAGE_VERSION)])].

Definition initialize_message : JsonValue := jsonrpc_request INITIALIZE_ID "initialize" (Some initialize_params).

Definition initialized_message : JsonValue :=
  json_object [("jsonrpc", json_string "2.0"); ("method", json_string "notifications/initialized")].

(** [METHOD_ID.saturating_add(index as i64)]. *)
Definition request_id_at (index : N) : Z := Z.min (METHOD_ID + Z.of_N index) I64_MAX.

Section conversation.
Context `{SerdeJson} (other_alphanumeric : char -> bool).
Context (clock : nat -> N).
Context (raw_jsonrpc_response : nat -> string -> N -> string -> N -> option Z -> result string string).
Context (https_post : nat -> string -> string -> option string -> string -> list (string * string) -> N ->
                      option Z -> result UpstreamHttpResponse string).

Definition now : flow N := fun st => (mkFlow (S (steps st)) (trace st), Returns (Ok (clock (steps st)))).

Definition exchange (answer : nat -> outcome (result UpstreamHttpResponse string)) : flow UpstreamHttpResponse :=
  fun st =>
    let a := answer (steps st) in
    (mkFlow (S (steps st)) (trace st ++ match a with Returns (Ok response) => [Answered response] | _ => [] end), a).

Definition remaining_http_timeout (deadline : N) (server_name phase : string) : flow N :=
  t ←! now ;;
  if (t <? deadline)%N then lift (Ok (deadline - t)%N)
  else throw ("timed out waiting for HTTP upstream server '" +:+ server_name +:+ "' during " +:+ phase).

Definition post_json (target : ParsedHttpUrl) (payload : JsonValue) (session_id : option string)
    (protocol_version : string) (timeout : N) (headers : list (string * string)) (agent : bool)
    : flow UpstreamHttpResponse :=
  let expected_id := value_at_path payload ["id"] ≫= as_i64 in
  let body := to_compact_string payload in
  let posted := emit (Posted payload session_id protocol_version timeout) in
  _ ←! lift (validate_configured_headers headers) ;;
  if secure target then
    if negb agent then throw "HTTPS agent is unavailable"
    else if match session_id with Some id => negb (valid_http_header_value id) | None => false end
    then throw "HTTPS upstream returned an invalid MCP session id header"
    else
      _ ←! posted ;;
      exchange (fun i => Returns (https_post i (target_url target) body session_id protocol_version headers timeout expected_id))
  else
    request ←! lift (plain_post target body session_id protocol_version headers) ;;
    _ ←! posted ;;
    exchange (fun i =>
      match raw_jsonrpc_response i (target_host target) (target_port target) request timeout expected_id with
      | Err error => Returns (Err ("HTTP upstream request failed: " +:+ error))
      | Ok raw => parse_http_response raw
      end).

Definition terminate_http_session (target : ParsedHttpUrl) (session_id : option string) (protocol_version : string)
    (timeout : N) (headers : list (string * string)) : flow unit :=
  match opt_filter valid_http_header_value session_id with
  | None => lift (Ok tt)
  | Some session_id =>
      emit (Ended session_id protocol_version
              (if secure target then None else Some (plain_delete target session_id protocol_version headers))
              (N.min timeout 2000))
  end.

Definition terminate_http_session_before_deadline (target : ParsedHttpUrl) (session_id : option string)
    (protocol_version : string) (deadline : N) (headers : list (string * string)) : flow unit :=
  t ←! now ;;
  if (deadline <? t)%N then lift (Ok tt)
  else terminate_http_session target session_id protocol_version (deadline - t)%N headers.

Definition initialize_http_session (server : UpstreamServerConfig) (deadline : N) : flow HttpUpstreamSession :=
  url ←! lift (ok_or (url server) ("HTTP upstream server '" +:+ name server +:+ "' has no url configured")) ;;
  target ←! lift (parse_http_url url) ;;
  initial_timeout ←! remaining_http_timeout deadline (name server) "initialize" ;;
  let agent := secure target in
  initialize_response ←! post_json target initialize_message None CURRENT_PROTOCOL_VERSION initial_timeout
                           (headers server) agent ;;
  let session_id := up_session_id initialize_response in
  let close version := terminate_http_session_before_deadline target session_id version deadline (headers server) in
  match jsonrpc_result other_alphanumeric (name server) "initialize" INITIALIZE_ID initialize_response with
  | Err error => _ ←! close CURRENT_PROTOCOL_VERSION ;; throw error
  | Ok initialize_result =>
      match negotiated_protocol_version (name server) initialize_result with
      | Err error => _ ←! close CURRENT_PROTOCOL_VERSION ;; throw error
      | Ok protocol_version =>
          timeout ←! remaining_http_timeout deadline (name server) "notifications/initialized" ;;
          initialized_response ←! attempt (post_json target initialized_message session_id protocol_version timeout
                                             (headers server) agent) ;;
          match initialized_response with
          | Ok response =>
              if ((200 <=? up_status response) && (up_status response <? 300))%N
              then lift (Ok (mkUpstreamSession target agent session_id protocol_version))
              else
                _ ←! close protocol_version ;;
                throw ("HTTP upstream server '" +:+ name server +:+ "' returned status "
                       +:+ N_to_string (up_status response) +:+ " for notifications/initialized")
          | Err error => _ ←! close protocol_version ;; throw error
          end
      end
  end.

(** Runs a closure in a session and closes the session, whatever the closure returned. *)
Definition in_http_session {A} (server : UpstreamServerConfig) (deadline : N) (closure : HttpUpstreamSession -> flow A)
    : flow A :=
  session ←! initialize_http_session server deadline ;;
  result ←! attempt (closure session) ;;
  _ ←! terminate_http_session_before_deadline (us_target session) (us_session_id session) (us_version session)
         deadline (headers server) ;;
  lift result.

Definition post_in_session (server : UpstreamServerConfig) (session : HttpUpstreamSession) (payload : JsonValue)
    (timeout : N) : flow UpstreamHttpResponse :=
  post_json (us_target session) payload (us_session_id session) (us_version session) timeout (headers server)
    (us_agent session).

Definition run_http_request (server : UpstreamServerConfig) (method : string) (params : option JsonValue)
    (timeout : N) : flow JsonValue :=
  start ←! now ;;
  let deadline := (start + timeout)%N in
  in_http_session server deadline (fun session =>
    remaining ←! remaining_http_timeout deadline (name server) method ;;
    response ←! post_in_session server session (jsonrpc_request METHOD_ID method params) remaining ;;
    lift (jsonrpc_result other_alphanumeric (name server) method METHOD_ID response)).

(** One page per round: [UPSTREAM_TOOL_LIST_MAX_PAGES] rounds suffice. *)
Fixpoint http_pages (fuel : nat) (server : UpstreamServerConfig) (deadline : N) (session : HttpUpstreamSession)
    (pagination : ToolListPagination) (cursor : option string) (page : N) : flow JsonValue :=
  match fuel with
  | O => throw "out of fuel"
  | S fuel =>
      let request_id := request_id_at page in
      let params := option_map (fun cursor => json_object [("cursor", json_string cursor)]) cursor in
      timeout ←! remaining_http_timeout deadline (name server) "tools/list pagination" ;;
      response ←! post_in_session server session (jsonrpc_request request_id "tools/list" params) timeout ;;
      page_result ←! lift (jsonrpc_result other_alphanumeric (name server) "tools/list" request_id response) ;;
      let '(pagination, next) := add_page (name server) page_result pagination in
      cursor ←! lift next ;;
      match cursor with
      | None => lift (Ok (pagination_finish pagination))
      | Some cursor => http_pages fuel server deadline session pagination (Some cursor) (page + 1)
      end
  end.

Definition run_http_tools_list (server : UpstreamServerConfig) (timeout : N) : flow JsonValue :=
  start ←! now ;;
  let deadline := (start + timeout)%N in
  in_http_session server deadline (fun session =>
    http_pages 101 server deadline session pagination_new None 0).

(** The calls from [index] on; [results] holds those before. *)
Fixpoint http_calls (server : UpstreamServerConfig) (deadline : N) (session : HttpUpstreamSession) (total index : N)
    (calls : list UpstreamToolCall) (results : list JsonValue) : flow (list JsonValue) :=
  match calls with
  | [] => lift (Ok results)
  | call :: calls =>
      let in_batch {A} (m : flow A) : flow A :=
        r ←! attempt m ;; lift (map_err (batch_tool_call_error (name server) index total) r) in
      let request_id := request_id_at index in
      remaining ←! in_batch (remaining_http_timeout deadline (name server) "tools/call batch") ;;
      response ←! in_batch (post_in_session server session
        (jsonrpc_request request_id "tools/call"
           (Some (json_object [("name", json_string (call_tool call)); ("arguments", call_arguments call)]))) remaining) ;;
      result ←! in_batch (lift (jsonrpc_result other_alphanumeric (name server) "tools/call" request_id response)) ;;
      upstream_is_error ←! in_batch (lift (validate_tool_call_result (name server) (call_tool call) result)) ;;
      http_calls server deadline session total (index + 1) calls
        (results ++ [json_object
           [("index", json_number index); ("ok", json_bool (negb upstream_is_error));
            ("upstreamOk", json_bool (negb upstream_is_error)); ("upstreamIsError", json_bool upstream_is_error);
            ("tool", json_string (call_tool call)); ("upstreamResult", result)]])
  end.

Definition run_http_tool_calls (server : UpstreamServerConfig) (calls : list UpstreamToolCall) (timeout : N)
    : flow (list JsonValue) :=
  start ←! now ;;
  let deadline := (start + timeout)%N in
  in_http_session server deadline (fun session => http_calls server deadline session (len_N calls) 0 calls []).

(** ** Sessions are opened, used and closed in order *)

#[local] Create HintDb flow.

Definition posted (session : option string) (version : string) (e : HttpEvent) : Prop :=
  match e with
  | Posted _ s v _ => s = session /\ v = version
  | Answered _ => True
  | Ended _ _ _ _ => False
  end.

(** A flow that only posts, in one session, and gets answers. *)
Definition posts_only {A} (session : option string) (version : string) (m : flow A) : Prop :=
  forall st st' out, m st = (st', out) ->
    steps st <= steps st' /\ exists posts, trace st' = trace st ++ posts /\ Forall (posted session version) posts.

Lemma posts_lift {A} s v (r : result A string) : posts_only s v (lift r).
Proof. intros st st' out [= <- <-]. split; [done|]. exists []. split; [by rewrite app_nil_r|constructor]. Qed.

Lemma posts_bind {A B} s v (m : flow A) (k : A -> flow B) :
  posts_only s v m -> (forall a, posts_only s v (k a)) -> posts_only s v (bind m k).
Proof.
  intros Hm Hk st st' out. unfold bind. destruct (m st) as [st1 out1] eqn:E. apply Hm in E as (H1 & p1 & T1 & F1).
  destruct out1 as [ [a|e] |].
  - intros (H2 & p2 & T2 & F2)%Hk. split; [lia|]. exists (p1 ++ p2).
    split; [by rewrite T2, T1, app_assoc|by apply Forall_app].
  - intros [= <- <-]. eauto.
  - intros [= <- <-]. eauto.
Qed.

Lemma posts_attempt {A} s v (m : flow A) : posts_only s v m -> posts_only s v (attempt m).
Proof.
  intros Hm st st' out. unfold attempt. destruct (m st) as [st1 [r|] ] eqn:E; intros [= <- <-]; by apply Hm in E.
Qed.

Lemma posts_now s v : posts_only s v now.
Proof. intros st st' out [= <- <-]. cbn. split; [lia|]. exists []. split; [by rewrite app_nil_r|constructor]. Qed.

Lemma posts_remaining s v deadline server phase : posts_only s v (remaining_http_timeout deadline server phase).
Proof. apply posts_bind; [apply posts_now|]. intros t. destruct (t <? deadline)%N; apply posts_lift. Qed.

Lemma posts_exchange s v answer : posts_only s v (exchange answer).
Proof.
  intros st st' out [= <- <-]. cbn [steps trace]. split; [lia|]. eexists. split; [reflexivity|].
  destruct (answer (steps st)) as [ [response|e]|]; by repeat constructor.
Qed.

Lemma posts_emit s v payload t : posts_only s v (emit (Posted payload s v t)).
Proof.
  intros st st' out [= <- <-]. cbn. split; [done|]. eexists. split; [done|]. by repeat constructor.
Qed.

#[local] Hint Resolve posts_lift posts_bind posts_attempt posts_now posts_remaining posts_exchange posts_emit : flow.

Lemma posts_post_json target payload s v timeout hs agent : posts_only s v (post_json target payload s v timeout hs agent).
Proof.
  unfold post_json. apply posts_bind; [apply posts_lift|]. intros _. destruct (secure target).
  - destruct (negb agent); [apply posts_lift|]. destruct (match s with Some _ => _ | None => _ end); [apply posts_lift|].
    apply posts_bind; auto with flow.
  - apply posts_bind; [apply posts_lift|]. intros request. apply posts_bind; auto with flow.
Qed.

Lemma post_json_trace target payload s v timeout hs agent st st' out :
  post_json target payload s v timeout hs agent st = (st', out) ->
  (trace st' = trace st /\ exists e, out = Returns (Err e)) \/
  trace st' = trace st ++ Posted payload s v timeout :: match out with Returns (Ok response) => [Answered response] | _ => [] end.
Proof.
  unfold post_json, bind, lift, throw, emit, exchange. destruct (validate_configured_headers hs) as [ [] |e].
  - destruct (secure target).
    + destruct (negb agent); [intros [= <- <-]; eauto|].
      destruct (match s with Some _ => _ | None => _ end); [intros [= <- <-]; eauto|]. intros [= <- <-]. right. cbn [trace]. by rewrite <- app_assoc.
    + destruct (plain_post _ _ _ _ _); [|intros [= <- <-]; eauto]. cbn [steps trace].
      intros [= <- <-]. right. by rewrite <- app_assoc.
  - intros [= <- <-]. eauto.
Qed.

Lemma posts_http_pages s v fuel server deadline session pagination cursor page :
  us_session_id session = s -> us_version session = v ->
  posts_only s v (http_pages fuel server deadline session pagination cursor page).
Proof.
  intros <- <-. revert pagination cursor page. induction fuel as [|fuel IH]; intros pagination cursor page; [apply posts_lift|].
  cbn [http_pages]. apply posts_bind; [auto with flow|]. intros timeout.
  apply posts_bind; [apply posts_post_json|]. intros response. apply posts_bind; [auto with flow|]. intros page_result.
  destruct (add_page _ _ _) as [p next]. apply posts_bind; [auto with flow|]. intros [c|]; [apply IH|apply posts_lift].
Qed.

Lemma posts_http_calls s v server deadline session total index calls results :
  us_session_id session = s -> us_version session = v ->
  posts_only s v (http_calls server deadline session total index calls results).
Proof.
  intros <- <-. revert index results. induction calls as [|call calls IH]; intros index results; [apply posts_lift|].
  cbn [http_calls].
  apply posts_bind; [auto 6 with flow|]. intros remaining.
  apply posts_bind; [apply posts_bind; [apply posts_attempt, posts_post_json|auto with flow]|]. intros response.
  apply posts_bind; [auto 6 with flow|]. intros result. apply posts_bind; [auto 6 with flow|]. intros ?. apply IH.
Qed.

(** The fuel suffices: the pagination refuses a cursor after 100 pages. *)
Lemma http_pages_fuel fuel k server deadline session p cursor page st :
  pages_ok p -> (pages p < UPSTREAM_TOOL_LIST_MAX_PAGES)%N -> (UPSTREAM_TOOL_LIST_MAX_PAGES <= pages p + N.of_nat fuel)%N ->
  http_pages (fuel + k) server deadline session p cursor page st = http_pages fuel server deadline session p cursor page st.
Proof.
  revert p cursor page st. induction fuel as [|fuel IH]; intros p cursor page st Hok Hlt Hf; [lia|].
  cbn [Nat.add http_pages]. unfold bind. destruct (remaining_http_timeout _ _ _ st) as [st1 [ [t|] |] ]; [|done|done].
  destruct (post_in_session _ _ _ _ st1) as [st2 [ [response|] |] ]; [|done|done]. unfold lift.
  destruct (jsonrpc_result _ _ _ _ _) as [page_result|]; [|done].
  destruct (add_page (name server) page_result p) as [p' next] eqn:Ea.
  destruct next as [ [c|] |]; [|done|done]. apply add_page_ok in Ea as (Hok' & Hpages & Hnext); [|done|done].
  apply IH; [done|by apply Hnext|lia].
Qed.

(** Closing a session. *)
Lemma terminate_spec target s v deadline hs st st' out :
  terminate_http_session_before_deadline target s v deadline hs st = (st', out) ->
  out = Returns (Ok tt) /\ steps st' = S (steps st) /\ exists closing, trace st' = trace st ++ closing /\
    (closing = [] \/ exists sid request t, s = Some sid /\ closing = [Ended sid v request t]) /\
    (forall sid, s = Some sid -> valid_http_header_value sid = true ->
       closing <> [] \/ exists n, n < steps st' /\ (deadline <= clock n)%N).
Proof.
  unfold terminate_http_session_before_deadline, bind, now. cbn [steps trace].
  destruct (N.ltb_spec deadline (clock (steps st))) as [Hlt|Hge].
  - intros [= <- <-]. split_and!; [done|done|]. exists []. split_and!; [by rewrite app_nil_r|by left|].
    intros sid _ _. right. exists (steps st). cbn. split; [lia|lia].
  - unfold terminate_http_session. destruct (opt_filter valid_http_header_value s) as [sid|] eqn:E.
    + apply opt_filter_Some in E as [-> Hv]. intros [= <- <-]. split_and!; [done|done|].
      eexists. split_and!; [done|right; eauto|]. intros. by left.
    + intros [= <- <-]. split_and!; [done|done|]. exists []. split_and!; [by rewrite app_nil_r|by left|].
      intros sid -> Hv. cbn in E. by rewrite Hv in E.
Qed.

Definition returned {A} (out : outcome A) : Prop := exists a, out = Returns a.

(** The version the server chose in its answer to initialize, when the answer is one. *)
Definition agreed_version (server_name : string) (response : UpstreamHttpResponse) : option string :=
  match jsonrpc_result other_alphanumeric server_name "initialize" INITIALIZE_ID response with
  | Ok result => result_ok (negotiated_protocol_version server_name result)
  | Err _ => None
  end.

(** What a conversation sends after [before]: nothing, or the initialize request.  Once that is
    answered with [response], the session is the one named in the response, and the version
    the one chosen in it (the current one as long as none was agreed on).  Everything more is
    posted in that session and version, the initialized notification first and only when a
    version was agreed on; then the session is closed, under the same version.  A session
    with a valid name is closed unless the deadline has passed (or the process died); a
    conversation succeeds only if a supported version was agreed on and the server told so. *)
Definition conversation {A} (server_name : string) (deadline : N) (before : list HttpEvent) (st : FlowState)
    (out : outcome (result A string)) : Prop :=
  (trace st = before \/ exists t0, trace st = before ++ [Posted initialize_message None CURRENT_PROTOCOL_VERSION t0])
    /\ (forall a, out <> Returns (Ok a)) \/
  exists t0 response posts closing,
    let session := up_session_id response in
    let agreed := agreed_version server_name response in
    let version := unwrap_or agreed CURRENT_PROTOCOL_VERSION in
    trace st = before ++ Posted initialize_message None CURRENT_PROTOCOL_VERSION t0 :: Answered response :: posts ++ closing /\
    Forall (posted session version) posts /\
    (posts = [] \/ is_some agreed = true /\ exists t rest, posts = Posted initialized_message session version t :: rest) /\
    (closing = [] \/ exists sid request t, session = Some sid /\ closing = [Ended sid version request t]) /\
    (returned out -> forall sid, session = Some sid -> valid_http_header_value sid = true ->
       closing <> [] \/ exists n, n < steps st /\ (deadline <= clock n)%N) /\
    (forall a, out = Returns (Ok a) -> posts <> [] /\ is_supported_protocol_version version = true).

Lemma negotiated_supported server_name result version :
  negotiated_protocol_version server_name result = Ok version -> is_supported_protocol_version version = true.
Proof.
  unfold negotiated_protocol_version. destruct (ok_or _ _) as [w|]; [|done].
  destruct (is_supported_protocol_version w) eqn:E; [|done]. cbn [negb].
  destruct (value_at_path _ _) as [ [] |]; try done. destruct (ok_or _ _); [|done]. destruct (List.find _ _); [done|].
  by intros [= <-].
Qed.

Lemma remaining_spec deadline server phase st st' out :
  remaining_http_timeout deadline server phase st = (st', out) ->
  trace st' = trace st /\ steps st' = S (steps st) /\
  ((exists t, out = Returns (Ok t)) \/ (exists e, out = Returns (Err e)) /\ (deadline <= clock (steps st))%N).
Proof.
  unfold remaining_http_timeout, bind, now. cbn [steps trace].
  destruct (N.ltb_spec (clock (steps st)) deadline); intros [= <- <-]; cbn; split_and!; eauto.
Qed.

(** A conversation that fails after the first request closes the session. *)
Lemma close_and_throw {A} target server_name response deadline hs error before t0 posts st st' (out : outcome (result A string)) :
  let version := unwrap_or (agreed_version server_name response) CURRENT_PROTOCOL_VERSION in
  (_ ←! terminate_http_session_before_deadline target (up_session_id response) version deadline hs ;; throw error) st = (st', out) ->
  trace st = before ++ Posted initialize_message None CURRENT_PROTOCOL_VERSION t0 :: Answered response :: posts ->
  Forall (posted (up_session_id response) version) posts ->
  (posts = [] \/ is_some (agreed_version server_name response) = true
     /\ exists t rest, posts = Posted initialized_message (up_session_id response) version t :: rest) ->
  (forall a, out <> Returns (Ok a)) /\ conversation server_name deadline before st' out.
Proof.
  intros version. unfold bind at 1. destruct (terminate_http_session_before_deadline _ _ _ _ _ _) as [st1 out1] eqn:E.
  apply terminate_spec in E as (-> & Hst & closing & Ht & Hc & Hv). intros [= <- <-] H0 Hp Hi. split; [done|]. right.
  exists t0, response, posts, closing. cbv zeta. fold version. split_and!; [|done|done| |by intros _|done].
  - rewrite Ht, H0, <- app_assoc. done.
  - destruct Hc as [-> |(sid & request & t & -> & ->)]; [by left|right; by exists sid, request, t].
Qed.

Lemma conversation_failed {A B} server_name deadline before st (out : outcome (result A string)) (out' : outcome (result B string)) :
  conversation server_name deadline before st out -> (returned out' -> returned out) -> (forall b, out' <> Returns (Ok b)) ->
  conversation server_name deadline before st out'.
Proof.
  intros [ [Hb _] |(t0 & response & posts & closing & H1 & H2 & H3 & H4 & H5 & H6)] Hr Hno; [by left|].
  right. exists t0, response, posts, closing. cbv zeta. split_and!; try done; [by intros ?%Hr; apply H5|]. intros b Hb. by apply Hno in Hb.
Qed.

(** A session that is open: the server has answered and been told. *)
Definition opened (server_name : string) (before : list HttpEvent) (st : FlowState) (session : HttpUpstreamSession) : Prop :=
  exists response t0 t1 told, us_session_id session = up_session_id response
    /\ agreed_version server_name response = Some (us_version session)
    /\ is_supported_protocol_version (us_version session) = true
    /\ trace st = before ++ [Posted initialize_message None CURRENT_PROTOCOL_VERSION t0; Answered response;
                            Posted initialized_message (us_session_id session) (us_version session) t1; Answered told].

(** The part of the opening after the answer to initialize. *)
Lemma announce_spec server target response result version deadline agent before t0 st st' out :
  let session_id := up_session_id response in
  let close v := terminate_http_session_before_deadline target session_id v deadline (headers server) in
  (timeout ←! remaining_http_timeout deadline (name server) "notifications/initialized" ;;
   initialized_response ←! attempt (post_json target initialized_message session_id version timeout (headers server) agent) ;;
   match initialized_response with
   | Ok response =>
       if ((200 <=? up_status response) && (up_status response <? 300))%N
       then lift (Ok (mkUpstreamSession target agent session_id version))
       else
         _ ←! close version ;;
         throw ("HTTP upstream server '" +:+ name server +:+ "' returned status "
                +:+ N_to_string (up_status response) +:+ " for notifications/initialized")
   | Err error => _ ←! close version ;; throw error
   end) st = (st', out) ->
  jsonrpc_result other_alphanumeric (name server) "initialize" INITIALIZE_ID response = Ok result ->
  negotiated_protocol_version (name server) result = Ok version ->
  trace st = before ++ [Posted initialize_message None CURRENT_PROTOCOL_VERSION t0; Answered response] ->
  (exists session, out = Returns (Ok session) /\ opened (name server) before st' session)
  \/ ((forall a, out <> Returns (Ok a)) /\ conversation (name server) deadline before st' out).
Proof.
  cbv zeta. intros HE Hj Hn T2.
  assert (Hag : agreed_version (name server) response = Some version) by (unfold agreed_version; by rewrite Hj, Hn).
  assert (Hv : unwrap_or (agreed_version (name server) response) CURRENT_PROTOCOL_VERSION = version) by (by rewrite Hag).
  revert HE. unfold bind at 1. destruct (remaining_http_timeout _ _ _ st) as [st3 out3] eqn:E3.
  apply remaining_spec in E3 as (T3 & S3 & [ [t1 ->] |[ [e ->] Hd] ]).
  2: { intros [= <- <-]. right. split; [done|right]. exists t0, response, [], []. cbv zeta. split_and!;
      [by rewrite T3, T2|by constructor|by left|by left| |done]. intros _ sid _ _. right. exists (steps st). split; [lia|done]. }
  unfold bind at 1, attempt. destruct (post_json _ initialized_message _ _ _ _ _ st3) as [st4 out4] eqn:E4.
  apply post_json_trace in E4 as [ [T4 [e ->] ] |T4].
  { intros HE. right. rewrite <- Hv in HE. eapply close_and_throw with (before := before) (t0 := t0) (posts := []) in HE;
      [done|by rewrite T4, T3, T2|constructor|by left]. }
  rewrite T3, T2 in T4.
  assert (Hposts : forall more, trace st4 = before ++ Posted initialize_message None CURRENT_PROTOCOL_VERSION t0 :: Answered response
      :: Posted initialized_message (up_session_id response) version t1 :: more -> Forall (posted (up_session_id response) version) more ->
    let posts := Posted initialized_message (up_session_id response) (unwrap_or (agreed_version (name server) response) CURRENT_PROTOCOL_VERSION) t1 :: more in
    trace st4 = before ++ Posted initialize_message None CURRENT_PROTOCOL_VERSION t0 :: Answered response :: posts
    /\ Forall (posted (up_session_id response) (unwrap_or (agreed_version (name server) response) CURRENT_PROTOCOL_VERSION)) posts
    /\ (posts = [] \/ is_some (agreed_version (name server) response) = true
       /\ exists t rest, posts = Posted initialized_message (up_session_id response)
            (unwrap_or (agreed_version (name server) response) CURRENT_PROTOCOL_VERSION) t :: rest)).
  { intros more E Hm. cbv zeta. rewrite Hv. split; [done|]. split; [by constructor|]. right. rewrite Hag. split; [done|eauto]. }
  cbv zeta in Hposts. destruct out4 as [ [r|e] |].
  - destruct (Hposts [Answered r]) as (P1 & P2 & P3); [by rewrite T4, <- app_assoc|by repeat constructor|].
    destruct (_ && _).
    + intros [= <- <-]. left. eexists. split; [reflexivity|]. exists response, t0, t1, r. split_and!; [done|done| |by rewrite T4, <- app_assoc].
      by eapply negotiated_supported.
    + intros HE. right. rewrite <- Hv in HE. by eapply close_and_throw in HE; [| | |exact P3].
  - destruct (Hposts []) as (P1 & P2 & P3); [by rewrite T4, <- app_assoc|constructor|].
    intros HE. right. rewrite <- Hv in HE. by eapply close_and_throw in HE; [| | |exact P3].
  - destruct (Hposts []) as (P1 & P2 & P3); [by rewrite T4, <- app_assoc|constructor|].
    intros [= <- <-]. right. split; [done|right]. eexists t0, response, _, []. cbv zeta. rewrite app_nil_r.
    split_and!; [exact P1|exact P2|exact P3|by left|by intros [? ?]|done].
Qed.

Lemma initialize_spec server deadline st st' out :
  initialize_http_session server deadline st = (st', out) ->
  (exists session, out = Returns (Ok session) /\ opened (name server) (trace st) st' session)
  \/ ((forall a, out <> Returns (Ok a)) /\ conversation (name server) deadline (trace st) st' out).
Proof.
  unfold initialize_http_session. unfold bind at 1, lift at 1.
  destruct (ok_or _ _) as [url|]; [|intros [= <- <-]; right; split; [done|left; auto] ]. unfold bind at 1, lift at 1.
  destruct (parse_http_url url) as [target|]; [|intros [= <- <-]; right; split; [done|left; auto] ]. unfold bind at 1.
  destruct (remaining_http_timeout deadline (name server) "initialize" st) as [st1 out1] eqn:E1.
  apply remaining_spec in E1 as (T1 & _ & [ [t ->] |[ [e ->] _] ]); [|intros [= <- <-]; right; split; [done|left; auto] ].
  unfold bind at 1. destruct (post_json _ initialize_message _ _ _ _ _ st1) as [st2 out2] eqn:E2.
  apply post_json_trace in E2 as [ [T2 [e ->] ] |T2].
  { intros [= <- <-]. right. split; [done|left]. split; [left; by rewrite T2|done]. }
  rewrite T1 in T2. destruct out2 as [ [response|e] |].
  2, 3: (intros [= <- <-]; right; split; [done|left]; split; [right; by exists t|done]).
  cbv zeta.
  assert (Hno : forall error, agreed_version (name server) response = None ->
    (_ ←! terminate_http_session_before_deadline target (up_session_id response) CURRENT_PROTOCOL_VERSION deadline (headers server) ;; throw error) st2
    = (st', out) -> (forall a, out <> Returns (Ok a)) /\ conversation (name server) deadline (trace st) st' out).
  { intros error Hag HE. pose proof (close_and_throw (A := HttpUpstreamSession) target (name server) response deadline (headers server) error
      (trace st) t [] st2 st' out) as Hc. cbv zeta in Hc. rewrite Hag in Hc. cbn [unwrap_or] in Hc. apply Hc; [done|done|constructor|by left]. }
  destruct (jsonrpc_result _ _ _ _ _) as [result|error] eqn:Hj.
  2: (intros HE; right; eapply Hno; [|exact HE]; unfold agreed_version; by rewrite Hj).
  destruct (negotiated_protocol_version (name server) result) as [version|error] eqn:En.
  2: (intros HE; right; eapply Hno; [|exact HE]; unfold agreed_version; by rewrite Hj, En).
  intros HE. by eapply announce_spec in HE.
Qed.

Lemma in_session_conversation {A} server deadline (closure : HttpUpstreamSession -> flow A) st st' out :
  (forall session, posts_only (us_session_id session) (us_version session) (closure session)) ->
  in_http_session server deadline closure st = (st', out) -> conversation (name server) deadline (trace st) st' out.
Proof.
  intros Hc. unfold in_http_session, bind at 1.
  destruct (initialize_http_session server deadline st) as [st1 out1] eqn:E1.
  apply initialize_spec in E1 as [(session & -> & response & t0 & t1 & told & Hs & Hag & Hsup & T1)|[Hno Hconv] ].
  2: { destruct out1 as [ [a|e] |]; [exfalso; by apply (Hno a)|..]; intros [= <- <-];
       (eapply conversation_failed; [done| |done]); intros [? Hx]; first [discriminate Hx|by eexists]. }
  unfold bind at 1, attempt. destruct (closure session st1) as [st2 out2] eqn:E2.
  apply Hc in E2 as (_ & posts & T2 & F2). rewrite T1 in T2.
  set (first := Posted initialized_message (us_session_id session) (us_version session) t1) in *.
  assert (Hall : Forall (posted (us_session_id session) (us_version session)) (first :: Answered told :: posts)) by (by repeat constructor).
  destruct out2 as [r|].
  - unfold bind. destruct (terminate_http_session_before_deadline _ _ _ _ _ _) as [st3 out3] eqn:E3.
    apply terminate_spec in E3 as (-> & _ & closing & T3 & Hclosing & Hv). intros [= <- <-]. right.
    exists t0, response, (first :: Answered told :: posts), closing. cbv zeta. rewrite Hag. cbn [unwrap_or is_some]. rewrite <- Hs. split_and!.
    + rewrite T3, T2, <- !app_assoc. done.
    + done.
    + right. split; [done|]. by eexists t1, _.
    + done.
    + by intros _.
    + done.
  - intros [= <- <-]. right. exists t0, response, (first :: Answered told :: posts), []. cbv zeta. rewrite Hag. cbn [unwrap_or is_some]. rewrite <- Hs.
    split_and!; [by rewrite T2, app_nil_r, <- app_assoc|done|right; split; [done|]; by eexists t1, _|by left|by intros [? ?]|done].
Qed.

(** C31: every conversation with an HTTP server, for a request, a list of tools or a batch of
    calls, begins with the initialize request; after its answer everything is posted in the
    session that the answer names and under the version that it chose, the initialized
    notification first; and that session, if its name is valid, is closed under that version
    whatever happened in between, unless the deadline has passed ([conversation]). *)
Theorem http_conversations_disciplined server timeout method params calls :
  let deadline := (clock 0 + timeout)%N in
  let start := mkFlow 0 [] in
  let disciplined {A} (run : FlowState * outcome (result A string)) := conversation (name server) deadline [] (fst run) (snd run) in
  disciplined (run_http_request server method params timeout start) /\
  disciplined (run_http_tools_list server timeout start) /\
  disciplined (run_http_tool_calls server calls timeout start).
Proof.
  cbv zeta.
  assert (Hrun : forall A (closure : N -> HttpUpstreamSession -> flow A),
    (forall deadline session, posts_only (us_session_id session) (us_version session) (closure deadline session)) ->
    let run := (begin ←! now ;; in_http_session server (begin + timeout)%N (closure (begin + timeout)%N)) (mkFlow 0 []) in
    conversation (name server) (clock 0 + timeout)%N [] (fst run) (snd run)).
  { intros A closure Hp. cbv zeta. unfold bind, now. cbn [steps trace].
    destruct (in_http_session server (clock 0 + timeout)%N (closure (clock 0 + timeout)%N) (mkFlow 1 [])) as [st' out] eqn:E.
    by apply in_session_conversation in E. }
  split_and!.
  - apply (Hrun _ (fun deadline session =>
      remaining ←! remaining_http_timeout deadline (name server) method ;;
      response ←! post_in_session server session (jsonrpc_request METHOD_ID method params) remaining ;;
      lift (jsonrpc_result other_alphanumeric (name server) method METHOD_ID response))).
    intros deadline session. apply posts_bind; [apply posts_remaining|]. intros remaining.
    apply posts_bind; [apply posts_post_json|]. intros ?. apply posts_lift.
  - apply (Hrun _ (fun deadline session => http_pages 101 server deadline session pagination_new None 0)).
    intros deadline session. by apply posts_http_pages.
  - apply (Hrun _ (fun deadline session => http_calls server deadline session (len_N calls) 0 calls [])).
    intros deadline session. by apply posts_http_calls.
Qed.

End conversation.
