(* ===== verification/Prompts.v ===== *)
(** * Prompts and resources of the upstream servers (src/adapter/discovery.rs)

    The lists of prompts, resources and resource templates under MCPace's names, and the way
    back from a listed name or URI to the server. What the servers answer is a parameter. *)

From Stdlib Require Import Ascii.
From S2P Require Import Prelude RustStr BTree Json ProxyUri ToolNames ToolView ToolExposure.

Record ProjectedPromptTarget := mkPromptTarget { prompt_server : string; prompt_name : string }.

Definition upstream_error (server method error : string) : JsonValue :=
  json_object [("server", json_string server); ("method", json_string method); ("error", json_string error)].

Section access.
Context (environment : string -> option string).
Context (callable : result (list string) string).
Context (request_once : string -> string -> option JsonValue -> result JsonValue string).

(** The servers, and the error when they cannot be read. *)
Definition callable_server_names : list string * list JsonValue :=
  match callable with
  | Ok names => (names, [])
  | Err error => ([], [json_object [("server", json_string "*"); ("error", json_string error)]])
  end.

(** ** Prompts *)

(** The prompts of one server; [None] when the names run out. *)
Fixpoint project_prompts (server : string) (prompts : list JsonValue) (used_names : gset string)
    : option (list JsonValue * gset string) :=
  match prompts with
  | [] => Some ([], used_names)
  | prompt :: prompts =>
      match trimmed_name prompt with
      | None => project_prompts server prompts used_names
      | Some prompt_name =>
          '(projected, used_names) ← unique_projected_name PROJECTED_PROMPT_PREFIX server prompt_name used_names;
          '(rest, used_names) ← project_prompts server prompts used_names;
          Some (projected_prompt_definition environment server prompt_name projected prompt :: rest, used_names)
      end
  end.

Fixpoint prompts_of (servers : list string) (used_names : gset string) : option (list JsonValue * list JsonValue) :=
  match servers with
  | [] => Some ([], [])
  | server :: servers =>
      match request_once server "prompts/list" None with
      | Ok result =>
          '(prompts, used_names) ← project_prompts server (items_at result "prompts") used_names;
          '(rest, errors) ← prompts_of servers used_names;
          Some (prompts ++ rest, errors)
      | Err error =>
          '(rest, errors) ← prompts_of servers used_names;
          Some (rest, if is_unsupported_method_error error then errors
                      else upstream_error server "prompts/list" error :: errors)
      end
  end.

Definition list_prompts (cursor : option string) : option JsonValue :=
  let '(servers, errors) := callable_server_names in
  '(prompts, more) ← prompts_of servers ∅;
  Some (paginated_list environment "prompts" prompts cursor [maybe_meta_errors (errors ++ more)]).

(** The prompt of one server under a projected name, or the names used after it. *)
Fixpoint find_prompt (server : string) (prompts : list JsonValue) (used_names : gset string) (projected_name : string)
    : option (ProjectedPromptTarget + gset string) :=
  match prompts with
  | [] => Some (inr used_names)
  | prompt :: prompts =>
      match trimmed_name prompt with
      | None => find_prompt server prompts used_names projected_name
      | Some prompt_name =>
          '(name, used_names) ← unique_projected_name PROJECTED_PROMPT_PREFIX server prompt_name used_names;
          if String.eqb name projected_name then Some (inl (mkPromptTarget server prompt_name))
          else find_prompt server prompts used_names projected_name
      end
  end.

Fixpoint find_prompt_in (servers : list string) (used_names : gset string) (projected_name : string)
    : option (option ProjectedPromptTarget) :=
  match servers with
  | [] => Some None
  | server :: servers =>
      match request_once server "prompts/list" None with
      | Err _ => find_prompt_in servers used_names projected_name
      | Ok result =>
          found ← find_prompt server (items_at result "prompts") used_names projected_name;
          match found with
          | inl target => Some (Some target)
          | inr used_names => find_prompt_in servers used_names projected_name
          end
      end
  end.

Definition resolve_projected_prompt (projected_name : string) : option (option ProjectedPromptTarget) :=
  find_prompt_in (fst callable_server_names) ∅ projected_name.

Definition get_prompt (projected_name : string) (arguments : JsonValue) : option (result JsonValue string) :=
  target ← resolve_projected_prompt projected_name;
  Some match target with
       | None => Err ("unknown prompt '" +:+ projected_name +:+ "'")
       | Some target =>
           request_once (prompt_server target) "prompts/get"
             (Some (json_object [("name", json_string (prompt_name target)); ("arguments", arguments)]))
       end.

(** ** Resources *)

(** One list per server, the items of one reply made by [project]. *)
Definition collect_from_servers (method : string) (project : string -> JsonValue -> list JsonValue)
    (servers : list string) : list JsonValue * list JsonValue :=
  fold_right (fun server '(items, errors) =>
      match request_once server method None with
      | Ok result => (project server result ++ items, errors)
      | Err error => (items, if is_unsupported_method_error error then errors
                             else upstream_error server method error :: errors)
      end) ([], []) servers.

Definition project_resources (server : string) (result : JsonValue) : list JsonValue :=
  omap (fun resource =>
      uri ← opt_filter (fun value => negb (str_is_empty value)) (option_map trim (string_at_path resource ["uri"]));
      Some (projected_resource_definition server uri resource))
    (items_at result "resources").

Definition list_resources (cursor : option string) : JsonValue :=
  let '(servers, errors) := callable_server_names in
  let '(resources, more) := collect_from_servers "resources/list" project_resources servers in
  paginated_list environment "resources" resources cursor [maybe_meta_errors (errors ++ more)].

Definition project_templates (server : string) (result : JsonValue) : list JsonValue :=
  map (projected_resource_template_definition server) (items_at result "resourceTemplates").

Definition list_resource_templates (cursor : option string) : JsonValue :=
  let '(servers, errors) := callable_server_names in
  let '(templates, more) := collect_from_servers "resources/templates/list" project_templates servers in
  paginated_list environment "resourceTemplates" templates cursor [maybe_meta_errors (errors ++ more)].

Definition read_resource (proxied_uri : string) : result JsonValue string :=
  decoded ←? map_err display_proxy_error (decode_resource_uri proxied_uri) ;;
  let '(server, upstream_uri) := decoded in
  result ←? request_once server "resources/read" (Some (json_object [("uri", json_string upstream_uri)])) ;;
  Ok (rewrite_resource_contents server result).

End access.

(** ** Listed prompts are reached *)

Lemma unique_loop_new fuel prefix server item hash suffix used n used' :
  unique_loop fuel prefix server item hash suffix used = Some (n, used') -> (n ∉ used) /\ used' = {[n]} ∪ used.
Proof.
  revert suffix. induction fuel as [|fuel IH]; intros suffix; cbn [unique_loop]; [done|].
  destruct (decide _) as [|Hn]; [apply IH|]. by intros [= <- <-].
Qed.

Lemma prompt_prefix : (str_len (safe_token PROJECTED_PROMPT_PREFIX) <= 8)%N.
Proof. vm_compute. discriminate. Qed.

Section reach.
Context (environment : string -> option string).
Context (request_once : string -> string -> option JsonValue -> result JsonValue string).

(** [d] lists prompt [p] of [server] under [n]. *)
Definition lists_prompt (server p n : string) (prompts : list JsonValue) (d : JsonValue) : Prop :=
  exists raw, raw ∈ prompts /\ trimmed_name raw = Some p /\ projected_name PROJECTED_PROMPT_PREFIX n /\
    d = projected_prompt_definition environment server p n raw.

Lemma project_prompts_spec server prompts used :
  (2 + N.of_nat (size used + length prompts) <= USIZE_MAX)%N ->
  exists out used', project_prompts environment server prompts used = Some (out, used') /\ used ⊆ used' /\
    size used' <= size used + length prompts /\
    (forall n, (n ∉ used') -> find_prompt server prompts used n = Some (inr used')) /\
    forall d, d ∈ out -> exists p n, lists_prompt server p n prompts d /\ (n ∉ used) /\ n ∈ used' /\
      find_prompt server prompts used n = Some (inl (mkPromptTarget server p)).
Proof.
  revert used. induction prompts as [|prompt prompts IH]; intros used Hs; cbn [project_prompts find_prompt length] in *.
  { exists [], used. split_and!; [done|done|lia|done|]. intros d Hd. by apply not_elem_of_nil in Hd. }
  destruct (trimmed_name prompt) as [p|] eqn:Ep.
  - destruct (unique_projected_name_spec PROJECTED_PROMPT_PREFIX server p used prompt_prefix) as (n & -> & Hn & Hshape); [lia|].
    cbn [mbind option_bind].
    assert (Hsz : size ({[n]} ∪ used) = S (size used)) by (rewrite size_union, size_singleton; [lia|set_solver]).
    destruct (IH ({[n]} ∪ used)) as (out & used' & -> & Hsub & Hsize & Hmiss & Hhit); [lia|]. cbn [mbind option_bind].
    eexists _, used'. split_and!; [done|set_solver|lia| |].
    + intros m Hm. destruct (String.eqb_spec n m) as [-> |]; [set_solver|]. by apply Hmiss.
    + intros d [-> |Hd]%elem_of_cons.
      * exists p, n. rewrite String.eqb_refl. split_and!; [|done|set_solver|done]. exists prompt. split_and!; [by left|done..].
      * destruct (Hhit d Hd) as (q & m & (raw & Hraw & Hq) & Hm & Hm' & Hf). exists q, m. split_and!; [|set_solver|done|].
        { exists raw. split; [by right|done]. }
        destruct (String.eqb_spec n m) as [-> |]; [set_solver|done].
  - destruct (IH used) as (out & used' & -> & Hsub & Hsize & Hmiss & Hhit); [lia|]. exists out, used'.
    split_and!; [done|done|lia|done|]. intros d Hd. destruct (Hhit d Hd) as (q & m & (raw & Hraw & Hq) & Hm & Hm' & Hf).
    exists q, m. split_and!; [|done..]. exists raw. split; [by right|done].
Qed.

Definition prompts_at (server : string) : list JsonValue :=
  match request_once server "prompts/list" None with Ok result => items_at result "prompts" | Err _ => [] end.

Lemma prompts_of_spec servers used :
  (2 + N.of_nat (size used + sum_list_with (fun s => length (prompts_at s)) servers) <= USIZE_MAX)%N ->
  exists out errors, prompts_of environment request_once servers used = Some (out, errors) /\
    forall d, d ∈ out -> exists server p n, server ∈ servers /\ lists_prompt server p n (prompts_at server) d /\ (n ∉ used) /\
      find_prompt_in request_once servers used n = Some (Some (mkPromptTarget server p)).
Proof.
  revert used. induction servers as [|server servers IH]; intros used Hs; cbn [prompts_of find_prompt_in sum_list_with] in *.
  { exists [], []. split; [done|]. intros d Hd. by apply not_elem_of_nil in Hd. }
  destruct (request_once server "prompts/list" None) as [result|error] eqn:Er.
  - unfold prompts_at at 1 in Hs. rewrite Er in Hs.
    destruct (project_prompts_spec server (items_at result "prompts") used) as (out & used' & -> & Hsub & Hsize & Hmiss & Hhit); [lia|].
    cbn [mbind option_bind]. destruct (IH used') as (rest & errors & -> & Hrest); [lia|]. cbn [mbind option_bind].
    eexists _, errors. split; [done|]. intros d [Hd|Hd]%elem_of_app.
    + destruct (Hhit d Hd) as (p & n & Hl & Hn & _ & Hf). exists server, p, n. split_and!; [by left| |done|].
      * unfold prompts_at. by rewrite Er.
      * by rewrite Hf.
    + destruct (Hrest d Hd) as (s & p & n & Hin & Hl & Hn & Hf). exists s, p, n. split_and!; [by right|done|set_solver|].
      rewrite Hmiss by done. done.
  - destruct (IH used) as (rest & errors & -> & Hrest); [lia|]. cbn [mbind option_bind]. eexists _, _. split; [done|].
    intros d Hd. destruct (Hrest d Hd) as (s & p & n & Hin & Hl & Hn & Hf). exists s, p, n. by split_and!; [right|..].
Qed.

(** Listing the prompts always ends, and each listed prompt is reached by its listed name:
    asking for it sends the request for that prompt to the server it was listed for. *)
Theorem listed_prompts_are_reached servers :
  (2 + N.of_nat (sum_list_with (fun s => length (prompts_at s)) servers) <= USIZE_MAX)%N ->
  exists prompts errors, prompts_of environment request_once servers ∅ = Some (prompts, errors) /\
    forall d, d ∈ prompts -> exists server p n, server ∈ servers /\ lists_prompt server p n (prompts_at server) d /\
      string_at_path d ["name"] = Some n /\
      forall arguments, get_prompt (Ok servers) request_once n arguments
        = Some (request_once server "prompts/get" (Some (json_object [("name", json_string p); ("arguments", arguments)]))).
Proof.
  intros Hs. destruct (prompts_of_spec servers ∅) as (out & errors & Ho & Hout); [by rewrite size_empty|].
  exists out, errors. split; [done|]. intros d Hd. destruct (Hout d Hd) as (server & p & n & Hin & Hl & _ & Hf).
  exists server, p, n. split_and!; [done|done| |].
  - destruct Hl as (raw & _ & _ & _ & ->). unfold projected_prompt_definition, string_at_path. cbn [value_at_path json_get].
    assert (Hg : forall m v, bt_get "name" (bt_insert "description" v (bt_insert "name" (json_string n) m)) = Some (json_string n)).
    { intros m v. rewrite bt_get_insert_ne by done. apply bt_get_insert_eq. }
    destruct (bt_contains "title" _); [by rewrite Hg|]. rewrite bt_get_insert_ne by done. by rewrite Hg.
  - intros arguments. unfold get_prompt, resolve_projected_prompt, callable_server_names. cbn [fst]. by rewrite Hf.
Qed.

(** ** Listed resources are read, listed templates are not *)

(** A listed resource is read from its server under its own URI, and so are the contents
    that come back. *)
Theorem listed_resources_are_read servers d :
  d ∈ fst (collect_from_servers request_once "resources/list" project_resources servers) ->
  exists server uri, server ∈ servers /\ string_at_path d ["uri"] = Some (encode_resource_uri server uri) /\
    (utf8_valid (bytes server) = true -> utf8_valid (bytes uri) = true ->
     read_resource request_once (encode_resource_uri server uri) =
       (reply ←? request_once server "resources/read" (Some (json_object [("uri", json_string uri)])) ;;
        Ok (rewrite_resource_contents server reply))).
Proof.
  unfold collect_from_servers. induction servers as [|server servers IH]; cbn [fold_right]; [by intros Hd%not_elem_of_nil|].
  destruct (fold_right _ _ servers) as [items errors] eqn:Ef. cbn [fst] in IH.
  destruct (request_once server "resources/list" None) as [result|error]; cbn [fst].
  - intros [Hd|Hd]%elem_of_app; [|destruct (IH Hd) as (s & uri & ? & ?); exists s, uri; split; [by right|done] ].
    unfold project_resources in Hd. apply list_elem_of_omap in Hd as (resource & _ & Hd).
    destruct (opt_filter _ _) as [uri|]; [|done]. cbn in Hd. injection Hd as <-.
    exists server, uri. split_and!; [by left| |].
    + unfold projected_resource_definition, string_at_path. cbn [value_at_path json_get].
      rewrite bt_get_insert_ne by done. by rewrite bt_get_insert_eq.
    + intros Hs Hu. unfold read_resource. by rewrite decode_encoded.
  - intros Hd. destruct (IH Hd) as (s & uri & ? & ?). exists s, uri. split; [by right|done].
Qed.

End reach.

(** A listed template is not one of MCPace's resource addresses: whatever its variables are
    replaced by, reading it is refused without a request to a server. *)
Theorem listed_templates_cannot_be_read request_once server template uri_template :
  string_at_path template ["uriTemplate"] = Some uri_template ->
  exists tail,
    string_at_path (projected_resource_template_definition server template) ["uriTemplate"]
      = Some (PROXIED_TEMPLATE_SCHEME +:+ tail) /\
    forall rest, read_resource request_once (PROXIED_TEMPLATE_SCHEME +:+ rest) = Err (display_proxy_error (NotProxied (PROXIED_TEMPLATE_SCHEME +:+ rest))).
Proof.
  intros Ht. unfold projected_resource_template_definition. rewrite Ht.
  eexists. split; [|by destruct rest].
  unfold string_at_path. cbn [value_at_path json_get]. rewrite bt_get_insert_ne by done. by rewrite bt_get_insert_eq.
Qed.

(** ** Witnesses *)

Definition sample_server (server method : string) (params : option JsonValue) : result JsonValue string :=
  match method with
  | "prompts/list" => Ok (json_object [("prompts", json_array [json_object [("name", json_string "review")]])])
  | "resources/list" => Ok (json_object [("resources", json_array [json_object [("uri", json_string "file:///a")]])])
  | _ => Ok JNull
  end.

Lemma listed_prompts_are_reached_witness :
  exists prompts errors,
    prompts_of (fun _ => None) sample_server ["a"; "b"] ∅ = Some (prompts, errors) /\ length prompts = 2 /\
    forall d, d ∈ prompts -> exists server n, string_at_path d ["name"] = Some n /\ server ∈ ["a"; "b"] /\
      get_prompt (Ok ["a"; "b"]) sample_server n JNull
      = Some (sample_server server "prompts/get" (Some (json_object [("name", json_string "review"); ("arguments", JNull)]))).
Proof.
  destruct (listed_prompts_are_reached (fun _ => None) sample_server ["a"; "b"]) as (prompts & errors & Hp & H).
  { vm_compute. discriminate. }
  exists prompts, errors. split; [done|]. split.
  { assert (Hl : option_map (fun r => length (fst r)) (prompts_of (fun _ => None) sample_server ["a"; "b"] ∅) = Some 2)
      by (vm_compute; reflexivity). rewrite Hp in Hl. by injection Hl. }
  intros d Hd. destruct (H d Hd) as (server & p & n & Hin & (raw & Hraw & Hname & _) & Hn & Hget).
  exists server, n. split; [done|]. split; [done|]. rewrite Hget.
  assert (raw = json_object [("name", json_string "review")]) as -> .
  { unfold prompts_at in Hraw. cbn in Hraw. by apply list_elem_of_singleton in Hraw. }
  vm_compute in Hname. by injection Hname as <-.
Defined.

Lemma listed_resources_are_read_witness :
  exists d server uri,
    d ∈ fst (collect_from_servers sample_server "resources/list" project_resources ["docs"]) /\
    string_at_path d ["uri"] = Some (encode_resource_uri server uri) /\
    read_resource sample_server (encode_resource_uri "docs" "file:///a") = Ok JNull.
Proof.
  destruct (listed_resources_are_read sample_server ["docs"]
    (projected_resource_definition "docs" "file:///a" (json_object [("uri", json_string "file:///a")])))
    as (server & uri & Hin & Huri & _).
  { vm_compute. left. }
  eexists _, server, uri. split; [|split; [exact Huri|vm_compute; reflexivity] ]. vm_compute. left.
Defined.

Lemma listed_templates_cannot_be_read_witness :
  exists tail,
    string_at_path (projected_resource_template_definition "docs" (json_object [("uriTemplate", json_string "x:{y}")]))
      ["uriTemplate"] = Some (PROXIED_TEMPLATE_SCHEME +:+ tail) /\
    read_resource sample_server (PROXIED_TEMPLATE_SCHEME +:+ tail) = Err (display_proxy_error (NotProxied (PROXIED_TEMPLATE_SCHEME +:+ tail))).
Proof.
  destruct (listed_templates_cannot_be_read sample_server "docs" (json_object [("uriTemplate", json_string "x:{y}")]) "x:{y}")
    as (tail & Ht & Hr); [reflexivity|].
  exists tail. split; [exact Ht|apply Hr].
Defined.
