(* ===== verification/ToolResult.v ===== *)
(** * Results of tool calls (src/tool_result.rs)

    The options a caller may set, the shaping of a bridged call's result, and the payload
    that goes back to the client. *)

From Stdlib Require Import Ascii.
From S2P Require Import Prelude RustStr BTree Json Execution ToolView.

Inductive ToolResultError :=
| InvalidArgument (field reason : string)
| UnsupportedMode (field value expected : string)
| UnknownPlugin (plugin supported : string).

Definition display_tool_result_error (e : ToolResultError) : string :=
  match e with
  | InvalidArgument _ reason => reason
  | UnsupportedMode field value expected => "unsupported " +:+ field +:+ " '" +:+ value +:+ "'; use " +:+ expected
  | UnknownPlugin plugin supported =>
      "unknown tokenReducerPlugins entry '" +:+ plugin +:+ "'; supported built-ins are " +:+ supported
  end.

Inductive ToolResultMode := ModeNative | ModeCompat | ModeCompact | ModeSummary.
Inductive UpstreamDiagnosticsMode := DiagnosticsFull | DiagnosticsSummary | DiagnosticsNone.
Inductive NestedUpstreamContentMode := NestedFull | NestedCompact.

Record ToolResultOptions := mkResultOptions {
  result_mode : ToolResultMode;
  upstream_diagnostics : UpstreamDiagnosticsMode;
  nested_upstream_content : NestedUpstreamContentMode
}.

Definition SUPPORTED_TOKEN_REDUCER_PLUGINS : list string :=
  ["mcpace.native-content.v1"; "mcpace.summary-content.v1"; "mcpace.compat-content.v1"; "mcpace.compact-content.v1";
   "mcpace.trim-upstream-diagnostics.v1"; "mcpace.drop-upstream-diagnostics.v1";
   "mcpace.dedupe-nested-upstream-content.v1"].

(** ** Options *)

Definition normalized_token (value : string) : string := replace_char "_" "-" (to_ascii_lowercase (trim value)).

Definition parse_result_mode (value : string) : result ToolResultMode ToolResultError :=
  let other := normalized_token value in
  if one_of ["native"; "passthrough"; "direct"; "auto"] other then Ok ModeNative
  else if one_of ["compat"; "compatible"; "pretty"; "full"] other then Ok ModeCompat
  else if one_of ["compact"; "json"] other then Ok ModeCompact
  else if one_of ["summary"; "summarized"; "brief"] other then Ok ModeSummary
  else Err (UnsupportedMode "resultMode" other "native, compat, compact, or summary").

Definition parse_diagnostics_mode (value : string) : result UpstreamDiagnosticsMode ToolResultError :=
  let other := normalized_token value in
  if one_of ["full"; "all"; "compat"] other then Ok DiagnosticsFull
  else if one_of ["summary"; "summarized"; "brief"] other then Ok DiagnosticsSummary
  else if one_of ["none"; "off"; "minimal"; "native"; "false"] other then Ok DiagnosticsNone
  else Err (UnsupportedMode "diagnostics mode" other "full, summary, or none").

Definition parse_nested_content_mode (value : string) : result NestedUpstreamContentMode ToolResultError :=
  let other := normalized_token value in
  if one_of ["full"; "all"; "compat"] other then Ok NestedFull
  else if one_of ["compact"; "summary"; "summarized"; "dedupe"; "deduplicated"; "native"] other then Ok NestedCompact
  else Err (UnsupportedMode "nestedContent mode" other "full or compact").

(** [find_map] over the keys. *)
Fixpoint first_string_argument (arguments : JsonValue) (keys : list string) : option string :=
  match keys with
  | [] => None
  | key :: keys =>
      match string_at_path arguments [key] with
      | Some value => Some value
      | None => first_string_argument arguments keys
      end
  end.

Definition set_result_mode (m : ToolResultMode) (o : ToolResultOptions) : ToolResultOptions :=
  mkResultOptions m (upstream_diagnostics o) (nested_upstream_content o).
Definition set_diagnostics (m : UpstreamDiagnosticsMode) (o : ToolResultOptions) : ToolResultOptions :=
  mkResultOptions (result_mode o) m (nested_upstream_content o).
Definition set_nested (m : NestedUpstreamContentMode) (o : ToolResultOptions) : ToolResultOptions :=
  mkResultOptions (result_mode o) (upstream_diagnostics o) m.

Definition apply_builtin_token_reducer (plugin_name : string) (options : ToolResultOptions) (strict : bool)
    : result ToolResultOptions ToolResultError :=
  let other := normalized_token plugin_name in
  if one_of ["mcpace.native-content.v1"; "native-content"; "native"] other then Ok (set_result_mode ModeNative options)
  else if one_of ["mcpace.summary-content.v1"; "summary-content"] other then Ok (set_result_mode ModeSummary options)
  else if one_of ["mcpace.compat-content.v1"; "compat-content"] other then Ok (set_result_mode ModeCompat options)
  else if one_of ["mcpace.compact-content.v1"; "compact-content"] other then Ok (set_result_mode ModeCompact options)
  else if one_of ["mcpace.trim-upstream-diagnostics.v1"; "trim-upstream-diagnostics"] other
  then Ok (set_diagnostics DiagnosticsSummary options)
  else if one_of ["mcpace.drop-upstream-diagnostics.v1"; "drop-upstream-diagnostics"] other
  then Ok (set_diagnostics DiagnosticsNone options)
  else if one_of ["mcpace.dedupe-nested-upstream-content.v1"; "dedupe-nested-upstream-content"] other
  then Ok (set_nested NestedCompact options)
  else if strict then Err (UnknownPlugin other (join ", " SUPPORTED_TOKEN_REDUCER_PLUGINS))
  else Ok options.

Fixpoint apply_plugins (plugins : list JsonValue) (options : ToolResultOptions) (strict : bool)
    : result ToolResultOptions ToolResultError :=
  match plugins with
  | [] => Ok options
  | plugin :: plugins =>
      match as_str plugin with
      | None => Err (InvalidArgument "tokenReducerPlugins" "tokenReducerPlugins must be an array of strings")
      | Some plugin_name =>
          options ←? apply_builtin_token_reducer plugin_name options strict ;;
          apply_plugins plugins options strict
      end
  end.

Section environment.
(** [std::env::var(name).ok()]. *)
Context (environment : string -> option string).

Definition default_result_mode : ToolResultMode :=
  unwrap_or (environment "MCPACE_TOOL_RESULT_MODE" ≫= (fun value => result_ok (parse_result_mode value))) ModeNative.
Definition default_upstream_diagnostics : UpstreamDiagnosticsMode :=
  unwrap_or (environment "MCPACE_UPSTREAM_DIAGNOSTICS" ≫= (fun value => result_ok (parse_diagnostics_mode value)))
    DiagnosticsNone.
Definition default_nested_upstream_content : NestedUpstreamContentMode :=
  unwrap_or (environment "MCPACE_NESTED_UPSTREAM_CONTENT" ≫= (fun value => result_ok (parse_nested_content_mode value)))
    NestedCompact.

Definition default_options : ToolResultOptions :=
  mkResultOptions default_result_mode default_upstream_diagnostics default_nested_upstream_content.

Definition options_from_arguments (arguments : JsonValue) : result ToolResultOptions ToolResultError :=
  let options := default_options in
  options ←? match first_string_argument arguments ["resultMode"; "toolResultMode"] with
             | Some mode => mode ←? parse_result_mode mode ;; Ok (set_result_mode mode options)
             | None => Ok options
             end ;;
  options ←? match first_string_argument arguments ["diagnostics"; "upstreamDiagnostics"] with
             | Some mode => mode ←? parse_diagnostics_mode mode ;; Ok (set_diagnostics mode options)
             | None => Ok options
             end ;;
  options ←? match first_string_argument arguments ["nestedContent"; "upstreamNestedContent"] with
             | Some mode => mode ←? parse_nested_content_mode mode ;; Ok (set_nested mode options)
             | None => Ok options
             end ;;
  let strict_plugins :=
    match first_string_argument arguments ["tokenReducerPluginPolicy"; "pluginPolicy"; "resultPluginPolicy"] with
    | Some value => String.eqb (normalized_token value) "strict"
    | None => false
    end in
  match opt_or (array_at_path arguments ["tokenReducerPlugins"]) (array_at_path arguments ["resultPlugins"]) with
  | Some plugins => apply_plugins plugins options strict_plugins
  | None => Ok options
  end.

End environment.

(** ** Payloads *)

Definition tool_result_object (content : list JsonValue) (structured : option JsonValue) (is_error : bool) : JsonValue :=
  json_object ([("content", json_array content)]
               ++ match structured with Some value => [("structuredContent", value)] | None => [] end
               ++ [("isError", json_bool is_error)]).

Definition text_content (text : string) : list JsonValue :=
  [json_object [("type", json_string "text"); ("text", json_string text)]].

(** The first [limit] characters, with a mark when there are more. *)
Definition truncate (value : string) (limit : N) : string := truncate_chars value limit.

Definition short_json (value : JsonValue) : string :=
  match value with
  | JString text => truncate text 160
  | JBool value => if value then "true" else "false"
  | JNumber value => value
  | JNull => "null"
  | JArray items => "[" +:+ N_to_string (len_N items) +:+ " items]"
  | JObject object => "{" +:+ N_to_string (len_N object) +:+ " keys}"
  end.

Definition summary_keys : list string :=
  ["ok"; "server"; "tool"; "upstreamOk"; "upstreamIsError"; "callCount"; "upstreamOkCount"; "upstreamFailedCount";
   "activeLeaseCount"].

Definition summary_parts (structured : JsonValue) (is_error : bool) : list string :=
  (if is_error then ["error"] else [])
  ++ omap (fun key => option_map (fun value => key +:+ "=" +:+ short_json value) (value_at_path structured [key]))
       summary_keys
  ++ match string_at_path structured ["error"] with
     | Some error => ["error=" +:+ truncate error 220]
     | None => []
     end.

Definition summarize_tool_result (structured : JsonValue) (is_error : bool) : string :=
  match summary_parts structured is_error with
  | [] => if is_error then "Tool call failed; full details are in structuredContent."
          else "Tool call succeeded; full result is in structuredContent."
  | parts => join " " parts +:+ "; full result is in structuredContent."
  end.

Definition native_upstream_content (structured : JsonValue) : option (list JsonValue) :=
  match array_at_path structured ["upstreamResult"; "content"] with
  | Some (item :: items) => Some (item :: items)
  | _ =>
      results ← array_at_path structured ["results"];
      match flat_map (fun item => unwrap_or (array_at_path item ["upstreamResult"; "content"]) []) results with
      | [] => None
      | content => Some content
      end
  end.

Definition native_upstream_structured_content (structured : JsonValue) : option JsonValue :=
  value_at_path structured ["upstreamResult"; "structuredContent"].

Definition bool_is (expected : bool) (value : JsonValue) (key : string) : bool :=
  match bool_at_path value [key] with Some b => Bool.eqb b expected | None => false end.

Definition upstream_structured_indicates_error (structured : JsonValue) : bool :=
  bool_is true structured "upstreamIsError" || bool_is false structured "upstreamOk" || bool_is false structured "ok"
  || match value_at_path structured ["upstreamFailedCount"] ≫= as_i64 with Some value => (0 <? value)%Z | None => false end
  || match array_at_path structured ["results"] with
     | Some results => existsb (fun item => bool_is true item "upstreamIsError" || bool_is false item "upstreamOk") results
     | None => false
     end.

Definition should_drop_summary_diagnostic (key : string) : bool :=
  one_of ["lease"; "leaseRelease"; "leaseId"; "sessionPoolSessionAgeMs"; "sessionPoolIdleTtlMs";
          "sessionPoolEvictedIdleCount"; "sessionPoolEvictedCapacityCount"] key.

Definition should_drop_all_diagnostic (key : string) : bool :=
  String.eqb key "bridgeOk" || String.eqb key "timeoutMs" || starts_with "lease" key || starts_with "sessionPool" key.

Definition prune_object (value : JsonValue) (should_drop : string -> bool) : JsonValue :=
  match value with
  | JObject map => JObject (bt_retain (fun key _ => negb (should_drop key)) map)
  | other => other
  end.

Definition shape_upstream_diagnostics (value : JsonValue) (mode : UpstreamDiagnosticsMode) : JsonValue :=
  match mode with
  | DiagnosticsFull => value
  | DiagnosticsSummary => prune_object value should_drop_summary_diagnostic
  | DiagnosticsNone => prune_object value should_drop_all_diagnostic
  end.

Definition compacted_content : JsonValue :=
  json_array [json_object [("type", json_string "text");
    ("text", json_string
       "Nested upstream content was compacted by MCPace; see top-level content or structuredContent.")]].

Definition compact_one_upstream_result (value : JsonValue) (compact_plain_content : bool) : JsonValue :=
  match value with
  | JObject map =>
      if bt_contains "content" map && (bt_contains "structuredContent" map || compact_plain_content)
      then JObject (bt_insert "content" compacted_content map)
      else JObject map
  | other => other
  end.

(** The entries of an object with the value under [key] replaced. *)
Definition map_entry (f : JsonValue -> JsonValue) (key : string) (map : list (string * JsonValue))
    : list (string * JsonValue) :=
  List.map (fun '(k, v) => (k, if String.eqb k key then f v else v)) map.

Definition compact_nested_result_array (value : JsonValue) (compact_plain_content : bool) : JsonValue :=
  match value with
  | JArray items =>
      JArray (List.map (fun item =>
        match item with
        | JObject map => JObject (map_entry (fun v => compact_one_upstream_result v compact_plain_content) "upstreamResult" map)
        | other => other
        end) items)
  | other => other
  end.

Definition compact_nested_upstream_results (value : JsonValue) (compact_plain_content : bool) : JsonValue :=
  match value with
  | JObject map =>
      JObject (map_entry (fun v => compact_nested_result_array v compact_plain_content) "results"
                 (map_entry (fun v => compact_one_upstream_result v compact_plain_content) "upstreamResult" map))
  | other => other
  end.

Definition shape_nested_upstream_content_for_payload (value : JsonValue) (mode : NestedUpstreamContentMode)
    (compact_plain_content : bool) : JsonValue :=
  match mode with
  | NestedFull => value
  | NestedCompact => compact_nested_upstream_results value compact_plain_content
  end.

Definition shape_nested_upstream_content (value : JsonValue) (mode : NestedUpstreamContentMode) : JsonValue :=
  shape_nested_upstream_content_for_payload value mode false.

Section payload.
Context `{SerdeJson}.

Definition tool_result_payload (structured : JsonValue) (is_error : bool) (options : ToolResultOptions) : JsonValue :=
  let content :=
    match result_mode options with
    | ModeNative | ModeSummary => text_content (summarize_tool_result structured is_error)
    | ModeCompat => text_content (to_pretty_string structured)
    | ModeCompact => text_content (to_compact_string structured)
    end in
  tool_result_object content (Some structured) is_error.

Definition upstream_tool_result_payload (structured : JsonValue) (wrapper_is_error : bool) (options : ToolResultOptions)
    : JsonValue :=
  let diagnostics_shaped := shape_upstream_diagnostics structured (upstream_diagnostics options) in
  let effective_is_error := wrapper_is_error || upstream_structured_indicates_error diagnostics_shaped in
  match result_mode options with
  | ModeNative =>
      let native_content := native_upstream_content diagnostics_shaped in
      let content := unwrap_or native_content
                       (text_content (summarize_tool_result diagnostics_shaped effective_is_error)) in
      let structured_content :=
        unwrap_or (match upstream_diagnostics options with
                   | DiagnosticsNone => native_upstream_structured_content diagnostics_shaped
                   | _ => None
                   end)
          (shape_nested_upstream_content_for_payload diagnostics_shaped (nested_upstream_content options)
             (is_some native_content)) in
      tool_result_object content (Some structured_content) effective_is_error
  | ModeCompat | ModeCompact | ModeSummary =>
      tool_result_payload (shape_nested_upstream_content diagnostics_shaped (nested_upstream_content options))
        effective_is_error options
  end.

End payload.

(** ** Errors are never hidden *)

Lemma get_prune (should_drop : string -> bool) v key :
  should_drop key = false -> json_get (prune_object v should_drop) key = json_get v key.
Proof.
  intros Hk. destruct v as [| | | | |m]; try done. cbn [prune_object json_get]. unfold bt_retain.
  induction m as [|[k w] m IH]; [done|]. cbn [List.filter fst snd bt_get].
  destruct (key_cmp key k) eqn:Ec.
  - apply key_cmp_eq in Ec as <-. rewrite Hk. cbn [negb bt_get]. by rewrite key_cmp_refl.
  - destruct (negb (should_drop k)); cbn [bt_get]; [by rewrite Ec|done].
  - destruct (negb (should_drop k)); cbn [bt_get]; [by rewrite Ec|done].
Qed.

(** The keys that carry an answer and its outcome. *)
Definition answer_keys : list string := ["upstreamIsError"; "upstreamOk"; "ok"; "upstreamFailedCount"; "results"; "upstreamResult"].

Lemma get_shape mode v key : key ∈ answer_keys -> json_get (shape_upstream_diagnostics v mode) key = json_get v key.
Proof.
  intros Hk. destruct mode; [done| |]; apply get_prune; unfold answer_keys in Hk;
    repeat (apply elem_of_cons in Hk as [-> |Hk]; [vm_compute; reflexivity|]); by apply not_elem_of_nil in Hk.
Qed.

Lemma path_shape mode v key path :
  key ∈ answer_keys -> value_at_path (shape_upstream_diagnostics v mode) (key :: path) = value_at_path v (key :: path).
Proof. intros Hk. cbn [value_at_path]. by rewrite get_shape. Qed.

Lemma indicates_error_shape mode v :
  upstream_structured_indicates_error (shape_upstream_diagnostics v mode) = upstream_structured_indicates_error v.
Proof.
  unfold upstream_structured_indicates_error, bool_is, bool_at_path, array_at_path.
  rewrite !path_shape by (unfold answer_keys; set_solver). done.
Qed.

Lemma native_content_shape mode v :
  native_upstream_content (shape_upstream_diagnostics v mode) = native_upstream_content v.
Proof.
  unfold native_upstream_content, array_at_path. rewrite !path_shape by (unfold answer_keys; set_solver). done.
Qed.

Lemma tool_result_object_fields content structured e :
  bool_at_path (tool_result_object content (Some structured) e) ["isError"] = Some e /\
  array_at_path (tool_result_object content (Some structured) e) ["content"] = Some content /\
  value_at_path (tool_result_object content (Some structured) e) ["structuredContent"] = Some structured.
Proof. done. Qed.

Section safety.
Context `{SerdeJson}.

(** Whatever the options of the caller, a bridged call is reported as an error exactly when
    the call failed, or the upstream server said that it, or one call of its batch, failed. *)
Theorem upstream_errors_are_never_hidden structured wrapper_is_error options :
  bool_at_path (upstream_tool_result_payload structured wrapper_is_error options) ["isError"]
  = Some (wrapper_is_error || upstream_structured_indicates_error structured).
Proof.
  unfold upstream_tool_result_payload. rewrite indicates_error_shape.
  destruct (result_mode options); apply tool_result_object_fields.
Qed.

Lemma value_at_path_app v p q : value_at_path v (p ++ q) = value_at_path v p ≫= (fun w => value_at_path w q).
Proof. revert v. induction p as [|k p IH]; intros v; [done|]. cbn [app value_at_path]. by destruct (json_get v k). Qed.

Lemma get_map_entry f key map k :
  bt_get k (map_entry f key map) = option_map (fun v => if String.eqb k key then f v else v) (bt_get k map).
Proof.
  induction map as [|[k' v] map IH]; [done|]. cbn [map_entry List.map bt_get].
  destruct (key_cmp k k') eqn:Ec; [|done..]. by apply key_cmp_eq in Ec as ->.
Qed.

Lemma compact_one_keeps r c :
  array_at_path r ["content"] = Some c ->
  compact_one_upstream_result r false = r \/
  (is_some (value_at_path r ["structuredContent"]) = true /\
   value_at_path (compact_one_upstream_result r false) ["structuredContent"] = value_at_path r ["structuredContent"]).
Proof.
  destruct r as [| | | | |m]; try done. intros _. cbn [compact_one_upstream_result].
  destruct (bt_contains "content" m && _) eqn:E; [|by left]. right.
  rewrite orb_false_r in E. apply andb_true_iff in E as [_ E]. unfold bt_contains in E.
  cbn [value_at_path json_get]. rewrite bt_get_insert_ne by done. split; [|done].
  by destruct (bt_get "structuredContent" m).
Qed.

Lemma nested_upstream_result v r mode :
  value_at_path v ["upstreamResult"] = Some r ->
  exists r', value_at_path (shape_nested_upstream_content v mode) ["upstreamResult"] = Some r' /\
             (r' = r \/ r' = compact_one_upstream_result r false).
Proof.
  intros Hr. destruct mode; [by exists r; eauto|].
  destruct v as [| | | | |m]; try done. exists (compact_one_upstream_result r false). split; [|by right].
  cbn [value_at_path json_get shape_nested_upstream_content shape_nested_upstream_content_for_payload
       compact_nested_upstream_results] in *.
  rewrite !get_map_entry. destruct (bt_get "upstreamResult" m) as [r0|]; [|done].
  injection Hr as ->. done.
Qed.

(** The answer of an upstream tool reaches the client under every choice of options: its
    content items are the content of the reply, or they stand in the structured content, or
    the structured content has the answer's own structured form. *)
Theorem upstream_answers_are_kept structured wrapper_is_error options r c :
  value_at_path structured ["upstreamResult"] = Some r -> array_at_path r ["content"] = Some c -> c <> [] ->
  let payload := upstream_tool_result_payload structured wrapper_is_error options in
  array_at_path payload ["content"] = Some c
  \/ value_at_path payload ["structuredContent"; "upstreamResult"] = Some r
  \/ (is_some (value_at_path r ["structuredContent"]) = true /\
      value_at_path payload ["structuredContent"; "upstreamResult"; "structuredContent"]
      = value_at_path r ["structuredContent"]).
Proof.
  intros Hr Hc Hne payload. unfold payload, upstream_tool_result_payload. rewrite native_content_shape.
  set (shaped := shape_upstream_diagnostics structured (upstream_diagnostics options)).
  assert (Hs : value_at_path shaped ["upstreamResult"] = Some r).
  { unfold shaped. by rewrite path_shape by (unfold answer_keys; set_solver). }
  assert (Hother : forall e, let p := tool_result_payload (shape_nested_upstream_content shaped (nested_upstream_content options)) e options in
    value_at_path p ["structuredContent"; "upstreamResult"] = Some r
    \/ (is_some (value_at_path r ["structuredContent"]) = true /\
        value_at_path p ["structuredContent"; "upstreamResult"; "structuredContent"] = value_at_path r ["structuredContent"])).
  { intros e p. destruct (nested_upstream_result shaped r (nested_upstream_content options) Hs) as (r' & Hr' & [-> | ->]).
    - left. exact Hr'.
    - destruct (compact_one_keeps r c Hc) as [He|[Hsome Hv] ]; [left; by rewrite He in Hr'|right].
      split; [done|]. rewrite <- Hv. revert Hr'. generalize (compact_one_upstream_result r false). intros r' Hr'.
      change (value_at_path p ["structuredContent"; "upstreamResult"; "structuredContent"])
        with (value_at_path (shape_nested_upstream_content shaped (nested_upstream_content options)) (["upstreamResult"] ++ ["structuredContent"])).
      by rewrite value_at_path_app, Hr'. }
  destruct (result_mode options); [left|right; apply Hother..].
  assert (Hn : native_upstream_content structured = Some c).
  { unfold native_upstream_content.
    assert (array_at_path structured ["upstreamResult"; "content"] = Some c) as -> ; [|by destruct c].
    unfold array_at_path in *. change ["upstreamResult"; "content"] with (["upstreamResult"] ++ ["content"]).
    by rewrite value_at_path_app, Hr. }
  rewrite Hn. apply tool_result_object_fields.
Qed.

End safety.

(** ** Witness *)

Definition sample_bridged : JsonValue :=
  json_object [("leaseId", json_string "l1");
    ("upstreamResult", json_object [("content", json_array [json_string "text"]); ("structuredContent", json_object [])])].

Lemma upstream_answers_are_kept_witness :
  let payload := @upstream_tool_result_payload TreeCodec.codec sample_bridged false
                   (mkResultOptions ModeSummary DiagnosticsNone NestedCompact) in
  array_at_path payload ["content"] = Some [json_string "text"]
  \/ value_at_path payload ["structuredContent"; "upstreamResult"]
     = Some (json_object [("content", json_array [json_string "text"]); ("structuredContent", json_object [])])
  \/ (is_some (Some (json_object [])) = true /\
      value_at_path payload ["structuredContent"; "upstreamResult"; "structuredContent"] = Some (json_object [])).
Proof.
  apply (@upstream_answers_are_kept TreeCodec.codec sample_bridged false
           (mkResultOptions ModeSummary DiagnosticsNone NestedCompact)
           (json_object [("content", json_array [json_string "text"]); ("structuredContent", json_object [])])
           [json_string "text"]); [reflexivity..|discriminate].
Defined.
