(* ===== verification/HttpTools.v ===== *)
(** * MCPace's own tools over HTTP (src/dashboard/http_tools.rs, src/tool_schemas.rs)

    The definitions a client is shown in [tools/list]: one per tool, with its annotations and
    the schema of its arguments. *)

From Stdlib Require Import Ascii.
From S2P Require Import Prelude RustStr BTree Json Execution ToolView ToolExposure.

Definition http_read_only (name : string) : bool :=
  one_of ["doctor"; "hub_status"; "hub_logs"; "runtime_leases"; "server_list"; "server_capabilities"; "client_list";
          "client_plan"; "client_export"; "adapter_profile"; "adapter_route"; "upstream_search"; "surface_manifest";
          "upstream_tools"; "upstream_catalog"; "upstream_probe"; "upstream_policy_audit"; "upstream_policy_suggest"] name.

Definition http_open_world (name : string) : bool :=
  one_of ["adapter_route"; "upstream_search"; "upstream_tools"; "upstream_catalog"; "upstream_probe";
          "upstream_policy_audit"; "upstream_policy_suggest"; "upstream_call"; "upstream_batch"] name.

Definition http_destructive (name : string) : bool := one_of ["hub_down"; "upstream_call"; "upstream_batch"] name.

Definition http_idempotent (name : string) : bool :=
  one_of ["doctor"; "hub_status"; "hub_logs"; "runtime_leases"; "server_list"; "server_capabilities"; "client_list";
          "client_plan"; "client_export"; "adapter_profile"; "adapter_route"; "upstream_search"; "surface_manifest";
          "upstream_tools"; "upstream_catalog"; "upstream_probe"; "upstream_policy_audit"; "upstream_policy_suggest"] name.

Definition http_tool_annotations (name : string) : JsonValue :=
  json_object [("readOnlyHint", json_bool (http_read_only name)); ("destructiveHint", json_bool (http_destructive name));
               ("idempotentHint", json_bool (http_idempotent name)); ("openWorldHint", json_bool (http_open_world name))].

Definition http_tool_with_schema (name description : string) (properties : JsonValue) (required : list string) : JsonValue :=
  json_object [("name", json_string name); ("title", json_string description); ("description", json_string description);
    ("annotations", http_tool_annotations name);
    ("inputSchema", json_object [("type", json_string "object"); ("properties", properties);
       ("required", json_array (map json_string required)); ("additionalProperties", json_bool false)])].

Definition http_tool (name description : string) : JsonValue := http_tool_with_schema name description empty_object [].

Definition upstream_batch_call_item_schema : JsonValue :=
  json_object [("oneOf", json_array [json_object [("type", json_string "object");
      ("properties", json_object [("tool", json_object [("type", json_string "string");
          ("description", json_string "Upstream tool name.")]);
        ("arguments", json_object [("type", json_string "object");
          ("description", json_string "Arguments to pass to the upstream tool.");
          ("additionalProperties", json_bool true)])]);
      ("required", json_array [json_string "tool"]);
      ("additionalProperties", json_bool false)];
     json_object [("type", json_string "array");
      ("description", json_string "Compact tuple form: [tool] or [tool, arguments].");
      ("minItems", json_number 1);
      ("maxItems", json_number 2);
      ("prefixItems", json_array [json_object [("type", json_string "string");
         ("description", json_string "Upstream tool name.")];
        json_object [("type", json_string "object");
         ("description", json_string "Arguments to pass to the upstream tool.");
         ("additionalProperties", json_bool true)]]);
      ("items", json_bool false)]])].

Definition http_client_context_properties : JsonValue :=
  json_object [("clientId", json_object [("type", json_string "string");
     ("description", json_string "Optional client target override. Defaults to MCP/request metadata when present.")]);
   ("sessionId", json_object [("type", json_string "string");
     ("description", json_string "Optional external session id override.")]);
   ("projectRoot", json_object [("type", json_string "string");
     ("description", json_string "Optional project or workspace root override.")]);
   ("transport", json_object [("type", json_string "string");
     ("description", json_string "Optional ingress override such as stdio or streamable-http.")]);
   ("metadata", json_object [("type", json_string "object");
     ("description", json_string "Optional MCP metadata object forwarded as metadata-json.")])].

Definition server_capabilities_tool : JsonValue :=
  http_tool_with_schema "server_capabilities"
    "Inspect one configured server capability and policy profile"
    (json_object [("name", json_object [("type", json_string "string");
        ("description", json_string "Configured MCPace server name to inspect.")])])
    ["name"].

Definition adapter_profile_tool : JsonValue :=
  http_tool_with_schema "adapter_profile"
    "Infer current client/protocol/transport and server coordination profile dynamically"
    (json_object [("includeLiveCatalog", json_object [("type", json_string "boolean");
        ("description", json_string "When true, include a live upstream catalog/projection sample. Defaults to false.")]);
      ("timeoutMs", json_object [("type", json_string "integer");
        ("description", json_string "Optional live upstream catalog timeout in milliseconds.")]);
      ("refresh", json_object [("type", json_string "boolean");
        ("description", json_string "Bypass the short successful upstream tools/list cache.")])])
    [].

Definition adapter_route_tool : JsonValue :=
  http_tool_with_schema "adapter_route"
    "Plan upstream call routing, batching, serialization, and parallel-safe lanes dynamically"
    (json_object [("calls", json_object [("type", json_string "array");
        ("description", json_string "Optional calls to plan. Each item may be [server, tool, arguments], {server, name/tool, arguments}, an upstream_search result, or an upstream_call object.");
        ("items", json_object [("oneOf", json_array [json_object [("type", json_string "array");
             ("minItems", json_number 2);
             ("maxItems", json_number 3)];
            json_object [("type", json_string "object")];
            json_object [("type", json_string "string")]])])]);
      ("includeLiveCatalog", json_object [("type", json_string "boolean");
        ("description", json_string "When true, include live upstream catalog context in the route plan.")]);
      ("timeoutMs", json_object [("type", json_string "integer");
        ("description", json_string "Optional live upstream catalog timeout in milliseconds.")]);
      ("refresh", json_object [("type", json_string "boolean");
        ("description", json_string "Bypass the short tools/list cache when includeLiveCatalog=true.")])])
    [].

Definition upstream_search_tool : JsonValue :=
  http_tool_with_schema "upstream_search"
    "Search upstream tools without exposing every upstream schema as a top-level tool"
    (json_object [("query", json_object [("type", json_string "string");
        ("description", json_string "Optional keyword query over server, tool name, title, and description.")]);
      ("server", json_object [("type", json_string "string");
        ("description", json_string "Optional configured upstream server name to search inside.")]);
      ("limit", json_object [("type", json_string "integer");
        ("description", json_string "Maximum results to return, clamped to 1..100.")]);
      ("includeSchema", json_object [("type", json_string "boolean");
        ("description", json_string "When true, include compact input schemas in search results.")]);
      ("timeoutMs", json_object [("type", json_string "integer");
        ("description", json_string "Optional per-server catalog timeout from 1000 to 300000 ms.")]);
      ("refresh", json_object [("type", json_string "boolean");
        ("description", json_string "Bypass the short tools/list cache before searching.")])])
    [].

Definition surface_manifest_tool : JsonValue :=
  http_tool_with_schema "surface_manifest"
    "Explain exact native MCPace tools versus configured upstream MCP tools"
    (json_object [("includeLiveCatalog", json_object [("type", json_string "boolean");
        ("description", json_string "When true, launch/probe configured callable upstreams and include the live upstream_catalog output.")]);
      ("timeoutMs", json_object [("type", json_string "integer");
        ("description", json_string "Optional per-server catalog timeout from 1000 to 300000 ms when includeLiveCatalog=true.")]);
      ("refresh", json_object [("type", json_string "boolean");
        ("description", json_string "Bypass the short tools/list cache when includeLiveCatalog=true.")])])
    [].

Definition upstream_tools_tool : JsonValue :=
  http_tool_with_schema "upstream_tools"
    "List callable tools for one configured stdio upstream MCP server"
    (json_object [("server", json_object [("type", json_string "string");
        ("description", json_string "Configured upstream server name from the merged MCP settings registry. Omit to return inventory without launching anything.")]);
      ("timeoutMs", json_object [("type", json_string "integer");
        ("description", json_string "Optional per-call timeout from 1000 to 300000 ms.")]);
      ("refresh", json_object [("type", json_string "boolean");
        ("description", json_string "Bypass the short in-process tools/list cache and refresh from the upstream server.")])])
    [].

Definition upstream_catalog_tool : JsonValue :=
  http_tool_with_schema "upstream_catalog"
    "List configured upstream MCP tools as a flat server-qualified catalog with concise descriptions"
    (json_object [("server", json_object [("type", json_string "string");
        ("description", json_string "Optional configured upstream server name. Omit to discover all configured upstream tool summaries.")]);
      ("timeoutMs", json_object [("type", json_string "integer");
        ("description", json_string "Optional per-server catalog timeout from 1000 to 300000 ms.")]);
      ("refresh", json_object [("type", json_string "boolean");
        ("description", json_string "Bypass the short in-process tools/list cache and refresh from the upstream server.")])])
    [].

Definition upstream_probe_tool : JsonValue :=
  http_tool_with_schema "upstream_probe"
    "Probe configured upstream MCP servers with short successful tools/list cache reuse"
    (json_object [("server", json_object [("type", json_string "string");
        ("description", json_string "Optional configured upstream server name. Omit to probe all configured servers.")]);
      ("timeoutMs", json_object [("type", json_string "integer");
        ("description", json_string "Optional per-server probe timeout from 1000 to 300000 ms. Default probe timeout is capped so one broken future server cannot stall the whole check.")]);
      ("refresh", json_object [("type", json_string "boolean");
        ("description", json_string "Bypass the short successful tools/list cache and force a fresh upstream probe.")])])
    [].

Definition upstream_policy_audit_tool : JsonValue :=
  http_tool_with_schema "upstream_policy_audit"
    "Audit configured upstream MCP tool annotations and declarative MCPace toolPolicies"
    (json_object [("server", json_object [("type", json_string "string");
        ("description", json_string "Optional configured upstream server name. Omit to audit all configured upstream tools.")]);
      ("timeoutMs", json_object [("type", json_string "integer");
        ("description", json_string "Optional per-server audit timeout from 1000 to 300000 ms.")]);
      ("refresh", json_object [("type", json_string "boolean");
        ("description", json_string "Bypass the short tools/list cache and force a fresh upstream audit.")])])
    [].

Definition upstream_policy_suggest_tool : JsonValue :=
  http_tool_with_schema "upstream_policy_suggest"
    "Generate declarative MCPace toolPolicies suggestions from live upstream MCP risk signals"
    (json_object [("server", json_object [("type", json_string "string");
        ("description", json_string "Optional configured upstream server name. Omit to suggest policies for all configured upstream tools.")]);
      ("timeoutMs", json_object [("type", json_string "integer");
        ("description", json_string "Optional per-server suggestion timeout from 1000 to 300000 ms.")]);
      ("refresh", json_object [("type", json_string "boolean");
        ("description", json_string "Bypass the short tools/list cache and force fresh upstream suggestions.")])])
    [].

Definition upstream_call_tool : JsonValue :=
  http_tool_with_schema "upstream_call"
    "Call a tool on a configured stdio upstream server"
    (json_object [("server", json_object [("type", json_string "string");
        ("description", json_string "Configured upstream server name.")]);
      ("tool", json_object [("type", json_string "string");
        ("description", json_string "Upstream tool name.")]);
      ("arguments", json_object [("type", json_string "object");
        ("description", json_string "Arguments to pass to the upstream tool.");
        ("additionalProperties", json_bool true)]);
      ("timeoutMs", json_object [("type", json_string "integer");
        ("description", json_string "Optional per-call timeout from 1000 to 300000 ms.")]);
      ("clientId", json_object [("type", json_string "string")]);
      ("sessionId", json_object [("type", json_string "string")]);
      ("projectRoot", json_object [("type", json_string "string")]);
      ("transport", json_object [("type", json_string "string")]);
      ("ttlMs", json_object [("type", json_string "integer");
        ("description", json_string "Optional runtime lease TTL in milliseconds.")]);
      ("metadata", json_object [("type", json_string "object")]);
      ("resultMode", json_object [("type", json_string "string");
        ("enum", json_array [json_string "native";
          json_string "compat";
          json_string "compact";
          json_string "summary"]);
        ("description", json_string "Tool-result content mode: native, compat, compact, or summary.")]);
      ("diagnostics", json_object [("type", json_string "string");
        ("enum", json_array [json_string "full"; json_string "summary"; json_string "none"]);
        ("description", json_string "MCPace lease/session diagnostics to retain.")]);
      ("nestedContent", json_object [("type", json_string "string");
        ("enum", json_array [json_string "full"; json_string "compact"]);
        ("description", json_string "Use compact to dedupe nested upstream content text.")]);
      ("tokenReducerPlugins", json_object [("type", json_string "array");
        ("description", json_string "Optional built-in token reducers, e.g. mcpace.native-content.v1.");
        ("items", json_object [("type", json_string "string")])]);
      ("allowToolRiskClasses", json_object [("type", json_string "array");
        ("description", json_string "Generic risk-class opt-in for config-declared upstream tool policies, for example ['desktop-observation'].");
        ("items", json_object [("type", json_string "string")])]);
      ("allowArguments", json_object [("type", json_string "array");
        ("description", json_string "Generic allow-argument opt-in names for config-declared upstream tool policies, for example ['allowCustomRisk'].");
        ("items", json_object [("type", json_string "string")])]);
      ("allowUnknownTool", json_object [("type", json_string "boolean");
        ("description", json_string "Explicit opt-in to call a trusted dynamic upstream tool that is not currently advertised by tools/list. Default is false.")])])
    ["server"; "tool"].

Definition upstream_batch_tool : JsonValue :=
  http_tool_with_schema "upstream_batch"
    "Call multiple tools on one configured stdio upstream server in a single state-preserving session"
    (json_object [("server", json_object [("type", json_string "string");
        ("description", json_string "Configured upstream server name.")]);
      ("calls", json_object [("type", json_string "array");
        ("description", json_string "Ordered upstream calls to execute after one initialize handshake. Use this for any stateful upstream server that needs a shared session.");
        ("items", upstream_batch_call_item_schema)]);
      ("timeoutMs", json_object [("type", json_string "integer");
        ("description", json_string "Optional total batch timeout from 1000 to 300000 ms.")]);
      ("clientId", json_object [("type", json_string "string")]);
      ("sessionId", json_object [("type", json_string "string")]);
      ("projectRoot", json_object [("type", json_string "string")]);
      ("transport", json_object [("type", json_string "string")]);
      ("ttlMs", json_object [("type", json_string "integer");
        ("description", json_string "Optional runtime lease TTL in milliseconds.")]);
      ("metadata", json_object [("type", json_string "object")]);
      ("resultMode", json_object [("type", json_string "string");
        ("enum", json_array [json_string "native";
          json_string "compat";
          json_string "compact";
          json_string "summary"]);
        ("description", json_string "Tool-result content mode: native, compat, compact, or summary.")]);
      ("diagnostics", json_object [("type", json_string "string");
        ("enum", json_array [json_string "full"; json_string "summary"; json_string "none"]);
        ("description", json_string "MCPace lease/session diagnostics to retain.")]);
      ("nestedContent", json_object [("type", json_string "string");
        ("enum", json_array [json_string "full"; json_string "compact"]);
        ("description", json_string "Use compact to dedupe nested upstream content text.")]);
      ("tokenReducerPlugins", json_object [("type", json_string "array");
        ("description", json_string "Optional built-in token reducers, e.g. mcpace.native-content.v1.");
        ("items", json_object [("type", json_string "string")])]);
      ("allowToolRiskClasses", json_object [("type", json_string "array");
        ("description", json_string "Generic risk-class opt-in for config-declared upstream tool policies, for example ['desktop-observation'].");
        ("items", json_object [("type", json_string "string")])]);
      ("allowArguments", json_object [("type", json_string "array");
        ("description", json_string "Generic allow-argument opt-in names for config-declared upstream tool policies, for example ['allowCustomRisk'].");
        ("items", json_object [("type", json_string "string")])]);
      ("allowUnknownTool", json_object [("type", json_string "boolean");
        ("description", json_string "Explicit opt-in to call a trusted dynamic upstream tool that is not currently advertised by tools/list. Default is false.")])])
    ["server"; "calls"].

Definition client_plan_tool : JsonValue :=
  http_tool_with_schema "client_plan"
    "Plan client connection routing for the current MCP context"
    (http_client_context_properties)
    [].

Definition client_export_tool : JsonValue :=
  http_tool_with_schema "client_export"
    "Build a client connection contract for the current MCP context"
    (http_client_context_properties)
    [].

Definition http_tool_definitions : list JsonValue :=
  [http_tool "doctor" "Inspect MCPace readiness";
   http_tool "hub_status" "Inspect hub status";
   http_tool "hub_up" "Start the hub";
   http_tool "hub_down" "Stop the hub";
   http_tool "hub_repair" "Repair stopped or stale hub state";
   http_tool "hub_logs" "Read hub logs";
   http_tool "runtime_leases" "List runtime leases";
   http_tool "server_list" "List configured servers";
   server_capabilities_tool;
   http_tool "runtime_diagnostics" "Explain MCPace runtime and upstream tool availability";
   adapter_profile_tool;
   adapter_route_tool;
   upstream_search_tool;
   surface_manifest_tool;
   upstream_tools_tool;
   upstream_catalog_tool;
   upstream_probe_tool;
   upstream_policy_audit_tool;
   upstream_policy_suggest_tool;
   upstream_call_tool;
   upstream_batch_tool;
   http_tool "client_list" "List known client targets";
   client_plan_tool;
   client_export_tool].

Definition http_tool_names : list string := omap (fun tool => json_get tool "name" ≫= as_str) http_tool_definitions.

Section surface.
Context (environment : string -> option string).

Definition http_tool_definitions_for_protocol (protocol : option string) : list JsonValue :=
  let options := tool_surface_options_from_http_header environment protocol in
  let names := omap (fun tool => string_at_path tool ["name"]) http_tool_definitions in
  let visible := visible_tool_names environment names in
  map (fun tool => shape_tool_for_client tool options)
    (List.filter (fun tool =>
       match string_at_path tool ["name"] with Some name => bool_decide (name ∈ visible) | None => false end)
     http_tool_definitions).

End surface.
