(* ===== verification/ToolRuntime.v ===== *)
(** * MCPace's tools behind the HTTP endpoint (src/dashboard/tool_runtime.rs)

    What a tool call does: its arguments are read, the context of the client is put together
    from the arguments and the request's headers, and one [HttpToolAction] is run.  What
    running an action gives is a parameter; the actions that reach upstream servers are the
    flows of LeaseRuntime. *)

From Stdlib Require Import Ascii.
From S2P Require Import Prelude RustStr BTree Json Execution HttpBoundary ToolPolicy ToolNames ToolView ToolExposure.
From S2P Require Import ExposureSafety HttpTools ServerConfig LeaseRuntime.

(** ** Arguments *)

Definition positive_at (args : JsonValue) (key : string) : option N :=
  option_map Z.to_N (opt_filter (fun value => (0 <? value)%Z) (value_at_path args [key] ≫= as_i64)).

Definition flag_at (args : JsonValue) (key : string) : bool := unwrap_or (bool_at_path args [key]) false.

Definition optional_http_string (args : JsonValue) (key : string) : result (option string) string :=
  match value_at_path args [key] with
  | Some (JString value) => Ok (Some value)
  | Some JNull | None => Ok None
  | Some _ => Err (key +:+ " must be a string when provided")
  end.

Definition required_http_string (args : JsonValue) (key : string) : result string string :=
  value ←? optional_http_string args key ;;
  ok_or value (key +:+ " is required").

Definition optional_object_arg (arguments : JsonValue) (key : string) : result JsonValue string :=
  match value_at_path arguments [key] with
  | Some (JObject map) => Ok (JObject map)
  | Some JNull | None => Ok empty_object
  | Some _ => Err (key +:+ " must be a JSON object")
  end.

Definition non_blank (value : option string) : option string :=
  opt_filter (fun v => negb (str_is_empty v)) (option_map trim value).

Definition batch_label (index : N) : string := "upstream_batch calls[" +:+ N_to_string index +:+ "]".

Definition parse_http_upstream_batch_call (raw_call : JsonValue) (index : N) : result UpstreamToolCall string :=
  match as_array raw_call with
  | Some items =>
      match items with
      | [] | _ :: _ :: _ :: _ => Err (batch_label index +:+ " tuple form must be [tool] or [tool, arguments]")
      | first :: rest =>
          tool ←? ok_or (non_blank (as_str first)) (batch_label index +:+ "[0] must be a non-empty tool string") ;;
          arguments ←? match rest with
                       | JObject map :: _ => Ok (JObject map)
                       | JNull :: _ | [] => Ok empty_object
                       | _ :: _ => Err (batch_label index +:+ "[1] must be a JSON object when present")
                       end ;;
          Ok (mkToolCall tool arguments)
      end
  | None =>
      tool ←? ok_or (non_blank (string_at_path raw_call ["tool"])) (batch_label index +:+ " requires a non-empty 'tool'") ;;
      arguments ←? optional_object_arg raw_call "arguments" ;;
      Ok (mkToolCall tool arguments)
  end.

Fixpoint parse_batch_calls (index : N) (raw_calls : list JsonValue) : result (list UpstreamToolCall) string :=
  match raw_calls with
  | [] => Ok []
  | raw_call :: raw_calls =>
      call ←? parse_http_upstream_batch_call raw_call index ;;
      calls ←? parse_batch_calls (index + 1) raw_calls ;;
      Ok (call :: calls)
  end.

(** ** The context of the client *)

Definition CLIENT_ID_METADATA_PATHS : list (list string) :=
  [["metadata"; "client"; "id"]; ["metadata"; "clientId"]; ["metadata"; "clientProfileId"];
   ["metadata"; "context"; "clientId"]].

Definition SESSION_ID_METADATA_PATHS : list (list string) :=
  [["metadata"; "session"; "id"]; ["metadata"; "sessionId"]; ["metadata"; "externalSessionId"];
   ["metadata"; "conversationId"]; ["metadata"; "context"; "sessionId"]; ["metadata"; "context"; "externalSessionId"];
   ["metadata"; "headers"; "Mcp-Session-Id"]; ["metadata"; "headers"; "mcp-session-id"]].

Definition PROJECT_ROOT_METADATA_PATHS : list (list string) :=
  [["metadata"; "projectRoot"]; ["metadata"; "workspaceRoot"]; ["metadata"; "workspace"; "root"];
   ["metadata"; "context"; "projectRoot"]; ["metadata"; "context"; "cwd"]; ["metadata"; "cwd"]].

Definition TRANSPORT_METADATA_PATHS : list (list string) :=
  [["metadata"; "transport"]; ["metadata"; "ingress"]; ["metadata"; "context"; "transport"]].

(** The first [Some]. *)
Definition first_some {A B} (f : A -> option B) (l : list A) : option B :=
  fold_right (fun a rest => match f a with Some b => Some b | None => rest end) None l.

Definition first_http_metadata_string (args : JsonValue) (paths : list (list string)) : option string :=
  first_some (fun path => non_blank (string_at_path args path)) paths.

(** The argument, else the metadata, else the headers in their order. *)
Definition context_string (args : JsonValue) (request : option HttpRequest) (key : string) (paths : list (list string))
    (headers : list string) : result (option string) string :=
  given ←? optional_http_string args key ;;
  Ok (opt_or given (opt_or (first_http_metadata_string args paths) (first_some (request_header_string request) headers))).

Definition http_allow_arguments (args : JsonValue) : result (gset string) string :=
  map_err (fun error => error +:+ " when provided") (collect_allow_arguments args).

Definition http_allowed_tool_risk_classes (args : JsonValue) : result (gset string) string :=
  map_err (fun error => error +:+ " when provided") (collect_allowed_tool_risk_classes args).

Definition client_id_headers : list string := ["x-mcp-client-id"; "x-mcpace-client-id"; "x-codex-client-id"].
Definition session_id_headers : list string :=
  ["mcp-session-id"; "x-mcp-session-id"; "x-mcpace-session-id"; "x-mcpace-conversation-id"; "x-mcpace-chat-id";
   "x-codex-session-id"; "x-codex-conversation-id"].
Definition project_root_headers : list string :=
  ["x-mcpace-project-root"; "x-mcpace-workspace-root"; "x-codex-project-root"].

Definition http_upstream_lease_context (args : JsonValue) (request : option HttpRequest)
    : result UpstreamLeaseContext string :=
  client ←? context_string args request "clientId" CLIENT_ID_METADATA_PATHS client_id_headers ;;
  session ←? context_string args request "sessionId" SESSION_ID_METADATA_PATHS session_id_headers ;;
  project ←? context_string args request "projectRoot" PROJECT_ROOT_METADATA_PATHS project_root_headers ;;
  transport ←? context_string args request "transport" TRANSPORT_METADATA_PATHS [] ;;
  allow ←? http_allow_arguments args ;;
  classes ←? http_allowed_tool_risk_classes args ;;
  Ok {| client_id := Some (unwrap_or client "local-http");
        session_id := session;
        project_root := project;
        ToolPolicy.transport := Some (unwrap_or transport "streamable-http");
        metadata := value_at_path args ["metadata"];
        ttl_ms := positive_at args "ttlMs";
        allow_arguments := allow;
        allowed_tool_risk_classes := classes |}.

(** ** Actions *)

Record CatalogRequest := mkCatalogRequest { about_server : option string; catalog_timeout : option N; catalog_refresh : bool }.

Inductive HttpToolAction :=
| RunCommand (arguments : list string)
| RuntimeDiagnostics
| AdapterProfile (client_metadata : option JsonValue) (ingress : string) (visible : list string) (live : bool)
    (timeout : option N) (fresh : bool)
| AdapterRoute (calls : option JsonValue) (live : bool) (timeout : option N) (fresh : bool)
| UpstreamSearch (server query : option string) (limit : N) (include_schema : bool) (timeout : option N) (fresh : bool)
| SurfaceManifest (names : list string) (live : bool) (timeout : option N) (fresh : bool)
| ListTools (r : CatalogRequest)
| ProbeServers (r : CatalogRequest)
| CatalogTools (r : CatalogRequest)
| AuditPolicies (r : CatalogRequest)
| SuggestPolicies (r : CatalogRequest)
| PooledCall (server tool : string) (arguments : JsonValue) (timeout : option N) (context : UpstreamLeaseContext)
| PooledBatch (server : string) (calls : list UpstreamToolCall) (timeout : option N) (context : UpstreamLeaseContext).

Definition catalog_request (args : JsonValue) : CatalogRequest :=
  mkCatalogRequest (string_at_path args ["server"]) (positive_at args "timeoutMs") (flag_at args "refresh").

Definition push_optional_http_arg (args : list string) (flag : string) (value : option string) : list string :=
  match value with Some value => args ++ [flag; value] | None => args end.

Definition unsupported_tool (name : string) : string :=
  "unsupported MCPace HTTP tool '" +:+ name +:+ "'. This HTTP endpoint exposes MCPace management tools plus adapter_profile/upstream_search and stdio upstream access through surface_manifest/upstream_catalog/upstream_probe/upstream_policy_audit/upstream_policy_suggest/upstream_tools/upstream_call/upstream_batch. In auto/native exposure mode, upstream tools may also appear as projected u_<server>_<tool>_<hash> names in tools/list; call adapter_profile for the current routing plan, upstream_search for concise discovery, upstream_tools for one server's full schemas, then upstream_call or upstream_batch when brokered routing is better. Call runtime_diagnostics for exact status.".

Section runtime.
Context `{SerdeJson} (environment : string -> option string).

Definition build_http_client_args (action : string) (args : JsonValue) (request : option HttpRequest)
    : result (list string) string :=
  context ←? http_upstream_lease_context args request ;;
  let client := unwrap_or (client_id context) "local-http" in
  let command := ["client"; action; "--json"] in
  let command := if String.eqb action "export" then command ++ [client] else command ++ ["--client-id"; client] in
  let command := push_optional_http_arg command "--session-id" (session_id context) in
  let command := push_optional_http_arg command "--project-root" (project_root context) in
  let command := push_optional_http_arg command "--transport" (ToolPolicy.transport context) in
  Ok (match metadata context with
      | Some metadata => command ++ ["--metadata-json"; to_compact_string metadata]
      | None => command
      end).

(** The tools of MCPace itself. *)
Definition own_tool_action (name : string) (args : JsonValue) (request : option HttpRequest)
    : result HttpToolAction string :=
  let timeout := positive_at args "timeoutMs" in
  let live := flag_at args "includeLiveCatalog" in
  let fresh := flag_at args "refresh" in
  if String.eqb name "doctor" then Ok (RunCommand ["doctor"; "--json"])
  else if String.eqb name "hub_status" then Ok (RunCommand ["hub"; "status"; "--json"])
  else if String.eqb name "hub_up" then Ok (RunCommand ["hub"; "up"; "--json"])
  else if String.eqb name "hub_down" then Ok (RunCommand ["hub"; "down"; "--json"])
  else if String.eqb name "hub_repair" then Ok (RunCommand ["hub"; "repair"; "--json"])
  else if String.eqb name "hub_logs" then
    let tail := unwrap_or (value_at_path args ["tail"] ≫= as_i64) 20%Z in
    Ok (RunCommand ["hub"; "logs"; "--json"; "--tail"; Z_to_string tail])
  else if String.eqb name "runtime_leases" then Ok (RunCommand ["hub"; "lease"; "list"; "--json"])
  else if String.eqb name "server_list" then Ok (RunCommand ["server"; "list"; "--json"])
  else if String.eqb name "server_capabilities" then
    name ←? required_http_string args "name" ;;
    Ok (RunCommand ["server"; "capabilities"; "--json"; "--name"; name])
  else if String.eqb name "runtime_diagnostics" then Ok RuntimeDiagnostics
  else if String.eqb name "adapter_profile" then
    context ←? http_upstream_lease_context args request ;;
    Ok (AdapterProfile (metadata context) (unwrap_or (ToolPolicy.transport context) "streamable-http")
          (visible_tool_names environment http_tool_names) live timeout fresh)
  else if String.eqb name "adapter_route" then Ok (AdapterRoute (value_at_path args ["calls"]) live timeout fresh)
  else if String.eqb name "upstream_search" then
    Ok (UpstreamSearch (string_at_path args ["server"]) (string_at_path args ["query"])
          (unwrap_or (positive_at args "limit") 20%N) (flag_at args "includeSchema") timeout fresh)
  else if String.eqb name "surface_manifest" then Ok (SurfaceManifest http_tool_names live timeout fresh)
  else if String.eqb name "upstream_tools" then Ok (ListTools (catalog_request args))
  else if String.eqb name "upstream_probe" then Ok (ProbeServers (catalog_request args))
  else if String.eqb name "upstream_catalog" then Ok (CatalogTools (catalog_request args))
  else if String.eqb name "upstream_policy_audit" then Ok (AuditPolicies (catalog_request args))
  else if String.eqb name "upstream_policy_suggest" then Ok (SuggestPolicies (catalog_request args))
  else if String.eqb name "upstream_call" then
    server ←? ok_or (string_at_path args ["server"]) "upstream_call requires a 'server' string" ;;
    tool ←? ok_or (string_at_path args ["tool"]) "upstream_call requires a 'tool' string" ;;
    arguments ←? optional_object_arg args "arguments" ;;
    context ←? http_upstream_lease_context args request ;;
    Ok (PooledCall server tool arguments timeout context)
  else if String.eqb name "upstream_batch" then
    server ←? ok_or (string_at_path args ["server"]) "upstream_batch requires a 'server' string" ;;
    raw_calls ←? ok_or (array_at_path args ["calls"]) "upstream_batch requires a 'calls' array" ;;
    calls ←? parse_batch_calls 0 raw_calls ;;
    context ←? http_upstream_lease_context args request ;;
    Ok (PooledBatch server calls timeout context)
  else if String.eqb name "client_list" then Ok (RunCommand ["client"; "list"; "--json"])
  else if String.eqb name "client_plan" then
    command ←? build_http_client_args "plan" args request ;; Ok (RunCommand command)
  else if String.eqb name "client_export" then
    command ←? build_http_client_args "export" args request ;; Ok (RunCommand command)
  else Err (unsupported_tool name).

(** A projected tool: the control arguments are MCPace's, the rest the server's. *)
Definition projected_tool_action (target : ProjectedToolTarget) (args : JsonValue) (request : option HttpRequest)
    : result HttpToolAction string :=
  let control_arguments := projected_adapter_control_arguments args in
  context ←? http_upstream_lease_context control_arguments request ;;
  Ok (PooledCall (target_server target) (target_tool target) (strip_projected_adapter_arguments args)
        (positive_at control_arguments "timeoutMs") context).

(** [resolve_projected_tool] for the reserved names, and what running an action gives. *)
Context (resolve : string -> gset string -> option (result (option ProjectedToolTarget) string)).
Context (perform : HttpToolAction -> result JsonValue string).

(** [None]: the names of the projected tools run out. *)
Definition http_tool_action (name : string) (args : JsonValue) (request : option HttpRequest)
    : option (result HttpToolAction string) :=
  if starts_with "u_" name then
    target ← resolve name (list_to_set http_tool_names);
    Some (target ←? target ;;
          match target with
          | Some target => projected_tool_action target args request
          | None => own_tool_action name args request
          end)
  else Some (own_tool_action name args request).

Definition run_http_tool (name : string) (args : JsonValue) (request : option HttpRequest)
    : option (result JsonValue string) :=
  action ← http_tool_action name args request;
  Some (action ←? action ;; perform action).

End runtime.

(** ** What is advertised is supported *)

Lemma http_tool_names_eq : http_tool_names =
  ["doctor"; "hub_status"; "hub_up"; "hub_down"; "hub_repair"; "hub_logs"; "runtime_leases"; "server_list";
   "server_capabilities"; "runtime_diagnostics"; "adapter_profile"; "adapter_route"; "upstream_search";
   "surface_manifest"; "upstream_tools"; "upstream_catalog"; "upstream_probe"; "upstream_policy_audit";
   "upstream_policy_suggest"; "upstream_call"; "upstream_batch"; "client_list"; "client_plan"; "client_export"].
Proof. vm_compute. reflexivity. Qed.

Lemma known_tool name : one_of http_tool_names name = true -> name ∈ http_tool_names.
Proof. apply one_of_elem. Qed.

Lemma own_tool_action_known `{SerdeJson} environment name args request a :
  own_tool_action environment name args request = Ok a -> name ∈ http_tool_names.
Proof.
  unfold own_tool_action.
  repeat match goal with |- context [String.eqb name ?n] =>
    destruct (String.eqb_spec name n) as [-> |]; [intros _; apply known_tool; vm_compute; reflexivity|] end.
  done.
Qed.

(** Arguments that suffice for every tool. *)
Definition full_arguments : JsonValue :=
  json_object [("calls", json_array []); ("name", json_string "n"); ("server", json_string "s"); ("tool", json_string "t")].

(** The tools that [tools/list] may show under MCPace's own names are exactly the ones a call
    can run, and no name is given twice. *)
Theorem tools_advertised_iff_supported `{SerdeJson} environment :
  NoDup http_tool_names /\
  forall name, name ∈ http_tool_names <-> exists args a, own_tool_action environment name args None = Ok a.
Proof.
  split.
  { rewrite http_tool_names_eq.
    repeat (apply NoDup_cons; split;
      [intros Hx; repeat (apply elem_of_cons in Hx as [Hx|Hx]; [discriminate Hx|]); by apply not_elem_of_nil in Hx|]).
    constructor. }
  intros name. split; [|by intros (args & a & Ha); eapply own_tool_action_known].
  intros Hn. exists full_arguments.
  assert (Hok : is_ok (own_tool_action environment name full_arguments None) = true).
  { rewrite http_tool_names_eq in Hn.
    repeat (apply elem_of_cons in Hn as [-> |Hn]; [reflexivity|]). by apply not_elem_of_nil in Hn. }
  destruct (own_tool_action environment name full_arguments None) as [a|]; [by exists a|done].
Qed.

(** Actions that call upstream tools, or start, stop or repair the hub. *)
Definition acts (a : HttpToolAction) : bool :=
  match a with
  | PooledCall _ _ _ _ _ | PooledBatch _ _ _ _ => true
  | RunCommand (command :: verb :: _) => String.eqb command "hub" && one_of ["up"; "down"; "repair"] verb
  | _ => false
  end.

Lemma Ok_inj {A E} (x y : A) : @Ok A E x = Ok y -> x = y.
Proof. congruence. Qed.

Lemma client_command `{SerdeJson} action args request command :
  build_http_client_args action args request = Ok command -> acts (RunCommand command) = false.
Proof.
  unfold build_http_client_args. destruct (http_upstream_lease_context args request) as [ctx|]; intros E; [|discriminate E].
  injection E as <-.
  destruct (String.eqb action "export"), (session_id ctx), (project_root ctx), (ToolPolicy.transport ctx), (metadata ctx);
    reflexivity.
Qed.

(** A tool that clients are told only reads never calls an upstream tool and never starts,
    stops or repairs the hub, whatever its arguments. *)
Theorem read_only_tools_do_not_act `{SerdeJson} environment name args request a :
  http_read_only name = true -> own_tool_action environment name args request = Ok a -> acts a = false.
Proof.
  intros Hr. unfold own_tool_action.
  repeat match goal with |- context [String.eqb name ?n] =>
    destruct (String.eqb_spec name n) as [-> |]; [try discriminate Hr|] end.
  all: lazymatch goal with
       | |- Ok _ = Ok _ -> _ => intros E; apply Ok_inj in E as <-; reflexivity
       | |- context [required_http_string] =>
           destruct (required_http_string args "name"); intros E; [apply Ok_inj in E as <-; reflexivity|discriminate E]
       | |- context [build_http_client_args ?x] =>
           destruct (build_http_client_args x args request) eqn:Eb; intros E; [|discriminate E];
           apply Ok_inj in E as <-; exact (client_command _ _ _ _ Eb)
       | |- Err _ = Ok _ -> _ => intros E; discriminate E
       | |- _ => destruct (http_upstream_lease_context args request); intros E; [apply Ok_inj in E as <-; reflexivity|discriminate E]
       end.
Qed.

(** ** Sessions stay apart *)

Lemma header_trimmed request key v : request_header_string request key = Some v -> trimmed (Some v) = Some v.
Proof.
  unfold request_header_string, request_header_string_unique. destruct request as [r|]; [|done].
  destruct (header_values _ r) as [|x [|y l] ]; [done| |done].
  destruct (str_is_empty (trim x)) eqn:E; [done|]. intros [= <-]. cbn. by rewrite trim_idem, E.
Qed.

(** Arguments that name no session of their own. *)
Definition names_no_session (args : JsonValue) : Prop :=
  value_at_path args ["sessionId"] = None /\ value_at_path args ["metadata"] = None.

Lemma no_metadata args path : value_at_path args ["metadata"] = None -> string_at_path args ("metadata" :: path) = None.
Proof. unfold string_at_path. cbn [value_at_path]. by destruct (json_get args "metadata"). Qed.

Lemma context_of_session args request sid ctx :
  names_no_session args -> request_header_string (Some request) "mcp-session-id" = Some sid ->
  http_upstream_lease_context args (Some request) = Ok ctx ->
  session_id ctx = Some sid /\ metadata ctx = None.
Proof.
  intros [Hs Hm] Hh. unfold http_upstream_lease_context, context_string. unfold optional_http_string at 2. rewrite Hs.
  assert (Hfirst : first_http_metadata_string args SESSION_ID_METADATA_PATHS = None).
  { unfold first_http_metadata_string, SESSION_ID_METADATA_PATHS. cbn [first_some fold_right].
    rewrite !no_metadata by done. done. }
  rewrite Hfirst. cbn [opt_or session_id_headers first_some fold_right]. rewrite Hh.
  destruct (optional_http_string args "clientId") as [c|]; [|done].
  destruct (optional_http_string args "projectRoot") as [p|]; [|done].
  destruct (optional_http_string args "transport") as [t|]; [|done].
  destruct (http_allow_arguments args); [|done]. destruct (http_allowed_tool_risk_classes args); [|done].
  intros E. apply Ok_inj in E as <-. done.
Qed.

Section sessions.
Context `{SerdeJson} `{Hasher}.

Lemma session_dimension ctx d sid :
  one_of session_like d = true -> ctx_metadata ctx = None -> ctx_session_id ctx = Some sid ->
  trimmed (Some sid) = Some sid -> affinity_value ctx d = Some sid.
Proof.
  intros Hd Hm Hs Ht. apply one_of_elem in Hd. unfold session_like in Hd.
  assert (He : affinity_value ctx d = opt_or (application_session_id ctx) (trimmed (ctx_session_id ctx)) \/
               affinity_value ctx d = opt_or (metadata_string ctx [["mcpace"; "transportSessionId"]; ["transportSessionId"] ])
                 (trimmed (ctx_session_id ctx))).
  { repeat (apply elem_of_cons in Hd as [-> |Hd]; [by (left + right)|]). by apply not_elem_of_nil in Hd. }
  unfold application_session_id, metadata_string in He. rewrite Hm, Hs, Ht in He. by destruct He.
Qed.

(** Requests of two MCP sessions that use a session-isolated server, and name no session of
    their own in the arguments, are put into one worker group only if their session ids agree
    in length and hash. *)
Theorem http_sessions_stay_apart server args args' request request' sid sid' ctx ctx' k k' :
  policy_wf (execution server) -> mode (execution server) = SessionIsolated ->
  names_no_session args -> names_no_session args' ->
  request_header_string (Some request) "mcp-session-id" = Some sid ->
  request_header_string (Some request') "mcp-session-id" = Some sid' ->
  http_upstream_lease_context args (Some request) = Ok ctx ->
  http_upstream_lease_context args' (Some request') = Ok ctx' ->
  execution_affinity_key server (Some ctx) = Ok k -> execution_affinity_key server (Some ctx') = Ok k' ->
  key_fingerprint k = key_fingerprint k' ->
  str_len sid = str_len sid' /\ hash_str sid = hash_str sid'.
Proof.
  intros Hwf Hmode Hargs Hargs' Hsid Hsid' Hctx Hctx' Hk Hk' Hf.
  destruct Hwf as [Ha|Ho]; [|by rewrite (off_mode _ Ho) in Hmode].
  destruct (active_session _ Ha Hmode) as (d & Hd & Hlike).
  destruct (context_of_session _ _ _ _ Hargs Hsid Hctx) as [Hs Hm].
  destruct (context_of_session _ _ _ _ Hargs' Hsid' Hctx') as [Hs' Hm'].
  unfold execution_affinity_key in Hk, Hk'.
  destruct (affinity_key _ _) as [k0|] eqn:Ek in Hk; [|done]. apply Ok_inj in Hk as <-.
  destruct (affinity_key _ _) as [k0'|] eqn:Ek' in Hk'; [|done]. apply Ok_inj in Hk' as <-.
  destruct (affinity_key_separates _ _ _ _ _ (active_affinity_supported _ Ha) Ek Ek' Hf d Hd) as (v & v' & Hv & Hv' & Hl & Hh).
  rewrite (session_dimension _ d sid) in Hv; [|done|done|done|by eapply header_trimmed].
  rewrite (session_dimension _ d sid') in Hv'; [|done|done|done|by eapply header_trimmed].
  by injection Hv as <-; injection Hv' as <-.
Qed.

End sessions.

(** ** Listed projected tools are called

    The listing reserves the names it shows, a call all of MCPace's names; no such name looks
    like a projected one, so both give the tools the same names. *)

Definition projectable (n : string) : bool := starts_with (safe_token PROJECTED_TOOL_PREFIX +:+ "_") n.

Definition same_projected (used used' : gset string) : Prop :=
  forall n, projectable n = true -> (n ∈ used <-> n ∈ used').

Lemma same_projected_insert used used' n : same_projected used used' -> same_projected ({[n]} ∪ used) ({[n]} ∪ used').
Proof. intros Hs m Hm. specialize (Hs m Hm). set_solver. Qed.

Lemma candidate_projectable server item suffix :
  (suffix <= USIZE_MAX)%N ->
  projectable (projected_safe_name PROJECTED_TOOL_PREFIX server item (short_hash (server +:+ String "031" item)) suffix) = true.
Proof.
  intros Hs. destruct (short_hash_shape (server +:+ String "031" item)) as [Hw Hl].
  destruct (projected_safe_name_shape PROJECTED_TOOL_PREFIX server item _ suffix safe_prefix Hw Hl Hs) as (s & i & -> & _).
  unfold name_of, projectable. rewrite <- append_assoc_str. apply starts_with_app.
Qed.

Lemma unique_loop_same fuel fuel' server item suffix used used' n n' w w' :
  let hash := short_hash (server +:+ String "031" item) in
  same_projected used used' -> (suffix <= USIZE_MAX)%N ->
  unique_loop fuel PROJECTED_TOOL_PREFIX server item hash suffix used = Some (n, w) ->
  unique_loop fuel' PROJECTED_TOOL_PREFIX server item hash suffix used' = Some (n', w') ->
  n = n' /\ w = {[n]} ∪ used /\ w' = {[n]} ∪ used'.
Proof.
  intros hash Hs. revert fuel' suffix. induction fuel as [|fuel IH]; intros [|fuel'] suffix Hm; try done.
  cbn [unique_loop]. pose proof (Hs _ (candidate_projectable server item suffix Hm)) as Hc. fold hash in Hc.
  destruct (decide _) as [Hu|Hu]; destruct (decide _) as [Hu'|Hu']; [|tauto..|].
  - apply IH. unfold sat_add. lia.
  - by intros [= <- <-] [= <- <-].
Qed.

Lemma project_tools_same environment server tools used used' out out' w w' :
  same_projected used used' ->
  project_tools environment server tools used = Some (out, w) ->
  project_tools environment server tools used' = Some (out', w') -> out = out' /\ same_projected w w'.
Proof.
  revert used used' out out'. induction tools as [|tool tools IH]; intros used used' out out' Hs; cbn [project_tools].
  { by intros [= <- <-] [= <- <-]. }
  destruct (trimmed_name tool) as [name|]; [|by apply IH].
  destruct (unique_projected_name _ _ _ used) as [ [n v] |] eqn:E; [|done].
  destruct (unique_projected_name _ _ _ used') as [ [n' v'] |] eqn:E'; [|done]. cbn [mbind option_bind].
  destruct (unique_loop_same _ _ _ _ 0 _ _ _ _ _ _ Hs ltac:(vm_compute; discriminate) E E') as (<- & -> & ->).
  destruct (project_tools environment server tools ({[n]} ∪ used)) as [ [rest x] |] eqn:Er; [|done].
  destruct (project_tools environment server tools ({[n]} ∪ used')) as [ [rest' x'] |] eqn:Er'; [|done].
  cbn [mbind option_bind]. intros [= <- <-] [= <- <-].
  destruct (IH _ _ _ _ (same_projected_insert _ _ n Hs) Er Er') as [-> Hw]. done.
Qed.

Lemma project_servers_same environment servers used used' out out' :
  same_projected used used' ->
  project_servers environment servers used = Some out -> project_servers environment servers used' = Some out' -> out = out'.
Proof.
  revert used used' out out'. induction servers as [|server servers IH]; intros used used' out out' Hs; cbn [project_servers].
  { by intros [= <-] [= <-]. }
  destruct (if is_true_at server "ok" then trimmed_name server else None) as [name|]; [|by apply IH].
  destruct (project_tools environment name _ used) as [ [p w] |] eqn:E; [|done].
  destruct (project_tools environment name _ used') as [ [p' w'] |] eqn:E'; [|done]. cbn [mbind option_bind].
  destruct (project_tools_same _ _ _ _ _ _ _ _ _ Hs E E') as [<- Hw].
  destruct (project_servers environment servers w) as [rest|] eqn:Er; [|done].
  destruct (project_servers environment servers w') as [rest'|] eqn:Er'; [|done]. cbn [mbind option_bind].
  intros [= <-] [= <-]. by rewrite (IH _ _ _ _ Hw Er Er').
Qed.

Section called.
Context `{SerdeJson} (environment : string -> option string).
Context (cached_catalog : result JsonValue string) (raw_catalog : option N -> bool -> result JsonValue string).
Context (policy_info : string -> string -> result JsonValue string).

Lemma projected_tool_set_same options used used' set set' :
  same_projected used used' ->
  projected_tool_set environment cached_catalog raw_catalog policy_info used options = Some (Ok set) ->
  projected_tool_set environment cached_catalog raw_catalog policy_info used' options = Some (Ok set') -> set = set'.
Proof.
  intros Hs. unfold projected_tool_set. destruct (projection_catalog _ _ _ _ _) as [catalog|]; [|done].
  destruct (project_servers environment (items_at catalog "servers") used) as [all|] eqn:E; [|done].
  destruct (project_servers environment (items_at catalog "servers") used') as [all'|] eqn:E'; [|done].
  cbn [mbind option_bind]. rewrite (project_servers_same _ _ _ _ _ _ Hs E E'). congruence.
Qed.

Lemma own_names_not_projectable n : n ∈ http_tool_names -> projectable n = false.
Proof.
  rewrite http_tool_names_eq. intros Hn.
  repeat (apply elem_of_cons in Hn as [-> |Hn]; [vm_compute; reflexivity|]). by apply not_elem_of_nil in Hn.
Qed.

Lemma own_names_same (base : list JsonValue) :
  (forall n, n ∈ tool_names base -> n ∈ http_tool_names) ->
  same_projected (list_to_set (tool_names base)) (list_to_set http_tool_names).
Proof.
  intros Hb n Hn. rewrite !elem_of_list_to_set.
  split; intros Hin; [apply Hb in Hin|]; by rewrite own_names_not_projectable in Hn.
Qed.

Lemma own_names_size (names : list string) :
  (forall n, n ∈ names -> n ∈ http_tool_names) -> (size (list_to_set names : gset string) <= 24)%nat.
Proof.
  intros Hn. transitivity (size (list_to_set http_tool_names : gset string)).
  - apply subseteq_size. intros n. rewrite !elem_of_list_to_set. apply Hn.
  - rewrite http_tool_names_eq. vm_compute. lia.
Qed.

Lemma env_options_budget : (budget (options_from_env environment) <= DEFAULT_PROJECTION_CANDIDATE_LIMIT_MAX)%N.
Proof. unfold options_from_env, clamp. cbn [budget]. change DEFAULT_PROJECTION_CANDIDATE_LIMIT_MAX with 8192%N. lia. Qed.

Lemma call_resolution_options :
  refresh (options_from_env environment) = false ->
  options_for_call_resolution environment = options_from_env environment.
Proof. intros Hr. unfold options_for_call_resolution. rewrite <- Hr at 1. by destruct (options_from_env environment). Qed.

(** A projected tool of the list is reached by its name: calling it over HTTP makes a call
    of the tool it stands for, on its server, with the client's own arguments for the server
    and MCPace's control arguments taken out. *)
Theorem listed_projected_tools_are_called base set d args request :
  refresh (options_from_env environment) = false ->
  (forall n, n ∈ tool_names base -> n ∈ http_tool_names) ->
  projected_tool_set environment cached_catalog raw_catalog policy_info (list_to_set (tool_names base))
    (options_from_env environment) = Some (Ok set) ->
  projection_enabled set = true -> d ∈ set_tools set ->
  exists n server tool,
    name_at d = Some n /\ string_at_path d ["_meta"; "mcpace/upstream"; "server"] = Some server /\
    string_at_path d ["_meta"; "mcpace/upstream"; "tool"] = Some tool /\
    http_tool_action environment (fun name reserved =>
        resolve_projected_tool environment cached_catalog raw_catalog policy_info name reserved
          (options_for_call_resolution environment)) n args request
    = Some (projected_tool_action (mkToolTarget server tool) args request).
Proof.
  intros Hr Hbase Hset Hen Hd. rewrite call_resolution_options by done.
  pose proof (own_names_size _ Hbase) as Hsize. pose proof (own_names_size http_tool_names (fun n Hn => Hn)) as Hsize'.
  destruct (projected_set_spec environment cached_catalog raw_catalog policy_info (options_from_env environment)
    (list_to_set http_tool_names) env_options_budget) as [ [e He] | (source & cat & all & used' & Hs & He & Hfresh & Hoff) ];
    [unfold USIZE_MAX, U64_MAX; lia| |].
  { exfalso. unfold projected_tool_set in *. destruct (projection_catalog _ _ _ _ _) as [catalog|]; [|done].
    destruct (project_servers environment (items_at catalog "servers") _) as [all|] in He; [|done]. done. }
  pose proof (projected_tool_set_same _ _ _ _ _ (own_names_same base Hbase) Hset He) as ->.
  destruct (set_tools_spec environment policy_info (options_from_env environment) (list_to_set http_tool_names)
    source cat all used' Hfresh Hoff) as [_ Hspec].
  destruct (Hspec d Hd) as (n & server & tool & Hn & _ & Hshape & Ho & Hres).
  exists n, server, tool. split_and!; [done| | |].
  - destruct Ho as (? & ? & ? & _ & _ & _ & _ & _ & _ & ? & _ & ->). apply projected_definition_server.
  - destruct Ho as (? & ? & ? & _ & _ & _ & _ & _ & _ & ? & _ & ->). apply projected_definition_tool.
  - unfold http_tool_action. destruct Hshape as (_ & _ & Hstart).
    change (safe_token PROJECTED_TOOL_PREFIX +:+ "_") with "u_" in Hstart. rewrite Hstart.
    unfold resolve_projected_tool. rewrite He. cbn [mbind option_bind]. rewrite Hen. cbn [negb]. rewrite Hres.
    destruct (exposure_mode (options_from_env environment)) eqn:Em; try done; exfalso; clear -Hen Em; revert Hen Em;
      generalize (options_from_env environment); intros o Hen Em; unfold tool_set_of in Hen; cbn in Hen;
      by rewrite Em in Hen.
Qed.

End called.

(** ** Witnesses *)

Lemma read_only_tools_do_not_act_witness :
  acts (RunCommand ["hub"; "logs"; "--json"; "--tail"; "20"]) = false /\ http_read_only "hub_logs" = true.
Proof.
  split; [|reflexivity].
  apply (@read_only_tools_do_not_act TreeCodec.codec (fun _ => None) "hub_logs" empty_object None); reflexivity.
Defined.

Definition sample_isolated : UpstreamServerConfig :=
  mkServer "notes" true None "stdio" None [] [] [] None None 1000 sample_session_policy [].

Definition sample_of_session (sid : string) : HttpRequest :=
  mkRequest "POST" "/mcp" EmptyString [("mcp-session-id", sid)] [].

Definition sample_context_of (sid : string) : UpstreamLeaseContext :=
  mkContext (Some "local-http") (Some sid) None (Some "streamable-http") None None ∅ ∅.

Lemma http_sessions_stay_apart_witness :
  exists k k', execution_affinity_key (H := TreeCodec.codec) (H0 := FnvHasher.hasher) sample_isolated (Some (sample_context_of "one")) = Ok k /\
    execution_affinity_key (H := TreeCodec.codec) (H0 := FnvHasher.hasher) sample_isolated (Some (sample_context_of "two")) = Ok k' /\
    key_fingerprint k <> key_fingerprint k'.
Proof.
  eexists _, _. split; [vm_compute; reflexivity|]. split; [vm_compute; reflexivity|]. intros E.
  destruct (http_sessions_stay_apart (H := TreeCodec.codec) (H0 := FnvHasher.hasher) sample_isolated empty_object empty_object
    (sample_of_session "one") (sample_of_session "two") "one" "two" (sample_context_of "one") (sample_context_of "two") _ _
    (normalize_wf _) eq_refl (conj eq_refl eq_refl) (conj eq_refl eq_refl) eq_refl eq_refl eq_refl eq_refl
    ltac:(vm_compute; reflexivity) ltac:(vm_compute; reflexivity) E) as [_ Hh].
  vm_compute in Hh. discriminate Hh.
Defined.

(** A projected set over MCPace's environment with native exposure. *)
Definition native_environment (name : string) : option string :=
  if String.eqb name "MCPACE_TOOL_EXPOSURE" then Some "native" else None.

Definition sample_native_set : option (result ProjectedToolSet string) :=
  projected_tool_set (H := TreeCodec.codec) native_environment (Err EmptyString) (fun _ _ => Ok sample_catalog) (tool_policy_info (Ok sample_servers))
    (list_to_set (tool_names http_tool_definitions)) (options_from_env native_environment).

Lemma sample_native_set_names :
  match sample_native_set with
  | Some (Ok set) => projection_enabled set = true /\ tool_names (set_tools set) = ["u_github_list_issues_e9caa715cd"]
  | _ => False
  end.
Proof. vm_compute. split; reflexivity. Qed.

Lemma set_exists (o : option (result ProjectedToolSet string)) (names : list string) :
  match o with
  | Some (Ok set) => projection_enabled set = true /\ tool_names (set_tools set) = names
  | _ => False
  end -> exists set, o = Some (Ok set) /\ projection_enabled set = true /\ tool_names (set_tools set) = names.
Proof. intros Ho. destruct o as [ [set|] |]; [by exists set|done..]. Qed.

Lemma tool_names_cons tools n names : tool_names tools = n :: names -> exists d, d ∈ tools /\ name_at d = Some n.
Proof.
  intros E. assert (Hn : n ∈ tool_names tools) by (rewrite E; left). unfold tool_names in Hn.
  apply list_elem_of_omap in Hn as (d & Hd & Hn). by exists d.
Qed.

Lemma listed_projected_tools_are_called_witness :
  exists d server tool, name_at d = Some "u_github_list_issues_e9caa715cd" /\
    http_tool_action (H := TreeCodec.codec) native_environment (fun name reserved =>
        resolve_projected_tool (H := TreeCodec.codec) native_environment (Err EmptyString) (fun _ _ => Ok sample_catalog)
          (tool_policy_info (Ok sample_servers)) name reserved (options_for_call_resolution native_environment))
      "u_github_list_issues_e9caa715cd" empty_object None
    = Some (projected_tool_action (mkToolTarget server tool) empty_object None).
Proof.
  destruct (set_exists sample_native_set ["u_github_list_issues_e9caa715cd"] sample_native_set_names) as (set & Hset & Hen & Hnames).
  destruct (tool_names_cons _ _ _ Hnames) as (d & Hd & Hn).
  destruct (listed_projected_tools_are_called (H := TreeCodec.codec) native_environment (Err EmptyString)
    (fun _ _ => Ok sample_catalog) (tool_policy_info (Ok sample_servers)) http_tool_definitions set d empty_object None
    eq_refl (fun n Hn => Hn) Hset Hen Hd) as (n & server & tool & Hn' & _ & _ & Hact).
  exists d, server, tool. split; [exact Hn|]. rewrite Hn in Hn'. injection Hn' as <-. exact Hact.
Defined.
