(* ===== verification/McpEndpoint.v ===== *)
(** * The MCP endpoint over HTTP (src/dashboard/mcp_http.rs, src/dashboard/http_headers.rs)

    One POST on the endpoint: the checks of the headers and of the JSON-RPC message, the
    critical section on the session store, and the dispatch to the tools, prompts and
    resources.  These are the interface [McpBackend]; the handler returns the store it
    leaves, the backend operations it ran, in order, and the response. *)

From Stdlib Require Import Ascii.
From S2P Require Import Prelude RustStr BTree Json McpProtocol HttpBoundary HttpSession ProxyUri ToolCache ToolExposure ToolResult HttpTools.

(** ** The standard headers of a request *)

Inductive McpHeaderValidationError :=
| HeaderBoundary (source : string)
| MethodMismatch (header_method method : string)
| NameMismatch (actual expected : string)
| NameNotValidForMethod (actual method : string).

Definition display_header_error (e : McpHeaderValidationError) : string :=
  match e with
  | HeaderBoundary source => source
  | MethodMismatch header_method method =>
      "Mcp-Method header '" +:+ header_method +:+ "' does not match JSON-RPC method '" +:+ method +:+ "'"
  | NameMismatch actual expected =>
      "Mcp-Name header '" +:+ actual +:+ "' does not match JSON-RPC body value '" +:+ expected +:+ "'"
  | NameNotValidForMethod actual method =>
      "Mcp-Name header '" +:+ actual +:+ "' is not valid for JSON-RPC method '" +:+ method +:+ "'"
  end.

Definition mcp_standard_header_name (message : JsonValue) (method : string) : option string :=
  if String.eqb method "tools/call" || String.eqb method "prompts/get" then string_at_path message ["params"; "name"]
  else if String.eqb method "resources/read" then string_at_path message ["params"; "uri"]
  else None.

Definition unique_header (request : HttpRequest) (key : string) : result (option string) McpHeaderValidationError :=
  map_err (fun e => HeaderBoundary (display_boundary_error e)) (request_header_string_unique (Some request) key).

Definition validate_mcp_standard_headers (request : HttpRequest) (message : JsonValue) (method : string)
    : result unit McpHeaderValidationError :=
  header_method ←? unique_header request "mcp-method" ;;
  _ ←? match header_method with
       | Some header_method => if String.eqb header_method method then Ok tt else Err (MethodMismatch header_method method)
       | None => Ok tt
       end ;;
  header_name ←? unique_header request "mcp-name" ;;
  match header_name, mcp_standard_header_name message method with
  | Some actual, Some expected => if String.eqb actual expected then Ok tt else Err (NameMismatch actual expected)
  | Some actual, None => Err (NameNotValidForMethod actual method)
  | None, _ => Ok tt
  end.

(** ** The components behind the endpoint *)

Inductive BackendCall :=
| ListToolsCall (protocol : string) (cursor : option string)
| ListPromptsCall (cursor : option string)
| GetPromptCall (name : string) (arguments : JsonValue)
| ListResourcesCall (cursor : option string)
| ListTemplatesCall (cursor : option string)
| ReadResourceCall (uri : string)
| RunToolCall (name : string) (arguments : JsonValue).

(** What a tool reports: its outcome; or, as the diagnostics of the runtime do once their
    commands have succeeded, a value that is finished with a snapshot of the sessions, taken
    at [at_ms]. *)
Inductive Report :=
| Reported (outcome : result JsonValue string)
| WithSessions (at_ms : N) (finish : McpHttpSessionSnapshot -> JsonValue).

Class McpBackend := {
  backend_tools : string -> option string -> JsonValue;
  backend_prompts : option string -> JsonValue;
  backend_prompt : string -> JsonValue -> result JsonValue string;
  backend_resources : option string -> JsonValue;
  backend_templates : option string -> JsonValue;
  backend_resource : string -> result JsonValue string;
  backend_run_tool : string -> JsonValue -> HttpRequest -> Report
}.

(** ** Responses *)

Definition bad_request (id : JsonValue) (code : Z) (message : string) : McpHttpResponse :=
  ResponseJsonStatus "400 Bad Request" (mcp_error_response id code message).

Definition invalid_request (id : JsonValue) (message : string) : McpHttpResponse :=
  bad_request id ERROR_INVALID_REQUEST message.

Definition mcp_tool_result_payload (id payload : JsonValue) : McpHttpResponse :=
  ResponseJson (json_object [("jsonrpc", json_string "2.0"); ("id", id); ("result", payload)]).

Definition rpc_failure (id : JsonValue) (code : Z) (message : string) : McpHttpResponse :=
  ResponseJson (mcp_error_response id code message).

(** The reply to a request whose operation may fail. *)
Definition settled (id : JsonValue) (outcome : result JsonValue string) : McpHttpResponse :=
  match outcome with
  | Ok value => mcp_tool_result_payload id value
  | Err error => rpc_failure id (-32602) error
  end.

Section endpoint.
Context `{SerdeJson} `{McpBackend}.
Context (environment : string -> option string).
Variable iteration : gmap string McpHttpSession -> list (string * McpHttpSession).

Definition mcp_tool_result (id structured : JsonValue) (is_error : bool) (options : ToolResultOptions) : McpHttpResponse :=
  mcp_tool_result_payload id (tool_result_payload structured is_error options).

(** ** Checks *)

Definition check_content (request : HttpRequest) : result unit McpHttpResponse :=
  if negb (accepts_streamable_http_post request) then
    Err (invalid_request JNull "missing required Accept header entries: application/json and text/event-stream")
  else if negb (content_type_is request "application/json") then
    Err (invalid_request JNull "missing required Content-Type header: application/json")
  else Ok tt.

(** The checks on a message with a method; [id] is the id to answer under. *)
Definition check_request (request : HttpRequest) (message id : JsonValue) (method : string) : result unit McpHttpResponse :=
  let request_id := value_at_path message ["id"] in
  _ ←? map_err (fun e => invalid_request id (display_protocol_error e)) (validate_request_envelope message) ;;
  _ ←? (if is_some request_id && method_is_notification method
        then Err (invalid_request id "MCP notifications must not include a JSON-RPC id") else Ok tt) ;;
  _ ←? (if match request_id with Some value => negb (request_id_is_within_limit value) | None => false end
        then Err (invalid_request id "JSON-RPC request id exceeds the 256 byte limit") else Ok tt) ;;
  _ ←? match request_header_string_unique (Some request) "mcp-protocol-version" with
       | Ok (Some protocol_header) =>
           if is_supported_protocol_version protocol_header then Ok tt
           else Err (invalid_request id ("unsupported MCP-Protocol-Version header: " +:+ protocol_header))
       | Ok None => Ok tt
       | Err error => Err (invalid_request id (display_boundary_error error))
       end ;;
  map_err (fun e => bad_request id ERROR_HEADER_MISMATCH (display_header_error e))
    (validate_mcp_standard_headers request message method).

(** ** Initialization *)

Definition adapter_instructions : string :=
  "MCPace is a dynamic MCP adapter for many clients and many upstream servers. It infers client capabilities from initialize, keeps startup tools/list small by default, discovers configured upstream stdio and Streamable HTTP/HTTPS servers through live MCP methods when requested, and can opt into native projected upstream tools only when the catalog fits the token budget and projection safety allows them. Use adapter_profile for the current routing plan, upstream_search for concise discovery, projected u_<server>_<tool>_<hash> names when projection is enabled, and upstream_call/upstream_batch for brokered routing with known-tool and policy validation.".

Definition initialize_result (negotiated : string) : JsonValue :=
  json_object
    [("protocolVersion", json_string negotiated); ("capabilities", adapter_capabilities);
     ("serverInfo", json_object [("name", json_string "mcpace"); ("version", json_string PACKAGE_VERSION)]);
     ("instructions", json_string adapter_instructions)].

Definition handle_initialize (message id : JsonValue) (now_ms : N) (random : N -> result (list ascii) string)
    (st : McpHttpSessionStore) : McpHttpSessionStore * McpHttpResponse :=
  let requested := unwrap_or (string_at_path message ["params"; "protocolVersion"]) CURRENT_PROTOCOL_VERSION in
  let negotiated := negotiate_protocol_version requested in
  match generated_mcp_http_session_id random with
  | Err error =>
      (st, ResponseJsonStatus "500 Internal Server Error"
             (mcp_error_response id ERROR_INTERNAL
                ("failed to generate cryptographically secure MCP HTTP session id: " +:+ error)))
  | Ok session_id =>
      let '(st, created) :=
        create_or_replace iteration session_id negotiated (string_at_path message ["params"; "clientInfo"; "name"])
          (string_at_path message ["params"; "clientInfo"; "version"])
          (value_at_path message ["id"] ≫= request_id_key) now_ms st in
      match created with
      | Err error => (st, session_error_response error id)
      | Ok _ =>
          (st, ResponseJsonWithHeaders
                 (json_object [("jsonrpc", json_string "2.0"); ("id", id);
                               ("result", initialize_result negotiated)])
                 [("Mcp-Session-Id", session_id); ("MCP-Protocol-Version", negotiated)])
      end
  end.

(** ** Operations *)

Definition Handled : Type := McpHttpSessionStore * list BackendCall * McpHttpResponse.

Definition finish_report (report : Report) (st : McpHttpSessionStore) : McpHttpSessionStore * result JsonValue string :=
  match report with
  | Reported outcome => (st, outcome)
  | WithSessions now finish => let '(st, taken) := snapshot iteration now st in (st, Ok (finish taken))
  end.

Definition call_tool (request : HttpRequest) (message id : JsonValue) (st : McpHttpSessionStore) : Handled :=
  match string_at_path message ["params"; "name"] with
  | None => (st, [], rpc_failure id ERROR_INVALID_PARAMS "tools/call requires a tool name")
  | Some tool_name =>
      match tool_call_arguments_or_empty message with
      | Err error => (st, [], rpc_failure id ERROR_INVALID_PARAMS (display_protocol_error error))
      | Ok args =>
          let projected_call := starts_with "u_" tool_name in
          if negb projected_call && negb (existsb (String.eqb tool_name) http_tool_names) then
            (st, [], rpc_failure id ERROR_INVALID_PARAMS ("Unknown tool: " +:+ tool_name))
          else
            let option_arguments := if projected_call then projected_adapter_control_arguments args else args in
            match options_from_arguments environment option_arguments with
            | Err error =>
                (st, [], mcp_tool_result id
                       (json_object [("ok", json_bool false); ("tool", json_string tool_name);
                                     ("error", json_string (display_tool_result_error error))])
                       true (default_options environment))
            | Ok result_options =>
                let '(st, outcome) := finish_report (backend_run_tool tool_name args request) st in
                (st, [RunToolCall tool_name args],
                 match outcome with
                 | Ok structured =>
                     if String.eqb tool_name "upstream_call" || String.eqb tool_name "upstream_batch" || projected_call
                     then mcp_tool_result_payload id (upstream_tool_result_payload structured false result_options)
                     else mcp_tool_result id structured false result_options
                 | Err error =>
                     mcp_tool_result id
                       (json_object [("ok", json_bool false); ("tool", json_string tool_name); ("error", json_string error);
                          ("supportedTools", json_array (omap (fun tool => option_map json_string (json_get tool "name" ≫= as_str))
                                                           http_tool_definitions))])
                       true result_options
                 end)
            end
      end
  end.

(** The methods of a ready session; [session_protocol]: the version of the session. *)
Definition dispatch (request : HttpRequest) (message id : JsonValue) (method session_protocol : string)
    (st : McpHttpSessionStore) : Handled :=
  let cursor := string_at_path message ["params"; "cursor"] in
  if String.eqb method "ping" then (st, [], mcp_tool_result_payload id empty_object)
  else if String.eqb method "tools/list" then
    match request_header_string_unique (Some request) "mcp-protocol-version" with
    | Err error => (st, [], invalid_request id (display_boundary_error error))
    | Ok protocol_header =>
        let protocol := unwrap_or protocol_header session_protocol in
        (st, [ListToolsCall protocol cursor], mcp_tool_result_payload id (backend_tools protocol cursor))
    end
  else if String.eqb method "prompts/list" then (st, [ListPromptsCall cursor], mcp_tool_result_payload id (backend_prompts cursor))
  else if String.eqb method "prompts/get" then
    match params_arguments_object_or_empty message "prompts/get" with
    | Err error => (st, [], rpc_failure id ERROR_INVALID_PARAMS (display_protocol_error error))
    | Ok args =>
        match string_at_path message ["params"; "name"] with
        | Some name => (st, [GetPromptCall name args], settled id (backend_prompt name args))
        | None => (st, [], rpc_failure id (-32602) "prompts/get requires a prompt name")
        end
    end
  else if String.eqb method "resources/list" then
    (st, [ListResourcesCall cursor], mcp_tool_result_payload id (backend_resources cursor))
  else if String.eqb method "resources/templates/list" then
    (st, [ListTemplatesCall cursor], mcp_tool_result_payload id (backend_templates cursor))
  else if String.eqb method "resources/read" then
    match string_at_path message ["params"; "uri"] with
    | Some uri => (st, [ReadResourceCall uri], settled id (backend_resource uri))
    | None => (st, [], rpc_failure id (-32602) "resources/read requires a uri")
    end
  else if String.eqb method "tools/call" then call_tool request message id st
  else (st, [], rpc_failure id (-32601) ("unsupported MCP method '" +:+ method +:+ "'")).

(** ** The handler *)

(** A checked message with a method. *)
Definition handle_method (request : HttpRequest) (message id : JsonValue) (method : string) (now_ms : N)
    (random : N -> result (list ascii) string) (st : McpHttpSessionStore) : Handled :=
  let request_id := value_at_path message ["id"] in
  if String.eqb method "initialize" then
    match request_id with
    | None => (st, [], ResponseAccepted)
    | Some _ => let '(st, response) := handle_initialize message id now_ms random st in (st, [], response)
    end
  else if String.eqb method "notifications/initialized" && negb (is_some request_id) then
    match mark_mcp_session_initialized request id now_ms st with
    | (st, Err response) => (st, [], response)
    | (st, Ok _) => (st, [], ResponseAccepted)
    end
  else
    match prepare_mcp_session_for_request iteration request id (request_id ≫= request_id_key)
            (negb (String.eqb method "ping")) now_ms st with
    | (st, Err response) => (st, [], response)
    | (st, Ok session) =>
        match request_id with
        | None => (st, [], ResponseAccepted)
        | Some _ =>
            dispatch request message id method (view_protocol_version session) st
        end
    end.

(** A parsed message. *)
Definition handle_message (request : HttpRequest) (message : JsonValue) (now_ms : N)
    (random : N -> result (list ascii) string) (st : McpHttpSessionStore) : Handled :=
  let id := unwrap_or (value_at_path message ["id"]) JNull in
  match value_at_path message ["method"] with
  | Some (JString method) =>
      match check_request request message id method with
      | Err response => (st, [], response)
      | Ok _ => handle_method request message id method now_ms random st
      end
  | Some _ => (st, [], invalid_request id "JSON-RPC method must be a string")
  | None =>
      if is_some (value_at_path message ["result"]) || is_some (value_at_path message ["error"]) then
        match touch_mcp_session_for_request request id now_ms st with
        | (st, Err response) => (st, [], response)
        | (st, Ok _) => (st, [], ResponseAccepted)
        end
      else (st, [], invalid_request id "missing JSON-RPC method")
  end.

Definition parse_message (request : HttpRequest) : result JsonValue string :=
  body_text ←? map_err (fun error => "invalid UTF-8 request body: " +:+ error) (from_utf8 (body request)) ;;
  map_err (fun error => "invalid JSON-RPC body: " +:+ error) (parse_str (trim body_text)).

(** [None] in the result: the body cannot be read, which the caller reports. *)
Definition handle_mcp_http_request (request : HttpRequest) (now_ms : N) (random : N -> result (list ascii) string)
    (st : McpHttpSessionStore) : McpHttpSessionStore * list BackendCall * result McpHttpResponse string :=
  match check_content request with
  | Err response => (st, [], Ok response)
  | Ok _ =>
      match parse_message request with
      | Err error => (st, [], Err error)
      | Ok message =>
          let '(st, calls, response) := handle_message request message now_ms random st in (st, calls, Ok response)
      end
  end.

(** POST: what cannot be read is answered as a parse error. *)
Definition handle_mcp_post (request : HttpRequest) (now_ms : N) (random : N -> result (list ascii) string)
    (st : McpHttpSessionStore) : Handled :=
  match handle_mcp_http_request request now_ms random st with
  | (st, calls, Ok response) => (st, calls, response)
  | (st, calls, Err error) => (st, calls, bad_request JNull (-32700) error)
  end.

(** ** One request is one critical section, and at most one look at the store *)

(** The critical sections a request may enter. *)
Definition section_of (request : HttpRequest) (now_ms : N) (random : N -> result (list ascii) string)
    (c : Command) : Prop :=
  match c with
  | CmdInitialize sid _ _ _ _ now => generated_mcp_http_session_id random = Ok sid /\ now = now_ms
  | CmdTouch request' _ now | CmdInitialized request' _ now | CmdPrepare request' _ _ _ now =>
      request' = request /\ now = now_ms
  | CmdSnapshot _ => True
  | CmdClose _ _ => False
  end.

(** The operations on the store that look at it and forget what has expired. *)
Definition is_snapshot (c : Command) : bool := match c with CmdSnapshot _ => true | _ => false end.

(** How many operations of a sequence are not such a look. *)
Definition own_operations (cs : list Command) : nat := length (List.filter (fun c => negb (is_snapshot c)) cs).

Lemma own_operations_app cs ds : own_operations (cs ++ ds) = (own_operations cs + own_operations ds)%nat.
Proof. unfold own_operations. by rewrite List.filter_app, length_app. Qed.

(** What an operation of the ready session leaves: the store as it was, or looked at once. *)
Definition at_most_looked_at (st st' : McpHttpSessionStore) : Prop :=
  st' = st \/ exists t, st' = execute iteration (CmdSnapshot t) st.

Lemma finish_report_store report st : at_most_looked_at st (finish_report report st).1.
Proof. destruct report as [outcome|t finish]; [by left|right]. exists t. cbn. by destruct (snapshot iteration t st). Qed.

Lemma call_tool_store request message id st : at_most_looked_at st (call_tool request message id st).1.1.
Proof.
  unfold call_tool. destruct (string_at_path _ _) as [name|]; [|by left]. destruct (tool_call_arguments_or_empty message) as [args|e]; [|by left].
  case_stuck; [by left|]. destruct (options_from_arguments environment _) as [options|e]; [|by left].
  pose proof (finish_report_store (backend_run_tool name args request) st) as Hf. by destruct (finish_report _ st).
Qed.

Lemma dispatch_store request message id method protocol st : at_most_looked_at st (dispatch request message id method protocol st).1.1.
Proof.
  unfold dispatch. repeat (lazymatch goal with |- context [if String.eqb method ?m then _ else _] =>
    destruct (String.eqb method m); [first [apply call_tool_store | by left | idtac] |] end); [| | |by left].
  - destruct (request_header_string_unique _ _); by left.
  - destruct (params_arguments_object_or_empty _ _); [|by left]. destruct (string_at_path _ _); by left.
  - destruct (string_at_path _ _); by left.
Qed.

Lemma handle_initialize_section message id now random st :
  exists cs, (handle_initialize message id now random st).1 = run iteration cs st /\
    (length cs <= 1)%nat /\ Forall (fun c => exists sid protocol name version key,
      c = CmdInitialize sid protocol name version key now /\ generated_mcp_http_session_id random = Ok sid) cs.
Proof.
  unfold handle_initialize. destruct (generated_mcp_http_session_id random) as [sid|e].
  - lazymatch goal with |- context [create_or_replace iteration sid ?a ?b ?c ?d now st] =>
      exists [CmdInitialize sid a b c d now]; cbn [run fold_left execute];
      split_and!; [by destruct (create_or_replace iteration sid a b c d now st) as [st1 [v|e] ]|cbn; lia|] end.
    constructor; [by eexists _, _, _, _, _|constructor].
  - exists []. split_and!; [done|cbn; lia|constructor].
Qed.

Lemma handle_post_section request now random st :
  exists cs, (handle_mcp_post request now random st).1.1 = run iteration cs st /\ (length cs <= 2)%nat /\ (own_operations cs <= 1)%nat /\
    Forall (section_of request now random) cs.
Proof.
  assert (Hnil : exists cs, st = run iteration cs st /\ (length cs <= 2)%nat /\ (own_operations cs <= 1)%nat
                 /\ Forall (section_of request now random) cs).
  { exists []. split_and!; [done|cbn; lia|cbn; lia|constructor]. }
  unfold handle_mcp_post, handle_mcp_http_request, handle_message, handle_method.
  destruct (check_content request); [|done]. destruct (parse_message request) as [message|]; [|done].
  set (id := unwrap_or _ JNull).
  destruct (value_at_path message ["method"]) as [ [| | | method | |] |]; try done.
  - destruct (check_request request message id method); [|done].
    destruct (String.eqb method "initialize").
    + destruct (value_at_path message ["id"]); [|done].
      destruct (handle_initialize_section message id now random st) as (cs & Hst & Hl & Hcs). exists cs.
      destruct (handle_initialize message id now random st) as [st1 r]. split_and!; [exact Hst|lia| |].
      { destruct cs as [|c [|] ]; cbn in *; [lia| |lia]. by destruct (negb (is_snapshot c)); cbn; lia. }
      eapply Forall_impl; [exact Hcs|]. by intros c (sid & ? & ? & ? & ? & -> & ?).
    + destruct (String.eqb method "notifications/initialized" && _).
      * exists [CmdInitialized request id now]. cbn [run fold_left execute].
        split_and!; [by destruct (mark_mcp_session_initialized request id now st) as [? [|] ]|cbn; lia|cbn; lia|by constructor].
      * lazymatch goal with |- context [prepare_mcp_session_for_request iteration request id ?k ?q now st] =>
          pose (c := CmdPrepare request id k q now); assert (Hc : section_of request now random c) by done;
          assert (Hone : exists cs, execute iteration c st = run iteration cs st /\ (length cs <= 2)%nat /\ (own_operations cs <= 1)%nat
            /\ Forall (section_of request now random) cs) by (exists [c]; split_and!; [done|cbn; lia|cbn; lia|by constructor]);
          assert (Ec : execute iteration c st = (prepare_mcp_session_for_request iteration request id k q now st).1) by done;
          destruct (prepare_mcp_session_for_request iteration request id k q now st) as [st1 [v|r] ]; cbn [fst] in Ec; rewrite Ec in Hone; [|done] end.
        destruct (value_at_path message ["id"]); [|done].
        pose proof (dispatch_store request message id method (view_protocol_version v) st1) as Hd.
        destruct (dispatch request message id method (view_protocol_version v) st1) as [ [st2 calls] response]. cbn [fst snd] in *.
        destruct Hd as [-> |[t ->] ]; [done|].
        exists [c; CmdSnapshot t]. cbn [run fold_left]. rewrite Ec. split_and!; [done|cbn; lia|cbn; lia|by repeat constructor].
  - destruct (is_some _ || _); [|done]. exists [CmdTouch request id now]. cbn [run fold_left execute].
    split_and!; [by destruct (touch_mcp_session_for_request request id now st) as [? [|] ]|cbn; lia|cbn; lia|by constructor].
Qed.

(** ** What reaches the backend *)

(** A POST runs a backend operation only after the session gate has tracked its id in a ready session. *)
Lemma handle_post_calls request now random st :
  (handle_mcp_post request now random st).1.2 <> [] ->
  exists message id k v st1, parse_message request = Ok message /\ value_at_path message ["id"] = Some id
    /\ request_id_key id = Some k
    /\ prepare_mcp_session_for_request iteration request id (Some k) true now st = (st1, Ok v)
    /\ at_most_looked_at st1 (handle_mcp_post request now random st).1.1.
Proof.
  unfold handle_mcp_post, handle_mcp_http_request, handle_message, handle_method.
  destruct (check_content request); [|done]. destruct (parse_message request) as [message|]; [|done].
  set (id := unwrap_or _ JNull).
  destruct (value_at_path message ["method"]) as [ [| | | method | |] |]; try done.
  2:{ destruct (is_some _ || _); [|done]. by destruct (touch_mcp_session_for_request request id now st) as [? [|] ]. }
  destruct (check_request request message id method) as [ []|] eqn:Hck; [|done].
  destruct (String.eqb method "initialize").
  { destruct (value_at_path message ["id"]); [|done]. by destruct (handle_initialize message id now random st). }
  destruct (String.eqb method "notifications/initialized" && _).
  { by destruct (mark_mcp_session_initialized request id now st) as [? [|] ]. }
  destruct (value_at_path message ["id"]) as [request_id|] eqn:Eid.
  2:{ by destruct (prepare_mcp_session_for_request iteration request id _ _ now st) as [? [|] ]. }
  assert (exists k, request_id_key request_id = Some k) as [k Hk].
  { apply (accepted_request_key message); [|exact Eid]. revert Hck. unfold check_request.
    by destruct (validate_request_envelope message) as [ []|]. }
  cbn [mbind option_bind]. change id with request_id. rewrite Hk.
  destruct (String.eqb method "ping") eqn:Eping; cbn [negb].
  { unfold dispatch. rewrite Eping.
    by destruct (prepare_mcp_session_for_request iteration request request_id (Some k) false now st) as [? [|] ]. }
  destruct (prepare_mcp_session_for_request iteration request request_id (Some k) true now st) as [st1 [v|r] ] eqn:Ep; [|done].
  pose proof (dispatch_store request message request_id method (view_protocol_version v) st1) as Hd.
  destruct (dispatch request message request_id method (view_protocol_version v) st1) as [ [st2 calls] response]. cbn [fst snd] in *. intros _.
  by exists message, request_id, k, v, st1.
Qed.

(** The events the session store sees: POSTs, deletions of sessions and snapshots. *)
Inductive Event :=
| EPost (request : HttpRequest) (now_ms : N) (random : N -> result (list ascii) string)
| EDelete (request : HttpRequest) (now_ms : N)
| ESnapshot (now_ms : N).

Definition step_event (st : McpHttpSessionStore) (e : Event) : McpHttpSessionStore :=
  match e with
  | EPost request now random => (handle_mcp_post request now random st).1.1
  | EDelete request now => execute iteration (CmdClose request now) st
  | ESnapshot now => execute iteration (CmdSnapshot now) st
  end.

Definition serve (es : list Event) (st : McpHttpSessionStore) : McpHttpSessionStore := fold_left step_event es st.

(** The events that may create the session [sid]. *)
Definition creates (sid : string) (e : Event) : Prop :=
  match e with EPost _ _ random => generated_mcp_http_session_id random = Ok sid | _ => False end.

Lemma step_event_run sid e st :
  exists cs, step_event st e = run iteration cs st
    /\ (~ creates sid e -> Forall (fun c => initializes c <> Some sid) cs).
Proof.
  destruct e as [request now random|request now|now]; cbn [step_event creates].
  - destruct (handle_post_section request now random st) as (cs & -> & _ & _ & Hcs). exists cs. split; [done|].
    intros Hno. eapply Forall_impl; [exact Hcs|]. intros [] Hc; try done. cbn in *. destruct Hc as [Hg _]. congruence.
  - exists [CmdClose request now]. split; [done|]. by repeat constructor.
  - exists [CmdSnapshot now]. split; [done|]. by repeat constructor.
Qed.

Lemma serve_run sid es st :
  exists cs, serve es st = run iteration cs st
    /\ (Forall (fun e => ~ creates sid e) es -> Forall (fun c => initializes c <> Some sid) cs).
Proof.
  revert st. induction es as [|e es IH]; intros st; [by exists []|].
  destruct (step_event_run sid e st) as (cs & Ecs & Hcs). destruct (IH (step_event st e)) as (ds & Eds & Hds).
  exists (cs ++ ds). split; [cbn [serve fold_left] in *; by rewrite run_app, <- Ecs|].
  intros Hall. apply Forall_cons in Hall as [? ?]. apply Forall_app. auto.
Qed.

Hypothesis iteration_perm : forall m, iteration m ≡ₚ map_to_list m.

(** A touch that succeeds finds the session unexpired. *)
Lemma touched_session request now st v :
  (touch_from_request request now st).2 = Ok v ->
  exists sid header s, touch_target request = Ok (sid, header) /\ sessions st !! sid = Some s /\ (now < expires_at_ms s)%N.
Proof.
  unfold touch_from_request. destruct (touch_target request) as [ [sid header] |]; [|done].
  destruct (touch_cases sid header now st) as [ (s & Es & Hlt & _) | [ [e He] _] ]; [by exists sid, header, s|].
  intros Hv. congruence.
Qed.

Lemma prepare_touches request id key require now st v :
  (prepare_mcp_session_for_request iteration request id key require now st).2 = Ok v ->
  exists v', (touch_from_request request now st).2 = Ok v'.
Proof.
  unfold prepare_mcp_session_for_request. destruct (touch_from_request request now st) as [st1 [v1|e] ]; [by eexists|done].
Qed.

(** The session behind an accepted request with an id. *)
Lemma prepared_session request id k require now st st' v :
  store_wf iteration st -> prepare_mcp_session_for_request iteration request id (Some k) require now st = (st', Ok v) ->
  exists sid header s s', touch_target request = Ok (sid, header)
    /\ sessions st !! sid = Some s /\ (now < expires_at_ms s)%N /\ (k ∉ seen_request_ids s)
    /\ sessions st' !! sid = Some s' /\ (k ∈ seen_request_ids s')
    /\ (require = true -> initialized s = true).
Proof.
  intros Hwf Ep. pose proof (prepare_changes iteration iteration_perm request id (Some k) require now st Hwf) as Hp.
  destruct (prepare_touches request id (Some k) require now st v) as [v' Hv']; [by rewrite Ep|].
  destruct (touched_session _ _ _ _ Hv') as (sid & header & s & Et & Es & Hlt).
  rewrite Ep in Hp. cbn [fst snd] in Hp. destruct Hp as (ls & Hc & _ & Hls).
  destruct (Hls v eq_refl) as (sid' & header' & s' & Et' & Hs' & _ & -> & Hready).
  rewrite Et in Et'. injection Et' as <- <-. exists sid, header, s, s'.
  inversion Hc as [|? ? ? st1 ? Hr Hc1]; subst. inversion Hc1 as [|? ? ? st2 ? Hm Hc2]; subst. inversion Hc2; subst.
  inversion Hr as [|? ? s0 t E0 _| | |]; subst. rewrite Es in E0. injection E0 as <-.
  inversion Hm as [| | |? ? s1 ? Es1 Hnot|]; subst. cbn [set_sessions sessions] in *.
  apply lookup_insert_Some in Es1 as [ [_ <-] | [? _] ]; [|done].
  apply lookup_insert_Some in Hs' as [ [_ <-] | [? _] ]; [|done].
  split_and!; try done; [by apply lookup_insert_Some; left|]. cbn. set_solver.
Qed.

(** The store a prepared request leaves is well formed, and a look at it keeps used ids used. *)
Lemma prepared_wf request id k require now st st' v :
  store_wf iteration st -> prepare_mcp_session_for_request iteration request id (Some k) require now st = (st', Ok v) -> store_wf iteration st'.
Proof.
  intros Hwf Ep. pose proof (run_wf iteration iteration_perm [CmdPrepare request id (Some k) require now] st Hwf) as Hr.
  cbn [run fold_left execute] in Hr. by rewrite Ep in Hr.
Qed.

Lemma looked_at_spent sid k st st' :
  store_wf iteration st -> at_most_looked_at st st' ->
  session_is sid (fun s => k ∈ seen_request_ids s) st -> session_is sid (fun s => k ∈ seen_request_ids s) st'.
Proof.
  intros Hwf [-> |[t ->] ] Hs; [done|]. apply (run_spent iteration iteration_perm sid k [CmdSnapshot t] st); [by repeat constructor|done|done].
Qed.

(** ** Responses answer their requests *)

(** A JSON-RPC 2.0 response to [id], with a result or an error and not both. *)
Definition answers (id : JsonValue) (response : McpHttpResponse) : Prop :=
  match response with
  | ResponseAccepted => False
  | ResponseJson p | ResponseJsonWithHeaders p _ | ResponseJsonStatus _ p =>
      json_get p "jsonrpc" = Some (json_string "2.0") /\ json_get p "id" = Some id
      /\ is_some (json_get p "result") = negb (is_some (json_get p "error"))
  end.

(** The id a request is answered under. *)
Definition reply_id (request : HttpRequest) : JsonValue :=
  match check_content request, parse_message request with
  | Ok _, Ok message => unwrap_or (value_at_path message ["id"]) JNull
  | _, _ => JNull
  end.

Lemma answers_result id payload : answers id (mcp_tool_result_payload id payload).
Proof. by vm_compute. Qed.

Lemma answers_failure id code message : answers id (rpc_failure id code message).
Proof. split_and!; reflexivity. Qed.

Lemma answers_bad_request id code message : answers id (bad_request id code message).
Proof. split_and!; reflexivity. Qed.

Lemma answers_session_error id e : answers id (session_error_response e id).
Proof. split_and!; reflexivity. Qed.

Lemma answers_settled id outcome : answers id (settled id outcome).
Proof. destruct outcome; [apply answers_result|apply answers_failure]. Qed.

#[local] Hint Resolve answers_result answers_failure answers_bad_request answers_session_error answers_settled : core.
#[local] Hint Extern 1 (answers _ (invalid_request _ _)) => apply answers_bad_request : core.
#[local] Hint Extern 1 (answers _ (mcp_tool_result _ _ _ _)) => apply answers_result : core.

Lemma call_tool_answers request message id st :
  answers id (call_tool request message id st).2 /\ (length (call_tool request message id st).1.2 <= 1)%nat.
Proof.
  unfold call_tool. destruct (string_at_path message ["params"; "name"]) as [name|]; [|cbn; auto].
  destruct (tool_call_arguments_or_empty message) as [args|e]; [|cbn; auto]. case_stuck; [cbn; auto|].
  destruct (options_from_arguments environment _) as [options|e]; [|cbn [fst snd length]; auto].
  destruct (finish_report _ st) as [st1 [structured|e] ]; cbn [fst snd length]; (split; [|lia]); [|auto]. case_stuck; auto.
Qed.

Lemma dispatch_answers request message id method protocol st :
  answers id (dispatch request message id method protocol st).2
  /\ (length (dispatch request message id method protocol st).1.2 <= 1)%nat.
Proof.
  unfold dispatch. repeat (lazymatch goal with |- context [if String.eqb method ?m then _ else _] =>
    destruct (String.eqb method m); [first [apply call_tool_answers | cbn [fst snd length]; split; [auto|lia] | idtac] |] end).
  - destruct (request_header_string_unique _ _); cbn [fst snd length]; split; auto.
  - destruct (params_arguments_object_or_empty _ _); [|cbn; auto].
    destruct (string_at_path _ _); cbn [fst snd length]; split; auto.
  - destruct (string_at_path _ _); cbn [fst snd length]; split; auto.
  - cbn; auto.
Qed.

Lemma check_request_answers request message id method response :
  check_request request message id method = Err response -> answers id response.
Proof.
  unfold check_request. destruct (validate_request_envelope message); cbn [map_err]; [|intros [= <-]; auto].
  case_stuck; [intros [= <-]; auto|]. lazymatch goal with |- context [if ?b then Err _ else _] => destruct b end; [intros [= <-]; auto|].
  destruct (request_header_string_unique (Some request) "mcp-protocol-version") as [ [h|] |]; [|idtac|intros [= <-]; auto].
  1: destruct (is_supported_protocol_version h); [|intros [= <-]; auto].
  all: destruct (validate_mcp_standard_headers request message method); cbn [map_err]; [done|intros [= <-]; auto].
Qed.

Lemma initialize_answers message id now random st : answers id (handle_initialize message id now random st).2.
Proof.
  unfold handle_initialize. destruct (generated_mcp_http_session_id random); [|split_and!; reflexivity].
  destruct (create_or_replace iteration _ _ _ _ _ now st) as [st1 [v|e] ]; [split_and!; reflexivity|apply answers_session_error].
Qed.

Lemma touch_answers request id now st st1 response :
  touch_mcp_session_for_request request id now st = (st1, Err response) -> answers id response.
Proof.
  unfold touch_mcp_session_for_request. destruct (touch_from_request request now st) as [st2 [v|e] ]; [done|].
  cbn [map_err]. intros [= _ <-]. auto.
Qed.

Lemma mark_answers request id now st st1 response :
  mark_mcp_session_initialized request id now st = (st1, Err response) -> answers id response.
Proof.
  unfold mark_mcp_session_initialized. destruct (mark_initialized_from_request request now st) as [st2 [v|e] ]; [done|].
  cbn [map_err]. intros [= _ <-]. auto.
Qed.

Lemma prepare_answers request id key require now st st1 response :
  prepare_mcp_session_for_request iteration request id key require now st = (st1, Err response) -> answers id response.
Proof.
  unfold prepare_mcp_session_for_request. destruct (touch_from_request request now st) as [st2 [v|e] ]; [|intros [= _ <-]; auto].
  destruct (match key with Some k => _ | None => _ end) as [st3 [v3|e3] ]; [|intros [= _ <-]; auto].
  case_stuck; [|done]. intros [= _ <-]. split_and!; reflexivity.
Qed.

(** What the handler returns for a parsed message. *)
Lemma handle_message_answers request message now random st :
  let r := handle_message request message now random st in
  (length r.1.2 <= 1)%nat
  /\ (answers (unwrap_or (value_at_path message ["id"]) JNull) r.2
      \/ r.2 = ResponseAccepted /\ (value_at_path message ["id"] = None \/ value_at_path message ["method"] = None)).
Proof.
  cbv zeta. unfold handle_message, handle_method. set (id := unwrap_or _ JNull).
  destruct (value_at_path message ["method"]) as [ [| | | method | |] |]; try (cbn; auto; fail).
  2:{ destruct (is_some _ || _); [|cbn; auto]. destruct (touch_mcp_session_for_request request id now st) as [? [|] ] eqn:E; cbn [fst snd length]; [auto|].
      apply touch_answers in E. auto. }
  destruct (check_request request message id method) eqn:Hck; [|apply check_request_answers in Hck; cbn; auto].
  destruct (String.eqb method "initialize").
  { destruct (value_at_path message ["id"]); [|cbn; auto]. pose proof (initialize_answers message id now random st) as Hi.
    destruct (handle_initialize message id now random st). cbn in *. auto. }
  destruct (String.eqb method "notifications/initialized" && _) eqn:En.
  { destruct (value_at_path message ["id"]) eqn:Eid; [by rewrite andb_false_r in En|].
    destruct (mark_mcp_session_initialized request id now st) as [? [|] ] eqn:E; [cbn; auto|].
    apply mark_answers in E. cbn; auto. }
  destruct (prepare_mcp_session_for_request iteration request id _ _ now st) as [st1 [v|r] ] eqn:Ep.
  2:{ apply prepare_answers in Ep. cbn; auto. }
  destruct (value_at_path message ["id"]); [|cbn; auto].
  pose proof (dispatch_answers request message id method (view_protocol_version v) st1) as [Hd Hl].
  destruct (dispatch request message id method (view_protocol_version v) st1) as [ [st2 calls] response]. cbn [fst snd] in *. auto.
Qed.

(** ** Claims *)

(** A POST runs a backend operation (listing or calling a tool, a prompt or a resource) only
    when its headers name a session that exists, has not expired and has been made ready by
    notifications/initialized, and its JSON-RPC id is one the session has not used before;
    the id is recorded as used before the operation runs, and stays so as long as the session
    is there. *)
Theorem backend_needs_ready_session request now random st :
  store_wf iteration st -> (handle_mcp_post request now random st).1.2 <> [] ->
  exists message id k sid header s,
    parse_message request = Ok message /\ value_at_path message ["id"] = Some id /\ request_id_key id = Some k
    /\ touch_target request = Ok (sid, header)
    /\ sessions st !! sid = Some s /\ (now < expires_at_ms s)%N /\ initialized s = true /\ (k ∉ seen_request_ids s)
    /\ session_is sid (fun s' => k ∈ seen_request_ids s') (handle_mcp_post request now random st).1.1.
Proof.
  intros Hwf Hcalls. destruct (handle_post_calls _ _ _ _ Hcalls) as (message & id & k & v & st1 & Hm & Hid & Hk & Hp & Hl).
  destruct (prepared_session _ _ _ _ _ _ _ _ Hwf Hp) as (sid & header & s & s' & Et & Es & Hlt & Hn & Es' & Hin & Hr).
  exists message, id, k, sid, header, s. split_and!; auto. eapply looked_at_spent; [exact (prepared_wf _ _ _ _ _ _ _ _ Hwf Hp)|exact Hl|].
  intros t Ht. congruence.
Qed.

(** C10: at most once: when a POST has run a backend operation, no later POST to the same session
    with the same JSON-RPC id runs one, whatever requests, deletions and snapshots come in
    between, short of the session id itself being generated again. *)
Theorem requests_run_at_most_once request request' now now' random random' st es sid header header' message message' :
  store_wf iteration st ->
  (handle_mcp_post request now random st).1.2 <> [] ->
  touch_target request = Ok (sid, header) -> touch_target request' = Ok (sid, header') ->
  parse_message request = Ok message -> parse_message request' = Ok message' ->
  value_at_path message ["id"] = value_at_path message' ["id"] ->
  Forall (fun e => ~ creates sid e) es ->
  (handle_mcp_post request' now' random' (serve (EPost request now random :: es) st)).1.2 = [].
Proof.
  intros Hwf Hcalls Et Et' Hm Hm' Hids Hes.
  destruct (handle_post_calls _ _ _ _ Hcalls) as (m1 & id & k & v & st0 & Hm1 & Hid & Hk & Hp & Hlook).
  destruct (prepared_session _ _ _ _ _ _ _ _ Hwf Hp) as (sid1 & header1 & s & s' & Et1 & _ & _ & _ & Es' & Hin & _).
  rewrite Et in Et1. injection Et1 as <- <-. rewrite Hm in Hm1. injection Hm1 as <-.
  cbn [serve fold_left step_event]. fold (serve es (handle_mcp_post request now random st).1.1).
  set (st1 := (handle_mcp_post request now random st).1.1) in *.
  assert (Hwf1 : store_wf iteration st1).
  { destruct (handle_post_section request now random st) as (cs & Hst1 & _). unfold st1. rewrite Hst1. by apply run_wf. }
  destruct (serve_run sid es st1) as (cs & -> & Hcs).
  assert (Hsp : session_is sid (fun s => k ∈ seen_request_ids s) (run iteration cs st1)).
  { apply (run_spent iteration iteration_perm); [by apply Hcs|done|]. eapply looked_at_spent; [exact (prepared_wf _ _ _ _ _ _ _ _ Hwf Hp)|exact Hlook|].
    intros t Ht. congruence. }
  destruct (decide ((handle_mcp_post request' now' random' (run iteration cs st1)).1.2 = [])) as [|Hne]; [done|exfalso].
  destruct (handle_post_calls _ _ _ _ Hne) as (m2 & id2 & k2 & v2 & st2 & Hm2 & Hid2 & Hk2 & Hp2 & _).
  rewrite Hm' in Hm2. injection Hm2 as <-. rewrite Hid, Hid2 in Hids. injection Hids as <-. rewrite Hk in Hk2. injection Hk2 as <-.
  destruct (prepared_session _ _ _ _ _ _ _ _ (run_wf iteration iteration_perm cs st1 Hwf1) Hp2)
    as (sid2 & header2 & s2 & s2' & Et2 & Es2 & _ & Hn2 & _).
  rewrite Et' in Et2. injection Et2 as <- <-. by apply Hn2, (Hsp s2).
Qed.

(** Every POST is answered by a JSON-RPC 2.0 response under the id of its message (null when
    there is none to read), with a result or an error and never both; the empty acceptance is
    only for a message without an id or a response without a method.  At most one backend
    operation runs per POST. *)
Theorem posts_are_answered request now random st :
  let r := handle_mcp_post request now random st in
  (length r.1.2 <= 1)%nat
  /\ (answers (reply_id request) r.2
      \/ r.2 = ResponseAccepted /\ exists message, parse_message request = Ok message
         /\ (value_at_path message ["id"] = None \/ value_at_path message ["method"] = None)).
Proof.
  cbv zeta. unfold handle_mcp_post, handle_mcp_http_request, reply_id.
  destruct (check_content request) eqn:Hcc.
  2:{ cbn [fst snd length]. split; [lia|left]. revert Hcc. unfold check_content.
      case_stuck; [intros [= <-]; auto|]. case_stuck; [intros [= <-]; auto|done]. }
  destruct (parse_message request) as [message|e] eqn:Hm; [|cbn; auto].
  destruct (handle_message_answers request message now random st) as [Hl Ha].
  destruct (handle_message request message now random st) as [ [st1 calls] response]. cbn [fst snd] in *.
  split; [done|]. destruct Ha as [Ha|[-> Ha] ]; [by left|right; eauto].
Qed.

End endpoint.

(** ** Witnesses *)

Definition sample_backend : McpBackend := {|
  backend_tools _ _ := json_object [("tools", json_array [])];
  backend_prompts _ := json_object [("prompts", json_array [])];
  backend_prompt name _ := Err ("unknown prompt " +:+ name);
  backend_resources _ := json_object [("resources", json_array [])];
  backend_templates _ := json_object [("resourceTemplates", json_array [])];
  backend_resource uri := Err ("unknown resource " +:+ uri);
  backend_run_tool name args _ :=
    if String.eqb name "runtime_diagnostics"
    then WithSessions 1025 (fun taken => json_object [("sessions", json_number (snap_session_count taken))])
    else Reported (Ok args)
|}.

Definition sample_rpc_post (method id : string) : HttpRequest := {|
  method := "POST"; path := "/mcp"; query := EmptyString;
  headers := [("mcp-session-id", "mcpace-1"); ("accept", "application/json, text/event-stream"); ("content-type", "application/json")];
  body := bytes (to_compact_string (H := TreeCodec.codec) (json_object
            [("jsonrpc", json_string "2.0"); ("id", json_string id); ("method", json_string method)])) |}.

Definition no_random (n : N) : result (list ascii) string := Err "no entropy".

Definition sample_ready : McpHttpSessionStore :=
  run sample_iteration [CmdInitialized (sample_post "mcpace-1") JNull 1010] sample_store.

Lemma sample_ready_wf : store_wf sample_iteration sample_ready.
Proof. apply (run_wf sample_iteration sample_iteration_perm), sample_store_wf. Qed.

Definition sample_served (request : HttpRequest) (now : N) (st : McpHttpSessionStore) : Handled :=
  handle_mcp_post (H := TreeCodec.codec) (H0 := sample_backend) (fun _ => None) sample_iteration request now no_random st.

Lemma sample_served_calls : (sample_served (sample_rpc_post "prompts/list" "a") 1020 sample_ready).1.2 <> [].
Proof. by vm_compute. Qed.

Lemma backend_needs_ready_session_witness :
  exists s, sessions sample_ready !! "mcpace-1" = Some s /\ initialized s = true.
Proof.
  destruct (backend_needs_ready_session (H := TreeCodec.codec) (H0 := sample_backend) (fun _ => None) sample_iteration
              sample_iteration_perm (sample_rpc_post "prompts/list" "a") 1020 no_random sample_ready sample_ready_wf
              sample_served_calls) as (message & id & k & sid & header & s & _ & _ & _ & Et & Es & _ & Hi & _).
  exists s. split; [|exact Hi].
  assert (Ht : touch_target (sample_rpc_post "prompts/list" "a") = Ok ("mcpace-1", None)) by (vm_compute; reflexivity).
  rewrite Ht in Et. injection Et as <- _. exact Es.
Defined.

Lemma requests_run_at_most_once_witness :
  (sample_served (sample_rpc_post "prompts/list" "a") 1020 sample_ready).1.2 <> []
  /\ (sample_served (sample_rpc_post "tools/list" "a") 1040
        (serve (H := TreeCodec.codec) (H0 := sample_backend) (fun _ => None) sample_iteration
           [EPost (sample_rpc_post "prompts/list" "a") 1020 no_random; EPost (sample_rpc_post "ping" "b") 1030 no_random]
           sample_ready)).1.2 = [].
Proof.
  split; [exact sample_served_calls|].
  apply (requests_run_at_most_once (H := TreeCodec.codec) (H0 := sample_backend) (fun _ => None) sample_iteration
           sample_iteration_perm (sample_rpc_post "prompts/list" "a") (sample_rpc_post "tools/list" "a") 1020 1040 no_random
           no_random sample_ready [EPost (sample_rpc_post "ping" "b") 1030 no_random] "mcpace-1" None None
           (json_object [("jsonrpc", json_string "2.0"); ("id", json_string "a"); ("method", json_string "prompts/list")])
           (json_object [("jsonrpc", json_string "2.0"); ("id", json_string "a"); ("method", json_string "tools/list")])).
  - exact sample_ready_wf.
  - exact sample_served_calls.
  - vm_compute. reflexivity.
  - vm_compute. reflexivity.
  - vm_compute. reflexivity.
  - vm_compute. reflexivity.
  - reflexivity.
  - repeat constructor. vm_compute. discriminate.
Defined.
