(* ===== verification/HttpReply.v ===== *)
(** * HTTP responses of the local server (src/dashboard/response.rs)

    The text of a response, with the checks on the header fields a caller adds, and the
    helpers on request targets.  The reader of src/http_probe.rs gets back exactly the
    fields and the body that were written. *)

From Stdlib Require Import Ascii ZifyBool.
From S2P Require Import Prelude RustStr BTree Json TextUtils HttpBoundary HttpProbe.

(** ** The text of a response *)

Record Reply := mkReply {
  reply_status : string;
  reply_content_type : string;
  reply_body : string;
  extra_headers : list (string * string)
}.

Definition security_headers : list (string * string) :=
  [("Cache-Control", "no-store");
   ("X-Content-Type-Options", "nosniff");
   ("Referrer-Policy", "no-referrer");
   ("X-Frame-Options", "DENY");
   ("Cross-Origin-Resource-Policy", "same-origin");
   ("Permissions-Policy", "camera=(), geolocation=(), microphone=()");
   ("Content-Security-Policy", "default-src 'none'; connect-src 'self'; img-src 'self' data:; style-src 'self' 'unsafe-inline'; script-src 'self'; base-uri 'none'; form-action 'none'; frame-ancestors 'none'")].

Definition fixed_headers (r : Reply) : list (string * string) :=
  ("Content-Type", reply_content_type r) :: ("Content-Length", N_to_string (str_len (reply_body r))) :: security_headers.

Definition header_line (header : string * string) : string := fst header +:+ ": " +:+ snd header.

Definition lines_text (lines : list string) : string :=
  fold_right (fun line text => line +:+ CRLF_text +:+ text) EmptyString lines.

Definition check_extra_header (header : string * string) : result unit string :=
  if negb (is_valid_http_header_name (fst header)) then Err ("invalid response header name: " +:+ fst header)
  else if negb (is_valid_http_header_value (snd header)) then Err ("invalid response header value for " +:+ fst header)
  else Ok tt.

Fixpoint check_extra_headers (headers : list (string * string)) : result unit string :=
  match headers with
  | [] => Ok tt
  | header :: headers => _ ←? check_extra_header header ;; check_extra_headers headers
  end.

(** All the bytes written to the stream: the head, then the body. *)
Definition write_response_with_headers (r : Reply) : result string string :=
  _ ←? check_extra_headers (extra_headers r) ;;
  Ok (lines_text (("HTTP/1.1 " +:+ reply_status r) :: map header_line (fixed_headers r ++ extra_headers r))
        +:+ "Connection: close" +:+ CRLF_text +:+ CRLF_text +:+ reply_body r).

Section json.
Context `{SerdeJson}.

Definition json_response_with_owned_headers (status : string) (payload : JsonValue) (headers : list (string * string)) : Reply :=
  mkReply status "application/json; charset=utf-8" (to_pretty_string payload) headers.

Definition json_response (status : string) (payload : JsonValue) : Reply :=
  json_response_with_owned_headers status payload [].

End json.

Definition text_response (status content_type body : string) : Reply := mkReply status content_type body [].

Definition empty_response_with_headers (status : string) (headers : list (string * string)) : Reply :=
  mkReply status "text/plain; charset=utf-8" EmptyString headers.

Definition empty_response (status : string) : Reply := empty_response_with_headers status [].

(** ** Request targets *)

Definition split_target (target : string) : string * string :=
  match split_once "?" target with Some (path, query) => (path, query) | None => (target, EmptyString) end.

Fixpoint find_pair (key : string) (pairs : list string) : option string :=
  match pairs with
  | [] => None
  | piece :: pairs =>
      match split_once "=" piece with
      | Some (candidate, value) => if String.eqb candidate key then Some value else find_pair key pairs
      | None => find_pair key pairs
      end
  end.

Definition query_parameter (query key : string) : option string := find_pair key (split_char "&" query).

(** ** Lines *)

(** No line end inside. *)
Definition one_line (s : string) : Prop := contains_char CR s = false.

Lemma strip_crlf_other a s : Ascii.eqb CR a = false -> strip_prefix CRLF_text (String a s) = None.
Proof. intros Ha. change CRLF_text with (String CR (String LF EmptyString)). cbn [strip_prefix]. by rewrite Ha. Qed.

Lemma split_once_crlf l r : one_line l -> split_once_str CRLF_text (l +:+ CRLF_text +:+ r) = Some (l, r).
Proof.
  unfold one_line. induction l as [|a l IH]; intros Hl.
  - change (EmptyString +:+ CRLF_text +:+ r) with (CRLF_text +:+ r). by rewrite split_once_str_unfold, strip_prefix_app.
  - rewrite contains_char_cons in Hl. apply orb_false_iff in Hl as [Ha Hl].
    rewrite append_cons, split_once_str_unfold, strip_crlf_other by done. by rewrite IH.
Qed.

Lemma split_once_crlf_none l : one_line l -> split_once_str CRLF_text l = None.
Proof.
  unfold one_line. induction l as [|a l IH]; intros Hl; [done|].
  rewrite contains_char_cons in Hl. apply orb_false_iff in Hl as [Ha Hl].
  rewrite split_once_str_unfold, strip_crlf_other by done. by rewrite IH.
Qed.

Lemma split_str_join fuel line lines :
  Forall one_line (line :: lines) -> (length lines <= fuel)%nat ->
  split_str_fuel fuel CRLF_text (join CRLF_text (line :: lines)) = line :: lines.
Proof.
  revert fuel line. induction lines as [|l lines IH]; intros fuel line Hall Hf; apply Forall_cons in Hall as [Hl Hall].
  - cbn [join]. destruct fuel; cbn [split_str_fuel]; [done|]. by rewrite split_once_crlf_none.
  - destruct fuel as [|fuel]; [cbn in Hf; lia|].
    change (join CRLF_text (line :: l :: lines)) with (line +:+ CRLF_text +:+ join CRLF_text (l :: lines)).
    cbn [split_str_fuel]. rewrite split_once_crlf by done. f_equal. apply IH; [done|]. cbn in Hf. lia.
Qed.

Lemma join_length line lines : (length lines <= String.length (join CRLF_text (line :: lines)))%nat.
Proof.
  revert line. induction lines as [|l lines IH]; intros line; [cbn; lia|].
  change (join CRLF_text (line :: l :: lines)) with (line +:+ CRLF_text +:+ join CRLF_text (l :: lines)).
  pose proof (IH l) as IHl. pose proof (str_len_app line (CRLF_text +:+ join CRLF_text (l :: lines))) as E1.
  pose proof (str_len_app CRLF_text (join CRLF_text (l :: lines))) as E2. unfold str_len in *.
  change (String.length CRLF_text) with 2%nat in E2. cbn [length] in *. lia.
Qed.

Lemma lines_text_last front last rest : lines_text front +:+ last +:+ rest = join CRLF_text (front ++ [last]) +:+ rest.
Proof.
  induction front as [|line front IH]; [done|].
  change (lines_text (line :: front)) with (line +:+ CRLF_text +:+ lines_text front). rewrite !append_assoc_str, IH.
  destruct front as [|l front]; [cbn [app join]; by rewrite !append_assoc_str|]. cbn [app].
  change (join CRLF_text (line :: l :: front ++ [last])) with (line +:+ CRLF_text +:+ join CRLF_text (l :: front ++ [last])).
  by rewrite !append_assoc_str.
Qed.

(** The end of the head is where the writer put it. *)
Lemma split_head line lines body :
  Forall (fun l => one_line l /\ l <> EmptyString) (line :: lines) ->
  split_once_str (CRLF_text +:+ CRLF_text) (join CRLF_text (line :: lines) +:+ CRLF_text +:+ CRLF_text +:+ body)
  = Some (join CRLF_text (line :: lines), body).
Proof.
  set (sep := CRLF_text +:+ CRLF_text).
  assert (Hother : forall a s, Ascii.eqb CR a = false -> split_once_str sep (String a s)
            = match split_once_str sep s with Some (b, c) => Some (String a b, c) | None => None end).
  { intros a s Ha. rewrite split_once_str_unfold. change sep with (String CR (String LF (String CR (String LF EmptyString)))).
    cbn [strip_prefix]. by rewrite Ha. }
  assert (Hline : forall l s b c, one_line l -> split_once_str sep s = Some (b, c) -> split_once_str sep (l +:+ s) = Some (l +:+ b, c)).
  { unfold one_line. induction l as [|a l IHl]; intros s b c Hl Hs; [done|].
    rewrite contains_char_cons in Hl. apply orb_false_iff in Hl as [Ha Hl].
    rewrite !append_cons, Hother by done. by rewrite (IHl s b c). }
  revert line. induction lines as [|l lines IH]; intros line Hall; apply Forall_cons in Hall as [ [Hl Hne] Hall].
  - cbn [join]. rewrite <- (append_empty_r line) at 2. apply Hline; [done|].
    rewrite <- append_assoc_str. fold sep. by rewrite split_once_str_unfold, strip_prefix_app.
  - change (join CRLF_text (line :: l :: lines)) with (line +:+ CRLF_text +:+ join CRLF_text (l :: lines)).
    rewrite !append_assoc_str. apply Hline; [done|]. specialize (IH l Hall).
    apply Forall_cons in Hall as [ [Hl2 Hne2] _]. destruct l as [|a l]; [done|].
    assert (Ha : Ascii.eqb CR a = false) by (unfold one_line in Hl2; rewrite contains_char_cons in Hl2; by apply orb_false_iff in Hl2 as [? _]).
    set (text := join CRLF_text (String a l :: lines)) in *.
    assert (exists t, text = String a t) as [t Et].
    { unfold text. destruct lines; [by eexists|]. eexists. cbn [join]. by rewrite append_cons. }
    rewrite Et in *. change (CRLF_text +:+ String a t) with (String CR (String LF (String a t))).
    rewrite append_cons in IH. change (CRLF_text +:+ String a t +:+ CRLF_text +:+ CRLF_text +:+ body)
      with (String CR (String LF (String a (t +:+ CRLF_text +:+ CRLF_text +:+ body)))).
    rewrite split_once_str_unfold. change (strip_prefix sep (String CR (String LF (String a (t +:+ CRLF_text +:+ CRLF_text +:+ body)))))
      with (if Ascii.eqb CR a then strip_prefix (String LF EmptyString) (t +:+ CRLF_text +:+ CRLF_text +:+ body) else None).
    rewrite Ha, (Hother LF) by done. by rewrite IH.
Qed.

Lemma digit_visible c : is_ascii_digit c = true -> visible c = true.
Proof. unfold is_ascii_digit, visible, in_range. lia. Qed.

Lemma all_bytes_trim p s : all_bytes p s = true -> all_bytes p (trim s) = true.
Proof.
  destruct (part_of_trim s) as (l & r & E). rewrite E at 1. rewrite !all_bytes_app.
  intros Hp. apply andb_true_iff in Hp as [_ Hp]. by apply andb_true_iff in Hp as [? _].
Qed.

(** ** Reading a response back *)

Definition read_back (header : string * string) : string * string := (fst header, trim (snd header)).

(** A field the reader takes as it is written. *)
Definition field_ok (header : string * string) : Prop :=
  valid_http_header_name (fst header) = true /\ is_valid_http_header_value (snd header) = true.

Definition framing_name (name : string) : bool :=
  existsb (String.eqb (to_ascii_lowercase name)) ["content-type"; "content-length"; "transfer-encoding"].

Lemma header_name_visible n : valid_http_header_name n = true -> all_bytes visible n = true /\ contains_char ":" n = false /\ n <> EmptyString.
Proof.
  unfold valid_http_header_name. intros [Hne Hn]%andb_true_iff. split_and!.
  - eapply all_bytes_impl; [|exact Hn]. intros c. cbn beta. unfold is_ascii_alphanumeric, is_ascii_alphabetic,
      is_ascii_digit, is_ascii_lowercase, is_ascii_uppercase, visible, in_range.
    rewrite !orb_true_iff, !Ascii.eqb_eq. intros [ [ [ [?| ->]| ->]| ->]| ->]; [lia|reflexivity..].
  - eapply all_bytes_not_contains; [exact Hn|reflexivity].
  - intros ->. done.
Qed.

Lemma value_byte_ok v : is_valid_http_header_value v = true -> all_bytes header_value_byte (trim v) = true.
Proof.
  intros Hv. apply all_bytes_trim. eapply all_bytes_impl; [|exact Hv]. intros c. unfold header_value_byte.
  cbn beta. by intros [-> | ->]%orb_true_iff; rewrite ?orb_true_r.
Qed.

(** The line of a field is scanned as the field. *)
Lemma scan_field s h :
  field_ok h -> framing_name (fst h) = false -> scan_header_line s (header_line h) = Ok (push_header (read_back h) s).
Proof.
  destruct h as [n v]. unfold field_ok, framing_name, read_back, header_line. cbn [fst snd]. intros [Hn Hv] Hf.
  destruct (header_name_visible n Hn) as (Hvis & Hc & Hne). unfold scan_header_line.
  rewrite (split_once_app ":" n (" " +:+ v) Hc : split_once ":" (n +:+ ": " +:+ v) = _).
  rewrite (trim_visible_text n Hvis), (trim_space v : trim (" " +:+ v) = trim v), Hn, (value_byte_ok v Hv). cbn [negb orb].
  cbn [existsb] in Hf. rewrite !orb_false_iff in Hf. destruct Hf as (E1 & E2 & E3 & _). by rewrite E1, E2, E3.
Qed.

Lemma scan_content_type_line s v :
  is_valid_http_header_value v = true ->
  scan_header_line s (header_line ("Content-Type", v)) =
    Ok (mkScan (scan_headers s ++ [("Content-Type", trim v)]) (trim v) (scan_content_length s) (scan_transfer_encoding s)
          (transfer_encoding_seen s)).
Proof.
  intros Hv. unfold scan_header_line, header_line. cbn [fst snd].
  rewrite (split_once_app ":" "Content-Type" (" " +:+ v) eq_refl : split_once ":" ("Content-Type" +:+ ": " +:+ v) = _).
  rewrite (trim_space v : trim (" " +:+ v) = trim v), (value_byte_ok v Hv). done.
Qed.

Lemma scan_content_length_line s n :
  (n <= USIZE_MAX)%N -> scan_content_length s = None ->
  scan_header_line s (header_line ("Content-Length", N_to_string n)) =
    Ok (mkScan (scan_headers s ++ [("Content-Length", N_to_string n)]) (scan_content_type s) (Some n) (scan_transfer_encoding s)
          (transfer_encoding_seen s)).
Proof.
  intros Hn Hs. unfold scan_header_line, header_line. cbn [fst snd]. pose proof (N_to_string_all_digits n) as Hd.
  rewrite (split_once_app ":" "Content-Length" (" " +:+ N_to_string n) eq_refl
             : split_once ":" ("Content-Length" +:+ ": " +:+ N_to_string n) = _).
  rewrite (trim_space (N_to_string n) : trim (" " +:+ N_to_string n) = _), (trim_visible_text (N_to_string n))
    by (eapply all_bytes_impl; [exact digit_visible|exact Hd]).
  assert (Hb : all_bytes header_value_byte (N_to_string n) = true).
  { eapply all_bytes_impl; [|exact Hd]. intros c. unfold header_value_byte, is_ascii_digit, in_range. lia. }
  rewrite Hb. cbn [negb orb]. change (trim "Content-Length") with "Content-Length".
  change (valid_http_header_name "Content-Length") with true. cbn [negb orb].
  change (String.eqb (to_ascii_lowercase "Content-Length") "content-type") with false.
  change (String.eqb (to_ascii_lowercase "Content-Length") "content-length") with true. cbn [negb].
  unfold parse_usize. rewrite parse_unsigned_N_to_string by done. by rewrite Hs.
Qed.

Lemma scan_fields hs s :
  Forall (fun h => field_ok h /\ framing_name (fst h) = false) hs ->
  scan_head s (map header_line hs) =
    Ok (mkScan (scan_headers s ++ map read_back hs) (scan_content_type s) (scan_content_length s) (scan_transfer_encoding s)
          (transfer_encoding_seen s)).
Proof.
  revert s. induction hs as [|h hs IH]; intros s Hall; cbn [map scan_head]; [destruct s; by rewrite app_nil_r|].
  apply Forall_cons in Hall as [ [Hok Hf] Hall]. rewrite (scan_field s h Hok Hf), (IH _ Hall).
  cbn [push_header scan_headers scan_content_type scan_content_length scan_transfer_encoding transfer_encoding_seen].
  by rewrite <- app_assoc.
Qed.

Lemma no_bare_byte p s : (forall c, p c = true -> (32 <= code c)%N) -> all_bytes p s = true -> existsb bare_line_byte (bytes s) = false.
Proof.
  intros Hp Hs. apply not_true_iff_false. rewrite existsb_exists. intros (c & Hin & Hc).
  unfold all_bytes in Hs. rewrite forallb_forall in Hs. specialize (Hp c (Hs c Hin)). revert Hp Hc.
  unfold bare_line_byte. rewrite !orb_true_iff, !Ascii.eqb_eq. intros Hp [ [-> | ->]|?]; [by vm_compute in Hp..|lia].
Qed.

Lemma status_line_read code reason :
  (100 <= code)%N -> (code <= 599)%N -> is_valid_http_header_value reason = true ->
  parse_status_line ("HTTP/1.1 " +:+ N_to_string code +:+ " " +:+ reason) = Ok ("HTTP/1.1", code).
Proof.
  intros H1 H2 Hr. pose proof (N_to_string_all_digits code) as Hd. unfold parse_status_line.
  assert (Hb : existsb bare_line_byte (bytes ("HTTP/1.1 " +:+ N_to_string code +:+ " " +:+ reason)) = false).
  { rewrite !bytes_app, !existsb_app, !orb_false_iff. split_and!; [reflexivity| |reflexivity|].
    - eapply no_bare_byte, Hd. intros c. unfold is_ascii_digit, in_range. lia.
    - eapply no_bare_byte, Hr. intros c Hc. cbn beta in Hc. apply orb_true_iff in Hc as [Hc|Hc]; [|revert Hc; unfold in_range; lia].
      apply Ascii.eqb_eq in Hc as ->. by vm_compute. }
  rewrite Hb. change (bytes ("HTTP/1.1 " +:+ N_to_string code +:+ " " +:+ reason))
    with (bytes "HTTP/1.1" ++ " "%char :: bytes (N_to_string code +:+ " " +:+ reason)).
  rewrite (next_word_visible "H"%char (bytes "TTP/1.1") _ eq_refl
             : next_word (bytes "HTTP/1.1" ++ " "%char :: bytes (N_to_string code +:+ " " +:+ reason)) = _).
  destruct (N_to_string_head code) as (c & t & Et & Hc).
  assert (Hw : forallb visible (c :: bytes t) = true).
  { assert (E : c :: bytes t = bytes (N_to_string code)) by (by rewrite Et). rewrite E. unfold all_bytes in Hd.
    rewrite forallb_forall in Hd |- *. intros x Hx. by apply digit_visible, Hd. }
  assert (Hn : next_word (" "%char :: bytes (N_to_string code +:+ " " +:+ reason)) = Some (N_to_string code, " "%char :: bytes reason)).
  { rewrite next_word_space, bytes_app, Et. change (bytes (" " +:+ reason)) with (" "%char :: bytes reason).
    change (bytes (String c t)) with (c :: bytes t). rewrite next_word_visible by done. do 2 f_equal.
    change (c :: bytes t) with (bytes (String c t)). apply of_bytes_bytes. }
  rewrite Hn. cbn [mbind option_bind]. rewrite parse_unsigned_N_to_string by lia.
  unfold opt_filter. assert (E : ((100 <=? code) && (code <=? 599))%N = true) by lia. by rewrite E.
Qed.

(** What a response says once it is read. *)
Definition response_of (r : Reply) (code : N) : HttpResponse := {|
  status_line := "HTTP/1.1 " +:+ reply_status r;
  status := code;
  HttpProbe.headers := map read_back (fixed_headers r ++ extra_headers r ++ [("Connection", "close")]);
  content_type := trim (reply_content_type r);
  content_length := Some (str_len (reply_body r));
  transfer_encoding := EmptyString;
  response_body := reply_body r |}.

Lemma body_bytes_of r code : body_bytes (response_of r code) = Returns (Ok (bytes (reply_body r))).
Proof.
  unfold body_bytes. change (is_chunked (response_of r code)) with false. cbn [response_of response_body content_length].
  rewrite N.ltb_irrefl. do 2 f_equal. rewrite str_len_bytes. unfold len_N. rewrite Nat2N.id. apply firstn_all.
Qed.

Lemma checked_extras hs : check_extra_headers hs = Ok tt -> Forall (fun h => is_valid_http_header_value (snd h) = true) hs.
Proof.
  induction hs as [|h hs IH]; [done|]. cbn [check_extra_headers]. unfold check_extra_header.
  destruct (is_valid_http_header_name (fst h)), (is_valid_http_header_value (snd h)) eqn:Ev; try done. intros Hhs. auto.
Qed.

(** The lines of the head that are header fields, as the reader scans them. *)
Lemma scan_reply r :
  is_valid_http_header_value (reply_content_type r) = true -> (str_len (reply_body r) <= USIZE_MAX)%N ->
  Forall (fun h => field_ok h /\ framing_name (fst h) = false) (extra_headers r) ->
  scan_head scan_start (map header_line (fixed_headers r ++ extra_headers r ++ [("Connection", "close")]))
  = Ok (mkScan (map read_back (fixed_headers r ++ extra_headers r ++ [("Connection", "close")]))
          (trim (reply_content_type r)) (Some (str_len (reply_body r))) EmptyString false).
Proof.
  intros Ht Hb He. unfold fixed_headers. cbn [app map scan_head].
  rewrite scan_content_type_line by done. rewrite scan_content_length_line by done.
  rewrite scan_fields.
  - cbn [scan_start scan_headers scan_content_type scan_content_length scan_transfer_encoding transfer_encoding_seen app].
    unfold read_back at 2 3. cbn [fst snd]. rewrite (trim_visible_text (N_to_string _)); [done|].
    eapply all_bytes_impl; [exact digit_visible|apply N_to_string_all_digits].
  - apply Forall_app. split; [|apply Forall_app; split; [done|by repeat constructor] ].
    by repeat constructor.
Qed.

(** Every line of the head is one line. *)
Lemma valid_value_line v : is_valid_http_header_value v = true -> one_line v.
Proof. intros Hv. eapply all_bytes_not_contains; [exact Hv|reflexivity]. Qed.

Lemma field_line h : field_ok h -> one_line (header_line h) /\ header_line h <> EmptyString.
Proof.
  destruct h as [n v]. unfold field_ok, header_line. cbn [fst snd]. intros [Hn Hv].
  destruct (header_name_visible n Hn) as (Hvis & _ & Hne). split.
  - unfold one_line. rewrite !contains_char_app, (valid_value_line v Hv), orb_false_r.
    rewrite (all_bytes_not_contains _ CR n Hvis) by done. done.
  - destruct n; [done|]. by rewrite append_cons.
Qed.

Lemma number_field n : field_ok ("Content-Length", N_to_string n).
Proof.
  split; [done|]. cbn [snd]. eapply all_bytes_impl; [|apply N_to_string_all_digits].
  intros c. cbn beta. unfold is_ascii_digit, in_range. lia.
Qed.

Lemma status_one_line code reason :
  is_valid_http_header_value reason = true -> one_line ("HTTP/1.1 " +:+ N_to_string code +:+ " " +:+ reason).
Proof.
  intros Hr. unfold one_line. rewrite !contains_char_app, (valid_value_line reason Hr), orb_false_r.
  rewrite (all_bytes_not_contains _ CR _ (N_to_string_all_digits code)) by done. done.
Qed.

(** ** A response is read back *)

(** What is written is what a client reads: a response with a status code and a reason,
    a content type and added fields whose names are not those of the framing is read back
    with exactly its fields, in their order and without the white space around their values,
    and exactly its body, whatever the body and the values hold; a field that could end a
    line is refused, so no value can add a field or move the start of the body. *)
Theorem responses_read_back r code reason text :
  reply_status r = N_to_string code +:+ " " +:+ reason -> (100 <= code)%N -> (code <= 599)%N ->
  is_valid_http_header_value reason = true -> is_valid_http_header_value (reply_content_type r) = true ->
  (str_len (reply_body r) <= USIZE_MAX)%N ->
  Forall (fun h => valid_http_header_name (fst h) = true /\ framing_name (fst h) = false) (extra_headers r) ->
  write_response_with_headers r = Ok text ->
  parse_response text = Ok (response_of r code) /\ body_bytes (response_of r code) = Returns (Ok (bytes (reply_body r))).
Proof.
  intros Es H1 H2 Hr Ht Hb He Hw. split; [|apply body_bytes_of]. revert Hw. unfold write_response_with_headers.
  destruct (check_extra_headers (extra_headers r)) as [ []|] eqn:Hck; [|done]. apply checked_extras in Hck.
  set (fields := fixed_headers r ++ extra_headers r ++ [("Connection", "close")]).
  assert (Hx : Forall (fun h => field_ok h /\ framing_name (fst h) = false) (extra_headers r)).
  { rewrite Forall_forall in He, Hck |- *. intros h Hh. destruct (He h Hh). repeat split; auto. }
  assert (Hlines : Forall (fun l => one_line l /\ l <> EmptyString) (("HTTP/1.1 " +:+ reply_status r) :: map header_line fields)).
  { constructor; [rewrite Es; split; [by apply status_one_line|done] |]. apply Forall_map.
    assert (Hok : Forall field_ok fields); [|eapply Forall_impl; [exact Hok|exact field_line] ].
    unfold fields. apply Forall_app. split; [|apply Forall_app; split; [eapply Forall_impl; [exact Hx|by intros ? [? _] ]|by repeat constructor] ].
    constructor; [done|]. constructor; [apply number_field|by repeat constructor]. }
  intros Hw. set (lines := ("HTTP/1.1 " +:+ reply_status r) :: map header_line fields) in *.
  assert (Etext : lines_text (("HTTP/1.1 " +:+ reply_status r) :: map header_line (fixed_headers r ++ extra_headers r))
      +:+ "Connection: close" +:+ CRLF_text +:+ CRLF_text +:+ reply_body r
    = join CRLF_text lines +:+ CRLF_text +:+ CRLF_text +:+ reply_body r).
  { unfold lines, fields. rewrite app_assoc, (map_app header_line (fixed_headers r ++ extra_headers r)), app_comm_cons.
    apply lines_text_last. }
  rewrite Etext in Hw. assert (text = join CRLF_text lines +:+ CRLF_text +:+ CRLF_text +:+ reply_body r) as -> by congruence.
  unfold parse_response. rewrite (split_head _ _ _ Hlines : split_once_str (CRLF_text +:+ CRLF_text) (join CRLF_text lines +:+ CRLF_text +:+ CRLF_text +:+ reply_body r) = _). cbn [ok_or].
  assert (Hsplit : split_str CRLF_text (join CRLF_text lines) = lines).
  { unfold split_str, lines. apply split_str_join; [eapply Forall_impl; [exact Hlines|by intros ? [? _] ]|apply join_length]. }
  fold lines. rewrite Hsplit. unfold lines. cbn [head hd_error tail unwrap_or]. rewrite Es, status_line_read by done.
  pose proof (scan_reply r Ht Hb Hx) as Hscan. fold fields in Hscan. cbn [list.tail]. rewrite Hscan.
  cbn [scan_transfer_encoding scan_content_length scan_headers scan_content_type is_some str_is_empty negb andb snd].
  unfold response_of. by rewrite Es.
Qed.

(** ** Witnesses *)

Definition sample_reply : Reply :=
  mkReply "429 Too Many Requests" "text/plain; charset=utf-8" (of_bytes (bytes "busy" ++ crlf ++ crlf ++ bytes "X: 1"))
    [("Retry-After", " 7")].

Lemma responses_read_back_witness :
  exists text, write_response_with_headers sample_reply = Ok text /\ parse_response text = Ok (response_of sample_reply 429).
Proof.
  destruct (write_response_with_headers sample_reply) as [text|e] eqn:E; [|vm_compute in E; discriminate E].
  exists text. split; [reflexivity|].
  apply (responses_read_back sample_reply 429 "Too Many Requests" text); try exact E; try (vm_compute; reflexivity); try (vm_compute; discriminate).
  repeat constructor.
Defined.
