(* ===== verification/HttpServer.v ===== *)
(** * Reading requests in the local server (src/dashboard.rs: handle_connection)

    The buffered reader over a socket that delivers its bytes in pieces, lines of bounded
    length, the head of a request with its limits, and the checks before the body is read:
    the local boundary, the rate limit, the bearer token and the resource governor. *)

From Stdlib Require Import Ascii ZifyBool.
From S2P Require Import Prelude RustStr BTree Json HttpBoundary HttpProbe ProxyUri RateLimit HttpReply.

(** ** Limits *)

Definition MAX_HTTP_REQUEST_LINE_BYTES : N := 8 * 1024.
Definition MAX_HTTP_HEADER_LINE_BYTES : N := 8 * 1024.
Definition MAX_HTTP_HEADER_BYTES : N := 64 * 1024.
Definition MAX_HTTP_HEADER_COUNT : N := 128.

(** ** The reader *)

(** What one read of the socket returns: some bytes or an error; the end of the list is the
    end of the stream. *)
Inductive Arrival :=
| Data (first : ascii) (rest : list ascii)
| ReadFailed (error : string).

(** What one look at the deadline finds. *)
Inductive DeadlineCheck := InTime | Late | TimeoutNotSet (error : string).

(** [checks]: the next looks at the deadline; those after the end of the list are in time. *)
Record Reader := mkReader { buffer : list ascii; arrivals : list Arrival; checks : list DeadlineCheck }.

Definition set_remaining_http_read_timeout (label : string) (r : Reader) : Reader * result unit string :=
  match checks r with
  | [] => (r, Ok tt)
  | check :: checks =>
      (mkReader (buffer r) (arrivals r) checks,
       match check with
       | InTime => Ok tt
       | Late => Err ("HTTP request deadline exceeded while reading " +:+ label)
       | TimeoutNotSet error => Err ("set " +:+ label +:+ " timeout: " +:+ error)
       end)
  end.

(** [BufRead::fill_buf]: reads only when nothing is buffered. *)
Definition fill_buf (r : Reader) : Reader * result (list ascii) string :=
  match buffer r with
  | [] =>
      match arrivals r with
      | [] => (r, Ok [])
      | Data first rest :: arrivals => (mkReader (first :: rest) arrivals (checks r), Ok (first :: rest))
      | ReadFailed error :: arrivals => (mkReader [] arrivals (checks r), Err error)
      end
  | available => (r, Ok available)
  end.

Definition consume (n : N) (r : Reader) : Reader := mkReader (skipn (N.to_nat n) (buffer r)) (arrivals r) (checks r).

(** ** Lines *)

Inductive LimitedHttpLine := LineEmpty | Line (text : string) | TooLong.

Fixpoint position (c : ascii) (l : list ascii) : option N :=
  match l with
  | [] => None
  | a :: l => if Ascii.eqb a c then Some 0%N else option_map N.succ (position c l)
  end.

(** The bytes up to and with the first line feed. *)
Definition until_newline (available : list ascii) : N :=
  match position LF available with Some p => (p + 1)%N | None => len_N available end.

Fixpoint read_line_loop (fuel : nat) (max_bytes : N) (label : string) (line : list ascii) (r : Reader)
    : Reader * result LimitedHttpLine string :=
  match fuel with
  | O => (r, Ok TooLong)
  | S fuel =>
      match set_remaining_http_read_timeout label r with
      | (r, Err error) => (r, Err error)
      | (r, Ok _) =>
          match fill_buf r with
          | (r, Err error) => (r, Err ("read " +:+ label +:+ ": " +:+ error))
          | (r, Ok []) => (r, Ok (match line with [] => LineEmpty | _ => Line (from_utf8_lossy line) end))
          | (r, Ok available) =>
              let remaining := (sat_add USIZE_MAX max_bytes 1 - len_N line)%N in
              let take_len := N.min (until_newline available) remaining in
              let taken := firstn (N.to_nat take_len) available in
              let line := line ++ taken in
              let newline_seen := (take_len =? until_newline available)%N && existsb (Ascii.eqb LF) taken in
              let r := consume take_len r in
              if (max_bytes <? len_N line)%N then (r, Ok TooLong)
              else if newline_seen then (r, Ok (Line (from_utf8_lossy line)))
              else if (take_len =? 0)%N then (r, Ok TooLong)
              else read_line_loop fuel max_bytes label line r
          end
      end
  end.

(** An iteration that goes on has used up the buffer, so the next one takes an arrival. *)
Definition read_limited_http_line (max_bytes : N) (label : string) (r : Reader) : Reader * result LimitedHttpLine string :=
  read_line_loop (S (S (length (arrivals r)))) max_bytes label [] r.

(** ** Bodies *)

Definition BODY_READ_CHUNK_BYTES : N := 8 * 1024.

(** [Read::read_exact] of a buffered reader. *)
Fixpoint read_exact (fuel : nat) (n : N) (r : Reader) : Reader * result (list ascii) string :=
  if (n =? 0)%N then (r, Ok [])
  else
    match fuel with
    | O => (r, Err "failed to fill whole buffer")
    | S fuel =>
        match fill_buf r with
        | (r, Err error) => (r, Err error)
        | (r, Ok []) => (r, Err "failed to fill whole buffer")
        | (r, Ok available) =>
            let take_len := N.min n (len_N available) in
            match read_exact fuel (n - take_len) (consume take_len r) with
            | (r, Ok rest) => (r, Ok (firstn (N.to_nat take_len) available ++ rest))
            | (r, Err error) => (r, Err error)
            end
        end
    end.

Fixpoint read_body_loop (fuel : nat) (content_length : N) (body : list ascii) (r : Reader) : Reader * result (list ascii) string :=
  if (content_length <=? len_N body)%N then (r, Ok body)
  else
    match fuel with
    | O => (r, Ok body)
    | S fuel =>
        match set_remaining_http_read_timeout "request body" r with
        | (r, Err error) => (r, Err error)
        | (r, Ok _) =>
            let read_len := N.min (content_length - len_N body) BODY_READ_CHUNK_BYTES in
            match read_exact (S (length (arrivals r))) read_len r with
            | (r, Err error) => (r, Err ("read request body: " +:+ error))
            | (r, Ok piece) => read_body_loop fuel content_length (body ++ piece) r
            end
        end
    end.

(** Every pass reads at least one byte. *)
Definition read_limited_http_body (content_length : N) (r : Reader) : Reader * result (list ascii) string :=
  read_body_loop (S (N.to_nat content_length)) content_length [] r.

(** ** Authorization *)

Definition authorization_bearer_token (value : string) : option string :=
  '(scheme, rest) ← next_word (bytes value);
  '(token, rest) ← next_word rest;
  if is_some (next_word rest) || str_is_empty token || negb (eq_ignore_ascii_case scheme "Bearer") then None
  else Some token.

(** The accumulated difference of two byte strings, position by position. *)
Fixpoint byte_difference (diff : N) (indices : list nat) (left right : list ascii) : N :=
  match indices with
  | [] => diff
  | index :: indices =>
      byte_difference (N.lor diff (N.lxor (code (nth index left "000"%char)) (code (nth index right "000"%char)))) indices left right
  end.

Definition constant_time_eq (left right : list ascii) : bool :=
  let max_len := Nat.max (length left) (length right) in
  (byte_difference (N.lxor (len_N left) (len_N right)) (seq 0 max_len) left right =? 0)%N.

Definition is_authorized_http_request (auth_token : option string) (request : HttpRequest) : bool :=
  match auth_token with
  | None => true
  | Some expected =>
      match header_values "authorization" request with
      | [value] =>
          match authorization_bearer_token value with
          | Some token => constant_time_eq (bytes token) (bytes expected)
          | None => false
          end
      | _ => false
      end
  end.

(** ** The head of a request *)

(** [split_whitespace]. *)
Fixpoint words (fuel : nat) (l : list ascii) : list string :=
  match fuel with
  | O => []
  | S fuel => match next_word l with None => [] | Some (word, rest) => word :: words fuel rest end
  end.

Definition split_whitespace (s : string) : list string := words (S (String.length s)) (bytes s).

Definition is_supported_http_version (version : string) : bool :=
  String.eqb version "HTTP/1.1" || String.eqb version "HTTP/1.0".

(** A refusal: the route it is recorded under, if not that of the target, and the response. *)
Record Refusal := mkRefusal { refused_route : option string; refused_reply : Reply }.

Definition refuse (route status message : string) : Refusal :=
  mkRefusal (Some route) (text_response status "text/plain; charset=utf-8" message).

Definition headers_too_large (route : string) : Refusal :=
  refuse route "431 Request Header Fields Too Large" "HTTP request headers are too large".

(** Method and target; [None]: nothing was asked. *)
Definition parse_request_line (request_line : string) : option (result (string * string) Refusal) :=
  if str_is_empty (trim request_line) then None
  else
    Some match split_whitespace request_line with
         | [method; target; version] =>
             if negb (is_supported_http_version version)
             then Err (refuse "http.malformed_request" "400 Bad Request" "Malformed HTTP request")
             else if negb (starts_with "/" target)
             then Err (refuse "http.unsupported_target" "400 Bad Request" "Unsupported HTTP request target")
             else Ok (method, target)
         | _ => Err (refuse "http.malformed_request" "400 Bad Request" "Malformed HTTP request")
         end.

Record HeaderState := mkHeaders {
  head_headers : list (string * string);
  head_content_length : option N;
  header_bytes : N;
  header_count : N
}.

Definition headers_start : HeaderState := mkHeaders [] None 0 0.

(** One header line that is not the end of the head. *)
Definition add_header_line (header : string) (s : HeaderState) : result HeaderState Refusal :=
  let count := sat_add USIZE_MAX (header_count s) 1 in
  if (MAX_HTTP_HEADER_COUNT <? count)%N then Err (headers_too_large "http.header_count_too_large")
  else
    let size := sat_add USIZE_MAX (header_bytes s) (str_len header) in
    if (MAX_HTTP_HEADER_BYTES <? size)%N then Err (headers_too_large "http.headers_too_large")
    else
      match split_once ":" header with
      | None => Err (refuse "http.malformed_header" "400 Bad Request" "Malformed HTTP header")
      | Some (name, value) =>
          let raw_name := trim name in
          if negb (is_valid_http_header_name raw_name)
          then Err (refuse "http.invalid_header_name" "400 Bad Request" "Invalid HTTP header name")
          else
            let key := to_ascii_lowercase raw_name in
            let trimmed := trim value in
            if negb (is_valid_http_header_value trimmed)
            then Err (refuse "http.invalid_header_value" "400 Bad Request" "Invalid HTTP header value")
            else if String.eqb key "transfer-encoding"
            then Err (refuse "http.transfer_encoding_rejected" "400 Bad Request" "Transfer-Encoding is not supported")
            else if String.eqb key "content-length" then
              match parse_usize trimmed with
              | None => Err (refuse "http.invalid_content_length" "400 Bad Request" "Invalid Content-Length")
              | Some parsed_length =>
                  if is_some (head_content_length s)
                  then Err (refuse "http.duplicate_content_length" "400 Bad Request" "Duplicate Content-Length is not allowed")
                  else Ok (mkHeaders (head_headers s ++ [(key, trimmed)]) (Some parsed_length) size count)
              end
            else Ok (mkHeaders (head_headers s ++ [(key, trimmed)]) (head_content_length s) size count)
      end.

Definition ends_head (header : string) : bool :=
  String.eqb header CRLF_text || String.eqb header (of_bytes [LF]) || str_is_empty header.

(** Why reading stopped short of a request. *)
Inductive Stop :=
| Silent
| Refused (refusal : Refusal)
| Broken (error : string).

Fixpoint read_headers_loop (fuel : nat) (s : HeaderState) (r : Reader) : Reader * result HeaderState Stop :=
  match fuel with
  | O => (r, Ok s)
  | S fuel =>
      match read_limited_http_line MAX_HTTP_HEADER_LINE_BYTES "request header" r with
      | (r, Err error) => (r, Err (Broken error))
      | (r, Ok LineEmpty) => (r, Ok s)
      | (r, Ok TooLong) => (r, Err (Refused (headers_too_large "http.header_line_too_large")))
      | (r, Ok (Line header)) =>
          if ends_head header then (r, Ok s)
          else
            match add_header_line header s with
            | Err refusal => (r, Err (Refused refusal))
            | Ok s => read_headers_loop fuel s r
            end
      end
  end.

(** A line over the allowed number is refused, which bounds the loop. *)
Definition read_headers (r : Reader) : Reader * result HeaderState Stop :=
  read_headers_loop (N.to_nat (MAX_HTTP_HEADER_COUNT + 2)) headers_start r.

Record RequestHead := mkHead { head_method : string; head_target : string; head_fields : HeaderState }.

Definition read_head (r : Reader) : Reader * result RequestHead Stop :=
  match read_limited_http_line MAX_HTTP_REQUEST_LINE_BYTES "request line" r with
  | (r, Err error) => (r, Err (Broken error))
  | (r, Ok LineEmpty) => (r, Err Silent)
  | (r, Ok TooLong) =>
      (r, Err (Refused (refuse "http.request_line_too_large" "414 URI Too Long" "HTTP request line is too large")))
  | (r, Ok (Line request_line)) =>
      match parse_request_line request_line with
      | None => (r, Err Silent)
      | Some (Err refusal) => (r, Err (Refused refusal))
      | Some (Ok (method, target)) =>
          match read_headers r with
          | (r, Err stop) => (r, Err stop)
          | (r, Ok fields) => (r, Ok (mkHead method target fields))
          end
      end
  end.

Definition check_host (headers : list (string * string)) : result unit Refusal :=
  match List.filter (fun h => String.eqb (fst h) "host") headers with
  | [_] => Ok tt
  | [] => Err (refuse "http.missing_host" "400 Bad Request" "Missing Host header")
  | _ => Err (refuse "http.duplicate_host" "400 Bad Request" "Duplicate Host headers are not allowed")
  end.

(** ** Before the body is read *)

Record DashboardConfig := mkDashboardConfig { auth_token : option string; max_body_bytes : N }.

(** What the resource governor says to a request. *)
Inductive GovernorDecision := GovernorAdmitted | GovernorRejected (reason : string) (retry_after_ms : N).

Section receive.
Context `{SerdeJson}.
Variable evict_order : gmap string ClientWindow -> list (string * ClientWindow).
Context (config : DashboardConfig).

Definition header_request (h : RequestHead) : HttpRequest :=
  let '(path, query) := split_target (head_target h) in
  mkRequest (head_method h) path query (head_headers (head_fields h)) [].

(** [None]: the request is within the local boundary. *)
Definition reject_forbidden_origin (request : HttpRequest) : option Reply :=
  match validate_origin_for_bind request with
  | Ok _ => None
  | Err error =>
      Some (json_response "403 Forbidden"
              (json_object [("ok", json_bool false); ("error", json_string (display_boundary_error error))]))
  end.

Definition unauthorized_reply : Reply :=
  empty_response_with_headers "401 Unauthorized" [("WWW-Authenticate", "Bearer realm=" +:+ String "034" "mcpace" +:+ String "034" EmptyString)].

Definition rate_limited_reply (retry_after_ms : N) : Reply :=
  empty_response_with_headers "429 Too Many Requests" [("Retry-After", N_to_string (N.max (retry_after_ms / 1000) 1))].

Definition governor_reply (reason : string) (retry_after_ms : N) : Reply :=
  empty_response_with_headers "503 Service Unavailable"
    [("Retry-After", N_to_string (N.max (retry_after_ms / 1000) 1)); ("X-MCPace-Resource-Rejection", reason)].

(** The steps after the head, in order. *)
Inductive AdmissionStep := RateChecked (client : string) | TokenChecked | GovernorAsked | BodyRead.

Record Received := mkReceived {
  left_reader : Reader;
  left_limiter : HttpRateLimiter;
  steps : list AdmissionStep;
  received : result HttpRequest Stop
}.

Definition receive_body (h : RequestHead) (r : Reader) : Reader * result HttpRequest Stop :=
  match read_limited_http_body (unwrap_or (head_content_length (head_fields h)) 0%N) r with
  | (r, Err error) => (r, Err (Broken error))
  | (r, Ok body) =>
      let q := header_request h in
      (r, Ok (mkRequest (method q) (path q) (query q) (HttpBoundary.headers q) body))
  end.

Definition admit_request (h : RequestHead) (peer : string) (now : N) (decision : GovernorDecision) (r : Reader)
    (limiter : HttpRateLimiter) : Received :=
  let request := header_request h in
  match check_host (head_headers (head_fields h)) with
  | Err refusal => mkReceived r limiter [] (Err (Refused refusal))
  | Ok _ =>
      if (max_body_bytes config <? unwrap_or (head_content_length (head_fields h)) 0%N)%N then
        mkReceived r limiter []
          (Err (Refused (mkRefusal None (text_response "413 Payload Too Large" "text/plain; charset=utf-8" "HTTP request body is too large"))))
      else
        match reject_forbidden_origin request with
        | Some reply => mkReceived r limiter [] (Err (Refused (mkRefusal (Some "http.forbidden_origin") reply)))
        | None =>
            let '(limiter, verdict) := check_rate evict_order peer now limiter in
            if negb (allowed verdict) then
              mkReceived r limiter [RateChecked peer]
                (Err (Refused (mkRefusal (Some "http.rate_limited") (rate_limited_reply (retry_after verdict)))))
            else if negb (is_authorized_http_request (auth_token config) request) then
              mkReceived r limiter [RateChecked peer; TokenChecked] (Err (Refused (mkRefusal (Some "http.unauthorized") unauthorized_reply)))
            else
              match decision with
              | GovernorRejected reason retry_after_ms =>
                  mkReceived r limiter [RateChecked peer; TokenChecked; GovernorAsked]
                    (Err (Refused (mkRefusal (Some "http.resource_governor_rejected") (governor_reply reason retry_after_ms))))
              | GovernorAdmitted =>
                  let '(r, outcome) := receive_body h r in
                  mkReceived r limiter [RateChecked peer; TokenChecked; GovernorAsked; BodyRead] outcome
              end
        end
  end.

Definition receive_request (peer : string) (now : N) (decision : GovernorDecision) (r : Reader) (limiter : HttpRateLimiter) : Received :=
  match read_head r with
  | (r, Err stop) => mkReceived r limiter [] (Err stop)
  | (r, Ok h) => admit_request h peer now decision r limiter
  end.

End receive.

(** ** The bytes of a line *)

Lemma position_lt c l p : position c l = Some p -> (p < len_N l)%N.
Proof.
  revert p. induction l as [|a l IH]; intros p; cbn [position]; [done|]. rewrite len_N_cons.
  destruct (Ascii.eqb a c); [intros [= <-]; lia|]. destruct (position c l) as [q|]; [|done]. intros [= <-].
  specialize (IH q eq_refl). lia.
Qed.

Lemma position_app c a b :
  position c (a ++ b) = match position c a with Some p => Some p | None => option_map (N.add (len_N a)) (position c b) end.
Proof.
  induction a as [|x a IH]; cbn [app position]; [by destruct (position c b)|].
  destruct (Ascii.eqb x c); [done|]. rewrite IH. destruct (position c a); [done|]. cbn [option_map].
  destruct (position c b); cbn [option_map]; [|done]. rewrite len_N_cons. f_equal. lia.
Qed.

Lemma position_existsb c l p : position c l = Some p -> existsb (Ascii.eqb c) (firstn (N.to_nat (p + 1)) l) = true.
Proof.
  revert p. induction l as [|a l IH]; intros p; cbn [position]; [done|].
  destruct (Ascii.eqb_spec a c) as [->|Hne]; [intros [= <-]; change (N.to_nat (0 + 1)) with 1%nat; cbn [firstn existsb]; by rewrite Ascii.eqb_refl|].
  destruct (position c l) as [q|] eqn:E; [|done]. intros [= <-].
  replace (N.to_nat (N.succ q + 1)) with (S (N.to_nat (q + 1))) by lia. cbn [firstn existsb]. rewrite (IH q eq_refl). apply orb_true_r.
Qed.

Lemma position_none c l : position c l = None -> existsb (Ascii.eqb c) l = false.
Proof.
  induction l as [|a l IH]; cbn [position existsb]; [done|]. rewrite (Ascii.eqb_sym c a).
  destruct (Ascii.eqb a c); [done|]. by destruct (position c l); [|intros _; apply IH].
Qed.

Lemma until_newline_le l : (until_newline l <= len_N l)%N.
Proof. unfold until_newline. destruct (position LF l) as [p|] eqn:E; [apply position_lt in E; lia|lia]. Qed.

(** The line at the front of a stream, and the stream after it. *)
Definition line_of (max_bytes : N) (s : list ascii) : LimitedHttpLine * list ascii :=
  match s with
  | [] => (LineEmpty, [])
  | _ =>
      let n := until_newline s in
      if (n <=? max_bytes)%N then (Line (from_utf8_lossy (firstn (N.to_nat n) s)), skipn (N.to_nat n) s)
      else (TooLong, skipn (N.to_nat (max_bytes + 1)) s)
  end.

(** ** Readers without errors *)

Definition data (a : Arrival) : list ascii := match a with Data first rest => first :: rest | ReadFailed _ => [] end.

(** No read fails and the deadline does not pass. *)
Definition clean (r : Reader) : Prop :=
  Forall (fun a => exists first rest, a = Data first rest) (arrivals r) /\ Forall (fun c => c = InTime) (checks r).

(** The bytes still to be read. *)
Definition stream (r : Reader) : list ascii := buffer r ++ flat_map data (arrivals r).

Lemma deadline_clean label r :
  clean r -> exists r', set_remaining_http_read_timeout label r = (r', Ok tt) /\ clean r' /\ buffer r' = buffer r /\ arrivals r' = arrivals r.
Proof.
  intros [Ha Hc]. unfold set_remaining_http_read_timeout. destruct (checks r) as [|c cs] eqn:E.
  - exists r. unfold clean. by rewrite E.
  - apply Forall_cons in Hc as [-> Hc]. by eexists.
Qed.

(** Filling the buffer: the end of the stream, or some bytes in front of the rest. *)
Lemma fill_clean r :
  clean r ->
  (stream r = [] /\ fill_buf r = (r, Ok []))
  \/ exists r' a l, fill_buf r = (r', Ok (a :: l)) /\ clean r' /\ buffer r' = a :: l /\ stream r' = stream r
     /\ (length (arrivals r') + 1 = length (arrivals r) + (match buffer r with [] => 0 | _ => 1 end))%nat.
Proof.
  intros [Ha Hc]. unfold fill_buf, stream. destruct (buffer r) as [|a l] eqn:Eb.
  - destruct (arrivals r) as [|x xs] eqn:Ea; [by left|right]. apply Forall_cons in Ha as [ (f & t & ->) Ha].
    eexists _, _, _. split; [reflexivity|]. cbn [buffer arrivals checks flat_map data app length]. split_and!; try done. lia.
  - right. exists r, a, l. unfold clean. rewrite Eb. by split_and!.
Qed.

Lemma consume_stream n r : (n <= len_N (buffer r))%N -> stream (consume n r) = skipn (N.to_nat n) (stream r).
Proof.
  intros Hn. unfold stream, consume. cbn [buffer arrivals]. rewrite skipn_app.
  replace (N.to_nat n - length (buffer r))%nat with 0%nat by (unfold len_N in Hn; lia). done.
Qed.

Lemma consume_clean n r : clean r -> clean (consume n r).
Proof. done. Qed.

Lemma line_of_app max_bytes line av t :
  position LF line = None -> av <> [] ->
  line_of max_bytes (line ++ av ++ t)
  = if (match position LF av with Some p => len_N line + (p + 1) | None => until_newline (line ++ av ++ t) end <=? max_bytes)%N
    then match position LF av with
         | Some p => (Line (from_utf8_lossy (line ++ firstn (N.to_nat (p + 1)) av)), skipn (N.to_nat (p + 1)) av ++ t)
         | None => (Line (from_utf8_lossy (firstn (N.to_nat (until_newline (line ++ av ++ t))) (line ++ av ++ t))),
                    skipn (N.to_nat (until_newline (line ++ av ++ t))) (line ++ av ++ t))
         end
    else (TooLong, skipn (N.to_nat (max_bytes + 1)) (line ++ av ++ t)).
Proof.
  intros Hl Hav. unfold line_of. destruct (line ++ av ++ t) as [|x s] eqn:Es; [by destruct line, av|]. rewrite <- Es. clear Es x s.
  destruct (position LF av) as [p|] eqn:Ep; [|done].
  assert (Eu : until_newline (line ++ av ++ t) = (len_N line + (p + 1))%N).
  { unfold until_newline. rewrite !position_app, Hl, Ep. cbn [option_map]. lia. }
  pose proof (position_lt _ _ _ Ep) as Hp. unfold len_N in Hp. rewrite Eu. destruct (_ <=? _)%N; [|done].
  assert (En : N.to_nat (len_N line + (p + 1)) = (length line + N.to_nat (p + 1))%nat) by (unfold len_N; lia). rewrite En.
  rewrite firstn_app_2, firstn_app, skipn_app, (skipn_all2 line) by lia.
  replace (N.to_nat (p + 1) - length av)%nat with 0%nat by lia. rewrite firstn_O, app_nil_r. cbn [app].
  replace (length line + N.to_nat (p + 1) - length line)%nat with (N.to_nat (p + 1)) by lia.
  rewrite skipn_app. by replace (N.to_nat (p + 1) - length av)%nat with 0%nat by lia.
Qed.

Lemma until_newline_none line av t :
  position LF line = None -> position LF av = None -> (len_N line + len_N av <= until_newline (line ++ av ++ t))%N.
Proof.
  intros Hl Ha. unfold until_newline. rewrite !position_app, Hl, Ha. rewrite !len_N_app.
  destruct (position LF t); cbn [option_map]; lia.
Qed.

(** One line, read in any pieces. *)
Lemma read_line_loop_spec fuel max_bytes label line r :
  clean r -> position LF line = None -> (len_N line <= max_bytes)%N -> (max_bytes < USIZE_MAX)%N ->
  (length (arrivals r) + (match buffer r with [] => 0 | _ => 1 end) < fuel)%nat ->
  exists r', read_line_loop fuel max_bytes label line r = (r', Ok (line_of max_bytes (line ++ stream r)).1)
    /\ stream r' = (line_of max_bytes (line ++ stream r)).2 /\ clean r'.
Proof.
  intros Hr Hl Hlen Hmax. revert line r Hr Hl Hlen. induction fuel as [|fuel IH]; intros line r Hr Hl Hlen Hf; [lia|].
  cbn [read_line_loop]. destruct (deadline_clean label r Hr) as (r1 & -> & Hr1 & Eb & Ea).
  assert (Es : stream r1 = stream r) by (unfold stream; by rewrite Eb, Ea).
  destruct (fill_clean r1 Hr1) as [ [Hend ->] | (r2 & a & l & -> & Hr2 & Eb2 & Es2 & Ha2) ].
  - rewrite Es in Hend. rewrite Hend, app_nil_r. exists r1. destruct line as [|x line]; [cbn; split_and!; [done|congruence|done] |].
    unfold line_of, until_newline. rewrite Hl.
    assert (E : (len_N (x :: line) <=? max_bytes)%N = true) by lia. rewrite E. unfold len_N. rewrite Nat2N.id, firstn_all, skipn_all.
    cbn [fst snd]. split_and!; [done|congruence|done].
  - set (av := a :: l) in *. rewrite <- Es, <- Es2. set (t := flat_map data (arrivals r2)).
    assert (Est : stream r2 = av ++ t) by (unfold stream; by rewrite Eb2). rewrite Est.
    rewrite (line_of_app max_bytes line av t Hl) by done.
    assert (Esat : sat_add USIZE_MAX max_bytes 1 = (max_bytes + 1)%N) by sat_lia. rewrite Esat.
    set (u := until_newline av) in *. set (take_len := N.min u (max_bytes + 1 - len_N line)).
    assert (Hu : (u <= len_N av)%N) by apply until_newline_le.
    assert (Hc : stream (consume take_len r2) = skipn (N.to_nat take_len) av ++ t).
    { rewrite consume_stream, Est, skipn_app by (rewrite Eb2; unfold take_len; fold av; lia).
      replace (N.to_nat take_len - length av)%nat with 0%nat by (unfold len_N in *; lia). done. }
    assert (Hlong : (max_bytes < len_N line + u)%N ->
      skipn (N.to_nat (max_bytes + 1)) (line ++ av ++ t) = stream (consume take_len r2)
      /\ len_N (line ++ firstn (N.to_nat take_len) av) = (max_bytes + 1)%N).
    { intros Hlt. assert (Et : take_len = (max_bytes + 1 - len_N line)%N) by lia. rewrite Hc, Et. split.
      - rewrite skipn_app, (skipn_all2 line) by (unfold len_N in *; lia). cbn [app].
        replace (N.to_nat (max_bytes + 1) - length line)%nat with (N.to_nat (max_bytes + 1 - len_N line)) by (unfold len_N; lia).
        rewrite skipn_app. by replace (N.to_nat (max_bytes + 1 - len_N line) - length av)%nat with 0%nat by (unfold len_N in *; lia).
      - rewrite len_N_app. unfold len_N at 2. rewrite length_firstn. unfold len_N in *. lia. }
    assert (Hshort : (len_N line + u <= max_bytes)%N -> take_len = u) by lia.
    assert (Hlen' : (len_N line + u <= max_bytes)%N -> (max_bytes <? len_N (line ++ firstn (N.to_nat take_len) av))%N = false).
    { intros Hle. rewrite Hshort, len_N_app by done. unfold len_N at 2. rewrite length_firstn. unfold len_N in *. lia. }
    destruct (position LF av) as [p|] eqn:Ep.
    + assert (Eu : u = (p + 1)%N) by (unfold u, until_newline; by rewrite Ep).
      destruct (N.leb_spec (len_N line + (p + 1)) max_bytes) as [Hle|Hgt].
      * rewrite Hlen' by lia. rewrite Hshort in * by lia. rewrite N.eqb_refl, Eu, (position_existsb _ _ _ Ep). cbn [andb].
        eexists. split; [reflexivity|]. cbn [snd]. rewrite <- Eu, Hc. by split.
      * destruct Hlong as [Hsk Hln]; [lia|]. rewrite Hln, Hsk. assert (E : (max_bytes <? max_bytes + 1)%N = true) by lia. rewrite E.
        eexists. split; [reflexivity|]. by split.
    + assert (Eu : u = len_N av) by (unfold u, until_newline; by rewrite Ep).
      destruct (N.leb_spec (len_N line + u) max_bytes) as [Hle|Hgt].
      * rewrite Hlen' by lia. rewrite Hshort in * by lia.
        assert (Efirst : firstn (N.to_nat u) av = av) by (rewrite Eu; unfold len_N; by rewrite Nat2N.id, firstn_all). rewrite Efirst.
        rewrite (position_none _ _ Ep), andb_false_r. assert (E0 : (u =? 0)%N = false) by (rewrite Eu; unfold av; rewrite len_N_cons; lia). rewrite E0.
        assert (Eskip : skipn (N.to_nat u) av = []) by (rewrite Eu; unfold len_N; by rewrite Nat2N.id, skipn_all).
        destruct (IH (line ++ av) (consume u r2)) as (r' & -> & Hst & Hcl).
        -- done.
        -- by rewrite position_app, Hl, Ep.
        -- rewrite len_N_app. lia.
        -- unfold consume. cbn [arrivals buffer]. rewrite Eb2. fold av. rewrite Eskip.
           rewrite Ea, Eb in Ha2. lia.
        -- rewrite Hc, Eskip in Hst |- *. cbn [app] in *. rewrite <- app_assoc in *.
           rewrite (line_of_app max_bytes line av t Hl), Ep in Hst |- * by done. by exists r'.
      * destruct Hlong as [Hsk Hln]; [lia|]. rewrite Hln. assert (E : (max_bytes <? max_bytes + 1)%N = true) by lia. rewrite E.
        pose proof (until_newline_none line av t Hl Ep) as Hun. assert (E2 : (until_newline (line ++ av ++ t) <=? max_bytes)%N = false) by lia.
        rewrite E2, Hsk. eexists. split; [reflexivity|]. by split.
Qed.

Lemma read_line_spec max_bytes label r :
  clean r -> (max_bytes < USIZE_MAX)%N ->
  exists r', read_limited_http_line max_bytes label r = (r', Ok (line_of max_bytes (stream r)).1)
    /\ stream r' = (line_of max_bytes (stream r)).2 /\ clean r'.
Proof.
  intros Hr Hmax. unfold read_limited_http_line. apply (read_line_loop_spec _ max_bytes label [] r); [done|done|unfold len_N; cbn [length]; lia|done|].
  destruct (buffer r); lia.
Qed.

(** Exactly [n] bytes, read in any pieces. *)
Definition exactly (n : N) (s : list ascii) : list ascii * option (list ascii) :=
  if (n <=? len_N s)%N then (skipn (N.to_nat n) s, Some (firstn (N.to_nat n) s)) else ([], None).

Lemma exactly_0 s : exactly 0 s = (s, Some []).
Proof. unfold exactly. by destruct (N.leb_spec 0 (len_N s)); [|lia]. Qed.

Lemma exactly_app n av t :
  (len_N av <= n)%N ->
  exactly n (av ++ t) = ((exactly (n - len_N av) t).1, option_map (app av) (exactly (n - len_N av) t).2).
Proof.
  intros Hn. unfold exactly. rewrite len_N_app.
  destruct (N.leb_spec n (len_N av + len_N t)), (N.leb_spec (n - len_N av) (len_N t)); try lia; [|done]. cbn [fst snd option_map].
  rewrite skipn_app, firstn_app, skipn_all2, firstn_all2 by (unfold len_N in *; lia). cbn [app].
  by replace (N.to_nat n - length av)%nat with (N.to_nat (n - len_N av)) by (unfold len_N; lia).
Qed.

Lemma exactly_front n av t :
  (n <= len_N av)%N -> exactly n (av ++ t) = (skipn (N.to_nat n) av ++ t, Some (firstn (N.to_nat n) av)).
Proof.
  intros Hn. unfold exactly. rewrite len_N_app. destruct (N.leb_spec n (len_N av + len_N t)); [|lia].
  rewrite skipn_app, firstn_app. replace (N.to_nat n - length av)%nat with 0%nat by (unfold len_N in *; lia).
  by rewrite firstn_O, app_nil_r.
Qed.

Lemma read_exact_spec fuel n r :
  clean r -> n = 0%N \/ (length (arrivals r) + (match buffer r with [] => 0 | _ => 1 end) <= fuel)%nat ->
  exists r', read_exact fuel n r = (r', ok_or (exactly n (stream r)).2 "failed to fill whole buffer")
    /\ stream r' = (exactly n (stream r)).1 /\ clean r'.
Proof.
  revert n r. induction fuel as [|fuel IH]; intros n r Hr Hf; cbn [read_exact];
    destruct (N.eqb_spec n 0) as [->|Hn]; try (exists r; rewrite exactly_0; by split_and!).
  - destruct Hf as [|Hf]; [congruence|]. assert (Hs : stream r = []).
    { revert Hf. unfold stream. destruct (buffer r), (arrivals r); cbn [length app flat_map]; intros; try lia; done. }
    rewrite Hs. exists r. unfold exactly. assert (E : (n <=? len_N (@nil ascii))%N = false) by (unfold len_N; cbn [length]; lia). by rewrite E.
  - destruct Hf as [|Hf]; [congruence|]. destruct (fill_clean r Hr) as [ [Hend ->] | (r2 & a & l & -> & Hr2 & Eb2 & Es2 & Ha2) ].
    + rewrite Hend. exists r. unfold exactly. assert (E : (n <=? len_N (@nil ascii))%N = false) by (unfold len_N; cbn [length]; lia). by rewrite E.
    + set (av := a :: l) in *. set (t := flat_map data (arrivals r2)). rewrite <- Es2.
      assert (Est : stream r2 = av ++ t) by (unfold stream; by rewrite Eb2). rewrite Est.
      set (take_len := N.min n (len_N av)).
      assert (Hc : stream (consume take_len r2) = skipn (N.to_nat take_len) av ++ t).
      { rewrite consume_stream, Est, skipn_app by (rewrite Eb2; fold av; unfold take_len; lia).
        by replace (N.to_nat take_len - length av)%nat with 0%nat by (unfold take_len, len_N; lia). }
      destruct (IH (n - take_len)%N (consume take_len r2)) as (r' & Hread & Hst & Hcl).
      * done.
      * destruct (N.le_gt_cases n (len_N av)); [left; lia|right]. unfold consume. cbn [arrivals buffer]. rewrite Eb2. fold av.
        rewrite skipn_all2 by (unfold take_len, len_N in *; lia). lia.
      * rewrite Hread. rewrite Hc in Hst |- *. destruct (N.le_gt_cases n (len_N av)) as [Hle|Hgt].
        -- assert (Et : take_len = n) by lia. rewrite Et in *. rewrite N.sub_diag in *. rewrite (exactly_front n av t Hle).
           rewrite exactly_0 in Hst |- *. cbn [fst snd ok_or] in *. rewrite app_nil_r. by exists r'.
        -- assert (Et : take_len = len_N av) by lia. rewrite (exactly_app n av t) by lia. rewrite Et in *.
           assert (E1 : skipn (N.to_nat (len_N av)) av = []) by (unfold len_N; by rewrite Nat2N.id, skipn_all).
           assert (E2 : firstn (N.to_nat (len_N av)) av = av) by (unfold len_N; by rewrite Nat2N.id, firstn_all).
           rewrite E1 in Hst |- *. rewrite E2. cbn [app fst snd] in *. exists r'.
           destruct (exactly (n - len_N av) t) as [rest [b|] ]; by cbn.
Qed.

Lemma read_body_loop_spec fuel n body r :
  clean r -> (len_N body <= n)%N -> (n - len_N body < N.of_nat fuel)%N ->
  exists r', read_body_loop fuel n body r
      = (r', ok_or (option_map (app body) (exactly (n - len_N body) (stream r)).2) "read request body: failed to fill whole buffer")
    /\ stream r' = (exactly (n - len_N body) (stream r)).1 /\ clean r'.
Proof.
  revert body r. induction fuel as [|fuel IH]; intros body r Hr Hb Hf; [lia|]. cbn [read_body_loop].
  destruct (N.leb_spec n (len_N body)) as [Hle|Hgt].
  { assert (E : (n - len_N body)%N = 0%N) by lia. rewrite E, exactly_0. exists r. cbn [fst snd option_map ok_or]. by rewrite app_nil_r. }
  destruct (deadline_clean "request body" r Hr) as (r1 & -> & Hr1 & Eb & Ea).
  assert (Es : stream r1 = stream r) by (unfold stream; by rewrite Eb, Ea).
  set (len := N.min (n - len_N body) BODY_READ_CHUNK_BYTES).
  assert (Hlen : (0 < len)%N) by (unfold len, BODY_READ_CHUNK_BYTES; lia).
  destruct (read_exact_spec (S (length (arrivals r1))) len r1 Hr1) as (r2 & -> & Hst & Hcl); [right; destruct (buffer r1); lia|].
  rewrite Es in *. destruct (N.le_gt_cases len (len_N (stream r))) as [Hin|Hout].
  - assert (Ex : exactly len (stream r) = (skipn (N.to_nat len) (stream r), Some (firstn (N.to_nat len) (stream r)))).
    { unfold exactly. by destruct (N.leb_spec len (len_N (stream r))); [|lia]. }
    rewrite Ex in *. cbn [fst snd ok_or] in *. set (piece := firstn (N.to_nat len) (stream r)) in *.
    assert (Hp : len_N piece = len) by (unfold piece, len_N in *; rewrite length_firstn; lia).
    destruct (IH (body ++ piece) r2 Hcl) as (r' & -> & Hst' & Hcl'); [rewrite len_N_app; lia|rewrite len_N_app; lia|].
    assert (Esplit : stream r = piece ++ stream r2) by (rewrite Hst; symmetry; apply firstn_skipn).
    rewrite Esplit, (exactly_app _ piece) by lia. rewrite len_N_app in Hst' |- *.
    replace (n - len_N body - len_N piece)%N with (n - (len_N body + len_N piece))%N by lia.
    exists r'. cbn [fst snd]. split_and!; [|done|done]. destruct (exactly _ (stream r2)) as [rest [b|] ]; cbn [fst snd option_map ok_or]; [|done].
    by rewrite app_assoc.
  - assert (Ex : exactly len (stream r) = ([], None)) by (unfold exactly; by destruct (N.leb_spec len (len_N (stream r))); [lia|]).
    assert (Ex' : exactly (n - len_N body) (stream r) = ([], None)).
    { unfold exactly. by destruct (N.leb_spec (n - len_N body) (len_N (stream r))); [lia|]. }
    rewrite Ex, Ex' in *. by exists r2.
Qed.

Lemma read_body_spec n r :
  clean r ->
  exists r', read_limited_http_body n r
      = (r', ok_or (exactly n (stream r)).2 "read request body: failed to fill whole buffer")
    /\ stream r' = (exactly n (stream r)).1 /\ clean r'.
Proof.
  intros Hr. destruct (read_body_loop_spec (S (N.to_nat n)) n [] r Hr) as (r' & Hb & Hst & Hcl);
    [unfold len_N; cbn [length]; lia|unfold len_N; cbn [length]; lia|].
  change (len_N []) with 0%N in *. rewrite N.sub_0_r in *. exists r'. split_and!; try done. unfold read_limited_http_body. rewrite Hb.
  by destruct (exactly n (stream r)) as [rest [b|] ].
Qed.

(** ** Reading in pieces *)

(** Two readers that will deliver the same bytes. *)
Definition same_bytes (r1 r2 : Reader) : Prop := clean r1 /\ clean r2 /\ stream r1 = stream r2.

(** An operation that does not see how the bytes are cut. *)
Definition blind {A} (f : Reader -> Reader * A) : Prop :=
  forall r1 r2, same_bytes r1 r2 -> (f r1).2 = (f r2).2 /\ same_bytes (f r1).1 (f r2).1.

Lemma blind_of_spec {A} (f : Reader -> Reader * A) (g : list ascii -> list ascii) (h : list ascii -> A) :
  (forall r, clean r -> exists r', f r = (r', h (stream r)) /\ stream r' = g (stream r) /\ clean r') -> blind f.
Proof.
  intros Hf r1 r2 (H1 & H2 & E). destruct (Hf r1 H1) as (r1' & -> & S1 & C1), (Hf r2 H2) as (r2' & -> & S2 & C2).
  cbn [fst snd]. rewrite E. split; [done|]. split_and!; congruence.
Qed.

Lemma line_blind max_bytes label : (max_bytes < USIZE_MAX)%N -> blind (read_limited_http_line max_bytes label).
Proof.
  intros Hmax. apply (blind_of_spec _ (fun s => (line_of max_bytes s).2) (fun s => Ok (line_of max_bytes s).1)).
  intros r Hr. by apply read_line_spec.
Qed.

Lemma body_blind n : blind (read_limited_http_body n).
Proof.
  apply (blind_of_spec _ (fun s => (exactly n s).1)
           (fun s => ok_or (exactly n s).2 "read request body: failed to fill whole buffer")).
  intros r Hr. by apply read_body_spec.
Qed.

Lemma headers_blind fuel s : blind (read_headers_loop fuel s).
Proof.
  revert s. induction fuel as [|fuel IH]; intros s r1 r2 Hs; cbn [read_headers_loop]; [done|].
  destruct (line_blind MAX_HTTP_HEADER_LINE_BYTES "request header" eq_refl r1 r2 Hs) as [Hv Hs'].
  destruct (read_limited_http_line _ _ r1) as [r1' v1], (read_limited_http_line _ _ r2) as [r2' v2].
  cbn [fst snd] in *. subst v2. destruct v1 as [ [|header|]|e]; try done.
  destruct (ends_head header); [done|]. destruct (add_header_line header s); [by apply IH|done].
Qed.

Lemma head_blind : blind read_head.
Proof.
  intros r1 r2 Hs. unfold read_head.
  destruct (line_blind MAX_HTTP_REQUEST_LINE_BYTES "request line" eq_refl r1 r2 Hs) as [Hv Hs'].
  destruct (read_limited_http_line _ _ r1) as [r1' v1], (read_limited_http_line _ _ r2) as [r2' v2].
  cbn [fst snd] in *. subst v2. destruct v1 as [ [|line|]|e]; try done.
  destruct (parse_request_line line) as [ [ [m t]|f]|]; try done.
  destruct (headers_blind (N.to_nat (MAX_HTTP_HEADER_COUNT + 2)) headers_start r1' r2' Hs') as [Hv Hs2]. unfold read_headers.
  destruct (read_headers_loop _ _ r1') as [r1'' v1], (read_headers_loop _ _ r2') as [r2'' v2].
  cbn [fst snd] in *. subst v2. by destruct v1.
Qed.

(** ** What an accepted head holds *)

Record header_inv (s : HeaderState) : Prop := {
  hinv_count : header_count s = len_N (head_headers s) /\ (len_N (head_headers s) <= MAX_HTTP_HEADER_COUNT)%N;
  hinv_bytes : (header_bytes s <= MAX_HTTP_HEADER_BYTES)%N;
  hinv_fields : Forall (fun h => is_valid_http_header_value h.2 = true /\ to_ascii_lowercase h.1 = h.1) (head_headers s);
  hinv_chunked : List.filter (fun h => String.eqb h.1 "transfer-encoding") (head_headers s) = [];
  hinv_length :
    match head_content_length s with
    | None => List.filter (fun h => String.eqb h.1 "content-length") (head_headers s) = []
    | Some n => exists h, List.filter (fun h => String.eqb h.1 "content-length") (head_headers s) = [h] /\ parse_usize h.2 = Some n
    end
}.

Lemma headers_start_inv : header_inv headers_start.
Proof. by split. Qed.

Lemma push_field_inv s key value length size count :
  header_inv s -> count = (header_count s + 1)%N -> (count <= MAX_HTTP_HEADER_COUNT)%N -> (size <= MAX_HTTP_HEADER_BYTES)%N ->
  to_ascii_lowercase key = key -> is_valid_http_header_value value = true -> key <> "transfer-encoding" ->
  (if String.eqb key "content-length" then head_content_length s = None /\ exists n, length = Some n /\ parse_usize value = Some n
   else length = head_content_length s) ->
  header_inv (mkHeaders (head_headers s ++ [(key, value)]) length size count).
Proof.
  intros [ [Hc Hm] Hb Hf Ht Hl] -> Hcount Hsize Hlower Hv Hte Hlen.
  split; cbn [head_headers head_content_length header_bytes header_count].
  - rewrite len_N_app, <- Hc. by split.
  - exact Hsize.
  - apply Forall_app. split; [exact Hf|]. by repeat constructor.
  - rewrite List.filter_app, Ht. cbn [List.filter app fst]. by apply String.eqb_neq in Hte as ->.
  - rewrite List.filter_app. cbn [List.filter fst]. destruct (String.eqb key "content-length").
    + destruct Hlen as (Hnone & n & -> & Hp). rewrite Hnone in Hl. rewrite Hl. by exists (key, value).
    + rewrite app_nil_r, Hlen. exact Hl.
Qed.

Lemma sat_add_within a b limit : (limit < USIZE_MAX)%N -> (sat_add USIZE_MAX a b <= limit)%N -> sat_add USIZE_MAX a b = (a + b)%N.
Proof. unfold sat_add. lia. Qed.

Lemma add_header_line_inv header s s' : header_inv s -> add_header_line header s = Ok s' -> header_inv s'.
Proof.
  intros Hs. unfold add_header_line.
  destruct (N.ltb_spec MAX_HTTP_HEADER_COUNT (sat_add USIZE_MAX (header_count s) 1)) as [|Hcount]; [done|].
  pose proof (sat_add_within _ _ MAX_HTTP_HEADER_COUNT eq_refl Hcount) as Ecount.
  set (count := sat_add USIZE_MAX (header_count s) 1) in *. clearbody count.
  destruct (N.ltb_spec MAX_HTTP_HEADER_BYTES (sat_add USIZE_MAX (header_bytes s) (str_len header))) as [|Hsize]; [done|].
  set (size := sat_add USIZE_MAX (header_bytes s) (str_len header)) in *. clearbody size.
  destruct (split_once ":" header) as [ [name value]|]; [|done]. destruct (is_valid_http_header_name (trim name)); [|done]. cbn [negb].
  destruct (is_valid_http_header_value (trim value)) eqn:Hv; [|done]. cbn [negb].
  destruct (String.eqb_spec (to_ascii_lowercase (trim name)) "transfer-encoding") as [|Hte]; [done|].
  destruct (String.eqb (to_ascii_lowercase (trim name)) "content-length") eqn:Hcl.
  - destruct (parse_usize (trim value)) as [n|] eqn:Hp; [|done]. destruct (head_content_length s) as [|] eqn:Hnone; [done|]. cbn [is_some].
    intros [= <-]. apply push_field_inv; try assumption; [apply to_ascii_lowercase_idem|]. rewrite Hcl. split; [exact Hnone|by exists n].
  - intros [= <-]. apply push_field_inv; try assumption; [apply to_ascii_lowercase_idem|]. by rewrite Hcl.
Qed.

Lemma read_headers_inv fuel s r s' : header_inv s -> (read_headers_loop fuel s r).2 = Ok s' -> header_inv s'.
Proof.
  revert s r. induction fuel as [|fuel IH]; intros s r Hs; cbn [read_headers_loop]; [by intros [= <-]|].
  destruct (read_limited_http_line _ _ r) as [r1 [ [|header|]|e] ]; try done; [by intros [= <-]|].
  destruct (ends_head header); [by intros [= <-]|].
  destruct (add_header_line header s) as [s1|] eqn:E; [|done]. apply IH. by eapply add_header_line_inv.
Qed.

Lemma read_head_inv r h : (read_head r).2 = Ok h -> header_inv (head_fields h).
Proof.
  unfold read_head. destruct (read_limited_http_line _ _ r) as [r1 [ [|line|]|e] ]; try done.
  destruct (parse_request_line line) as [ [ [m t]|]|]; try done.
  pose proof (read_headers_inv (N.to_nat (MAX_HTTP_HEADER_COUNT + 2)) headers_start r1) as Hinv. unfold read_headers.
  destruct (read_headers_loop _ headers_start r1) as [r2 [s|] ]; [|done]. intros [= <-]. by apply Hinv; [apply headers_start_inv|].
Qed.

Lemma read_exact_length fuel n r r' l : read_exact fuel n r = (r', Ok l) -> len_N l = n.
Proof.
  revert n r r' l. induction fuel as [|fuel IH]; intros n r r' l; cbn [read_exact]; destruct (N.eqb_spec n 0) as [->|Hn];
    try (by intros [= _ <-]).
  destruct (fill_buf r) as [r1 [ [|a av]|e] ]; try done.
  destruct (read_exact fuel _ _) as [r2 [rest|e] ] eqn:E; [|done]. intros [= _ <-]. apply IH in E.
  rewrite len_N_app, E. unfold len_N in *. rewrite length_firstn. lia.
Qed.

Lemma read_body_length fuel n body r r' l :
  (len_N body <= n)%N -> (n - len_N body < N.of_nat fuel)%N -> read_body_loop fuel n body r = (r', Ok l) -> len_N l = n.
Proof.
  revert body r. induction fuel as [|fuel IH]; intros body r Hb Hf; [lia|]. cbn [read_body_loop].
  destruct (N.leb_spec n (len_N body)); [intros [= _ <-]; lia|].
  destruct (set_remaining_http_read_timeout _ r) as [r1 [ []|e] ]; [|done].
  destruct (read_exact _ _ r1) as [r2 [piece|e] ] eqn:E; [|done]. apply read_exact_length in E.
  apply IH; rewrite len_N_app; unfold BODY_READ_CHUNK_BYTES in *; lia.
Qed.

Section claims.
Context `{SerdeJson}.
Variable evict_order : gmap string ClientWindow -> list (string * ClientWindow).

(** How the network cuts the bytes of a request does not matter: two connections that deliver
    the same bytes in time, in whatever pieces, are answered by the same refusal or yield the
    same request, after the same checks, and leave the same rate limiter and the same bytes
    unread. *)
Theorem requests_read_in_any_pieces config peer now decision r1 r2 limiter :
  same_bytes r1 r2 ->
  let a := receive_request evict_order config peer now decision r1 limiter in
  let b := receive_request evict_order config peer now decision r2 limiter in
  received a = received b /\ steps a = steps b /\ left_limiter a = left_limiter b
  /\ stream (left_reader a) = stream (left_reader b).
Proof.
  intros Hs. cbv zeta. unfold receive_request. destruct (head_blind r1 r2 Hs) as [Hv Hs1].
  destruct (read_head r1) as [r1' v1], (read_head r2) as [r2' v2]. cbn [fst snd] in *. subst v2.
  assert (E1 : stream r1' = stream r2') by apply Hs1.
  destruct v1 as [h|stop]; [|done]. unfold admit_request.
  destruct (check_host _); [|done]. case_stuck; [done|]. destruct (reject_forbidden_origin _); [done|].
  destruct (check_rate _ _ _ _) as [limiter' verdict]. case_stuck; [done|]. case_stuck; [done|].
  destruct decision; [|done]. unfold receive_body.
  destruct (body_blind (unwrap_or (head_content_length (head_fields h)) 0%N) r1' r2' Hs1) as [Hv2 Hs2].
  destruct (read_limited_http_body _ r1') as [r1'' b1], (read_limited_http_body _ r2') as [r2'' b2]. cbn [fst snd] in *. subst b2.
  assert (Es2 : stream r1'' = stream r2'') by apply Hs2. by destruct b1.
Qed.

(** The limiter and the governor have let it through. *)
Lemma admitted_facts config peer now decision r limiter q :
  received (receive_request evict_order config peer now decision r limiter) = Ok q ->
  allowed (check_rate evict_order peer now limiter).2 = true /\ decision = GovernorAdmitted.
Proof.
  unfold receive_request. destruct (read_head r) as [r1 [h|] ]; [|done]. unfold admit_request.
  destruct (check_host _); [|done]. case_stuck; [done|]. destruct (reject_forbidden_origin _); [done|].
  destruct (check_rate evict_order peer now limiter) as [limiter' verdict]. cbn [snd]. destruct (allowed verdict); [|done]. cbn [negb].
  case_stuck; [done|]. by destruct decision.
Qed.

(** A request that reaches the router has exactly one Host field, no Transfer-Encoding, at most
    one Content-Length, which is the length of its body (no body without it) and within the
    limit, at most 128 fields with lower-case names and values that cannot hold a line end; it
    is within the local boundary and authorized, its peer is within the rate limit, the
    governor has admitted it, and all of that was established before its body was read. *)
Theorem received_requests_are_admitted config peer now decision r limiter q :
  let a := receive_request evict_order config peer now decision r limiter in
  received a = Ok q ->
  steps a = [RateChecked peer; TokenChecked; GovernorAsked; BodyRead]
  /\ decision = GovernorAdmitted /\ allowed (check_rate evict_order peer now limiter).2 = true
  /\ validate_origin_for_bind q = Ok tt /\ is_authorized_http_request (auth_token config) q = true
  /\ header_values "transfer-encoding" q = []
  /\ match header_values "content-length" q with
     | [] => body q = []
     | [v] => parse_usize v = Some (len_N (body q)) /\ (len_N (body q) <= max_body_bytes config)%N
     | _ => False
     end
  /\ (exists host, header_values "host" q = [host])
  /\ (len_N (HttpBoundary.headers q) <= MAX_HTTP_HEADER_COUNT)%N
  /\ Forall (fun h => is_valid_http_header_value h.2 = true /\ to_ascii_lowercase h.1 = h.1) (HttpBoundary.headers q).
Proof.
  cbv zeta. unfold receive_request. pose proof (read_head_inv r) as Hinv. destruct (read_head r) as [r1 [h|] ]; [|done].
  specialize (Hinv h eq_refl). destruct Hinv as [ [_ Hm] _ Hf Ht Hl]. unfold admit_request, check_host.
  destruct (List.filter (fun x : string * string => String.eqb (fst x) "host") (head_headers (head_fields h)))
    as [|host [|] ] eqn:Ehost; [done| |done].
  destruct (N.ltb_spec (max_body_bytes config) (unwrap_or (head_content_length (head_fields h)) 0%N)) as [|Hmax]; [done|].
  unfold reject_forbidden_origin. destruct (validate_origin_for_bind (header_request h)) as [ []|] eqn:Eo; [|done].
  destruct (check_rate evict_order peer now limiter) as [limiter' verdict] eqn:Er. destruct (allowed verdict) eqn:Ea; [|done]. cbn [negb].
  destruct (is_authorized_http_request _ (header_request h)) eqn:Eauth; [|done]. cbn [negb]. destruct decision; [|done]. unfold receive_body.
  destruct (read_limited_http_body _ r1) as [r2 [bs|] ] eqn:Eb; [|done]. cbn [received steps]. intros [= <-].
  apply read_body_length in Eb; [|unfold len_N; cbn [length]; lia|unfold len_N; cbn [length]; lia].
  unfold header_request in *. destruct (split_target (head_target h)) as [p qs].
  unfold header_values. cbn [HttpBoundary.headers body method path query] in *. rewrite Ehost, Ht. cbn [map].
  split_and!; [done|done|done|done|done|done| |by eexists|done|done]. destruct (head_content_length (head_fields h)) as [n|] eqn:Ecl.
  - destruct Hl as ( [k v] & -> & Hp). cbn [map snd unwrap_or] in *. rewrite Eb. by split.
  - rewrite Hl. cbn [map unwrap_or] in *. destruct bs; [done|]. rewrite len_N_cons in Eb. lia.
Qed.

End claims.

(** ** The token *)

Lemma byte_difference_0 diff indices left right :
  byte_difference diff indices left right = 0%N
  <-> diff = 0%N /\ Forall (fun i => nth i left "000"%char = nth i right "000"%char) indices.
Proof.
  revert diff. induction indices as [|i indices IH]; intros diff; cbn [byte_difference].
  - split; [by split; [|constructor]|by intros [? _] ].
  - rewrite IH, N.lor_eq_0_iff, N.lxor_eq_0_iff, Forall_cons. split.
    + intros [ [Hd Hi] Hall]. split; [done|]. split; [|done]. apply (f_equal ascii_of_N) in Hi. unfold code in Hi.
      by rewrite !ascii_N_embedding in Hi.
    + intros (Hd & Hi & Hall). by rewrite Hi.
Qed.

Lemma constant_time_eq_spec left right : constant_time_eq left right = true <-> left = right.
Proof.
  unfold constant_time_eq. rewrite N.eqb_eq, byte_difference_0, N.lxor_eq_0_iff, Forall_forall. split; [|by intros ->].
  unfold len_N. intros [Hlen Hall]. apply (nth_ext _ _ "000"%char "000"%char); [lia|].
  intros i Hi. apply Hall, elem_of_seq. lia.
Qed.

(** C36: with a token configured, a request is authorized exactly when it has one Authorization
    field, of two words: the Bearer scheme in any case and the configured token, byte for
    byte; the comparison that takes the same time for every wrong token of a length decides
    equality. *)
Theorem only_the_token_authorizes expected q :
  is_authorized_http_request (Some expected) q = true
  <-> expected <> EmptyString
      /\ exists v scheme rest rest', header_values "authorization" q = [v]
         /\ next_word (bytes v) = Some (scheme, rest) /\ eq_ignore_ascii_case scheme "Bearer" = true
         /\ next_word rest = Some (expected, rest') /\ next_word rest' = None.
Proof.
  unfold is_authorized_http_request, authorization_bearer_token. split.
  - destruct (header_values "authorization" q) as [|v [|] ]; [done| |done].
    destruct (next_word (bytes v)) as [ [scheme rest]|] eqn:E1; [|done]. cbn [mbind option_bind].
    destruct (next_word rest) as [ [token rest']|] eqn:E2; [|done]. cbn [mbind option_bind].
    destruct (next_word rest') eqn:E3; [done|]. cbn [is_some orb].
    destruct (str_is_empty token) eqn:E4; [done|]. destruct (eq_ignore_ascii_case scheme "Bearer") eqn:E5; [|done]. cbn [negb orb].
    intros Ht%constant_time_eq_spec%bytes_inj. subst token. split; [by apply str_is_empty_false|]. by exists v, scheme, rest, rest'.
  - intros (Hne & v & scheme & rest & rest' & -> & E1 & E5 & E2 & E3). rewrite E1. cbn [mbind option_bind].
    rewrite E2. cbn [mbind option_bind]. rewrite E3, E5. apply str_is_empty_false in Hne. rewrite Hne. cbn [is_some orb negb].
    by apply constant_time_eq_spec.
Qed.

(** ** Witnesses *)

Definition sample_order (m : gmap string ClientWindow) : list (string * ClientWindow) := map_to_list m.

Definition sample_request_text : list ascii :=
  bytes "POST /mcp?x=1 HTTP/1.1" ++ crlf ++ bytes "Host: localhost:7331" ++ crlf ++ bytes "Authorization:  bearer secret " ++ crlf
  ++ bytes "Content-Length: 2" ++ crlf ++ crlf ++ bytes "{}".

(** All at once, and byte by byte. *)
Definition sample_reader : Reader := mkReader sample_request_text [] [].
Definition sample_slow_reader : Reader := mkReader [] (map (fun c => Data c []) sample_request_text) [].

Definition sample_dashboard : DashboardConfig := mkDashboardConfig (Some "secret") 16.

Lemma requests_read_in_any_pieces_witness :
  is_ok (received (receive_request (H := TreeCodec.codec) sample_order sample_dashboard "127.0.0.1" 5 GovernorAdmitted sample_reader (limiter_new 1000 3))) = true
  /\ received (receive_request (H := TreeCodec.codec) sample_order sample_dashboard "127.0.0.1" 5 GovernorAdmitted sample_reader (limiter_new 1000 3))
     = received (receive_request (H := TreeCodec.codec) sample_order sample_dashboard "127.0.0.1" 5 GovernorAdmitted sample_slow_reader (limiter_new 1000 3)).
Proof.
  split; [vm_compute; reflexivity|].
  apply (requests_read_in_any_pieces (H := TreeCodec.codec) sample_order sample_dashboard "127.0.0.1" 5 GovernorAdmitted sample_reader sample_slow_reader).
  split; [|split]; [split; constructor| |vm_compute; reflexivity].
  split; [|constructor]. unfold sample_slow_reader. cbn [arrivals]. apply Forall_map, Forall_forall. intros c _. exists c, []. reflexivity.
Defined.

Definition sample_received : HttpRequest :=
  mkRequest "POST" "/mcp" "x=1" [("host", "localhost:7331"); ("authorization", "bearer secret"); ("content-length", "2")] (bytes "{}").

Lemma received_requests_are_admitted_witness :
  is_authorized_http_request (Some "secret") sample_received = true /\ len_N (body sample_received) = 2%N.
Proof.
  split; [|reflexivity].
  apply (received_requests_are_admitted (H := TreeCodec.codec) sample_order sample_dashboard "127.0.0.1" 5 GovernorAdmitted sample_reader
           (limiter_new 1000 3) sample_received).
  vm_compute. reflexivity.
Defined.
