(* ===== verification/HttpActions.v ===== *)
(** * Dashboard actions (src/dashboard.rs: the write_*_action handlers)

    The JSON body of an action becomes the command line of one of the program's own
    commands: the checks of each field, the command line in the order of its arguments, and
    the run of the command under a permit for heavy actions. *)

From Stdlib Require Import Ascii ZifyBool.
From S2P Require Import Prelude RustStr BTree Json TextUtils HttpBoundary ProxyUri Execution HttpReply.

(** ** Fields *)

Definition required_field (key : string) : string := "request body requires a non-empty '" +:+ key +:+ "' field".

(** The trimmed text of a string that is not blank. *)
Definition non_blank_text (value : JsonValue) : option string :=
  opt_filter (fun text => negb (str_is_empty text)) (option_map trim (as_str value)).

Definition optional_action_string (body : JsonValue) (key : string) : result (option string) string :=
  match json_get body key with
  | None => Ok None
  | Some value =>
      match non_blank_text value with
      | Some text => Ok (Some text)
      | None => Err ("'" +:+ key +:+ "' must be a non-empty string when provided")
      end
  end.

Definition action_string (body : JsonValue) (key : string) : result string string :=
  value ←? optional_action_string body key ;;
  ok_or value (required_field key).

(** [Result::or_else]. *)
Definition or_else {A E F} (r : result A E) (next : result A F) : result A F :=
  match r with Ok a => Ok a | Err _ => next end.

Definition action_bool (body : JsonValue) (key : string) : result bool string :=
  let not_boolean := Err ("'" +:+ key +:+ "' must be a boolean when provided") in
  match json_get body key with
  | None => Ok false
  | Some (JBool value) => Ok value
  | Some (JString value) =>
      if eq_ignore_ascii_case value "true" then Ok true
      else if eq_ignore_ascii_case value "false" then Ok false
      else not_boolean
  | Some _ => not_boolean
  end.

Definition action_positive_usize (body : JsonValue) (key : string) : result (option N) string :=
  match json_get body key with
  | None => Ok None
  | Some value =>
      let parsed := match value with JNumber raw | JString raw => parse_usize (trim raw) | _ => None end in
      match opt_filter (fun number => negb (number =? 0)%N) parsed with
      | Some number => Ok (Some number)
      | None => Err ("'" +:+ key +:+ "' must be a positive integer")
      end
  end.

Definition control_message (label : string) : string := label +:+ " cannot contain control characters or newlines".

Definition validate_action_name_field (label value : string) (max_len : N) : result unit string :=
  if str_is_empty value then Err (label +:+ " cannot be empty")
  else if (max_len <? str_len value)%N then Err (label +:+ " is too long")
  else if starts_with "-" value then Err (label +:+ " cannot start with '-'")
  else if any_control (bytes value) then Err (control_message label)
  else Ok tt.

Definition validate_action_token_field (label value : string) (allow_all : bool) : result unit string :=
  if str_is_empty value then Err (label +:+ " cannot be empty")
  else if (96 <? str_len value)%N then Err (label +:+ " is too long")
  else if allow_all && String.eqb value "all" then Ok tt
  else if any_control (bytes value) then Err (control_message label)
  else if negb (all_bytes (fun ch => is_ascii_alphanumeric ch || Ascii.eqb ch "-" || Ascii.eqb ch "_" || Ascii.eqb ch ".") value)
  then Err (label +:+ " must contain only letters, numbers, dash, underscore, or dot")
  else Ok tt.

(** ** Paths *)

Definition backslash : ascii := "092".

Definition to_ascii_uppercase (s : string) : string :=
  map_bytes (fun c => if is_ascii_lowercase c then ascii_of_N (code c - 32) else c) s.

(** [trim_end_matches] of the blanks and dots. *)
Fixpoint drop_blanks_and_dots (l : list ascii) : list ascii :=
  match l with
  | a :: l' => if Ascii.eqb a " " || Ascii.eqb a "." then drop_blanks_and_dots l' else l
  | [] => []
  end.

Definition device_name (component : string) : string :=
  to_ascii_uppercase (hd EmptyString (split_char "." (of_bytes (rev (drop_blanks_and_dots (rev (bytes component))))))).

Definition reserved_device (name : string) : bool :=
  one_of ["CON"; "PRN"; "AUX"; "NUL"] name
  || match bytes name with
     | [a; b; c; d] => one_of ["COM"; "LPT"] (of_bytes [a; b; c]) && in_range 49 57 d
     | _ => false
     end.

Definition components (path : string) : list string := split_char "/" (replace_char backslash "/" path).

Fixpoint check_components (label : string) (l : list string) : result unit string :=
  match l with
  | [] => Ok tt
  | component :: l =>
      if String.eqb component ".." then Err (label +:+ " cannot contain parent traversal")
      else if reserved_device (device_name component) then Err (label +:+ " contains a reserved device name")
      else check_components label l
  end.

(** A drive letter needs its separator and allows no other colon; without one there is no colon. *)
Definition check_colons (label trimmed : string) : result unit string :=
  match bytes trimmed with
  | _ :: ":"%char :: rest =>
      match rest with
      | c :: _ =>
          if Ascii.eqb c "/" || Ascii.eqb c backslash then
            if existsb (Ascii.eqb ":") rest then Err (label +:+ " cannot use an alternate data stream") else Ok tt
          else Err (label +:+ " cannot use a drive-relative path")
      | [] => Err (label +:+ " cannot use a drive-relative path")
      end
  | l => if existsb (Ascii.eqb ":") l then Err (label +:+ " contains an unsupported colon") else Ok tt
  end.

Definition validate_action_path_field (label value : string) : result unit string :=
  if (2048 <? str_len value)%N then Err (label +:+ " is too long")
  else if any_control (bytes value) then Err (control_message label)
  else
    let trimmed := trim value in
    if str_contains "://" (to_ascii_lowercase trimmed) then Err (label +:+ " must be a local file path, not a URL")
    else if starts_with "//" trimmed || starts_with (of_bytes [backslash; backslash]) trimmed
    then Err (label +:+ " cannot use a UNC or device-network path")
    else _ ←? check_colons label trimmed ;; check_components label (components trimmed).

(** ** Servers, clients, policies *)

Definition action_server_name (body : JsonValue) : result string string :=
  server ←? map_err (fun _ => "server action requires a non-empty server name")
              (or_else (action_string body "server") (action_string body "name")) ;;
  _ ←? validate_action_name_field "server" server 256 ;;
  Ok server.

Definition action_client_target_id (body : JsonValue) : result string string :=
  client_id ←? map_err (fun _ => "client action requires a non-empty clientId field")
                 (or_else (action_string body "clientId") (action_string body "client")) ;;
  _ ←? validate_action_token_field "clientId" client_id true ;;
  Ok client_id.

(** Trimmed, lower case, with dashes. *)
Definition dashed (value : string) : string := replace_char "_" "-" (to_ascii_lowercase (trim value)).

Definition action_policy_mode (body : JsonValue) : result string string :=
  mode ←? action_string body "mode" ;;
  let mode := dashed mode in
  if one_of ["shared"; "parallel"; "parallel-safe"; "multi-reader"] mode then Ok "shared"
  else if one_of ["serialized"; "serial"; "single-writer"; "queue"; "queued"] mode then Ok "serialized"
  else if one_of ["session"; "session-isolated"; "per-session"; "single-session"] mode then Ok "session-isolated"
  else if one_of ["project"; "project-isolated"; "per-project"; "isolated-per-project"] mode then Ok "project-isolated"
  else if one_of ["pool"; "process-pool"; "worker-pool"] mode then Ok "pool"
  else if one_of ["disabled"; "off"] mode then Ok "disabled"
  else Err "server policy mode must be one of shared, serialized, session-isolated, project-isolated, pool, or disabled".

Definition push_positive_usize_arg (args : list string) (body : JsonValue) (key arg_name : string) : result (list string) string :=
  value ←? action_positive_usize body key ;;
  Ok (match value with Some value => args ++ [arg_name; N_to_string value] | None => args end).

Definition push_reuse_policy_arg (args : list string) (body : JsonValue) : result (list string) string :=
  match json_get body "reusePolicy" with
  | None => Ok args
  | Some value =>
      raw ←? ok_or (non_blank_text value) "'reusePolicy' must be a non-empty string" ;;
      let normalized := replace_char "_" "-" (to_ascii_lowercase raw) in
      if one_of ["sticky"; "ttl"; "never"] normalized then Ok (args ++ ["--reuse-policy"; normalized])
      else Err "'reusePolicy' must be one of sticky, ttl, or never"
  end.

Fixpoint affinity_items (items : list JsonValue) : result (list string) string :=
  match items with
  | [] => Ok []
  | item :: items =>
      raw ←? ok_or (non_blank_text item) "'affinity' array items must be non-empty strings" ;;
      values ←? affinity_items items ;;
      Ok (raw :: values)
  end.

Definition affinity_values (value : JsonValue) : result (list string) string :=
  match value with
  | JString raw => Ok (List.filter (fun item => negb (str_is_empty item)) (map trim (split_char "," raw)))
  | JArray items => affinity_items items
  | _ => Err "'affinity' must be a string or array of strings"
  end.

Fixpoint check_affinity (items : list string) : result unit string :=
  match items with
  | [] => Ok tt
  | item :: items => _ ←? validate_action_token_field "affinity" item false ;; check_affinity items
  end.

Definition push_affinity_arg (args : list string) (body : JsonValue) : result (list string) string :=
  match json_get body "affinity" with
  | None => Ok args
  | Some value =>
      affinity ←? affinity_values value ;;
      if (8 <? len_N affinity)%N then Err "'affinity' accepts at most 8 entries"
      else
        _ ←? check_affinity affinity ;;
        Ok (match affinity with [] => args | _ => args ++ ["--affinity"; join "," affinity] end)
  end.

Definition push_worker_args (mode : string) (args : list string) (body : JsonValue) : result (list string) string :=
  if negb (String.eqb mode "disabled") then
    args ←? push_positive_usize_arg args body "maxWorkers" "--max-workers" ;;
    push_positive_usize_arg args body "maxInFlightPerWorker" "--max-in-flight-per-worker"
  else Ok args.

Definition push_policy_args (mode : string) (args : list string) (body : JsonValue) : result (list string) string :=
  args ←? push_worker_args mode args body ;;
  args ←? push_positive_usize_arg args body "queueTimeoutMs" "--queue-timeout-ms" ;;
  args ←? push_reuse_policy_arg args body ;;
  push_affinity_arg args body.

Definition server_policy_command_args (body : JsonValue) : result (list string) string :=
  server ←? action_server_name body ;;
  mode ←? action_policy_mode body ;;
  push_policy_args mode ["server"; "set-policy"; server; "--mode"; mode; "--json"] body.

(** ** Command lines *)

(** Why an action has no command line: a bad request, or an error of the handler itself. *)
Inductive ActionError := BadRequest (error : string) | HandlerError (error : string).

Definition bad {A} (r : result A string) : result A ActionError := map_err BadRequest r.

Section actions.
Context `{SerdeJson}.

Definition parse_action_body (request : HttpRequest) : result JsonValue string :=
  match body request with
  | [] => Ok empty_object
  | _ =>
      if negb (content_type_is request "application/json")
      then Err "JSON action bodies require Content-Type: application/json"
      else
        text ←? map_err (fun error => "request body is not UTF-8: " +:+ error) (from_utf8 (body request)) ;;
        parsed ←? map_err (fun error => "invalid JSON request body: " +:+ error) (parse_str (trim text)) ;;
        match parsed with JObject _ => Ok parsed | _ => Err "action body must be a JSON object" end
  end.

(** The flag, when the boolean field is set. *)
Definition push_flag (args : list string) (body : JsonValue) (key flag : string) : result (list string) string :=
  value ←? action_bool body key ;;
  Ok (if value then args ++ [flag] else args).

Definition push_settings_path (args : list string) (body : JsonValue) : result (list string) string :=
  settings_path ←? optional_action_string body "settingsPath" ;;
  match settings_path with
  | Some settings_path =>
      _ ←? validate_action_path_field "settingsPath" settings_path ;;
      Ok (args ++ ["--settings"; settings_path])
  | None => Ok args
  end.

Definition client_install_args (body : JsonValue) : result (list string) string :=
  client_id ←? action_client_target_id body ;;
  args ←? push_flag ["client"; "install"; client_id; "--json"] body "dryRun" "--dry-run" ;;
  push_flag args body "diff" "--diff".

Definition client_restore_args (body : JsonValue) : result (list string) string :=
  client_id ←? action_client_target_id body ;;
  backup ←? optional_action_string body "backup" ;;
  let backup := unwrap_or backup "latest" in
  _ ←? validate_action_token_field "backup" backup true ;;
  Ok ["client"; "restore"; client_id; "--backup"; backup; "--json"].

Definition server_toggle_args (enabled : bool) (body : JsonValue) : result (list string) string :=
  server ←? action_server_name body ;;
  Ok ["server"; if enabled then "enable" else "disable"; server; "--json"].

Definition server_test_args (body : JsonValue) : result (list string) string :=
  server ←? action_server_name body ;;
  push_positive_usize_arg ["server"; "test"; server; "--json"] body "timeoutMs" "--timeout-ms".

Definition server_remove_args (body : JsonValue) : result (list string) string :=
  server ←? action_server_name body ;;
  dry_run ←? action_bool body "dryRun" ;;
  args ←? push_settings_path ["server"; "remove"; server; "--json"] body ;;
  Ok (if dry_run then args ++ ["--dry-run"] else args).

Definition server_import_args (body : JsonValue) : result (list string) string :=
  source_path ←? map_err (fun _ => "server import requires a non-empty sourcePath field")
                   (or_else (action_string body "sourcePath") (action_string body "from")) ;;
  _ ←? validate_action_path_field "sourcePath" source_path ;;
  args ←? push_settings_path ["server"; "import"; "--from"; source_path; "--json"] body ;;
  args ←? push_flag args body "dryRun" "--dry-run" ;;
  args ←? push_flag args body "force" "--force" ;;
  push_flag args body "disabled" "--disabled".

Definition discover_mode (body : JsonValue) : string :=
  dashed match optional_action_string body "mode" with Ok (Some value) => value | _ => "preview" end.

Definition blank (s : string) : bool := str_is_empty (trim s).

Definition server_discover_args (body : JsonValue) : result (list string) string :=
  query ←? optional_action_string body "query" ;;
  let query := unwrap_or query EmptyString in
  if (256 <? str_len query)%N then Err "server discovery query is too long"
  else if any_control (bytes query) then Err "server discovery query cannot contain control characters or newlines"
  else
    let mode := discover_mode body in
    if negb (one_of ["preview"; "install"; "apply"; "auto-install"; "auto"; "auto-mode"] mode)
    then Err "server discovery mode must be preview, install, apply, auto-install, auto, or auto-mode"
    else
      auto_install ←? action_bool body "autoInstall" ;;
      auto_mode ←? action_bool body "autoMode" ;;
      let auto_install := auto_install || one_of ["install"; "apply"; "auto-install"] mode in
      let auto_mode := auto_mode || one_of ["auto"; "auto-mode"] mode in
      if blank query && (auto_install || auto_mode)
      then Err "dashboard server discovery install mode requires a query to avoid broad automatic sweeps"
      else
        let args := ["server"; "discover"] ++ (if blank query then [] else [query]) ++ ["--json"]
                    ++ (if auto_mode then ["--auto"] else if auto_install then ["--auto-install"] else []) in
        allow_review ←? action_bool body "allowReview" ;;
        allow_review_install ←? action_bool body "allowReviewInstall" ;;
        let args := if allow_review || allow_review_install then args ++ ["--allow-review"] else args in
        args ←? push_flag args body "refresh" "--refresh" ;;
        args ←? push_flag args body "force" "--force" ;;
        args ←? push_flag args body "disabled" "--disabled" ;;
        push_flag args body "dryRun" "--dry-run".

(** Its name check is not turned into a bad request. *)
Definition server_install_command_args (body : JsonValue) : result (list string) ActionError :=
  command_line ←? bad (map_err (fun _ => "server install requires a non-empty commandLine field")
                         (or_else (or_else (action_string body "commandLine") (action_string body "command"))
                            (action_string body "spec"))) ;;
  if (4096 <? str_len command_line)%N then Err (BadRequest "server install commandLine is too long")
  else if any_control (bytes command_line)
  then Err (BadRequest "server install commandLine cannot contain control characters or newlines")
  else if uses_shell_composition command_line
  then Err (BadRequest "server install commandLine must be one launcher, URL, or path; remove shell chaining, pipes, redirects, backticks, or command substitutions")
  else
    let args := ["server"; "install"; command_line; "--json"] in
    given ←? bad (optional_action_string body "server") ;;
    server_name ←? match given with Some server => Ok (Some server) | None => bad (optional_action_string body "name") end ;;
    args ←? match server_name with
            | Some server =>
                _ ←? map_err HandlerError (validate_action_name_field "server" server 256) ;;
                Ok (args ++ ["--as"; server])
            | None => Ok args
            end ;;
    args ←? bad (push_flag args body "force" "--force") ;;
    args ←? bad (push_flag args body "disabled" "--disabled") ;;
    bad (push_flag args body "dryRun" "--dry-run").

Definition autotune_changes (body : JsonValue) : result (list JsonValue) string :=
  changes ←? ok_or (json_get body "changes" ≫= as_array) "server autotune requires a 'changes' array" ;;
  if (100 <? len_N changes)%N then Err "server autotune accepts at most 100 changes per request" else Ok changes.

(** ** Running them *)

(** What an action is answered with. *)
Inductive ActionOutcome :=
| Refusal400 (error : string)
| Busy429 (action : string)
| Failure500 (error : string)
| Success200 (payload : JsonValue).

(** The program's commands, over whatever they change; [w] is the state before. *)
Class Commands := {
  world : Type;
  run_json_command_vec : list string -> world -> world * result JsonValue string
}.

Context `{Commands}.

Definition action_response (action : string) (now_ms : N) (payload : JsonValue) : JsonValue :=
  json_object [("action", json_string action); ("generatedAtMs", json_number now_ms); ("result", payload)].

(** The commands an action ran, in order, with what it leaves and answers. *)
Definition Acted : Type := world * list (list string) * ActionOutcome.

(** One command, run when the heavy actions have room. *)
Definition run_action (action : string) (now_ms : N) (room : bool) (args : result (list string) ActionError) (w : world) : Acted :=
  match args with
  | Err (BadRequest error) => (w, [], Refusal400 error)
  | Err (HandlerError error) => (w, [], Failure500 error)
  | Ok args =>
      if negb room then (w, [], Busy429 action)
      else
        match run_json_command_vec args w with
        | (w, Ok payload) => (w, [args], Success200 (action_response action now_ms payload))
        | (w, Err error) => (w, [args], Failure500 error)
        end
  end.

(** The loop of the autotune: each change is checked only when its turn comes. *)
Fixpoint autotune_loop (changes : list JsonValue) (ran : list (list string)) (results : list JsonValue) (w : world)
    : world * list (list string) * result (list JsonValue) ActionOutcome :=
  match changes with
  | [] => (w, ran, Ok results)
  | change :: changes =>
      match change with
      | JObject _ =>
          match server_policy_command_args change with
          | Err error => (w, ran, Err (Refusal400 error))
          | Ok args =>
              match run_json_command_vec args w with
              | (w, Ok payload) => autotune_loop changes (ran ++ [args]) (results ++ [payload]) w
              | (w, Err error) => (w, ran ++ [args], Err (Failure500 error))
              end
          end
      | _ => (w, ran, Err (Refusal400 "server autotune changes entries must be objects"))
      end
  end.

Definition server_autotune_action (now_ms : N) (room : bool) (request : HttpRequest) (w : world) : Acted :=
  match parse_action_body request with
  | Err error => (w, [], Refusal400 error)
  | Ok body =>
      match autotune_changes body with
      | Err error => (w, [], Refusal400 error)
      | Ok changes =>
          if negb room then (w, [], Busy429 "server-autotune")
          else
            match autotune_loop changes [] [] w with
            | (w, ran, Err outcome) => (w, ran, outcome)
            | (w, ran, Ok results) =>
                (w, ran, Success200 (action_response "server-autotune" now_ms
                           (json_object [("status", json_string "updated"); ("updated", json_number (len_N results));
                                         ("results", json_array results)])))
            end
      end
  end.

(** The command line of every other action with a body. *)
Definition action_args (action : string) (request : HttpRequest) : option (result (list string) ActionError) :=
  let from_body (f : JsonValue -> result (list string) ActionError) :=
    Some (body ←? bad (parse_action_body request) ;; f body) in
  if String.eqb action "server-enable" then from_body (fun body => bad (server_toggle_args true body))
  else if String.eqb action "server-disable" then from_body (fun body => bad (server_toggle_args false body))
  else if String.eqb action "server-policy" then from_body (fun body => bad (server_policy_command_args body))
  else if String.eqb action "server-test" then from_body (fun body => bad (server_test_args body))
  else if String.eqb action "server-remove" then from_body (fun body => bad (server_remove_args body))
  else if String.eqb action "server-discover" then from_body (fun body => bad (server_discover_args body))
  else if String.eqb action "server-import-config" then from_body (fun body => bad (server_import_args body))
  else if String.eqb action "server-install-command" then from_body server_install_command_args
  else if String.eqb action "client-install" then from_body (fun body => bad (client_install_args body))
  else if String.eqb action "client-restore" then from_body (fun body => bad (client_restore_args body))
  else if String.eqb action "hub-up" then Some (Ok ["hub"; "up"; "--json"])
  else if String.eqb action "hub-down" then Some (Ok ["hub"; "down"; "--json"])
  else if String.eqb action "repair" then Some (Ok ["repair"; "--json"])
  else None.

End actions.

(** ** The flags of the server commands (src/server/args.rs) *)

(** Those that take a value, and those that do not. *)
Definition valued_flags : list string :=
  ["--root"; "--name"; "--as"; "--path"; "--type"; "--command"; "--url"; "--arg"; "--env"; "--header"; "--settings"; "--from";
   "--timeout-ms"; "--mode"; "--affinity"; "--queue-timeout-ms"; "--reuse-policy"; "--max-workers";
   "--max-in-flight-per-worker"; "--client-id"; "--session-id"; "--project-root"; "--transport"; "--metadata-json"].

Definition plain_flags : list string :=
  ["--json"; "--refresh"; "--auto-install"; "--allow-review"; "--dry-run"; "--force"; "--disabled"].

(** Options only: each a plain flag or a flag with its value. *)
Fixpoint options_only (args : list string) : bool :=
  match args with
  | [] => true
  | a :: args =>
      if one_of valued_flags a then match args with _ :: args => options_only args | [] => false end
      else one_of plain_flags a && options_only args
  end.

(** A command on one server: its name cannot be taken for an option. *)
Definition names_one_server (args : list string) : Prop :=
  exists command name rest, args = "server" :: command :: name :: rest
    /\ starts_with "-" name = false /\ name <> EmptyString /\ (str_len name <= 256)%N /\ any_control (bytes name) = false
    /\ options_only rest = true.

(** ** Lemmas *)

Lemma options_only_app a b : options_only a = true -> options_only b = true -> options_only (a ++ b) = true.
Proof.
  induction a as [a IH] using (induction_ltof1 _ (@length string)); unfold ltof in IH.
  destruct a as [|x [|y a] ]; intros Ha Hb; [done| |].
  - cbn [options_only app] in *. destruct (one_of valued_flags x); [done|]. by rewrite andb_true_r in Ha; rewrite Ha.
  - cbn [options_only app] in *. destruct (one_of valued_flags x); [apply IH; cbn; lia || done|].
    apply andb_true_iff in Ha as [-> Ha]. apply (IH (y :: a)); cbn [length]; lia || done.
Qed.

(** Options added at the end of a command line keep what comes before them. *)
Definition grows (f : list string -> result (list string) string) : Prop :=
  forall args args', f args = Ok args' -> exists more, args' = args ++ more /\ options_only more = true.

Lemma grows_nil : grows Ok.
Proof. intros args args' [= <-]. exists []. by rewrite app_nil_r. Qed.

Lemma push_flag_grows body key flag : one_of valued_flags flag = false -> one_of plain_flags flag = true -> grows (fun args => push_flag args body key flag).
Proof.
  intros Hv Hp args args'. unfold push_flag. destruct (action_bool body key) as [ [|]|]; [| |done]; intros [= <-].
  - exists [flag]. split; [done|]. cbn [options_only]. by rewrite Hv, Hp.
  - exists []. by rewrite app_nil_r.
Qed.

Lemma push_positive_grows body key flag : one_of valued_flags flag = true -> grows (fun args => push_positive_usize_arg args body key flag).
Proof.
  intros Hv args args'. unfold push_positive_usize_arg. destruct (action_positive_usize body key) as [ [n|]|]; [| |done]; intros [= <-].
  - exists [flag; N_to_string n]. split; [done|]. cbn [options_only]. by rewrite Hv.
  - exists []. by rewrite app_nil_r.
Qed.

Lemma push_settings_grows body : grows (fun args => push_settings_path args body).
Proof.
  intros args args'. unfold push_settings_path. destruct (optional_action_string body "settingsPath") as [ [p|]|]; [| |done].
  - destruct (validate_action_path_field "settingsPath" p); [|done]. intros [= <-]. by exists ["--settings"; p].
  - intros [= <-]. exists []. by rewrite app_nil_r.
Qed.

Lemma push_reuse_grows body : grows (fun args => push_reuse_policy_arg args body).
Proof.
  intros args args'. unfold push_reuse_policy_arg. destruct (json_get body "reusePolicy") as [v|]; [|intros [= <-]; exists []; by rewrite app_nil_r].
  destruct (non_blank_text v) as [raw|]; [|done]. cbn [ok_or]. set (n := replace_char _ _ _). destruct (one_of _ n); [|done].
  intros [= <-]. by exists ["--reuse-policy"; n].
Qed.

Lemma push_affinity_grows body : grows (fun args => push_affinity_arg args body).
Proof.
  intros args args'. unfold push_affinity_arg. destruct (json_get body "affinity") as [v|]; [|intros [= <-]; exists []; by rewrite app_nil_r].
  destruct (affinity_values v) as [l|]; [|done]. destruct (8 <? len_N l)%N; [done|]. destruct (check_affinity l); [|done].
  intros [= <-]. destruct l as [|x l]; [exists []; by rewrite app_nil_r|]. by exists ["--affinity"; join "," (x :: l)].
Qed.

Lemma grows_bind f g : grows f -> grows g -> grows (fun args => args ←? f args ;; g args).
Proof.
  intros Hf Hg args args'. destruct (f args) as [args1|] eqn:E; [|done]. intros Hg'.
  apply Hf in E as (m1 & -> & O1). apply Hg in Hg' as (m2 & -> & O2). exists (m1 ++ m2). rewrite app_assoc. split; [done|]. by apply options_only_app.
Qed.

Lemma push_workers_grows mode body : grows (fun args => push_worker_args mode args body).
Proof.
  unfold push_worker_args. destruct (negb _); [|apply grows_nil]. by apply grows_bind; apply push_positive_grows.
Qed.

Lemma action_server_name_ok body name :
  action_server_name body = Ok name ->
  starts_with "-" name = false /\ name <> EmptyString /\ (str_len name <= 256)%N /\ any_control (bytes name) = false.
Proof.
  unfold action_server_name. destruct (map_err _ _) as [server|]; [|done]. unfold validate_action_name_field.
  destruct (str_is_empty server) eqn:E1; [done|]. destruct (N.ltb_spec 256 (str_len server)); [done|].
  destruct (starts_with "-" server) eqn:E2; [done|]. destruct (any_control (bytes server)) eqn:E3; [done|]. intros [= <-].
  split_and!; try done. by apply str_is_empty_false.
Qed.

(** A command that names a server and then only grows by options. *)
Lemma one_server body command rest name f args :
  grows f -> options_only rest = true -> action_server_name body = Ok name ->
  f ("server" :: command :: name :: rest) = Ok args -> names_one_server args.
Proof.
  intros Hf Hr Hn Ha. apply action_server_name_ok in Hn as (H1 & H2 & H3 & H4). apply Hf in Ha as (more & -> & Hm).
  exists command, name, (rest ++ more). split_and!; try done. by apply options_only_app.
Qed.

Lemma one_of_app a b m : one_of (a ++ b) m = one_of a m || one_of b m.
Proof. apply existsb_app. Qed.

Lemma one_of_disjoint a b m : one_of a m = true -> forallb (fun x => negb (one_of b x)) a = true -> one_of b m = false.
Proof.
  unfold one_of at 1. rewrite existsb_exists, forallb_forall. intros (x & Hin & Hx) Hall. apply String.eqb_eq in Hx as ->.
  specialize (Hall x Hin). by apply negb_true_iff in Hall.
Qed.

Section loop.
Context `{SerdeJson} `{Commands}.

(** The loop runs the command lines of a prefix of the changes; all of them when it ends well. *)
Lemma autotune_loop_spec changes before ran results w :
  Forall2 (fun change args => server_policy_command_args change = Ok args) before ran ->
  exists applied rest, changes = applied ++ rest
    /\ Forall2 (fun change args => server_policy_command_args change = Ok args) (before ++ applied)
         (autotune_loop changes ran results w).1.2
    /\ match (autotune_loop changes ran results w).2 with Ok _ => rest = [] | Err (Success200 _) => False | Err _ => True end.
Proof.
  revert before ran results w. induction changes as [|change changes IH]; intros before ran results w Hran; cbn [autotune_loop].
  - exists [], []. split_and!; [done|by rewrite app_nil_r|done].
  - assert (Hstop : exists applied rest, change :: changes = applied ++ rest
        /\ Forall2 (fun change args => server_policy_command_args change = Ok args) (before ++ applied) ran /\ True).
    { exists [], (change :: changes). by rewrite app_nil_r. }
    destruct change as [| | | | |object].
    1-5: exact Hstop.
    destruct (server_policy_command_args (JObject object)) as [args|e] eqn:Ea; [|exact Hstop].
    assert (Hnext : Forall2 (fun change args => server_policy_command_args change = Ok args) (before ++ [JObject object]) (ran ++ [args])).
    { apply Forall2_app; [done|]. by repeat constructor. }
    destruct (run_json_command_vec args w) as [w1 [payload|e] ].
    + destruct (IH _ _ (results ++ [payload]) w1 Hnext) as (applied & rest & -> & Hall & Hr).
      exists (JObject object :: applied), rest. rewrite <- app_assoc in Hall. by split_and!.
    + exists [JObject object], changes. by split_and!.
Qed.

End loop.

(** ** Claims *)

Section claims.
Context `{SerdeJson} `{Commands}.

(** The command line of an action on one server names that server right after the command,
    and the name cannot be taken for an option; everything after it is declared options with
    their values, whatever the body of the request holds.  The command line of an import
    consists of such options only. *)
Theorem server_commands_well_formed action request args :
  action_args action request = Some (Ok args) ->
  (action ∈ ["server-enable"; "server-disable"; "server-policy"; "server-test"; "server-remove"] -> names_one_server args)
  /\ (action = "server-import-config" -> exists rest, args = "server" :: "import" :: rest /\ options_only rest = true).
Proof.
  intros Ha. split.
  - intros Hin. repeat (apply elem_of_cons in Hin as [-> | Hin]); [..|by apply not_elem_of_nil in Hin].
    all: revert Ha; unfold action_args; cbn [String.eqb Ascii.eqb Bool.eqb]; intros [= Ha]; revert Ha;
      destruct (parse_action_body request) as [body|]; [|done]; cbn [bad map_err].
    + unfold server_toggle_args. destruct (action_server_name body) as [name|] eqn:En; [|done]. intros [= <-].
      by apply (one_server body "enable" ["--json"] name Ok _ grows_nil).
    + unfold server_toggle_args. destruct (action_server_name body) as [name|] eqn:En; [|done]. intros [= <-].
      by apply (one_server body "disable" ["--json"] name Ok _ grows_nil).
    + destruct (server_policy_command_args body) as [a|] eqn:Ep; [|done]. intros [= <-]. revert Ep. unfold server_policy_command_args.
      destruct (action_server_name body) as [name|] eqn:En; [|done]. destruct (action_policy_mode body) as [mode|]; [|done].
      apply (one_server body "set-policy" ["--mode"; mode; "--json"] name (fun args => push_policy_args mode args body)); try done.
      apply (grows_bind (fun args => push_worker_args mode args body)).
      * apply push_workers_grows.
      * apply grows_bind; [by apply push_positive_grows|]. apply grows_bind; [apply push_reuse_grows|apply push_affinity_grows].
    + destruct (server_test_args body) as [a|] eqn:Ep; [|done]. intros [= <-]. revert Ep. unfold server_test_args.
      destruct (action_server_name body) as [name|] eqn:En; [|done].
      by apply (one_server body "test" ["--json"] name _ _ (push_positive_grows body "timeoutMs" "--timeout-ms" eq_refl)).
    + destruct (server_remove_args body) as [a|] eqn:Ep; [|done]. intros [= <-]. revert Ep. unfold server_remove_args.
      destruct (action_server_name body) as [name|] eqn:En; [|done]. destruct (action_bool body "dryRun") as [dry|]; [|done].
      apply (one_server body "remove" ["--json"] name (fun args => args ←? push_settings_path args body ;; Ok (if dry then args ++ ["--dry-run"] else args))); try done.
      apply grows_bind; [apply push_settings_grows|]. intros x y [= <-]. destruct dry; [by exists ["--dry-run"]|exists []; by rewrite app_nil_r].
  - intros ->. revert Ha. unfold action_args. cbn [String.eqb Ascii.eqb Bool.eqb]. intros [= Ha]. revert Ha.
    destruct (parse_action_body request) as [body|]; [|done]. cbn [bad map_err].
    destruct (server_import_args body) as [a|] eqn:Ep; [|done]. intros [= <-]. revert Ep. unfold server_import_args.
    destruct (map_err _ _) as [path|]; [|done]. destruct (validate_action_path_field "sourcePath" path); [|done]. intros Ep.
    assert (Hg : grows (fun args => args ←? push_settings_path args body ;; args ←? push_flag args body "dryRun" "--dry-run" ;;
                          args ←? push_flag args body "force" "--force" ;; push_flag args body "disabled" "--disabled")).
    { apply grows_bind; [apply push_settings_grows|]. repeat (apply grows_bind; [by apply push_flag_grows|]). by apply push_flag_grows. }
    apply Hg in Ep as (more & -> & Hm). exists (["--from"; path; "--json"] ++ more). split; [done|]. by apply options_only_app.
Qed.

(** The commands an autotune runs are the command lines of the first of its changes, in
    their order, at most 100 and only when the heavy actions have room; it is answered as a
    success only when all of its changes have run. *)
Theorem autotune_runs_a_prefix now_ms room request w :
  let a := server_autotune_action now_ms room request w in
  (a.1.2 = [] /\ a.1.1 = w /\ (exists refusal, a.2 = Refusal400 refusal \/ a.2 = Busy429 refusal))
  \/ room = true /\ exists body changes applied rest,
       parse_action_body request = Ok body /\ autotune_changes body = Ok changes /\ changes = applied ++ rest
       /\ Forall2 (fun change args => server_policy_command_args change = Ok args) applied a.1.2
       /\ (length a.1.2 <= 100)%nat
       /\ ((exists payload, a.2 = Success200 payload) -> rest = []).
Proof.
  cbv zeta. unfold server_autotune_action. destruct (parse_action_body request) as [body|e] eqn:Eb; [|left; eauto].
  destruct (autotune_changes body) as [changes|e] eqn:Ec; [|left; eauto]. destruct room; [|left; eauto]. right. split; [done|]. cbn [negb].
  assert (Hlen : (length changes <= 100)%nat).
  { revert Ec. unfold autotune_changes. destruct (json_get body "changes" ≫= as_array) as [l|]; [|done]. cbn [ok_or].
    destruct (N.ltb_spec 100 (len_N l)) as [|Hl]; [done|]. intros [= <-]. unfold len_N in Hl. lia. }
  destruct (autotune_loop_spec changes [] [] [] w) as (applied & rest & Esplit & Hall & Hrest); [constructor|].
  destruct (autotune_loop changes [] [] w) as [ [w1 ran] r]. cbn [fst snd app] in *.
  assert (Hran : (length ran <= 100)%nat).
  { apply Forall2_length in Hall. rewrite <- Hall. rewrite Esplit, length_app in Hlen. lia. }
  exists body, changes, applied, rest. destruct r as [results|outcome]; cbn [fst snd].
  - split_and!; auto.
  - split_and!; auto. intros [payload ->]. done.
Qed.



(** The mode a dashboard request asks for is read as the execution policy reads it: it is
    accepted exactly when the policy accepts it under one of its runnable names or as
    disabled or off, and passed on under the policy's own name. *)
Theorem dashboard_mode_agrees body text :
  json_get body "mode" = Some (JString text) -> trim text <> EmptyString ->
  forall canonical, action_policy_mode body = Ok canonical
    <-> exists mode, mode_parse text = Ok mode /\ canonical = mode_as_str mode
          /\ ~ one_of ["plan-only"; "not-runnable"] (normalize_token text) = true.
Proof.
  intros Hb Ht canonical. unfold action_policy_mode, action_string, optional_action_string, non_blank_text. rewrite Hb.
  apply str_is_empty_false in Ht. cbn [as_str option_map opt_filter]. rewrite Ht. cbn [negb ok_or].
  assert (E : dashed (trim text) = normalize_token text) by (unfold dashed, normalize_token; by rewrite trim_idem). rewrite E.
  unfold mode_parse. set (m := normalize_token text).
  clearbody m. rewrite (one_of_app ["disabled"; "off"] ["plan-only"; "not-runnable"] m : one_of ["disabled"; "off"; "plan-only"; "not-runnable"] m = _).
  assert (Hyes : forall names mode c, one_of names m = true -> forallb (fun x => negb (one_of ["plan-only"; "not-runnable"] x)) names = true ->
    mode_as_str mode = c -> Ok (E := string) c = Ok canonical
    <-> exists mode', Ok (E := ExecutionPolicyError) mode = Ok mode' /\ canonical = mode_as_str mode' /\ ~ one_of ["plan-only"; "not-runnable"] m = true).
  { intros names mode c Hm Hd <-. pose proof (one_of_disjoint _ _ _ Hm Hd) as Hno. split.
    - intros [= <-]. exists mode. by rewrite Hno.
    - by intros (mode' & [= <-] & -> & _). }
  do 6 (lazymatch goal with |- context [if one_of ?names m then Ok _ else _] =>
    let Hm := fresh "Hm" in destruct (one_of names m) eqn:Hm; [by apply (Hyes names _ _ Hm)|] end).
  cbn [orb]. split; [done|]. intros (mode & Hmode & _ & Hno). by destruct (one_of ["plan-only"; "not-runnable"] m).
Qed.

(** ** What the actions let through *)

(** A discovery query is only checked for its length and control characters, so a query that
    is an option asks for what the check on empty queries is there to refuse. *)
Lemma discover_query_can_be_an_option :
  server_discover_args (json_object [("query", json_string "--auto-install"); ("mode", json_string "preview")])
    = Ok ["server"; "discover"; "--auto-install"; "--json"]
  /\ is_ok (server_discover_args (json_object [("mode", json_string "install")])) = false.
Proof. by split. Qed.

(** The flag of the automatic mode is not one the server commands declare. *)
Lemma discover_auto_uses_undeclared_flag body args :
  action_bool body "autoMode" = Ok true -> server_discover_args body = Ok args ->
  existsb (fun a => String.eqb a "--auto") args = true
  /\ one_of valued_flags "--auto" = false /\ one_of plain_flags "--auto" = false.
Proof.
  intros Ha. unfold server_discover_args. destruct (optional_action_string body "query") as [q|]; [|done].
  destruct (_ <? _)%N; [done|]. destruct (any_control _); [done|]. destruct (negb _); [done|].
  destruct (action_bool body "autoInstall"); [|done]. rewrite Ha. cbn [orb]. rewrite orb_true_r, andb_true_r.
  destruct (blank _) eqn:Eblank; [done|].
  destruct (action_bool body "allowReview") as [r1|]; [|done]. destruct (action_bool body "allowReviewInstall") as [r2|]; [|done].
  intros Hrun. split; [|done].
  assert (Hg : grows (fun args => args ←? push_flag args body "refresh" "--refresh" ;; args ←? push_flag args body "force" "--force" ;;
                        args ←? push_flag args body "disabled" "--disabled" ;; push_flag args body "dryRun" "--dry-run")).
  { repeat (apply grows_bind; [by apply push_flag_grows|]). by apply push_flag_grows. }
  apply Hg in Hrun as (more & -> & _). rewrite existsb_app. apply orb_true_iff. left.
  by destruct (r1 || r2); cbn [app existsb]; rewrite ?existsb_app, ?orb_true_r.
Qed.

(** A client id may be an option of the client commands. *)
Lemma client_id_can_be_an_option :
  client_install_args (json_object [("clientId", json_string "--latest")]) = Ok ["client"; "install"; "--latest"; "--json"].
Proof. done. Qed.

(** The name given to an installed server is checked, but a name that fails the check is
    answered as a failure of the server. *)
Lemma install_name_is_not_a_bad_request now_ms room request (w : world) name body :
  parse_action_body request = Ok body -> json_get body "commandLine" = Some (JString "npx x") ->
  json_get body "server" = Some (JString name) -> trim name <> EmptyString -> starts_with "-" (trim name) = true -> (str_len (trim name) <= 256)%N ->
  match action_args "server-install-command" request with
  | Some args => (run_action "server-install-command" now_ms room args w).2 = Failure500 "server cannot start with '-'"
  | None => False
  end.
Proof.
  intros Hp Hc Hs Hne Hd Hl. unfold action_args. cbn [String.eqb Ascii.eqb Bool.eqb]. rewrite Hp. cbn [bad map_err].
  unfold server_install_command_args. unfold action_string at 1, optional_action_string at 1, non_blank_text at 1.
  rewrite Hc. cbn [as_str option_map opt_filter]. change (trim "npx x") with "npx x". cbn [str_is_empty negb ok_or or_else map_err bad].
  change (4096 <? str_len "npx x")%N with false. change (any_control (bytes "npx x")) with false. change (uses_shell_composition "npx x") with false.
  cbn [negb]. unfold optional_action_string at 1, non_blank_text. rewrite Hs. cbn [as_str option_map opt_filter].
  apply str_is_empty_false in Hne. rewrite Hne. cbn [negb bad map_err]. unfold validate_action_name_field. rewrite Hne, Hd.
  destruct (N.ltb_spec 256 (str_len (trim name))); [lia|]. done.
Qed.

End claims.

(** ** Witnesses *)

#[export] Instance sample_commands : Commands := {|
  world := list (list string);
  run_json_command_vec args w := (w ++ [args], Ok (json_object [("status", json_string "ok")]))
|}.

(** A parser that knows one text. *)
Definition sample_serde (payload : SerdeValue N) : SerdeJson := {|
  serde_number := N; number_parse := parse_u64; number_print := N_to_string;
  print_pretty := TreeCodec.print; print_compact := TreeCodec.print;
  parse_text text := if String.eqb text "payload" then Ok payload else Err "expected value" |}.

Definition sample_action : HttpRequest :=
  mkRequest "POST" "/api/actions" EmptyString [("content-type", "application/json")] (bytes " payload ").

Definition sample_policy : SerdeValue N :=
  SObject [("affinity", SString "chat, -x"); ("maxWorkers", SNumber 2%N); ("mode", SString "Per_Session"); ("server", SString " git ")].

Definition sample_policy_args : list string :=
  ["server"; "set-policy"; "git"; "--mode"; "session-isolated"; "--json"; "--max-workers"; "2"; "--affinity"; "chat,-x"].

Lemma server_commands_well_formed_witness :
  action_args (H := sample_serde sample_policy) "server-policy" sample_action = Some (Ok sample_policy_args) /\ names_one_server sample_policy_args.
Proof.
  assert (E : action_args (H := sample_serde sample_policy) "server-policy" sample_action = Some (Ok sample_policy_args)) by (vm_compute; reflexivity).
  split; [exact E|].
  apply (proj1 (server_commands_well_formed (H := sample_serde sample_policy) "server-policy" sample_action sample_policy_args E)).
  set_solver.
Defined.

(** A change that is not one is found after the changes before it have been made. *)
Lemma autotune_refusal_after_a_change :
  let change := SObject [("mode", SString "shared"); ("server", SString "git")] in
  let a := server_autotune_action (H := sample_serde (SObject [("changes", SArray [change; SNull])])) (H0 := sample_commands) 7 true
             sample_action [] in
  a.2 = Refusal400 "server autotune changes entries must be objects"
  /\ a.1.1 = [ ["server"; "set-policy"; "git"; "--mode"; "shared"; "--json"] ].
Proof. vm_compute. split; reflexivity. Qed.

Lemma dashboard_mode_agrees_witness :
  action_policy_mode (json_object [("mode", json_string " Per_Session")]) = Ok "session-isolated".
Proof.
  apply (dashboard_mode_agrees (json_object [("mode", json_string " Per_Session")]) " Per_Session").
  - reflexivity.
  - vm_compute. discriminate.
  - exists SessionIsolated. split; [vm_compute; reflexivity|]. split; [reflexivity|]. vm_compute. discriminate.
Defined.
