(* ===== verification/HttpRoutes.v ===== *)
(** * Routes of the local server (src/dashboard.rs: handle_http_request)

    From an admitted request to its reply: the checks that are made again, the health and MCP
    endpoints under their configured paths, the pages, the readings and the actions, with the
    events each leaves; and a whole connection, from its bytes to its reply. *)

From Stdlib Require Import Ascii.
From S2P Require Import Prelude RustStr BTree Json TextUtils Admission McpProtocol ToolResult HttpProbe HttpBoundary HttpSession McpEndpoint RateLimit HttpReply HttpServer HttpActions.

(** ** Paths and queries *)

Definition DEFAULT_LOCAL_MCP_PATH : string := "/mcp".
Definition DEFAULT_LOCAL_HEALTH_PATH : string := "/healthz".
Definition DEFAULT_LOG_TAIL : N := 20.
Definition MAX_LOG_TAIL : N := 500.
Definition DEFAULT_OPERATIONS_LIMIT : N := 2000.
Definition MAX_OPERATIONS_LIMIT : N := 5000.

Inductive ServeSurface := Dashboard | UnifiedServe.

(** [endpoint]: the paths found for the unified server. *)
Definition configured_http_paths (surface : ServeSurface) (endpoint : string * string) : string * string :=
  match surface with
  | UnifiedServe => endpoint
  | Dashboard => (DEFAULT_LOCAL_MCP_PATH, DEFAULT_LOCAL_HEALTH_PATH)
  end.

Definition matches_configured_path (path configured fallback : string) : bool :=
  String.eqb path configured || String.eqb path fallback.

Definition query_bool_flag (query key : string) : bool :=
  existsb (fun part =>
    let '(name, value) := unwrap_or (split_once "=" part) (part, EmptyString) in
    eq_ignore_ascii_case name key
    && (str_is_empty value || String.eqb value "1" || eq_ignore_ascii_case value "true" || eq_ignore_ascii_case value "yes"))
    (split_char "&" query).

Definition refresh_requested (query : string) : bool := query_bool_flag query "refresh" || query_bool_flag query "noCache".

Definition bounded_query_usize (query key : string) (default max : N) : N :=
  unwrap_or
    (option_map (fun value => N.min value max)
       (opt_filter (fun value => negb (value =? 0)%N) (query_parameter query key ≫= parse_usize)))
    default.

Definition latency_route_label (surface : ServeSurface) (endpoint : string * string) (path query : string) : string :=
  let '(mcp_path, health_path) := configured_http_paths surface endpoint in
  if matches_configured_path path health_path DEFAULT_LOCAL_HEALTH_PATH then
    if refresh_requested query then "health.refresh" else "health"
  else if matches_configured_path path mcp_path DEFAULT_LOCAL_MCP_PATH then "mcp"
  else if String.eqb path "/" then "dashboard.index"
  else if String.eqb path "/dashboard.css" then "dashboard.css"
  else if String.eqb path "/dashboard.product.css" then "dashboard.product.css"
  else if String.eqb path "/dashboard.js" then "dashboard.js"
  else if String.eqb path "/dashboard.runtime.js" then "dashboard.runtime.js"
  else if String.eqb path "/dashboard.model.js" then "dashboard.model.js"
  else if String.eqb path "/dashboard.render.js" then "dashboard.render.js"
  else if String.eqb path "/dashboard.render.details.js" then "dashboard.render.details.js"
  else if String.eqb path "/dashboard.actions.js" then "dashboard.actions.js"
  else if String.eqb path "/dashboard.boot.js" then "dashboard.boot.js"
  else if String.eqb path "/dashboard.product.js" then "dashboard.product.js"
  else if String.eqb path "/favicon.ico" then "dashboard.favicon"
  else if String.eqb path "/status" then "status"
  else if String.eqb path "/api/overview" then
    if refresh_requested query then "api.overview.refresh" else "api.overview.cached"
  else if String.eqb path "/api/resources" then "api.resources"
  else if String.eqb path "/api/logs" then "api.logs"
  else if String.eqb path "/api/operations" then "api.operations"
  else if starts_with "/api/actions/" path then "api.actions"
  else if starts_with "/api/" path then "api.other"
  else "other".

(** The pages of the dashboard: path, content type and the file they are built from. *)
Definition pages : list (string * (string * string)) :=
  let script := "application/javascript; charset=utf-8" in
  let style := "text/css; charset=utf-8" in
  [("/", ("text/html; charset=utf-8", "dashboard/index.html"));
   ("/dashboard.css", (style, "dashboard/frontend/styles.css"));
   ("/dashboard.product.css", (style, "dashboard/frontend/product.css"));
   ("/dashboard.js", (script, "dashboard/frontend/app.js"));
   ("/dashboard.runtime.js", (script, "dashboard/frontend/app.runtime.js"));
   ("/dashboard.model.js", (script, "dashboard/frontend/app.model.js"));
   ("/dashboard.render.js", (script, "dashboard/frontend/app.render.js"));
   ("/dashboard.render.details.js", (script, "dashboard/frontend/app.render.details.js"));
   ("/dashboard.actions.js", (script, "dashboard/frontend/app.actions.js"));
   ("/dashboard.boot.js", (script, "dashboard/frontend/app.boot.js"));
   ("/dashboard.product.js", (script, "dashboard/frontend/product.js"));
   ("/favicon.ico", ("image/svg+xml; charset=utf-8", "favicon.svg"))].

Definition page_at (path : string) : option (string * string) :=
  option_map snd (List.find (fun page => String.eqb (fst page) path) pages).

(** ** Readings *)

Inductive Reading :=
| Health (refresh : bool)
| Overview (refresh : bool)
| Resources
| Operations (limit : N)
| UpdateCheck.

(** How a report that is kept for a while was come by. *)
Record CacheMetadata := mkCacheMetadata {
  cache_hit : bool;
  cache_bypassed : bool;
  cache_stale : bool;
  cache_ttl_ms : N;
  cache_age_ms : option N;
  cache_refresh_error : option string
}.

Definition cache_metadata_json (cache : CacheMetadata) : JsonValue :=
  json_object
    ([("hit", json_bool (cache_hit cache)); ("bypassed", json_bool (cache_bypassed cache));
      ("stale", json_bool (cache_stale cache)); ("ttlMs", json_number (cache_ttl_ms cache))]
     ++ match cache_age_ms cache with Some age => [("ageMs", json_number age)] | None => [] end
     ++ match cache_refresh_error cache with Some error => [("refreshError", json_string error)] | None => [] end).

(** The reports of the other components, over the same state as the commands: the health and
    the overview with how they were come by, the others as they are, and the status of the
    runtime, which is told with a snapshot of the sessions. *)
Class Readings `{Commands} := {
  take_cached : Reading -> world -> world * result (JsonValue * CacheMetadata) string;
  take_reading : Reading -> world -> world * result JsonValue string;
  runtime_report : McpHttpSessionSnapshot -> world -> world * JsonValue
}.

(** What a request did, in order. *)
Inductive RouteEvent :=
| EnteredHeavyAction (action : string)
| EnteredOverviewRefresh
| RanCommand (args : list string)
| TookReading (reading : Reading)
| McpCalled (call : BackendCall).

Record DashboardState `{Commands} := mkState { session_store : McpHttpSessionStore; state_world : world }.
Arguments mkState {H}.

Section routes.
Context `{SerdeJson} `{McpBackend} `{Commands} `{!Readings}.
Context (environment : string -> option string) (asset : string -> string).
Variable iteration : gmap string McpHttpSession -> list (string * McpHttpSession).
Context (surface : ServeSurface) (endpoint : string * string) (auth_token : option string).

(** Which admission gauges have room, the clock (of the request, and of a snapshot it may
    take) and the random source. *)
Record Occasion := mkOccasion {
  heavy_room : bool;
  overview_room : bool;
  at_ms : N;
  snapshot_ms : N;
  random : N -> result (list ascii) string
}.

Definition Routed : Type := DashboardState * list RouteEvent * result Reply string.

Definition write_json_error_response (status code message : string) (now_ms : N) : Reply :=
  json_response status
    (json_object [("ok", json_bool false); ("generatedAtMs", json_number now_ms);
                  ("error", json_object [("code", json_string code); ("message", json_string message)])]).

Definition admission_rejected (action : string) : Reply :=
  json_response_with_owned_headers "429 Too Many Requests"
    (json_object [("ok", json_bool false); ("error", json_string "server is busy; retry this operation shortly");
                  ("action", json_string action); ("retryAfterMs", json_number 1000)])
    [("Retry-After", "1")].

Definition not_found : Reply := text_response "404 Not Found" "text/plain; charset=utf-8" "Not found".

(** ** The MCP endpoint *)

Definition mcp_reply (response : McpHttpResponse) : Reply :=
  match response with
  | ResponseJson payload => json_response "200 OK" payload
  | ResponseJsonWithHeaders payload headers => json_response_with_owned_headers "200 OK" payload headers
  | ResponseJsonStatus status payload => json_response status payload
  | ResponseAccepted => empty_response "202 Accepted"
  end.

Definition handle_mcp_http_route (request : HttpRequest) (o : Occasion) (st : DashboardState) : Routed :=
  if String.eqb (method request) "GET" then
    (st, [], Ok (empty_response_with_headers "405 Method Not Allowed" [("Allow", "POST, DELETE")]))
  else if String.eqb (method request) "DELETE" then
    let '(store, closed) := close_from_request request (at_ms o) (session_store st) in
    (mkState store (state_world st), [],
     Ok match closed with
        | Ok _ => empty_response "202 Accepted"
        | Err error => write_json_error_response (http_status error) "mcp_session_error" (message error) (at_ms o)
        end)
  else if String.eqb (method request) "POST" then
    let '(store, calls, response) := handle_mcp_post environment iteration request (at_ms o) (random o) (session_store st) in
    (mkState store (state_world st), map McpCalled calls, Ok (mcp_reply response))
  else (st, [], Ok not_found).

(** ** Readings and actions *)

Definition plain (payload : JsonValue) : JsonValue := payload.

Definition runtime_status_json (o : Occasion) (st : DashboardState) : DashboardState * JsonValue :=
  let '(store, taken) := snapshot iteration (snapshot_ms o) (session_store st) in
  let '(w, status) := runtime_report taken (state_world st) in
  (mkState store w, status).

Definition with_runtime_cache_metadata (value : JsonValue) (cache : CacheMetadata) (o : Occasion) (st : DashboardState)
    : DashboardState * JsonValue :=
  match value with
  | JObject entries =>
      let '(st, status) := runtime_status_json o st in
      (st, JObject (bt_insert "runtime" status (bt_insert "cache" (cache_metadata_json cache) entries)))
  | _ => (st, value)
  end.

Definition runtime_resources_response (o : Occasion) (st : DashboardState) : DashboardState * JsonValue :=
  let '(st, status) := runtime_status_json o st in
  (st, json_object [("ok", json_bool true); ("generatedAtMs", json_number (at_ms o)); ("runtime", status)]).

Definition report (reading : Reading) (o : Occasion) (st : DashboardState) : DashboardState * result JsonValue string :=
  match reading with
  | Health _ | Overview _ =>
      let '(w, r) := take_cached reading (state_world st) in
      let st := mkState (session_store st) w in
      match r with
      | Ok (value, cache) => let '(st, payload) := with_runtime_cache_metadata value cache o st in (st, Ok payload)
      | Err error => (st, Err error)
      end
  | Resources => let '(st, payload) := runtime_resources_response o st in (st, Ok payload)
  | Operations _ | UpdateCheck =>
      let '(w, r) := take_reading reading (state_world st) in (mkState (session_store st) w, r)
  end.

Definition take (reading : Reading) (wrap : JsonValue -> JsonValue) (before : list RouteEvent) (o : Occasion) (st : DashboardState) : Routed :=
  let '(st, r) := report reading o st in
  (st, before ++ [TookReading reading], payload ←? r ;; Ok (json_response "200 OK" (wrap payload))).

Definition command_reply (args : list string) (wrap : JsonValue -> JsonValue) (before : list RouteEvent) (st : DashboardState) : Routed :=
  let '(w, r) := run_json_command_vec args (state_world st) in
  (mkState (session_store st) w, before ++ [RanCommand args], payload ←? r ;; Ok (json_response "200 OK" (wrap payload))).

(** [entered]: the heavy actions had room for it. *)
Definition acted (action : string) (entered : bool) (a : Acted) (o : Occasion) (st : DashboardState) : Routed :=
  let '(w, ran, outcome) := a in
  (mkState (session_store st) w,
   (if entered then [EnteredHeavyAction action] else []) ++ map RanCommand ran,
   match outcome with
   | Refusal400 error => Ok (write_json_error_response "400 Bad Request" "bad_request" error (at_ms o))
   | Busy429 action => Ok (admission_rejected action)
   | Failure500 error => Err error
   | Success200 payload => Ok (json_response "200 OK" payload)
   end).

Definition surface_name : string :=
  match surface with Dashboard => "dashboard-http" | UnifiedServe => "unified-serve-http" end.

Definition handle_action (action : string) (request : HttpRequest) (o : Occasion) (st : DashboardState) : Routed :=
  if String.eqb action "ping" then
    (st, [], Ok (json_response "200 OK" (action_response "ping" (at_ms o)
                   (json_object [("status", json_string "ok"); ("surface", json_string surface_name)]))))
  else if String.eqb action "update-check" then
    if negb (heavy_room o) then (st, [], Ok (admission_rejected action))
    else take UpdateCheck (action_response action (at_ms o)) [EnteredHeavyAction action] o st
  else if String.eqb action "server-autotune" then
    let entered := heavy_room o && is_ok (body ←? parse_action_body request ;; autotune_changes body) in
    acted action entered (server_autotune_action (at_ms o) (heavy_room o) request (state_world st)) o st
  else
    match action_args action request with
    | Some args => acted action (heavy_room o && is_ok args) (run_action action (at_ms o) (heavy_room o) args (state_world st)) o st
    | None => (st, [], Ok not_found)
    end.

Definition handle_get (request : HttpRequest) (o : Occasion) (st : DashboardState) : Routed :=
  match page_at (path request) with
  | Some (content_type, file) => (st, [], Ok (text_response "200 OK" content_type (asset file)))
  | None =>
      if String.eqb (path request) "/status" then command_reply ["hub"; "status"; "--json"] plain [] st
      else if String.eqb (path request) "/api/overview" then
        let refresh := refresh_requested (query request) in
        if refresh && negb (overview_room o) then (st, [], Ok (admission_rejected "overview-refresh"))
        else take (Overview refresh) plain (if refresh then [EnteredOverviewRefresh] else []) o st
      else if String.eqb (path request) "/api/resources" then take Resources plain [] o st
      else if String.eqb (path request) "/api/logs" then
        let tail := bounded_query_usize (query request) "tail" DEFAULT_LOG_TAIL MAX_LOG_TAIL in
        command_reply ["hub"; "logs"; "--json"; "--tail"; N_to_string tail] plain [] st
      else if String.eqb (path request) "/api/operations" then
        take (Operations (bounded_query_usize (query request) "limit" DEFAULT_OPERATIONS_LIMIT MAX_OPERATIONS_LIMIT)) plain [] o st
      else (st, [], Ok not_found)
  end.

(** ** The router *)

Definition handle_http_request (request : HttpRequest) (o : Occasion) (st : DashboardState) : Routed :=
  match reject_forbidden_origin request with
  | Some reply => (st, [], Ok reply)
  | None =>
      if negb (is_authorized_http_request auth_token request) then (st, [], Ok unauthorized_reply)
      else
        let '(mcp_path, health_path) := configured_http_paths surface endpoint in
        if String.eqb (method request) "GET" && matches_configured_path (path request) health_path DEFAULT_LOCAL_HEALTH_PATH
        then take (Health (refresh_requested (query request))) plain [] o st
        else if matches_configured_path (path request) mcp_path DEFAULT_LOCAL_MCP_PATH
        then handle_mcp_http_route request o st
        else if String.eqb (method request) "GET" then handle_get request o st
        else if String.eqb (method request) "POST" then
          match strip_prefix "/api/actions/" (path request) with
          | Some action => handle_action action request o st
          | None => (st, [], Ok not_found)
          end
        else (st, [], Ok not_found)
  end.

(** An error of the handler is answered without its text. *)
Definition final_reply (now_ms : N) (outcome : result Reply string) : Reply :=
  match outcome with
  | Ok reply => reply
  | Err _ =>
      write_json_error_response "500 Internal Server Error" "internal_error"
        "Request failed; see local MCPace diagnostics." now_ms
  end.

(** ** A connection *)

Variable evict_order : gmap string ClientWindow -> list (string * ClientWindow).
Context (max_body_bytes : N).

Record Connection := mkConnection {
  after_limiter : HttpRateLimiter;
  after_state : DashboardState;
  events : list RouteEvent;
  sent : option Reply
}.

(** The reply of a connection whose request did not come through; nothing when there was
    none or its reading failed. *)
Definition stop_reply (stop : Stop) : option Reply :=
  match stop with Refused refusal => Some (refused_reply refusal) | Silent | Broken _ => None end.

Definition handle_connection (peer : string) (now : N) (decision : GovernorDecision) (o : Occasion) (r : Reader)
    (limiter : HttpRateLimiter) (st : DashboardState) : Connection :=
  let config := mkDashboardConfig auth_token max_body_bytes in
  let a := receive_request evict_order config peer now decision r limiter in
  match received a with
  | Err stop => mkConnection (left_limiter a) st [] (stop_reply stop)
  | Ok request =>
      let '(st, events, outcome) := handle_http_request request o st in
      mkConnection (left_limiter a) st events (Some (final_reply (at_ms o) outcome))
  end.

(** ** Lemmas *)

(** What a handler did to a state. *)
Definition idle (st : DashboardState) (r : Routed) : Prop := r.1 = (st, []).

Lemma routed_request request o st :
  ~ idle st (handle_http_request request o st) ->
  validate_origin_for_bind request = Ok tt /\ is_authorized_http_request auth_token request = true.
Proof.
  unfold handle_http_request, reject_forbidden_origin, idle. destruct (validate_origin_for_bind request) as [ []|]; [|by intros []].
  destruct (is_authorized_http_request auth_token request); [by split|by intros []].
Qed.

(** The commands and calls an event may stand for. *)
Definition event_ok (request : HttpRequest) (o : Occasion) (all : list RouteEvent) (e : RouteEvent) : Prop :=
  match e with
  | RanCommand args =>
      method request = "GET"
        /\ (args = ["hub"; "status"; "--json"]
            \/ exists tail, args = ["hub"; "logs"; "--json"; "--tail"; N_to_string tail] /\ (tail <= MAX_LOG_TAIL)%N)
      \/ method request = "POST" /\ heavy_room o = true
        /\ exists action, path request = "/api/actions/" +:+ action /\ head all = Some (EnteredHeavyAction action)
  | McpCalled _ | EnteredHeavyAction _ | TookReading UpdateCheck => method request = "POST"
  | EnteredOverviewRefresh => overview_room o = true
  | TookReading _ => method request = "GET"
  end.

Definition events_ok (request : HttpRequest) (o : Occasion) (r : Routed) : Prop :=
  Forall (event_ok request o r.1.2) r.1.2.

Lemma bounded_query_le query key default max : (default <= max)%N -> (bounded_query_usize query key default max <= max)%N.
Proof.
  intros Hd. unfold bounded_query_usize. destruct (query_parameter query key ≫= parse_usize) as [n|]; cbn [opt_filter]; [|done].
  destruct (negb _); cbn [option_map unwrap_or]; lia.
Qed.

Lemma take_events reading wrap before o st : (take reading wrap before o st).1.2 = before ++ [TookReading reading].
Proof. unfold take. by destruct (report reading o st). Qed.

Lemma command_events args wrap before st : (command_reply args wrap before st).1.2 = before ++ [RanCommand args].
Proof. unfold command_reply. by destruct (run_json_command_vec args (state_world st)). Qed.

Lemma get_events request o st : method request = "GET" -> events_ok request o (handle_get request o st).
Proof.
  intros Hm. unfold events_ok, handle_get. destruct (page_at (path request)) as [ [ct f]|]; [constructor|].
  case_stuck; [rewrite command_events; constructor; [left; eauto|constructor]|].
  case_stuck.
  { destruct (refresh_requested (query request)), (overview_room o) eqn:Ho; cbn [andb negb]; try (by constructor);
      rewrite take_events; cbn [app]; by repeat constructor. }
  case_stuck; [rewrite take_events; by repeat constructor|].
  case_stuck.
  { rewrite command_events. constructor; [|constructor]. left. split; [done|]. right. eexists. split; [done|]. by apply bounded_query_le. }
  case_stuck; [rewrite take_events; by repeat constructor|constructor].
Qed.

Lemma acted_events action entered a o st :
  (acted action entered a o st).1.2 = (if entered then [EnteredHeavyAction action] else []) ++ map RanCommand a.1.2.
Proof. unfold acted. by destruct a as [ [w ran] outcome]. Qed.

Lemma run_action_ran action now room args w : (run_action action now room args w).1.2 <> [] -> room && is_ok args = true.
Proof.
  unfold run_action. destruct args as [args|[e|e] ]; [|done|done]. by destruct room.
Qed.

Lemma autotune_ran now room request w :
  (server_autotune_action now room request w).1.2 <> [] -> room && is_ok (body ←? parse_action_body request ;; autotune_changes body) = true.
Proof.
  unfold server_autotune_action. destruct (parse_action_body request) as [body|]; [|done]. destruct (autotune_changes body); [|done].
  by destruct room.
Qed.

(** Commands of an action are run only after it has entered. *)
Lemma acted_ok action entered a o st request :
  method request = "POST" -> path request = "/api/actions/" +:+ action -> (entered = true -> heavy_room o = true) ->
  (a.1.2 <> [] -> entered = true) -> events_ok request o (acted action entered a o st).
Proof.
  intros Hm Hp Hroom Hran. unfold events_ok. rewrite acted_events. destruct entered.
  - cbn [app]. constructor; [done|]. apply Forall_map, Forall_forall. intros args _. right. split; [done|]. split; [by apply Hroom|]. by exists action.
  - destruct (a.1.2) as [|x l]; [constructor|]. by assert (false = true) by (by apply Hran).
Qed.

Lemma action_events action request o st :
  method request = "POST" -> path request = "/api/actions/" +:+ action -> events_ok request o (handle_action action request o st).
Proof.
  intros Hm Hp. unfold handle_action. case_stuck; [constructor|]. case_stuck.
  { destruct (heavy_room o); cbn [negb]; [|constructor]. unfold events_ok. rewrite take_events. by repeat constructor. }
  case_stuck.
  { apply acted_ok; try done; [by intros [? _]%andb_true_iff|apply autotune_ran]. }
  destruct (action_args action request) as [args|]; [|constructor].
  apply acted_ok; try done; [by intros [? _]%andb_true_iff|apply run_action_ran].
Qed.

Lemma mcp_events request o st : events_ok request o (handle_mcp_http_route request o st).
Proof.
  unfold events_ok, handle_mcp_http_route. case_stuck; [constructor|]. case_stuck.
  { destruct (close_from_request request (at_ms o) (session_store st)). constructor. }
  case_stuck; [|constructor]. apply String.eqb_eq in E1.
  destruct (handle_mcp_post _ _ request _ _ _) as [ [store calls] response]. cbn [fst snd].
  apply Forall_map, Forall_forall. by intros.
Qed.

(** A reading only looks at the sessions, and a report that cannot be made does not. *)
Lemma runtime_status_store o st : session_store (runtime_status_json o st).1 = execute iteration (CmdSnapshot (snapshot_ms o)) (session_store st).
Proof.
  unfold runtime_status_json. cbn [execute]. destruct (snapshot iteration _ _) as [store taken]. by destruct (runtime_report taken _).
Qed.

Lemma cached_store value cache o st :
  at_most_looked_at iteration (session_store st) (session_store (with_runtime_cache_metadata value cache o st).1).
Proof.
  unfold with_runtime_cache_metadata. destruct value; try (by left). right. exists (snapshot_ms o).
  rewrite <- runtime_status_store. by destruct (runtime_status_json o st).
Qed.

Lemma report_store reading o st : at_most_looked_at iteration (session_store st) (session_store (report reading o st).1).
Proof.
  destruct reading as [refresh|refresh| |limit|]; cbn [report].
  1,2: destruct (take_cached _ _) as [w [ [value cache]|e] ]; [|by left];
    pose proof (cached_store value cache o (mkState (session_store st) w)) as Hc; by destruct (with_runtime_cache_metadata _ _ _ _).
  - right. exists (snapshot_ms o). unfold runtime_resources_response. rewrite <- runtime_status_store. by destruct (runtime_status_json o st).
  - by destruct (take_reading _ _); left.
  - by destruct (take_reading _ _); left.
Qed.

(** What one request does to the sessions: one operation, besides one look. *)
Definition one_operation (before after : McpHttpSessionStore) : Prop :=
  exists cs, after = run iteration cs before /\ (length cs <= 2)%nat /\ (own_operations cs <= 1)%nat.

Lemma looked_is_one before after : at_most_looked_at iteration before after -> one_operation before after.
Proof.
  intros [-> |[t ->] ]; [exists []|exists [CmdSnapshot t] ]; cbn; split_and!; try done; lia.
Qed.

Lemma unchanged_is_one st : one_operation st st.
Proof. apply looked_is_one. by left. Qed.

Lemma take_store reading wrap before o st : one_operation (session_store st) (session_store (take reading wrap before o st).1.1).
Proof.
  apply looked_is_one. unfold take. pose proof (report_store reading o st) as Hr. by destruct (report reading o st).
Qed.

Lemma command_store args wrap before st : session_store (command_reply args wrap before st).1.1 = session_store st.
Proof. unfold command_reply. by destruct (run_json_command_vec args (state_world st)). Qed.

Lemma acted_store action entered a o st : session_store (acted action entered a o st).1.1 = session_store st.
Proof. unfold acted. by destruct a as [ [w ran] outcome]. Qed.

Lemma mcp_store request o st : one_operation (session_store st) (session_store (handle_mcp_http_route request o st).1.1).
Proof.
  unfold handle_mcp_http_route. case_stuck; [apply unchanged_is_one|]. case_stuck.
  { exists [CmdClose request (at_ms o)]. cbn [run fold_left execute].
    destruct (close_from_request request (at_ms o) (session_store st)) as [store closed]. cbn. split_and!; [done|lia..]. }
  case_stuck; [|apply unchanged_is_one].
  destruct (handle_post_section environment iteration request (at_ms o) (random o) (session_store st)) as (cs & Hst & Hl & Ho & _).
  destruct (handle_mcp_post _ _ request _ _ _) as [ [store calls] response]. by exists cs.
Qed.

Lemma get_store request o st : one_operation (session_store st) (session_store (handle_get request o st).1.1).
Proof.
  unfold handle_get. destruct (page_at (path request)) as [ [ct f]|]; [apply unchanged_is_one|].
  repeat (case_stuck; [first [apply take_store|rewrite command_store; apply unchanged_is_one
                              |case_stuck; [apply unchanged_is_one|apply take_store] ]|]). apply unchanged_is_one.
Qed.

Lemma action_store action request o st : one_operation (session_store st) (session_store (handle_action action request o st).1.1).
Proof.
  unfold handle_action. case_stuck; [apply unchanged_is_one|]. case_stuck; [case_stuck; [apply unchanged_is_one|apply take_store]|].
  case_stuck; [rewrite acted_store; apply unchanged_is_one|].
  destruct (action_args action request); [rewrite acted_store|]; apply unchanged_is_one.
Qed.

Lemma routed_store request o st : one_operation (session_store st) (session_store (handle_http_request request o st).1.1).
Proof.
  unfold handle_http_request. destruct (reject_forbidden_origin request); [apply unchanged_is_one|].
  destruct (is_authorized_http_request _ request); [|apply unchanged_is_one]. cbn [negb].
  destruct (configured_http_paths surface endpoint) as [mcp_path health_path]. case_stuck; [apply take_store|].
  case_stuck; [apply mcp_store|]. case_stuck; [apply get_store|]. case_stuck; [|apply unchanged_is_one].
  destruct (strip_prefix "/api/actions/" (path request)); [apply action_store|apply unchanged_is_one].
Qed.

(** Connections one after the other, each with its bytes and what it meets. *)
Record Visit := mkVisit {
  visit_peer : string;
  visit_now : N;
  visit_decision : GovernorDecision;
  visit_occasion : Occasion;
  visit_reader : Reader
}.

Definition visited (ls : HttpRateLimiter * DashboardState) (v : Visit) : HttpRateLimiter * DashboardState :=
  let c := handle_connection (visit_peer v) (visit_now v) (visit_decision v) (visit_occasion v) (visit_reader v) ls.1 ls.2 in
  (after_limiter c, after_state c).

Definition serve_visits (vs : list Visit) (ls : HttpRateLimiter * DashboardState) : HttpRateLimiter * DashboardState :=
  fold_left visited vs ls.

Lemma visited_store v ls : one_operation (session_store ls.2) (session_store (visited ls v).2).
Proof.
  unfold visited, handle_connection. cbn [snd]. destruct (received _) as [request|stop]; [|apply unchanged_is_one].
  pose proof (routed_store request (visit_occasion v) ls.2) as Hr.
  by destruct (handle_http_request request (visit_occasion v) ls.2) as [ [st events] outcome].
Qed.

(** ** Replies are well framed *)

(** The status codes of the server, with their reasons. *)
Definition known_statuses : list (N * string) :=
  [(200, "OK"); (202, "Accepted"); (400, "Bad Request"); (401, "Unauthorized"); (403, "Forbidden"); (404, "Not Found");
   (405, "Method Not Allowed"); (413, "Payload Too Large"); (414, "URI Too Long"); (429, "Too Many Requests");
   (431, "Request Header Fields Too Large"); (500, "Internal Server Error"); (503, "Service Unavailable")]%N.

Definition status_text (known : N * string) : string := N_to_string (fst known) +:+ " " +:+ snd known.

Definition known_status (status : string) : bool := existsb (fun known => String.eqb status (status_text known)) known_statuses.

Definition framed_field (header : string * string) : bool :=
  valid_http_header_name (fst header) && is_valid_http_header_name (fst header) && is_valid_http_header_value (snd header)
  && negb (framing_name (fst header)).

(** A reply whose head is a status line and one line for each of its fields. *)
Definition framed (r : Reply) : Prop :=
  known_status (reply_status r) = true /\ is_valid_http_header_value (reply_content_type r) = true
  /\ forallb framed_field (extra_headers r) = true.

Lemma known_status_parts status :
  known_status status = true ->
  exists code reason, status = N_to_string code +:+ " " +:+ reason /\ (100 <= code)%N /\ (code <= 599)%N
    /\ is_valid_http_header_value reason = true.
Proof.
  unfold known_status. rewrite existsb_exists. intros ( [code reason] & Hin & ->%String.eqb_eq). exists code, reason. split; [done|].
  assert (Hall : forallb (fun known => (100 <=? fst known)%N && (fst known <=? 599)%N && is_valid_http_header_value (snd known)) known_statuses = true)
    by (vm_compute; reflexivity).
  rewrite forallb_forall in Hall. specialize (Hall _ Hin). cbn [fst snd] in Hall. rewrite !andb_true_iff, !N.leb_le in Hall. tauto.
Qed.

Lemma framed_extras hs :
  forallb framed_field hs = true ->
  check_extra_headers hs = Ok tt /\ Forall (fun h => valid_http_header_name (fst h) = true /\ framing_name (fst h) = false) hs.
Proof.
  induction hs as [|h hs IH]; [done|]. cbn [forallb check_extra_headers]. intros [Hh Hhs]%andb_true_iff. destruct (IH Hhs) as [IH1 IH2].
  unfold framed_field in Hh. rewrite !andb_true_iff, negb_true_iff in Hh. destruct Hh as [ [ [Hn Hn2] Hv] Hf].
  unfold check_extra_header. rewrite Hn2, Hv. cbn [negb]. rewrite IH1. split; [done|by constructor].
Qed.

Lemma framed_read_back r :
  framed r -> (str_len (reply_body r) <= USIZE_MAX)%N ->
  exists text code reason, write_response_with_headers r = Ok text /\ reply_status r = N_to_string code +:+ " " +:+ reason
    /\ parse_response text = Ok (response_of r code) /\ body_bytes (response_of r code) = Returns (Ok (bytes (reply_body r))).
Proof.
  intros (Hs & Ht & Hx) Hb. destruct (known_status_parts _ Hs) as (code & reason & Es & Hlo & Hhi & Hr). destruct (framed_extras _ Hx) as [Hck He].
  assert (exists text, write_response_with_headers r = Ok text) as [text Hw].
  { unfold write_response_with_headers. rewrite Hck. by eexists. }
  exists text, code, reason. split_and!; [done|done|..]; by eapply responses_read_back.
Qed.

Lemma framed_json status payload headers :
  known_status status = true -> forallb framed_field headers = true -> framed (json_response_with_owned_headers status payload headers).
Proof. intros Hs Hh. by split_and!. Qed.

Lemma framed_error status code message now : known_status status = true -> framed (write_json_error_response status code message now).
Proof. intros. by apply framed_json. Qed.

Lemma framed_value_bytes p s : (forall c, p c = true -> in_range 33 126 c = true) -> all_bytes p s = true -> is_valid_http_header_value s = true.
Proof. intros Hp Hs. eapply all_bytes_impl; [|exact Hs]. intros c Hc. cbn beta. by rewrite (Hp c Hc), orb_true_r. Qed.

Lemma number_value n : is_valid_http_header_value (N_to_string n) = true.
Proof. apply (framed_value_bytes is_ascii_digit); [|apply N_to_string_all_digits]. intros c. unfold is_ascii_digit, in_range. lia. Qed.

(** *** The endpoint *)

Lemma hex_value bs : is_valid_http_header_value (hex_bytes bs) = true.
Proof.
  apply (framed_value_bytes (in_range 33 126)); [done|]. unfold hex_bytes, all_bytes. rewrite bytes_of_bytes, forallb_forall. intros c.
  rewrite in_flat_map. intros (byte & _ & Hc).
  assert (Hd : forall n, in_range 33 126 (hex_char n) = true).
  { intros n. unfold hex_char. assert (Hall : forallb (in_range 33 126) hex_digits = true) by reflexivity. rewrite forallb_forall in Hall.
    destruct (nth_in_or_default (N.to_nat n) hex_digits "0"%char) as [Hin|Hz]; [by apply Hall|by rewrite Hz]. }
  by destruct Hc as [<- |[<- |[] ] ].
Qed.

Lemma session_id_value rnd sid : generated_mcp_http_session_id rnd = Ok sid -> is_valid_http_header_value sid = true.
Proof.
  unfold generated_mcp_http_session_id. destruct (rnd 16%N) as [bs|]; [|done]. intros [= <-]. pose proof (hex_value bs) as Hv.
  unfold is_valid_http_header_value in *. by rewrite all_bytes_app, Hv.
Qed.

Lemma negotiated_value requested : is_valid_http_header_value (negotiate_protocol_version requested) = true.
Proof.
  unfold negotiate_protocol_version. destruct (List.find _ SUPPORTED_PROTOCOL_VERSIONS) as [v|] eqn:E; [|reflexivity].
  apply List.find_some in E as [Hin _].
  assert (Hall : forallb is_valid_http_header_value SUPPORTED_PROTOCOL_VERSIONS = true) by reflexivity. rewrite forallb_forall in Hall. by apply Hall.
Qed.

(** A response of the endpoint whose status and added fields are well framed. *)
Definition framed_response (response : McpHttpResponse) : Prop :=
  match response with
  | ResponseJson _ | ResponseAccepted => True
  | ResponseJsonWithHeaders _ headers => forallb framed_field headers = true
  | ResponseJsonStatus status _ => known_status status = true
  end.

Lemma mcp_reply_framed response : framed_response response -> framed (mcp_reply response).
Proof. destruct response; intros Hr; by split_and!. Qed.

Lemma session_error_framed error id : framed_response (session_error_response error id).
Proof. unfold session_error_response, http_status. cbn. by destruct (kind error). Qed.

Lemma check_content_framed request response : check_content request = Err response -> framed_response response.
Proof. unfold check_content. case_stuck; [by intros [= <-]|]. case_stuck; [by intros [= <-]|done]. Qed.

Lemma check_request_framed request message id method response :
  check_request request message id method = Err response -> framed_response response.
Proof.
  unfold check_request. destruct (validate_request_envelope message); cbn [map_err]; [|by intros [= <-] ].
  case_stuck; [by intros [= <-]|]. lazymatch goal with |- context [if ?b then Err _ else _] => destruct b end; [by intros [= <-]|].
  destruct (request_header_string_unique (Some request) "mcp-protocol-version") as [ [h|] |]; [|idtac|by intros [= <-] ].
  1: destruct (is_supported_protocol_version h); [|by intros [= <-] ].
  all: destruct (validate_mcp_standard_headers request message method); cbn [map_err]; [done|by intros [= <-] ].
Qed.

Lemma initialize_framed message id now rnd store : framed_response (handle_initialize iteration message id now rnd store).2.
Proof.
  unfold handle_initialize. destruct (generated_mcp_http_session_id rnd) as [sid|e] eqn:Eg; [|done].
  destruct (create_or_replace _ _ _ _ _ _ _ _) as [st1 [v|e] ]; [|apply session_error_framed]. cbn [snd framed_response forallb].
  unfold framed_field. cbn [fst snd]. by rewrite (session_id_value _ _ Eg), negotiated_value.
Qed.

Lemma call_tool_framed request message id store : framed_response (call_tool environment iteration request message id store).2.
Proof.
  unfold call_tool. destruct (string_at_path _ _) as [name|]; [|done]. destruct (tool_call_arguments_or_empty message) as [args|]; [|done].
  case_stuck; [done|]. destruct (options_from_arguments environment _); [|done]. destruct (finish_report _ _ _) as [st1 [v|e] ]; [|done].
  cbn [snd]. by case_stuck.
Qed.

Lemma dispatch_framed request message id method protocol store :
  framed_response (dispatch environment iteration request message id method protocol store).2.
Proof.
  unfold dispatch. repeat (lazymatch goal with |- context [if String.eqb method ?m then _ else _] =>
    destruct (String.eqb method m); [first [apply call_tool_framed | done | idtac] |] end); [| | |done].
  - by destruct (request_header_string_unique _ _).
  - destruct (params_arguments_object_or_empty _ _); [|done]. destruct (string_at_path _ _); [|done]. cbn [snd]. unfold settled. by destruct (backend_prompt _ _).
  - destruct (string_at_path _ _); [|done]. cbn [snd]. unfold settled. by destruct (backend_resource _).
Qed.

Lemma touch_framed request id now store st1 response :
  touch_mcp_session_for_request request id now store = (st1, Err response) -> framed_response response.
Proof.
  unfold touch_mcp_session_for_request. destruct (touch_from_request request now store) as [st2 [v|e] ]; [done|].
  intros [= _ <-]. apply session_error_framed.
Qed.

Lemma mark_framed request id now store st1 response :
  mark_mcp_session_initialized request id now store = (st1, Err response) -> framed_response response.
Proof.
  unfold mark_mcp_session_initialized. destruct (mark_initialized_from_request request now store) as [st2 [v|e] ]; [done|].
  intros [= _ <-]. apply session_error_framed.
Qed.

Lemma prepare_framed request id key require now store st1 response :
  prepare_mcp_session_for_request iteration request id key require now store = (st1, Err response) -> framed_response response.
Proof.
  unfold prepare_mcp_session_for_request. destruct (touch_from_request request now store) as [st2 [v|e] ]; [|intros [= _ <-]; apply session_error_framed].
  destruct (match key with Some k => _ | None => _ end) as [st3 [v3|e3] ]; [|intros [= _ <-]; apply session_error_framed].
  case_stuck; [|done]. by intros [= _ <-].
Qed.

Lemma post_framed request now rnd store : framed_response (handle_mcp_post environment iteration request now rnd store).2.
Proof.
  unfold handle_mcp_post, handle_mcp_http_request. destruct (check_content request) eqn:Hc; [|by apply check_content_framed in Hc].
  destruct (parse_message request) as [message|]; [|done]. unfold handle_message, handle_method. set (id := unwrap_or _ JNull).
  destruct (value_at_path message ["method"]) as [ [| | | method | |] |]; try done.
  2:{ case_stuck; [|done]. destruct (touch_mcp_session_for_request request id now store) as [? [|] ] eqn:Et; [done|by apply touch_framed in Et]. }
  destruct (check_request request message id method) eqn:Hck; [|by apply check_request_framed in Hck].
  case_stuck.
  { destruct (value_at_path message ["id"]); [|done]. pose proof (initialize_framed message id now rnd store) as Hi.
    by destruct (handle_initialize iteration message id now rnd store). }
  case_stuck.
  { destruct (mark_mcp_session_initialized request id now store) as [? [|] ] eqn:Em; [done|by apply mark_framed in Em]. }
  destruct (prepare_mcp_session_for_request iteration request id _ _ now store) as [st1 [v|r] ] eqn:Ep; [|by apply prepare_framed in Ep].
  destruct (value_at_path message ["id"]); [|done].
  pose proof (dispatch_framed request message id method (view_protocol_version v) st1) as Hd.
  by destruct (dispatch environment iteration request message id method (view_protocol_version v) st1) as [ [st2 calls] response].
Qed.

(** *** Refused requests *)

(** The answers the governor gives: admitted, or the one rejection it has. *)
Definition governed (decision : GovernorDecision) : Prop :=
  decision = GovernorAdmitted
  \/ decision = GovernorRejected (reject_reason governor_rejection) (Admission.retry_after_ms governor_rejection).

Definition framed_stop (stop : Stop) : Prop :=
  match stop with Refused refusal => framed (refused_reply refusal) | Silent | Broken _ => True end.

Definition framed_outcome {A} (r : result A Stop) : Prop := match r with Ok _ => True | Err stop => framed_stop stop end.

Lemma refuse_framed route status message : known_status status = true -> framed (refused_reply (refuse route status message)).
Proof. intros. by split_and!. Qed.

Lemma add_header_line_framed header hs refusal : add_header_line header hs = Err refusal -> framed (refused_reply refusal).
Proof.
  unfold add_header_line. cbv zeta. repeat (case_stuck; try (by intros [= <-]; apply refuse_framed)); done.
Qed.

Lemma read_headers_framed fuel hs r : framed_outcome (read_headers_loop fuel hs r).2.
Proof.
  revert hs r. induction fuel as [|fuel IH]; intros hs r; cbn [read_headers_loop]; [done|].
  destruct (read_limited_http_line _ _ r) as [r1 [ [|header|]|e] ]; [done| |by apply refuse_framed|done].
  case_stuck; [done|]. destruct (add_header_line header hs) eqn:Ea; [apply IH|by eapply add_header_line_framed].
Qed.

Lemma read_head_framed r : framed_outcome (read_head r).2.
Proof.
  unfold read_head. destruct (read_limited_http_line _ _ r) as [r1 [ [|line|]|e] ]; [done| |by apply refuse_framed|done].
  destruct (parse_request_line line) as [ [ [m t]|refusal]|] eqn:Ep; [| |done].
  - unfold read_headers. pose proof (read_headers_framed (N.to_nat (MAX_HTTP_HEADER_COUNT + 2)) headers_start r1) as Hh.
    by destruct (read_headers_loop _ headers_start r1) as [r2 [hs|stop] ].
  - revert Ep. unfold parse_request_line. case_stuck; [done|]. intros [= Ep]. revert Ep.
    repeat (case_stuck; try (by intros [= <-]; apply refuse_framed)); done.
Qed.

Lemma rejected_origin_framed request reply : reject_forbidden_origin request = Some reply -> framed reply.
Proof. unfold reject_forbidden_origin. destruct (validate_origin_for_bind request); [done|]. intros [= <-]. by apply framed_json. Qed.

Lemma unauthorized_framed : framed unauthorized_reply.
Proof. by split_and!. Qed.

Lemma retry_framed status headers n :
  known_status status = true -> forallb framed_field headers = true ->
  framed (empty_response_with_headers status (("Retry-After", N_to_string n) :: headers)).
Proof. intros Hs Hh. split_and!; [done|done|]. cbn [empty_response_with_headers extra_headers forallb]. unfold framed_field at 1. cbn [fst snd]. by rewrite number_value. Qed.

Lemma admit_framed config h peer now decision r limiter :
  governed decision -> framed_outcome (received (admit_request evict_order config h peer now decision r limiter)).
Proof.
  intros Hg. unfold admit_request. destruct (check_host _) as [ []|refusal] eqn:Eh.
  2:{ revert Eh. unfold check_host. repeat (case_stuck; try (by intros [= <-]; apply refuse_framed)); done. }
  case_stuck; [by split_and!|]. destruct (reject_forbidden_origin (header_request h)) as [reply|] eqn:Er; [by apply rejected_origin_framed in Er|].
  destruct (check_rate evict_order peer now limiter) as [limiter1 verdict]. case_stuck; [by apply retry_framed|].
  case_stuck; [apply unauthorized_framed|]. destruct Hg as [-> | ->]; [|by apply retry_framed].
  unfold receive_body. by destruct (read_limited_http_body _ r) as [r1 [bs|e] ].
Qed.

Lemma receive_framed config peer now decision r limiter :
  governed decision -> framed_outcome (received (receive_request evict_order config peer now decision r limiter)).
Proof.
  intros Hg. unfold receive_request. pose proof (read_head_framed r) as Hh. destruct (read_head r) as [r1 [h|stop] ]; [by apply admit_framed|done].
Qed.

(** *** Routes *)

(** A reply is well framed; a failure has none. *)
Definition framed_result (r : result Reply string) : Prop := match r with Ok reply => framed reply | Err _ => True end.

Lemma page_framed path ct file : page_at path = Some (ct, file) -> framed (text_response "200 OK" ct (asset file)).
Proof.
  unfold page_at. destruct (List.find _ pages) as [ [p [ct' file'] ]|] eqn:E; [|done]. intros [= -> ->]. apply List.find_some in E as [Hin _].
  assert (Hall : forallb (fun page => is_valid_http_header_value (fst (snd page))) pages = true) by (vm_compute; reflexivity).
  rewrite forallb_forall in Hall. split_and!; [done|exact (Hall _ Hin)|done].
Qed.

Lemma take_framed reading wrap before o st : framed_result (take reading wrap before o st).2.
Proof. unfold take. destruct (report reading o st) as [st1 [v|e] ]; [by apply framed_json|done]. Qed.

Lemma command_framed args wrap before st : framed_result (command_reply args wrap before st).2.
Proof. unfold command_reply. destruct (run_json_command_vec args _) as [w [v|e] ]; [by apply framed_json|done]. Qed.

Lemma rejected_framed action : framed (admission_rejected action).
Proof. by split_and!. Qed.

Lemma not_found_framed : framed not_found.
Proof. by split_and!. Qed.

Lemma acted_framed action entered a o st : framed_result (acted action entered a o st).2.
Proof.
  unfold acted. destruct a as [ [w ran] [e|busy|e|payload] ]; cbn [snd framed_result]; try done; by (apply framed_json || apply rejected_framed).
Qed.

Lemma mcp_route_framed request o st : framed_result (handle_mcp_http_route request o st).2.
Proof.
  unfold handle_mcp_http_route. case_stuck; [by split_and!|]. case_stuck.
  { destruct (close_from_request request (at_ms o) (session_store st)) as [store [v|e] ]; [by split_and!|].
    apply framed_error. unfold http_status. by destruct (kind e). }
  case_stuck; [|apply not_found_framed]. pose proof (post_framed request (at_ms o) (random o) (session_store st)) as Hp.
  destruct (handle_mcp_post _ _ request _ _ _) as [ [store calls] response]. by apply mcp_reply_framed.
Qed.

Lemma get_framed request o st : framed_result (handle_get request o st).2.
Proof.
  unfold handle_get. destruct (page_at (path request)) as [ [ct f]|] eqn:Ep; [by eapply page_framed|].
  repeat (case_stuck; [first [apply take_framed|apply command_framed|case_stuck; [apply rejected_framed|apply take_framed] ]|]). apply not_found_framed.
Qed.

Lemma action_framed action request o st : framed_result (handle_action action request o st).2.
Proof.
  unfold handle_action. case_stuck; [by apply framed_json|]. case_stuck; [case_stuck; [apply rejected_framed|apply take_framed]|].
  case_stuck; [apply acted_framed|]. destruct (action_args action request); [apply acted_framed|apply not_found_framed].
Qed.

Lemma routed_framed request o st : framed_result (handle_http_request request o st).2.
Proof.
  unfold handle_http_request. destruct (reject_forbidden_origin request) eqn:Er; [by eapply rejected_origin_framed|].
  destruct (is_authorized_http_request _ request); [|apply unauthorized_framed]. cbn [negb].
  destruct (configured_http_paths surface endpoint) as [mcp_path health_path]. case_stuck; [apply take_framed|].
  case_stuck; [apply mcp_route_framed|]. case_stuck; [apply get_framed|]. case_stuck; [|apply not_found_framed].
  destruct (strip_prefix "/api/actions/" (path request)); [apply action_framed|apply not_found_framed].
Qed.

Lemma sent_framed peer now decision o r limiter st reply :
  governed decision -> sent (handle_connection peer now decision o r limiter st) = Some reply -> framed reply.
Proof.
  intros Hg. unfold handle_connection. set (config := mkDashboardConfig _ _). pose proof (receive_framed config peer now decision r limiter Hg) as Hr.
  destruct (received _) as [request|stop]; cbn [framed_outcome] in Hr.
  - pose proof (routed_framed request o st) as Ho. destruct (handle_http_request request o st) as [ [st1 es] [out|e] ]; cbn; intros [= <-]; [done|].
    by apply framed_error.
  - destruct stop as [|refusal|e]; cbn; [done| |done]. by intros [= <-].
Qed.

(** ** Claims *)

(** C23: nothing happens for a request that was not let in: a connection that changes the state or
    leaves an event has delivered a complete request that is within the local boundary and
    authorized, its peer is within the rate limit and the governor has admitted it. *)
Theorem nothing_happens_unadmitted peer now decision o r limiter st :
  let c := handle_connection peer now decision o r limiter st in
  after_state c <> st \/ events c <> [] ->
  exists request, received (receive_request evict_order (mkDashboardConfig auth_token max_body_bytes) peer now decision r limiter) = Ok request
    /\ validate_origin_for_bind request = Ok tt /\ is_authorized_http_request auth_token request = true
    /\ allowed (check_rate evict_order peer now limiter).2 = true /\ decision = GovernorAdmitted.
Proof.
  cbv zeta. unfold handle_connection. set (a := receive_request _ _ _ _ _ _ _).
  destruct (received a) as [request|stop] eqn:Ea; [|cbn; by intros [ []|[] ] ].
  intros Hne. exists request. split; [done|].
  assert (Hidle : ~ idle st (handle_http_request request o st)).
  { unfold idle. intros Hi. destruct (handle_http_request request o st) as [ [st1 es] out]. cbn [fst snd after_state events] in *.
    injection Hi as -> ->. by destruct Hne. }
  pose proof (routed_request _ _ _ Hidle) as [Ho Hauth]. destruct (admitted_facts evict_order _ _ _ _ _ _ _ Ea) as (Hr & Hd). done.
Qed.

(** The program's commands are run only for what they are meant for: a GET runs none but the
    hub's status and its logs, the latter bounded; any other command is run for a POST to an
    action, after it has entered under the limit on heavy actions.  Only a POST calls a
    backend of the MCP endpoint. *)
Theorem commands_come_from_actions request o st : events_ok request o (handle_http_request request o st).
Proof.
  unfold handle_http_request. destruct (reject_forbidden_origin request); [constructor|].
  destruct (is_authorized_http_request _ request); [|constructor]. cbn [negb].
  destruct (configured_http_paths surface endpoint) as [mcp_path health_path].
  case_stuck; [apply andb_true_iff in E as [E _]; apply String.eqb_eq in E; unfold events_ok; rewrite take_events; by repeat constructor|].
  case_stuck; [apply mcp_events|]. case_stuck; [apply get_events; by apply String.eqb_eq|].
  case_stuck; [|constructor]. destruct (strip_prefix "/api/actions/" (path request)) as [action|] eqn:Es; [|constructor].
  apply action_events; [by apply String.eqb_eq|by apply strip_prefix_Some].
Qed.

(** C29: the server implements the session store: whatever connections are made, with whatever
    bytes, its sessions are what a sequence of store operations leaves, in which each
    connection has at most one operation, besides at most one snapshot (which only forgets
    expired sessions), so that all that is shown of such sequences holds of the running
    server. *)
Theorem connections_refine_session_commands vs limiter st :
  exists cs, session_store (serve_visits vs (limiter, st)).2 = run iteration cs (session_store st)
    /\ (own_operations cs <= length vs)%nat /\ (length cs <= 2 * length vs)%nat.
Proof.
  change (session_store st) with (session_store (limiter, st).2). generalize (limiter, st) as ls. clear limiter st.
  induction vs as [|v vs IH]; intros ls; [by exists []|]. cbn [serve_visits fold_left].
  destruct (visited_store v ls) as (cs & Ecs & Hcs & Ho). destruct (IH (visited ls v)) as (ds & Eds & Hds & Hl).
  exists (cs ++ ds). rewrite run_app, <- Ecs, own_operations_app, length_app. cbn [length]. split_and!; [exact Eds|lia..].
Qed.

(** C40: what the server writes is what a client reads: whatever bytes a connection brings and
    whatever state it finds, the reply it gets (a refusal of the request, of its rate or of
    the governor, a page, a report, the outcome of an action, an answer of the MCP endpoint or
    a failure) is written, never refused for one of its fields, and read back with its
    status, exactly the fields it was written with, in their order and less the white space
    around their values, and exactly its body:
    nothing a request or a session puts into a reply can add a field to it or move the start
    of its body. *)
Theorem connection_replies_read_back peer now decision o r limiter st reply :
  governed decision ->
  sent (handle_connection peer now decision o r limiter st) = Some reply -> (str_len (reply_body reply) <= USIZE_MAX)%N ->
  exists text code reason, write_response_with_headers reply = Ok text /\ reply_status reply = N_to_string code +:+ " " +:+ reason
    /\ parse_response text = Ok (response_of reply code)
    /\ body_bytes (response_of reply code) = Returns (Ok (bytes (reply_body reply))).
Proof. intros Hg Hs Hb. apply framed_read_back; [|exact Hb]. by eapply sent_framed. Qed.

End routes.

(** ** Witnesses *)

#[export] Instance sample_readings : Readings (H := sample_commands) := {|
  take_cached reading w := (w, Ok (json_object [("ok", json_bool true)], mkCacheMetadata false true false 0 None None));
  take_reading reading w := (w, Ok (json_object [("ok", json_bool true)]));
  runtime_report taken w := (w, json_object [("sessionCount", json_number (snap_session_count taken))])
|}.

Definition sample_occasion : Occasion := mkOccasion true true 50 51 no_random.

Definition sample_state : DashboardState (H := sample_commands) := mkState (H := sample_commands) (store_new 4 500) [].

Definition sample_action_text : list ascii :=
  bytes "POST /api/actions/hub-up HTTP/1.1" ++ crlf ++ bytes "Host: localhost:7331" ++ crlf ++ bytes "Authorization: Bearer secret" ++ crlf ++ crlf.

Lemma nothing_happens_unadmitted_witness :
  exists request,
    received (receive_request (H := TreeCodec.codec) sample_order (mkDashboardConfig (Some "secret") 16) "127.0.0.1" 50 GovernorAdmitted
                (mkReader sample_action_text [] []) (limiter_new 1000 3)) = Ok request
    /\ is_authorized_http_request (Some "secret") request = true.
Proof.
  destruct (nothing_happens_unadmitted (H := TreeCodec.codec) (H0 := sample_backend) (H1 := sample_commands) (fun _ => None) (fun _ => EmptyString)
              sample_iteration Dashboard ("/mcp", "/healthz") (Some "secret") sample_order 16 "127.0.0.1" 50 GovernorAdmitted sample_occasion
              (mkReader sample_action_text [] []) (limiter_new 1000 3) sample_state) as (request & Hr & _ & Ha & _).
  - right. vm_compute. discriminate.
  - exists request. split; [exact Hr|exact Ha].
Defined.

(** An initialization, whose reply carries the generated session id and the version. *)
Definition sample_initialize_text : list ascii :=
  let body := bytes (to_compact_string (H := TreeCodec.codec) (json_object
    [("jsonrpc", json_string "2.0"); ("id", json_string "a"); ("method", json_string "initialize");
     ("params", json_object [("protocolVersion", json_string "2025-06-18")])])) in
  bytes "POST /mcp HTTP/1.1" ++ crlf ++ bytes "Host: localhost:7331" ++ crlf ++ bytes "Authorization: Bearer secret" ++ crlf
  ++ bytes "Accept: application/json, text/event-stream" ++ crlf ++ bytes "Content-Type: application/json" ++ crlf
  ++ bytes "Content-Length: " ++ bytes (N_to_string (len_N body)) ++ crlf ++ crlf ++ body.

Definition sample_random (n : N) : result (list ascii) string := Ok (repeat "z"%char (N.to_nat n)).

Definition sample_initialization : Connection (H1 := sample_commands) :=
  handle_connection (H := TreeCodec.codec) (H0 := sample_backend) (H1 := sample_commands) (fun _ => None) (fun _ => EmptyString)
    sample_iteration Dashboard ("/mcp", "/healthz") (Some "secret") sample_order 100000 "127.0.0.1" 50 GovernorAdmitted
    (mkOccasion true true 50 51 sample_random) (mkReader sample_initialize_text [] []) (limiter_new 1000 3) sample_state.

Lemma connection_replies_read_back_witness :
  exists reply text code, sent sample_initialization = Some reply
    /\ map fst (extra_headers reply) = ["Mcp-Session-Id"; "MCP-Protocol-Version"]
    /\ write_response_with_headers reply = Ok text /\ parse_response text = Ok (response_of reply code).
Proof.
  destruct (sent sample_initialization) as [reply|] eqn:Es; [|vm_compute in Es; discriminate Es].
  destruct (connection_replies_read_back (H := TreeCodec.codec) (H0 := sample_backend) (H1 := sample_commands) (fun _ => None)
              (fun _ => EmptyString) sample_iteration Dashboard ("/mcp", "/healthz") (Some "secret") sample_order 100000
              "127.0.0.1" 50 GovernorAdmitted (mkOccasion true true 50 51 sample_random) (mkReader sample_initialize_text [] [])
              (limiter_new 1000 3) sample_state reply) as (text & code & reason & Hw & Hs & Hp & _).
  - left. reflexivity.
  - exact Es.
  - vm_compute in Es. injection Es as <-. vm_compute. discriminate.
  - exists reply, text, code. split; [reflexivity|]. split; [|split; [exact Hw|exact Hp] ]. vm_compute in Es. injection Es as <-. reflexivity.
Defined.
