(* ===== verification/ClientPaths.v ===== *)
(** * Paths and keys of clients (src/client/pathing.rs)

    Paths as clients name them (in either separator, or as file URIs), their lexical keys,
    the test that a path lies within a root, transports, and the keys and the hash built
    from free text. *)

From Stdlib Require Import Ascii.
From S2P Require Import Prelude RustStr BTree Json TextUtils Execution ProxyUri.

(** ** Text helpers *)

Definition take_str (n : nat) (s : string) : string := of_bytes (firstn n (bytes s)).
Definition drop_str (n : nat) (s : string) : string := of_bytes (skipn n (bytes s)).

(** [trim_start_matches('/')]. *)
Definition trim_start_slashes (s : string) : string := of_bytes (trim_start_char "/" (bytes s)).

Definition backslash : ascii := "092".

Definition normalize_transport (value : string) : string :=
  let normalized := normalize_flag value in
  if String.eqb normalized "http" || String.eqb normalized "streamable-http" || String.eqb normalized "streamable_http"
  then "streamable-http"
  else if String.eqb normalized "stdio" || String.eqb normalized "local-stdio" then "stdio"
  else if String.eqb normalized "sse" then "sse"
  else if str_is_empty normalized then "stdio"
  else normalized.

(** ** File URIs *)

Definition hex_value (byte : ascii) : option N :=
  if in_range 48 57 byte then Some (code byte - 48)%N
  else if in_range 97 102 byte then Some (code byte - 97 + 10)%N
  else if in_range 65 70 byte then Some (code byte - 65 + 10)%N
  else None.

Fixpoint percent_bytes (l : list ascii) : list ascii :=
  match l with
  | [] => []
  | byte :: rest =>
      match rest with
      | h :: g :: after =>
          if Ascii.eqb byte "%" then
            match hex_value h, hex_value g with
            | Some hi, Some lo => ascii_of_N (hi * 16 + lo) :: percent_bytes after
            | _, _ => byte :: percent_bytes rest
            end
          else byte :: percent_bytes rest
      | _ => byte :: percent_bytes rest
      end
  end.

Definition percent_decode (value : string) : string := from_utf8_lossy (percent_bytes (bytes value)).

Definition trim_uri_suffix (value : string) : string :=
  let query_index := String.index 0 "?" value in
  let fragment_index := String.index 0 "#" value in
  let cutoff :=
    match query_index, fragment_index with
    | Some query, Some fragment => Some (Nat.min query fragment)
    | Some index, None | None, Some index => Some index
    | None, None => None
    end in
  match cutoff with Some index => take_str index value | None => value end.

(** A drive letter with its colon, at the front. *)
Definition drive_front (l : list ascii) : bool :=
  match l with
  | letter :: colon :: _ => Ascii.eqb colon ":" && is_ascii_alphabetic letter
  | _ => false
  end.

Definition decode_file_uri (value : string) : option string :=
  if negb (starts_with "file://" (to_ascii_lowercase value)) then None
  else
    let rest := trim_uri_suffix (drop_str 7 value) in
    let local :=
      if starts_with "localhost/" (to_ascii_lowercase rest) then Some (drop_str 9 rest)
      else if negb (starts_with "/" rest) then None
      else Some rest in
    option_map (fun rest =>
      let decoded := percent_decode rest in
      match bytes decoded with
      | slash :: drive => if Ascii.eqb slash "/" && drive_front drive then of_bytes drive else decoded
      | [] => decoded
      end) local.

Definition normalize_path (value : string) : string :=
  let trimmed := trim value in
  if str_is_empty trimmed then EmptyString
  else
    let normalized := replace_char backslash "/" trimmed in
    unwrap_or (decode_file_uri normalized) normalized.

(** ** Lexical keys *)

(** The prefix of a path and what follows it. *)
Definition split_root (rest : string) : string * string :=
  if starts_with "//" rest then ("//", drop_str 2 rest)
  else if drive_front (bytes rest) then (take_str 2 rest, trim_start_slashes (drop_str 2 rest))
  else if starts_with "/" rest then ("/", trim_start_slashes rest)
  else (EmptyString, rest).

(** One round of the loop; the parts are kept with the last one first. *)
Definition push_part (prefix : string) (parts : list string) (part : string) : list string :=
  if str_is_empty part || String.eqb part "." then parts
  else if String.eqb part ".." then
    match parts with
    | last :: front =>
        if negb (String.eqb last "..") then front
        else if str_is_empty prefix then part :: parts else parts
    | [] => if str_is_empty prefix then [part] else []
    end
  else part :: parts.

Definition lexical_parts (prefix rest : string) : list string :=
  rev (fold_left (push_part prefix) (split_char "/" rest) []).

Definition render_path (prefix : string) (parts : list string) : string :=
  if String.eqb prefix "/" then
    match parts with [] => "/" | _ => "/" +:+ join "/" parts end
  else if String.eqb prefix "//" then
    match parts with [] => "//" | _ => "//" +:+ join "/" parts end
  else if str_is_empty prefix then join "/" parts
  else match parts with [] => prefix | _ => prefix +:+ "/" +:+ join "/" parts end.

Definition lexical_path_key (value : string) : string :=
  let rest := trim (normalize_path value) in
  if str_is_empty rest then EmptyString
  else
    let '(prefix, rest) := split_root rest in
    render_path prefix (lexical_parts prefix rest).

Definition looks_like_windows_path (value : string) : bool := drive_front (bytes value) || starts_with "//" value.

Definition path_compare_key (value : string) : string :=
  let normalized := lexical_path_key value in
  if looks_like_windows_path normalized then to_ascii_lowercase normalized else normalized.

Definition path_is_within (path root : string) : bool :=
  let path_key := path_compare_key path in
  let root_key := path_compare_key root in
  if str_is_empty root_key then false
  else String.eqb path_key root_key || starts_with (root_key +:+ "/") path_key.

(** ** Keys and hashes *)

Definition key_char (ch : ascii) : ascii :=
  if is_ascii_alphanumeric ch || existsb (Ascii.eqb ch) ["/"; "-"; "_"; "."; ":"]%char then ch else "_"%char.

Definition sanitize_key (value : string) : string := map_chars key_char "_" (normalize_path value).

(** The 64-bit FNV-1a hash, in hexadecimal. *)
Definition hash_step (hash : N) (byte : ascii) : N := wrapping_mul64 (N.lxor hash (code byte)) 0x100000001b3.

Definition stable_hash (input : string) : N := fold_left hash_step (bytes input) 0xcbf29ce484222325%N.

Definition stable_hash_hex (input : string) : string := hex16 (stable_hash input).

(** ** Lemmas: components *)

Definition components (key : string) : list string := split_char "/" key.

(** The test on the keys is the test on their components. *)
Lemma within_components key root :
  String.eqb key root || starts_with (root +:+ "/") key = true <-> components root `prefix_of` components key.
Proof.
  unfold components. rewrite orb_true_iff. split.
  - intros [E|E]; [apply String.eqb_eq in E as ->; done|].
    assert (Hs : exists t, key = (root +:+ "/") +:+ t).
    { revert E. unfold starts_with. generalize (root +:+ "/"). intros p. revert key.
      induction p as [|a p IH]; intros key E; [by exists key|]. destruct key as [|b key]; [done|]. cbn in E.
      destruct (ascii_dec a b) as [<-|]; [|done]. destruct (IH _ E) as [t ->]. by exists t. }
    destruct Hs as [t ->]. rewrite append_assoc_str. change ("/" +:+ t) with (String "/" t). rewrite split_char_app. by eexists.
  - intros [rest E]. assert (Hk := join_split_char "/" key). rewrite E in Hk. assert (Hr := join_split_char "/" root).
    destruct (split_char "/" root) as [|x l] eqn:Er; [by apply split_char_nonempty in Er|]. destruct rest as [|y rest].
    + left. rewrite app_nil_r in Hk. rewrite <- Hk, <- Hr. apply String.eqb_refl.
    + right. rewrite join_app_parts, Hr in Hk. rewrite <- Hk, <- append_assoc_str. apply starts_with_app.
Qed.

(** ** Lemmas: resolved parts *)

(** A component that names something below. *)
Definition plain_part (part : string) : Prop :=
  part <> EmptyString /\ part <> "." /\ part <> ".." /\ contains_char "/" part = false.

(** Steps up come first, and only when there is no prefix to stop them. *)
Definition resolved (prefix : string) (parts : list string) : Prop :=
  exists k below, parts = replicate k ".." ++ below /\ Forall plain_part below /\ (prefix <> EmptyString -> k = 0%nat).

Lemma push_part_resolved prefix parts part :
  contains_char "/" part = false -> resolved prefix (rev parts) -> resolved prefix (rev (push_part prefix parts part)).
Proof.
  intros Hc (k & below & E & Hb & Hk). unfold push_part.
  destruct (str_is_empty part) eqn:E0; [by exists k, below|]. cbn [orb].
  destruct (String.eqb_spec part ".") as [->|H1]; [by exists k, below|]. apply str_is_empty_false in E0.
  destruct (String.eqb_spec part "..") as [->|H2].
  - assert (Hup : below = [] -> resolved prefix (rev (if str_is_empty prefix then ".." :: parts else parts))).
    { intros ->. rewrite app_nil_r in E. destruct (str_is_empty prefix) eqn:Ep.
      - apply str_is_empty_true in Ep. exists (S k), []. cbn [rev]. rewrite E, <- replicate_cons_app, app_nil_r. done.
      - exists k, []. rewrite app_nil_r. by apply str_is_empty_false in Ep. }
    destruct parts as [|last front].
    + cbn in E. symmetry in E. apply app_nil in E as [_ ->]. specialize (Hup eq_refl). by destruct (str_is_empty prefix).
    + cbn [rev] in E. destruct (String.eqb_spec last "..") as [->|Hl]; cbn [negb].
      * apply Hup. destruct below as [|b below _] using rev_ind; [done|]. rewrite app_assoc in E.
        apply app_inj_tail in E as [_ <-]. apply Forall_app in Hb as [_ Hb]. apply Forall_cons in Hb as [ (_ & _ & Hb & _) _]. done.
      * destruct below as [|b below _] using rev_ind.
        { rewrite app_nil_r in E. assert (Hin : last ∈ replicate k "..") by (rewrite <- E; set_solver). by apply elem_of_replicate_inv in Hin. }
        rewrite app_assoc in E. apply app_inj_tail in E as [E ->]. exists k, below. by apply Forall_app in Hb as [Hb _].
  - exists k, (below ++ [part]). cbn [rev]. rewrite E, app_assoc. split; [done|]. split; [|done]. apply Forall_app. split; [done|].
    by repeat constructor.
Qed.

Lemma lexical_parts_resolved prefix rest : resolved prefix (lexical_parts prefix rest).
Proof.
  unfold lexical_parts. pose proof (split_char_free "/" rest) as Hf. revert Hf. generalize (split_char "/" rest). intros l Hl.
  assert (H0 : resolved prefix (rev [])) by (exists 0%nat, []; done). revert H0. generalize (@nil string).
  induction l as [|part l IH]; intros parts H0; [done|]. apply Forall_cons in Hl as [Hp Hl]. cbn [fold_left].
  apply IH; [done|]. by apply push_part_resolved.
Qed.

(** ** Lemmas: keys *)

Lemma resolved_slash_free prefix parts : resolved prefix parts -> Forall (fun s => contains_char "/" s = false) parts.
Proof.
  intros (k & below & -> & Hb & _). apply Forall_app. split; [by apply Forall_replicate|].
  eapply Forall_impl; [exact Hb|]. by intros part (_ & _ & _ & H).
Qed.

(** The components a prefix stands for. *)
Definition front (prefix : string) : list string :=
  if String.eqb prefix "/" then [EmptyString] else if String.eqb prefix "//" then [EmptyString; EmptyString]
  else if str_is_empty prefix then [] else [prefix].

Lemma join_components parts :
  parts <> [] -> Forall (fun s => contains_char "/" s = false) parts -> components (join "/" parts) = parts.
Proof. destruct parts as [|x l]; [done|]. intros _. apply split_char_join. Qed.

Lemma render_components prefix parts :
  contains_char "/" prefix = false \/ prefix = "/" \/ prefix = "//" ->
  Forall (fun s => contains_char "/" s = false) parts -> parts <> [] ->
  components (render_path prefix parts) = front prefix ++ parts.
Proof.
  intros Hp Hs Hn. unfold render_path, front.
  assert (Hj := join_components parts Hn Hs). unfold components in *.
  destruct (String.eqb_spec prefix "/") as [->|].
  { destruct parts; [done|]. change ("/" +:+ ?s) with (EmptyString +:+ String "/" s). rewrite split_char_app, Hj. done. }
  destruct (String.eqb_spec prefix "//") as [->|].
  { destruct parts; [done|]. change ("//" +:+ ?s) with ("/" +:+ String "/" s). rewrite split_char_app, Hj. done. }
  destruct (str_is_empty prefix) eqn:E; [exact Hj|]. destruct parts; [done|].
  change ("/" +:+ ?s) with (String "/" s). rewrite split_char_app, Hj.
  destruct Hp as [Hp|[Hp|Hp] ]; [|congruence..]. by rewrite split_char_plain.
Qed.

Lemma split_root_prefix rest :
  contains_char "/" (split_root rest).1 = false /\ (split_root rest).1 <> ".." \/ (split_root rest).1 = "/" \/ (split_root rest).1 = "//".
Proof.
  unfold split_root. destruct (starts_with "//" rest); [by right; right|].
  destruct (drive_front (bytes rest)) eqn:E.
  - left. destruct rest as [|a [|b rest] ]; [done..|]. cbn in E. apply andb_true_iff in E as [Eb Ea].
    apply Ascii.eqb_eq in Eb as ->. change (take_str 2 (String a (String ":" rest))) with (String a ":"). cbn [fst].
    split; [|intros [=]; by subst]. rewrite contains_char_cons, orb_false_iff. split; [|done].
    apply Ascii.eqb_neq. by intros <-.
  - destruct (starts_with "/" rest); [by right; left|by left].
Qed.

(** A key that does not begin with a step up has none at all. *)
Lemma key_steps_up v :
  head (components (lexical_path_key v)) <> Some ".." -> ".." ∉ components (lexical_path_key v).
Proof.
  unfold lexical_path_key. destruct (str_is_empty _); [by intros _ H%list_elem_of_singleton|].
  destruct (split_root _) as [prefix rest] eqn:Es. pose proof (split_root_prefix (trim (normalize_path v))) as Hp. rewrite Es in Hp. cbn [fst] in Hp.
  pose proof (lexical_parts_resolved prefix rest) as Hr. pose proof (resolved_slash_free _ _ Hr) as Hs.
  assert (Hf : ".." ∉ front prefix).
  { unfold front. repeat case_stuck; rewrite ?list_elem_of_cons, ?list_elem_of_singleton; set_solver. }
  destruct (decide (lexical_parts prefix rest = [])) as [Hn|Hn].
  - rewrite Hn. intros _. unfold render_path. destruct (String.eqb_spec prefix "/") as [->|]; [set_solver|].
    destruct (String.eqb_spec prefix "//") as [->|]; [set_solver|]. destruct (str_is_empty prefix); [set_solver|].
    destruct Hp as [ [Hp Hne]|[Hp|Hp] ]; [|congruence..]. unfold components. rewrite split_char_plain by done. set_solver.
  - rewrite render_components; [|tauto|done|done]. destruct Hr as (k & below & E & Hb & Hk). rewrite E.
    destruct (decide (prefix = EmptyString)) as [->|Hne].
    + destruct k as [|k]; [|done]. intros _ Hin. cbn in Hin. rewrite Forall_forall in Hb. by destruct (Hb _ Hin) as (_ & _ & H & _).
    + rewrite (Hk Hne). intros _ [Hin|Hin]%elem_of_app; [done|]. rewrite Forall_forall in Hb. by destruct (Hb _ Hin) as (_ & _ & H & _).
Qed.

Lemma components_lower s : components (to_ascii_lowercase s) = map to_ascii_lowercase (components s).
Proof.
  unfold components. induction s as [|a s IH]; [done|].
  change (to_ascii_lowercase (String a s)) with (String (ascii_lower a) (to_ascii_lowercase s)). cbn [split_char].
  assert (E : Ascii.eqb (ascii_lower a) "/" = Ascii.eqb a "/") by by destruct a as [ [] [] [] [] [] [] [] []].
  rewrite E, IH. destruct (Ascii.eqb a "/"); [done|]. by destruct (split_char "/" s).
Qed.

Lemma lower_dots s : to_ascii_lowercase s = ".." -> s = "..".
Proof.
  destruct s as [|a [|b [|] ] ]; try done. intros [= Ha Hb].
  assert (H : forall c, ascii_lower c = "."%char -> c = "."%char) by (intros c; by destruct c as [ [] [] [] [] [] [] [] []]).
  by rewrite (H a Ha), (H b Hb).
Qed.

Lemma compare_key_steps_up v :
  head (components (path_compare_key v)) <> Some ".." -> ".." ∉ components (path_compare_key v).
Proof.
  unfold path_compare_key. destruct (looks_like_windows_path _); [|apply key_steps_up]. rewrite components_lower.
  intros Hh Hin. apply list_elem_of_fmap in Hin as (s & Es & Hin). symmetry in Es. apply lower_dots in Es as ->.
  revert Hin. apply key_steps_up. by destruct (components (lexical_path_key v)) as [|x l]; [|intros [= ->] ].
Qed.

(** ** Lemmas: keys from text *)

(** The characters of a key. *)
Definition key_safe (c : ascii) : bool := is_ascii_alphanumeric c || existsb (Ascii.eqb c) ["/"; "-"; "_"; "."; ":"]%char.

Lemma key_char_safe c : key_safe (key_char c) = true.
Proof. by destruct c as [ [] [] [] [] [] [] [] []]. Qed.

Lemma key_char_fixed c : key_safe c = true -> key_char c = c.
Proof. unfold key_char, key_safe. by intros ->. Qed.

Lemma key_safe_visible c : key_safe c = true -> visible c && negb (Ascii.eqb c backslash) = true.
Proof. destruct c as [ [] [] [] [] [] [] [] []]; vm_compute; congruence. Qed.

Lemma sanitize_key_safe value : all_bytes key_safe (sanitize_key value) = true.
Proof.
  unfold sanitize_key, map_chars, all_bytes. rewrite bytes_of_bytes. induction (bytes (normalize_path value)) as [|c l IH]; [done|].
  cbn [map_char_bytes flat_map]. rewrite forallb_app. change (flat_map _ l) with (map_char_bytes key_char "_" l). rewrite IH, andb_true_r.
  destruct (code c <? 128)%N; [cbn [forallb]; by rewrite key_char_safe|]. by destruct (in_range 128 191 c).
Qed.

Lemma key_free c s : key_safe c = false -> all_bytes key_safe s = true -> contains_char c s = false.
Proof.
  unfold all_bytes, contains_char. intros Hc. induction (bytes s) as [|a l IH]; [done|]. cbn [forallb existsb].
  intros [Ha Hl]%andb_true_iff. rewrite (IH Hl), orb_false_r. destruct (Ascii.eqb_spec c a) as [->|]; [congruence|done].
Qed.

Lemma map_bytes_app f s t : map_bytes f (s +:+ t) = map_bytes f s +:+ map_bytes f t.
Proof. apply bytes_inj. unfold map_bytes. by rewrite !bytes_app, !bytes_of_bytes, map_app. Qed.

Lemma map_bytes_safe s : all_bytes key_safe s = true -> map_bytes key_char s = s.
Proof.
  intros Hs. apply bytes_inj. unfold map_bytes, all_bytes in *. rewrite bytes_of_bytes.
  induction (bytes s) as [|c l IH]; [done|]. cbn [forallb] in Hs. apply andb_true_iff in Hs as [Hc Hl]. cbn [map].
  by rewrite (IH Hl), key_char_fixed.
Qed.

(** Visible text that is no file URI is sanitized character by character. *)
Lemma sanitize_visible s :
  all_bytes (fun c => visible c && negb (Ascii.eqb c backslash)) s = true -> starts_with "file://" (to_ascii_lowercase s) = false ->
  sanitize_key s = map_bytes key_char s.
Proof.
  intros Hs Hf. assert (Hv : all_bytes visible s = true) by (eapply all_bytes_impl; [|exact Hs]; intros c; by intros [? _]%andb_true_iff).
  assert (Hr : replace_char backslash "/" s = s).
  { unfold replace_char, map_bytes. rewrite <- (of_bytes_bytes s) at 2. f_equal. unfold all_bytes in Hs. induction (bytes s) as [|c l IH]; [done|].
    cbn [forallb] in Hs. apply andb_true_iff in Hs as [ [_ Hc]%andb_true_iff Hl]. cbn [map]. apply negb_true_iff in Hc. by rewrite Hc, (IH Hl). }
  assert (Hn : normalize_path s = s).
  { unfold normalize_path. rewrite (trim_visible_text s Hv). destruct (str_is_empty s) eqn:E; [by apply str_is_empty_true in E as ->|].
    unfold decode_file_uri. rewrite Hr, Hf. done. }
  unfold sanitize_key, map_chars, map_bytes. rewrite Hn. f_equal. unfold all_bytes in Hv. induction (bytes s) as [|c l IH]; [done|].
  cbn [forallb] in Hv. apply andb_true_iff in Hv as [Hc Hl]. cbn [map_char_bytes flat_map map]. change (flat_map _ l) with (map_char_bytes key_char "_" l).
  rewrite (IH Hl). unfold visible, in_range in Hc. apply andb_true_iff in Hc as [_ Hc]. apply N.leb_le in Hc.
  by rewrite (proj2 (N.ltb_lt (code c) 128)) by lia.
Qed.

(** ** Claims *)

(** C33: a path lies within a root exactly when the root's key is not empty and its components
    begin those of the path's key; and then, unless the root's key itself begins with a step
    up, no component of the path's key steps up: however the path is written, it does not
    leave the root.  (A root that begins with a step up contains what lies above it,
    [step_up_contains_what_is_above].) *)
Theorem contained_paths_stay_inside path root :
  (path_is_within path root = true
   <-> path_compare_key root <> EmptyString
       /\ components (path_compare_key root) `prefix_of` components (path_compare_key path))
  /\ (path_is_within path root = true -> head (components (path_compare_key root)) <> Some ".." ->
      ".." ∉ components (path_compare_key path)).
Proof.
  assert (H : path_is_within path root = true
    <-> path_compare_key root <> EmptyString /\ components (path_compare_key root) `prefix_of` components (path_compare_key path)).
  { unfold path_is_within. rewrite <- within_components. destruct (str_is_empty (path_compare_key root)) eqn:E.
    - apply str_is_empty_true in E. rewrite E. by split; [|intros [? _] ].
    - apply str_is_empty_false in E. tauto. }
  split; [exact H|]. intros [Hne [rest Hrest] ]%H Hroot. apply compare_key_steps_up. rewrite Hrest.
  pose proof (split_char_nonempty "/" (path_compare_key root)) as Hn. unfold components in *. by destruct (split_char "/" _).
Qed.

(** ** What the code does not mean to do *)

(** The root directory contains nothing but itself, and what begins with two slashes. *)
Lemma root_directory_contains_nothing : path_is_within "/work/project" "/" = false /\ path_is_within "//host/share" "/" = true.
Proof. vm_compute. done. Qed.

(** A root that is a step up contains what lies above it. *)
Lemma step_up_contains_what_is_above : path_is_within "../../x" ".." = true.
Proof. by vm_compute. Qed.

(** ** Witnesses *)

Lemma contained_paths_stay_inside_witness :
  path_is_within "file:///C:/Work/./src/../lib" "c:\work" = true
  /\ ".." ∉ components (path_compare_key "file:///C:/Work/./src/../lib").
Proof.
  assert (H : path_is_within "file:///C:/Work/./src/../lib" "c:\work" = true) by by vm_compute.
  split; [exact H|]. apply (proj2 (contained_paths_stay_inside "file:///C:/Work/./src/../lib" "c:\work")); [exact H|].
  vm_compute. discriminate.
Defined.
