(* ===== verification/ClientContext.v ===== *)
(** * The context of a client (src/client/metadata.rs, src/client/context.rs)

    Who asks and from where: the identities, workspace roots and transport that the flags,
    the environment and the client's metadata name, the project root chosen among them, and
    the session lease derived when no session is named. *)

From Stdlib Require Import Ascii.
From S2P Require Import Prelude RustStr BTree Json TextUtils Execution ClientPaths.

(** ** Requests and metadata *)

(** The arguments of a plan (src/client.rs: RuntimePlanRequest). *)
Record PlanRequest := mkPlanRequest {
  pr_client_id : option string;
  pr_session_id : option string;
  pr_project_root : option string;
  pr_transport : option string;
  pr_metadata_json : option string
}.

Record MetadataEnvelope := mkEnvelope {
  me_client_id : option string;
  me_session_id : option string;
  me_conversation_id : option string;
  me_client_instance_id : option string;
  me_transport_session_id : option string;
  me_credential_profile_id : option string;
  me_workspace_roots : list string;
  me_cwd : option string;
  me_transport : option string
}.

Definition empty_envelope : MetadataEnvelope := mkEnvelope None None None None None None [] None None.

Section metadata.
Context `{SerdeJson}.
Context (environment : string -> option string).

Definition get_list (json : JsonValue) (key : string) : list JsonValue :=
  match json_get json key with Some value => [value] | None => [] end.

Definition metadata_documents (json : JsonValue) : list JsonValue :=
  [json] ++ get_list json "params"
  ++ match json_get json "payload" with
     | Some payload => [payload] ++ get_list payload "params"
     | None => []
     end.

Definition metadata_context_hints (documents : list JsonValue) : list JsonValue :=
  flat_map (fun document =>
    match json_get document "_meta" with
    | None => []
    | Some meta =>
        match json_get meta "com.mcpace/context" with
        | Some hint => [hint]
        | None =>
            match json_get meta "com.mcpace.context" with
            | Some hint => [hint]
            | None => get_list meta "mcpaceContext"
            end
        end
    end) documents.

Definition first_string_at_any_path (documents : list JsonValue) (paths : list (list string)) : option string :=
  find_map (fun document => find_map (fun path => trimmed (string_at_path document path)) paths) documents.

Definition root_string (entry : JsonValue) : option string :=
  match entry with
  | JString text => Some text
  | JObject _ =>
      opt_or (json_get entry "uri" ≫= as_str) (opt_or (json_get entry "path" ≫= as_str) (json_get entry "root" ≫= as_str))
  | _ => None
  end.

Definition root_strings_from_entries (value : option (list JsonValue)) : list string :=
  List.filter (fun value => negb (str_is_empty value)) (map normalize_path (omap root_string (unwrap_or value []))).

Definition document_roots (document : JsonValue) : list string :=
  root_strings_from_entries (json_get document "workspaceRoots" ≫= as_array)
  ++ root_strings_from_entries (array_at_path document ["workspace"; "roots"])
  ++ root_strings_from_entries (json_get document "workspaces" ≫= as_array)
  ++ root_strings_from_entries (json_get document "roots" ≫= as_array)
  ++ root_strings_from_entries (array_at_path document ["result"; "roots"]).

Definition hint_roots (hint : JsonValue) : list string :=
  root_strings_from_entries (json_get hint "workspaceRoots" ≫= as_array)
  ++ root_strings_from_entries (json_get hint "workspaceRootsFallback" ≫= as_array).

(** The ordered set of the roots. *)
Definition metadata_workspace_roots (documents context_hints : list JsonValue) : list string :=
  sort_dedup (List.filter (fun root => negb (str_is_empty root)) (flat_map document_roots documents ++ flat_map hint_roots context_hints)).

Definition envelope_of (json : JsonValue) : MetadataEnvelope :=
  let documents := metadata_documents json in
  let hints := metadata_context_hints documents in
  let either paths hint_paths := opt_or (first_string_at_any_path documents paths) (first_string_at_any_path hints hint_paths) in
  {| me_client_id := either [["client"; "id"]; ["clientId"]; ["clientInfo"; "name"]] [["clientProfileId"]; ["clientId"]];
     me_session_id := either [["session"; "id"]; ["sessionId"]; ["externalSessionId"]] [["sessionId"]; ["externalSessionId"]];
     me_conversation_id := either [["conversation"; "id"]; ["conversationId"]; ["chatId"]] [["conversationId"]];
     me_client_instance_id := either [["clientInstanceId"]; ["workspace"; "id"]; ["windowId"]] [["clientInstanceId"]];
     me_transport_session_id :=
       either [["transportSessionId"]; ["mcpSessionId"]; ["headers"; "Mcp-Session-Id"]; ["headers"; "mcp-session-id"]]
         [["transportSessionId"]; ["mcpSessionId"]];
     me_credential_profile_id :=
       either [["credentialProfileId"]; ["credential"; "profileId"]; ["auth"; "profileId"]]
         [["credentialProfileId"]; ["credential"; "profileId"]];
     me_workspace_roots := metadata_workspace_roots documents hints;
     me_cwd := option_map normalize_path (either [["cwd"]; ["workingDirectory"]] [["cwd"]]);
     me_transport := option_map normalize_transport (either [["transport"]; ["ingress"]; ["transportPreference"]] [["transport"]; ["ingress"]]) |}.

Definition load_metadata (request : PlanRequest) : result MetadataEnvelope string :=
  let raw := unwrap_or (opt_or (pr_metadata_json request) (environment "MCPACE_CLIENT_METADATA_JSON")) EmptyString in
  if str_is_empty (trim raw) then Ok empty_envelope
  else
    json ←? map_err (fun error => "failed to parse client metadata JSON: " +:+ error) (parse_str raw) ;;
    Ok (envelope_of json).

(** ** Resolution *)

Record ResolvedContext := mkContext {
  rc_client_id : string;
  rc_client_id_source : string;
  rc_session_id : option string;
  rc_session_id_source : string;
  rc_session_lease_id : string;
  rc_session_lease_source : string;
  rc_conversation_id : option string;
  rc_conversation_id_source : string;
  rc_client_instance_id : option string;
  rc_client_instance_id_source : string;
  rc_transport_session_id : option string;
  rc_transport_session_id_source : string;
  rc_credential_profile_id : option string;
  rc_credential_profile_id_source : string;
  rc_project_root : option string;
  rc_project_root_source : string;
  rc_workspace_roots : list string;
  rc_cwd : option string;
  rc_cwd_source : string;
  rc_preferred_ingress : string;
  rc_preferred_ingress_source : string;
  rc_warnings : list string
}.

Definition clean_optional_string (value : option string) : option string := trimmed value.

(** The first candidate that is not blank; otherwise the source of the last one. *)
Fixpoint resolve_string (candidates : list (option string * string)) : option string * string :=
  match candidates with
  | [] => (None, EmptyString)
  | (candidate, source) :: rest =>
      match clean_optional_string candidate with
      | Some value => (Some value, source)
      | None => match rest with [] => (None, source) | _ => resolve_string rest end
      end
  end.

Definition best_matching_root (roots : list string) (cwd : string) : option string :=
  fold_left (fun best root =>
    if path_is_within cwd root then
      match best with
      | Some current => if (str_len root <=? str_len current)%N then best else Some root
      | None => Some root
      end
    else best) roots None.

(** The project root, its source and the warnings about it. *)
Definition resolve_project_root (request : PlanRequest) (metadata : MetadataEnvelope) (cwd : option string)
    : option string * string * list string :=
  match clean_optional_string (option_map normalize_path (pr_project_root request)) with
  | Some value => (Some value, "flag", [])
  | None =>
      match clean_optional_string (option_map normalize_path (environment "MCPACE_PROJECT_ROOT")) with
      | Some value => (Some value, "env", [])
      | None =>
          match me_workspace_roots metadata with
          | [root] => (Some root, "metadata-single-root", [])
          | _ :: _ :: _ =>
              match cwd with
              | Some cwd =>
                  match best_matching_root (me_workspace_roots metadata) cwd with
                  | Some best => (Some best, "metadata-roots+cwd", [])
                  | None =>
                      (None, "ambiguous-workspace-roots",
                       [N_to_string (len_N (me_workspace_roots metadata)) +:+ " workspace roots were provided, but cwd '" +:+ cwd
                        +:+ "' did not match any of them."])
                  end
              | None => (None, "ambiguous-workspace-roots", [])
              end
          | [] =>
              match cwd with
              | Some cwd => (Some cwd, "metadata-cwd", [])
              | None => (None, "unresolved", [])
              end
          end
      end
  end.

Record SessionLeaseInput := mkLeaseInput {
  li_client_id : string;
  li_session_id : option string;
  li_conversation_id : option string;
  li_client_instance_id : option string;
  li_transport_session_id : option string;
  li_project_root : option string;
  li_cwd : option string;
  li_preferred_ingress : string
}.

Definition extend_seed (seed : list string) (key : string) (value : option string) : list string :=
  match clean_optional_string value with
  | Some value => seed ++ [key +:+ ":" +:+ sanitize_key value]
  | None => seed
  end.

(** What a session without a name is recognised by. *)
Definition seed_of (input : SessionLeaseInput) : list (string * option string) :=
  [("client", Some (li_client_id input)); ("conversation", li_conversation_id input);
   ("client-instance", li_client_instance_id input); ("transport-session", li_transport_session_id input);
   ("project-root", li_project_root input); ("cwd", li_cwd input); ("ingress", Some (li_preferred_ingress input))].

Definition seed_text (input : SessionLeaseInput) : string :=
  let seed := fold_left (fun seed entry => extend_seed seed entry.1 entry.2) (seed_of input) [] in
  join "|" match seed with [] => ["anonymous"] | _ => seed end.

Definition resolve_session_lease (input : SessionLeaseInput) : string * string :=
  match clean_optional_string (li_session_id input) with
  | Some external_session_id => ("external:" +:+ sanitize_key external_session_id, "external-session-id")
  | None => ("planned:" +:+ stable_hash_hex (seed_text input), "planned-fallback")
  end.

Definition from_environment (key : string) (metadata_value : option string) : option string * string :=
  resolve_string [(environment key, "env"); (None, "env"); (metadata_value, "metadata"); (None, "none")].

Definition context_warnings (metadata : MetadataEnvelope) (project_root : option string * string * list string)
    (session_id conversation_id client_instance_id transport_session_id : option string) (session_lease : string * string) : list string :=
  sort_dedup
    (project_root.2
     ++ (if is_some session_id then []
         else ["No external session id was resolved; the plan derived an internal session lease '" +:+ session_lease.1 +:+ "' from "
               +:+ session_lease.2 +:+ " and the future hub must keep that lease sticky for the life of the connection."])
     ++ (if is_some session_id || is_some conversation_id || is_some client_instance_id || is_some transport_session_id then []
         else ["No external session, conversation, client-instance, or transport-session id was resolved; multiple live instances of the same client in the same project can share the derived planned lease. Pass --session-id, MCPACE_SESSION_ID, MCPACE_CLIENT_INSTANCE_ID, or _meta.com.mcpace/context metadata for strict multi-client isolation."])
     ++ (if (1 <? len_N (me_workspace_roots metadata))%N && negb (is_some project_root.1.1)
         then ["Multiple workspace roots were provided but no explicit project root or cwd selected a single project; project-local routing stays unresolved."]
         else [])).

Definition resolve_context (request : PlanRequest) (metadata : MetadataEnvelope) : ResolvedContext :=
  let client_id := resolve_string [(pr_client_id request, "flag"); (environment "MCPACE_CLIENT_ID", "env");
                                   (me_client_id metadata, "metadata"); (Some "unknown-client", "fallback")] in
  let session_id := resolve_string [(pr_session_id request, "flag"); (environment "MCPACE_SESSION_ID", "env");
                                    (me_session_id metadata, "metadata"); (None, "none")] in
  let conversation_id := from_environment "MCPACE_CONVERSATION_ID" (me_conversation_id metadata) in
  let client_instance_id := from_environment "MCPACE_CLIENT_INSTANCE_ID" (me_client_instance_id metadata) in
  let transport_session_id := from_environment "MCPACE_TRANSPORT_SESSION_ID" (me_transport_session_id metadata) in
  let credential_profile_id := from_environment "MCPACE_CREDENTIAL_PROFILE_ID" (me_credential_profile_id metadata) in
  let cwd := resolve_string [(option_map normalize_path (environment "MCPACE_CWD"), "env"); (None, "env");
                             (me_cwd metadata, "metadata"); (None, "none")] in
  let project_root := resolve_project_root request metadata cwd.1 in
  let preferred_ingress :=
    resolve_string [(option_map normalize_transport (pr_transport request), "flag");
                    (option_map normalize_transport (opt_or (environment "MCPACE_CLIENT_TRANSPORT") (environment "MCPACE_CLIENT_INGRESS")), "env");
                    (option_map normalize_transport (me_transport metadata), "metadata"); (Some "stdio", "default-local")] in
  let client := unwrap_or client_id.1 "unknown-client" in
  let ingress := unwrap_or preferred_ingress.1 "stdio" in
  let session_lease :=
    resolve_session_lease (mkLeaseInput client session_id.1 conversation_id.1 client_instance_id.1 transport_session_id.1 project_root.1.1 cwd.1 ingress) in
  {| rc_client_id := client;
     rc_client_id_source := client_id.2;
     rc_session_id := session_id.1;
     rc_session_id_source := session_id.2;
     rc_session_lease_id := session_lease.1;
     rc_session_lease_source := session_lease.2;
     rc_conversation_id := conversation_id.1;
     rc_conversation_id_source := conversation_id.2;
     rc_client_instance_id := client_instance_id.1;
     rc_client_instance_id_source := client_instance_id.2;
     rc_transport_session_id := transport_session_id.1;
     rc_transport_session_id_source := transport_session_id.2;
     rc_credential_profile_id := credential_profile_id.1;
     rc_credential_profile_id_source := credential_profile_id.2;
     rc_project_root := project_root.1.1;
     rc_project_root_source := project_root.1.2;
     rc_workspace_roots := me_workspace_roots metadata;
     rc_cwd := cwd.1;
     rc_cwd_source := cwd.2;
     rc_preferred_ingress := ingress;
     rc_preferred_ingress_source := preferred_ingress.2;
     rc_warnings := context_warnings metadata project_root session_id.1 conversation_id.1 client_instance_id.1 transport_session_id.1 session_lease |}.

End metadata.

(** ** Lemmas *)

(** What the scan of the roots keeps: nothing while none contains the directory, otherwise
    the first of the longest that do. *)
Definition best_so_far (cwd : string) (roots : list string) (best : option string) : Prop :=
  match best with
  | None => Forall (fun root => path_is_within cwd root = false) roots
  | Some b =>
      exists before after, roots = before ++ b :: after /\ path_is_within cwd b = true
        /\ Forall (fun root => path_is_within cwd root = true -> (str_len root < str_len b)%N) before
        /\ Forall (fun root => path_is_within cwd root = true -> (str_len root <= str_len b)%N) after
  end.

Lemma best_matching_root_scan roots cwd : best_so_far cwd roots (best_matching_root roots cwd).
Proof.
  unfold best_matching_root. induction roots as [|root roots IH] using rev_ind; [constructor|].
  rewrite fold_left_app. cbn [fold_left]. revert IH. generalize (fold_left (fun best root =>
    if path_is_within cwd root then
      match best with
      | Some current => if (str_len root <=? str_len current)%N then best else Some root
      | None => Some root
      end
    else best) roots None). intros best Hb.
  destruct (path_is_within cwd root) eqn:Ew; destruct best as [b|]; cbn [best_so_far] in *.
  - destruct Hb as (before & after & -> & Hw & Hlt & Hle). destruct (N.leb_spec (str_len root) (str_len b)).
    + exists before, (after ++ [root]). rewrite <- app_assoc. split_and!; [done|done|done|]. apply Forall_app. split; [done|]. by repeat constructor.
    + exists (before ++ b :: after), []. split_and!; [done|done| |constructor]. apply Forall_app. split; [|constructor; [done|] ].
      * eapply Forall_impl; [exact Hlt|]. intros x Hx E. specialize (Hx E). lia.
      * eapply Forall_impl; [exact Hle|]. intros x Hx E. specialize (Hx E). lia.
  - exists roots, []. split_and!; [done|done| |constructor]. eapply Forall_impl; [exact Hb|]. congruence.
  - destruct Hb as (before & after & -> & Hw & Hlt & Hle). exists before, (after ++ [root]). rewrite <- app_assoc.
    split_and!; [done|done|done|]. apply Forall_app. split; [done|]. repeat constructor. congruence.
  - apply Forall_app. by repeat constructor.
Qed.

(** The entries of a seed, from a list of keys and values. *)
Definition seed_entry (entry : string * option string) : option string :=
  option_map (fun value => entry.1 +:+ ":" +:+ sanitize_key value) (clean_optional_string entry.2).

Lemma extend_seed_fold entries seed :
  fold_left (fun seed entry => extend_seed seed entry.1 entry.2) entries seed = seed ++ omap seed_entry entries.
Proof.
  revert seed. induction entries as [|e entries IH]; intros seed; [by rewrite app_nil_r|]. cbn [fold_left omap list_omap].
  rewrite IH. unfold extend_seed, seed_entry. destruct (clean_optional_string e.2) as [v|]; cbn [option_map]; [|done].
  by rewrite <- app_assoc.
Qed.

Lemma seed_entry_key key value text :
  seed_entry (key, value) = Some text -> exists rest, text = key +:+ String ":" rest.
Proof.
  unfold seed_entry. cbn [fst snd]. destruct (clean_optional_string value) as [v|]; [|done]. intros [= <-]. by exists (sanitize_key v).
Qed.

(** The entries of two seeds over the same keys agree only when the values do. *)
Lemma seed_entries_inj (es fs : list (string * option string)) :
  map fst es = map fst fs -> NoDup (map fst es) -> Forall (fun e => contains_char ":" e.1 = false) es ->
  omap seed_entry es = omap seed_entry fs -> map seed_entry es = map seed_entry fs.
Proof.
  revert fs. induction es as [|[key x] es IH]; intros [|[key' y] fs] Hk Hn Hc E; try done.
  injection Hk as <- Hk. apply NoDup_cons in Hn as [Hnew Hn]. apply Forall_cons in Hc as [Hc Hcs]. cbn [fst] in *.
  assert (Hfs : Forall (fun e => contains_char ":" e.1 = false) fs).
  { apply Forall_forall. intros e He. apply (list_elem_of_fmap_2 fst) in He. change (fst <$> fs) with (map fst fs) in He. rewrite <- Hk in He.
    apply list_elem_of_fmap in He as (e' & -> & He'). rewrite Forall_forall in Hcs. by apply Hcs. }
  assert (Hhead : forall l text rest, Forall (fun e => contains_char ":" e.1 = false) l -> key ∉ map fst l ->
            omap seed_entry l = (key +:+ String ":" text) :: rest -> False).
  { intros l text rest Hl Hnk El. assert (Hin : key +:+ String ":" text ∈ omap seed_entry l) by (rewrite El; by left).
    apply list_elem_of_omap in Hin as ([other v] & Hin & Eo). destruct (seed_entry_key _ _ _ Eo) as [r Er].
    assert (Es : split_once ":" (key +:+ String ":" text) = split_once ":" (other +:+ String ":" r)) by by f_equal.
    rewrite Forall_forall in Hl. pose proof (Hl _ Hin) as Ho. cbn [fst] in Ho. rewrite !split_once_app in Es by done.
    injection Es as Es _. subst other. apply Hnk. by apply (list_elem_of_fmap_2 fst) in Hin. }
  cbn [omap list_omap] in E. cbn [map].
  destruct (seed_entry (key, x)) as [a|] eqn:Ef, (seed_entry (key, y)) as [b|] eqn:Eg.
  - injection E as -> E. f_equal. by apply IH.
  - destruct (seed_entry_key _ _ _ Ef) as [r ->]. symmetry in E. apply Hhead in E; [done|done|by rewrite <- Hk].
  - destruct (seed_entry_key _ _ _ Eg) as [r ->]. by apply Hhead in E.
  - f_equal. by apply IH.
Qed.

Lemma seed_entry_plain e text :
  contains_char "|" e.1 = false -> seed_entry e = Some text -> contains_char "|" text = false.
Proof.
  destruct e as [key value]. unfold seed_entry. cbn [fst snd]. intros Hk. destruct (clean_optional_string value) as [v|]; [|done].
  intros [= <-]. rewrite !contains_char_app, Hk, (key_free "|" (sanitize_key v)); [done|done|apply sanitize_key_safe].
Qed.

Lemma seed_text_omap input :
  seed_text input = join "|" match omap seed_entry (seed_of input) with [] => ["anonymous"] | seed => seed end.
Proof. unfold seed_text. rewrite extend_seed_fold, app_nil_l. by destruct (omap seed_entry (seed_of input)). Qed.

Lemma seed_keys input : map fst (seed_of input) = ["client"; "conversation"; "client-instance"; "transport-session"; "project-root"; "cwd"; "ingress"].
Proof. done. Qed.

Lemma seed_entries_plain input : Forall (fun text => contains_char "|" text = false) (omap seed_entry (seed_of input)).
Proof.
  apply Forall_forall. intros text Hin. apply list_elem_of_omap in Hin as (e & He & Ee). apply (seed_entry_plain e); [|done].
  apply (list_elem_of_fmap_2 fst) in He. change (fst <$> seed_of input) with (map fst (seed_of input)) in He. rewrite seed_keys in He.
  repeat (apply elem_of_cons in He as [-> | He]; [done|]). by apply not_elem_of_nil in He.
Qed.

Lemma stable_hash_bound input : (stable_hash input <= U64_MAX)%N.
Proof.
  unfold stable_hash. apply (fold_left_invariant hash_step (fun h => (h <= U64_MAX)%N)); [|done].
  intros h c _. unfold hash_step, wrapping_mul64. pose proof (N.mod_lt (N.lxor h (code c) * 1099511628211) (U64_MAX + 1)). lia.
Qed.

(** ** Claims *)

(** Among several workspace roots the one chosen contains the working directory and is the
    first of the longest that do; none is chosen exactly when none contains it. *)
Theorem best_root_is_most_specific roots cwd :
  match best_matching_root roots cwd with
  | None => Forall (fun root => path_is_within cwd root = false) roots
  | Some best =>
      exists before after, roots = before ++ best :: after /\ path_is_within cwd best = true
        /\ Forall (fun root => path_is_within cwd root = true -> (str_len root < str_len best)%N) before
        /\ Forall (fun root => path_is_within cwd root = true -> (str_len root <= str_len best)%N) after
  end.
Proof. apply best_matching_root_scan. Qed.

(** Two requests share a session lease exactly when both name a session, by names with the
    same key, or neither does and the texts of what else is known of them have the same
    64-bit hash; and those texts are the same exactly when all of it has the same keys. *)
Theorem sessions_share_a_lease_iff i j :
  ((resolve_session_lease i).1 = (resolve_session_lease j).1
   <-> match clean_optional_string (li_session_id i), clean_optional_string (li_session_id j) with
       | Some a, Some b => sanitize_key a = sanitize_key b
       | None, None => stable_hash (seed_text i) = stable_hash (seed_text j)
       | _, _ => False
       end)
  /\ (seed_text i = seed_text j <-> map seed_entry (seed_of i) = map seed_entry (seed_of j)).
Proof.
  split.
  - unfold resolve_session_lease. destruct (clean_optional_string (li_session_id i)), (clean_optional_string (li_session_id j)); cbn [fst].
    + split; [by apply append_inj_r|by intros ->].
    + done.
    + done.
    + unfold stable_hash_hex. split; [|by intros ->]. intros E. apply append_inj_r in E. by apply hex16_inj in E; [|apply stable_hash_bound..].
  - rewrite !seed_text_omap. split.
    + intros E. apply seed_entries_inj; [by rewrite !seed_keys| |by repeat constructor|].
      { rewrite seed_keys. apply (bool_decide_unpack _). by vm_compute. }
      pose proof (seed_entries_plain i) as Hi. pose proof (seed_entries_plain j) as Hj.
      assert (Ha : forall k, omap seed_entry (seed_of k) = ["anonymous"] -> False).
      { intros k Ek. assert (Hin : "anonymous" ∈ omap seed_entry (seed_of k)) by (rewrite Ek; by left).
        apply list_elem_of_omap in Hin as ([key v] & _ & Ee). destruct (seed_entry_key _ _ _ Ee) as [r Er].
        assert (contains_char ":" "anonymous" = true) as Hx; [|done]. rewrite Er, contains_char_app, contains_char_cons. by rewrite orb_true_r. }
      apply (f_equal (split_char "|")) in E.
      assert (Hsplit : forall x l, Forall (fun s => contains_char "|" s = false) (x :: l) -> split_char "|" (join "|" (x :: l)) = x :: l)
        by (intros x l; apply split_char_join).
      assert (Hanon : split_char "|" (join "|" ["anonymous"]) = ["anonymous"]) by done.
      destruct (omap seed_entry (seed_of i)) as [|a l] eqn:Ei, (omap seed_entry (seed_of j)) as [|b k] eqn:Ej; [done|..].
      * rewrite Hanon, Hsplit in E by done. by destruct (Ha j); rewrite Ej, <- E.
      * rewrite Hanon, Hsplit in E by done. by destruct (Ha i); rewrite Ei, E.
      * by rewrite !Hsplit in E by done.
    + intros E. assert (Eo : omap seed_entry (seed_of i) = omap seed_entry (seed_of j)); [|by rewrite Eo].
      revert E. generalize (seed_of i) (seed_of j). induction l as [|x l IH]; intros [|y k] E; try done. cbn [map] in E. injection E as Ex E.
      cbn [omap list_omap]. rewrite Ex, (IH k E). done.
Qed.

(** ** What the code does not mean to do *)

(** The specificity of a root is the length of its text, not its depth. *)
Lemma longest_text_is_not_deepest :
  best_matching_root ["/work/./././././."; "/work/project"] "/work/project/src" = Some "/work/./././././.".
Proof. by vm_compute. Qed.
