(* ===== verification/ClientPlan.v ===== *)
(** * The routing plan of a client (src/client/plan.rs)

    What a client gets of each server: the keys of its processes, worker groups and locks,
    the strategy of its requests and the capacity, from the record of the server and the
    context of the client; the plan as JSON, and its way from the client's request. *)

From Stdlib Require Import Ascii.
From S2P Require Import Prelude RustStr BTree Json TextUtils Execution ServerRegistry ServerModel LeaseRoute ClientPaths ClientContext.

(** ** Client targets (src/client_catalog.rs) *)

Record ClientTargetRecord := mkTarget {
  ct_id : string;
  ct_family_id : string;
  ct_aliases : list string;
  ct_maturity : string;
  ct_surface_class : string;
  ct_surface_kind : string;
  ct_supported_ingresses : list string;
  ct_documented_features : list string;
  ct_documented_constraints : list string;
  (** The scope and the configuration path of the preferred installation. *)
  ct_install_support : option (string * string)
}.

Definition catalog_transport (value : string) : string :=
  let normalized := normalize_flag value in
  if String.eqb normalized "http" || String.eqb normalized "streamable-http" || String.eqb normalized "streamable_http"
  then "streamable-http"
  else if String.eqb normalized "stdio" || String.eqb normalized "local-stdio" then "stdio"
  else normalized.

Definition supports_ingress (target : ClientTargetRecord) (ingress : string) : bool :=
  existsb (fun value => String.eqb (catalog_transport value) (catalog_transport ingress)) (ct_supported_ingresses target).

Definition has_constraint (target : ClientTargetRecord) (constraint : string) : bool :=
  existsb (fun value => String.eqb (normalize_flag value) (normalize_flag constraint)) (ct_documented_constraints target).

Definition supports_client_install (target : ClientTargetRecord) : bool := is_some (ct_install_support target).

Definition find_in_targets (targets : list ClientTargetRecord) (id : string) : option ClientTargetRecord :=
  let normalized := normalize_flag id in
  List.find (fun target =>
    String.eqb (normalize_flag (ct_id target)) normalized
    || existsb (fun alias => String.eqb (normalize_flag alias) normalized) (ct_aliases target)) targets.

(** ** Servers and their bindings *)

Definition is_none_marker (value : string) : bool :=
  let normalized := to_ascii_lowercase (trim value) in
  str_is_empty normalized || String.eqb normalized "none" || String.eqb normalized "false".

Definition requires_project_binding (record : ServerRecord) : bool :=
  String.eqb (sr_scope_class record) "project-local" || String.eqb (sr_concurrency_policy record) "isolated-per-project"
  || String.eqb (sr_project_root_mode record) "required".

Definition requires_worktree_binding (record : ServerRecord) : bool :=
  negb (is_none_marker (sr_worktree_binding record))
  || one_of ["repo"; "repo-path"; "file"; "file-path"; "db"; "db-file-path"; "project"; "project-index"] (sr_state_binding record).

Definition requires_host_lock (record : ServerRecord) : bool :=
  String.eqb (sr_scope_class record) "shared-exclusive" || String.eqb (sr_state_binding record) "host-desktop"
  || negb (is_none_marker (sr_host_lock record)).

Definition is_state_profiled (record : ServerRecord) : bool :=
  String.eqb (sr_routing_group record) "stateful" || String.eqb (sr_routing_group record) "interactive"
  || String.eqb (sr_state_binding record) "host-session" || negb (is_none_marker (sr_state_profile_mode record)).

(** The key of the project, with a warning when it is not known. *)
Definition resolve_project_binding_key (record : ServerRecord) (context : ResolvedContext) : string * list string :=
  match rc_project_root context with
  | Some project_root => ("project:" +:+ sanitize_key project_root, [])
  | None =>
      ("project:pending:" +:+ sanitize_key (rc_session_lease_id context),
       [sr_name record +:+ " requires a project root but no project root was resolved; routing should pause or isolate this server until a project is known."])
  end.

Definition optional_project_or_cwd_key (context : ResolvedContext) : string :=
  match rc_project_root context, rc_cwd context with
  | Some project_root, _ => "project:" +:+ sanitize_key project_root
  | None, Some cwd => "cwd:" +:+ sanitize_key cwd
  | None, None => "session:" +:+ sanitize_key (rc_session_lease_id context)
  end.

Definition state_session_partition (record : ServerRecord) (context : ResolvedContext) : string :=
  if one_of ["project"; "project-shared"] (sr_state_profile_mode record) then "project-shared"
  else if one_of ["host"; "global"] (sr_state_profile_mode record) then "host-shared"
  else sanitize_key (rc_session_lease_id context).

Definition plan_admission_state (record : ServerRecord) : string :=
  if negb (sr_platform_supported record) then "unsupported-platform"
  else if sr_source_enabled record && sr_effective_enabled record then "configured-source"
  else if sr_source_enabled record then "disabled-by-policy"
  else if sr_required record then "required-needs-source"
  else if sr_default_enabled record then "default-needs-source"
  else "optional-disabled".

Definition server_is_not_routable (record : ServerRecord) : bool :=
  negb (sr_platform_supported record) || negb (sr_effective_enabled record)
  || String.eqb (sr_startup_strategy record) "disabled" || String.eqb (sr_routing_group record) "disabled"
  || String.eqb (sr_routing_group record) "sdk-or-example" || String.eqb (sr_concurrency_policy record) "plan-only"
  || String.eqb (sr_scope_class record) "not-runnable" || (sr_max_workers record =? 0)%N.

Definition server_record_is_routable (record : ServerRecord) : bool :=
  negb (server_is_not_routable record) && negb (String.eqb (sr_transport_status record) "legacy-compat").

Definition resolve_upstream_transport (record : ServerRecord) : string :=
  let source_type := sr_source_type record in
  let kind := sr_kind record in
  let supports wanted := existsb (fun transport => String.eqb (normalize_transport transport) wanted) (sr_supported_transports record) in
  if String.eqb source_type "stdio" || str_contains "stdio" kind then "stdio"
  else if String.eqb source_type "sse-legacy" || String.eqb source_type "sse" then "sse-legacy"
  else if String.eqb source_type "http" || String.eqb source_type "streamable-http"
          || String.eqb (sr_transport_preference record) "http" || String.eqb (sr_transport_preference record) "streamable-http"
          || str_contains "http" kind then "streamable-http"
  else if supports "stdio" then "stdio"
  else if supports "streamable-http" then "streamable-http"
  else "unspecified".

(** ** Scopes *)

(** Without the copies of the record's fields, which nothing reads. *)
Record ScopeResolution := mkScope {
  sc_process_partition : string;
  sc_process_scope_key : string;
  sc_project_binding_key : option string;
  sc_worktree_binding_key : option string;
  sc_conflict_domain : string;
  sc_host_lock_key : option string;
  sc_state_profile_key : option string;
  sc_parallelism_limit : N;
  sc_worker_pool_key : string;
  sc_scheduler_lane : string;
  sc_startup_strategy : string;
  sc_session_affinity_key : option string;
  sc_affinity_resolved : bool;
  sc_affinity_fingerprint : string;
  sc_warnings : list string
}.

Section plans.
Context `{SerdeJson} `{Hasher}.
Context (environment : string -> option string) (platform configured_mcp_url : string).

Definition affinity_metadata (context : ResolvedContext) : JsonValue :=
  let session := json_string_or_null (opt_or (rc_conversation_id context) (rc_session_id context)) in
  json_object
    [("mcpace",
      json_object
        [("applicationSessionId", session); ("chatId", session);
         ("clientInstanceId", json_string_or_null (rc_client_instance_id context));
         ("transportSessionId", json_string_or_null (rc_transport_session_id context));
         ("credentialId", json_string_or_null (rc_credential_profile_id context))])].

Definition affinity_context (record : ServerRecord) (context : ResolvedContext) : ExecutionAffinityContext :=
  {| ctx_client_id := Some (rc_client_id context);
     ctx_session_id := opt_or (rc_conversation_id context) (rc_session_id context);
     ctx_project_root := rc_project_root context;
     ctx_transport := Some (resolve_upstream_transport record);
     ctx_metadata := Some (affinity_metadata context) |}.

(** Whether the affinity is resolved, its fingerprint, and the warning when it is not. *)
Definition resolve_affinity (record : ServerRecord) (context : ResolvedContext) : bool * string * list string :=
  match affinity_key (sr_execution record) (affinity_context record context) with
  | Ok key => (true, key_fingerprint key, [])
  | Err error =>
      (false, "missing-affinity",
       [sr_name record +:+ " cannot resolve its execution affinity: " +:+ display_policy_error error
        +:+ ". Routing is fail-closed until the client supplies the missing identity."])
  end.

Definition conflict_domain_of (record : ServerRecord) : string :=
  if str_is_empty (trim (sr_conflict_domain record)) then sr_name record else sr_conflict_domain record.

Definition mode_lane (m : ExecutionMode) : string :=
  match m with
  | Disabled => "disabled"
  | Shared => "shared-capacity"
  | Serialized => "serialized-fifo"
  | SessionIsolated => "session-affinity-fifo"
  | ProjectIsolated => "project-affinity-fifo"
  | Pool => "worker-pool"
  end.

Definition process_partition_of (m : ExecutionMode) (fingerprint : string) : string :=
  "execution:" +:+ mode_as_str m +:+ "|affinity:" +:+ fingerprint.

Definition process_scope_key_of (record : ServerRecord) (partition : string) : string :=
  "server:" +:+ sanitize_key (sr_name record)
  +:+ "|kind:" +:+ sanitize_key (if str_is_empty (trim (sr_kind record)) then "unknown" else sr_kind record)
  +:+ "|execution:" +:+ mode_as_str (mode (sr_execution record)) +:+ "|partition:" +:+ sanitize_key partition.

Definition worker_pool_key_of (record : ServerRecord) (fingerprint : string) : string :=
  "worker-group:" +:+ sanitize_key (sr_name record) +:+ "|mode:" +:+ mode_as_str (mode (sr_execution record))
  +:+ "|affinity:" +:+ sanitize_key fingerprint.

Definition resolve_scope (record : ServerRecord) (context : ResolvedContext) : ScopeResolution :=
  let conflict_domain := conflict_domain_of record in
  let project := resolve_project_binding_key record context in
  let project_binding_key := if requires_project_binding record then Some project.1 else None in
  let worktree_binding_key :=
    if requires_worktree_binding record
    then Some ("worktree:" +:+ sanitize_key (sr_worktree_binding record) +:+ "|" +:+ unwrap_or project_binding_key project.1)
    else None in
  let state_profile_key :=
    if is_state_profiled record
    then Some ("state-profile:" +:+ sanitize_key conflict_domain +:+ "|"
               +:+ unwrap_or project_binding_key (optional_project_or_cwd_key context)
               +:+ "|session:" +:+ state_session_partition record context)
    else None in
  let host_lock_key :=
    if requires_host_lock record
    then Some ("host-lock:" +:+ sanitize_key conflict_domain +:+ "|kind:"
               +:+ sanitize_key (if str_is_empty (trim (sr_host_lock record)) then "host-session" else sr_host_lock record))
    else None in
  let '(affinity_resolved, affinity_fingerprint, affinity_warnings) := resolve_affinity record context in
  let process_partition := process_partition_of (mode (sr_execution record)) affinity_fingerprint in
  {| sc_process_partition := process_partition;
     sc_process_scope_key := process_scope_key_of record process_partition;
     sc_project_binding_key := project_binding_key;
     sc_worktree_binding_key := worktree_binding_key;
     sc_conflict_domain := conflict_domain;
     sc_host_lock_key := host_lock_key;
     sc_state_profile_key := state_profile_key;
     sc_parallelism_limit := effective_capacity (sr_execution record) (resolve_upstream_transport record);
     sc_worker_pool_key := worker_pool_key_of record affinity_fingerprint;
     sc_scheduler_lane := mode_lane (mode (sr_execution record));
     sc_startup_strategy := sr_startup_strategy record;
     sc_session_affinity_key :=
       if affinity_resolved && existsb (one_of session_like) (affinity (sr_execution record))
       then Some ("session-affinity:" +:+ sanitize_key affinity_fingerprint) else None;
     sc_affinity_resolved := affinity_resolved;
     sc_affinity_fingerprint := affinity_fingerprint;
     sc_warnings :=
       (if requires_project_binding record || requires_worktree_binding record then project.2 else []) ++ affinity_warnings |}.

(** ** Strategies *)

Record RequestStrategy := mkStrategy {
  rs_name : string;
  rs_mutex_key : option string;
  rs_scheduler_lane : string;
  rs_parallelism_limit : N;
  rs_warnings : list string
}.

Definition no_evidence (record : ServerRecord) : bool := starts_with "P0_" (sr_parallel_safety_class record).

Definition mutex_key_of (record : ServerRecord) (scope : ScopeResolution) : string :=
  "server:" +:+ sanitize_key (sr_name record) +:+ "|execution-mutex:" +:+ sanitize_key (sc_worker_pool_key scope).

(** The strategy of a server that can be used, by its mode. *)
Definition strategy_of_mode (record : ServerRecord) (scope : ScopeResolution) : RequestStrategy :=
  let capacity := sc_parallelism_limit scope in
  let mutex_key := Some (mutex_key_of record scope) in
  let warnings :=
    warnings (sr_execution record)
    ++ (if String.eqb (reuse_policy (sr_execution record)) "never"
        then [sr_name record +:+ " disables process reuse; startup cost and process churn will be paid for every call."] else []) in
  match mode (sr_execution record) with
  | Disabled => mkStrategy "disabled-no-route" None "disabled" 0 warnings
  | Serialized => mkStrategy "serialize-per-instance" mutex_key "serialized-fifo" 1 warnings
  | SessionIsolated => mkStrategy "serialize-per-session-instance" mutex_key "session-affinity-fifo" (N.max capacity 1) warnings
  | ProjectIsolated => mkStrategy "serialize-per-project-instance" mutex_key "project-affinity-fifo" (N.max capacity 1) warnings
  | Shared =>
      if (capacity <=? 1)%N then mkStrategy "serialize-shared-worker" mutex_key "shared-capacity" 1 warnings
      else mkStrategy "parallel-safe" None "shared-capacity" capacity warnings
  | Pool =>
      mkStrategy (if no_evidence record then "bounded-worker-pool-pending-probe" else "bounded-worker-pool") None "worker-pool"
        (N.max capacity 1)
        (warnings
         ++ (if no_evidence record
             then [sr_name record +:+ " has no positive parallel-safety evidence; MCPace keeps one in-flight call per isolated worker until probes justify a higher value."]
             else []))
  end.

Definition resolve_request_strategy (record : ServerRecord) (scope : ScopeResolution) : RequestStrategy :=
  if server_is_not_routable record || is_disabled (sr_execution record) then
    mkStrategy "disabled-no-route" None "disabled" 0
      [sr_name record +:+ " is disabled or plan-only; MCPace must not route tool calls to it."]
  else if String.eqb (sr_transport_status record) "legacy-compat" then
    mkStrategy "legacy-compat-disabled" None "legacy-disabled" 0
      [sr_name record +:+ " uses legacy SSE compatibility; MCPace does not auto-route it without an explicit compatibility override."]
  else if negb (sc_affinity_resolved scope) then
    mkStrategy "blocked-missing-affinity" None "identity-required" 0
      [sr_name record +:+ " requires execution affinity that is absent from the current client context."]
  else strategy_of_mode record scope.

(** ** The plan of one server *)

Record ServerCoordinationPlan := mkServerPlan {
  sp_name : string;
  sp_admission_state : string;
  sp_scope_class : string;
  sp_concurrency_policy : string;
  sp_upstream_transport : string;
  sp_process_partition : string;
  sp_process_scope_key : string;
  sp_project_binding_key : option string;
  sp_worktree_binding_key : option string;
  sp_conflict_domain : string;
  sp_host_lock_key : option string;
  sp_state_profile_key : option string;
  sp_parallelism_limit : N;
  sp_parallel_safety_class : string;
  sp_runtime_type : string;
  sp_state_class : string;
  sp_effect_class : string;
  sp_default_pool_model : string;
  sp_worker_pool_key : string;
  sp_max_workers : N;
  sp_max_in_flight_per_worker : N;
  sp_execution : ExecutionPolicy;
  sp_lock_domains : list string;
  sp_transport_status : string;
  sp_launcher_kind : string;
  sp_scheduler_lane : string;
  sp_startup_strategy : string;
  sp_request_strategy : string;
  sp_request_mutex_key : option string;
  sp_session_affinity_key : option string;
  sp_affinity_resolved : bool;
  sp_affinity_fingerprint : string;
  sp_warnings : list string
}.

Definition record_warnings (record : ServerRecord) : list string :=
  (if String.eqb (sr_transport_status record) "legacy-compat"
   then [sr_name record +:+ " uses legacy SSE compatibility; MCPace treats it as disabled-for-auto-parallelism and prefers Streamable HTTP or stdio."]
   else [])
  ++ (if no_evidence record
      then [sr_name record +:+ " has no evidence-backed parallel profile yet; the adaptive scheduler should start conservative and raise concurrency only after safe probes/runtime evidence."]
      else [])
  ++ (if negb (supports_current_platform platform (sr_platforms record))
      then [sr_name record +:+ " is not declared for the current platform '" +:+ platform
            +:+ "'; installer/startup logic should skip it unless an override proves compatibility."]
      else []).

Definition build_server_plan (record : ServerRecord) (context : ResolvedContext) : ServerCoordinationPlan :=
  let upstream_transport := resolve_upstream_transport record in
  let scope := resolve_scope record context in
  let request := resolve_request_strategy record scope in
  {| sp_name := sr_name record;
     sp_admission_state := plan_admission_state record;
     sp_scope_class := sr_scope_class record;
     sp_concurrency_policy := sr_concurrency_policy record;
     sp_upstream_transport := upstream_transport;
     sp_process_partition := sc_process_partition scope;
     sp_process_scope_key := sc_process_scope_key scope;
     sp_project_binding_key := sc_project_binding_key scope;
     sp_worktree_binding_key := sc_worktree_binding_key scope;
     sp_conflict_domain := sc_conflict_domain scope;
     sp_host_lock_key := sc_host_lock_key scope;
     sp_state_profile_key := sc_state_profile_key scope;
     sp_parallelism_limit := rs_parallelism_limit request;
     sp_parallel_safety_class := sr_parallel_safety_class record;
     sp_runtime_type := sr_runtime_type record;
     sp_state_class := sr_state_class record;
     sp_effect_class := sr_effect_class record;
     sp_default_pool_model := sr_default_pool_model record;
     sp_worker_pool_key := sc_worker_pool_key scope;
     sp_max_workers := worker_limit (sr_execution record);
     sp_max_in_flight_per_worker := effective_max_in_flight_per_worker (sr_execution record) upstream_transport;
     sp_execution := sr_execution record;
     sp_lock_domains := sr_lock_domains record;
     sp_transport_status := sr_transport_status record;
     sp_launcher_kind := sr_launcher_kind record;
     sp_scheduler_lane := rs_scheduler_lane request;
     sp_startup_strategy := sc_startup_strategy scope;
     sp_request_strategy := rs_name request;
     sp_request_mutex_key := rs_mutex_key request;
     sp_session_affinity_key := sc_session_affinity_key scope;
     sp_affinity_resolved := sc_affinity_resolved scope;
     sp_affinity_fingerprint := sc_affinity_fingerprint scope;
     sp_warnings := sort_dedup (sc_warnings scope ++ rs_warnings request ++ record_warnings record) |}.

(** ** The plan of a client *)

Definition server_plan_is_routable (plan : ServerCoordinationPlan) : bool :=
  (0 <? sp_parallelism_limit plan)%N
  && negb (String.eqb (sp_scheduler_lane plan) "disabled") && negb (String.eqb (sp_scheduler_lane plan) "legacy-disabled")
  && negb (String.eqb (sp_request_strategy plan) "disabled-no-route")
  && negb (String.eqb (sp_request_strategy plan) "legacy-compat-disabled").

Record ClientPlan := mkClientPlan {
  cp_root_path : string;
  cp_config_version : option string;
  cp_configured_client_key_name : option string;
  cp_client_target : option ClientTargetRecord;
  cp_preferred_ingress : string;
  cp_preferred_ingress_source : string;
  cp_supported_ingresses : list string;
  cp_context : ResolvedContext;
  cp_session_binding_key : string;
  cp_requires_hub_owned_stdio : bool;
  cp_parallel_safe_servers : N;
  cp_serialized_servers : N;
  cp_exclusive_servers : N;
  cp_warnings : list string;
  cp_servers : list ServerCoordinationPlan
}.

Definition hub_supported_ingresses : list string := ["stdio"; "streamable-http"].

Definition plan_ingresses (client_target : option ClientTargetRecord) : list string :=
  match client_target with
  | None => hub_supported_ingresses
  | Some target =>
      match List.filter (one_of hub_supported_ingresses) (ct_supported_ingresses target) with
      | [] => hub_supported_ingresses
      | supported => supported
      end
  end.

Definition warn (condition : bool) (text : string) : list string := if condition then [text] else [].

Definition target_warnings (client_target : option ClientTargetRecord) (context : ResolvedContext) : list string :=
  match client_target with
  | None => ["Client id did not match a verified client target catalog entry; the plan falls back to generic MCP host assumptions."]
  | Some target =>
      warn (negb (supports_ingress target (rc_preferred_ingress context)))
        ("Client target '" +:+ ct_id target +:+ "' does not document '" +:+ rc_preferred_ingress context
         +:+ "' as a native MCP ingress; the plan keeps the hub preference but export/install logic should not assume native support.")
      ++ warn (has_constraint target "tools-only")
        ("Client surface '" +:+ ct_id target +:+ "' is documented as tools-only; resources and prompts should be treated as unavailable on this surface.")
      ++ warn (has_constraint target "public-http-only")
        ("Client surface '" +:+ ct_id target +:+ "' only reaches public HTTP MCP servers; a future MCPace relay/public HTTP lane is required for this surface.")
      ++ warn (has_constraint target "no-remote-oauth")
        ("Client surface '" +:+ ct_id target +:+ "' does not document remote OAuth MCP support; prefer PAT/header-based remote config or a different surface.")
      ++ warn (has_constraint target "tool-budget-100")
        ("Client surface '" +:+ ct_id target +:+ "' has a documented enabled-tool budget of 100; install/export logic should budget tool exposure instead of enabling every tool by default.")
      ++ warn (has_constraint target "sse-deprecated")
        ("Client surface '" +:+ ct_id target +:+ "' still documents SSE, but that transport is deprecated there; plan around stdio or Streamable HTTP instead.")
  end.

(** The counters of the loop over the servers. *)
Record PlanCounts := mkCounts {
  parallel_safe : N;
  serialized : N;
  exclusive : N;
  hub_owned_stdio : bool
}.

Definition count_plan (counts : PlanCounts) (plan : ServerCoordinationPlan) : PlanCounts :=
  if server_plan_is_routable plan then
    let m := mode (sp_execution plan) in
    let parallel := (mode_eqb m Shared || mode_eqb m Pool) && (1 <? sp_parallelism_limit plan)%N in
    {| parallel_safe := if parallel then parallel_safe counts + 1 else parallel_safe counts;
       serialized := if parallel then serialized counts else serialized counts + 1;
       exclusive := if mode_eqb m SessionIsolated || mode_eqb m ProjectIsolated then exclusive counts + 1 else exclusive counts;
       hub_owned_stdio := hub_owned_stdio counts || String.eqb (sp_upstream_transport plan) "stdio" |}
  else counts.

Definition count_plans (plans : list ServerCoordinationPlan) : PlanCounts :=
  fold_left count_plan plans (mkCounts 0 0 0 false).

Definition servers_warnings (context : ResolvedContext) (client_target : option ClientTargetRecord) (records : list ServerRecord)
    (stdio : bool) : list string :=
  warn (negb (is_some (rc_project_root context))
        && existsb (fun record => server_record_is_routable record
             && (String.eqb (sr_scope_class record) "project-local" || String.eqb (sr_concurrency_policy record) "isolated-per-project")) records)
    "Project-local servers exist but no project root was resolved; the hub should avoid sharing those servers until a project is bound."
  ++ warn (negb (is_some (rc_session_id context))
        && existsb (fun record => server_record_is_routable record && String.eqb (sr_concurrency_policy record) "single-session") records)
    ("At least one server is single-session and no external session id was resolved; the future hub must keep derived lease '"
     +:+ rc_session_lease_id context +:+ "' sticky instead of collapsing traffic under one anonymous route.")
  ++ warn (String.eqb (rc_preferred_ingress context) "streamable-http")
    ("Streamable HTTP is available through the one-port local MCPace server on " +:+ configured_mcp_url
     +:+ "; keep cloud/public relay expectations separate from this localhost lane.")
  ++ warn stdio
    "At least one routed server uses stdio; the hub must own the child process and arbitrate access instead of letting unrelated clients write directly to the same stream."
  ++ match client_target with
     | Some target =>
         warn (has_constraint target "public-http-only" && stdio)
           ("Client surface '" +:+ ct_id target +:+ "' cannot consume MCPace as a local stdio launcher; expose MCPace through a public HTTP or relay lane before targeting this surface.")
     | None => []
     end.

Definition build_plan (root_path : string) (config_version configured_client_key_name : option string) (context : ResolvedContext)
    (client_target : option ClientTargetRecord) (records : list ServerRecord) : ClientPlan :=
  let plans := map (fun record => build_server_plan record context) records in
  let counts := count_plans plans in
  {| cp_root_path := root_path;
     cp_config_version := config_version;
     cp_configured_client_key_name := configured_client_key_name;
     cp_client_target := client_target;
     cp_preferred_ingress := rc_preferred_ingress context;
     cp_preferred_ingress_source := rc_preferred_ingress_source context;
     cp_supported_ingresses := plan_ingresses client_target;
     cp_context := context;
     cp_session_binding_key :=
       "client:" +:+ sanitize_key (rc_client_id context) +:+ "|session:" +:+ sanitize_key (rc_session_lease_id context)
       +:+ "|project:" +:+ sanitize_key (unwrap_or (rc_project_root context) "unresolved");
     cp_requires_hub_owned_stdio := hub_owned_stdio counts;
     cp_parallel_safe_servers := parallel_safe counts;
     cp_serialized_servers := serialized counts;
     cp_exclusive_servers := exclusive counts;
     cp_warnings :=
       sort_dedup (rc_warnings context ++ target_warnings client_target context ++ flat_map sp_warnings plans
                   ++ servers_warnings context client_target records (hub_owned_stdio counts));
     cp_servers := plans |}.

(** ** As JSON (src/client/render.rs) *)

Definition strings_json (values : list string) : JsonValue := json_array (map json_string values).

Definition server_plan_json (plan : ServerCoordinationPlan) : JsonValue :=
  json_object
    [("name", json_string (sp_name plan));
     ("admissionState", json_string (sp_admission_state plan));
     ("scopeClass", json_string (sp_scope_class plan));
     ("concurrencyPolicy", json_string (sp_concurrency_policy plan));
     ("upstreamTransport", json_string (sp_upstream_transport plan));
     ("processPartition", json_string (sp_process_partition plan));
     ("processScopeKey", json_string (sp_process_scope_key plan));
     ("projectBindingKey", json_string_or_null (sp_project_binding_key plan));
     ("worktreeBindingKey", json_string_or_null (sp_worktree_binding_key plan));
     ("conflictDomain", json_string (sp_conflict_domain plan));
     ("hostLockKey", json_string_or_null (sp_host_lock_key plan));
     ("stateProfileKey", json_string_or_null (sp_state_profile_key plan));
     ("parallelismLimit", json_number (sp_parallelism_limit plan));
     ("parallelSafetyClass", json_string (sp_parallel_safety_class plan));
     ("runtimeType", json_string (sp_runtime_type plan));
     ("stateClass", json_string (sp_state_class plan));
     ("effectClass", json_string (sp_effect_class plan));
     ("defaultPoolModel", json_string (sp_default_pool_model plan));
     ("workerPoolKey", json_string (sp_worker_pool_key plan));
     ("maxWorkers", json_number (sp_max_workers plan));
     ("maxInFlightPerWorker", json_number (sp_max_in_flight_per_worker plan));
     ("execution", Execution.to_json_value (sp_execution plan));
     ("lockDomains", strings_json (sp_lock_domains plan));
     ("transportStatus", json_string (sp_transport_status plan));
     ("launcherKind", json_string (sp_launcher_kind plan));
     ("schedulerLane", json_string (sp_scheduler_lane plan));
     ("startupStrategy", json_string (sp_startup_strategy plan));
     ("requestStrategy", json_string (sp_request_strategy plan));
     ("requestMutexKey", json_string_or_null (sp_request_mutex_key plan));
     ("sessionAffinityKey", json_string_or_null (sp_session_affinity_key plan));
     ("affinityResolved", json_bool (sp_affinity_resolved plan));
     ("affinityFingerprint", json_string (sp_affinity_fingerprint plan));
     ("warnings", strings_json (sp_warnings plan))].

Definition context_json (context : ResolvedContext) : JsonValue :=
  json_object
    [("clientId", json_string (rc_client_id context));
     ("clientIdSource", json_string (rc_client_id_source context));
     ("sessionId", json_string_or_null (rc_session_id context));
     ("sessionIdSource", json_string (rc_session_id_source context));
     ("sessionLeaseId", json_string (rc_session_lease_id context));
     ("sessionLeaseSource", json_string (rc_session_lease_source context));
     ("conversationId", json_string_or_null (rc_conversation_id context));
     ("conversationIdSource", json_string (rc_conversation_id_source context));
     ("clientInstanceId", json_string_or_null (rc_client_instance_id context));
     ("clientInstanceIdSource", json_string (rc_client_instance_id_source context));
     ("transportSessionId", json_string_or_null (rc_transport_session_id context));
     ("transportSessionIdSource", json_string (rc_transport_session_id_source context));
     ("credentialProfileId", json_string_or_null (rc_credential_profile_id context));
     ("credentialProfileIdSource", json_string (rc_credential_profile_id_source context));
     ("projectRoot", json_string_or_null (rc_project_root context));
     ("projectRootSource", json_string (rc_project_root_source context));
     ("workspaceRoots", strings_json (rc_workspace_roots context));
     ("cwd", json_string_or_null (rc_cwd context));
     ("cwdSource", json_string (rc_cwd_source context))].

Definition target_text (plan : ClientPlan) (field : ClientTargetRecord -> string) : string :=
  unwrap_or (option_map field (cp_client_target plan)) "unknown".

Definition plan_json (plan : ClientPlan) : JsonValue :=
  json_object
    [("rootPath", json_string (cp_root_path plan));
     ("configVersion", json_string_or_null (cp_config_version plan));
     ("configuredClientKeyName", json_string_or_null (cp_configured_client_key_name plan));
     ("clientTargetId", json_string_or_null (option_map ct_id (cp_client_target plan)));
     ("clientTargetFamilyId", json_string_or_null (option_map ct_family_id (cp_client_target plan)));
     ("clientTargetMaturity", json_string (target_text plan ct_maturity));
     ("clientTargetSurfaceClass", json_string (target_text plan ct_surface_class));
     ("clientTargetSurfaceKind", json_string (target_text plan ct_surface_kind));
     ("clientTargetDocumentedFeatures", strings_json (unwrap_or (option_map ct_documented_features (cp_client_target plan)) []));
     ("clientTargetDocumentedConstraints", strings_json (unwrap_or (option_map ct_documented_constraints (cp_client_target plan)) []));
     ("entrypointMode", json_string "single-local-hub");
     ("launcherCommand", json_string "mcpace");
     ("currentGroupedAction", json_string "client plan");
     ("preferredIngress", json_string (cp_preferred_ingress plan));
     ("preferredIngressSource", json_string (cp_preferred_ingress_source plan));
     ("supportedIngresses", strings_json (cp_supported_ingresses plan));
     ("hubLifecycleImplemented", json_bool true);
     ("clientInstallImplemented", json_bool (unwrap_or (option_map supports_client_install (cp_client_target plan)) false));
     ("clientExportImplemented", json_bool true);
     ("sessionBindingKey", json_string (cp_session_binding_key plan));
     ("requiresHubOwnedStdio", json_bool (cp_requires_hub_owned_stdio plan));
     ("parallelSafeServerCount", json_number (cp_parallel_safe_servers plan));
     ("serializedServerCount", json_number (cp_serialized_servers plan));
     ("exclusiveServerCount", json_number (cp_exclusive_servers plan));
     ("context", context_json (cp_context plan));
     ("warnings", strings_json (cp_warnings plan));
     ("servers", json_array (map server_plan_json (cp_servers plan)))].

(** ** From the request of a client (src/client/actions.rs) *)

Definition prefer_local_http_when_supported (request : PlanRequest) (context : ResolvedContext) (client_target : ClientTargetRecord)
    (source : string) : ResolvedContext :=
  if negb (is_some (pr_transport request)) && negb (has_constraint client_target "public-http-only")
     && supports_ingress client_target "streamable-http"
  then
    {| rc_client_id := rc_client_id context; rc_client_id_source := rc_client_id_source context;
       rc_session_id := rc_session_id context; rc_session_id_source := rc_session_id_source context;
       rc_session_lease_id := rc_session_lease_id context; rc_session_lease_source := rc_session_lease_source context;
       rc_conversation_id := rc_conversation_id context; rc_conversation_id_source := rc_conversation_id_source context;
       rc_client_instance_id := rc_client_instance_id context; rc_client_instance_id_source := rc_client_instance_id_source context;
       rc_transport_session_id := rc_transport_session_id context; rc_transport_session_id_source := rc_transport_session_id_source context;
       rc_credential_profile_id := rc_credential_profile_id context; rc_credential_profile_id_source := rc_credential_profile_id_source context;
       rc_project_root := rc_project_root context; rc_project_root_source := rc_project_root_source context;
       rc_workspace_roots := rc_workspace_roots context; rc_cwd := rc_cwd context; rc_cwd_source := rc_cwd_source context;
       rc_preferred_ingress := "streamable-http"; rc_preferred_ingress_source := source;
       rc_warnings := rc_warnings context |}
  else context.

(** What is read from the disk: the records of the servers and the client targets, each or
    the error, with the version and the key name of the configuration. *)
Record PlanSources := mkSources {
  ps_server_records : result (list ServerRecord) string;
  ps_client_targets : result (list ClientTargetRecord) string;
  ps_root_path : string;
  ps_config_version : option string;
  ps_client_key_name : option string
}.

Definition build_plan_struct (sources : PlanSources) (request : PlanRequest) : result ClientPlan string :=
  records ←? ps_server_records sources ;;
  targets ←? ps_client_targets sources ;;
  metadata ←? load_metadata environment request ;;
  let context := resolve_context environment request metadata in
  let client_target := find_in_targets targets (rc_client_id context) in
  let context :=
    match client_target with
    | Some target => prefer_local_http_when_supported request context target "serve-default"
    | None => context
    end in
  Ok (build_plan (ps_root_path sources) (ps_config_version sources) (ps_client_key_name sources) context client_target records).

Definition build_plan_json (sources : PlanSources) (request : PlanRequest) : result JsonValue string :=
  plan ←? build_plan_struct sources request ;; Ok (plan_json plan).

End plans.
