(* ===== verification/ClientRoutes.v ===== *)
(** * What the plans promise (src/client/plan.rs with src/hub/leases.rs)

    The route a lease is granted for is the plan of its server; it can be granted exactly
    when the server can be used by the client; clients share the capacity of a server
    exactly when their affinity agrees; and the counters of a plan count its servers. *)

From Stdlib Require Import Ascii.
From S2P Require Import Prelude RustStr BTree Json TextUtils Execution ServerRegistry ServerModel LeaseRoute ClientPaths ClientContext ClientPlan.

(** ** Fingerprints as words *)

(** The characters of the words a fingerprint is made of. *)
Definition word_char (c : ascii) : bool := is_ascii_alphanumeric c || Ascii.eqb c "-".

Lemma word_char_safe c : word_char c = true -> key_safe c = true.
Proof. destruct c as [ [] [] [] [] [] [] [] []]; vm_compute; congruence. Qed.

Lemma word_safe s : all_bytes word_char s = true -> all_bytes key_safe s = true.
Proof. apply all_bytes_impl, word_char_safe. Qed.

Lemma word_free s : all_bytes word_char s = true -> contains_char "_" s = false.
Proof.
  unfold all_bytes, contains_char. induction (bytes s) as [|a l IH]; [done|]. cbn [forallb existsb]. intros [Ha Hl]%andb_true_iff.
  rewrite (IH Hl), orb_false_r. by destruct (Ascii.eqb_spec "_" a) as [<-|].
Qed.

Lemma hex_pad_words d n acc : all_bytes word_char acc = true -> all_bytes word_char (hex_pad d n acc) = true.
Proof.
  revert n acc. induction d as [|d IH]; intros n acc Ha; [done|]. cbn [hex_pad]. apply IH.
  change (word_char (hex_digit (n mod 16)) && all_bytes word_char acc = true). rewrite Ha, andb_true_r.
  assert (Hn : (n mod 16 < 16)%N) by (apply N.mod_lt; lia). revert Hn. generalize (n mod 16)%N. intros m Hm.
  unfold word_char, is_ascii_alphanumeric, is_ascii_alphabetic, is_ascii_lowercase, is_ascii_digit, in_range, hex_digit.
  destruct (N.ltb_spec m 10).
  - rewrite code_ascii_of_N by lia. rewrite (proj2 (N.leb_le 48 (48 + m))), (proj2 (N.leb_le (48 + m) 57)) by lia. by rewrite !orb_true_r.
  - rewrite code_ascii_of_N by lia. rewrite (proj2 (N.leb_le 97 (87 + m))), (proj2 (N.leb_le (87 + m) 122)) by lia. done.
Qed.

Section routes.
Context `{SerdeJson} `{Hasher}.
Context (platform configured_mcp_url : string).

Lemma fingerprint_words v : all_bytes word_char (fingerprint_text v) = true.
Proof.
  assert (Hn : all_bytes word_char (N_to_string (str_len v)) = true).
  { eapply all_bytes_impl; [|apply N_to_string_all_digits]. intros c. unfold word_char, is_ascii_alphanumeric. intros ->. by rewrite orb_true_r. }
  assert (Hh : all_bytes word_char (hex16 (hash_str v)) = true) by by apply hex_pad_words.
  unfold fingerprint_text. by rewrite !all_bytes_app, Hn, Hh.
Qed.

(** A fingerprint, from the dimensions and the texts of their values. *)
Definition fingerprint_of (m : ExecutionMode) (parts : list (string * string)) : string :=
  match parts with
  | [] => "mode=" +:+ mode_as_str m +:+ "|affinity=global"
  | _ => "mode=" +:+ mode_as_str m +:+ "|" +:+ join "|" (map (fun part => part.1 +:+ "=" +:+ part.2) parts)
  end.

Definition words_of (m : ExecutionMode) (parts : list (string * string)) : list string :=
  "mode" :: mode_as_str m :: match parts with [] => ["affinity"; "global"] | _ => flat_map (fun part => [part.1; part.2]) parts end.

Definition worded (part : string * string) : Prop := all_bytes word_char part.1 = true /\ all_bytes word_char part.2 = true.

Lemma affinity_parts p ctx key :
  Forall (fun d => is_supported_affinity d = true) (affinity p) -> affinity_key p ctx = Ok key ->
  exists parts, key_fingerprint key = fingerprint_of (mode p) parts /\ map fst parts = affinity p /\ Forall worded parts.
Proof.
  intros Hs. unfold affinity_key. destruct (affinity_values (mode p) ctx (affinity p)) as [values|] eqn:Ev; [|done]. intros [= <-].
  cbn [key_fingerprint]. apply affinity_values_Ok in Ev.
  assert (Hp : exists parts, map protect_value values = map (fun part => part.1 +:+ "=" +:+ part.2) parts
                 /\ map fst parts = affinity p /\ Forall worded parts).
  { revert Hs. induction Ev as [|d value dims values (v & _ & ->) _ IH]; intros Hs; [by exists []|].
    apply Forall_cons in Hs as [Hd Hs]. destruct (IH Hs) as (parts & E & Ek & Hw). exists ((d, fingerprint_text v) :: parts).
    cbn [map fst snd]. rewrite protect_value_supported, E, Ek by done. split; [done|]. split; [done|]. constructor; [|done].
    split; [|apply fingerprint_words]. unfold is_supported_affinity in Hd. apply one_of_elem in Hd.
    repeat (apply elem_of_cons in Hd as [-> | Hd]; [done|]). by apply not_elem_of_nil in Hd. }
  destruct Hp as (parts & E & Ek & Hw). exists parts. split; [|done]. unfold affinity_fingerprint, fingerprint_of.
  rewrite E. destruct values, parts; done.
Qed.

Lemma parts_key parts :
  Forall worded parts ->
  map_bytes key_char (join "|" (map (fun part => part.1 +:+ "=" +:+ part.2) parts)) = join "_" (flat_map (fun part => [part.1; part.2]) parts).
Proof.
  intros Hw.
  assert (Hone : forall part, worded part -> map_bytes key_char (part.1 +:+ "=" +:+ part.2) = part.1 +:+ "_" +:+ part.2).
  { intros part [H1 H2]. rewrite !map_bytes_app, (map_bytes_safe part.1), (map_bytes_safe part.2) by by apply word_safe. done. }
  induction Hw as [|part parts Hp Hw IH]; [done|]. destruct parts as [|next parts]; [cbn [map flat_map join app]; by rewrite Hone|].
  change (join "|" (map _ (part :: next :: parts))) with
    ((part.1 +:+ "=" +:+ part.2) +:+ "|" +:+ join "|" (map (fun part => part.1 +:+ "=" +:+ part.2) (next :: parts))).
  rewrite (map_bytes_app _ (part.1 +:+ "=" +:+ part.2)), (map_bytes_app _ "|"), IH, Hone by done.
  change (join "_" (flat_map _ (part :: next :: parts))) with
    (part.1 +:+ "_" +:+ part.2 +:+ "_" +:+ join "_" (flat_map (fun part => [part.1; part.2]) (next :: parts))).
  by rewrite !append_assoc_str.
Qed.

Lemma mode_words m : all_bytes word_char (mode_as_str m) = true.
Proof. by destruct m. Qed.

Lemma fingerprint_key m parts : Forall worded parts -> map_bytes key_char (fingerprint_of m parts) = join "_" (words_of m parts).
Proof.
  intros Hw. assert (Hm : map_bytes key_char (mode_as_str m) = mode_as_str m) by apply map_bytes_safe, word_safe, mode_words.
  unfold fingerprint_of, words_of. destruct parts as [|part parts].
  - rewrite !map_bytes_app, Hm. done.
  - by rewrite !map_bytes_app, Hm, (parts_key (part :: parts) Hw).
Qed.

Lemma words_plain m parts : Forall worded parts -> Forall (fun s => contains_char "_" s = false) (words_of m parts).
Proof.
  intros Hw. unfold words_of. constructor; [done|]. constructor; [apply word_free, mode_words|].
  assert (Hf : Forall (fun s => contains_char "_" s = false) (flat_map (fun part => [part.1; part.2]) parts)).
  { induction Hw as [|part parts [H1 H2] Hw IH]; [constructor|]. cbn [flat_map app]. constructor; [by apply word_free|].
    constructor; [by apply word_free|done]. }
  destruct parts; [by repeat constructor|exact Hf].
Qed.

Lemma flat_parts_inj (l k : list (string * string)) :
  flat_map (fun part => [part.1; part.2]) l = flat_map (fun part => [part.1; part.2]) k -> l = k.
Proof.
  revert k. induction l as [|[a b] l IH]; intros [|[c d] k] E; try done. cbn in E. injection E as -> -> E. by rewrite (IH k E).
Qed.

(** Sanitizing keeps apart the fingerprints of one policy. *)
Lemma fingerprint_key_inj m l k :
  Forall worded l -> Forall worded k -> length l = length k ->
  map_bytes key_char (fingerprint_of m l) = map_bytes key_char (fingerprint_of m k) -> l = k.
Proof.
  intros Hl Hk Hlen E. rewrite !fingerprint_key in E by done. apply (f_equal (split_char "_")) in E.
  assert (Hs : forall parts, Forall worded parts -> split_char "_" (join "_" (words_of m parts)) = words_of m parts)
    by (intros parts Hp; apply split_char_join; by apply words_plain).
  rewrite !Hs in E by done. unfold words_of in E. injection E as E. destruct l, k; try done. by apply flat_parts_inj.
Qed.

Lemma fingerprint_visible m parts :
  Forall worded parts -> all_bytes (fun c => visible c && negb (Ascii.eqb c backslash)) (fingerprint_of m parts) = true.
Proof.
  intros Hw. assert (Hv : forall s, all_bytes word_char s = true -> all_bytes (fun c => visible c && negb (Ascii.eqb c backslash)) s = true).
  { intros s. apply all_bytes_impl. intros c Hc. by apply key_safe_visible, word_char_safe. }
  unfold fingerprint_of. destruct parts as [|part parts]; rewrite !all_bytes_app, (Hv _ (mode_words m)); [done|].
  cbn [andb]. apply andb_true_iff. split; [done|]. revert part Hw. induction parts as [|next parts IH]; intros part Hw.
  - cbn [map join]. apply Forall_cons in Hw as [ [H1 H2] _]. by rewrite !all_bytes_app, (Hv _ H1), (Hv _ H2).
  - apply Forall_cons in Hw as [ [H1 H2] Hw].
    change (join "|" (map _ (part :: next :: parts))) with
      ((part.1 +:+ "=" +:+ part.2) +:+ "|" +:+ join "|" (map (fun part => part.1 +:+ "=" +:+ part.2) (next :: parts))).
    rewrite !all_bytes_app, (Hv _ H1), (Hv _ H2), (IH next Hw). done.
Qed.

(** ** Sharing *)

Lemma fingerprint_sanitized m parts : Forall worded parts -> sanitize_key (fingerprint_of m parts) = map_bytes key_char (fingerprint_of m parts).
Proof. intros Hw. apply sanitize_visible; [by apply fingerprint_visible|]. unfold fingerprint_of. by destruct parts. Qed.

Lemma partition_sanitized m parts :
  Forall worded parts -> sanitize_key (process_partition_of m (fingerprint_of m parts))
    = map_bytes key_char ("execution:" +:+ mode_as_str m +:+ "|affinity:") +:+ map_bytes key_char (fingerprint_of m parts).
Proof.
  intros Hw. unfold process_partition_of. rewrite sanitize_visible; [by rewrite !map_bytes_app, !append_assoc_str| |done].
  rewrite !all_bytes_app, (fingerprint_visible m parts Hw), andb_true_r.
  assert (Hm : all_bytes (fun c => visible c && negb (Ascii.eqb c backslash)) (mode_as_str m) = true) by by destruct m.
  by rewrite Hm.
Qed.

Lemma pool_key_sanitized record m parts :
  Forall worded parts -> exists front,
    sanitize_key (worker_pool_key_of record (fingerprint_of m parts)) = front +:+ map_bytes key_char (fingerprint_of m parts)
    /\ front = map_bytes key_char ("worker-group:" +:+ sanitize_key (sr_name record) +:+ "|mode:"
                 +:+ mode_as_str (mode (sr_execution record)) +:+ "|affinity:").
Proof.
  intros Hw. eexists. split; [|reflexivity]. unfold worker_pool_key_of. rewrite sanitize_visible; [| |done].
  - rewrite !map_bytes_app, (map_bytes_safe (sanitize_key (fingerprint_of m parts))) by apply sanitize_key_safe.
    by rewrite fingerprint_sanitized, !append_assoc_str.
  - assert (Hs : forall v, all_bytes (fun c => visible c && negb (Ascii.eqb c backslash)) (sanitize_key v) = true)
      by (intros v; eapply all_bytes_impl; [exact key_safe_visible|apply sanitize_key_safe]).
    rewrite !all_bytes_app, !Hs.
    assert (Hm : all_bytes (fun c => visible c && negb (Ascii.eqb c backslash)) (mode_as_str (mode (sr_execution record))) = true) by by destruct (mode _).
    by rewrite Hm.
Qed.

(** The route the leases read from the plan of a server. *)
Definition route_of (context : ResolvedContext) (plan : ServerCoordinationPlan) : PlannedRoute :=
  {| server_name := sp_name plan; admission_state := sp_admission_state plan; request_strategy := sp_request_strategy plan;
     request_mutex_key := sp_request_mutex_key plan; session_affinity_key := sp_session_affinity_key plan;
     process_scope_key := sp_process_scope_key plan; process_partition := sp_process_partition plan;
     project_binding_key := sp_project_binding_key plan; worktree_binding_key := sp_worktree_binding_key plan;
     conflict_domain := sp_conflict_domain plan; host_lock_key := sp_host_lock_key plan; state_profile_key := sp_state_profile_key plan;
     scheduler_lane := sp_scheduler_lane plan; startup_strategy := sp_startup_strategy plan;
     upstream_transport := sp_upstream_transport plan; parallelism_limit := sp_parallelism_limit plan;
     route_warnings := sp_warnings plan; route_client_id := rc_client_id context; session_lease_id := rc_session_lease_id context;
     route_session_id := rc_session_id context; route_project_root := rc_project_root context |}.

Definition route_for (record : ServerRecord) (context : ResolvedContext) : PlannedRoute :=
  route_of context (build_server_plan platform record context).

(** The capacity key of a usable server, from the fingerprint of the client. *)
Definition capacity_key_from (record : ServerRecord) (fingerprint : string) : string :=
  let scope := process_scope_key_of record (process_partition_of (mode (sr_execution record)) fingerprint) in
  let mutex := "server:" +:+ sanitize_key (sr_name record) +:+ "|execution-mutex:" +:+ sanitize_key (worker_pool_key_of record fingerprint) in
  match mode (sr_execution record) with
  | Serialized | SessionIsolated | ProjectIsolated => mutex
  | Shared => if (effective_capacity (sr_execution record) (resolve_upstream_transport record) <=? 1)%N then mutex else scope
  | _ => scope
  end.

Lemma affinity_resolved_key record context :
  sp_affinity_resolved (build_server_plan platform record context) = true ->
  exists key, affinity_key (sr_execution record) (affinity_context record context) = Ok key
    /\ sp_affinity_fingerprint (build_server_plan platform record context) = key_fingerprint key.
Proof.
  unfold build_server_plan, resolve_scope. cbn [sp_affinity_resolved sp_affinity_fingerprint].
  unfold resolve_affinity. destruct (affinity_key _ _) as [key|e]; [|done]. intros _. by exists key.
Qed.

Lemma capacity_key_of_route record context :
  sp_affinity_resolved (build_server_plan platform record context) = true ->
  server_is_not_routable record = false -> is_disabled (sr_execution record) = false ->
  sr_transport_status record <> "legacy-compat" ->
  route_capacity_key (route_for record context)
  = capacity_key_from record (sp_affinity_fingerprint (build_server_plan platform record context)).
Proof.
  intros Ha Hr Hd Hl. apply String.eqb_neq in Hl. unfold route_capacity_key, route_for, route_of, build_server_plan in *.
  cbn [request_mutex_key process_scope_key sp_request_mutex_key sp_process_scope_key sp_affinity_resolved sp_affinity_fingerprint] in *.
  unfold resolve_request_strategy. rewrite Hr, Hd, Hl, Ha. cbn [orb negb]. unfold resolve_scope, capacity_key_from, strategy_of_mode, mutex_key_of.
  destruct (resolve_affinity record context) as [ [b f] w]. cbn [sc_parallelism_limit sc_process_scope_key sc_worker_pool_key sc_affinity_fingerprint].
  destruct (mode (sr_execution record)); try done. by destruct (_ <=? 1)%N.
Qed.

Lemma capacity_key_inj record l k :
  Forall worded l -> Forall worded k -> length l = length k ->
  capacity_key_from record (fingerprint_of (mode (sr_execution record)) l)
    = capacity_key_from record (fingerprint_of (mode (sr_execution record)) k) ->
  l = k.
Proof.
  intros Hl Hk Hlen. set (m := mode (sr_execution record)).
  assert (Hmutex : forall a b : string, "server:" +:+ sanitize_key (sr_name record) +:+ "|execution-mutex:" +:+ a
            = "server:" +:+ sanitize_key (sr_name record) +:+ "|execution-mutex:" +:+ b -> a = b).
  { intros a b E. by repeat apply append_inj_r in E. }
  assert (H1 : sanitize_key (worker_pool_key_of record (fingerprint_of m l)) = sanitize_key (worker_pool_key_of record (fingerprint_of m k)) -> l = k).
  { destruct (pool_key_sanitized record m l Hl) as (f & -> & Ef), (pool_key_sanitized record m k Hk) as (g & -> & Eg). subst f g.
    intros E. apply append_inj_r in E. by apply fingerprint_key_inj in E. }
  assert (H2 : process_scope_key_of record (process_partition_of m (fingerprint_of m l))
               = process_scope_key_of record (process_partition_of m (fingerprint_of m k)) -> l = k).
  { unfold process_scope_key_of. intros E. repeat apply append_inj_r in E. rewrite !partition_sanitized in E by done.
    apply append_inj_r in E. by apply fingerprint_key_inj in E. }
  unfold capacity_key_from. fold m. repeat case_stuck; eauto.
Qed.

(** ** Reading a plan *)

Lemma find_map_comm {A B} (g : A -> B) (p : B -> bool) l : List.find p (map g l) = option_map g (List.find (fun x => p (g x)) l).
Proof. induction l as [|x l IH]; [done|]. cbn. by destruct (p (g x)). Qed.

Lemma find_planned_server plan name :
  find_server_plan (plan_json plan) name
  = option_map server_plan_json
      (List.find (fun sp => eq_ignore_ascii_case (trim (sp_name sp)) (to_ascii_lowercase (trim name))) (cp_servers plan)).
Proof.
  unfold find_server_plan. change (array_at_path (plan_json plan) ["servers"]) with (Some (map server_plan_json (cp_servers plan))).
  cbv beta iota zeta. by rewrite find_map_comm.
Qed.

Lemma strings_json_read (values : list string) : omap as_str (map json_string values) = values.
Proof. induction values as [|v values IH]; [done|]. cbn. by rewrite IH. Qed.

Lemma limit_read plan : (sp_parallelism_limit plan <= Z.to_N I64_MAX)%N -> required_usize (server_plan_json plan) ["parallelismLimit"] = sp_parallelism_limit plan.
Proof.
  intros Hb. unfold required_usize. change (value_at_path (server_plan_json plan) ["parallelismLimit"]) with (Some (json_number (sp_parallelism_limit plan))).
  cbn [mbind option_bind as_i64 json_number]. rewrite parse_i64_N_to_string by (unfold I64_MAX in *; lia).
  destruct (Z.ltb_spec (Z.of_N (sp_parallelism_limit plan)) 0); [lia|]. by rewrite N2Z.id.
Qed.

Lemma strategy_capacity record scope :
  (rs_parallelism_limit (resolve_request_strategy record scope) <= N.max (sc_parallelism_limit scope) 1)%N.
Proof.
  unfold resolve_request_strategy, strategy_of_mode. repeat case_stuck; cbn [rs_parallelism_limit]; lia.
Qed.

Lemma planned_limit record context :
  policy_wf (sr_execution record) -> (sp_parallelism_limit (build_server_plan platform record context) <= MAX_WORKERS * MAX_IN_FLIGHT_PER_WORKER)%N.
Proof.
  intros Hwf. unfold build_server_plan. cbn [sp_parallelism_limit].
  assert (Hc : sc_parallelism_limit (resolve_scope record context) = effective_capacity (sr_execution record) (resolve_upstream_transport record)).
  { unfold resolve_scope. by destruct (resolve_affinity record context) as [ [b f] w]. }
  pose proof (strategy_capacity record (resolve_scope record context)) as Hs. rewrite Hc in Hs.
  destruct (effective_capacity_bounds _ (resolve_upstream_transport record) Hwf) as (_ & Hb & _). unfold MAX_WORKERS, MAX_IN_FLIGHT_PER_WORKER in *. lia.
Qed.

(** ** Blockers *)

Lemma sort_dedup_nil l : sort_dedup l = [] <-> l = [].
Proof.
  split; [|by intros ->]. intros E. destruct l as [|x l]; [done|]. assert (Hin : x ∈ sort_dedup (x :: l)) by (apply sort_dedup_elem; by left).
  rewrite E in Hin. by apply not_elem_of_nil in Hin.
Qed.

(** The texts that keep a route from being granted. *)
Definition blocking_text (warning : string) : bool :=
  str_contains "requires a project root but no project root was resolved" warning
  || str_contains "no project root was resolved" warning
  || str_contains "not declared for the current platform" warning.

Lemma filter_nil {A} (p : A -> bool) l : List.filter p l = [] <-> Forall (fun x => p x = false) l.
Proof.
  induction l as [|x l IH]; [by split|]. cbn. rewrite Forall_cons, <- IH. destruct (p x); [|tauto].
  split; [done|by intros [? _] ].
Qed.

(** When the client can use the server. *)
Definition usable (record : ServerRecord) (context : ResolvedContext) : Prop :=
  plan_admission_state record = "configured-source" /\ server_is_not_routable record = false
  /\ is_disabled (sr_execution record) = false /\ sr_transport_status record <> "legacy-compat"
  /\ is_ok (affinity_key (sr_execution record) (affinity_context record context)) = true
  /\ (requires_project_binding record = true ->
      exists root, rc_project_root context = Some root /\ starts_with "pending:" (sanitize_key root) = false).

Lemma planned_strategy record context :
  let plan := build_server_plan platform record context in
  String.eqb (sp_request_strategy plan) "disabled-no-route" || String.eqb (sp_request_strategy plan) "legacy-compat-disabled"
  || String.eqb (sp_scheduler_lane plan) "disabled" || String.eqb (sp_scheduler_lane plan) "legacy-disabled"
  || String.eqb (sp_startup_strategy plan) "disabled" || (sp_parallelism_limit plan =? 0)%N = false
  <-> server_is_not_routable record = false /\ is_disabled (sr_execution record) = false
      /\ sr_transport_status record <> "legacy-compat"
      /\ is_ok (affinity_key (sr_execution record) (affinity_context record context)) = true.
Proof.
  cbv zeta. unfold build_server_plan. cbn [sp_request_strategy sp_scheduler_lane sp_startup_strategy sp_parallelism_limit].
  assert (Hst : sc_startup_strategy (resolve_scope record context) = sr_startup_strategy record
                /\ sc_affinity_resolved (resolve_scope record context)
                   = is_ok (affinity_key (sr_execution record) (affinity_context record context))).
  { unfold resolve_scope, resolve_affinity. by destruct (affinity_key _ _). }
  destruct Hst as [Hst Hok]. rewrite <- Hok, Hst. unfold resolve_request_strategy.
  destruct (server_is_not_routable record) eqn:Er; [cbn; split; [done|by intros [? _] ]|].
  destruct (is_disabled (sr_execution record)) eqn:Ed; [cbn; split; [done|by intros (_ & ? & _)]|]. cbn [orb].
  destruct (String.eqb_spec (sr_transport_status record) "legacy-compat") as [El|El]; [cbn; split; [done|by intros (_ & _ & ? & _)]|].
  destruct (sc_affinity_resolved _) eqn:Ea; [|cbn; split; [rewrite !orb_true_r; done|by intros (_ & _ & _ & ?)]]. cbn [negb].
  split; [done|]. intros _.
  assert (Es : String.eqb (sr_startup_strategy record) "disabled" = false).
  { unfold server_is_not_routable in Er. bool_prop. by apply String.eqb_neq. }
  rewrite Es. unfold is_disabled in Ed. unfold strategy_of_mode.
  destruct (mode (sr_execution record)); try done; cbn [rs_name rs_scheduler_lane rs_parallelism_limit orb].
  - destruct (N.leb_spec (sc_parallelism_limit (resolve_scope record context)) 1); [done|]. cbn. apply N.eqb_neq. lia.
  - cbn. apply N.eqb_neq. lia.
  - cbn. apply N.eqb_neq. lia.
  - destruct (no_evidence record); cbn; apply N.eqb_neq; lia.
Qed.

(** ** Claims *)

(** C19: clients share the capacity of a server (its mutex, or its group of workers) exactly when
    their affinity has the same fingerprint, and so only when every dimension the policy
    names has a value of the same length and 64-bit hash in both: neither the cleaning of
    the keys nor their nesting makes two affinities one. *)
Theorem affinity_decides_sharing record c1 c2 :
  policy_wf (sr_execution record) -> server_is_not_routable record = false -> is_disabled (sr_execution record) = false ->
  sr_transport_status record <> "legacy-compat" ->
  let p1 := build_server_plan platform record c1 in
  let p2 := build_server_plan platform record c2 in
  sp_affinity_resolved p1 = true -> sp_affinity_resolved p2 = true ->
  (route_capacity_key (route_of c1 p1) = route_capacity_key (route_of c2 p2)
   <-> sp_affinity_fingerprint p1 = sp_affinity_fingerprint p2)
  /\ (route_capacity_key (route_of c1 p1) = route_capacity_key (route_of c2 p2) ->
      forall d, d ∈ affinity (sr_execution record) ->
      exists v v', affinity_value (affinity_context record c1) d = Some v /\ affinity_value (affinity_context record c2) d = Some v'
        /\ str_len v = str_len v' /\ hash_str v = hash_str v').
Proof.
  intros Hwf Hr Hd Hl p1 p2 H1 H2.
  assert (Hs : Forall (fun d => is_supported_affinity d = true) (affinity (sr_execution record))).
  { destruct Hwf as [Ha|Ho]; [apply Ha|]. unfold is_disabled in Hd. by rewrite (off_mode _ Ho) in Hd. }
  pose proof (capacity_key_of_route record c1 H1 Hr Hd Hl) as K1. pose proof (capacity_key_of_route record c2 H2 Hr Hd Hl) as K2.
  change (route_for record c1) with (route_of c1 p1) in K1. change (route_for record c2) with (route_of c2 p2) in K2. rewrite K1, K2.
  destruct (affinity_resolved_key record c1 H1) as (k1 & E1 & F1), (affinity_resolved_key record c2 H2) as (k2 & E2 & F2).
  fold p1 in F1, K1 |- *. fold p2 in F2, K2 |- *.
  assert (Heq : capacity_key_from record (sp_affinity_fingerprint p1) = capacity_key_from record (sp_affinity_fingerprint p2)
            <-> sp_affinity_fingerprint p1 = sp_affinity_fingerprint p2).
  { split; [|by intros ->]. rewrite F1, F2.
    destruct (affinity_parts _ _ _ Hs E1) as (l & -> & Fl & Wl), (affinity_parts _ _ _ Hs E2) as (k & -> & Fk & Wk).
    intros E. apply capacity_key_inj in E as ->; try done. apply (f_equal (@length string)) in Fl, Fk. rewrite !length_map in *. congruence. }
  split; [exact Heq|]. rewrite Heq, F1, F2. intros E d. by apply (affinity_key_separates _ _ _ k1 k2).
Qed.

(** C30: the route of a lease is the plan of its server: of the first server of the plan whose
    name fits, with every key, the lane, the strategy and the capacity as they were planned;
    a name that fits no server is an error. *)
Theorem routes_follow_plans environment sources request plan name :
  build_plan_struct environment platform configured_mcp_url sources request = Ok plan ->
  (forall records, ps_server_records sources = Ok records -> Forall (fun record => policy_wf (sr_execution record)) records) ->
  planned_route_from_plan (plan_json plan) name
  = match List.find (fun sp => eq_ignore_ascii_case (trim (sp_name sp)) (to_ascii_lowercase (trim name))) (cp_servers plan) with
    | Some sp => Ok (route_of (cp_context plan) sp)
    | None => Err ("server '" +:+ name +:+ "' was not found in the client routing plan")
    end.
Proof.
  intros Hb Hwf. assert (Hl : Forall (fun sp => (sp_parallelism_limit sp <= Z.to_N I64_MAX)%N) (cp_servers plan)).
  { unfold build_plan_struct in Hb. destruct (ps_server_records sources) as [records|]; [|done].
    destruct (ps_client_targets sources); [|done]. destruct (load_metadata environment request); [|done]. injection Hb as <-.
    unfold build_plan. cbn [cp_servers]. specialize (Hwf records eq_refl). rewrite Forall_map. eapply Forall_impl; [exact Hwf|].
    intros record Hr. pose proof (planned_limit record) as Hp. cbn beta. etransitivity; [by apply Hp|].
    unfold MAX_WORKERS, MAX_IN_FLIGHT_PER_WORKER, I64_MAX. lia. }
  unfold planned_route_from_plan. rewrite find_planned_server. destruct (List.find _ (cp_servers plan)) as [sp|] eqn:Ef; [|done].
  cbn [option_map ok_or]. change (value_at_path (plan_json plan) ["context"]) with (Some (context_json (cp_context plan))).
  cbn [ok_or]. apply find_some in Ef as [Hin _]. rewrite Forall_forall in Hl.
  rewrite limit_read by by apply Hl, list_elem_of_In. unfold route_of. repeat f_equal; try apply optional_string_or_null; try reflexivity.
  unfold strings_at. change (array_at_path (server_plan_json sp) ["warnings"]) with (Some (map json_string (sp_warnings sp))).
  apply strings_json_read.
Qed.

(** C26: a route can be granted exactly when the client can use the server (it is configured,
    runs here, is enabled, is no legacy transport, the client has every identity its policy
    isolates by, and the project it is bound to is known) and nothing its warnings say is
    taken for a reason against it; so a server that needs a project or a worktree is never
    granted to a client without one, nor one that is not made for this platform. *)
Theorem routes_are_granted_iff_usable record context :
  (route_blockers (route_for record context) = []
   <-> usable record context /\ Forall (fun w => blocking_text w = false) (sp_warnings (build_server_plan platform record context)))
  /\ (route_blockers (route_for record context) = [] ->
      supports_current_platform platform (sr_platforms record) = true
      /\ (requires_project_binding record || requires_worktree_binding record = true -> rc_project_root context <> None)).
Proof.
  assert (H1 : route_blockers (route_for record context) = []
    <-> usable record context /\ Forall (fun w => blocking_text w = false) (sp_warnings (build_server_plan platform record context))).
  { unfold route_blockers. rewrite sort_dedup_nil, !app_nil. pose proof (planned_strategy record context) as Hs. cbv zeta in Hs.
    unfold route_for, route_of. cbn [admission_state request_strategy scheduler_lane startup_strategy parallelism_limit project_binding_key route_warnings].
    rewrite filter_nil. unfold blocking_text, usable. change (sp_admission_state (build_server_plan platform record context)) with (plan_admission_state record).
    assert (Hp : (if match sp_project_binding_key (build_server_plan platform record context) with
                     | Some value => starts_with "project:pending:" value | None => false end
                  then ["server '" +:+ server_name (route_for record context) +:+ "' needs an explicit project root before a runtime lease can be granted"]
                  else []) = []
               <-> (requires_project_binding record = true ->
                    exists root, rc_project_root context = Some root /\ starts_with "pending:" (sanitize_key root) = false)).
    { unfold build_server_plan, resolve_scope. destruct (resolve_affinity record context) as [ [b f] w].
      cbn [sp_project_binding_key sc_project_binding_key]. unfold resolve_project_binding_key.
      destruct (requires_project_binding record); [|done]. destruct (rc_project_root context) as [root|]; cbn [fst].
      - change (starts_with "project:pending:" ("project:" +:+ sanitize_key root)) with (starts_with "pending:" (sanitize_key root)).
        destruct (starts_with "pending:" (sanitize_key root)) eqn:E; split; try done; [|by exists root].
        intros Hx. destruct (Hx eq_refl) as (r & [= <-] & Hr). congruence.
      - rewrite starts_with_app. split; [done|]. intros Hx. by destruct (Hx eq_refl) as (r & ? & _). }
    destruct (String.eqb_spec (plan_admission_state record) "configured-source"); [|split; [by intros [? _]|by intros [ (? & _) _] ] ].
    match goal with |- context [if ?c then _ else _] => destruct c eqn:Ec end.
    - split; [by intros (_ & ? & _)|]. intros ( (_ & Hr & Hd & Hl & Ha & _) & _).
      assert (Hx : true = false); [|done]. apply Hs. by split_and!.
    - destruct (proj1 Hs eq_refl) as (Hr & Hd & Hl & Ha).
      split; [intros (_ & _ & Hq & Hw); split; [|exact Hw]; split_and!; try done; by apply Hp|].
      intros ( (_ & _ & _ & _ & _ & Hq) & Hw). split_and!; try done. by apply Hp. }
  split; [exact H1|]. intros [Hu Hw]%H1. rewrite Forall_forall in Hw. split.
  - destruct (supports_current_platform platform (sr_platforms record)) eqn:E; [done|]. exfalso.
    assert (Hin : sr_name record +:+ " is not declared for the current platform '" +:+ platform
            +:+ "'; installer/startup logic should skip it unless an override proves compatibility."
            ∈ sp_warnings (build_server_plan platform record context)).
    { unfold build_server_plan. cbn [sp_warnings]. apply sort_dedup_elem. rewrite !elem_of_app. right. right. unfold record_warnings.
      rewrite E. rewrite !elem_of_app. right. right. by left. }
    specialize (Hw _ Hin). unfold blocking_text in Hw. apply orb_false_iff in Hw as [_ Hw]. revert Hw.
    change (" is not declared for the current platform '" +:+ ?x) with (" is " +:+ "not declared for the current platform" +:+ " '" +:+ x).
    rewrite <- append_assoc_str. by rewrite str_contains_app.
  - intros Hreq Hroot.
    assert (Hin : sr_name record +:+ " requires a project root but no project root was resolved; routing should pause or isolate this server until a project is known."
            ∈ sp_warnings (build_server_plan platform record context)).
    { unfold build_server_plan. cbn [sp_warnings]. apply sort_dedup_elem. rewrite elem_of_app. left. unfold resolve_scope, resolve_project_binding_key.
      rewrite Hroot. destruct (resolve_affinity record context) as [ [b f] w]. cbn [sc_warnings]. rewrite Hreq. by left. }
    specialize (Hw _ Hin). unfold blocking_text in Hw. apply orb_false_iff in Hw as [ [Hw _]%orb_false_iff _]. revert Hw.
    change " requires a project root but no project root was resolved; routing should pause or isolate this server until a project is known."
      with (" " +:+ "requires a project root but no project root was resolved" +:+ "; routing should pause or isolate this server until a project is known.").
    rewrite <- append_assoc_str. by rewrite str_contains_app.
Qed.

End routes.

(** ** Counting *)

(** The counters of a plan: every usable server is counted once, as safe for parallel use
    or as serialized, the isolated ones once more; and the hub owns a process exactly when
    a usable server speaks over stdio. *)
Theorem plan_counts_exact plans :
  let counts := count_plans plans in
  let routable := List.filter server_plan_is_routable plans in
  let isolated sp := mode_eqb (mode (sp_execution sp)) SessionIsolated || mode_eqb (mode (sp_execution sp)) ProjectIsolated in
  let parallel sp := (mode_eqb (mode (sp_execution sp)) Shared || mode_eqb (mode (sp_execution sp)) Pool) && (1 <? sp_parallelism_limit sp)%N in
  parallel_safe counts = len_N (List.filter parallel routable)
  /\ (parallel_safe counts + serialized counts = len_N routable)%N
  /\ exclusive counts = len_N (List.filter isolated routable)
  /\ (exclusive counts <= serialized counts)%N
  /\ hub_owned_stdio counts = existsb (fun sp => String.eqb (sp_upstream_transport sp) "stdio") routable.
Proof.
  cbv zeta. unfold count_plans. induction plans as [|plan plans IH] using rev_ind; [done|].
  rewrite fold_left_app, List.filter_app. cbn [fold_left List.filter]. revert IH.
  generalize (fold_left count_plan plans (mkCounts 0 0 0 false)). intros counts (H1 & H2 & H3 & H4 & H5).
  unfold count_plan. destruct (server_plan_is_routable plan); [|by rewrite app_nil_r].
  cbn [parallel_safe serialized exclusive hub_owned_stdio]. rewrite !List.filter_app, !existsb_app, !len_N_app. cbn [List.filter existsb].
  rewrite orb_false_r, H5.
  assert (Hx : mode_eqb (mode (sp_execution plan)) SessionIsolated || mode_eqb (mode (sp_execution plan)) ProjectIsolated = true ->
            mode_eqb (mode (sp_execution plan)) Shared || mode_eqb (mode (sp_execution plan)) Pool = false)
    by by destruct (mode (sp_execution plan)).
  repeat split.
  - destruct (_ && _); rewrite H1; unfold len_N; cbn; lia.
  - destruct (_ && _); unfold len_N in *; cbn; lia.
  - destruct (_ || _); rewrite H3; unfold len_N; cbn; lia.
  - destruct (mode_eqb _ SessionIsolated || _); [rewrite (Hx eq_refl); cbn [andb]; lia|]. destruct (_ && _); lia.
Qed.

(** ** Witnesses *)

Definition sample_record (policy : ExecutionPolicy) : ServerRecord := {|
  sr_name := "files"; sr_kind := "stdio"; sr_required := false; sr_default_enabled := true; sr_profile_enabled := true;
  sr_platform_supported := true; sr_effective_enabled := true; sr_auto_start := true; sr_transport_preference := "stdio";
  sr_supported_transports := ["stdio"]; sr_platforms := []; sr_required_commands := []; sr_scope_class := "project-local";
  sr_concurrency_policy := "isolated-per-project"; sr_state_binding := "none"; sr_credential_binding := "none"; sr_parallelism_limit := 1;
  sr_parallel_safety_class := "P2_isolated"; sr_runtime_type := "node"; sr_state_class := "project"; sr_effect_class := "read-write";
  sr_default_pool_model := "per-project"; sr_max_workers := 1; sr_max_in_flight_per_worker := 1; sr_execution := policy;
  sr_transport_status := "supported"; sr_launcher_kind := "npx"; sr_lock_domains := []; sr_profile_evidence := []; sr_conflict_domain := EmptyString;
  sr_project_root_mode := "required"; sr_worktree_binding := "none"; sr_state_profile_mode := "none"; sr_host_lock := "none";
  sr_startup_strategy := "on-demand"; sr_routing_group := "stateless"; sr_discovery_requires_lease := false; sr_health_url := EmptyString;
  sr_source_enabled := true; sr_source_type := "stdio"; sr_source_path := "mcp_settings.json"; sr_source_command := "npx"; sr_source_args := [];
  sr_source_env_names := []; sr_source_header_names := []; sr_source_url := EmptyString; sr_tool_policies := [];
  sr_installer_target := EmptyString; sr_installer_method := EmptyString; sr_installer_package := EmptyString; sr_installer_verify_command := EmptyString
|}.

Definition sample_request (root : string) : PlanRequest := mkPlanRequest (Some "codex") (Some "s 1") (Some root) None None.

Definition sample_client (root : string) : ResolvedContext := resolve_context (fun _ => None) (sample_request root) empty_envelope.

Definition sample_isolated : ExecutionPolicy := normalize (for_mode ProjectIsolated).

Lemma affinity_decides_sharing_witness :
  route_capacity_key (route_for (H := TreeCodec.codec) (H0 := FnvHasher.hasher) "linux" (sample_record sample_isolated) (sample_client "/a b"))
  <> route_capacity_key (route_for (H := TreeCodec.codec) (H0 := FnvHasher.hasher) "linux" (sample_record sample_isolated) (sample_client "/a_b")).
Proof.
  intros E. revert E.
  destruct (affinity_decides_sharing (H := TreeCodec.codec) (H0 := FnvHasher.hasher) "linux" (sample_record sample_isolated)
              (sample_client "/a b") (sample_client "/a_b")) as [Hiff _].
  - apply normalize_wf.
  - by vm_compute.
  - by vm_compute.
  - done.
  - by vm_compute.
  - by vm_compute.
  - intros E%Hiff. revert E. vm_compute. discriminate.
Defined.

Definition sample_sources : PlanSources := mkSources (Ok [sample_record sample_isolated]) (Ok []) "/root" None None.

Lemma routes_follow_plans_witness :
  exists plan, build_plan_struct (H := TreeCodec.codec) (H0 := FnvHasher.hasher) (fun _ => None) "linux" "http://127.0.0.1:7331/mcp" sample_sources
                 (sample_request "/work") = Ok plan
    /\ planned_route_from_plan (plan_json plan) " FILES "
       = Ok (route_for (H := TreeCodec.codec) (H0 := FnvHasher.hasher) "linux" (sample_record sample_isolated) (sample_client "/work")).
Proof.
  eexists. split; [reflexivity|].
  rewrite (routes_follow_plans (H := TreeCodec.codec) (H0 := FnvHasher.hasher) "linux" "http://127.0.0.1:7331/mcp" (fun _ => None) sample_sources
             (sample_request "/work")); [reflexivity|reflexivity|].
  intros records [= <-]. constructor; [apply normalize_wf|constructor].
Defined.

Lemma routes_are_granted_iff_usable_witness :
  route_blockers (route_for (H := TreeCodec.codec) (H0 := FnvHasher.hasher) "linux" (sample_record sample_isolated) (sample_client "/work")) = []
  /\ rc_project_root (sample_client "/work") <> None.
Proof.
  assert (E : route_blockers (route_for (H := TreeCodec.codec) (H0 := FnvHasher.hasher) "linux" (sample_record sample_isolated) (sample_client "/work")) = [])
    by by vm_compute.
  split; [exact E|].
  apply (proj2 (routes_are_granted_iff_usable (H := TreeCodec.codec) (H0 := FnvHasher.hasher) "linux" (sample_record sample_isolated) (sample_client "/work")) E).
  by vm_compute.
Defined.
