(* ===== verification/SourceSignals.v ===== *)
(** * What the configuration of a server gives away (src/server/loader.rs)

    Which of the arguments and hints of a configured server mean something, and the signals
    that its command, address and those arguments give of what it does.  The policies that
    follow from the signals are in [SourcePolicy].

    A [BTreeSet<String>] is the list of its elements in order without repetition.  A text is
    its bytes; [signal_tokens] splits at every byte that is no ASCII letter, digit or
    underscore, which gives the parts the source's split at such characters gives, up to
    empty ones. *)

From Stdlib Require Import Ascii.
From S2P Require Import Prelude RustStr BTree TextUtils Execution.

(** ** Arguments *)

(** [trim_matches] of both kinds of quotes. *)
Fixpoint drop_quotes (l : list ascii) : list ascii :=
  match l with
  | [] => []
  | c :: rest => if Ascii.eqb c double_quote || Ascii.eqb c single_quote then drop_quotes rest else l
  end.

Definition trim_quotes (s : string) : string := of_bytes (rev (drop_quotes (rev (drop_quotes (bytes s))))).

Definition looks_like_launcher_package_signal (value : string) : bool :=
  if str_is_empty value || String.eqb value "." || String.eqb value ".." || starts_with "-" value
     || starts_with "/" value || starts_with "./" value || starts_with "../" value
     || starts_with "~/" value || starts_with "http://" value || starts_with "https://" value
     || contains_char backslash value
  then false
  else if contains_char "/" value && negb (starts_with "@" value) then false
  else starts_with "@" value || str_contains "mcp" value || str_contains "modelcontextprotocol" value
       || str_contains "server-" value || str_contains "-server" value.

Definition exact_signals : list string :=
  ["stdio"; "http"; "https"; "sse"; "streamable-http"; "read-only"; "readonly"; "no-write"].

Definition semantic_flags : list string :=
  ["--transport"; "--stdio"; "--http"; "--sse"; "--streamable-http"; "--read-only"; "--readonly";
   "--no-write"; "--write"; "--allow-read"; "--allow-write"; "--workspace"; "--project"; "--root";
   "--path"; "--db"; "--database"; "--browser-profile"; "--profile"].

Definition raw_arg_is_semantic_signal (value : string) : bool :=
  let normalized := to_ascii_lowercase (trim_quotes (trim value)) in
  if str_is_empty normalized then false
  else if one_of exact_signals normalized then true
  else if looks_like_launcher_package_signal normalized then true
  else if negb (starts_with "-" normalized) then false
  else existsb (fun flag => String.eqb normalized flag || starts_with (flag +:+ "=") normalized) semantic_flags.

Definition source_signal_args (args profile_hints : list string) : list string :=
  sort_dedup (List.filter raw_arg_is_semantic_signal args
              ++ List.filter (fun value => negb (str_is_empty value)) (map trim profile_hints)).

(** ** Words *)

(** The part after the last slash or backslash, as [rsplit(..).next()]. *)
Fixpoint after_last_slash (acc l : list ascii) : list ascii :=
  match l with
  | [] => acc
  | c :: rest =>
      if Ascii.eqb c "/" || Ascii.eqb c backslash then after_last_slash [] rest
      else after_last_slash (acc ++ [c]) rest
  end.

Definition command_shells : list string :=
  ["sh"; "bash"; "zsh"; "fish"; "cmd"; "cmd.exe"; "powershell"; "powershell.exe"; "pwsh"; "pwsh.exe"; "ssh";
   "ssh.exe"; "sftp"; "sftp.exe"; "terminal"].

Definition command_semantic_signal (command : string) : string :=
  let command_name :=
    to_ascii_lowercase (trim_quotes (of_bytes (after_last_slash [] (bytes (trim command))))) in
  if one_of command_shells command_name then command_name
  else if looks_like_launcher_package_signal command_name then command_name
  else EmptyString.

Definition token_char (c : ascii) : bool := is_ascii_alphanumeric c || Ascii.eqb c "_".

Fixpoint token_parts (current l : list ascii) : list string :=
  match l with
  | [] => [of_bytes current]
  | c :: rest => if token_char c then token_parts (current ++ [c]) rest else of_bytes current :: token_parts [] rest
  end.

Definition signal_tokens (text : string) : list string :=
  sort_dedup (List.filter (fun part => negb (str_is_empty part)) (token_parts [] (bytes text))).

Definition has_any_token (tokens needles : list string) : bool := existsb (one_of tokens) needles.

Definition has_any_substring (haystack : string) (needles : list string) : bool :=
  existsb (fun needle => str_contains needle haystack) needles.

(** ** Signals *)

Fixpoint set_insert (name : string) (signals : list string) : list string :=
  match signals with
  | [] => [name]
  | x :: rest =>
      match str_cmp name x with
      | Lt => name :: signals
      | Eq => signals
      | Gt => x :: set_insert name rest
      end
  end.

Definition insert_if (condition : bool) (name : string) (signals : list string) : list string :=
  if condition then set_insert name signals else signals.

Section signals.
Context (haystack : string) (tokens : list string).

Definition token : list string -> bool := has_any_token tokens.
Definition substring : list string -> bool := has_any_substring haystack.

Definition remote_file_api : bool :=
  substring
    ["google-drive"; "google drive"; "google-docs"; "google docs"; "google-sheets"; "google sheets";
     "google-slides"; "google slides"; "google-workspace"; "google workspace"; "onedrive"; "dropbox";
     "sharepoint"]
  || (token ["google"] && (token ["drive"] || token ["docs"] || token ["sheets"] || token ["slides"] || token ["workspace"])).

Definition filesystem_signals (signals : list string) : list string :=
  let signals :=
    insert_if
      (negb remote_file_api
       && (token
             ["filesystem"; "file-system"; "file"; "files"; "directory"; "directories"; "folder";
              "path"; "read_file"; "write_file"]
           || substring ["server-filesystem"; "@modelcontextprotocol/server-filesystem"]))
      "filesystem" signals in
  insert_if remote_file_api "credentials-or-auth" (insert_if remote_file_api "network-or-external-api" signals).

Definition runnable_server_marker : bool :=
  token ["server"; "mcp-server"; "stdio"; "streamable"; "sse"]
  || substring ["mcp server"; "model context protocol server"].

Definition explicit_sdk_or_framework : bool :=
  token
    ["sdk"; "framework"; "middleware"; "inspector-client"; "inspector-cli"; "eval"; "evaluation";
     "instrumentation"; "fastmcp"; "nestjs"; "genkit"]
  || substring
       ["mcp-framework"; "shared utilities"; "client-side application";
        "model context protocol inspector"; "mcp apps middleware"; "mcp sdk"; "mcp utilities"].

Definition weak_library_signal : bool :=
  token ["plugin"; "module"; "library"; "utils"; "utilities"] && negb runnable_server_marker.

Definition example_or_demo : bool :=
  token ["demo"; "example"; "starter"; "sample"; "basic"; "preact"]
  || substring
       ["cohort heatmap"; "budget allocator"; "customer segmentation"; "basic mcp app";
        "mcp app server example"].

Definition sdk_signals : list string -> list string :=
  insert_if (explicit_sdk_or_framework || weak_library_signal || (example_or_demo && negb runnable_server_marker))
    "sdk-or-example".

Definition code_hosting_api : bool :=
  token ["github"; "gitlab"; "gitea"; "bitbucket"; "sourcegraph"].

Definition git_signals : list string -> list string :=
  insert_if
    ((token
        ["git"; "worktree"; "branch"; "commit"; "diff"; "checkout"; "repo-path"; "repository-root"]
      || substring ["server-git"; "mcp-server-git"])
     && negb code_hosting_api)
    "git-repository".

Definition network_database : bool :=
  token ["postgres"; "postgresql"; "mysql"; "mssql"; "mariadb"; "redis"; "supabase"].

Definition file_database : bool := token ["sqlite"; "duckdb"; "db-path"; "database-file"].

Definition database_signals (signals : list string) : list string :=
  let signals :=
    insert_if
      (token
         ["sqlite"; "postgres"; "postgresql"; "mysql"; "mssql"; "mariadb"; "redis"; "duckdb";
          "database"; "sql"; "db"; "db-path"; "table"])
      "database" signals in
  insert_if file_database "file-database" (insert_if network_database "network-database" signals).

Definition browser_data_only : bool :=
  token ["caniuse"; "compat"; "compatibility"; "browserslist"; "feature-table"]
  || substring ["browser feature"; "browser support"; "compat-data"].

Definition browser_observation_surface : bool :=
  token
    ["browser"; "chrome"; "chromium"; "extension"; "tab"; "tabs"; "bookmark"; "bookmarks"; "history"]
  || substring ["browser tabs"; "chrome tabs"; "browser bookmarks"].

Definition browser_observation_only : bool :=
  negb browser_data_only && browser_observation_surface
  && token ["tab"; "tabs"; "bookmark"; "bookmarks"; "history"; "active-tab"; "open-tabs"]
  && negb (token
             ["click"; "navigate"; "automation"; "automate"; "playwright"; "puppeteer"; "webdriver";
              "safaridriver"; "stagehand"]).

Definition remote_browser_provider : bool :=
  token ["browserbase"; "browserstack"; "apify"; "stagehand"; "remote-browser"; "cloud-browser"]
  || substring ["browserbase"; "browserstack"; "remote browser"; "cloud browser"].

Definition browser_control_action : bool :=
  token
    ["playwright"; "puppeteer"; "screenshot"; "click"; "navigate"; "devtools"; "cdp"; "webdriver";
     "safaridriver"; "stagehand"; "android"; "adb"; "ios"; "simulator"; "mobile-automation"]
  || substring
       ["browser automation"; "control browser"; "automate browser"; "mcpbrowser"; "sessionmcp";
        "mcp-browser"; "browser-kit"; "chrome-devtools"].

Definition chrome_control : bool :=
  token ["chrome"; "chromium"] && token ["devtools"; "cdp"; "extension"; "debug"; "debugger"].

Definition browser_automation : bool := remote_browser_provider || browser_control_action || chrome_control.

Definition browser_signals (signals : list string) : list string :=
  if browser_observation_only then set_insert "browser-observation" signals
  else if browser_automation && negb browser_data_only then
    if remote_browser_provider then set_insert "remote-browser-session" signals
    else set_insert "browser-or-desktop" signals
  else signals.

Definition memory_signals : list string -> list string :=
  insert_if
    (token
       ["memory"; "sequential-thinking"; "context-store"; "thinking"; "remember"; "notes"; "note"])
    "memory-or-context".

Definition utility_signals : list string -> list string :=
  insert_if
    (token ["time"; "timezone"; "clock"; "date"; "calculator"; "calculate"; "math"]) "local-utility".

Definition fetch_signals (url : string) : list string -> list string :=
  insert_if
    (token ["fetch"; "http"; "https"; "url"; "web"; "scrape"; "crawler"; "search"]
     || negb (str_is_empty (trim url)))
    "network-fetch".

Definition gateway_signals (signals : list string) : list string :=
  insert_if
    ((token ["gateway"; "proxy"; "bridge"]
      || substring ["stdio to"; "stdio over"; "over sse"; "streamable http bridge"])
     && negb (one_of signals "browser-or-desktop") && negb (one_of signals "remote-browser-session"))
    "transport-gateway" signals.

Definition documentation_signals : list string -> list string :=
  insert_if
    (token
       ["context7"; "docs"; "documentation"; "caniuse"; "reference"; "manual"; "knowledgebase";
        "knowledge-base"; "browser-compat"; "design-system"; "components"; "shadcn"; "magicui";
        "magic-ui"; "primer"; "primevue"; "excalidraw"]
     || substring
          ["feature support"; "support tables"; "developer docs"; "design system";
           "component references"])
    "documentation-lookup".

Definition analysis_signals : list string -> list string :=
  insert_if
    (token
       ["eslint"; "lint"; "linter"; "tsserver"; "language-server"; "code-index"; "code-intelligence";
        "knip"; "pandacss"; "panda"; "semantic"; "lsp"; "theia"]
     || substring ["static analysis"; "code analysis"; "semantic code"; "language server protocol"])
    "project-analysis".

Definition external_read_signals : list string -> list string :=
  insert_if
    (token
       ["brave"; "search"; "firecrawl"; "scrape"; "scraper"; "scraping"; "crawl"; "crawler"; "maps";
        "mapbox"; "geocode"; "geocoding"; "weather"; "lookup"; "worldbank"; "airbnb"; "openbnb";
        "dataforseo"])
    "external-read-api".

Definition external_api_signals : list string -> list string :=
  insert_if
    (code_hosting_api
     || token
          ["notion"; "sentry"; "slack"; "linear"; "jira"; "confluence"; "atlassian"; "clickup";
           "redmine"; "google-drive"; "google-docs"; "google-sheets"; "google-slides";
           "google-workspace"; "salesforce"; "netlify"; "currents"; "motiff"; "esa"; "hubspot";
           "asana"; "shortcut"; "contentful"; "bitrix24"; "resend"; "databricks"; "mediawiki";
           "vendure"; "microsoft"; "workiq"; "descope"; "freee"; "firehydrant"; "postman";
           "targetprocess"; "transkribus"; "trustpager"; "z_ai"; "zai"; "variflight"; "langwatch";
           "transcend"; "supabase"; "heroku"; "azure-devops"; "apify"; "browserstack"; "datadog";
           "dynatrace"; "transcend"; "rancher"; "boondmanager"; "appflowy"; "shortcut"; "appnest";
           "openfec"; "pipedrive"; "ramp"; "retellai"; "deploysapp"; "octopusdeploy"; "api"; "rest";
           "graphql"; "contentful"; "ramp"; "wordpress"; "outlook"; "calendar"; "mail"; "crm";
           "canvas"; "lms"; "gohighlevel"; "ghl"])
    "network-or-external-api".

Definition admin_signals (signals : list string) : list string :=
  let signals :=
    insert_if
      (token ["azure"; "aws"; "gcp"; "cloudflare"; "terraform"; "pulumi"; "heroku"])
      "cloud-admin" signals in
  let signals := insert_if (token ["kubernetes"; "k8s"; "kubectl"; "helm"]) "cluster-control" signals in
  let signals :=
    insert_if
      (token ["okta"; "auth0"; "entra"; "identity"; "scim"] || substring ["active directory"])
      "identity-admin" signals in
  let signals :=
    insert_if
      (token ["vault"; "1password"; "bitwarden"; "keychain"; "secret"; "secrets"]
       || substring ["secret manager"])
      "secrets-manager" signals in
  let signals :=
    insert_if (token ["stripe"; "paypal"; "billing"; "payment"; "payments"])
      "payments-financial" signals in
  insert_if
    (token ["wallet"; "phantom"; "ethereum"; "blockchain"; "web3"; "crypto"])
    "blockchain-wallet" signals.

Definition credential_signals : list string -> list string :=
  insert_if
    (token
       ["token"; "tokens"; "api_key"; "apikey"; "auth"; "oauth"; "bearer"; "credential";
        "credentials"])
    "credentials-or-auth".

Definition process_signals : list string -> list string :=
  insert_if
    (token
       ["shell"; "terminal"; "exec"; "execute"; "command-runner"; "code-runner"; "run_command";
        "ssh"; "sftp"])
    "shell-or-process".

Definition mutation_terms : list string :=
  ["write"; "delete"; "remove"; "rm"; "rmdir"; "mkdir"; "create"; "update"; "insert"; "modify";
   "move"; "rename"; "upload"; "send"; "post"; "commit"; "push"; "apply"; "drop"; "truncate";
   "deploy"; "publish"; "execute"; "run_command"; "patch"; "edit"; "upsert"; "append"; "add"].

Definition readonly_terms : list string :=
  ["read"; "list"; "search"; "query"; "find"; "get"; "lookup"; "inspect"; "schema"; "describe";
   "status"; "weather"; "time"; "calculate"; "calculator"; "show"; "view"].

Definition tool_signals (signals : list string) : list string :=
  let has_mutation_terms := token mutation_terms in
  let has_readonly_terms := token readonly_terms in
  let signals := insert_if has_mutation_terms "mutable-tools" signals in
  insert_if (has_readonly_terms && negb has_mutation_terms) "readonly-tools" signals.
End signals.

Definition signal_haystack (command url : string) (args : list string) : string :=
  to_ascii_lowercase (command_semantic_signal command +:+ " " +:+ url +:+ " " +:+ join " " args).

(** The names of the server are given and not used. *)
Definition source_signals (normalized_name display_name command url : string) (args : list string) : list string :=
  let haystack := signal_haystack command url args in
  let tokens := signal_tokens haystack in
  let signals := filesystem_signals haystack tokens [] in
  let signals := sdk_signals haystack tokens signals in
  let signals := git_signals haystack tokens signals in
  let signals := database_signals tokens signals in
  let signals := browser_signals haystack tokens signals in
  let signals := memory_signals tokens signals in
  let signals := utility_signals tokens signals in
  let signals := fetch_signals tokens url signals in
  let signals := gateway_signals haystack tokens signals in
  let signals := documentation_signals haystack tokens signals in
  let signals := analysis_signals haystack tokens signals in
  let signals := external_read_signals tokens signals in
  let signals := external_api_signals tokens signals in
  let signals := admin_signals haystack tokens signals in
  let signals := credential_signals tokens signals in
  let signals := process_signals tokens signals in
  let signals := tool_signals tokens signals in
  insert_if (match signals with [] => true | _ => false end) "unknown-side-effects" signals.

(** ** Signals as a set *)

Lemma set_insert_elem x name signals : x ∈ set_insert name signals <-> x = name \/ x ∈ signals.
Proof.
  induction signals as [|y rest IH]; cbn [set_insert].
  - rewrite list_elem_of_singleton, elem_of_nil. tauto.
  - destruct (str_cmp name y) eqn:E; rewrite ?elem_of_cons, ?IH; [|tauto..].
    apply str_cmp_eq in E. subst. tauto.
Qed.

Lemma insert_if_elem x condition name signals :
  x ∈ insert_if condition name signals <-> (condition = true /\ x = name) \/ x ∈ signals.
Proof. destruct condition; cbn [insert_if]; [rewrite set_insert_elem|]; naive_solver. Qed.

Definition sorted_set (signals : list string) : Prop := StronglySorted (fun a b => str_cmp a b = Lt) signals.

Lemma set_insert_sorted name signals : sorted_set signals -> sorted_set (set_insert name signals).
Proof.
  unfold sorted_set. induction 1 as [|x rest Hs IH Hx]; cbn [set_insert]; [by repeat constructor|].
  destruct (str_cmp name x) eqn:E; [by constructor| |].
  - constructor; [by constructor|]. constructor; [done|]. eapply Forall_impl; [exact Hx|]. intros y. by apply str_cmp_trans.
  - constructor; [done|]. apply Forall_forall. intros y [ -> | Hy ]%set_insert_elem.
    + rewrite str_cmp_antisym, E. done.
    + rewrite Forall_forall in Hx. by apply Hx.
Qed.

Lemma insert_if_sorted condition name signals : sorted_set signals -> sorted_set (insert_if condition name signals).
Proof. destruct condition; [apply set_insert_sorted|done]. Qed.

Lemma browser_signals_elem haystack tokens x signals :
  x ∈ browser_signals haystack tokens signals <->
  x ∈ signals
  \/ (x = "browser-observation" /\ browser_observation_only haystack tokens = true)
  \/ (x = "remote-browser-session" /\ browser_observation_only haystack tokens = false
      /\ browser_automation haystack tokens && negb (browser_data_only haystack tokens) = true
      /\ remote_browser_provider haystack tokens = true)
  \/ (x = "browser-or-desktop" /\ browser_observation_only haystack tokens = false
      /\ browser_automation haystack tokens && negb (browser_data_only haystack tokens) = true
      /\ remote_browser_provider haystack tokens = false).
Proof.
  unfold browser_signals. destruct (browser_observation_only _ _); [rewrite set_insert_elem; naive_solver|].
  destruct (_ && _); [|naive_solver]. destruct (remote_browser_provider _ _); rewrite set_insert_elem; naive_solver.
Qed.

(** ** Words of joined texts *)

Lemma token_parts_sep current l c r :
  token_char c = false -> token_parts current (l ++ c :: r) = token_parts current l ++ token_parts [] r.
Proof.
  intros Hc. revert current. induction l as [|a l IH]; intros current; cbn [token_parts app]; [by rewrite Hc|].
  destruct (token_char a); rewrite IH; done.
Qed.

Lemma signal_tokens_elem w text :
  w ∈ signal_tokens text <-> w <> EmptyString /\ w ∈ token_parts [] (bytes text).
Proof.
  unfold signal_tokens. rewrite sort_dedup_elem, !list_elem_of_In, filter_In, negb_true_iff, str_is_empty_false. tauto.
Qed.

Lemma signal_tokens_app w a b :
  w ∈ signal_tokens (a +:+ " " +:+ b) <-> w ∈ signal_tokens a \/ w ∈ signal_tokens b.
Proof.
  rewrite !signal_tokens_elem. change (" " +:+ b) with (String " " b). rewrite bytes_app.
  change (bytes (String " " b)) with (" "%char :: bytes b). rewrite token_parts_sep by done. rewrite elem_of_app. tauto.
Qed.

Lemma joined_tokens w args :
  w ∈ signal_tokens (to_ascii_lowercase (join " " args))
  <-> exists arg, arg ∈ args /\ w ∈ signal_tokens (to_ascii_lowercase arg).
Proof.
  induction args as [|a [|b args] IH].
  - cbn. rewrite elem_of_nil. setoid_rewrite elem_of_nil. naive_solver.
  - cbn [join]. setoid_rewrite list_elem_of_singleton. naive_solver.
  - change (join " " (a :: b :: args)) with (a +:+ " " +:+ join " " (b :: args)).
    rewrite !lower_app. change (to_ascii_lowercase " ") with " ". rewrite signal_tokens_app, IH.
    setoid_rewrite (elem_of_cons (b :: args)). naive_solver.
Qed.

Lemma haystack_tokens w command url args :
  w ∈ signal_tokens (signal_haystack command url args)
  <-> w ∈ signal_tokens (to_ascii_lowercase (command_semantic_signal command))
      \/ w ∈ signal_tokens (to_ascii_lowercase url)
      \/ exists arg, arg ∈ args /\ w ∈ signal_tokens (to_ascii_lowercase arg).
Proof.
  unfold signal_haystack. rewrite !lower_app. change (to_ascii_lowercase " ") with " ".
  by rewrite !signal_tokens_app, joined_tokens.
Qed.

Lemma token_mono tokens tokens' needles :
  (forall w, w ∈ tokens -> w ∈ tokens') -> token tokens needles = true -> token tokens' needles = true.
Proof.
  unfold token, has_any_token. rewrite !existsb_exists. intros H (w & Hw & Hin%one_of_elem). exists w. by rewrite one_of_elem; auto.
Qed.

(** ** Which step of the inference gives a signal *)

(** A step keeps the signals before it and adds none but [names]. *)
Definition adds (names : list string) (step : list string -> list string) : Prop :=
  forall x signals, (x ∈ signals -> x ∈ step signals) /\ (x ∈ step signals -> x ∈ signals \/ x ∈ names).

Lemma adds_none : adds [] (fun signals => signals).
Proof. intros x signals. rewrite elem_of_nil. tauto. Qed.

Lemma adds_step names step condition name :
  adds names step -> adds (name :: names) (fun signals => insert_if condition name (step signals)).
Proof. intros H x signals. destruct (H x signals). rewrite insert_if_elem, elem_of_cons. tauto. Qed.

Lemma adds_gateway haystack tokens : adds ["transport-gateway"] (gateway_signals haystack tokens).
Proof. intros x signals. unfold gateway_signals. rewrite insert_if_elem, list_elem_of_singleton. tauto. Qed.

Lemma adds_browser haystack tokens :
  adds ["browser-observation"; "remote-browser-session"; "browser-or-desktop"] (browser_signals haystack tokens).
Proof.
  intros x signals. unfold browser_signals. rewrite !elem_of_cons, elem_of_nil.
  repeat case_match; rewrite ?set_insert_elem; tauto.
Qed.

Lemma adds_other names step x signals : adds names step -> one_of names x = false -> x ∈ step signals <-> x ∈ signals.
Proof. intros H Hx. destruct (H x signals). split; [|done]. intros Hs. destruct (H1 Hs) as [ |Hn%one_of_elem]; [done|congruence]. Qed.

Section steps.
Context (haystack : string) (tokens : list string) (url : string).

(** The steps before the browsers, between them and the gateways, from there to the process,
    and the last. *)
Definition steps_before_browsers (signals : list string) : list string :=
  database_signals tokens (git_signals haystack tokens (sdk_signals haystack tokens (filesystem_signals haystack tokens signals))).

Definition steps_to_gateways (signals : list string) : list string :=
  fetch_signals tokens url (utility_signals tokens (memory_signals tokens signals)).

Definition steps_after_gateways (signals : list string) : list string :=
  process_signals tokens (credential_signals tokens (admin_signals haystack tokens (external_api_signals tokens
    (external_read_signals tokens (analysis_signals haystack tokens (documentation_signals haystack tokens signals)))))).

Definition known_signals : list string :=
  tool_signals tokens (steps_after_gateways (gateway_signals haystack tokens (steps_to_gateways
    (browser_signals haystack tokens (steps_before_browsers []))))).

Definition names_before_browsers : list string :=
  ["file-database"; "network-database"; "database"; "git-repository"; "sdk-or-example"; "credentials-or-auth";
   "network-or-external-api"; "filesystem"].
Definition names_to_gateways : list string := ["network-fetch"; "local-utility"; "memory-or-context"].
Definition names_after_gateways : list string :=
  ["shell-or-process"; "credentials-or-auth"; "blockchain-wallet"; "payments-financial"; "secrets-manager"; "identity-admin";
   "cluster-control"; "cloud-admin"; "network-or-external-api"; "external-read-api"; "project-analysis"; "documentation-lookup"].

Lemma adds_before_browsers : adds names_before_browsers steps_before_browsers.
Proof.
  unfold steps_before_browsers, database_signals, git_signals, sdk_signals, filesystem_signals. cbv zeta.
  repeat apply adds_step. apply adds_none.
Qed.

Lemma adds_to_gateways : adds names_to_gateways steps_to_gateways.
Proof.
  unfold steps_to_gateways, fetch_signals, utility_signals, memory_signals. repeat apply adds_step. apply adds_none.
Qed.

Lemma adds_after_gateways : adds names_after_gateways steps_after_gateways.
Proof.
  unfold steps_after_gateways, process_signals, credential_signals, admin_signals, external_api_signals, external_read_signals,
    analysis_signals, documentation_signals. cbv zeta. repeat apply adds_step. apply adds_none.
Qed.

Lemma adds_tools : adds ["readonly-tools"; "mutable-tools"] (tool_signals tokens).
Proof. unfold tool_signals. cbv zeta. repeat apply adds_step. apply adds_none. Qed.
End steps.

(** ** Signals are consistent *)

Lemma source_signals_known name display command url args :
  let haystack := signal_haystack command url args in
  source_signals name display command url args
  = match known_signals haystack (signal_tokens haystack) url with [] => ["unknown-side-effects"] | known => known end.
Proof.
  cbv zeta. unfold source_signals, known_signals, steps_after_gateways, steps_to_gateways, steps_before_browsers. cbv zeta.
  by destruct (tool_signals _ _).
Qed.

Section consistency.
Context (haystack : string) (tokens : list string) (url : string).

Definition browser_names : list string := ["browser-observation"; "remote-browser-session"; "browser-or-desktop"].

Definition catalogue : list string :=
  ["readonly-tools"; "mutable-tools"] ++ names_after_gateways ++ ["transport-gateway"] ++ names_to_gateways
  ++ browser_names ++ names_before_browsers.

Lemma known_signals_named x : x ∈ known_signals haystack tokens url -> x ∈ catalogue.
Proof.
  unfold known_signals, catalogue. rewrite !elem_of_app. intros H.
  apply (adds_tools tokens) in H as [H|H]; [|tauto]. apply adds_after_gateways in H as [H|H]; [|tauto].
  apply adds_gateway in H as [H|H]; [|tauto]. apply adds_to_gateways in H as [H|H]; [|tauto].
  apply adds_browser in H as [H|H]; [|tauto]. apply adds_before_browsers in H as [H|H]; [|tauto]. by apply elem_of_nil in H.
Qed.

Lemma known_signals_sorted : sorted_set (known_signals haystack tokens url).
Proof.
  unfold known_signals, tool_signals, steps_after_gateways, process_signals, credential_signals, admin_signals,
    external_api_signals, external_read_signals, analysis_signals, documentation_signals, gateway_signals,
    steps_to_gateways, fetch_signals, utility_signals, memory_signals. cbv zeta. repeat apply insert_if_sorted.
  assert (H : sorted_set (steps_before_browsers haystack tokens [])).
  { unfold steps_before_browsers, database_signals, git_signals, sdk_signals, filesystem_signals. cbv zeta.
    repeat apply insert_if_sorted. constructor. }
  unfold browser_signals. repeat case_match; try apply set_insert_sorted; done.
Qed.

(** The words that mark a change decide alone. *)
Lemma tool_signals_known :
  ("mutable-tools" ∈ known_signals haystack tokens url <-> token tokens mutation_terms = true)
  /\ ("readonly-tools" ∈ known_signals haystack tokens url
      <-> token tokens readonly_terms && negb (token tokens mutation_terms) = true).
Proof.
  unfold known_signals. set (before := steps_after_gateways _ _ _).
  assert (H : forall x, one_of ["mutable-tools"; "readonly-tools"] x = true -> x ∉ before).
  { intros x Hx Hin. apply adds_after_gateways in Hin as [Hin|Hn]; [apply adds_gateway in Hin as [Hin|Hn];
      [apply adds_to_gateways in Hin as [Hin|Hn]; [apply adds_browser in Hin as [Hin|Hn];
        [apply adds_before_browsers in Hin as [Hin|Hn]; [by apply elem_of_nil in Hin|] |] |] |] |].
    all: apply one_of_elem in Hn, Hx; rewrite !elem_of_cons, elem_of_nil in Hx; destruct Hx as [-> | [-> | [] ] ]; by vm_compute in Hn. }
  pose proof (H "mutable-tools" eq_refl). pose proof (H "readonly-tools" eq_refl).
  assert (Hne : "mutable-tools" <> "readonly-tools") by done. pose proof (not_eq_sym Hne).
  pose proof (eq_refl "mutable-tools"). pose proof (eq_refl "readonly-tools").
  unfold tool_signals. cbv zeta. rewrite !insert_if_elem. tauto.
Qed.

(** A signal of the browsers comes from their step, and from none of the others. *)
Lemma browser_known x :
  one_of browser_names x = true ->
  (x ∈ known_signals haystack tokens url <-> x ∈ browser_signals haystack tokens (steps_before_browsers haystack tokens []))
  /\ x ∉ steps_before_browsers haystack tokens [].
Proof.
  intros Hx. assert (Hd : forall names, one_of names "browser-observation" || one_of names "remote-browser-session"
                      || one_of names "browser-or-desktop" = false -> one_of names x = false).
  { intros names Hn. apply orb_false_iff in Hn as [ [? ?]%orb_false_iff ?]. apply one_of_elem in Hx.
    unfold browser_names in Hx. rewrite !elem_of_cons, elem_of_nil in Hx. destruct Hx as [-> | [-> | [-> | [] ] ] ]; assumption. }
  unfold known_signals. rewrite (adds_other _ _ x _ (adds_tools tokens)) by by apply Hd.
  rewrite (adds_other _ _ x _ (adds_after_gateways haystack tokens)) by by apply Hd.
  rewrite (adds_other _ _ x _ (adds_gateway haystack tokens)) by by apply Hd.
  rewrite (adds_other _ _ x _ (adds_to_gateways tokens url)) by by apply Hd.
  split; [done|]. rewrite (adds_other _ _ x _ (adds_before_browsers haystack tokens)) by by apply Hd. apply not_elem_of_nil.
Qed.

Lemma browsers_exclusive x y :
  one_of browser_names x = true -> one_of browser_names y = true ->
  x ∈ known_signals haystack tokens url -> y ∈ known_signals haystack tokens url -> x = y.
Proof.
  intros Hx Hy. rewrite (proj1 (browser_known x Hx)), (proj1 (browser_known y Hy)).
  pose proof (proj2 (browser_known x Hx)). pose proof (proj2 (browser_known y Hy)).
  unfold browser_signals. repeat case_match; rewrite ?set_insert_elem; naive_solver.
Qed.

Lemma gateways_without_browsers :
  "transport-gateway" ∈ known_signals haystack tokens url ->
  ("browser-or-desktop" ∉ known_signals haystack tokens url) /\ ("remote-browser-session" ∉ known_signals haystack tokens url).
Proof.
  intros H.
  assert (Hg : forall b, one_of ["browser-or-desktop"; "remote-browser-session"] b = true ->
    b ∈ known_signals haystack tokens url ->
    b ∈ steps_to_gateways tokens url (browser_signals haystack tokens (steps_before_browsers haystack tokens []))).
  { intros b Hb Hin. apply adds_to_gateways, browser_known; [|done]. apply one_of_elem in Hb.
    rewrite !elem_of_cons, elem_of_nil in Hb. by destruct Hb as [-> | [-> | [] ] ]. }
  unfold known_signals in H. rewrite (adds_other _ _ _ _ (adds_tools tokens)) in H by done.
  rewrite (adds_other _ _ _ _ (adds_after_gateways haystack tokens)) in H by done.
  unfold gateway_signals in H. apply insert_if_elem in H as [ [H _]|H].
  - rewrite !andb_true_iff, !negb_true_iff in H. destruct H as [ [_ Hb] Hr].
    split; intros Hin; apply Hg in Hin; try done; apply one_of_elem in Hin; congruence.
  - exfalso. apply adds_to_gateways in H as [H|H]; [apply adds_browser in H as [H|H];
      [apply adds_before_browsers in H as [H|H]; [by apply elem_of_nil in H|] |] |]; apply one_of_elem in H; by vm_compute in H.
Qed.
End consistency.

(** C24: the signals of a server are a set of names of the catalogue that is never empty: when
    nothing else is known it says just that; it never says both that the tools change and
    that they only read; and a browser is watched, remote or controlled, never two of them,
    nor is a controlled or remote browser a gateway. *)
Theorem signals_are_consistent name display command url args :
  let signals := source_signals name display command url args in
  sorted_set signals
  /\ (signals = ["unknown-side-effects"] \/ signals <> [] /\ Forall (fun x => x ∈ catalogue) signals)
  /\ ~ ("mutable-tools" ∈ signals /\ "readonly-tools" ∈ signals)
  /\ (forall x y, x ∈ browser_names -> y ∈ browser_names -> x ∈ signals -> y ∈ signals -> x = y)
  /\ ~ ("transport-gateway" ∈ signals /\ ("browser-or-desktop" ∈ signals \/ "remote-browser-session" ∈ signals)).
Proof.
  cbv zeta. rewrite source_signals_known. set (haystack := signal_haystack command url args). set (tokens := signal_tokens haystack).
  pose proof (known_signals_sorted haystack tokens url) as Hs. pose proof (tool_signals_known haystack tokens url) as [Hm Hr].
  pose proof (browsers_exclusive haystack tokens url) as Hb. pose proof (gateways_without_browsers haystack tokens url) as Hg.
  pose proof (known_signals_named haystack tokens url) as Hn.
  destruct (known_signals haystack tokens url) as [|k known].
  - split_and!; [by repeat constructor|by left|..].
    + by intros [H%list_elem_of_singleton _].
    + by intros x y _ _ ->%list_elem_of_singleton ->%list_elem_of_singleton.
    + by intros [H%list_elem_of_singleton _].
  - split_and!; [done|right; split; [done|by apply Forall_forall]| | |].
    + rewrite Hm, Hr. intros [ -> H ]. by rewrite andb_false_r in H.
    + intros x y Hx Hy. by apply Hb; apply one_of_elem.
    + intros [ [? ?]%Hg [?|?] ]; contradiction.
Qed.

(** ** More words never hide a danger *)

(** Signals that words alone give. *)
Definition dangers : list string :=
  ["mutable-tools"; "shell-or-process"; "blockchain-wallet"; "payments-financial"; "cluster-control"; "cloud-admin";
   "memory-or-context"; "database"; "network-database"; "file-database"].

Lemma insert_if_grows x condition condition' name signals signals' :
  (x = name -> condition = true -> condition' = true) -> (x ∈ signals -> x ∈ signals') ->
  x ∈ insert_if condition name signals -> x ∈ insert_if condition' name signals'.
Proof. rewrite !insert_if_elem. naive_solver. Qed.

Lemma browser_signals_grow x haystack tokens signals haystack' tokens' signals' :
  one_of browser_names x = false -> (x ∈ signals -> x ∈ signals') ->
  x ∈ browser_signals haystack tokens signals -> x ∈ browser_signals haystack' tokens' signals'.
Proof. intros Hx H. rewrite !(adds_other _ _ x _ (adds_browser _ _)) by done. done. Qed.

Lemma known_signals_grow x haystack tokens haystack' tokens' url :
  x ∈ dangers -> (forall w, w ∈ tokens -> w ∈ tokens') ->
  x ∈ known_signals haystack tokens url -> x ∈ known_signals haystack' tokens' url.
Proof.
  intros Hx Ht. unfold known_signals, tool_signals, steps_after_gateways, process_signals, credential_signals, admin_signals,
    external_api_signals, external_read_signals, analysis_signals, documentation_signals, gateway_signals,
    steps_to_gateways, fetch_signals, utility_signals, memory_signals, steps_before_browsers, database_signals,
    git_signals, sdk_signals, filesystem_signals, dangers in *. cbv zeta.
  repeat (apply insert_if_grows;
    [intros ->; first [apply token_mono, Ht | by apply one_of_elem in Hx] |]).
  apply browser_signals_grow; [|].
  { rewrite !elem_of_cons, elem_of_nil in Hx. repeat (destruct Hx as [-> | Hx]; [reflexivity|]). done. }
  repeat (apply insert_if_grows;
    [intros ->; first [apply token_mono, Ht | by apply one_of_elem in Hx] |]).
  done.
Qed.

(** Whatever is added to the arguments and hints of a server, none of the signals of change,
    of processes, accounts, payments, memory or databases is lost. *)
Theorem dangers_are_not_hidden x name display command url args args' :
  x ∈ dangers -> (forall arg, arg ∈ args -> arg ∈ args') ->
  x ∈ source_signals name display command url args -> x ∈ source_signals name display command url args'.
Proof.
  intros Hx Ha. rewrite !source_signals_known. set (h := signal_haystack command url args). set (h' := signal_haystack command url args').
  assert (Ht : forall w, w ∈ signal_tokens h -> w ∈ signal_tokens h').
  { intros w. unfold h, h'. rewrite !haystack_tokens. naive_solver. }
  pose proof (known_signals_grow x h _ h' _ url Hx Ht) as Hg. intros Hin.
  assert (Hin' : x ∈ known_signals h (signal_tokens h) url).
  { destruct (known_signals h (signal_tokens h) url); [|done]. apply list_elem_of_singleton in Hin. subst x.
    apply one_of_elem in Hx. by vm_compute in Hx. }
  apply Hg in Hin'. destruct (known_signals h' (signal_tokens h') url); [by apply elem_of_nil in Hin'|done].
Qed.

(** ** What the code does not mean to do *)

Lemma token_parts_chars current l :
  Forall (fun c => token_char c = true) current ->
  Forall (fun part => Forall (fun c => token_char c = true) (bytes part)) (token_parts current l).
Proof.
  revert current. induction l as [|c l IH]; intros current Hc; cbn [token_parts].
  - constructor; [|done]. by rewrite bytes_of_bytes.
  - destruct (token_char c) eqn:E; [apply IH, Forall_app; by repeat constructor|].
    constructor; [by rewrite bytes_of_bytes|by apply IH].
Qed.

(** A word with a hyphen is never among the words of a text: they are split at it. *)
Lemma hyphenated_words_never_match text needle :
  contains_char "-" needle = true -> has_any_token (signal_tokens text) [needle] = false.
Proof.
  intros Hn. unfold has_any_token. cbn [existsb]. rewrite orb_false_r. destruct (one_of _ needle) eqn:E; [|done]. exfalso.
  apply one_of_elem, signal_tokens_elem in E as [_ E].
  pose proof (token_parts_chars [] (bytes text) (Forall_nil_2 _)) as H. rewrite Forall_forall in H. apply H in E.
  unfold contains_char in Hn. apply existsb_exists in Hn as (c & Hc & Ec). apply Ascii.eqb_eq in Ec. subst c.
  rewrite Forall_forall in E. by specialize (E _ (proj2 (list_elem_of_In _ _) Hc)).
Qed.

(** So a server that runs code is not seen as running processes. *)
Lemma code_runner_is_no_process :
  "shell-or-process" ∉ source_signals EmptyString EmptyString "npx" EmptyString ["mcp-code-runner"; "mcp-command-runner"].
Proof. intros H%one_of_elem. by vm_compute in H. Qed.

(** The option that forbids writing counts as writing. *)
Lemma no_write_counts_as_change :
  "mutable-tools" ∈ source_signals EmptyString EmptyString "npx" EmptyString (source_signal_args ["--no-write"] []).
Proof. apply one_of_elem. by vm_compute. Qed.

(** ** Witnesses *)

Lemma dangers_are_not_hidden_witness :
  "shell-or-process" ∈ source_signals "t" "t" "npx" EmptyString ["mcp-shell"; "mcp-time"].
Proof.
  apply (dangers_are_not_hidden "shell-or-process" "t" "t" "npx" EmptyString ["mcp-shell"]).
  - apply one_of_elem. by vm_compute.
  - intros arg ->%list_elem_of_singleton. by left.
  - apply one_of_elem. by vm_compute.
Defined.
