(* ===== verification/SourcePolicy.v ===== *)
(** * What MCPace concludes from the signals (src/server/loader.rs)

    The policy, the classification, the safety class, the pool, the locks and the recorded
    evidence of a server, as they follow from the signals of its configuration
    ([SourceSignals]) and the fields of its policy. *)

From Stdlib Require Import Ascii SpecFloat.
From S2P Require Import Prelude RustStr BTree Json TextUtils Execution ServerModel ServerRegistry SourceSignals.

(** ** The policy of a source *)

Record GenericSourcePolicy := mkGenericPolicy {
  gp_scope_class : string;
  gp_concurrency_policy : string;
  gp_state_binding : string;
  gp_credential_binding : string;
  gp_parallelism_limit : N;
  gp_conflict_domain_prefix : string;
  gp_project_root_mode : string;
  gp_worktree_binding : string;
  gp_state_profile_mode : string;
  gp_host_lock : string;
  gp_startup_strategy : string;
  gp_routing_group : string;
  gp_discovery_requires_lease : bool
}.

Definition sdk_policy : GenericSourcePolicy :=
  mkGenericPolicy "not-runnable" "plan-only" "none" "none" 0
    "not-runnable" "none" "none" "none"
    "none" "disabled" "sdk-or-example" false.

Definition remote_browser_policy : GenericSourcePolicy :=
  mkGenericPolicy "credential-scoped" "single-session" "remote-browser-session" "credential-profile" 1
    "remote-browser" "optional" "none" "optional"
    "none" "lazy-per-profile" "remote-browser" true.

Definition browser_observation_policy : GenericSourcePolicy :=
  mkGenericPolicy "host-readonly" "multi-reader" "host-readonly" "browser-profile" 2
    "browser-readonly" "optional" "none" "optional"
    "browser-profile-read" "lazy-shared" "browser-observation" true.

Definition browser_policy : GenericSourcePolicy :=
  mkGenericPolicy "shared-exclusive" "single-session" "host-desktop" "browser-profile" 1
    "browser-profile" "optional" "none" "required"
    "browser-profile" "singleton-host" "browser" true.

Definition process_policy : GenericSourcePolicy :=
  mkGenericPolicy "shared-exclusive" "single-session" "host-session" "source-config" 1
    "host-process" "optional" "none" "required"
    "host-session" "singleton-host" "dangerous-process" true.

Definition remote_policy : GenericSourcePolicy :=
  mkGenericPolicy "credential-scoped" "single-writer" "remote-session" "remote-origin-or-credential" 1
    "remote-mcp" "optional" "none" "optional"
    "none" "lazy-shared" "remote-mcp" true.

Definition memory_policy : GenericSourcePolicy :=
  mkGenericPolicy "state-profile" "single-session" "context-store" "none" 1
    "state-profile" "optional" "none" "required"
    "none" "lazy-per-profile" "memory-context" true.

Definition git_policy : GenericSourcePolicy :=
  mkGenericPolicy "project-local" "single-writer" "repo" "git-config" 1
    "git-repository" "required" "repository-root" "none"
    "none" "lazy-per-project" "project-git" true.

Definition database_connection_policy : GenericSourcePolicy :=
  mkGenericPolicy "credential-scoped" "single-writer" "db-connection" "database-connection" 1
    "database-connection" "optional" "none" "optional"
    "none" "lazy-per-profile" "database-connection" true.

Definition project_database_policy : GenericSourcePolicy :=
  mkGenericPolicy "project-local" "single-writer" "db" "none" 1
    "database" "required" "project-root" "none"
    "none" "lazy-per-project" "project-database" true.

Definition project_analysis_policy : GenericSourcePolicy :=
  mkGenericPolicy "project-local" "isolated-per-project" "project-index" "none" 1
    "project-analysis" "required" "project-root" "none"
    "none" "lazy-per-project" "project-analysis" true.

Definition filesystem_policy : GenericSourcePolicy :=
  mkGenericPolicy "project-local" "isolated-per-project" "file" "none" 1
    "project-filesystem" "required" "project-root" "none"
    "none" "lazy-per-project" "project-filesystem" true.

Definition gateway_policy : GenericSourcePolicy :=
  mkGenericPolicy "stateless-local" "multi-reader" "none" "none" 2
    "transport-gateway" "optional" "none" "none"
    "none" "lazy-shared" "transport-gateway" false.

Definition external_read_policy (provider_budget : bool) : GenericSourcePolicy :=
  mkGenericPolicy "credential-scoped" "multi-reader" "none" (if provider_budget then "provider-budget" else "none") 2
    "external-read" "optional" "none" "none"
    "none" "lazy-shared" "external-read" false.

Definition provider_policy : GenericSourcePolicy :=
  mkGenericPolicy "credential-scoped" "single-writer" "identity-tenant" "credential-profile" 1
    "credential-provider" "optional" "none" "optional"
    "none" "lazy-per-profile" "credential-provider" true.

Definition network_fetch_policy : GenericSourcePolicy :=
  mkGenericPolicy "credential-scoped" "multi-reader" "none" "provider-budget" 2
    "network-fetch" "optional" "none" "none"
    "none" "lazy-shared" "network-fetch" false.

Definition stateless_policy : GenericSourcePolicy :=
  mkGenericPolicy "stateless-local" "multi-reader" "none" "none" 4
    "stateless-local" "none" "none" "none"
    "none" "lazy-shared" "stateless-local" false.

Definition unknown_policy : GenericSourcePolicy :=
  mkGenericPolicy "configured-source" "single-writer" "runtime-source" "source-config" 1
    "settings-source" "optional" "none" "none"
    "none" "lazy-shared" "unknown-source" true.

(** The signals that keep the reading policies from a server. *)
Definition admin_classes : list string :=
  ["cloud-admin"; "identity-admin"; "cluster-control"; "secrets-manager"; "payments-financial"; "blockchain-wallet"].

Definition has_any (signals names : list string) : bool := existsb (one_of signals) names.

(** The decision on the signals; [remote] says whether the server is reached over HTTP. *)
Definition policy_of_signals (remote : bool) (signals : list string) : GenericSourcePolicy :=
  let has := one_of signals in
  let mutable_tools := has "mutable-tools" in
  if has "sdk-or-example" then sdk_policy
  else if has "remote-browser-session" then remote_browser_policy
  else if has "browser-observation" then browser_observation_policy
  else if has "browser-or-desktop" then browser_policy
  else if has "shell-or-process" then process_policy
  else if remote then remote_policy
  else if has "memory-or-context" then memory_policy
  else if has "git-repository" then git_policy
  else if has "database" then
    if has "network-database" || has "credentials-or-auth" then database_connection_policy
    else project_database_policy
  else if has "project-analysis" && negb (has "network-or-external-api") && negb (has "credentials-or-auth")
          && negb (has "cloud-admin") && negb (has "external-read-api") && negb (has "documentation-lookup")
  then project_analysis_policy
  else if has "filesystem" then filesystem_policy
  else if has "transport-gateway" then gateway_policy
  else if (has "documentation-lookup" || has "external-read-api") && negb (has "mutable-tools")
          && negb (has_any signals admin_classes)
  then external_read_policy (has "credentials-or-auth" || has "network-or-external-api")
  else if has_any signals admin_classes || has "credentials-or-auth" || has "network-or-external-api"
  then provider_policy
  else if has "network-fetch" && negb mutable_tools then network_fetch_policy
  else if (has "local-utility" || has "readonly-tools") && negb mutable_tools then stateless_policy
  else unknown_policy.

Definition is_http (source_type : string) : bool := one_of ["streamable-http"; "http"] source_type.
Definition is_sse (source_type : string) : bool := one_of ["sse-legacy"; "sse"] source_type.

Definition is_remote (source_type url : string) : bool := is_http source_type || negb (str_is_empty (trim url)).

Definition infer_generic_source_policy (normalized_name : string) (source_record : SourceServerRecord)
    (source_type : string) : GenericSourcePolicy :=
  let signal_args := source_signal_args (src_args source_record) (src_profile_hints source_record) in
  let signals := source_signals normalized_name (src_name source_record) (src_command source_record)
                   (src_url source_record) signal_args in
  policy_of_signals (is_remote source_type (src_url source_record)) signals.

(** ** Hints of tools *)

Definition hint (value : JsonValue) (key : string) : option bool := json_get value key ≫= as_bool.

Definition policy_mentions_destructive (value : JsonValue) : bool :=
  match as_object value with
  | None => false
  | Some _ =>
      unwrap_or (hint value "destructiveHint") false
      || unwrap_or (option_map negb (hint value "readOnlyHint")) false
      || unwrap_or (option_map negb (hint value "readOnly")) false
  end.

Definition policy_mentions_readonly (value : JsonValue) : bool :=
  match as_object value with
  | None => false
  | Some _ => unwrap_or (hint value "readOnlyHint") false || unwrap_or (hint value "readOnly") false
  end.

Definition policy_is_explicit_stateless (concurrency_policy state_binding : string) : bool :=
  let state_binding := trim state_binding in
  one_of ["multi-reader"; "read-only"; "readonly"] concurrency_policy && one_of ["none"; "stateless"] state_binding.

Definition binds_credential (credential_binding : string) : bool :=
  negb (str_is_empty (trim credential_binding)) && negb (String.eqb credential_binding "none").

(** ** Classification *)

Record RuntimeClassification := mkClass {
  runtime_type : string;
  state_class : string;
  effect_class : string
}.

(** The fields of a policy that the inferences read. *)
Record PolicyFields := mkFields {
  pf_source_type : string;
  pf_scope_class : string;
  pf_concurrency_policy : string;
  pf_state_binding : string;
  pf_credential_binding : string
}.

Definition project_bindings : list string :=
  ["repo"; "repo-path"; "file"; "file-path"; "db"; "db-file-path"; "project"; "project-index"].

(** The classification from the signals; [url] is empty when the server has no address. *)
Definition classify (f : PolicyFields) (signals : list string) (url : string) (tool_policies : list JsonValue)
    : RuntimeClassification :=
  let has := one_of signals in
  let remote := is_remote (pf_source_type f) url in
  let explicit_stateless := policy_is_explicit_stateless (pf_concurrency_policy f) (pf_state_binding f) in
  let read_only_tools :=
    existsb policy_mentions_readonly tool_policies || has "readonly-tools" || has "local-utility" in
  let destructive_tools := existsb policy_mentions_destructive tool_policies || has "mutable-tools" in
  if is_sse (pf_source_type f) then mkClass "legacy" "legacy-transport" "unknown"
  else if has "sdk-or-example" || String.eqb (pf_scope_class f) "not-runnable"
          || String.eqb (pf_concurrency_policy f) "plan-only"
  then mkClass "package-artifact" "not-a-server" "not-runnable"
  else if has "shell-or-process" then mkClass "side-effecting" "host-stateful" "process-exec"
  else if has "remote-browser-session" then mkClass "interactive" "remote-session-stateful" "external-mutating"
  else if (has "browser-observation" || String.eqb (pf_state_binding f) "host-readonly") && negb destructive_tools
  then mkClass "stateful" "host-stateful" "read-only"
  else if has "browser-observation" || String.eqb (pf_state_binding f) "host-readonly"
  then mkClass "side-effecting" "host-stateful" "host-mutating"
  else if has "browser-or-desktop" then mkClass "interactive" "host-stateful" "host-mutating"
  else if has "network-database" || String.eqb (pf_state_binding f) "db-connection"
  then mkClass "external" "credential-stateful" "external-mutating"
  else if has "project-analysis" && negb (has "network-or-external-api") && negb (has "credentials-or-auth")
          && negb (has "cloud-admin") && negb (has "external-read-api") && negb (has "documentation-lookup")
  then mkClass "stateful" "project-stateful" (if destructive_tools then "project-mutating" else "read-only")
  else if String.eqb (pf_scope_class f) "project-local" || String.eqb (pf_concurrency_policy f) "isolated-per-project"
          || one_of project_bindings (pf_state_binding f)
          || has "filesystem" || has "git-repository" || has "database"
  then mkClass "stateful" "project-stateful" "project-mutating"
  else if String.eqb (pf_scope_class f) "state-profile" || String.eqb (pf_concurrency_policy f) "single-session"
          || one_of ["context-store"; "memory"; "host-session"] (pf_state_binding f) || has "memory-or-context"
  then mkClass "stateful" "session-stateful" "ephemeral-state"
  else if has "transport-gateway" && negb destructive_tools then mkClass "stateless" "stateless" "read-only"
  else if (has "documentation-lookup" || has "external-read-api" || (has "network-fetch" && negb destructive_tools))
          && negb (has "network-or-external-api") && negb (has "credentials-or-auth") && negb (has "cloud-admin")
          && negb (has "cluster-control")
  then mkClass "stateless" "stateless" "external-read"
  else if remote then
    if read_only_tools && negb destructive_tools && explicit_stateless
    then mkClass "stateless" "stateless" "external-read"
    else mkClass "external" "remote-session-stateful" (if destructive_tools then "external-mutating" else "external-unknown")
  else if String.eqb (pf_scope_class f) "credential-scoped" || binds_credential (pf_credential_binding f)
          || has_any signals admin_classes || has "network-or-external-api"
  then
    if has "network-fetch" && read_only_tools && negb destructive_tools
    then mkClass "stateless" "stateless" "external-read"
    else mkClass "external" "credential-stateful" (if destructive_tools then "external-mutating" else "external-unknown")
  else if explicit_stateless
          || (String.eqb (pf_concurrency_policy f) "multi-reader"
              && one_of [EmptyString; "none"; "stateless"] (pf_state_binding f)
              && (read_only_tools || has "network-fetch"))
  then mkClass "stateless" "stateless" (if has "network-fetch" then "external-read" else "read-only")
  else if destructive_tools then mkClass "side-effecting" "unknown-stateful" "unknown-mutating"
  else mkClass "unknown" "unknown-conservative" "unknown".

Definition infer_runtime_classification (f : PolicyFields) (command url : string) (args : list string)
    (tool_policies : list JsonValue) : RuntimeClassification :=
  classify f (source_signals EmptyString EmptyString command url args) url tool_policies.

Definition infer_parallel_safety_class (f : PolicyFields) (command url : string) (args : list string)
    (tool_policies : list JsonValue) : string :=
  let signals := source_signals EmptyString EmptyString command url args in
  let has := one_of signals in
  let destructive_tools := existsb policy_mentions_destructive tool_policies || has "mutable-tools" in
  let remote := is_remote (pf_source_type f) url in
  if is_sse (pf_source_type f) then "PX_legacy_compat"
  else if (has "browser-observation" || String.eqb (pf_state_binding f) "host-readonly") && negb destructive_tools
  then "P1_host_readonly_candidate"
  else if String.eqb (pf_scope_class f) "shared-exclusive" || String.eqb (pf_state_binding f) "host-desktop"
          || String.eqb (pf_state_binding f) "remote-browser-session" || has "browser-or-desktop"
          || has "remote-browser-session" || has "shell-or-process"
  then "PX_forbidden"
  else if String.eqb (pf_scope_class f) "project-local" || String.eqb (pf_concurrency_policy f) "isolated-per-project"
  then "P3_project_safe"
  else if has "filesystem" || has "git-repository" || has "database" then "P3_project_safe"
  else if destructive_tools then "P0_mutating_requires_serialization"
  else if policy_is_explicit_stateless (pf_concurrency_policy f) (pf_state_binding f) then
    if remote then "P4_stateless_remote_candidate" else "P1_readonly_candidate"
  else if binds_credential (pf_credential_binding f) then "P2_session_safe"
  else if String.eqb (pf_concurrency_policy f) "single-session" || has "memory-or-context" then "P2_session_safe"
  else if remote then "P2_session_safe"
  else if has "network-fetch" || has "documentation-lookup" || has "external-read-api" || has "local-utility"
          || has "transport-gateway"
  then "P1_readonly_candidate"
  else if String.eqb (pf_concurrency_policy f) "multi-reader" then "P1_readonly_candidate"
  else if existsb policy_mentions_readonly tool_policies then "P1_readonly_candidate"
  else if negb (str_is_empty (trim command)) then "P0_unknown_stdio"
  else "P0_unknown".

(** ** Pools and locks *)

Definition infer_default_pool_model (f : PolicyFields) : string :=
  if is_sse (pf_source_type f) then "legacy-disabled"
  else if String.eqb (pf_scope_class f) "not-runnable" || String.eqb (pf_concurrency_policy f) "plan-only" then "disabled"
  else if String.eqb (pf_state_binding f) "host-readonly" && String.eqb (pf_concurrency_policy f) "multi-reader"
  then "host-readonly-pool"
  else if String.eqb (pf_scope_class f) "shared-exclusive" || String.eqb (pf_state_binding f) "host-desktop"
          || String.eqb (pf_concurrency_policy f) "single-session"
  then "singleton"
  else if String.eqb (pf_scope_class f) "project-local" || String.eqb (pf_concurrency_policy f) "isolated-per-project"
  then "project-pool"
  else if policy_is_explicit_stateless (pf_concurrency_policy f) (pf_state_binding f)
          && String.eqb (pf_source_type f) "stdio"
  then "process-pool"
  else if is_http (pf_source_type f) then "remote-http-session-pool"
  else if binds_credential (pf_credential_binding f) then "credential-session-pool"
  else if String.eqb (pf_source_type f) "stdio" then "process-pool"
  else "singleton".

Definition binding_domain (state_binding : string) : list string :=
  if one_of ["repo"; "repo-path"] state_binding then ["repo"]
  else if one_of ["file"; "file-path"] state_binding then ["file"]
  else if one_of ["db"; "db-file-path"] state_binding then ["db"]
  else if String.eqb state_binding "host-desktop" then ["browser-or-desktop-session"]
  else if String.eqb state_binding "host-readonly" then ["browser-readonly-session"]
  else if String.eqb state_binding "host-session" then ["host-session"]
  else if String.eqb state_binding "remote-session" then ["transport-session"]
  else if one_of ["context-store"; "memory"] state_binding then ["context-store"]
  else if one_of ["identity-tenant"; "tenant"] state_binding then ["tenant"]
  else [].

Definition infer_lock_domains (f : PolicyFields) (fallback_domain : string) : list string :=
  let domains :=
    (if binds_credential (pf_credential_binding f) then ["credential:" +:+ trim (pf_credential_binding f)] else [])
    ++ (if String.eqb (pf_scope_class f) "project-local" || String.eqb (pf_concurrency_policy f) "isolated-per-project"
        then ["project"] else [])
    ++ binding_domain (pf_state_binding f)
    ++ (if String.eqb (pf_concurrency_policy f) "single-session" then ["session"] else []) in
  sort_dedup (match domains with [] => ["server:" +:+ fallback_domain] | _ => domains end).

Definition runtime_policy_disabled (scope_class concurrency_policy startup_strategy routing_group : string)
    (max_workers : N) : bool :=
  String.eqb (to_ascii_lowercase (trim startup_strategy)) "disabled"
  || String.eqb (to_ascii_lowercase (trim routing_group)) "disabled"
  || String.eqb (to_ascii_lowercase (trim concurrency_policy)) "plan-only"
  || String.eqb (to_ascii_lowercase (trim scope_class)) "not-runnable"
  || (max_workers =? 0)%N.

Definition transport_status_for_source_type (source_type : string) : string :=
  if is_sse source_type then "legacy-compat"
  else if one_of ["streamable-http"; "http"; "stdio"] source_type then "stable"
  else if str_is_empty source_type then "inferred"
  else "custom".

Definition infer_launcher_kind (command url installer_method installer_package : string) : string :=
  let command := to_ascii_lowercase (trim command) in
  let method := to_ascii_lowercase (trim installer_method) in
  let package := to_ascii_lowercase (trim installer_package) in
  if negb (str_is_empty (trim url)) then "remote-url"
  else if str_contains "npx" command || String.eqb method "npm" || starts_with "npm:" package then "npx"
  else if str_contains "uvx" command || String.eqb method "pypi" || starts_with "pypi:" package then "uvx"
  else if str_contains "docker" command || String.eqb method "oci" || starts_with "oci:" package then "oci"
  else if str_is_empty command && str_is_empty method && str_is_empty package then "unspecified"
  else "local-command".

(** ** Evidence

    Scores are [f64]: binary floating-point numbers of 53 bits, added and compared as the
    hardware does ([SpecFloat]).  A literal is the nearest such number. *)

Definition f64_add : spec_float -> spec_float -> spec_float := SFadd 53 1024.
Definition f64_lt : spec_float -> spec_float -> bool := SFltb.
Definition f64_hundredths (n : positive) : spec_float :=
  SFdiv 53 1024 (binary_normalize 53 1024 (Zpos n) 0 false) (binary_normalize 53 1024 100 0 false).

(** [f64::max] and [f64::min] on numbers. *)
Definition f64_max (a b : spec_float) : spec_float := if f64_lt a b then b else a.
Definition f64_min (a b : spec_float) : spec_float := if f64_lt b a then b else a.

(** The text of a number between 0 and 1: the shortest decimal fraction nearer to it than to
    its neighbours, with the digits nearest to it.  [mantissa * 2^-shift] is the number, and
    a decimal fraction is rounded to it when it lies within half a unit of the mantissa. *)
Fixpoint shortest_fraction (fuel digits : nat) (mantissa shift : Z) : string :=
  match fuel with
  | O => EmptyString
  | S fuel =>
      let scale := (10 ^ Z.of_nat digits)%Z in
      let unit := Z.shiftl 1 shift in
      let k := ((2 * mantissa * scale + unit) / (2 * unit))%Z in
      if (2 * Z.abs (k * unit - mantissa * scale) <=? scale)%Z then
        let text := Z_to_string k in
        "0." +:+ of_bytes (repeat "0"%char (digits - String.length text)) +:+ text
      else shortest_fraction fuel (S digits) mantissa shift
  end.

Definition f64_text (x : spec_float) : string :=
  match x with
  | S754_finite false m e => shortest_fraction 20 1 (Zpos m) (- e)
  | _ => "0"
  end.

Record ProfileEvidenceInput := mkEvidenceInput {
  ev_fields : PolicyFields;
  ev_class : RuntimeClassification;
  ev_command : string;
  ev_url : string;
  ev_args : list string
}.

Record EvidenceDecision := mkDecision {
  score : spec_float;
  level : string;
  automatic_action : string;
  next_step : string;
  sources : list string
}.

(** One observation: it raises the score and is named among the sources. *)
Definition observe (condition : bool) (hundredths : positive) (source : string)
    (seen : spec_float * list string) : spec_float * list string :=
  if condition then (f64_add seen.1 (f64_hundredths hundredths), seen.2 ++ [source]) else seen.

Definition evidence_score (input : ProfileEvidenceInput) (signals : list string) : spec_float * list string :=
  let f := ev_fields input in
  let known := negb (one_of signals "unknown-side-effects") in
  let seen := (f64_hundredths 20, []) in
  let seen := observe (negb (str_is_empty (trim (pf_source_type f)))) 10 "transport-shape" seen in
  let seen := observe (negb (str_is_empty (trim (ev_command input))) || negb (str_is_empty (trim (ev_url input)))) 10
                "launcher-shape" seen in
  let seen := observe (match ev_args input with [] => false | _ => true end) 15 "profile-hints-or-safe-flags" seen in
  let seen := observe known 20 "indirect-runtime-signals" seen in
  let seen := observe (binds_credential (pf_credential_binding f)) 10 "credential-binding" seen in
  let seen := observe (policy_is_explicit_stateless (pf_concurrency_policy f) (pf_state_binding f)
                       || one_of ["single-writer"; "single-session"; "isolated-per-project"; "plan-only"]
                            (pf_concurrency_policy f)) 10 "conservative-policy-binding" seen in
  let seen := observe (is_sse (pf_source_type f)) 5 "legacy-transport-detection" seen in
  let seen := observe (known && (String.eqb (runtime_type (ev_class input)) "stateless"
                                 || String.eqb (effect_class (ev_class input)) "read-only")) 10
                "read-only-or-stateless-evidence" seen in
  (if f64_lt (f64_hundredths 95) seen.1 then f64_hundredths 95 else seen.1, seen.2).

Definition evidence_decision (input : ProfileEvidenceInput) (signals : list string) : EvidenceDecision :=
  let f := ev_fields input in
  let class := ev_class input in
  let '(score, sources) := evidence_score input signals in
  if String.eqb (pf_scope_class f) "not-runnable" || String.eqb (pf_concurrency_policy f) "plan-only" then
    mkDecision (f64_max score (f64_hundredths 70)) "high" "plan-only"
      "do not run as an MCP server unless a package entrypoint and safe probe prove it is runnable" sources
  else if one_of signals "shell-or-process" then
    mkDecision (f64_max score (f64_hundredths 85)) "high" "blocked-high-risk"
      "require explicit local approval and sandboxing before any live probe or tool call" sources
  else if one_of signals "unknown-side-effects" || String.eqb (state_class class) "unknown-conservative" then
    mkDecision (f64_min score (f64_hundredths 49)) "low" "needs-safe-probe"
      "run mcpace advanced dev lab probe to collect initialize and tools/list evidence before widening policy" sources
  else if String.eqb (runtime_type class) "external" || String.eqb (state_class class) "credential-stateful"
          || negb (String.eqb (pf_credential_binding f) "none")
  then
    mkDecision (f64_max score (f64_hundredths 65)) "medium" "static-safe-policy"
      "keep conservative credential-scoped policy until safe probe and tool schema review prove read-only behavior" sources
  else if String.eqb (runtime_type class) "interactive" || String.eqb (state_class class) "host-stateful" then
    mkDecision (f64_max score (f64_hundredths 70)) "medium" "static-safe-policy"
      "keep single-session or host lock policy; safe probe may confirm tools but must not call actions" sources
  else
    mkDecision (f64_max score (f64_hundredths 60))
      (if f64_lt score (f64_hundredths 75) then "medium" else "high") "static-safe-policy"
      "use static conservative policy now; optional safe probe can raise evidence confidence" sources.

Definition profile_evidence_records (input : ProfileEvidenceInput) : list JsonValue :=
  let f := ev_fields input in
  let class := ev_class input in
  let signals := source_signals EmptyString EmptyString (ev_command input) (ev_url input) (ev_args input) in
  let decision := evidence_decision input signals in
  [json_object
     [("kind", json_string "static");
      ("confidence", JNumber (f64_text (score decision)));
      ("evidenceScore", JNumber (f64_text (score decision)));
      ("evidenceLevel", json_string (level decision));
      ("automaticAction", json_string (automatic_action decision));
      ("nextStep", json_string (next_step decision));
      ("summary", json_string "Initial adaptive profile inferred from indirect config, transport, package hints, source command semantics and policy fields; weak evidence must be confirmed with a safe live probe before widening concurrency.");
      ("data", json_object
         [("sourceType", json_string (pf_source_type f));
          ("scopeClass", json_string (pf_scope_class f));
          ("concurrencyPolicy", json_string (pf_concurrency_policy f));
          ("stateBinding", json_string (pf_state_binding f));
          ("credentialBinding", json_string (pf_credential_binding f));
          ("runtimeType", json_string (runtime_type class));
          ("stateClass", json_string (state_class class));
          ("effectClass", json_string (effect_class class));
          ("hasCommand", json_bool (negb (str_is_empty (trim (ev_command input)))));
          ("hasUrl", json_bool (negb (str_is_empty (trim (ev_url input)))));
          ("argCount", json_number (len_N (ev_args input)));
          ("sourceSignals", json_strings signals);
          ("evidenceSources", json_strings (sources decision))])]]
  ++ (if is_sse (pf_source_type f) then
        [json_object
           [("kind", json_string "policy");
            ("confidence", json_number 1);
            ("summary", json_string "Legacy SSE compatibility is not treated as the stable default transport; prefer Streamable HTTP or stdio.")]]
      else []).

(** ** What the policies guarantee *)

Lemma one_of_false signals name : one_of signals name = false <-> name ∉ signals.
Proof. rewrite <- one_of_elem. by destruct (one_of signals name). Qed.

Lemma has_any_false signals names : has_any signals names = false <-> Forall (fun name => (name ∉ signals)) names.
Proof.
  unfold has_any. induction names as [|name names IH]; [by split|]. cbn [existsb].
  rewrite orb_false_iff, Forall_cons, IH. by rewrite one_of_false.
Qed.

(** The signals that decide against a policy with several readers, whatever else is found. *)
Definition unshared_signals : list string :=
  ["sdk-or-example"; "remote-browser-session"; "browser-observation"; "browser-or-desktop"; "shell-or-process"; "memory-or-context";
   "git-repository"; "database"; "filesystem"].

(** The signals that make a server one of an external service rather than an analysis of a project. *)
Definition service_signals : list string :=
  ["network-or-external-api"; "credentials-or-auth"; "cloud-admin"; "external-read-api"; "documentation-lookup"].

(** The signals of a server that several clients may read at once. *)
Definition shared_signals (signals : list string) : bool :=
  let has := one_of signals in
  negb (has_any signals unshared_signals)
  && (negb (has "project-analysis") || has_any signals service_signals)
  && (has "transport-gateway"
      || (negb (has "mutable-tools") && negb (has_any signals admin_classes)
          && (has "documentation-lookup" || has "external-read-api"
              || (negb (has "credentials-or-auth") && negb (has "network-or-external-api")
                  && (has "network-fetch" || has "local-utility" || has "readonly-tools"))))).

(** The four policies that make no claim to a state and allow several readers. *)
Definition shared_policy (p : GenericSourcePolicy) : Prop :=
  p = gateway_policy \/ p = external_read_policy true \/ p = external_read_policy false \/ p = network_fetch_policy \/ p = stateless_policy.

(** What is chosen otherwise: one reader, or a browser that is only watched. *)
Definition unshared_policy (p : GenericSourcePolicy) : Prop :=
  (gp_concurrency_policy p <> "multi-reader" /\ (gp_parallelism_limit p <= 1)%N) \/ p = browser_observation_policy.

(** Decides a signal; a policy that is settled by then is looked up. *)
Ltac leaf := rewrite ?orb_true_r, ?andb_false_r; cbn [negb andb orb]; rewrite ?orb_true_r, ?andb_false_r; cbn [negb andb orb];
    first [ solve [left; split; [discriminate|cbn; lia]] | solve [right; reflexivity] | solve [left; reflexivity]
          | solve [right; left; reflexivity] | solve [right; right; left; reflexivity]
          | solve [right; right; right; left; reflexivity] | solve [right; right; right; right; reflexivity] | idtac ].
Ltac on b := destruct b; leaf.

Lemma policy_of_signals_cases remote signals :
  if negb remote && shared_signals signals then shared_policy (policy_of_signals remote signals)
  else unshared_policy (policy_of_signals remote signals).
Proof.
  unfold policy_of_signals, shared_signals, unshared_signals, service_signals, has_any. cbn [existsb].
  on (one_of signals "sdk-or-example"). on (one_of signals "remote-browser-session"). on (one_of signals "browser-observation").
  on (one_of signals "browser-or-desktop"). on (one_of signals "shell-or-process"). on remote. on (one_of signals "memory-or-context").
  on (one_of signals "git-repository").
  destruct (one_of signals "database"); [destruct (one_of signals "network-database" || one_of signals "credentials-or-auth"); leaf|leaf].
  destruct (one_of signals "filesystem"); leaf; [match goal with |- context [if ?c then _ else _] => destruct c end; leaf|].
  generalize (existsb (one_of signals) admin_classes) as admin.
  generalize (one_of signals "project-analysis"), (one_of signals "network-or-external-api"), (one_of signals "credentials-or-auth"),
    (one_of signals "cloud-admin"), (one_of signals "external-read-api"), (one_of signals "documentation-lookup"),
    (one_of signals "transport-gateway"), (one_of signals "mutable-tools"), (one_of signals "network-fetch"),
    (one_of signals "local-utility"), (one_of signals "readonly-tools").
  clear. intros analysis network credentials cloud external docs gateway mutable fetch utility readonly admin.
  on gateway; on docs; on external; on network; on credentials; on cloud; on analysis; on mutable; on admin; on fetch; on utility; on readonly.
Qed.



(** ** The mode of a server that nobody configured *)

Definition generic_fields (source_type : string) (p : GenericSourcePolicy) : PolicyFields :=
  mkFields source_type (gp_scope_class p) (gp_concurrency_policy p) (gp_state_binding p) (gp_credential_binding p).

Definition generic_signals (source_record : SourceServerRecord) : list string :=
  source_signals EmptyString EmptyString (src_command source_record) (src_url source_record)
    (source_signal_args (src_args source_record) (src_profile_hints source_record)).

Definition generic_classification (source_record : SourceServerRecord) (source_type : string) (p : GenericSourcePolicy)
    : RuntimeClassification :=
  infer_runtime_classification (generic_fields source_type p) (src_command source_record) (src_url source_record)
    (source_signal_args (src_args source_record) (src_profile_hints source_record)) [].

Definition inferred_fallback_mode (f : PolicyFields) (state_class : string) : ExecutionMode :=
  inferred_mode (pf_scope_class f) (pf_concurrency_policy f) (pf_state_binding f) state_class.

Lemma infer_generic_source_policy_signals name source_record source_type :
  infer_generic_source_policy name source_record source_type
  = policy_of_signals (is_remote source_type (src_url source_record)) (generic_signals source_record).
Proof. done. Qed.

(** Browsers that are only watched have the state of the host, whatever else they do. *)
Lemma observation_state_class source_type signals url :
  one_of signals "sdk-or-example" = false -> one_of signals "remote-browser-session" = false ->
  one_of signals "browser-observation" = true ->
  state_class (classify (generic_fields source_type browser_observation_policy) signals url [])
  ∈ ["legacy-transport"; "host-stateful"].
Proof.
  intros Hs Hr Ho. unfold classify. cbn [generic_fields pf_source_type pf_scope_class pf_concurrency_policy pf_state_binding
    gp_scope_class gp_concurrency_policy gp_state_binding browser_observation_policy existsb]. rewrite Hs, Hr, Ho.
  apply one_of_elem. destruct (is_sse source_type); [done|]. cbn [orb String.eqb Ascii.eqb Bool.eqb].
  destruct (one_of signals "shell-or-process"); [done|]. by destruct (one_of signals "mutable-tools").
Qed.

Lemma fallback_mode_reader f class :
  inferred_fallback_mode f class = Shared ->
  normalize_token (pf_concurrency_policy f) = "multi-reader"
  /\ normalize_token class ∈ ["stateless"; "credential-stateful"; "remote-session-stateful"].
Proof. unfold inferred_fallback_mode. by intros (? & ? & _)%inferred_mode_shared_iff. Qed.

Lemma inferred_mode_cases scope_class concurrency_policy state_binding state_class :
  inferred_mode scope_class concurrency_policy state_binding state_class <> Pool.
Proof.
  unfold inferred_mode. cbv zeta. by repeat match goal with |- context [if ?c then _ else _] => destruct c end.
Qed.

Lemma policy_reader_token remote signals :
  normalize_token (gp_concurrency_policy (policy_of_signals remote signals)) = "multi-reader" ->
  gp_concurrency_policy (policy_of_signals remote signals) = "multi-reader".
Proof.
  set (token := normalize_token). unfold policy_of_signals.
  repeat match goal with |- context [if ?c then _ else _] => destruct c end; subst token; vm_compute; congruence.
Qed.

(** Signals under which a server may be shared: nothing points to the host, a browser, memory,
    a repository, a database or files; an analysis of a project is one of an external service;
    and it is a gateway, or nothing in it changes or administers anything and it looks up
    documentation, reads an external service, or needs no credentials and no external
    service and fetches, is a local utility or says that it only reads. *)
Definition may_be_shared (signals : list string) : Prop :=
  Forall (fun name => name ∉ signals) unshared_signals
  /\ ("project-analysis" ∈ signals -> Exists (fun name => name ∈ signals) service_signals)
  /\ ("transport-gateway" ∈ signals
      \/ ("mutable-tools" ∉ signals) /\ Forall (fun name => name ∉ signals) admin_classes
         /\ ("documentation-lookup" ∈ signals \/ "external-read-api" ∈ signals
             \/ ("credentials-or-auth" ∉ signals) /\ ("network-or-external-api" ∉ signals)
                /\ ("network-fetch" ∈ signals \/ "local-utility" ∈ signals \/ "readonly-tools" ∈ signals))).

Lemma has_any_true signals names : has_any signals names = true <-> Exists (fun name => name ∈ signals) names.
Proof.
  unfold has_any. induction names as [|name names IH]; [split; [done|by intros ?%Exists_nil]|]. cbn [existsb].
  rewrite orb_true_iff, Exists_cons, IH. by rewrite one_of_elem.
Qed.

Lemma shared_signals_iff signals : shared_signals signals = true <-> may_be_shared signals.
Proof.
  unfold shared_signals, may_be_shared. rewrite !andb_true_iff, !orb_true_iff, !andb_true_iff, !orb_true_iff, !negb_true_iff, !andb_true_iff,
    !orb_true_iff, !negb_true_iff, !has_any_false, !one_of_false, has_any_true, !one_of_elem.
  destruct (decide ("project-analysis" ∈ signals)); tauto.
Qed.

(** A browser that is only watched is one whatever else it is. *)
Lemma observation_policy_signals remote signals :
  policy_of_signals remote signals = browser_observation_policy ->
  one_of signals "sdk-or-example" = false /\ one_of signals "remote-browser-session" = false /\ one_of signals "browser-observation" = true.
Proof.
  unfold policy_of_signals. destruct (one_of signals "sdk-or-example"); [discriminate|]. destruct (one_of signals "remote-browser-session"); [discriminate|].
  destruct (one_of signals "browser-observation"); [done|]. intros H. exfalso. revert H.
  repeat match goal with |- context [if ?c then _ else _] => destruct c end; discriminate.
Qed.

Lemma legacy_class f signals url tool_policies :
  is_sse (pf_source_type f) = true -> state_class (classify f signals url tool_policies) = "legacy-transport".
Proof. unfold classify. by intros ->. Qed.

(** What the policies with several readers are called. *)
Lemma shared_policy_class source_type signals url p :
  shared_policy p -> shared_signals signals = true -> is_remote source_type url = false -> is_sse source_type = false ->
  state_class (classify (generic_fields source_type p) signals url []) ∈ ["stateless"; "credential-stateful"].
Proof.
  intros Hp [ [Hu Ha]%andb_true_iff _]%andb_true_iff Hr Hsse. apply negb_true_iff in Hu. unfold has_any, unshared_signals in Hu. cbn [existsb] in Hu.
  rewrite !orb_false_iff in Hu. destruct Hu as (U1 & U2 & U3 & U4 & U5 & U6 & U7 & U8 & U9 & _).
  assert (Hanalysis : one_of signals "project-analysis" && negb (one_of signals "network-or-external-api") && negb (one_of signals "credentials-or-auth")
    && negb (one_of signals "cloud-admin") && negb (one_of signals "external-read-api") && negb (one_of signals "documentation-lookup") = false).
  { revert Ha. unfold has_any, service_signals. cbn [existsb]. by destruct (one_of signals "project-analysis"), (one_of signals "network-or-external-api"),
      (one_of signals "credentials-or-auth"), (one_of signals "cloud-admin"), (one_of signals "external-read-api"), (one_of signals "documentation-lookup"). }
  apply one_of_elem. unfold classify.
  destruct Hp as [ -> |[ -> |[ -> |[ -> | -> ] ] ] ];
    cbn [generic_fields pf_source_type pf_scope_class pf_concurrency_policy pf_state_binding pf_credential_binding gp_scope_class
         gp_concurrency_policy gp_state_binding gp_credential_binding gateway_policy external_read_policy network_fetch_policy stateless_policy];
    change (policy_is_explicit_stateless "multi-reader" "none") with true; rewrite Hr, Hsse, U1, U2, U3, U4, U5, U6, U7, U8, U9, Hanalysis; clear;
    cbn [orb andb existsb String.eqb Ascii.eqb Bool.eqb];
    repeat match goal with
    | |- context [if ?c then _ else _] => lazymatch c with context [one_of signals _] => destruct c | context [has_any signals _] => destruct c | _ => let v := eval vm_compute in c in change c with v; cbv iota end
    end; reflexivity.
Qed.

Lemma unshared_class class :
  class ∈ ["legacy-transport"; "host-stateful"] -> normalize_token class ∉ ["stateless"; "credential-stateful"; "remote-session-stateful"].
Proof.
  intros Hc. rewrite <- one_of_elem. apply elem_of_cons in Hc as [ -> |Hc]; [by vm_compute|]. apply list_elem_of_singleton in Hc as ->. by vm_compute.
Qed.

Lemma shared_class class :
  class ∈ ["stateless"; "credential-stateful"] -> normalize_token class ∈ ["stateless"; "credential-stateful"; "remote-session-stateful"].
Proof.
  intros Hc. rewrite <- one_of_elem. apply elem_of_cons in Hc as [ -> |Hc]; [by vm_compute|]. apply list_elem_of_singleton in Hc as ->. by vm_compute.
Qed.

(** C35: a server that nobody configured runs as one worker for all clients exactly when it is not
    reached over HTTP or SSE and the signals found in its command, address, arguments and
    hints allow it ([may_be_shared]). *)
Theorem sources_are_shared_iff name source_record source_type :
  let p := infer_generic_source_policy name source_record source_type in
  inferred_fallback_mode (generic_fields source_type p)
    (state_class (generic_classification source_record source_type p)) = Shared
  <-> is_sse source_type = false /\ is_remote source_type (src_url source_record) = false
      /\ may_be_shared (generic_signals source_record).
Proof.
  cbv zeta. rewrite infer_generic_source_policy_signals, <- shared_signals_iff. unfold generic_classification, infer_runtime_classification.
  fold (generic_signals source_record). set (signals := generic_signals source_record). set (url := src_url source_record).
  set (remote := is_remote source_type url). set (p := policy_of_signals remote signals).
  pose proof (policy_of_signals_cases remote signals) as Hcases. fold p in Hcases. split.
  - intros Hm. pose proof (fallback_mode_reader _ _ Hm) as [Hc Hs]. cbn [generic_fields pf_concurrency_policy] in Hc. apply policy_reader_token in Hc.
    destruct (is_sse source_type) eqn:Esse; [exfalso; rewrite legacy_class in Hs by done; apply one_of_elem in Hs; by vm_compute in Hs|].
    destruct (negb remote && shared_signals signals) eqn:E; [apply andb_true_iff in E as [E1%negb_true_iff E2]; done|].
    exfalso. destruct Hcases as [ [Hn _]|Hp]; [done|]. destruct (observation_policy_signals remote signals Hp) as (H1 & H2 & H3).
    rewrite Hp in Hs. by apply (unshared_class _ (observation_state_class source_type signals url H1 H2 H3)).
  - intros (Esse & Er & Hsig). fold remote in Er. rewrite Er, Hsig in Hcases. cbn [negb andb] in Hcases.
    pose proof (shared_policy_class source_type signals url p Hcases Hsig Er Esse) as Hst.
    apply shared_class in Hst. unfold inferred_fallback_mode. apply inferred_mode_shared_iff.
    unfold shared_policy in Hcases. split_and!; [|exact Hst| |];
      destruct Hcases as [ -> |[ -> |[ -> |[ -> | -> ] ] ] ]; try (by vm_compute); intros Hx%one_of_elem; by vm_compute in Hx.
Qed.

(** ** The scores of the evidence *)

(** What holds of a score whatever was observed: it is between 0.2 and 0.95, and so it stays
    when it is raised to a minimum; lowered to 0.49 it is below 0.5. *)
Definition score_checks (s : spec_float) : bool :=
  forallb (fun n => negb (f64_lt (f64_hundredths 95) (f64_max s (f64_hundredths n)))
                    && negb (f64_lt (f64_max s (f64_hundredths n)) (f64_hundredths 20))
                    && negb (f64_lt (f64_max s (f64_hundredths n)) (f64_hundredths 60))) [60; 65; 70; 85]%positive
  && negb (f64_lt (f64_min s (f64_hundredths 49)) (f64_hundredths 20))
  && negb (f64_lt (f64_hundredths 95) (f64_min s (f64_hundredths 49)))
  && negb (f64_lt (f64_hundredths 49) (f64_min s (f64_hundredths 49))).

Definition observations : list (positive * string) :=
  [(10, "transport-shape"); (10, "launcher-shape"); (15, "profile-hints-or-safe-flags"); (20, "indirect-runtime-signals");
   (10, "credential-binding"); (10, "conservative-policy-binding"); (5, "legacy-transport-detection");
   (10, "read-only-or-stateless-evidence")]%positive.

Definition capped (s : spec_float) : spec_float := if f64_lt (f64_hundredths 95) s then f64_hundredths 95 else s.

(** Every sum of observations, in their order. *)
Fixpoint sums (steps : list (positive * string)) (s : spec_float) : list spec_float :=
  match steps with
  | [] => [s]
  | (n, _) :: steps => sums steps s ++ sums steps (f64_add s (f64_hundredths n))
  end.

Lemma sums_checked : forallb (fun s => score_checks (capped s)) (sums observations (f64_hundredths 20)) = true.
Proof. by vm_compute. Qed.

Lemma sums_observe condition n source steps seen s :
  s ∈ sums steps (observe condition n source seen).1 -> s ∈ sums ((n, source) :: steps) seen.1.
Proof. cbn [sums]. rewrite elem_of_app. destruct condition; cbn [observe fst]; auto. Qed.

Lemma score_checked input signals : score_checks (evidence_score input signals).1 = true.
Proof.
  pose proof sums_checked as H. rewrite forallb_forall in H. unfold evidence_score. cbv zeta. cbn [fst].
  match goal with |- context [if f64_lt _ ?s then _ else _] => apply (H s) end. apply list_elem_of_In.
  change (f64_hundredths 20) with (f64_hundredths 20, @nil string).1. unfold observations.
  do 8 eapply sums_observe. apply list_elem_of_singleton. reflexivity.
Qed.

Lemma raised_score s n :
  n ∈ [60; 65; 70; 85]%positive -> score_checks s = true ->
  let m := f64_max s (f64_hundredths n) in
  f64_lt m (f64_hundredths 20) = false /\ f64_lt (f64_hundredths 95) m = false /\ f64_lt m (f64_hundredths 60) = false.
Proof.
  intros Hn H. unfold score_checks in H. rewrite !andb_true_iff, forallb_forall in H. destruct H as [ [ [H _] _] _].
  apply list_elem_of_In, H in Hn. cbv beta in Hn. rewrite !andb_true_iff, !negb_true_iff in Hn. cbv zeta. tauto.
Qed.

Lemma lowered_score s :
  score_checks s = true ->
  let m := f64_min s (f64_hundredths 49) in
  f64_lt m (f64_hundredths 20) = false /\ f64_lt (f64_hundredths 95) m = false /\ f64_lt (f64_hundredths 49) m = false.
Proof. intros H. unfold score_checks in H. rewrite !andb_true_iff, !negb_true_iff in H. cbv zeta. tauto. Qed.

(** The confidence that is recorded is between 0.2 and 0.95; it is called low exactly when a
    safe probe is asked for, and then it stands at 0.49 or less, otherwise at 0.6 or more. *)
Theorem evidence_levels_follow_scores input signals :
  let d := evidence_decision input signals in
  f64_lt (score d) (f64_hundredths 20) = false /\ f64_lt (f64_hundredths 95) (score d) = false
  /\ (level d = "low" /\ automatic_action d = "needs-safe-probe" /\ f64_lt (f64_hundredths 49) (score d) = false
      \/ level d ∈ ["medium"; "high"] /\ automatic_action d <> "needs-safe-probe"
         /\ f64_lt (score d) (f64_hundredths 60) = false).
Proof.
  cbv zeta. unfold evidence_decision. pose proof (score_checked input signals) as H.
  destruct (evidence_score input signals) as [s l]. cbn [fst] in H.
  pose proof (fun n Hn => raised_score s n Hn H) as Hr. pose proof (lowered_score s H) as (L1 & L2 & L3). cbv zeta in Hr.
  clear H. revert Hr L1 L2 L3. generalize f64_hundredths f64_lt f64_max f64_min. intros hundredths lt max min Hr L1 L2 L3.
  assert (Hall : forall n, n ∈ [60; 65; 70; 85]%positive -> forall t a x m, (t = "medium" \/ t = "high") -> a <> "needs-safe-probe" ->
    let d := mkDecision (max s (hundredths n)) t a x m in
    lt (score d) (hundredths 20%positive) = false /\ lt (hundredths 95%positive) (score d) = false
    /\ (level d = "low" /\ automatic_action d = "needs-safe-probe" /\ lt (hundredths 49%positive) (score d) = false
        \/ level d ∈ ["medium"; "high"] /\ automatic_action d <> "needs-safe-probe"
           /\ lt (score d) (hundredths 60%positive) = false)).
  { intros n Hn t a x m Ht Ha. destruct (Hr n Hn) as (? & ? & ?). cbv zeta. cbn. split_and!; try done. right.
    split_and!; try done. by destruct Ht as [ -> | -> ]; apply one_of_elem. }
  repeat match goal with |- context [if ?c then mkDecision _ _ _ _ _ else _] => destruct c end;
    try (apply Hall; [by apply (bool_decide_unpack _); vm_compute|by try case_match; auto|done]).
  - cbn. split_and!; try done. left. by split_and!.
Qed.

(** ** What the code does not mean to do *)

Definition package_source (arg : string) : SourceServerRecord :=
  mkSourceServer "tools" true "stdio" "npx" EmptyString [arg] [] [] "mcp_settings.json" [] None None.

(** A browser that is only watched may have several readers, and that is decided before the
    shell is looked at. *)
Lemma shell_behind_browser_tabs :
  let source := package_source "mcp-browser-tabs-shell" in
  let p := infer_generic_source_policy "tools" source "stdio" in
  "shell-or-process" ∈ generic_signals source
  /\ gp_concurrency_policy p = "multi-reader" /\ gp_parallelism_limit p = 2%N
  /\ infer_parallel_safety_class (generic_fields "stdio" p) "npx" EmptyString ["mcp-browser-tabs-shell"] []
     = "P1_host_readonly_candidate".
Proof. cbv zeta. split; [apply one_of_elem|split_and!]; by vm_compute. Qed.

(** A server that names its documentation is called stateless and reading, although it writes. *)
Lemma writing_documentation_is_stateless :
  generic_classification
    (mkSourceServer "docs" true "stdio" "npx" EmptyString ["docs-mcp"; "--allow-write"] [] [] "mcp_settings.json" [] None None)
    "stdio" (infer_generic_source_policy "docs"
       (mkSourceServer "docs" true "stdio" "npx" EmptyString ["docs-mcp"; "--allow-write"] [] [] "mcp_settings.json" [] None None) "stdio")
  = mkClass "stateless" "stateless" "external-read".
Proof. by vm_compute. Qed.

(** A gateway to a cloud account that writes is shared by all clients. *)
Lemma writing_gateway_is_shared :
  let source := package_source "mcp-aws-deploy-proxy" in
  let p := infer_generic_source_policy "tools" source "stdio" in
  "mutable-tools" ∈ generic_signals source /\ "cloud-admin" ∈ generic_signals source
  /\ inferred_fallback_mode (generic_fields "stdio" p) (state_class (generic_classification source "stdio" p)) = Shared.
Proof. cbv zeta. split_and!; try apply one_of_elem; by vm_compute. Qed.

(** A linter that also looks up documentation is shared, although the index of a project is
    the state that its kind is bound to. *)
Lemma analysis_with_documentation_is_shared :
  let source := package_source "mcp-eslint-docs" in
  let p := infer_generic_source_policy "tools" source "stdio" in
  "project-analysis" ∈ generic_signals source
  /\ inferred_fallback_mode (generic_fields "stdio" p) (state_class (generic_classification source "stdio" p)) = Shared.
Proof. cbv zeta. split; [apply one_of_elem|]; by vm_compute. Qed.

(** A server that is classed as having the state of a credential is shared by all clients. *)
Lemma credential_state_is_shared :
  let source := package_source "mcp-docs-auth" in
  let p := infer_generic_source_policy "tools" source "stdio" in
  state_class (generic_classification source "stdio" p) = "credential-stateful"
  /\ inferred_fallback_mode (generic_fields "stdio" p) (state_class (generic_classification source "stdio" p)) = Shared.
Proof. cbv zeta. split; by vm_compute. Qed.
