(* ===== verification/ServerLoader.v ===== *)
(** * Loading the servers (src/server/loader.rs)

    The record of every server: from its declaration in mcpace.config.json and its source in
    the settings files, or from its source alone.  The inferences are in [SourcePolicy]; what
    the reads of the files gave is a parameter.  The last theorem follows a loaded record into
    the plan of a client ([ClientPlan]). *)

From Stdlib Require Import Ascii.
From S2P Require Import Prelude RustStr BTree Json TextUtils Execution ServerModel ServerRegistry SortBy LeaseRoute.
From S2P Require Import ClientPaths ClientContext ClientPlan ClientRoutes SourceSignals SourcePolicy.

(** ** Errors *)

Inductive ServerLoaderError : Type :=
| ConfigRead (path reason : string)
| SourcesError (reason : string)
| RuntimeProfileError (reason : string).

Definition loader_error_text (e : ServerLoaderError) : string :=
  match e with
  | ConfigRead path reason => "failed to read server config " +:+ path +:+ ": " +:+ reason
  | SourcesError reason => "failed to load MCP source settings: " +:+ reason
  | RuntimeProfileError reason => "failed to load runtime profile selection: " +:+ reason
  end.

(** ** Sources *)

Definition source_enabled (value : JsonValue) : bool :=
  if unwrap_or (json_get value "disabled" ≫= as_bool) false then false
  else unwrap_or (json_get value "enabled" ≫= as_bool) true.

Definition text_field (value : JsonValue) (key : string) : string :=
  trim (unwrap_or (json_get value key ≫= as_str) EmptyString).

Definition object_keys (value : option JsonValue) : list string :=
  unwrap_or (option_map bt_keys (value ≫= as_object)) [].

(** [mcpaceProfileHints], or else [profileHints]. *)
Definition hint_strings (get : string -> option JsonValue) : list string :=
  strings_from_array (opt_or (get "mcpaceProfileHints") (get "profileHints") ≫= as_array).

Definition infer_source_type : string -> string -> string -> string := infer_public_source_type.

Definition source_settings_record (entry : McpServerEntry) : SourceServerRecord :=
  let value := entry_value entry in
  let raw_source_type := text_field value "type" in
  let command := text_field value "command" in
  let url := text_field value "url" in
  let description :=
    match opt_filter (fun v => negb (str_is_empty v)) (option_map trim (json_get value "description" ≫= as_str)) with
    | Some description => [description]
    | None => []
    end in
  {| src_name := trim (entry_name entry);
     src_enabled := source_enabled value;
     src_source_type := infer_source_type raw_source_type command url;
     src_command := command;
     src_url := url;
     src_args := strings_from_array (json_get value "args" ≫= as_array);
     src_env_names := object_keys (json_get value "env");
     src_header_names := object_keys (json_get value "headers");
     src_source_path := entry_source entry;
     src_profile_hints := sort_dedup (hint_strings (json_get value) ++ description);
     src_execution := json_get value "execution";
     src_policy := json_get value "policy" |}.

Definition source_settings (registry : McpServerRegistry) : list (string * SourceServerRecord) :=
  fold_left (fun settings entry => bt_insert (entry_normalized_name entry) (source_settings_record entry) settings)
    (bt_values (registry_servers registry)) [].

Definition load_source_settings (registry : result McpServerRegistry string)
    : result (list (string * SourceServerRecord)) ServerLoaderError :=
  registry ←? map_err SourcesError registry ;;
  Ok (source_settings registry).

Definition supported_transports_for_source_type (source_type : string) : list string :=
  if String.eqb source_type "stdio" then ["stdio"]
  else if one_of ["streamable-http"; "http"] source_type then ["streamable-http"]
  else if one_of ["sse-legacy"; "sse"] source_type then ["sse"]
  else if negb (str_is_empty source_type) then [source_type]
  else [].

(** ** A server that is not declared *)

Definition generic_source_server_record (normalized_name : string) (source_record : SourceServerRecord)
    (execution_defaults : ExecutionPolicy) : ServerRecord :=
  let source_type := infer_source_type (src_source_type source_record) (src_command source_record) (src_url source_record) in
  let policy := infer_generic_source_policy normalized_name source_record source_type in
  let signal_args := source_signal_args (src_args source_record) (src_profile_hints source_record) in
  let fields := generic_fields source_type policy in
  let class := generic_classification source_record source_type policy in
  let execution :=
    resolve_with_canonical (Some (to_config_json_value execution_defaults)) (src_policy source_record)
      (src_execution source_record) (inferred_fallback_mode fields (state_class class)) in
  let max_workers := worker_limit execution in
  {| sr_name := if str_is_empty (trim (src_name source_record)) then normalized_name else trim (src_name source_record);
     sr_kind := "source-" +:+ source_type;
     sr_required := false;
     sr_default_enabled := false;
     sr_profile_enabled := src_enabled source_record;
     sr_platform_supported := true;
     sr_effective_enabled :=
       src_enabled source_record && negb (is_disabled execution)
       && negb (runtime_policy_disabled (gp_scope_class policy) (gp_concurrency_policy policy) (gp_startup_strategy policy)
                  (gp_routing_group policy) max_workers);
     sr_auto_start := false;
     sr_transport_preference := source_type;
     sr_supported_transports := supported_transports_for_source_type source_type;
     sr_platforms := [];
     sr_required_commands :=
       if String.eqb source_type "stdio" && negb (str_is_empty (trim (src_command source_record)))
       then [src_command source_record] else [];
     sr_scope_class := gp_scope_class policy;
     sr_concurrency_policy := gp_concurrency_policy policy;
     sr_state_binding := gp_state_binding policy;
     sr_credential_binding := gp_credential_binding policy;
     sr_parallelism_limit := gp_parallelism_limit policy;
     sr_parallel_safety_class :=
       infer_parallel_safety_class fields (src_command source_record) (src_url source_record) signal_args [];
     sr_runtime_type := runtime_type class;
     sr_state_class := state_class class;
     sr_effect_class := effect_class class;
     sr_default_pool_model := infer_default_pool_model fields;
     sr_max_workers := max_workers;
     sr_max_in_flight_per_worker := effective_max_in_flight_per_worker execution source_type;
     sr_execution := execution;
     sr_transport_status := transport_status_for_source_type source_type;
     sr_launcher_kind := infer_launcher_kind (src_command source_record) (src_url source_record) "user-supplied" EmptyString;
     sr_lock_domains := infer_lock_domains fields normalized_name;
     sr_profile_evidence :=
       profile_evidence_records
         (mkEvidenceInput fields class (src_command source_record) (src_url source_record) signal_args);
     sr_conflict_domain :=
       if str_is_empty (gp_conflict_domain_prefix policy) then normalized_name
       else gp_conflict_domain_prefix policy +:+ ":" +:+ normalized_name;
     sr_project_root_mode := gp_project_root_mode policy;
     sr_worktree_binding := gp_worktree_binding policy;
     sr_state_profile_mode := gp_state_profile_mode policy;
     sr_host_lock := gp_host_lock policy;
     sr_startup_strategy := gp_startup_strategy policy;
     sr_routing_group := gp_routing_group policy;
     sr_discovery_requires_lease := gp_discovery_requires_lease policy;
     sr_health_url := EmptyString;
     sr_source_enabled := src_enabled source_record;
     sr_source_type := source_type;
     sr_source_path := src_source_path source_record;
     sr_source_command := src_command source_record;
     sr_source_args := src_args source_record;
     sr_source_env_names := src_env_names source_record;
     sr_source_header_names := src_header_names source_record;
     sr_source_url := src_url source_record;
     sr_tool_policies := [];
     sr_installer_target := "none";
     sr_installer_method := "user-supplied";
     sr_installer_package := EmptyString;
     sr_installer_verify_command := EmptyString |}.

(** ** A declared server *)

Definition Object := list (string * JsonValue).

Definition policy_string (policy : option Object) (key fallback : string) : string :=
  unwrap_or
    (opt_filter (fun value => negb (str_is_empty value))
       (option_map trim ((policy ≫= bt_get key) ≫= as_str))) fallback.

Definition policy_token (policy : option Object) (key fallback : string) : string :=
  normalize_flag (policy_string policy key fallback).

Definition policy_usize (policy : option Object) (key : string) (fallback : N) : N :=
  match opt_filter (fun value => 0 <=? value)%Z ((policy ≫= bt_get key) ≫= as_i64) with
  | Some value => Z.to_N value
  | None => fallback
  end.

Definition policy_bool (policy : option Object) (key : string) (fallback : bool) : bool :=
  unwrap_or ((policy ≫= bt_get key) ≫= as_bool) fallback.

Definition object_text (object : Object) (key : string) : string :=
  trim (unwrap_or (bt_get key object ≫= as_str) EmptyString).

Definition object_bool (object : Object) (key : string) : bool := unwrap_or (bt_get key object ≫= as_bool) false.

Definition object_strings (object : Object) (key : string) : list string :=
  strings_from_array (bt_get key object ≫= as_array).

Definition inferred_transport_preference (object : Object) (source_type : string) : string :=
  let configured := object_text object "transportPreference" in
  if str_is_empty configured then source_type else configured.

Definition inferred_supported_transports (object : Object) (source_type : string) : list string :=
  let transports := object_strings object "supportedTransports" in
  sort_dedup (match transports with [] => supported_transports_for_source_type source_type | _ => transports end).

Definition inferred_required_commands (object : Object) (source_type source_command : string) : list string :=
  let command := trim source_command in
  sort_dedup (object_strings object "requiredCommands"
              ++ (if String.eqb source_type "stdio" && negb (str_is_empty command) then [command] else [])).

(** A server without a source has its empty fields. *)
Definition no_source : SourceServerRecord :=
  mkSourceServer EmptyString false EmptyString EmptyString EmptyString [] [] [] EmptyString [] None None.

(** What the declaration [object] makes of the source. *)
Definition declared_source (name : string) (object : Object) (source_record : option SourceServerRecord)
    : SourceServerRecord :=
  let source := unwrap_or source_record no_source in
  let source_type :=
    if is_some source_record then infer_source_type (src_source_type source) (src_command source) (src_url source)
    else EmptyString in
  {| src_name := if str_is_empty (trim (src_name source)) then trim name else src_name source;
     src_enabled := src_enabled source;
     src_source_type := source_type;
     src_command := src_command source;
     src_url := src_url source;
     src_args := src_args source;
     src_env_names := src_env_names source;
     src_header_names := src_header_names source;
     src_source_path := src_source_path source;
     src_profile_hints := sort_dedup (src_profile_hints source ++ hint_strings (fun key => bt_get key object));
     src_execution := src_execution source;
     src_policy := src_policy source |}.

(** The inferred policy with the fields that the declaration sets. *)
Definition declared_policy (policy : option Object) (normalized_name : string) (source : SourceServerRecord)
    : GenericSourcePolicy :=
  let inferred := infer_generic_source_policy normalized_name source (src_source_type source) in
  {| gp_scope_class := policy_token policy "scopeClass" (gp_scope_class inferred);
     gp_concurrency_policy := policy_token policy "concurrencyPolicy" (gp_concurrency_policy inferred);
     gp_state_binding := policy_token policy "stateBinding" (gp_state_binding inferred);
     gp_credential_binding := policy_token policy "credentialBinding" (gp_credential_binding inferred);
     gp_parallelism_limit := policy_usize policy "parallelismLimit" (gp_parallelism_limit inferred);
     gp_conflict_domain_prefix := gp_conflict_domain_prefix inferred;
     gp_project_root_mode := policy_token policy "projectRootMode" (gp_project_root_mode inferred);
     gp_worktree_binding := policy_token policy "worktreeBinding" (gp_worktree_binding inferred);
     gp_state_profile_mode := policy_token policy "stateProfileMode" (gp_state_profile_mode inferred);
     gp_host_lock := policy_token policy "hostLock" (gp_host_lock inferred);
     gp_startup_strategy := policy_token policy "startupStrategy" (gp_startup_strategy inferred);
     gp_routing_group := policy_token policy "routingGroup" (gp_routing_group inferred);
     gp_discovery_requires_lease := policy_bool policy "discoveryRequiresLease" (gp_discovery_requires_lease inferred) |}.

Definition declared_class (policy : option Object) (fields : PolicyFields) (source : SourceServerRecord)
    (signal_args : list string) (tool_policies : list JsonValue) : RuntimeClassification :=
  let class :=
    infer_runtime_classification fields (src_command source) (src_url source) signal_args tool_policies in
  mkClass (policy_token policy "runtimeType" (runtime_type class)) (policy_token policy "stateClass" (state_class class))
    (policy_token policy "effectClass" (effect_class class)).

Definition declared_execution (object : Object) (source_record : option SourceServerRecord)
    (execution_defaults : ExecutionPolicy) (fallback_mode : ExecutionMode) : ExecutionPolicy :=
  resolve_with_canonical (Some (to_config_json_value execution_defaults))
    (opt_or (bt_get "policy" object) (source_record ≫= src_policy))
    (opt_or (bt_get "execution" object) (source_record ≫= src_execution)) fallback_mode.

Section normalize.
Context (platform : string).

Definition normalize_server_record (name : string) (value : JsonValue) (source_record : option SourceServerRecord)
    (execution_defaults : ExecutionPolicy) (profile_override_enabled : option bool) : option ServerRecord :=
  object ← as_object value;
  let policy := bt_get "policy" object ≫= as_object in
  let installer := bt_get "installer" object ≫= as_object in
  let installer_text key := trim (unwrap_or ((installer ≫= bt_get key) ≫= as_str) EmptyString) in
  let required := object_bool object "required" in
  let default_enabled := object_bool object "defaultEnabled" in
  let profile_enabled := if required then true else unwrap_or profile_override_enabled default_enabled in
  let source_enabled := unwrap_or (option_map src_enabled source_record) false in
  let platforms := object_strings object "platforms" in
  let platform_supported := supports_current_platform platform platforms in
  let base_effective_enabled := profile_enabled && source_enabled && platform_supported in
  let source := declared_source name object source_record in
  let signal_args := source_signal_args (src_args source) (src_profile_hints source) in
  let normalized_name := to_ascii_lowercase (trim name) in
  let declared := declared_policy policy normalized_name source in
  let default_conflict_domain :=
    if str_is_empty (gp_conflict_domain_prefix declared) then trim name
    else gp_conflict_domain_prefix declared +:+ ":" +:+ normalized_name in
  let tool_policies := unwrap_or (bt_get "toolPolicies" object ≫= as_array) [] in
  let fields := generic_fields (src_source_type source) declared in
  let class := declared_class policy fields source signal_args tool_policies in
  let execution := declared_execution object source_record execution_defaults (inferred_fallback_mode fields (state_class class)) in
  let max_workers := worker_limit execution in
  Some
  {| sr_name := name;
     sr_kind := object_text object "kind";
     sr_required := required;
     sr_default_enabled := default_enabled;
     sr_profile_enabled := profile_enabled;
     sr_platform_supported := platform_supported;
     sr_effective_enabled :=
       base_effective_enabled && negb (is_disabled execution)
       && negb (runtime_policy_disabled (gp_scope_class declared) (gp_concurrency_policy declared)
                  (gp_startup_strategy declared) (gp_routing_group declared) max_workers);
     sr_auto_start := object_bool object "autoStart";
     sr_transport_preference := inferred_transport_preference object (src_source_type source);
     sr_supported_transports := inferred_supported_transports object (src_source_type source);
     sr_platforms := platforms;
     sr_required_commands := inferred_required_commands object (src_source_type source) (src_command source);
     sr_scope_class := gp_scope_class declared;
     sr_concurrency_policy := gp_concurrency_policy declared;
     sr_state_binding := gp_state_binding declared;
     sr_credential_binding := gp_credential_binding declared;
     sr_parallelism_limit := gp_parallelism_limit declared;
     sr_parallel_safety_class :=
       infer_parallel_safety_class fields (src_command source) (src_url source) signal_args tool_policies;
     sr_runtime_type := runtime_type class;
     sr_state_class := state_class class;
     sr_effect_class := effect_class class;
     sr_default_pool_model := infer_default_pool_model fields;
     sr_max_workers := max_workers;
     sr_max_in_flight_per_worker := effective_max_in_flight_per_worker execution (src_source_type source);
     sr_execution := execution;
     sr_transport_status := transport_status_for_source_type (src_source_type source);
     sr_launcher_kind := infer_launcher_kind (src_command source) (src_url source) (installer_text "installMethod")
                           (installer_text "installPackage");
     sr_lock_domains := infer_lock_domains fields name;
     sr_profile_evidence :=
       profile_evidence_records (mkEvidenceInput fields class (src_command source) (src_url source) signal_args);
     sr_conflict_domain := policy_string policy "conflictDomain" default_conflict_domain;
     sr_project_root_mode := gp_project_root_mode declared;
     sr_worktree_binding := gp_worktree_binding declared;
     sr_state_profile_mode := gp_state_profile_mode declared;
     sr_host_lock := gp_host_lock declared;
     sr_startup_strategy := gp_startup_strategy declared;
     sr_routing_group := gp_routing_group declared;
     sr_discovery_requires_lease := gp_discovery_requires_lease declared;
     sr_health_url := object_text object "healthUrl";
     sr_source_enabled := source_enabled;
     sr_source_type := src_source_type source;
     sr_source_path := src_source_path source;
     sr_source_command := src_command source;
     sr_source_args := src_args source;
     sr_source_env_names := src_env_names source;
     sr_source_header_names := src_header_names source;
     sr_source_url := src_url source;
     sr_tool_policies := tool_policies;
     sr_installer_target := installer_text "installTarget";
     sr_installer_method := installer_text "installMethod";
     sr_installer_package := installer_text "installPackage";
     sr_installer_verify_command := installer_text "verifyCommand" |}.

(** ** All servers *)

Record LoaderState := mkLoader {
  ld_records : list ServerRecord;
  ld_declared_names : list string
}.

(** The declared servers, in the order of the object. *)
Definition load_declared (settings : list (string * SourceServerRecord)) (execution_defaults : ExecutionPolicy)
    (overrides : list (string * bool)) (st : LoaderState) (named : string * JsonValue) : LoaderState :=
  let '(name, value) := named in
  let normalized_name := normalize_server_name name in
  if str_is_empty normalized_name then st
  else
    mkLoader
      (match normalize_server_record name value (bt_get normalized_name settings) execution_defaults
               (bt_get normalized_name overrides) with
       | Some record => ld_records st ++ [record]
       | None => ld_records st
       end)
      (set_insert normalized_name (ld_declared_names st)).

Definition load_undeclared (execution_defaults : ExecutionPolicy) (st : LoaderState) (named : string * SourceServerRecord)
    : LoaderState :=
  let '(normalized_name, source_record) := named in
  if one_of (ld_declared_names st) normalized_name then st
  else
    mkLoader (ld_records st ++ [generic_source_server_record normalized_name source_record execution_defaults])
      (ld_declared_names st).

Definition name_before (left_record right_record : ServerRecord) : bool :=
  match str_cmp (to_ascii_lowercase (sr_name left_record)) (to_ascii_lowercase (sr_name right_record)) with
  | Lt => true
  | _ => false
  end.

Definition load_all (config : JsonValue) (settings : list (string * SourceServerRecord)) (overrides : list (string * bool))
    : list ServerRecord :=
  let execution_defaults := from_config_root config in
  let st := fold_left (load_declared settings execution_defaults overrides)
              (unwrap_or (object_at_path config ["servers"]) []) (mkLoader [] []) in
  let st := fold_left (load_undeclared execution_defaults) settings st in
  sort_by name_before (ld_records st).

Definition load_server_records (config_path : string) (config : result JsonValue string)
    (registry : result McpServerRegistry string) (profile : result RuntimeProfileSelection string)
    : result (list ServerRecord) ServerLoaderError :=
  config ←? map_err (ConfigRead config_path) config ;;
  source_settings ←? load_source_settings registry ;;
  runtime_profile ←? map_err RuntimeProfileError profile ;;
  Ok (load_all config source_settings (server_overrides runtime_profile)).
End normalize.

(** ** Every record of the loader *)

(** What a record says of its execution follows from the policy it carries, and it is enabled
    exactly when nothing stands against it. *)
Record record_sound (r : ServerRecord) : Prop := {
  sound_policy : policy_wf (sr_execution r);
  sound_workers : sr_max_workers r = worker_limit (sr_execution r);
  sound_in_flight :
    sr_max_in_flight_per_worker r = effective_max_in_flight_per_worker (sr_execution r) (sr_source_type r);
  sound_enabled :
    sr_effective_enabled r
    = sr_profile_enabled r && sr_source_enabled r && sr_platform_supported r && negb (is_disabled (sr_execution r))
      && negb (runtime_policy_disabled (sr_scope_class r) (sr_concurrency_policy r) (sr_startup_strategy r)
                 (sr_routing_group r) (sr_max_workers r));
  sound_configured : mode (sr_execution r) = Pool -> source (sr_execution r) = "server.execution"
}.

Lemma resolved_policy_wf defaults canonical server fallback :
  policy_wf (resolve_with_canonical defaults canonical server fallback).
Proof. apply resolve_with_canonical_precedence. Qed.

(** Only the server's own [execution] makes a pool: no default and no inference does. *)
Lemma resolved_pool_explicit defaults canonical server f class :
  let p := resolve_with_canonical defaults canonical server (inferred_fallback_mode f class) in
  mode p = Pool -> source p = "server.execution".
Proof.
  cbv zeta. destruct (resolve_with_canonical_precedence defaults canonical server (inferred_fallback_mode f class))
    as (_ & Hm & _ & Hs). intros Hp. destruct Hm as [Hm|Hm]; [|by rewrite (off_mode _ Hm) in Hp].
  rewrite Hp in Hm. unfold requested_mode in Hm.
  destruct (match canonical with Some v => canonical_policy_disabled v | None => false end); [done|].
  apply Hs; [done|]. destruct (mode_at server); [done|]. by apply eq_sym, inferred_mode_cases in Hm.
Qed.

Lemma generic_record_sound name source defaults : record_sound (generic_source_server_record name source defaults).
Proof.
  unfold generic_source_server_record. cbv zeta.
  constructor; cbn [sr_execution sr_max_workers sr_max_in_flight_per_worker sr_effective_enabled sr_profile_enabled
    sr_source_enabled sr_platform_supported sr_scope_class sr_concurrency_policy sr_startup_strategy sr_routing_group sr_source_type].
  - apply resolved_policy_wf.
  - reflexivity.
  - reflexivity.
  - by rewrite andb_true_r, andb_diag.
  - apply resolved_pool_explicit.
Qed.

Section loaded.
Context (platform : string).

Lemma declared_record_sound name value source defaults override r :
  normalize_server_record platform name value source defaults override = Some r -> record_sound r.
Proof.
  unfold normalize_server_record. destruct (as_object value) as [object|]; [|done]. cbn [mbind option_bind].
  intros <-%(inj Some). unfold declared_execution.
  constructor; cbn [sr_execution sr_max_workers sr_max_in_flight_per_worker sr_effective_enabled sr_profile_enabled
    sr_source_enabled sr_platform_supported sr_scope_class sr_concurrency_policy sr_startup_strategy sr_routing_group sr_source_type].
  - apply resolved_policy_wf.
  - reflexivity.
  - reflexivity.
  - reflexivity.
  - apply resolved_pool_explicit.
Qed.

(** *** The records of both loops *)

Definition declared_record (settings : list (string * SourceServerRecord)) (defaults : ExecutionPolicy)
    (overrides : list (string * bool)) (named : string * JsonValue) : option ServerRecord :=
  let k := normalize_server_name named.1 in
  if str_is_empty k then None
  else normalize_server_record platform named.1 named.2 (bt_get k settings) defaults (bt_get k overrides).

Definition declares (servers : list (string * JsonValue)) (k : string) : bool :=
  existsb (fun named => negb (str_is_empty (normalize_server_name named.1)) && String.eqb (normalize_server_name named.1) k)
    servers.

Lemma declared_fold settings defaults overrides servers st :
  let st' := fold_left (load_declared platform settings defaults overrides) servers st in
  ld_records st' = ld_records st ++ omap (declared_record settings defaults overrides) servers
  /\ forall k, one_of (ld_declared_names st') k = one_of (ld_declared_names st) k || declares servers k.
Proof.
  cbv zeta. revert st. induction servers as [|[name value] servers IH]; intros st.
  - cbn. rewrite app_nil_r. split; [done|]. intros k. by rewrite orb_false_r.
  - cbn [fold_left omap list_omap]. destruct (IH (load_declared platform settings defaults overrides st (name, value))) as [E1 E2].
    rewrite E1. split; [|intros k; rewrite E2; clear E1 E2].
    + unfold load_declared, declared_record. cbn [fst snd]. destruct (str_is_empty _); [done|]. cbn [ld_records].
      destruct (normalize_server_record _ _ _ _ _ _); [by rewrite <- (assoc_L (++))|done].
    + unfold load_declared. cbn [declares existsb fst]. unfold declares. destruct (str_is_empty _) eqn:E; [done|].
      cbn [ld_declared_names negb andb]. rewrite orb_assoc. f_equal. apply eq_true_iff_eq.
      rewrite orb_true_iff, !one_of_elem, set_insert_elem, String.eqb_eq. split; intros [Hk|Hk]; auto.
Qed.

Lemma undeclared_fold defaults settings st :
  ld_records (fold_left (load_undeclared defaults) settings st)
  = ld_records st
    ++ map (fun named => generic_source_server_record named.1 named.2 defaults)
         (List.filter (fun named => negb (one_of (ld_declared_names st) named.1)) settings).
Proof.
  revert st. induction settings as [|[k s] settings IH]; intros st; [by cbn; rewrite app_nil_r|].
  cbn [fold_left List.filter fst]. rewrite IH. unfold load_undeclared. destruct (one_of (ld_declared_names st) k); [done|].
  cbn [ld_records ld_declared_names negb map fst snd]. by rewrite <- (assoc_L (++)).
Qed.

Lemma load_all_records config settings overrides :
  let servers := unwrap_or (object_at_path config ["servers"]) [] in
  let defaults := from_config_root config in
  load_all platform config settings overrides
  = sort_by name_before
      (omap (declared_record settings defaults overrides) servers
       ++ map (fun named => generic_source_server_record named.1 named.2 defaults)
            (List.filter (fun named => negb (declares servers named.1)) settings)).
Proof.
  cbv zeta. unfold load_all. cbv zeta. rewrite undeclared_fold.
  destruct (declared_fold settings (from_config_root config) overrides (unwrap_or (object_at_path config ["servers"]) [])
              (mkLoader [] [])) as [-> E]. cbn [ld_records app]. do 3 f_equal. apply List.filter_ext. intros [k s]. by rewrite E.
Qed.

Lemma load_all_sound config settings overrides : Forall record_sound (load_all platform config settings overrides).
Proof.
  rewrite load_all_records, sort_by_perm. apply Forall_app. split; apply Forall_forall; intros r Hr.
  - apply list_elem_of_omap in Hr as ( [name value] & _ & Hr). unfold declared_record in Hr. cbn [fst snd] in Hr.
    destruct (str_is_empty _); [done|]. by eapply declared_record_sound.
  - apply list_elem_of_fmap in Hr as (named & -> & _). apply generic_record_sound.
Qed.

Lemma load_server_records_Ok path config registry profile records :
  load_server_records platform path config registry profile = Ok records ->
  exists c g s, config = Ok c /\ registry = Ok g /\ profile = Ok s
    /\ records = load_all platform c (source_settings g) (server_overrides s).
Proof.
  unfold load_server_records, load_source_settings. destruct config as [c|]; [|done]. destruct registry as [g|]; [|done].
  destruct profile as [s|]; [|done]. intros [= <-]. by exists c, g, s.
Qed.

(** ** Claims *)

(** C18: every record that is loaded carries a well-formed execution policy, with the workers and
    requests in flight of that policy; it is enabled exactly when its profile, its source
    and the platform allow it and neither the execution nor the runtime policy disables it;
    and it has more than one worker only if the server's own [execution] asks for a pool. *)
Theorem loaded_records_sound path config registry profile records r :
  load_server_records platform path config registry profile = Ok records -> r ∈ records ->
  record_sound r /\ (sr_max_workers r <= MAX_WORKERS)%N
  /\ ((1 < sr_max_workers r)%N -> mode (sr_execution r) = Pool /\ source (sr_execution r) = "server.execution").
Proof.
  intros (c & g & s & _ & _ & _ & ->)%load_server_records_Ok Hr.
  pose proof (load_all_sound c (source_settings g) (server_overrides s)) as Hall. rewrite Forall_forall in Hall.
  specialize (Hall _ Hr) as Hs. split; [done|]. rewrite (sound_workers _ Hs).
  destruct (sound_policy _ Hs) as [Ha|Ho].
  - pose proof (active_workers _ Ha). unfold worker_limit. destruct (mode (sr_execution r)) eqn:Em; unfold MAX_WORKERS in *; split; try lia.
    intros _. split; [done|]. by apply sound_configured.
  - unfold worker_limit. rewrite (off_mode _ Ho). unfold MAX_WORKERS. split; lia.
Qed.

(** The order of the records is that of their names without case. *)
Definition names_in_order (records : list ServerRecord) : Prop :=
  StronglySorted (fun a b => name_before b a = false) records.

Lemma name_before_asym a b : name_before a b = true -> name_before b a = false.
Proof. unfold name_before. rewrite (str_cmp_antisym _ (to_ascii_lowercase (sr_name b))). by destruct (str_cmp _ _). Qed.

(** Comparing with what is not less. *)
Lemma name_before_trans a b c : name_before b a = false -> name_before c b = false -> name_before c a = false.
Proof.
  unfold name_before. generalize (to_ascii_lowercase (sr_name a)), (to_ascii_lowercase (sr_name b)), (to_ascii_lowercase (sr_name c)).
  intros x y z Hxy Hyz. destruct (str_cmp z x) eqn:E; [done| |done]. exfalso.
  destruct (str_cmp y x) eqn:E1; [|done|].
  - apply str_cmp_eq in E1. subst. by rewrite E in Hyz.
  - assert (Hx : str_cmp x y = Lt) by by rewrite str_cmp_antisym, E1. by rewrite (str_cmp_trans _ _ _ E Hx) in Hyz.
Qed.

Lemma declared_record_some settings defaults overrides name value :
  is_some (declared_record settings defaults overrides (name, value))
  = negb (str_is_empty (normalize_server_name name)) && is_some (as_object value).
Proof.
  unfold declared_record, normalize_server_record. cbn [fst snd]. destruct (str_is_empty _); [done|]. by destruct (as_object value).
Qed.

(** The servers of the program are those of the configuration and of the settings files,
    sorted by name: every declaration with a name and an object gives one record, from the
    source filed under its normalized name; every source gives one unless its name is
    declared; and nothing else is loaded. *)
Theorem records_cover_the_servers config settings overrides :
  let servers := unwrap_or (object_at_path config ["servers"]) [] in
  let defaults := from_config_root config in
  let records := load_all platform config settings overrides in
  names_in_order records
  /\ length records
     = length (List.filter (fun named => negb (str_is_empty (normalize_server_name named.1)) && is_some (as_object named.2)) servers)
       + length (List.filter (fun named => negb (declares servers named.1)) settings)
  /\ forall r, r ∈ records <->
       (exists name object, (name, JObject object) ∈ servers /\ normalize_server_name name <> EmptyString
          /\ normalize_server_record platform name (JObject object) (bt_get (normalize_server_name name) settings) defaults
               (bt_get (normalize_server_name name) overrides) = Some r)
       \/ (exists k source, (k, source) ∈ settings /\ declares servers k = false
             /\ r = generic_source_server_record k source defaults).
Proof.
  cbv zeta. rewrite load_all_records. set (servers := unwrap_or _ _). set (defaults := from_config_root config). split_and!.
  - apply sort_by_sorted; [apply name_before_trans|apply name_before_asym].
  - rewrite sort_by_length, length_app, length_map. f_equal.
    induction servers as [|[name value] servers IH]; [done|]. cbn [omap list_omap List.filter fst snd]. rewrite <- (declared_record_some settings defaults overrides).
    destruct (declared_record _ _ _ (name, value)); cbn [is_some length]; by rewrite ?IH.
  - intros r. rewrite sort_by_elem, elem_of_app, list_elem_of_omap, list_elem_of_fmap. split; (intros [H|H]; [left|right]).
    + destruct H as ( [name value] & Hin & H). unfold declared_record in H. cbn [fst snd] in H.
      destruct (str_is_empty _) eqn:E; [done|]. apply str_is_empty_false in E. destruct (as_object value) as [object|] eqn:Eo.
      * destruct value; try done. by exists name, map.
      * unfold normalize_server_record in H. by rewrite Eo in H.
    + destruct H as ( [k source] & -> & Hin). apply list_elem_of_In, filter_In in Hin as [Hin Hd]. apply negb_true_iff in Hd.
      exists k, source. by rewrite list_elem_of_In.
    + destruct H as (name & object & Hin & Hk & H). exists (name, JObject object). split; [done|]. unfold declared_record. cbn [fst snd].
      by rewrite (proj2 (str_is_empty_false _) Hk).
    + destruct H as (k & source & Hin & Hd & ->). exists (k, source). split; [done|]. apply list_elem_of_In, filter_In.
      rewrite <- list_elem_of_In. cbn [fst]. by rewrite Hd.
Qed.
End loaded.

(** ** Loaded servers in the plans of clients *)

Section plans.
Context `{SerdeJson} `{Hasher}.
Context (platform : string).

(** Whoever asks, two requests to a server over standard input run at once only if that
    server's own [execution] asks for a pool of workers: no default, no profile, no
    inference from names, arguments or hints and no field of its policy lets them. *)
Theorem parallel_leases_are_configured path config registry profile records r context :
  load_server_records platform path config registry profile = Ok records -> r ∈ records ->
  let plan := build_server_plan platform r context in
  (1 < sp_parallelism_limit plan)%N ->
  resolve_upstream_transport r <> "stdio" \/ (mode (sr_execution r) = Pool /\ source (sr_execution r) = "server.execution").
Proof.
  intros (c & g & s & _ & _ & _ & ->)%load_server_records_Ok Hr. cbv zeta. intros Hl.
  pose proof (load_all_sound platform c (source_settings g) (server_overrides s)) as Hall. rewrite Forall_forall in Hall.
  specialize (Hall _ Hr) as Hs. destruct (String.eqb_spec (resolve_upstream_transport r) "stdio") as [Et|Et]; [right|by left].
  assert (Hc : sc_parallelism_limit (resolve_scope r context) = worker_limit (sr_execution r)).
  { unfold resolve_scope. destruct (resolve_affinity r context) as [ [b f] w]. cbn [sc_parallelism_limit]. rewrite Et.
    by apply (effective_capacity_bounds _ _ (sound_policy _ Hs)). }
  pose proof (strategy_capacity r (resolve_scope r context)) as Hq. rewrite Hc in Hq.
  change (sp_parallelism_limit (build_server_plan platform r context)) with (rs_parallelism_limit (resolve_request_strategy r (resolve_scope r context))) in Hl.
  assert (Hm : mode (sr_execution r) = Pool) by (unfold worker_limit in Hq; destruct (mode (sr_execution r)); try lia; done).
  split; [done|]. by apply sound_configured.
Qed.
End plans.

(** ** What the code does not mean to do *)

Definition plain_source (name : string) : SourceServerRecord :=
  mkSourceServer name true "stdio" "npx" EmptyString ["mcp-server-time"] [] [] "mcp_settings.json" [] None None.

(** A declaration that is no object gives no record, and hides the source of that name. *)
Lemma null_declaration_hides_a_source :
  load_all "linux" (JObject [("servers", JObject [("time", JNull)])]) [("time", plain_source "time")] [] = [].
Proof. by vm_compute. Qed.

(** Two declarations whose names differ in case are two servers with one source. *)
Lemma names_that_differ_in_case_are_loaded_twice :
  map sr_name (load_all "linux" (JObject [("servers", JObject [("Time", JObject []); ("time", JObject [])])])
    [("time", plain_source "time")] []) = ["Time"; "time"].
Proof. by vm_compute. Qed.

(** ** Witnesses *)

Definition sample_config : JsonValue :=
  JObject [("servers", JObject [("time", JObject [("defaultEnabled", JBool true);
    ("execution", JObject [("maxWorkers", JNumber "4"); ("mode", JString "pool")])])])].

Definition sample_registry : McpServerRegistry :=
  mkRegistry
    [("time", mkEntry "time" "time" (JObject [("args", JArray [JString "mcp-server-time"]); ("command", JString "npx")]) "mcp_settings.json")]
    ["mcp_settings.json"] [].

Definition sample_loaded : list ServerRecord :=
  match load_server_records "linux" "mcpace.config.json" (Ok sample_config) (Ok sample_registry) (Ok (mkSelection "safe" "safe" "config-default" [])) with
  | Ok records => records
  | Err _ => []
  end.

Lemma loaded_records_sound_witness :
  exists r, head sample_loaded = Some r /\ sr_max_workers r = 4%N /\ source (sr_execution r) = "server.execution".
Proof.
  destruct (head sample_loaded) as [r|] eqn:E; [|by vm_compute in E]. exists r. split; [done|].
  assert (Hw : sr_max_workers r = 4%N) by (vm_compute in E; injection E as <-; done).
  split; [exact Hw|].
  apply (loaded_records_sound "linux" "mcpace.config.json" (Ok sample_config) (Ok sample_registry)
           (Ok (mkSelection "safe" "safe" "config-default" [])) sample_loaded r).
  - unfold sample_loaded. destruct (load_server_records _ _ _ _ _) eqn:El; [done|]. by vm_compute in El.
  - destruct sample_loaded; [done|]. injection E as ->. by left.
  - rewrite Hw. lia.
Defined.

Lemma parallel_leases_are_configured_witness :
  exists r, head sample_loaded = Some r /\ source (sr_execution r) = "server.execution".
Proof.
  destruct (head sample_loaded) as [r|] eqn:E; [|by vm_compute in E]. exists r. split; [done|].
  assert (Ht : resolve_upstream_transport r = "stdio") by (vm_compute in E; injection E as <-; done).
  destruct (parallel_leases_are_configured (H := TreeCodec.codec) (H0 := FnvHasher.hasher) "linux" "mcpace.config.json"
              (Ok sample_config) (Ok sample_registry) (Ok (mkSelection "safe" "safe" "config-default" [])) sample_loaded r (sample_client "/work"))
    as [Hn|[_ Hs] ].
  - unfold sample_loaded. destruct (load_server_records _ _ _ _ _) eqn:El; [done|]. by vm_compute in El.
  - destruct sample_loaded; [done|]. injection E as ->. by left.
  - vm_compute in E. injection E as <-. by vm_compute.
  - contradiction.
  - exact Hs.
Defined.
