(* ===== verification/StdioSurface.v ===== *)
(** * The tools of the stdio server (src/mcp_server/tool_surface.rs)

    Their names, titles, descriptions, annotations and input schemas, as tools/list of the
    stdio server shows them. *)

From S2P Require Import Prelude RustStr BTree Json Execution ToolView HttpTools.

Record ToolSpec := mkToolSpec { spec_name : string; spec_title : string; spec_description : string }.

Definition TOOL_SPECS : list ToolSpec :=
  [mkToolSpec "doctor" "Inspect MCPace readiness"
     "Return the native MCPace doctor report for this root.";
   mkToolSpec "hub_status" "Inspect hub status"
     "Return the local hub status report without changing state.";
   mkToolSpec "hub_up" "Start the hub"
     "Start the local MCPace hub runtime for this root.";
   mkToolSpec "hub_down" "Stop the hub"
     "Stop the local MCPace hub runtime for this root.";
   mkToolSpec "hub_logs" "Read hub logs"
     "Return recent MCPace hub log events.";
   mkToolSpec "runtime_leases" "List runtime leases"
     "Return the current MCPace runtime lease store after pruning expired leases.";
   mkToolSpec "runtime_acquire" "Acquire a runtime lease"
     "Acquire the scheduler lease for one configured server before routing work to it.";
   mkToolSpec "runtime_renew" "Renew a runtime lease"
     "Extend a previously acquired MCPace scheduler lease before it expires.";
   mkToolSpec "runtime_release" "Release a runtime lease"
     "Release a previously acquired MCPace scheduler lease.";
   mkToolSpec "server_list" "List configured servers"
     "Return the grouped MCPace server inventory for this root.";
   mkToolSpec "server_capabilities" "Inspect one server"
     "Return grouped capability details for one configured server.";
   mkToolSpec "client_list" "List known client targets"
     "Return the documented client surface catalog.";
   mkToolSpec "client_plan" "Build a client routing plan"
     "Resolve routing, session, and server arbitration for a client.";
   mkToolSpec "client_export" "Build a client connection contract"
     "Return the client launcher contract for a target surface.";
   mkToolSpec "adapter_profile" "Explain dynamic adapter profile"
     "Infer the current MCP client, protocol, transport, tool surface, and upstream server coordination profile without relying on static brand-only maps.";
   mkToolSpec "adapter_route" "Plan upstream routing"
     "Build a dynamic routing plan for upstream calls: same-server batching, conflict-domain serialization, and parallel-safe lanes without client/server maps.";
   mkToolSpec "upstream_search" "Search upstream tools"
     "Search the live configured upstream tool catalog and return concise ready-to-call results instead of loading every upstream schema into tools/list.";
   mkToolSpec "surface_manifest" "Explain the MCPace tool surface"
     "Return the transparent contract for native MCPace tools versus configured upstream MCP tools; optionally include a live upstream catalog.";
   mkToolSpec "upstream_tools" "List one upstream server's tools"
     "List callable tools for one configured stdio upstream MCP server; omit server for fast inventory only.";
   mkToolSpec "upstream_catalog" "Catalog configured upstream tools"
     "Discover configured upstream MCP tools with concise flat server-qualified descriptions and upstream_call arguments without hardcoded server names.";
   mkToolSpec "upstream_probe" "Probe configured upstream servers"
     "Probe configured upstream MCP servers without hardcoded server names; uses the short successful tools/list cache unless refresh=true is supplied.";
   mkToolSpec "upstream_policy_audit" "Audit upstream tool policies"
     "Audit configured upstream MCP tool annotations and declarative MCPace toolPolicies to find tools that need review or explicit guards.";
   mkToolSpec "upstream_policy_suggest" "Suggest upstream tool policies"
     "Generate declarative mcpace.config.json toolPolicies suggestions from live upstream MCP annotations and advisory risk signals.";
   mkToolSpec "upstream_call" "Call one upstream tool"
     "Call a tool on a configured stdio upstream MCP server.";
   mkToolSpec "upstream_batch" "Call upstream tools in one session"
     "Call multiple tools on one configured stdio upstream MCP server in a single state-preserving session."].

Definition stdio_read_only (name : string) : bool :=
  one_of
  ["adapter_profile"; "doctor"; "hub_status"; "hub_logs"; "runtime_leases"; "server_list"; 
   "server_capabilities"; "client_list"; "client_plan"; "client_export"; "adapter_route"; 
   "upstream_search"; "surface_manifest"; "upstream_tools"; "upstream_catalog"; "upstream_probe"; 
   "upstream_policy_audit"; "upstream_policy_suggest"] name.

Definition stdio_open_world (name : string) : bool :=
  one_of
  ["adapter_route"; "upstream_search"; "upstream_tools"; "upstream_catalog"; "upstream_probe"; 
   "upstream_policy_audit"; "upstream_policy_suggest"; "upstream_call"; "upstream_batch"] name.

Definition stdio_destructive (name : string) : bool :=
  one_of
  ["hub_down"; "upstream_call"; "upstream_batch"] name.

Definition stdio_idempotent (name : string) : bool :=
  one_of
  ["adapter_profile"; "doctor"; "hub_status"; "hub_logs"; "runtime_leases"; "server_list"; 
   "server_capabilities"; "client_list"; "client_plan"; "client_export"; "adapter_route"; 
   "upstream_search"; "surface_manifest"; "upstream_tools"; "upstream_catalog"; "upstream_probe"; 
   "upstream_policy_audit"; "upstream_policy_suggest"] name.

Definition hub_logs_input : JsonValue :=
  json_object [("type", json_string "object");
   ("properties", json_object [("tail", json_object [("type", json_string "integer");
       ("description", json_string "Optional number of log lines to return.")])]);
   ("additionalProperties", json_bool false)].

Definition runtime_acquire_input : JsonValue :=
  json_object [("type", json_string "object");
   ("properties", json_object [("server", json_object [("type", json_string "string");
       ("description", json_string "Configured MCPace server name to lease.")]);
     ("clientId", json_object [("type", json_string "string")]);
     ("sessionId", json_object [("type", json_string "string")]);
     ("projectRoot", json_object [("type", json_string "string")]);
     ("transport", json_object [("type", json_string "string")]);
     ("ttlMs", json_object [("type", json_string "integer")]);
     ("metadata", json_object [("type", json_string "object")])]);
   ("required", json_array [json_string "server"]);
   ("additionalProperties", json_bool false)].

Definition runtime_renew_input : JsonValue :=
  json_object [("type", json_string "object");
   ("properties", json_object [("leaseId", json_object [("type", json_string "string");
       ("description", json_string "Lease id returned by runtime_acquire.")]);
     ("ttlMs", json_object [("type", json_string "integer");
       ("description", json_string "Optional renewed lease TTL in milliseconds.")])]);
   ("required", json_array [json_string "leaseId"]);
   ("additionalProperties", json_bool false)].

Definition runtime_release_input : JsonValue :=
  json_object [("type", json_string "object");
   ("properties", json_object [("leaseId", json_object [("type", json_string "string");
       ("description", json_string "Lease id returned by runtime_acquire.")])]);
   ("required", json_array [json_string "leaseId"]);
   ("additionalProperties", json_bool false)].

Definition server_capabilities_input : JsonValue :=
  json_object [("type", json_string "object");
   ("properties", json_object [("name", json_object [("type", json_string "string");
       ("description", json_string "Configured MCPace server name to inspect.")])]);
   ("required", json_array [json_string "name"]);
   ("additionalProperties", json_bool false)].

Definition client_context_input : JsonValue :=
  json_object [("type", json_string "object");
   ("properties", json_object [("clientId", json_object [("type", json_string "string");
       ("description", json_string "Optional client target override. Defaults to the server launch client id.")]);
     ("sessionId", json_object [("type", json_string "string");
       ("description", json_string "Optional external session id override.")]);
     ("projectRoot", json_object [("type", json_string "string");
       ("description", json_string "Optional project root override.")]);
     ("transport", json_object [("type", json_string "string");
       ("description", json_string "Optional ingress override such as stdio or streamable-http.")]);
     ("metadata", json_object [("type", json_string "object");
       ("description", json_string "Optional MCP metadata object forwarded as metadata-json.")])]);
   ("additionalProperties", json_bool false)].

Definition adapter_profile_input : JsonValue :=
  json_object [("type", json_string "object");
   ("properties", json_object [("includeLiveCatalog", json_object [("type", json_string "boolean");
       ("description", json_string "When true, include a live upstream catalog/projection sample. Defaults to false.")]);
     ("timeoutMs", json_object [("type", json_string "integer");
       ("description", json_string "Optional live upstream catalog timeout in milliseconds.")]);
     ("refresh", json_object [("type", json_string "boolean");
       ("description", json_string "Bypass the short successful upstream tools/list cache.")])]);
   ("additionalProperties", json_bool false)].

Definition adapter_route_input : JsonValue :=
  json_object [("type", json_string "object");
   ("properties", json_object [("calls", json_object [("type", json_string "array");
       ("description", json_string "Optional calls to plan. Each item may be [server, tool, arguments], {server, name/tool, arguments}, an upstream_search result, or an upstream_call object.");
       ("items", json_object [("oneOf", json_array [json_object [("type", json_string "array");
            ("minItems", json_number 2);
            ("maxItems", json_number 3)];
           json_object [("type", json_string "object")];
           json_object [("type", json_string "string")]])])]);
     ("includeLiveCatalog", json_object [("type", json_string "boolean");
       ("description", json_string "When true, include live upstream catalog context in the route plan.")]);
     ("timeoutMs", json_object [("type", json_string "integer");
       ("description", json_string "Optional live upstream catalog timeout in milliseconds.")]);
     ("refresh", json_object [("type", json_string "boolean");
       ("description", json_string "Bypass the short successful upstream tools/list cache when includeLiveCatalog=true.")])]);
   ("additionalProperties", json_bool false)].

Definition upstream_search_input : JsonValue :=
  json_object [("type", json_string "object");
   ("properties", json_object [("query", json_object [("type", json_string "string");
       ("description", json_string "Optional keyword query over server, tool name, title, and description.")]);
     ("server", json_object [("type", json_string "string");
       ("description", json_string "Optional configured upstream server name to search inside.")]);
     ("limit", json_object [("type", json_string "integer");
       ("description", json_string "Maximum results to return, clamped to 1..100.")]);
     ("includeSchema", json_object [("type", json_string "boolean");
       ("description", json_string "When true, include compact input schemas in search results.")]);
     ("timeoutMs", json_object [("type", json_string "integer");
       ("description", json_string "Optional per-server catalog timeout from 1000 to 300000 ms.")]);
     ("refresh", json_object [("type", json_string "boolean");
       ("description", json_string "Bypass the short tools/list cache before searching.")])]);
   ("additionalProperties", json_bool false)].

Definition surface_manifest_input : JsonValue :=
  json_object [("type", json_string "object");
   ("properties", json_object [("includeLiveCatalog", json_object [("type", json_string "boolean");
       ("description", json_string "When true, launch/probe configured callable upstreams and include the live upstream_catalog output.")]);
     ("timeoutMs", json_object [("type", json_string "integer");
       ("description", json_string "Optional per-server catalog timeout from 1000 to 300000 ms when includeLiveCatalog=true.")]);
     ("refresh", json_object [("type", json_string "boolean");
       ("description", json_string "Bypass the short tools/list cache when includeLiveCatalog=true.")])]);
   ("additionalProperties", json_bool false)].

Definition catalog_input : JsonValue :=
  json_object [("type", json_string "object");
   ("properties", json_object [("server", json_object [("type", json_string "string");
       ("description", json_string "Optional configured upstream server name from the merged MCP settings registry.")]);
     ("timeoutMs", json_object [("type", json_string "integer");
       ("description", json_string "Optional per-server timeout from 1000 to 300000 ms.")]);
     ("refresh", json_object [("type", json_string "boolean");
       ("description", json_string "Bypass the short in-process tools/list cache and refresh from the upstream server.")]);
     ("clientId", json_object [("type", json_string "string")]);
     ("sessionId", json_object [("type", json_string "string")]);
     ("projectRoot", json_object [("type", json_string "string")]);
     ("transport", json_object [("type", json_string "string")]);
     ("ttlMs", json_object [("type", json_string "integer");
       ("description", json_string "Optional runtime lease TTL in milliseconds.")]);
     ("metadata", json_object [("type", json_string "object")])]);
   ("additionalProperties", json_bool false)].

Definition upstream_probe_input : JsonValue :=
  json_object [("type", json_string "object");
   ("properties", json_object [("server", json_object [("type", json_string "string");
       ("description", json_string "Optional configured upstream server name from the merged MCP settings registry.")]);
     ("timeoutMs", json_object [("type", json_string "integer");
       ("description", json_string "Optional per-server timeout from 1000 to 300000 ms.")]);
     ("refresh", json_object [("type", json_string "boolean");
       ("description", json_string "Bypass the short successful tools/list cache and force a fresh upstream probe.")]);
     ("clientId", json_object [("type", json_string "string")]);
     ("sessionId", json_object [("type", json_string "string")]);
     ("projectRoot", json_object [("type", json_string "string")]);
     ("transport", json_object [("type", json_string "string")]);
     ("ttlMs", json_object [("type", json_string "integer");
       ("description", json_string "Optional runtime lease TTL in milliseconds.")]);
     ("metadata", json_object [("type", json_string "object")])]);
   ("additionalProperties", json_bool false)].

Definition upstream_call_input : JsonValue :=
  json_object [("type", json_string "object");
   ("properties", json_object [("server", json_object [("type", json_string "string");
       ("description", json_string "Configured upstream server name.")]);
     ("tool", json_object [("type", json_string "string");
       ("description", json_string "Upstream tool name.")]);
     ("arguments", json_object [("type", json_string "object");
       ("description", json_string "Arguments to pass to the upstream tool.");
       ("additionalProperties", json_bool true)]);
     ("timeoutMs", json_object [("type", json_string "integer");
       ("description", json_string "Optional per-call timeout from 1000 to 300000 ms.")]);
     ("resultMode", json_object [("type", json_string "string");
       ("enum", json_array [json_string "native";
         json_string "compat";
         json_string "compact";
         json_string "summary"]);
       ("description", json_string "Tool-result content mode. native preserves upstream content at the top level and avoids duplicate JSON; compat keeps pretty JSON text; compact uses compact JSON; summary uses short text plus structuredContent.")]);
     ("diagnostics", json_object [("type", json_string "string");
       ("enum", json_array [json_string "full"; json_string "summary"; json_string "none"]);
       ("description", json_string "How much MCPace lease/session diagnostic data to retain in structuredContent.")]);
     ("nestedContent", json_object [("type", json_string "string");
       ("enum", json_array [json_string "full"; json_string "compact"]);
       ("description", json_string "Use compact to replace duplicated nested upstream content text when structuredContent is present.")]);
     ("tokenReducerPlugins", json_object [("type", json_string "array");
       ("description", json_string "Optional built-in token reducers, e.g. mcpace.native-content.v1 or mcpace.dedupe-nested-upstream-content.v1.");
       ("items", json_object [("type", json_string "string")])]);
     ("allowToolRiskClasses", json_object [("type", json_string "array");
       ("description", json_string "Generic risk-class opt-in for config-declared upstream tool policies, for example ['desktop-observation'].");
       ("items", json_object [("type", json_string "string")])]);
     ("allowArguments", json_object [("type", json_string "array");
       ("description", json_string "Generic allow-argument opt-in names for config-declared upstream tool policies, for example ['allowCustomRisk'].");
       ("items", json_object [("type", json_string "string")])]);
     ("allowUnknownTool", json_object [("type", json_string "boolean");
       ("description", json_string "Explicit opt-in to call a trusted dynamic upstream tool that is not currently advertised by tools/list. Default is false.")])]);
   ("required", json_array [json_string "server"; json_string "tool"]);
   ("additionalProperties", json_bool false)].

Definition upstream_batch_input : JsonValue :=
  json_object [("type", json_string "object");
   ("properties", json_object [("server", json_object [("type", json_string "string");
       ("description", json_string "Configured upstream server name.")]);
     ("calls", json_object [("type", json_string "array");
       ("description", json_string "Ordered upstream calls to execute after one initialize handshake.");
       ("items", upstream_batch_call_item_schema)]);
     ("timeoutMs", json_object [("type", json_string "integer");
       ("description", json_string "Optional total batch timeout from 1000 to 300000 ms.")]);
     ("resultMode", json_object [("type", json_string "string");
       ("enum", json_array [json_string "native";
         json_string "compat";
         json_string "compact";
         json_string "summary"]);
       ("description", json_string "Tool-result content mode. native preserves upstream content at the top level and avoids duplicate JSON; compat keeps pretty JSON text; compact uses compact JSON; summary uses short text plus structuredContent.")]);
     ("diagnostics", json_object [("type", json_string "string");
       ("enum", json_array [json_string "full"; json_string "summary"; json_string "none"]);
       ("description", json_string "How much MCPace lease/session diagnostic data to retain in structuredContent.")]);
     ("nestedContent", json_object [("type", json_string "string");
       ("enum", json_array [json_string "full"; json_string "compact"]);
       ("description", json_string "Use compact to replace duplicated nested upstream content text when structuredContent is present.")]);
     ("tokenReducerPlugins", json_object [("type", json_string "array");
       ("description", json_string "Optional built-in token reducers, e.g. mcpace.native-content.v1 or mcpace.dedupe-nested-upstream-content.v1.");
       ("items", json_object [("type", json_string "string")])]);
     ("allowToolRiskClasses", json_object [("type", json_string "array");
       ("description", json_string "Generic risk-class opt-in for config-declared upstream tool policies, for example ['desktop-observation'].");
       ("items", json_object [("type", json_string "string")])]);
     ("allowArguments", json_object [("type", json_string "array");
       ("description", json_string "Generic allow-argument opt-in names for config-declared upstream tool policies, for example ['allowCustomRisk'].");
       ("items", json_object [("type", json_string "string")])]);
     ("allowUnknownTool", json_object [("type", json_string "boolean");
       ("description", json_string "Explicit opt-in to call a trusted dynamic upstream tool that is not currently advertised by tools/list. Default is false.")])]);
   ("required", json_array [json_string "server"; json_string "calls"]);
   ("additionalProperties", json_bool false)].

Definition plain_input : JsonValue :=
  json_object [("type", json_string "object");
   ("properties", empty_object);
   ("additionalProperties", json_bool false)].

Definition input_schema (name : string) : JsonValue :=
  if String.eqb name "hub_logs" then hub_logs_input
  else if String.eqb name "runtime_acquire" then runtime_acquire_input
  else if String.eqb name "runtime_renew" then runtime_renew_input
  else if String.eqb name "runtime_release" then runtime_release_input
  else if String.eqb name "server_capabilities" then server_capabilities_input
  else if one_of ["client_plan"; "client_export"] name then client_context_input
  else if String.eqb name "adapter_profile" then adapter_profile_input
  else if String.eqb name "adapter_route" then adapter_route_input
  else if String.eqb name "upstream_search" then upstream_search_input
  else if String.eqb name "surface_manifest" then surface_manifest_input
  else if one_of ["upstream_tools"; "upstream_catalog"; "upstream_policy_audit"; "upstream_policy_suggest"] name then catalog_input
  else if String.eqb name "upstream_probe" then upstream_probe_input
  else if String.eqb name "upstream_call" then upstream_call_input
  else if String.eqb name "upstream_batch" then upstream_batch_input
  else plain_input.

Definition tool_annotations (name : string) : JsonValue :=
  json_object
    [("readOnlyHint", json_bool (stdio_read_only name)); ("destructiveHint", json_bool (stdio_destructive name));
     ("idempotentHint", json_bool (stdio_idempotent name)); ("openWorldHint", json_bool (stdio_open_world name))].

Definition tool_definition (tool : ToolSpec) (surface_options : ToolSurfaceOptions) : JsonValue :=
  json_object
    ([("name", json_string (spec_name tool)); ("description", json_string (spec_description tool));
      ("inputSchema", input_schema (spec_name tool))]
     ++ (if include_title surface_options then [("title", json_string (spec_title tool))] else [])
     ++ (if include_annotations surface_options then [("annotations", tool_annotations (spec_name tool))] else [])).

Definition mcp_tool_names : list string := map spec_name TOOL_SPECS.
