(* ===== verification/StdioTools.v ===== *)
(** * The tools of the stdio server (src/mcp_server.rs)

    How the stdio server reads the arguments of a tool call, which command of MCPace or which
    operation of another component it runs for it, and how it brings the hub up when a
    session begins.

    What lies outside is a [Host]: the commands of MCPace, the operations of the adapter and
    of the upstream component, and standard output.  It answers from a state of its own, the
    [World], and everything that is asked of it is recorded as an [Event], in order. *)

From Stdlib Require Import Ascii.
From S2P Require Import Prelude RustStr BTree Json TextUtils Execution McpProtocol ProxyUri ToolPolicy ToolView ToolExposure.
From S2P Require Import ToolResult HttpTools ToolRuntime StdioSurface.

Record ServerConfig := mkStdioConfig {
  root_path : string;
  cfg_client_id : string;
  cfg_session_id : option string;
  cfg_project_root : option string;
  cfg_transport : string
}.

Inductive ToolCallError :=
| InvalidParams (message : string)
| UnknownTool (message : string)
| ExecutionError (message : string).

Definition tool_error_text (error : ToolCallError) : string :=
  match error with InvalidParams message | UnknownTool message | ExecutionError message => message end.

(** ** Arguments *)

Definition optional_string_argument (arguments : JsonValue) (key : string) : result (option string) ToolCallError :=
  match value_at_path arguments [key] with
  | Some (JString value) => Ok (Some value)
  | Some JNull | None => Ok None
  | Some _ => Err (InvalidParams ("'" +:+ key +:+ "' must be a string"))
  end.

Definition required_string_argument (arguments : JsonValue) (key : string) : result string ToolCallError :=
  value ←? optional_string_argument arguments key ;;
  ok_or value (InvalidParams ("'" +:+ key +:+ "' is required")).

Definition optional_object_argument (arguments : JsonValue) (key : string) : result JsonValue ToolCallError :=
  match value_at_path arguments [key] with
  | Some (JObject map) => Ok (JObject map)
  | Some JNull | None => Ok empty_object
  | Some _ => Err (InvalidParams ("'" +:+ key +:+ "' must be a JSON object"))
  end.

Definition integer_argument (arguments : JsonValue) (key : string) : result (option Z) ToolCallError :=
  match value_at_path arguments [key] with
  | Some value => integer ←? ok_or (as_i64 value) (InvalidParams ("'" +:+ key +:+ "' must be an integer")) ;; Ok (Some integer)
  | None => Ok None
  end.

Definition bool_argument (arguments : JsonValue) (key : string) : result (option bool) ToolCallError :=
  match value_at_path arguments [key] with
  | Some value => flag ←? ok_or (as_bool value) (InvalidParams ("'" +:+ key +:+ "' must be a boolean")) ;; Ok (Some flag)
  | None => Ok None
  end.

(** [filter(> 0)] and the conversion to an unsigned number. *)
Definition positive (value : option Z) : option N := option_map Z.to_N (opt_filter (fun v => (0 <? v)%Z) value).

Definition timeout_argument (arguments : JsonValue) (key : string) : result (option N) ToolCallError :=
  value ←? integer_argument arguments key ;; Ok (positive value).

Definition flag_argument (arguments : JsonValue) (key : string) : result bool ToolCallError :=
  value ←? bool_argument arguments key ;; Ok (unwrap_or value false).

Definition stdio_allow_arguments (arguments : JsonValue) : result (gset string) ToolCallError :=
  map_err InvalidParams (collect_allow_arguments arguments).

Definition allowed_tool_risk_classes_argument (arguments : JsonValue) : result (gset string) ToolCallError :=
  map_err InvalidParams (collect_allowed_tool_risk_classes arguments).

(** *** The calls of a batch *)

Definition call_label (index : N) : string := "calls[" +:+ N_to_string index +:+ "]".

Definition parse_upstream_batch_call (raw_call : JsonValue) (index : N) : result UpstreamToolCall ToolCallError :=
  match as_array raw_call with
  | Some items =>
      match items with
      | [] | _ :: _ :: _ :: _ => Err (InvalidParams (call_label index +:+ " tuple form must be [tool] or [tool, arguments]"))
      | first :: rest =>
          tool ←? ok_or (non_blank (as_str first)) (InvalidParams (call_label index +:+ "[0] must be a non-empty tool string")) ;;
          arguments ←? match rest with
                       | JObject map :: _ => Ok (JObject map)
                       | JNull :: _ | [] => Ok empty_object
                       | _ :: _ => Err (InvalidParams (call_label index +:+ "[1] must be a JSON object when present"))
                       end ;;
          Ok (mkToolCall tool arguments)
      end
  | None =>
      tool ←? ok_or (non_blank (string_at_path raw_call ["tool"]))
                (InvalidParams (call_label index +:+ ".tool must be a non-empty string")) ;;
      arguments ←? match value_at_path raw_call ["arguments"] with
                   | Some (JObject map) => Ok (JObject map)
                   | Some JNull | None => Ok empty_object
                   | Some _ => Err (InvalidParams ("upstream_batch " +:+ call_label index +:+ ".arguments must be a JSON object"))
                   end ;;
      Ok (mkToolCall tool arguments)
  end.

Fixpoint stdio_batch_calls (index : N) (raw_calls : list JsonValue) : result (list UpstreamToolCall) ToolCallError :=
  match raw_calls with
  | [] => Ok []
  | raw_call :: raw_calls =>
      call ←? parse_upstream_batch_call raw_call index ;;
      calls ←? stdio_batch_calls (index + 1) raw_calls ;;
      Ok (call :: calls)
  end.

(** ** The context a call is forwarded with *)

Record ForwardedContext := mkForwarded {
  fc_client_id : string;
  fc_session_id : option string;
  fc_project_root : option string;
  fc_transport : string;
  fc_metadata : option JsonValue;
  fc_allow_arguments : gset string;
  fc_allowed_tool_risk_classes : gset string
}.

Definition from_tool_arguments (config : ServerConfig) (arguments : JsonValue) (initialize_params : option JsonValue)
    : result ForwardedContext ToolCallError :=
  client ←? optional_string_argument arguments "clientId" ;;
  session ←? optional_string_argument arguments "sessionId" ;;
  project ←? optional_string_argument arguments "projectRoot" ;;
  transport ←? optional_string_argument arguments "transport" ;;
  allow ←? stdio_allow_arguments arguments ;;
  classes ←? allowed_tool_risk_classes_argument arguments ;;
  Ok {| fc_client_id := unwrap_or client (cfg_client_id config);
        fc_session_id := opt_or session (cfg_session_id config);
        fc_project_root := opt_or project (cfg_project_root config);
        fc_transport := unwrap_or transport (cfg_transport config);
        fc_metadata := opt_or (value_at_path arguments ["metadata"]) initialize_params;
        fc_allow_arguments := allow;
        fc_allowed_tool_risk_classes := classes |}.

Definition upstream_lease_context (context : ForwardedContext) (ttl : option Z) : UpstreamLeaseContext :=
  {| client_id := Some (fc_client_id context);
     session_id := fc_session_id context;
     project_root := fc_project_root context;
     ToolPolicy.transport := Some (fc_transport context);
     metadata := fc_metadata context;
     ttl_ms := positive ttl;
     allow_arguments := fc_allow_arguments context;
     allowed_tool_risk_classes := fc_allowed_tool_risk_classes context |}.

Definition push_arg (args : list string) (flag value : string) : list string := args ++ [flag; value].

Definition push_optional_arg (args : list string) (flag : string) (value : option string) : list string :=
  match value with Some value => push_arg args flag value | None => args end.

Section arguments.
Context `{SerdeJson}.

Definition append_optional_cli_args (context : ForwardedContext) (args : list string) : list string :=
  let args := push_optional_arg args "--session-id" (fc_session_id context) in
  let args := push_optional_arg args "--project-root" (fc_project_root context) in
  let args := push_arg args "--transport" (fc_transport context) in
  match fc_metadata context with
  | Some value => push_arg args "--metadata-json" (to_compact_string value)
  | None => args
  end.

Definition build_client_args (action : string) (config : ServerConfig) (arguments : JsonValue)
    (initialize_params : option JsonValue) : result (list string) ToolCallError :=
  context ←? from_tool_arguments config arguments initialize_params ;;
  let args := ["client"; action; "--json"] in
  let args := if String.eqb action "export" then args ++ [fc_client_id context]
              else push_arg args "--client-id" (fc_client_id context) in
  Ok (append_optional_cli_args context args).

Definition build_runtime_acquire_args (config : ServerConfig) (arguments : JsonValue) (initialize_params : option JsonValue)
    (server : string) : result (list string) ToolCallError :=
  context ←? from_tool_arguments config arguments initialize_params ;;
  let args := push_arg ["hub"; "lease"; "acquire"; "--json"; "--server"; server] "--client-id" (fc_client_id context) in
  ttl ←? integer_argument arguments "ttlMs" ;;
  let args := match ttl with Some ttl => push_arg args "--ttl-ms" (Z_to_string ttl) | None => args end in
  Ok (append_optional_cli_args context args).
End arguments.

(** ** What lies outside *)

Record CommandOutput := mkOutput { exit_code : Z; stdout_bytes : list ascii; stderr_bytes : list ascii }.

Inductive Operation :=
| OpAdapterProfile (initialize_params : option JsonValue) (transport : string) (visible : list string) (live : bool)
    (timeout : option N) (fresh : bool)
| OpAdapterRoute (calls : option JsonValue) (live : bool) (timeout : option N) (fresh : bool)
| OpSearch (server query : option string) (limit : N) (include_schema : bool) (timeout : option N) (fresh : bool)
| OpSurfaceManifest (transport : string) (visible : list string) (live : bool) (timeout : option N) (fresh : bool)
| OpListTools (r : CatalogRequest)
| OpCatalog (r : CatalogRequest)
| OpProbe (r : CatalogRequest)
| OpAudit (r : CatalogRequest)
| OpSuggest (r : CatalogRequest)
| OpCall (server tool : string) (arguments : JsonValue) (timeout : option N) (context : UpstreamLeaseContext)
| OpBatch (server : string) (calls : list UpstreamToolCall) (timeout : option N) (context : UpstreamLeaseContext)
| OpGetPrompt (name : string) (arguments : JsonValue)
| OpReadResource (uri : string).

Inductive Listing :=
| ListToolsOf (base_tools : list JsonValue) (initialize_params : option JsonValue) (cursor : option string)
| ListPromptsOf (cursor : option string)
| ListResourcesOf (cursor : option string)
| ListTemplatesOf (cursor : option string).

(** [RequestAccepted], [SessionInitialized] and [SessionReady] mark the points where the server
    notes a request id, that the session is initialized and that the client is ready; the
    others are what it asks of the host. *)
Inductive Event :=
| RequestAccepted (key : string)
| SessionInitialized
| SessionReady
| RanCommand (arguments : list string)
| Resolved (name : string)
| Performed (operation : Operation)
| Listed (listing : Listing)
| Replied (message : JsonValue)
| Diagnosed (text : string).

Class Host (World : Type) := {
  host_run : list string -> World -> World * CommandOutput;
  host_resolve : string -> gset string -> World -> World * result (option ProjectedToolTarget) string;
  host_perform : Operation -> World -> World * result JsonValue string;
  host_list : Listing -> World -> World * JsonValue;
  host_write : list ascii -> World -> World * bool;
  host_flush : World -> World * bool
}.

(** *** A step of the server: the world after it, what it asked for, and its result *)

Definition Act (World A : Type) : Type := World -> World * list Event * A.

Definition ret {World A} (a : A) : Act World A := fun w => (w, [], a).

Definition andthen {World A B} (m : Act World A) (k : A -> Act World B) : Act World B :=
  fun w => let '(w, es, a) := m w in let '(w, es', b) := k a w in (w, es ++ es', b).

Definition emit {World} (e : Event) : Act World unit := fun w => (w, [e], tt).

Definition ask {World A} (e : Event) (f : World -> World * A) : Act World A := fun w => let '(w, a) := f w in (w, [e], a).

Notation "x ⇐ m ;; k" := (andthen m (fun x => k)) (at level 100, m at next level, right associativity) : mcpace_scope.

(** The early return of [?]. *)
Definition try_act {World A B E} (r : result A E) (k : A -> Act World (result B E)) : Act World (result B E) :=
  match r with Ok a => k a | Err e => ret (Err e) end.

Notation "x ⇐? e ;; k" := (try_act e (fun x => k)) (at level 100, e at next level, right associativity) : mcpace_scope.

Section tools.
Context {World : Type} `{Host World} `{SerdeJson}.
Context (environment : string -> option string) (config : ServerConfig).

Definition run_internal (args : list string) : Act World CommandOutput := ask (RanCommand args) (host_run args).
Definition perform (op : Operation) : Act World (result JsonValue string) := ask (Performed op) (host_perform op).
Definition listing (l : Listing) : Act World JsonValue := ask (Listed l) (host_list l).
Definition stderr_line (text : string) : Act World unit := emit (Diagnosed text).

(** ** Commands *)

Inductive CommandOutputPolicy := RequireSuccessfulExit | AcceptStructuredStdout.

Definition command_output_to_string (stdout_buffer : list ascii) : result string ToolCallError :=
  map_err (fun error => ExecutionError ("non-UTF8 command output: " +:+ error)) (from_utf8 stdout_buffer).

Definition parse_command_json (stdout_text : string) : result JsonValue ToolCallError :=
  map_err (fun error => ExecutionError ("command produced invalid JSON: " +:+ error)) (parse_str (trim stdout_text)).

Definition command_failure_details (exit_code : Z) (stdout_text : string) (stderr_buffer : list ascii) : string :=
  let stderr_text := match from_utf8 stderr_buffer with Ok text => text | Err _ => EmptyString end in
  if negb (str_is_empty (trim stderr_text)) then trim stderr_text
  else if negb (str_is_empty (trim stdout_text)) then trim stdout_text
  else "command failed with exit code " +:+ Z_to_string exit_code.

Definition command_result (output_policy : CommandOutputPolicy) (output : CommandOutput) : result JsonValue ToolCallError :=
  stdout_text ←? command_output_to_string (stdout_bytes output) ;;
  if match output_policy with AcceptStructuredStdout => true | RequireSuccessfulExit => false end
     && negb (str_is_empty (trim stdout_text))
  then parse_command_json stdout_text
  else if negb (exit_code output =? 0)%Z
  then Err (ExecutionError (command_failure_details (exit_code output) stdout_text (stderr_bytes output)))
  else if str_is_empty (trim stdout_text) then Err (ExecutionError "command produced empty JSON output")
  else parse_command_json stdout_text.

Definition run_app_json_command (args : list string) (output_policy : CommandOutputPolicy)
    : Act World (result JsonValue ToolCallError) :=
  output ⇐ run_internal (args ++ ["--root"; root_path config]) ;;
  ret (command_result output_policy output).

Definition run_json_command (args : list string) : Act World (result JsonValue ToolCallError) :=
  run_app_json_command args RequireSuccessfulExit.

Definition run_json_command_vec_allow_structured_exit (args : list string) : Act World (result JsonValue ToolCallError) :=
  run_app_json_command args AcceptStructuredStdout.

(** [map_err(Execution)]. *)
Definition executed (op : Operation) : Act World (result JsonValue ToolCallError) :=
  outcome ⇐ perform op ;; ret (map_err ExecutionError outcome).

(** ** Tool calls *)

Definition result_options_from_arguments (arguments : JsonValue) : result ToolResultOptions ToolCallError :=
  map_err (fun error => InvalidParams (display_tool_result_error error)) (options_from_arguments environment arguments).

Definition catalog_arguments (arguments : JsonValue) : result CatalogRequest ToolCallError :=
  server ←? optional_string_argument arguments "server" ;;
  timeout ←? timeout_argument arguments "timeoutMs" ;;
  fresh ←? flag_argument arguments "refresh" ;;
  Ok (mkCatalogRequest server timeout fresh).

Definition live_arguments (arguments : JsonValue) : result (bool * option N * bool) ToolCallError :=
  live ←? flag_argument arguments "includeLiveCatalog" ;;
  timeout ←? timeout_argument arguments "timeoutMs" ;;
  fresh ←? flag_argument arguments "refresh" ;;
  Ok (live, timeout, fresh).

(** A projected tool: the control arguments are MCPace's, the rest the server's. *)
Definition call_projected (target : ProjectedToolTarget) (arguments : JsonValue) (initialize_params : option JsonValue)
    : Act World (result JsonValue ToolCallError) :=
  let control_arguments := projected_adapter_control_arguments arguments in
  context ⇐? from_tool_arguments config control_arguments initialize_params ;;
  result_options ⇐? result_options_from_arguments control_arguments ;;
  ttl ⇐? integer_argument control_arguments "ttlMs" ;;
  timeout ⇐? timeout_argument control_arguments "timeoutMs" ;;
  outcome ⇐ executed (OpCall (target_server target) (target_tool target) (strip_projected_adapter_arguments arguments) timeout
                        (upstream_lease_context context ttl)) ;;
  ret (value ←? outcome ;; Ok (upstream_tool_result_payload value false result_options)).

(** The commands of the lease tools. *)
Definition lease_tool (tool_name : string) (arguments : JsonValue) (initialize_params : option JsonValue)
    : Act World (result JsonValue ToolCallError) :=
  if String.eqb tool_name "runtime_acquire" then
    server ⇐? required_string_argument arguments "server" ;;
    args ⇐? build_runtime_acquire_args config arguments initialize_params server ;;
    run_json_command_vec_allow_structured_exit args
  else if String.eqb tool_name "runtime_renew" then
    lease_id ⇐? required_string_argument arguments "leaseId" ;;
    ttl ⇐? integer_argument arguments "ttlMs" ;;
    let args := ["hub"; "lease"; "renew"; "--json"; "--lease-id"; lease_id] in
    run_json_command_vec_allow_structured_exit
      (match ttl with Some ttl => push_arg args "--ttl-ms" (Z_to_string ttl) | None => args end)
  else
    lease_id ⇐? required_string_argument arguments "leaseId" ;;
    run_json_command_vec_allow_structured_exit ["hub"; "lease"; "release"; "--json"; "--lease-id"; lease_id].

(** The tools that look at the upstream servers. *)
Definition upstream_view_tool (tool_name : string) (arguments : JsonValue) : Act World (result JsonValue ToolCallError) :=
  request ⇐? catalog_arguments arguments ;;
  executed
    (if String.eqb tool_name "upstream_tools" then OpListTools request
     else if String.eqb tool_name "upstream_catalog" then OpCatalog request
     else if String.eqb tool_name "upstream_probe" then OpProbe request
     else if String.eqb tool_name "upstream_policy_audit" then OpAudit request
     else OpSuggest request).

Definition call_tool (arguments : JsonValue) (initialize_params : option JsonValue) : Act World (result JsonValue ToolCallError) :=
  server ⇐? required_string_argument arguments "server" ;;
  tool ⇐? required_string_argument arguments "tool" ;;
  upstream_arguments ⇐? optional_object_argument arguments "arguments" ;;
  timeout ⇐? timeout_argument arguments "timeoutMs" ;;
  context ⇐? from_tool_arguments config arguments initialize_params ;;
  ttl ⇐? integer_argument arguments "ttlMs" ;;
  executed (OpCall server tool upstream_arguments timeout (upstream_lease_context context ttl)).

Definition call_batch (arguments : JsonValue) (initialize_params : option JsonValue) : Act World (result JsonValue ToolCallError) :=
  server ⇐? required_string_argument arguments "server" ;;
  raw_calls ⇐? ok_or (array_at_path arguments ["calls"]) (InvalidParams "'calls' must be an array") ;;
  calls ⇐? stdio_batch_calls 0 raw_calls ;;
  timeout ⇐? timeout_argument arguments "timeoutMs" ;;
  context ⇐? from_tool_arguments config arguments initialize_params ;;
  ttl ⇐? integer_argument arguments "ttlMs" ;;
  executed (OpBatch server calls timeout (upstream_lease_context context ttl)).

Definition own_tool (tool_name : string) (arguments : JsonValue) (initialize_params : option JsonValue)
    : Act World (result JsonValue ToolCallError) :=
  if String.eqb tool_name "doctor" then run_json_command ["doctor"; "--json"]
  else if String.eqb tool_name "hub_status" then run_json_command ["hub"; "status"; "--json"]
  else if String.eqb tool_name "hub_up" then run_json_command ["hub"; "up"; "--json"]
  else if String.eqb tool_name "hub_down" then run_json_command ["hub"; "down"; "--json"]
  else if String.eqb tool_name "hub_logs" then
    tail ⇐? integer_argument arguments "tail" ;;
    let args := ["hub"; "logs"; "--json"] in
    run_json_command (match tail with Some tail => push_arg args "--tail" (Z_to_string tail) | None => args end)
  else if String.eqb tool_name "runtime_leases" then run_json_command ["hub"; "lease"; "list"; "--json"]
  else if one_of ["runtime_acquire"; "runtime_renew"; "runtime_release"] tool_name
  then lease_tool tool_name arguments initialize_params
  else if String.eqb tool_name "server_list" then run_json_command ["server"; "list"; "--json"]
  else if String.eqb tool_name "server_capabilities" then
    name ⇐? required_string_argument arguments "name" ;;
    run_json_command ["server"; "capabilities"; "--json"; "--name"; name]
  else if String.eqb tool_name "client_list" then run_json_command ["client"; "list"; "--json"]
  else if String.eqb tool_name "client_plan" then
    args ⇐? build_client_args "plan" config arguments initialize_params ;; run_json_command args
  else if String.eqb tool_name "client_export" then
    args ⇐? build_client_args "export" config arguments initialize_params ;; run_json_command args
  else if String.eqb tool_name "adapter_profile" then
    live ⇐? live_arguments arguments ;;
    let '(live, timeout, fresh) := live in
    executed (OpAdapterProfile initialize_params (cfg_transport config) (visible_tool_names environment mcp_tool_names) live timeout fresh)
  else if String.eqb tool_name "adapter_route" then
    live ⇐? live_arguments arguments ;;
    let '(live, timeout, fresh) := live in
    executed (OpAdapterRoute (value_at_path arguments ["calls"]) live timeout fresh)
  else if String.eqb tool_name "upstream_search" then
    query ⇐? optional_string_argument arguments "query" ;;
    server ⇐? optional_string_argument arguments "server" ;;
    limit ⇐? integer_argument arguments "limit" ;;
    include_schema ⇐? flag_argument arguments "includeSchema" ;;
    timeout ⇐? timeout_argument arguments "timeoutMs" ;;
    fresh ⇐? flag_argument arguments "refresh" ;;
    executed (OpSearch server query (unwrap_or (positive limit) 20%N) include_schema timeout fresh)
  else if String.eqb tool_name "surface_manifest" then
    live ⇐? live_arguments arguments ;;
    let '(live, timeout, fresh) := live in
    executed (OpSurfaceManifest (cfg_transport config) (visible_tool_names environment mcp_tool_names) live timeout fresh)
  else if one_of ["upstream_tools"; "upstream_catalog"; "upstream_probe"; "upstream_policy_audit"; "upstream_policy_suggest"] tool_name
  then upstream_view_tool tool_name arguments
  else if String.eqb tool_name "upstream_call" then call_tool arguments initialize_params
  else if String.eqb tool_name "upstream_batch" then call_batch arguments initialize_params
  else ret (Err (UnknownTool ("unknown MCPace tool '" +:+ tool_name +:+ "'"))).

Definition execute_own_tool (tool_name : string) (arguments : JsonValue) (initialize_params : option JsonValue)
    : Act World (result JsonValue ToolCallError) :=
  result_options ⇐? result_options_from_arguments arguments ;;
  outcome ⇐ own_tool tool_name arguments initialize_params ;;
  ret (value ←? outcome ;;
       Ok (if one_of ["upstream_call"; "upstream_batch"] tool_name then upstream_tool_result_payload value false result_options
           else tool_result_payload value false result_options)).

Definition execute_tool (tool_name : string) (arguments : JsonValue) (initialize_params : option JsonValue)
    : Act World (result JsonValue ToolCallError) :=
  if starts_with "u_" tool_name then
    target ⇐ ask (Resolved tool_name) (host_resolve tool_name (list_to_set mcp_tool_names)) ;;
    target ⇐? map_err ExecutionError target ;;
    match target with
    | Some target => call_projected target arguments initialize_params
    | None => execute_own_tool tool_name arguments initialize_params
    end
  else execute_own_tool tool_name arguments initialize_params.

Definition tool_error_result (message : string) : JsonValue :=
  json_object
    [("content", json_array [json_object [("type", json_string "text"); ("text", json_string message)]]);
     ("structuredContent", json_object [("error", json_string message)]);
     ("isError", json_bool true)].
End tools.

(** ** The events of a step *)

(** Every event of the step satisfies [P], whatever the host answers. *)
Definition events_of {World A} (m : Act World A) (w : World) : list Event := (m w).1.2.

Definition emits {World A} (P : Event -> Prop) (m : Act World A) : Prop := forall w, Forall P (events_of m w).

Section emits.
Context {World : Type}.
Implicit Type P : Event -> Prop.

Lemma emits_ret {A} P (a : A) : emits P (ret a : Act World A).
Proof. intros w. constructor. Qed.

Lemma emits_andthen {A B} P (m : Act World A) (k : A -> Act World B) :
  emits P m -> (forall a, emits P (k a)) -> emits P (andthen m k).
Proof.
  intros Hm Hk w. unfold events_of, andthen. specialize (Hm w). unfold events_of in Hm.
  destruct (m w) as [ [w' es] a]. specialize (Hk a w'). unfold events_of in Hk. destruct (k a w') as [ [w'' es'] b].
  apply Forall_app. by split.
Qed.

Lemma emits_ask {A} P e (f : World -> World * A) : P e -> emits P (ask e f).
Proof. intros He w. unfold events_of, ask. destruct (f w). by repeat constructor. Qed.

Lemma emits_emit P e : P e -> emits P (emit e : Act World unit).
Proof. intros He w. by repeat constructor. Qed.

Lemma emits_try {A B E} P (r : result A E) (k : A -> Act World (result B E)) :
  (forall a, r = Ok a -> emits P (k a)) -> emits P (try_act r k).
Proof. intros Hk. destruct r; [by apply Hk|apply emits_ret]. Qed.

Lemma emits_impl {A} P Q (m : Act World A) : (forall e, P e -> Q e) -> emits P m -> emits Q m.
Proof. intros Hi Hm w. eapply Forall_impl; [apply Hm|done]. Qed.
End emits.

Create HintDb stdio.
#[export] Hint Resolve emits_ret emits_andthen emits_ask emits_emit emits_try : stdio.

(** Runs through the structure of a step; what is left is what each request to the host must
    satisfy. *)
Ltac emits_steps :=
  repeat first
    [ apply emits_ret
    | apply emits_andthen; [|intros ?]
    | apply emits_try; intros ? ?
    | apply emits_ask
    | apply emits_emit ].

(** ** What is advertised is supported *)

(** Events that call an upstream tool, change a lease, or start, stop or repair the hub. *)
Definition acting (e : Event) : bool :=
  match e with
  | Performed (OpCall _ _ _ _ _) | Performed (OpBatch _ _ _ _) => true
  | RanCommand (command :: verb :: rest) =>
      String.eqb command "hub"
      && (one_of ["up"; "down"; "repair"] verb
          || String.eqb verb "lease" && one_of ["acquire"; "renew"; "release"] (unwrap_or (head rest) EmptyString))
  | _ => false
  end.

Section properties.
Context {World : Type} `{Host World} `{SerdeJson}.
Context (environment : string -> option string) (config : ServerConfig).

Lemma command_emits (P : Event -> Prop) args policy :
  P (RanCommand (args ++ ["--root"; root_path config])) -> emits P (run_app_json_command config args policy).
Proof. intros HP. unfold run_app_json_command, run_internal. by emits_steps. Qed.

Lemma executed_emits (P : Event -> Prop) op : P (Performed op) -> emits P (executed op).
Proof. intros HP. unfold executed, perform. by emits_steps. Qed.

Lemma client_args_quiet action arguments params args :
  build_client_args action config arguments params = Ok args -> acting (RanCommand (args ++ ["--root"; root_path config])) = false.
Proof.
  unfold build_client_args. destruct (from_tool_arguments config arguments params) as [c|]; [|done]. intros [= <-].
  unfold append_optional_cli_args, push_arg, push_optional_arg.
  destruct (String.eqb action "export"), (fc_session_id c), (fc_project_root c), (fc_metadata c); reflexivity.
Qed.

(** A tool that clients are told only reads never calls an upstream tool, changes a lease or
    starts, stops or repairs the hub, whatever its arguments and whatever the host answers. *)
Theorem stdio_read_only_tools_do_not_act name arguments params :
  stdio_read_only name = true -> emits (fun e => acting e = false) (own_tool environment config name arguments params).
Proof.
  intros Hr. apply one_of_elem in Hr. unfold own_tool, one_of, upstream_view_tool, run_json_command.
  repeat (apply elem_of_cons in Hr as [-> |Hr]; [|]); [..|by apply not_elem_of_nil in Hr].
  all: cbn [String.eqb Ascii.eqb Bool.eqb existsb orb].
  all: repeat (apply emits_try; intros ? ?).
  all: repeat match goal with p : bool * option N * bool |- _ => destruct p as [ [? ?] ?] end.
  all: try (by apply executed_emits).
  all: apply command_emits; try reflexivity; try (by eapply client_args_quiet).
  by match goal with t : option Z |- _ => destruct t end.
Qed.

(** No tool of that name: the answer the server gives to an unknown one. *)
Definition is_known {A} (outcome : result A ToolCallError) : bool :=
  match outcome with Err (UnknownTool _) => false | _ => true end.

Definition always_known {A} (m : Act World (result A ToolCallError)) : Prop := forall w, is_known (m w).2 = true.

Lemma known_ret {A} (r : result A ToolCallError) : is_known r = true -> always_known (ret r).
Proof. by intros Hr w. Qed.

Lemma known_try {A B} (r : result A ToolCallError) (k : A -> Act World (result B ToolCallError)) :
  is_known r = true -> (forall a, always_known (k a)) -> always_known (try_act r k).
Proof. destruct r as [a|[]]; [by intros _ Hk; apply Hk|done..]. Qed.

Lemma known_bind {A B} (r : result A ToolCallError) (k : A -> result B ToolCallError) :
  is_known r = true -> (forall a, is_known (k a) = true) -> is_known (a ←? r ;; k a) = true.
Proof. destruct r as [a|[]]; [by intros _ Hk; apply Hk|done..]. Qed.

Lemma known_command args policy : always_known (run_app_json_command config args policy).
Proof.
  intros w. unfold run_app_json_command, run_internal, andthen, ask. destruct (host_run _ w) as [w' output]. cbn [ret snd].
  unfold command_result, command_output_to_string, parse_command_json. destruct (from_utf8 _); [|done]. cbn [map_err].
  repeat case_match; try done; by destruct (parse_str _).
Qed.

Lemma known_executed op : always_known (executed op).
Proof. intros w. unfold executed, perform, andthen, ask. destruct (host_perform op w) as [w' [ | ] ]; done. Qed.

Lemma known_optional_string arguments key : is_known (optional_string_argument arguments key) = true.
Proof. unfold optional_string_argument. by repeat case_match. Qed.

Lemma known_required_string arguments key : is_known (required_string_argument arguments key) = true.
Proof. apply known_bind; [apply known_optional_string|]. by intros []. Qed.

Lemma known_integer arguments key : is_known (integer_argument arguments key) = true.
Proof. unfold integer_argument. case_match; [|done]. apply known_bind; [by destruct (as_i64 _)|done]. Qed.

Lemma known_flag arguments key : is_known (flag_argument arguments key) = true.
Proof.
  apply known_bind; [|done]. unfold bool_argument. case_match; [|done]. apply known_bind; [by destruct (as_bool _)|done].
Qed.

Lemma known_timeout arguments key : is_known (timeout_argument arguments key) = true.
Proof. apply known_bind; [apply known_integer|done]. Qed.

Lemma known_object arguments key : is_known (optional_object_argument arguments key) = true.
Proof. unfold optional_object_argument. by repeat case_match. Qed.

Lemma known_live arguments : is_known (live_arguments arguments) = true.
Proof. repeat (apply known_bind; [first [apply known_flag|apply known_timeout]|intros ?]). done. Qed.

Lemma known_catalog arguments : is_known (catalog_arguments arguments) = true.
Proof. repeat (apply known_bind; [first [apply known_flag|apply known_timeout|apply known_optional_string]|intros ?]). done. Qed.

Lemma known_forwarded arguments params : is_known (from_tool_arguments config arguments params) = true.
Proof.
  repeat (apply known_bind; [|intros ?]); try apply known_optional_string; [| |done].
  - unfold stdio_allow_arguments. by destruct (collect_allow_arguments arguments).
  - unfold allowed_tool_risk_classes_argument. by destruct (collect_allowed_tool_risk_classes arguments).
Qed.

Lemma known_batch index raw_calls : is_known (stdio_batch_calls index raw_calls) = true.
Proof.
  revert index. induction raw_calls as [|c cs IH]; intros index; [done|]. apply known_bind; [|by intros a; apply known_bind].
  unfold parse_upstream_batch_call. destruct (as_array c) as [ [|first [|a [|? ?] ] ]|]; [done| | |done|].
  - apply known_bind; [by destruct (non_blank _)|done].
  - apply known_bind; [by destruct (non_blank _)|]. intros ?. apply known_bind; [by destruct a|done].
  - apply known_bind; [by destruct (non_blank _)|]. intros ?. apply known_bind; [by destruct (value_at_path _ _) as [ []|]|done].
Qed.

Lemma known_client action arguments params : is_known (build_client_args action config arguments params) = true.
Proof. apply known_bind; [apply known_forwarded|done]. Qed.

Lemma known_acquire arguments params server : is_known (build_runtime_acquire_args config arguments params server) = true.
Proof. apply known_bind; [apply known_forwarded|]. intros ?. by apply known_bind; [apply known_integer|]. Qed.
#[local] Hint Resolve known_optional_string known_required_string known_integer known_flag known_timeout known_object known_live
  known_catalog known_forwarded known_batch known_client known_acquire known_command known_executed : core.

Lemma unknown_tool name arguments params :
  name ∉ mcp_tool_names ->
  own_tool environment config name arguments params = ret (Err (UnknownTool ("unknown MCPace tool '" +:+ name +:+ "'"))).
Proof.
  intros Hn. unfold own_tool. unfold one_of. cbn [existsb].
  repeat match goal with
  | |- context [String.eqb name ?n] =>
      destruct (String.eqb_spec name n) as [-> |]; [exfalso; apply Hn; apply one_of_elem; by vm_compute|]
  end. done.
Qed.

(** The tools that [tools/list] may show under MCPace's own names are exactly the ones a call
    can reach, and no name is given twice. *)
Theorem stdio_tools_advertised_iff_supported (w : World) :
  NoDup mcp_tool_names
  /\ forall name, name ∈ mcp_tool_names <->
       forall arguments params, is_known (own_tool environment config name arguments params w).2 = true.
Proof.
  split; [by apply (bool_decide_unpack _); vm_compute|]. intros name. split.
  - intros Hn arguments params. revert w. change (always_known (own_tool environment config name arguments params)).
    assert (Hcalls : is_known (ok_or (array_at_path arguments ["calls"]) (InvalidParams "'calls' must be an array")) = true)
      by by destruct (array_at_path _ _).
    unfold own_tool, one_of, lease_tool, upstream_view_tool, call_tool, call_batch, run_json_command,
      run_json_command_vec_allow_structured_exit.
    repeat (apply elem_of_cons in Hn as [-> |Hn]; [|]); [..|by apply not_elem_of_nil in Hn].
    all: cbn [String.eqb Ascii.eqb Bool.eqb existsb orb].
    all: repeat (apply known_try; [by auto|intros ?]); try apply known_command; try apply known_executed.
    all: repeat match goal with p : bool * option N * bool |- _ => destruct p as [ [? ?] ?] end; apply known_executed.
  - intros Hk. destruct (decide (name ∈ mcp_tool_names)) as [|Hn]; [done|]. exfalso. specialize (Hk JNull None).
    rewrite (unknown_tool name JNull None Hn) in Hk. done.
Qed.
End properties.

(** ** What the code does not mean to do *)

Definition schema_keys (tool : string) : list string :=
  unwrap_or (option_map bt_keys (value_at_path (input_schema tool) ["properties"] ≫= as_object)) [].

(** The arguments that say on whose behalf a call is made are read by the tools that call
    upstream tools, whose schemas forbid them, and are declared by those that list them,
    which do not read them. *)
Lemma context_arguments_are_declared_elsewhere :
  Forall (fun key => one_of (schema_keys "upstream_call") key = false /\ one_of (schema_keys "upstream_batch") key = false
                     /\ one_of (schema_keys "upstream_tools") key = true /\ one_of (schema_keys "upstream_probe") key = true)
    ["clientId"; "sessionId"; "projectRoot"; "transport"; "metadata"; "ttlMs"]
  /\ (forall config, option_map fc_session_id (result_ok (from_tool_arguments config (JObject [("sessionId", JString "s")]) None))
                     = Some (Some "s")).
Proof. split; [by repeat constructor; vm_compute|done]. Qed.

(** A client id that begins with a dash is an option of the exported command. *)
Lemma exported_client_id_can_be_an_option `{SerdeJson} config :
  option_map (firstn 4) (result_ok (build_client_args "export" config (JObject [("clientId", JString "--help")]) None))
  = Some ["client"; "export"; "--json"; "--help"].
Proof. destruct config as [r c [s|] [p|] t]; vm_compute; reflexivity. Qed.

(** ** Witnesses *)

(** A host that answers every request with an empty object. *)
Definition sample_host : Host unit := {|
  host_run _ w := (w, mkOutput 0 (bytes "{}") []);
  host_resolve _ _ w := (w, Ok None);
  host_perform _ w := (w, Ok empty_object);
  host_list _ w := (w, empty_object);
  host_write _ w := (w, true);
  host_flush w := (w, true) |}.

Definition sample_stdio : ServerConfig := mkStdioConfig "/root" "generic-stdio" None None "stdio".

Lemma stdio_read_only_tools_do_not_act_witness :
  emits (fun e => acting e = false)
    (own_tool (H := sample_host) (H0 := TreeCodec.codec) (fun _ => None) sample_stdio "client_plan" empty_object None).
Proof. apply stdio_read_only_tools_do_not_act. reflexivity. Defined.
