(* ===== verification/StdioServer.v ===== *)
(** * The stdio server (src/mcp_server.rs)

    A session over standard input and output: lines are read within a limit, each is one
    JSON-RPC message, and the loop keeps whether the session was initialized, whether the
    client said it is ready, and the ids of all requests it accepted.

    Standard input is the list of what its reads give, an empty piece or the end of the list
    being the end of the file; the rest is the [Host] of [StdioTools]. *)

From Stdlib Require Import Ascii.
From S2P Require Import Prelude RustStr BTree Json TextUtils Execution McpProtocol ProxyUri ToolPolicy ToolView ToolExposure.
From S2P Require Import ToolResult HttpTools ToolRuntime ToolCache HttpSession HttpBoundary McpEndpoint SourceSignals StdioSurface StdioTools.

Definition MAX_MCP_STDIO_MESSAGE_BYTES : N := 8 * 1024 * 1024.
Definition MAX_MCP_STDIO_REQUEST_IDS : N := 4096.

(** ** Reading a line *)

Inductive Arrival :=
| Bytes (piece : list ascii)
| ReadFailed (error : string).

Inductive BoundedStdioLine := LineEof | LineRead | LineTooLong.

Definition newline : ascii := "010".

(** The bytes up to and with the first newline, the rest, and whether there was one. *)
Fixpoint until_newline (piece : list ascii) : list ascii * list ascii * bool :=
  match piece with
  | [] => ([], [], false)
  | c :: rest =>
      if Ascii.eqb c newline then ([c], rest, true)
      else let '(taken, left_over, seen) := until_newline rest in (c :: taken, left_over, seen)
  end.

(** What is left of a piece after [consume]. *)
Definition put_back (left_over : list ascii) (arrivals : list Arrival) : list Arrival :=
  match left_over with [] => arrivals | _ => Bytes left_over :: arrivals end.

(** [line] is what was read so far.  The result is the line, what was left to read, and how
    the reading ended. *)
Fixpoint read_bounded_stdio_line (max_bytes : N) (line : list ascii) (arrivals : list Arrival)
    : list ascii * list Arrival * result BoundedStdioLine string :=
  let at_end := match line with [] => LineEof | _ => LineRead end in
  match arrivals with
  | [] => (line, [], Ok at_end)
  | ReadFailed error :: arrivals => (line, arrivals, Err error)
  | Bytes [] :: arrivals => (line, arrivals, Ok at_end)
  | Bytes piece :: arrivals =>
      let '(until, after, newline_seen) := until_newline piece in
      let remaining := (sat_add USIZE_MAX max_bytes 1 - len_N line)%N in
      let taken := firstn (N.to_nat remaining) until in
      let line := line ++ taken in
      let left_over := skipn (N.to_nat remaining) until ++ after in
      let arrivals' := put_back left_over arrivals in
      if (max_bytes <? len_N line)%N then (line, arrivals', Ok LineTooLong)
      else if Nat.eqb (length taken) (length until) && newline_seen then (line, arrivals', Ok LineRead)
      else match taken with
           | [] => (line, arrivals', Ok LineTooLong)
           | _ => read_bounded_stdio_line max_bytes line arrivals
           end
  end.

(** ** Request ids *)

Inductive RequestIdReplayError := IdInvalid | IdTooLong | IdDuplicate | IdFull.

Definition track_stdio_request_id (seen_request_ids : list string) (id : JsonValue)
    : result (string * list string) RequestIdReplayError :=
  if negb (is_request_id_value id) then Err IdInvalid
  else if negb (request_id_is_within_limit id) then Err IdTooLong
  else
    id_key ←? ok_or (request_id_key id) IdInvalid ;;
    if one_of seen_request_ids id_key then Err IdDuplicate
    else if (MAX_MCP_STDIO_REQUEST_IDS <=? len_N seen_request_ids)%N then Err IdFull
    else Ok (id_key, set_insert id_key seen_request_ids).

(** ** Startup *)

Definition public_startup_note (note : string) : string :=
  let trimmed := trim note in
  let lower := to_ascii_lowercase trimmed in
  if negb (str_contains "failed" lower) && str_contains "automatically" lower then trimmed
  else
    let summary :=
      unwrap_or (opt_filter (fun value => negb (str_is_empty value)) (option_map trim (head (split_char ":" trimmed))))
        "MCPace startup diagnostic" in
    summary +:+ "; details withheld from initialize response; check local MCPace logs.".

Definition line_break : string := String newline EmptyString.

Definition instructions_text (startup_notes : list string) : string :=
  match startup_notes with
  | [] => adapter_instructions
  | _ => adapter_instructions +:+ line_break +:+ line_break +:+ "Startup notes:" +:+ line_break +:+ "- "
         +:+ join (line_break +:+ "- ") (map public_startup_note startup_notes)
  end.

Definition hub_is_live (status : string) : bool := one_of ["running"; "starting"; "stopping"] status.

Definition hub_status_of (status_json : JsonValue) : string := unwrap_or (string_at_path status_json ["status"]) "unknown".

Section server.
Context {World : Type} `{Host World} `{SerdeJson}.
Context (environment : string -> option string) (config : ServerConfig).

Definition hub_command (verb : string) : Act World (result JsonValue ToolCallError) :=
  run_json_command config ["hub"; verb; "--json"].

(** A note that ends the bootstrap: it is written to standard error. *)
Definition last_note (notes : list string) (note : string) : Act World (list string) :=
  _ ⇐ stderr_line note ;; ret (notes ++ [note]).

(** Runs [verb] and reads the status again; [Err] when the bootstrap ends here. *)
Definition recover (verb succeeded failed refresh_failed : string) (notes : list string)
    : Act World (result (list string * JsonValue) (list string)) :=
  outcome ⇐ hub_command verb ;;
  match outcome with
  | Err error => notes ⇐ last_note notes (failed +:+ ": " +:+ tool_error_text error) ;; ret (Err notes)
  | Ok _ =>
      let notes := notes ++ [succeeded] in
      refreshed ⇐ hub_command "status" ;;
      match refreshed with
      | Err error => notes ⇐ last_note notes (refresh_failed +:+ ": " +:+ tool_error_text error) ;; ret (Err notes)
      | Ok status_json => ret (Ok (notes, status_json))
      end
  end.

Definition recover_if (needed : bool) (verb succeeded failed refresh_failed : string) (notes : list string)
    (status_json : JsonValue) : Act World (result (list string * JsonValue) (list string)) :=
  if needed then recover verb succeeded failed refresh_failed notes else ret (Ok (notes, status_json)).

Fixpoint stderr_lines (notes : list string) : Act World unit :=
  match notes with [] => ret tt | note :: notes => _ ⇐ stderr_line note ;; stderr_lines notes end.

(** [Ok] carries on, [Err] is an early return. *)
Definition unless_ended {A} (m : Act World (result A (list string))) (k : A -> Act World (list string)) : Act World (list string) :=
  outcome ⇐ m ;; match outcome with Ok a => k a | Err notes => ret notes end.

(** The recovery, once the status is known. *)
Definition bring_up (status_json : JsonValue) : Act World (list string) :=
  unless_ended
    (recover_if (String.eqb (hub_status_of status_json) "stale") "down" "stale hub state was cleaned up automatically"
       "failed to clean stale hub state automatically" "hub status refresh failed after stale cleanup" [] status_json)
    (fun '(notes, status_json) =>
  unless_ended
    (recover_if (String.eqb (hub_status_of status_json) "corrupt") "repair" "corrupt hub state was repaired automatically"
       "failed to repair corrupt hub state automatically" "hub status refresh failed after repair" notes status_json)
    (fun '(notes, status_json) =>
  unless_ended
    (recover_if (negb (hub_is_live (hub_status_of status_json))) "up" "hub was started automatically for this MCP session"
       "failed to start hub automatically" "hub status refresh failed after startup" notes status_json)
    (fun '(notes, status_json) =>
  let status := hub_status_of status_json in
  let notes :=
    if negb (hub_is_live status)
    then notes ++ ["hub is still not live after bootstrap attempt (status: " +:+ status +:+ ")"]
    else match string_at_path status_json ["health"] with
         | Some health => if String.eqb health "healthy" then notes else notes ++ ["hub came up with health '" +:+ health +:+ "'"]
         | None => notes
         end in
  _ ⇐ stderr_lines notes ;; ret notes))).

Definition bootstrap_hub_runtime : Act World (list string) :=
  status ⇐ hub_command "status" ;;
  match status with
  | Err error => ret ["hub status check failed: " +:+ tool_error_text error]
  | Ok status_json => bring_up status_json
  end.

(** ** The loop *)

Record ServeState := mkServe {
  initialize_seen : bool;
  initialized_notification_seen : bool;
  initialize_params : option JsonValue;
  seen_request_ids : list string
}.

Definition serve_start : ServeState := mkServe false false None [].

Definition write_message (message : JsonValue) : Act World bool :=
  _ ⇐ emit (Replied message) ;;
  wrote ⇐ (fun w => let '(w, ok) := host_write (bytes (to_compact_string message)) w in (w, [], ok)) ;;
  if negb wrote then ret false
  else
    wrote ⇐ (fun w => let '(w, ok) := host_write [newline] w in (w, [], ok)) ;;
    if negb wrote then ret false
    else fun w => let '(w, ok) := host_flush w in (w, [], ok).

(** How a line is done with: [Ok] the loop goes on, [Err] the server returns the code. *)
Definition Turn : Type := Act World (result ServeState Z).

Definition reply (st : ServeState) (message : JsonValue) : Turn :=
  ok ⇐ write_message message ;; ret (if ok then Ok st else Err 1%Z).

Definition refuse (st : ServeState) (id : JsonValue) (code : Z) (text : string) : Turn := reply st (rpc_error id code text None).

(** The requests of a ready session; those without an id are ignored. *)
Definition list_request (st : ServeState) (id : option JsonValue) (l : Listing) : Turn :=
  match id with
  | None => ret (Ok st)
  | Some id =>
      if negb (initialize_seen st) then refuse st id ERROR_NOT_INITIALIZED "Server not initialized"
      else value ⇐ listing l ;; reply st (rpc_result id value)
  end.

(** A request that names what it wants. *)
Definition fetch_request (st : ServeState) (id : option JsonValue) (op : option Operation) (missing : string) : Turn :=
  match id with
  | None => ret (Ok st)
  | Some id =>
      if negb (initialize_seen st) then refuse st id ERROR_NOT_INITIALIZED "Server not initialized"
      else
        match op with
        | None => refuse st id ERROR_INVALID_PARAMS missing
        | Some op =>
            outcome ⇐ perform op ;;
            match outcome with
            | Ok value => reply st (rpc_result id value)
            | Err error => refuse st id ERROR_INVALID_PARAMS error
            end
        end
  end.

Definition initialize_answer (message : JsonValue) (startup_notes : list string) : JsonValue :=
  let requested := unwrap_or (string_at_path message ["params"; "protocolVersion"]) CURRENT_PROTOCOL_VERSION in
  json_object
    [("protocolVersion", json_string (negotiate_protocol_version requested));
     ("capabilities", adapter_capabilities);
     ("serverInfo", json_object [("name", json_string SERVER_NAME); ("version", json_string PACKAGE_VERSION)]);
     ("instructions", json_string (instructions_text startup_notes))].

Definition on_initialize (st : ServeState) (message : JsonValue) (id : option JsonValue) : Turn :=
  match id with
  | None => ret (Ok st)
  | Some id =>
      if initialize_seen st then refuse st id ERROR_INVALID_REQUEST "MCP session is already initialized"
      else
        let st := mkServe true (initialized_notification_seen st) (value_at_path message ["params"]) (seen_request_ids st) in
        _ ⇐ emit SessionInitialized ;;
        startup_notes ⇐ bootstrap_hub_runtime ;;
        reply st (rpc_result id (initialize_answer message startup_notes))
  end.

Definition on_ping (st : ServeState) (id : option JsonValue) : Turn :=
  match id with
  | None => ret (Ok st)
  | Some id => reply st (rpc_result id empty_object)
  end.

Definition on_tools_call (st : ServeState) (message : JsonValue) (id : option JsonValue) : Turn :=
  match id with
  | None => ret (Ok st)
  | Some id =>
      if negb (initialize_seen st) then refuse st id ERROR_NOT_INITIALIZED "Server not initialized"
      else
        match string_at_path message ["params"; "name"] with
        | None => refuse st id ERROR_INVALID_PARAMS "tools/call requires a tool name"
        | Some name =>
            match tool_call_arguments_or_empty message with
            | Err error => refuse st id ERROR_INVALID_PARAMS (display_protocol_error error)
            | Ok arguments =>
                outcome ⇐ execute_tool environment config name arguments (initialize_params st) ;;
                match outcome with
                | Ok value => reply st (rpc_result id value)
                | Err (InvalidParams text) | Err (UnknownTool text) => refuse st id ERROR_INVALID_PARAMS text
                | Err (ExecutionError text) => reply st (rpc_result id (tool_error_result text))
                end
            end
        end
  end.

Definition stdio_dispatch (st : ServeState) (message : JsonValue) (method : string) (id : option JsonValue) : Turn :=
  let cursor := string_at_path message ["params"; "cursor"] in
  if String.eqb method "initialize" then on_initialize st message id
  else if String.eqb method "notifications/initialized" then
    _ ⇐ emit SessionReady ;; ret (Ok (mkServe (initialize_seen st) true (initialize_params st) (seen_request_ids st)))
  else if String.eqb method "notifications/cancelled" then ret (Ok st)
  else if String.eqb method "ping" then on_ping st id
  else if String.eqb method "tools/list" then
    list_request st id
      (ListToolsOf (map (fun tool => tool_definition tool (tool_surface_options_from_initialize environment (initialize_params st))) TOOL_SPECS)
         (initialize_params st) cursor)
  else if String.eqb method "prompts/list" then list_request st id (ListPromptsOf cursor)
  else if String.eqb method "prompts/get" then
    fetch_request st id
      (option_map (fun name => OpGetPrompt name (unwrap_or (value_at_path message ["params"; "arguments"]) empty_object))
         (string_at_path message ["params"; "name"])) "prompts/get requires a prompt name"
  else if String.eqb method "resources/list" then list_request st id (ListResourcesOf cursor)
  else if String.eqb method "resources/templates/list" then list_request st id (ListTemplatesOf cursor)
  else if String.eqb method "resources/read" then
    fetch_request st id (option_map OpReadResource (string_at_path message ["params"; "uri"])) "resources/read requires a uri"
  else if String.eqb method "tools/call" then on_tools_call st message id
  else
    match id with
    | Some id => refuse st id ERROR_METHOD_NOT_FOUND ("unsupported MCP method '" +:+ method +:+ "'")
    | None => ret (Ok st)
    end.

(** Notes the id of a request; a full window ends the session. *)
Definition accept_request (st : ServeState) (message : JsonValue) (method : string) (id : option JsonValue) : Turn :=
  match id with
  | None => stdio_dispatch st message method None
  | Some request =>
      match track_stdio_request_id (seen_request_ids st) request with
      | Ok (key, seen) =>
          _ ⇐ emit (RequestAccepted key) ;;
          stdio_dispatch (mkServe (initialize_seen st) (initialized_notification_seen st) (initialize_params st) seen) message method
            (Some request)
      | Err IdDuplicate => refuse st request ERROR_INVALID_REQUEST "JSON-RPC request id was already used in this MCP session"
      | Err IdFull =>
          _ ⇐ write_message
                (rpc_error request ERROR_INVALID_REQUEST "MCP stdio request-id replay window is full; restart the session" None) ;;
          ret (Err 1%Z)
      | Err IdInvalid | Err IdTooLong =>
          refuse st request ERROR_INVALID_REQUEST "JSON-RPC request id must be a bounded string or integer number"
      end
  end.

(** A request is refused and a notification ignored while the session is not ready for it. *)
Definition not_yet (st : ServeState) (id : option JsonValue) (text : string) : Turn :=
  match id with Some id => refuse st id ERROR_NOT_INITIALIZED text | None => ret (Ok st) end.

Definition admit_method (st : ServeState) (message : JsonValue) (method : string) (id : option JsonValue) : Turn :=
  if negb (String.eqb method "initialize") && negb (String.eqb method "ping") && negb (initialize_seen st)
  then not_yet st id "Server not initialized; send initialize first"
  else if initialize_seen st && negb (initialized_notification_seen st)
          && negb (one_of ["initialize"; "ping"; "notifications/initialized"] method)
  then not_yet st id
         "MCP session is initialized but not ready; send notifications/initialized before normal operations"
  else accept_request st message method id.

Definition stdio_message (st : ServeState) (message : JsonValue) : Turn :=
  let id := request_id message in
  match validate_request_envelope message with
  | Err error => refuse st (request_id_or_null message) ERROR_INVALID_REQUEST (display_protocol_error error)
  | Ok _ =>
      match string_at_path message ["method"] with
      | None => refuse st (request_id_or_null message) ERROR_INVALID_REQUEST "Missing JSON-RPC method"
      | Some method =>
          match id with
          | Some request =>
              if method_is_notification method
              then refuse st request ERROR_INVALID_REQUEST "MCP notifications must not include a JSON-RPC id"
              else if negb (request_id_is_within_limit request)
              then refuse st request ERROR_INVALID_REQUEST "JSON-RPC request id exceeds the 256 byte limit"
              else admit_method st message method id
          | None => admit_method st message method id
          end
      end
  end.

(** A line that was read. *)
Definition stdio_line (st : ServeState) (line : list ascii) : Turn :=
  match from_utf8 line with
  | Err error => _ ⇐ stderr_line ("failed to read MCP stdin as UTF-8: " +:+ error) ;; ret (Err 1%Z)
  | Ok line_text =>
      let trimmed := trim line_text in
      if str_is_empty trimmed then ret (Ok st)
      else
        match parse_str trimmed with
        | Err error =>
            reply st (rpc_error JNull ERROR_PARSE "Invalid JSON message" (Some (json_object [("details", json_string error)])))
        | Ok message => stdio_message st message
        end
  end.

(** The loop over the lines; [None] when the fuel does not suffice. *)
Fixpoint serve_loop (fuel : nat) (st : ServeState) (arrivals : list Arrival) : Act World (option Z) :=
  match fuel with
  | O => ret None
  | S fuel =>
      let '(line, arrivals, outcome) := read_bounded_stdio_line MAX_MCP_STDIO_MESSAGE_BYTES [] arrivals in
      match outcome with
      | Ok LineEof => ret (Some 0%Z)
      | Ok LineTooLong =>
          _ ⇐ stderr_line ("MCP stdin message exceeds the " +:+ N_to_string MAX_MCP_STDIO_MESSAGE_BYTES +:+ " byte limit") ;;
          ret (Some 1%Z)
      | Err error => _ ⇐ stderr_line ("failed to read MCP stdin: " +:+ error) ;; ret (Some 1%Z)
      | Ok LineRead =>
          turn ⇐ stdio_line st line ;;
          match turn with
          | Ok st => serve_loop fuel st arrivals
          | Err code => ret (Some code)
          end
      end
  end.

Definition arrived (arrivals : list Arrival) : nat :=
  sum_list_with (fun a => match a with Bytes piece => length piece | ReadFailed _ => 0 end) arrivals.

Definition serve (arrivals : list Arrival) : Act World (option Z) := serve_loop (S (arrived arrivals)) serve_start arrivals.
End server.

(** ** Reading does not depend on the pieces *)

(** Standard input byte by byte: what arrives, with the pieces forgotten. *)
Inductive Letter :=
| Letter_byte (c : ascii)
| Letter_eof
| Letter_failed (error : string).

Definition letters_of (a : Arrival) : list Letter :=
  match a with
  | Bytes [] => [Letter_eof]
  | Bytes piece => map Letter_byte piece
  | ReadFailed error => [Letter_failed error]
  end.

Definition letters (arrivals : list Arrival) : list Letter := arrivals ≫= letters_of.

(** A line read one byte at a time. *)
Fixpoint line_of (max_bytes : N) (line : list ascii) (input : list Letter)
    : list ascii * list Letter * result BoundedStdioLine string :=
  let at_end := match line with [] => LineEof | _ => LineRead end in
  match input with
  | [] => (line, [], Ok at_end)
  | Letter_eof :: input => (line, input, Ok at_end)
  | Letter_failed error :: input => (line, input, Err error)
  | Letter_byte c :: input =>
      let line := line ++ [c] in
      if (max_bytes <? len_N line)%N then (line, input, Ok LineTooLong)
      else if Ascii.eqb c newline then (line, input, Ok LineRead)
      else line_of max_bytes line input
  end.

Lemma letters_bytes piece arrivals : piece <> [] -> letters (Bytes piece :: arrivals) = map Letter_byte piece ++ letters arrivals.
Proof. by destruct piece. Qed.

Lemma letters_put_back piece arrivals : letters (put_back piece arrivals) = map Letter_byte piece ++ letters arrivals.
Proof. by destruct piece. Qed.

Lemma until_newline_spec piece upto after seen :
  until_newline piece = (upto, after, seen) ->
  piece = upto ++ after
  /\ if seen then exists v, upto = v ++ [newline] /\ newline ∉ v else after = [] /\ newline ∉ upto.
Proof.
  revert upto after seen. induction piece as [|c rest IH]; intros upto after seen; cbn [until_newline].
  - intros [= <- <- <-]. repeat split. apply not_elem_of_nil.
  - destruct (Ascii.eqb_spec c newline) as [-> |Hc].
    + intros [= <- <- <-]. split; [done|]. exists []. split; [done|apply not_elem_of_nil].
    + destruct (until_newline rest) as [ [t l] s]. intros [= <- <- <-].
      destruct (IH _ _ _ eq_refl) as [-> Hs]. split; [done|]. destruct s.
      * destruct Hs as (v & -> & Hv). exists (c :: v). split; [done|]. by apply not_elem_of_cons.
      * destruct Hs as [-> Hv]. split; [done|]. by apply not_elem_of_cons.
Qed.

(** Bytes that fit and end no line are added to it. *)
Lemma line_of_plain max line v input :
  newline ∉ v -> (len_N line + len_N v <= max)%N ->
  line_of max line (map Letter_byte v ++ input) = line_of max (line ++ v) input.
Proof.
  revert line. induction v as [|c v IH]; intros line Hv Hl; [by rewrite app_nil_r|].
  apply not_elem_of_cons in Hv as [Hc Hv]. cbn [map app line_of]. rewrite len_N_app.
  assert (Hlc : len_N [c] = 1%N) by done. assert (Hlv : len_N (c :: v) = (1 + len_N v)%N) by (unfold len_N; cbn [length]; lia).
  rewrite (proj2 (N.ltb_ge _ _)) by lia. rewrite (proj2 (Ascii.eqb_neq _ _)) by congruence.
  rewrite IH by (try rewrite len_N_app; try done; lia). by rewrite <- app_assoc.
Qed.

Lemma in_firstn {A} (x : A) n l : x ∈ firstn n l -> x ∈ l.
Proof. intros Hx. rewrite <- (take_drop n l). apply elem_of_app. by left. Qed.

(** A line that would not fit is left after one byte too many. *)
Lemma line_of_too_long max line v u input :
  newline ∉ v -> u = v \/ u = v ++ [newline] -> (len_N line <= max)%N -> (max < len_N line + len_N u)%N ->
  line_of max line (map Letter_byte u ++ input)
  = (line ++ firstn (N.to_nat (max + 1 - len_N line)) u, map Letter_byte (skipn (N.to_nat (max + 1 - len_N line)) u) ++ input,
     Ok LineTooLong).
Proof.
  intros Hv Hu Hl Hm. set (n := N.to_nat (max - len_N line)). replace (N.to_nat (max + 1 - len_N line)) with (S n) by lia.
  assert (Hn : n < length u) by (unfold len_N in *; lia).
  destruct (lookup_lt_is_Some_2 u n Hn) as [c Hc]. rewrite (take_S_r _ _ _ Hc).
  rewrite <- (take_drop_middle u n c Hc) at 1. rewrite map_app, <- app_assoc. cbn [map app].
  assert (Hp : len_N (firstn n u) = N.of_nat n) by (unfold len_N; rewrite length_take; lia).
  rewrite line_of_plain; [| |rewrite Hp; lia].
  - cbn [line_of]. rewrite !len_N_app, Hp. replace (max <? _)%N with true; [by rewrite <- app_assoc|].
    symmetry. apply N.ltb_lt. unfold len_N at 2. cbn [length]. lia.
  - intros Hin. apply Hv. destruct Hu as [-> | ->]; [by eapply in_firstn|].
    rewrite length_app in Hn. cbn [length] in Hn. rewrite take_app_le in Hin by lia. by eapply in_firstn.
Qed.

(** The pieces do not matter for one line... *)
Lemma read_is_line_of max line arrivals l rest outcome :
  (max < USIZE_MAX)%N -> (len_N line <= max)%N ->
  read_bounded_stdio_line max line arrivals = (l, rest, outcome) ->
  line_of max line (letters arrivals) = (l, letters rest, outcome).
Proof.
  intros Hmax. revert line. induction arrivals as [|[piece|error] arrivals IH]; intros line Hl; cbn [read_bounded_stdio_line].
  1: by intros [= <- <- <-].
  2: by intros [= <- <- <-].
  destruct piece as [|c0 piece0] eqn:Ep; [by intros [= <- <- <-]|]. rewrite <- Ep. rewrite letters_bytes by congruence.
  assert (Hne : piece <> []) by congruence. clear Ep c0 piece0.
  destruct (until_newline piece) as [ [upto after] seen] eqn:Eu. pose proof Eu as Hu. apply until_newline_spec in Eu as [-> Hs].
  replace (sat_add USIZE_MAX max 1 - len_N line)%N with (max + 1 - len_N line)%N by (unfold sat_add; lia).
  set (n := N.to_nat (max + 1 - len_N line)). rewrite map_app, <- app_assoc.
  assert (Hv : exists v, (newline ∉ v) /\ (upto = v \/ upto = v ++ [newline])).
  { destruct seen; [destruct Hs as (v & -> & Hv); eauto|destruct Hs as [_ Hv]; eauto]. }
  destruct (N.ltb_spec max (len_N (line ++ firstn n upto))) as [Hlong|Hfit].
  - intros [= <- <- <-]. destruct Hv as (v & Hv & Huv). rewrite letters_put_back, map_app, <- app_assoc.
    apply (line_of_too_long max line v upto); [done..|]. unfold len_N in *. rewrite length_app, length_take in Hlong. lia.
  - assert (Hall : length upto <= n - 1).
    { unfold len_N in *. rewrite length_app, length_take in Hfit. lia. }
    assert (Hfits : (len_N line + len_N upto <= max)%N) by (unfold len_N in *; lia).
    rewrite (take_ge upto n) by lia. rewrite (drop_ge upto n), Nat.eqb_refl by lia. cbn [andb app].
    destruct seen.
    + intros [= <- <- <-]. destruct Hs as (v & -> & Hnl). rewrite letters_put_back, map_app, <- app_assoc. cbn [map app].
      rewrite len_N_app in Hfits. assert (Hl1 : len_N [newline] = 1%N) by done.
      rewrite line_of_plain by (try done; lia). cbn [line_of]. rewrite !len_N_app.
      rewrite (proj2 (N.ltb_ge _ _)) by lia. by rewrite <- app_assoc.
    + destruct Hs as [-> Hnl]. rewrite app_nil_r in Hne. destruct upto as [|c u] eqn:Eun; [done|]. rewrite <- Eun in *. intros Hr.
      cbn [map app]. rewrite line_of_plain by done. apply IH; [|done]. rewrite len_N_app. done.
Qed.

Definition is_byte (l : Letter) : bool := match l with Letter_byte _ => true | _ => false end.

Definition byte_count (input : list Letter) : nat := length (List.filter is_byte input).

Lemma byte_count_app a b : byte_count (a ++ b) = byte_count a + byte_count b.
Proof. unfold byte_count. by rewrite List.filter_app, length_app. Qed.

Lemma arrived_letters arrivals : arrived arrivals = byte_count (letters arrivals).
Proof.
  unfold arrived. induction arrivals as [|[piece|error] arrivals IH]; cbn [sum_list_with]; [done|..]; rewrite IH; clear IH.
  - destruct piece as [|c piece]; [done|]. rewrite letters_bytes, byte_count_app by done. f_equal.
    unfold byte_count. generalize (c :: piece). intros l. induction l; cbn; congruence.
  - done.
Qed.

(** A line that was read is not empty, and its bytes are gone from the input. *)
Lemma line_of_consumes max line input l rest outcome :
  line_of max line input = (l, rest, outcome) ->
  length l + byte_count rest <= length line + byte_count input /\ (outcome = Ok LineRead -> l <> []).
Proof.
  revert line. induction input as [|[c| |error] input IH]; intros line; cbn [line_of].
  - intros [= <- <- <-]. split; [apply Nat.le_refl|]. by destruct line.
  - assert (Hc : byte_count (Letter_byte c :: input) = S (byte_count input)) by done. rewrite Hc. clear Hc.
    assert (Hl : length (line ++ [c]) = S (length line)) by (rewrite length_app; cbn [length]; lia).
    destruct (max <? _)%N; [|destruct (Ascii.eqb c newline)].
    1,2: intros [= <- <- <-]; rewrite Hl; split; [lia|]; intros _ Hn%(f_equal length); by rewrite Hl in Hn.
    intros [Hle Hne]%IH. rewrite Hl in Hle. split; [lia|done].
  - intros [= <- <- <-]. split; [apply Nat.le_refl|]. by destruct line.
  - intros [= <- <- <-]. split; [apply Nat.le_refl|done].
Qed.

(** Inputs that differ only in the pieces they come in. *)
Definition same_input (a b : list Arrival) : Prop := letters a = letters b.

#[export] Instance same_input_equiv : Equivalence same_input.
Proof. by split; red; unfold same_input; intros *; congruence. Qed.

Lemma read_same_input max a b :
  (max < USIZE_MAX)%N -> same_input a b ->
  exists line rest rest' outcome,
    read_bounded_stdio_line max [] a = (line, rest, outcome) /\ read_bounded_stdio_line max [] b = (line, rest', outcome)
    /\ same_input rest rest' /\ (outcome = Ok LineRead -> arrived rest < arrived a).
Proof.
  intros Hmax Hab. destruct (read_bounded_stdio_line max [] a) as [ [l r] o] eqn:Ea, (read_bounded_stdio_line max [] b) as [ [l' r'] o'] eqn:Eb.
  apply read_is_line_of in Ea, Eb; [|done|unfold len_N; cbn [length]; lia..]. pose proof (line_of_consumes _ _ _ _ _ _ Ea) as [Hle Hne].
  unfold same_input in *. rewrite Hab, Eb in Ea. injection Ea as -> Hr ->. exists l, r, r', o. repeat split; [done|].
  intros Ho. specialize (Hne Ho). rewrite !arrived_letters. cbn [length] in Hle. destruct l; [done|]. cbn [length] in Hle. lia.
Qed.

Lemma stdio_limit : (MAX_MCP_STDIO_MESSAGE_BYTES < USIZE_MAX)%N.
Proof. by vm_compute. Qed.

Section session.
Context {World : Type} `{Host World} `{SerdeJson}.
Context (environment : string -> option string) (config : ServerConfig).

Lemma andthen_cong {A B} (m : Act World A) (k k' : A -> Act World B) w :
  (forall a w, k a w = k' a w) -> andthen m k w = andthen m k' w.
Proof. intros Hk. unfold andthen. destruct (m w) as [ [w' es] a]. by rewrite Hk. Qed.

Lemma serve_loop_same_input fuel fuel' st a b w :
  same_input a b -> arrived a < fuel -> arrived a < fuel' ->
  serve_loop environment config fuel st a w = serve_loop environment config fuel' st b w.
Proof.
  revert fuel' st a b w. induction fuel as [|fuel IH]; intros [|fuel'] st a b w Hab Hf Hf'; [lia..|]. cbn [serve_loop].
  destruct (read_same_input _ _ _ stdio_limit Hab) as (l & r & r' & o & -> & -> & Hr & Ho). destruct o as [ [| |]|e]; [done| |done|done].
  apply andthen_cong. intros [st'|code] w'; [|done]. specialize (Ho eq_refl). apply IH; [done|lia..].
Qed.

#[export] Instance serve_Proper : Proper (same_input ==> eq ==> eq) (serve environment config).
Proof.
  intros a b Hab w w' <-. apply serve_loop_same_input; [done|lia|]. rewrite !arrived_letters. unfold same_input in Hab. rewrite Hab. lia.
Qed.

(** C39: the whole session, what the server asks for, answers and returns, depends on the bytes
    that arrive and not on the pieces they arrive in: here two inputs whose pieces are not
    empty and join up to the same bytes. *)
Theorem stdio_read_in_any_pieces pieces pieces' w :
  Forall (fun piece => piece <> []) pieces -> Forall (fun piece => piece <> []) pieces' ->
  concat pieces = concat pieces' ->
  serve environment config (map Bytes pieces) w = serve environment config (map Bytes pieces') w.
Proof.
  assert (Hl : forall ps, Forall (fun piece => piece <> []) ps -> letters (map Bytes ps) = map Letter_byte (concat ps)).
  { induction 1 as [|p ps Hp _ IH]; [done|]. cbn [map concat]. by rewrite letters_bytes, map_app, IH. }
  intros Hp Hp' Hc. assert (Hs : same_input (map Bytes pieces) (map Bytes pieces')) by (unfold same_input; by rewrite !Hl, Hc).
  by rewrite Hs.
Qed.

End session.

(** ** The protocol of a session

    What a client may rely on, as a machine that reads the events of a session and stops at
    one that is out of order.  A request is accepted when none is open, under a key that was
    not used, at most 4096 times; it is closed by a reply with its id.  Nothing is asked of
    the host without an open request, and nothing but the bootstrap of the hub before the
    client is ready. *)

Inductive Phase := Fresh | Initialized | Ready.

Record Monitor := mkMonitor { mon_phase : Phase; mon_keys : gset string; mon_open : option string }.

Definition monitor_start : Monitor := mkMonitor Fresh ∅ None.

Definition bootstrap_command (arguments : list string) : bool :=
  match arguments with
  | command :: verb :: _ => String.eqb command "hub" && one_of ["status"; "down"; "repair"; "up"] verb
  | _ => false
  end.

Definition working (m : Monitor) : bool := is_some (mon_open m) && match mon_phase m with Ready => true | _ => false end.

Definition starting (m : Monitor) : bool := is_some (mon_open m) && match mon_phase m with Initialized => true | _ => false end.

Definition monitor_step (m : Monitor) (e : Event) : option Monitor :=
  match e with
  | RequestAccepted key =>
      if negb (is_some (mon_open m)) && negb (bool_decide (key ∈ mon_keys m))
         && (N.of_nat (size (mon_keys m)) <? MAX_MCP_STDIO_REQUEST_IDS)%N
      then Some (mkMonitor (mon_phase m) ({[key]} ∪ mon_keys m) (Some key)) else None
  | SessionInitialized =>
      match mon_phase m, mon_open m with Fresh, Some _ => Some (mkMonitor Initialized (mon_keys m) (mon_open m)) | _, _ => None end
  | SessionReady =>
      match mon_phase m, mon_open m with Fresh, _ | _, Some _ => None | _, None => Some (mkMonitor Ready (mon_keys m) None) end
  | RanCommand arguments => if working m || starting m && bootstrap_command arguments then Some m else None
  | Resolved _ | Performed _ | Listed _ => if working m then Some m else None
  | Replied message =>
      match mon_open m with
      | None => Some m
      | Some key =>
          if bool_decide (request_id message ≫= request_id_key = Some key)
          then Some (mkMonitor (mon_phase m) (mon_keys m) None) else None
      end
  | Diagnosed _ => Some m
  end.

Fixpoint monitor (m : Monitor) (es : list Event) : option Monitor :=
  match es with [] => Some m | e :: es => monitor_step m e ≫= fun m => monitor m es end.

Definition accepted (es : list Event) : list string :=
  omap (fun e => match e with RequestAccepted key => Some key | _ => None end) es.

Lemma monitor_app m es es' : monitor m (es ++ es') = monitor m es ≫= fun m => monitor m es'.
Proof. revert m. induction es as [|e es IH]; intros m; [done|]. cbn [app monitor]. by destruct (monitor_step m e); cbn. Qed.

Lemma monitor_step_keys m e m' :
  monitor_step m e = Some m' ->
  match e with
  | RequestAccepted key => (key ∉ mon_keys m) /\ mon_keys m' = {[key]} ∪ mon_keys m
                           /\ (N.of_nat (size (mon_keys m)) < MAX_MCP_STDIO_REQUEST_IDS)%N
  | _ => mon_keys m' = mon_keys m
  end.
Proof.
  destruct e; cbn [monitor_step]; repeat case_match; try done; try (by intros [= <-]). intros [= <-].
  match goal with Hc : _ && _ = true |- _ => apply andb_prop in Hc as [ [_ Hk%negb_true_iff%bool_decide_eq_false]%andb_prop Hs%N.ltb_lt] end.
  done.
Qed.

(** The keys of a session that follows the protocol. *)
Lemma monitor_keys m es m' :
  monitor m es = Some m' -> (N.of_nat (size (mon_keys m)) <= MAX_MCP_STDIO_REQUEST_IDS)%N ->
  mon_keys m' = list_to_set (accepted es) ∪ mon_keys m /\ NoDup (accepted es) /\ (forall k, k ∈ accepted es -> k ∉ mon_keys m)
  /\ (N.of_nat (size (mon_keys m')) <= MAX_MCP_STDIO_REQUEST_IDS)%N.
Proof.
  revert m. induction es as [|e es IH]; intros m; cbn [monitor].
  - intros [= <-] Hs. cbn. repeat split; [set_solver|constructor|set_solver|done].
  - destruct (monitor_step m e) as [m1|] eqn:E; [|done]. cbn [mbind option_bind]. intros Hm Hs. apply monitor_step_keys in E.
    assert (Hs1 : (N.of_nat (size (mon_keys m1)) <= MAX_MCP_STDIO_REQUEST_IDS)%N).
    { destruct e; try (by rewrite E). destruct E as (Hk & -> & Hlt). rewrite size_union, size_singleton by set_solver. lia. }
    destruct (IH m1 Hm Hs1) as (HK & Hn & Hd & Hl). destruct e; try (by rewrite E in HK, Hd).
    destruct E as (Hk & Ek & _). rewrite Ek in HK, Hd. cbn [accepted omap list_omap] in *. repeat split; [set_solver| |set_solver|done].
    constructor; [|done]. intros Hin. specialize (Hd _ Hin). set_solver.
Qed.

(** *** Steps that follow the protocol *)

Section protocol.
Context {World : Type} `{Host World} `{SerdeJson}.
Context (environment : string -> option string) (config : ServerConfig).
Implicit Types (m : Monitor) (st : ServeState).

(** Whatever the host answers, the step keeps to the protocol from [m] and ends in [Q]. *)
Definition follows {A} m (act : Act World A) (Q : A -> Monitor -> Prop) : Prop :=
  forall w, exists m', monitor m (events_of act w) = Some m' /\ Q (act w).2 m'.

Lemma follows_ret {A} m (a : A) (Q : A -> Monitor -> Prop) : Q a m -> follows m (ret a) Q.
Proof. intros HQ w. by exists m. Qed.

Lemma follows_andthen {A B} m (act : Act World A) (k : A -> Act World B) (Q : B -> Monitor -> Prop) :
  follows m act (fun a m' => follows m' (k a) Q) -> follows m (andthen act k) Q.
Proof.
  intros Ha w. destruct (Ha w) as (m1 & E1 & Hk). unfold events_of, andthen in *. destruct (act w) as [ [w1 es1] a].
  destruct (Hk w1) as (m2 & E2 & HQ). unfold events_of in *. cbn [fst snd] in *. destruct (k a w1) as [ [w2 es2] b].
  exists m2. cbn [fst snd] in *. by rewrite monitor_app, E1.
Qed.

Lemma follows_emit m m' e (Q : unit -> Monitor -> Prop) : monitor_step m e = Some m' -> Q tt m' -> follows m (emit e) Q.
Proof. intros Hm HQ w. exists m'. cbn. by rewrite Hm. Qed.

Lemma follows_ask {A} m m' e (f : World -> World * A) (Q : A -> Monitor -> Prop) :
  monitor_step m e = Some m' -> (forall a, Q a m') -> follows m (ask e f) Q.
Proof. intros Hm HQ w. exists m'. unfold events_of, ask. destruct (f w). cbn. by rewrite Hm. Qed.

(** A step whose events the protocol allows at any time in [m]. *)
Lemma follows_emits {A} m (act : Act World A) (Q : A -> Monitor -> Prop) :
  emits (fun e => monitor_step m e = Some m) act -> (forall a, Q a m) -> follows m act Q.
Proof.
  intros Ha HQ w. exists m. split; [|apply HQ]. specialize (Ha w). induction Ha as [|e es He _ IH]; [done|]. cbn [monitor].
  by rewrite He.
Qed.

Lemma follows_mono {A} m (act : Act World A) (P Q : A -> Monitor -> Prop) :
  (forall a m', P a m' -> Q a m') -> follows m act P -> follows m act Q.
Proof. intros HPQ Ha w. destruct (Ha w) as (m' & E & HP). eauto. Qed.

(** *** What the tools and the bootstrap ask for *)

Definition tool_event (e : Event) : Prop :=
  match e with RanCommand _ | Resolved _ | Performed _ => True | _ => False end.

Lemma own_tool_emits name arguments params : emits tool_event (own_tool environment config name arguments params).
Proof.
  assert (Hc : forall args policy, emits tool_event (run_app_json_command config args policy)) by (intros; by apply command_emits).
  assert (He : forall op, emits tool_event (executed op)) by (intros; by apply executed_emits).
  unfold own_tool, lease_tool, upstream_view_tool, call_tool, call_batch, run_json_command, run_json_command_vec_allow_structured_exit.
  repeat match goal with
  | |- emits _ (if ?c then _ else _) => destruct c
  | |- emits _ (try_act _ _) => apply emits_try; intros ? _
  | p : bool * option N * bool |- _ => destruct p as [ [? ?] ?]
  end; first [apply Hc|apply He|apply emits_ret].
Qed.

Lemma execute_tool_emits name arguments params : emits tool_event (execute_tool environment config name arguments params).
Proof.
  assert (Ho : emits tool_event (execute_own_tool environment config name arguments params)).
  { unfold execute_own_tool. emits_steps. apply own_tool_emits. }
  unfold execute_tool. destruct (starts_with "u_" name); [|exact Ho]. emits_steps; [exact I|]. case_match; [|exact Ho].
  unfold call_projected. emits_steps. exact I.
Qed.

Definition bootstrap_event (e : Event) : Prop :=
  match e with RanCommand args => bootstrap_command args = true | Diagnosed _ => True | _ => False end.

(** The arguments of a hub command. *)
Definition hub_arguments (verb : string) : list string := ["hub"; verb; "--json"; "--root"; root_path config].

Section bootstrap.
Context (P : Event -> Prop).
Hypothesis diagnosed : forall text, P (Diagnosed text).
Hypothesis asked_status : P (RanCommand (hub_arguments "status")).

Lemma hub_command_emits verb : P (RanCommand (hub_arguments verb)) -> emits P (hub_command config verb).
Proof. intros Hv. unfold hub_command, run_json_command. apply command_emits. exact Hv. Qed.

Lemma recover_if_emits needed verb s f r notes status_json :
  P (RanCommand (hub_arguments verb)) -> emits P (recover_if config needed verb s f r notes status_json).
Proof.
  intros Hv. unfold recover_if, recover, last_note, stderr_line.
  destruct needed; [|apply emits_ret]. apply emits_andthen; [by apply hub_command_emits|]. intros [o|error]; [|emits_steps; apply diagnosed].
  apply emits_andthen; [by apply hub_command_emits|]. intros [j|error]; [apply emits_ret|emits_steps; apply diagnosed].
Qed.

Lemma stderr_lines_emits notes : emits P (stderr_lines notes : Act World unit).
Proof. induction notes; cbn [stderr_lines]; unfold stderr_line; emits_steps; [apply diagnosed|done]. Qed.

Lemma unless_ended_emits {A} (act : Act World (result A (list string))) (k : A -> Act World (list string)) :
  emits P act -> (forall a, emits P (k a)) -> emits P (unless_ended act k).
Proof. intros Ha Hk. unfold unless_ended. apply emits_andthen; [done|]. intros [a|notes]; [apply Hk|apply emits_ret]. Qed.
End bootstrap.

Lemma bootstrap_emits : emits bootstrap_event (bootstrap_hub_runtime config).
Proof.
  unfold bootstrap_hub_runtime. apply emits_andthen; [by apply hub_command_emits|]. intros [status_json|error]; [|apply emits_ret].
  unfold bring_up. do 3 (apply unless_ended_emits; [by apply recover_if_emits|intros [? ?]]). emits_steps. by apply stderr_lines_emits.
Qed.

(** *** The state of the loop and the protocol *)

Definition phase_of st : Phase :=
  match initialize_seen st, initialized_notification_seen st with
  | false, _ => Fresh
  | true, false => Initialized
  | true, true => Ready
  end.

(** Between two lines [opened] is [None], within a request its key. *)
Record Follows (opened : option string) st m : Prop := {
  follows_phase : mon_phase m = phase_of st;
  follows_order : initialized_notification_seen st = true -> initialize_seen st = true;
  follows_keys : mon_keys m = list_to_set (seen_request_ids st);
  follows_sorted : sorted_set (seen_request_ids st);
  follows_open : mon_open m = opened
}.

Definition turn_done (outcome : result ServeState Z) m : Prop :=
  match outcome with Ok st => Follows None st m | Err code => code = 1%Z end.

Lemma sorted_set_NoDup l : sorted_set l -> NoDup l.
Proof.
  induction 1 as [|x l _ IH Hx]; constructor; [|done]. intros Hin. rewrite Forall_forall in Hx. specialize (Hx x Hin).
  by rewrite (proj2 (str_cmp_eq x x) eq_refl) in Hx.
Qed.

Lemma follows_start : Follows None serve_start monitor_start.
Proof. split; try done. constructor. Qed.

Lemma emits_silent {A} (P : Event -> Prop) (f : World -> World * A) : emits P (fun w => let '(w, a) := f w in (w, [], a)).
Proof. intros w. unfold events_of. by destruct (f w). Qed.

Lemma write_message_follows m m' message (Q : bool -> Monitor -> Prop) :
  monitor_step m (Replied message) = Some m' -> (forall ok, Q ok m') -> follows m (write_message message) Q.
Proof.
  intros Hm HQ. unfold write_message. apply follows_andthen, (follows_emit _ m'); [done|]. apply follows_emits; [|done].
  do 2 (apply emits_andthen; [apply emits_silent|intros []; cbn [negb]; [|apply emits_ret] ]). apply emits_silent.
Qed.

(** A reply while no request is open, and the reply to the open one. *)
Lemma reply_follows opened st m message :
  Follows opened st m -> (forall key, opened = Some key -> request_id message ≫= request_id_key = Some key) ->
  follows m (reply st message) turn_done.
Proof.
  intros HF Hk. unfold reply. apply follows_andthen.
  destruct opened as [key|].
  - eapply write_message_follows.
    + cbn [monitor_step]. rewrite (follows_open _ _ _ HF), bool_decide_eq_true_2 by (by apply Hk). reflexivity.
    + intros []; apply follows_ret; [|done]. by destruct HF; split.
  - eapply write_message_follows; [cbn [monitor_step]; by rewrite (follows_open _ _ _ HF)|]. by intros []; apply follows_ret.
Qed.

Lemma result_follows key st m id value :
  Follows (Some key) st m -> request_id_key id = Some key -> follows m (reply st (rpc_result id value)) turn_done.
Proof. intros HF Hk. eapply reply_follows; [exact HF|]. intros k [= <-]. exact Hk. Qed.

Lemma refuse_follows opened st m id code text :
  Follows opened st m -> (forall key, opened = Some key -> request_id_key id = Some key) -> follows m (refuse st id code text) turn_done.
Proof. intros HF Hk. eapply reply_follows; [exact HF|exact Hk]. Qed.

Lemma ready_working key st m : Follows (Some key) st m -> phase_of st = Ready -> working m = true.
Proof. intros [Hp _ _ _ Ho] Hr. unfold working. by rewrite Hp, Ho, Hr. Qed.

(** *** The handlers, for a request whose key is open *)

Lemma list_request_follows key st m id l :
  Follows (Some key) st m -> request_id_key id = Some key -> phase_of st = Ready ->
  follows m (list_request st (Some id) l) turn_done.
Proof.
  intros HF Hk Hr. unfold list_request. destruct (negb _); [by eapply refuse_follows; [|intros ? [= <-] ] |].
  apply follows_andthen, (follows_ask _ m); [cbn [monitor_step]; by rewrite (ready_working key st)|].
  intros value. by eapply result_follows.
Qed.

Lemma fetch_request_follows key st m id op text :
  Follows (Some key) st m -> request_id_key id = Some key -> phase_of st = Ready ->
  follows m (fetch_request st (Some id) op text) turn_done.
Proof.
  intros HF Hk Hr. assert (Href : forall code t, follows m (refuse st id code t) turn_done)
    by (intros; by eapply refuse_follows; [|intros ? [= <-] ]).
  unfold fetch_request. destruct (negb _); [done|]. destruct op as [op|]; [|done].
  apply follows_andthen, (follows_ask _ m); [cbn [monitor_step]; by rewrite (ready_working key st)|].
  intros [value|error]; [by eapply result_follows|done].
Qed.

Lemma tools_call_follows key st m message id :
  Follows (Some key) st m -> request_id_key id = Some key -> phase_of st = Ready ->
  follows m (on_tools_call environment config st message (Some id)) turn_done.
Proof.
  intros HF Hk Hr. assert (Href : forall code t, follows m (refuse st id code t) turn_done)
    by (intros; by eapply refuse_follows; [|intros ? [= <-] ]).
  unfold on_tools_call. destruct (negb _); [done|]. destruct (string_at_path _ _) as [name|]; [|done].
  destruct (tool_call_arguments_or_empty message) as [arguments|error]; [|done].
  apply follows_andthen, follows_emits.
  - eapply emits_impl; [|apply execute_tool_emits]. intros e He. pose proof (ready_working _ _ _ HF Hr) as Hw.
    destruct e; try contradiction; cbn [monitor_step]; by rewrite Hw.
  - intros [value|[text|text|text] ]; [by eapply result_follows|done|done|by eapply result_follows].
Qed.

Lemma initialize_follows key st m message id :
  Follows (Some key) st m -> request_id_key id = Some key -> follows m (on_initialize config st message (Some id)) turn_done.
Proof.
  intros HF Hk. unfold on_initialize. destruct (initialize_seen st) eqn:Ei; [by eapply refuse_follows; [|intros ? [= <-] ] |].
  destruct HF as [Hp Hord Hkeys Hs Ho]. assert (Hn : initialized_notification_seen st = false).
  { destruct (initialized_notification_seen st); [|done]. by rewrite Hord in Ei. }
  apply follows_andthen, (follows_emit _ (mkMonitor Initialized (mon_keys m) (mon_open m))).
  { cbn [monitor_step]. rewrite Hp, Ho. unfold phase_of. by rewrite Ei. }
  apply follows_andthen, follows_emits.
  - eapply emits_impl; [|apply bootstrap_emits]. intros e He. destruct e; try contradiction; cbn [monitor_step]; [|done].
    unfold working, starting. cbn [mon_open mon_phase]. rewrite Ho. cbn. by rewrite He.
  - intros notes. eapply result_follows; [|exact Hk]. split; try done. unfold phase_of. cbn. by rewrite Hn.
Qed.

Lemma dispatch_request_follows key st m message method id :
  Follows (Some key) st m -> request_id_key id = Some key -> method_is_notification method = false ->
  method = "initialize" \/ method = "ping" \/ phase_of st = Ready ->
  follows m (stdio_dispatch environment config st message method (Some id)) turn_done.
Proof.
  intros HF Hk Hn Hm. unfold stdio_dispatch.
  destruct (String.eqb_spec method "initialize") as [-> |H1]; [by eapply initialize_follows|].
  destruct (String.eqb_spec method "notifications/initialized") as [-> |_]; [by vm_compute in Hn|].
  destruct (String.eqb_spec method "notifications/cancelled") as [-> |_]; [by vm_compute in Hn|].
  destruct (String.eqb_spec method "ping") as [-> |H2]; [by eapply result_follows|].
  assert (Hr : phase_of st = Ready) by tauto.
  repeat match goal with
  | |- follows _ (if ?c then _ else _) _ => destruct c
  end; first [by eapply list_request_follows|by eapply fetch_request_follows|by eapply tools_call_follows|idtac].
  by eapply refuse_follows; [|intros ? [= <-] ].
Qed.

Lemma dispatch_notification_follows st m message method :
  Follows None st m -> method = "notifications/initialized" -> initialize_seen st = true ->
  follows m (stdio_dispatch environment config st message method None) turn_done.
Proof.
  intros HF -> Hi. unfold stdio_dispatch. cbn [String.eqb Ascii.eqb Bool.eqb]. destruct HF as [Hp Hord Hkeys Hs Ho].
  apply follows_andthen, (follows_emit _ (mkMonitor Ready (mon_keys m) None)).
  - cbn [monitor_step]. rewrite Hp, Ho. unfold phase_of. rewrite Hi. by destruct (initialized_notification_seen st).
  - apply follows_ret. split; try done. unfold phase_of. cbn. by rewrite Hi.
Qed.

Lemma dispatch_other_notification st message method :
  method <> "notifications/initialized" -> stdio_dispatch environment config st message method None = ret (Ok st).
Proof. intros Hn. unfold stdio_dispatch. apply String.eqb_neq in Hn. rewrite Hn. repeat case_match; reflexivity. Qed.

Lemma accept_request_follows st m message method id :
  Follows None st m -> (forall request, id = Some request -> method_is_notification method = false) ->
  method = "initialize" \/ method = "ping" \/ initialize_seen st = true /\ (method = "notifications/initialized" \/ phase_of st = Ready) ->
  follows m (accept_request environment config st message method id) turn_done.
Proof.
  intros HF Hn Hm. destruct id as [request|]; cbn [accept_request].
  - specialize (Hn _ eq_refl). assert (Href : forall code t, follows m (refuse st request code t) turn_done)
      by (intros; eapply refuse_follows; [exact HF|done]).
    unfold track_stdio_request_id. destruct (negb (is_request_id_value request)); [done|]. destruct (negb _); [done|].
    destruct (request_id_key request) as [key|] eqn:Ek; [|apply Href]. cbn [ok_or].
    destruct (one_of _ key) eqn:Ed; [done|]. destruct (N.leb_spec MAX_MCP_STDIO_REQUEST_IDS (len_N (seen_request_ids st))) as [Hf|Hf].
    + apply follows_andthen. eapply write_message_follows; [cbn [monitor_step]; by rewrite (follows_open _ _ _ HF)|].
      intros ok. by apply follows_ret.
    + destruct HF as [Hp Hord Hkeys Hs Ho]. assert (Hnew : key ∉ seen_request_ids st).
      { intros Hin%one_of_elem. congruence. }
      apply follows_andthen, (follows_emit _ (mkMonitor (mon_phase m) ({[key]} ∪ mon_keys m) (Some key))).
      { cbn [monitor_step]. rewrite Ho, Hkeys. cbn [is_some negb andb]. rewrite bool_decide_eq_false_2 by set_solver.
        rewrite size_list_to_set by (by apply sorted_set_NoDup). unfold len_N in Hf. by rewrite (proj2 (N.ltb_lt _ _)). }
      apply (dispatch_request_follows key); [|done..|].
      * split; try done; cbn; [|by apply set_insert_sorted]. rewrite Hkeys. apply set_eq. intros x.
        rewrite elem_of_union, elem_of_singleton, !elem_of_list_to_set, set_insert_elem. done.
      * destruct Hm as [-> |[-> |[_ [-> |Hr] ] ] ]; [by left|by right; left|by vm_compute in Hn|]. right; right. exact Hr.
  - destruct (decide (method = "notifications/initialized")) as [-> |Hne].
    + apply dispatch_notification_follows; [exact HF|reflexivity|]. destruct Hm as [Hm|[Hm|[Hm _] ] ]; [discriminate|discriminate|exact Hm].
    + rewrite dispatch_other_notification by done. by apply follows_ret.
Qed.

Lemma not_yet_follows st m id text : Follows None st m -> follows m (not_yet st id text) turn_done.
Proof. intros HF. destruct id as [id|]; [by eapply refuse_follows|by apply follows_ret]. Qed.

Lemma admit_method_follows st m message method id :
  Follows None st m -> (forall request, id = Some request -> method_is_notification method = false) ->
  follows m (admit_method environment config st message method id) turn_done.
Proof.
  intros HF Hn. unfold admit_method, one_of. cbn [existsb].
  destruct (String.eqb_spec method "initialize") as [Hi|Hi]; destruct (String.eqb_spec method "ping") as [Hp|Hp]; cbn [negb andb orb].
  1-3: rewrite ?andb_false_r; cbn [negb andb]; rewrite ?andb_false_r; apply accept_request_follows; tauto.
  destruct (initialize_seen st) eqn:Es; cbn [negb andb]; [|by apply not_yet_follows].
  destruct (initialized_notification_seen st) eqn:En; cbn [negb andb].
  - apply accept_request_follows; [done..|]. right; right. split; [done|]. right. unfold phase_of. by rewrite Es, En.
  - destruct (String.eqb_spec method "notifications/initialized") as [Hm|Hm]; cbn [negb orb]; [|by apply not_yet_follows].
    apply accept_request_follows; tauto.
Qed.

Lemma stdio_line_follows st m line : Follows None st m -> follows m (stdio_line environment config st line) turn_done.
Proof.
  intros HF. assert (Href : forall id code t, follows m (refuse st id code t) turn_done) by (intros; by eapply refuse_follows).
  unfold stdio_line. destruct (from_utf8 line) as [text|error].
  2: { apply follows_andthen, (follows_emit _ m); [done|]. by apply follows_ret. }
  destruct (str_is_empty _); [by apply follows_ret|]. destruct (parse_str _) as [message|error]; [|by eapply reply_follows].
  unfold stdio_message. destruct (validate_request_envelope message); [|apply Href].
  destruct (string_at_path message _) as [method|]; [|apply Href].
  destruct (request_id message) as [request|]; [|by apply admit_method_follows].
  destruct (method_is_notification method) eqn:En; [apply Href|]. destruct (negb _); [apply Href|]. by apply admit_method_follows.
Qed.

Definition stdio_exit (outcome : option Z) : Prop := outcome = Some 0%Z \/ outcome = Some 1%Z.

Lemma serve_loop_follows fuel st m arrivals :
  Follows None st m -> arrived arrivals < fuel ->
  follows m (serve_loop environment config fuel st arrivals) (fun outcome _ => stdio_exit outcome).
Proof.
  revert st m arrivals. induction fuel as [|fuel IH]; intros st m arrivals HF Hf; [lia|]. cbn [serve_loop].
  destruct (read_same_input _ arrivals arrivals stdio_limit eq_refl) as (line & rest & rest' & o & Hr & _ & _ & Ho). rewrite Hr.
  assert (Hend : forall t, follows m (_ ⇐ stderr_line t ;; ret (Some 1%Z) : Act World (option Z)) (fun outcome _ => stdio_exit outcome)).
  { intros t. apply follows_andthen, (follows_emit _ m); [done|]. apply follows_ret. by right. }
  destruct o as [ [| |]|error]; [apply follows_ret; by left| |apply Hend|apply Hend].
  apply follows_andthen. eapply follows_mono; [|by apply stdio_line_follows]. cbn beta. intros [st'|code] m'; cbn [turn_done].
  - intros HF'. apply IH; [done|]. specialize (Ho eq_refl). lia.
  - intros ->. apply follows_ret. by right.
Qed.

(** C11: every session keeps to the protocol, whatever arrives and whatever the host answers: a
    request is accepted only once under its id, no more than 4096 are, each is closed by a
    reply with its id before anything else is accepted, no tool, list or command runs outside
    an accepted request, and before the client is ready only the bootstrap of the hub does. *)
Theorem stdio_session_follows_protocol arrivals w :
  let es := events_of (serve environment config arrivals) w in
  is_some (monitor monitor_start es) = true
  /\ NoDup (accepted es) /\ (len_N (accepted es) <= MAX_MCP_STDIO_REQUEST_IDS)%N.
Proof.
  cbn zeta. destruct (serve_loop_follows (S (arrived arrivals)) _ _ arrivals follows_start ltac:(lia) w) as (m' & Hm & _).
  fold (serve environment config arrivals) in Hm. rewrite Hm.
  apply monitor_keys in Hm as (HK & Hn & _ & Hs); [|by vm_compute]. split; [done|]. split; [done|].
  rewrite HK in Hs. change (mon_keys monitor_start) with (∅ : gset string) in Hs. rewrite union_empty_r_L in Hs.
  rewrite size_list_to_set in Hs by done. exact Hs.
Qed.

(** C21: the server returns on every input, with exit code 0 or 1; the fuel is one more than the
    number of bytes that arrive, since every line has one at least. *)
Theorem stdio_server_returns arrivals w : stdio_exit (serve environment config arrivals w).2.
Proof.
  destruct (serve_loop_follows (S (arrived arrivals)) _ _ arrivals follows_start ltac:(lia) w) as (m' & _ & He). exact He.
Qed.
End protocol.

(** ** Starting the hub *)

Section startup.
Context {World : Type} `{Host World} `{SerdeJson}.
Context (config : ServerConfig).

(** What a hub command of the bootstrap reports. *)
Definition hub_answer (verb : string) (w : World) : World * result JsonValue ToolCallError :=
  let '(w, output) := host_run (hub_arguments config verb) w in (w, command_result RequireSuccessfulExit output).

Lemma hub_command_answer verb w :
  hub_command config verb w = ((hub_answer verb w).1, [RanCommand (hub_arguments config verb)], (hub_answer verb w).2).
Proof.
  unfold hub_command, run_json_command, run_app_json_command, run_internal, andthen, ask, hub_answer.
  change (["hub"; verb; "--json"] ++ ["--root"; root_path config]) with (hub_arguments config verb).
  by destruct (host_run (hub_arguments config verb) w) as [w' output].
Qed.

Lemma bootstrap_events w w' status_json :
  hub_answer "status" w = (w', Ok status_json) ->
  events_of (bootstrap_hub_runtime config) w
  = RanCommand (hub_arguments config "status") :: events_of (bring_up config status_json) w'.
Proof.
  intros Ha. unfold events_of, bootstrap_hub_runtime, andthen at 1. rewrite hub_command_answer, Ha. cbn [fst snd].
  by destruct (bring_up config status_json w') as [ [w2 es2] notes].
Qed.

Lemma bring_up_stale status_json w :
  hub_status_of status_json = "stale" -> RanCommand (hub_arguments config "down") ∈ events_of (bring_up config status_json) w.
Proof.
  intros Hs. unfold bring_up. match goal with |- context [unless_ended ?m ?k] => generalize k; intros rest end.
  unfold events_of, unless_ended, recover_if. rewrite Hs. cbn [String.eqb Ascii.eqb Bool.eqb]. unfold recover, andthen.
  rewrite hub_command_answer. destruct (hub_answer "down" w) as [w2 [o|e] ]; cbn [fst snd]; [rewrite hub_command_answer|];
    repeat case_match; simplify_eq; cbn [fst snd app]; set_solver.
Qed.

Lemma bring_up_not_stale status_json :
  hub_status_of status_json <> "stale" -> emits (fun e => e <> RanCommand (hub_arguments config "down")) (bring_up config status_json).
Proof.
  intros Hs. unfold bring_up. apply unless_ended_emits; [rewrite (proj2 (String.eqb_neq _ _) Hs); apply emits_ret|].
  intros [n j]. do 2 (apply unless_ended_emits; [by apply recover_if_emits|intros [? ?] ]). emits_steps. by apply stderr_lines_emits.
Qed.

Lemma bring_up_live status_json :
  hub_is_live (hub_status_of status_json) = true -> emits (fun e => forall arguments, e <> RanCommand arguments) (bring_up config status_json).
Proof.
  intros Hl w. assert (Hs : hub_status_of status_json <> "stale" /\ hub_status_of status_json <> "corrupt").
  { split; intros E; rewrite E in Hl; by vm_compute in Hl. }
  destruct Hs as [Hst%String.eqb_neq Hco%String.eqb_neq]. unfold events_of, bring_up, unless_ended, recover_if, andthen.
  rewrite Hst. cbn [ret app]. rewrite Hco. cbn [ret app]. rewrite Hl. cbn [negb ret app].
  match goal with |- context [stderr_lines ?n w] =>
    pose proof (stderr_lines_emits (fun e => forall a, e <> RanCommand a) ltac:(done) n w) as Hq; unfold events_of in Hq;
    destruct (stderr_lines n w) as [ [w2 es2] u] end.
  cbn [ret app fst snd] in *. by rewrite app_nil_r.
Qed.

(** The hub is stopped when its status is stale and only then, and a hub that is running,
    starting or stopping is asked for its status and left alone. *)
Theorem hub_recovery_matches_status w w' status_json :
  hub_answer "status" w = (w', Ok status_json) ->
  let es := events_of (bootstrap_hub_runtime config) w in
  (RanCommand (hub_arguments config "down") ∈ es <-> hub_status_of status_json = "stale")
  /\ (hub_is_live (hub_status_of status_json) = true ->
      forall arguments, RanCommand arguments ∈ es -> arguments = hub_arguments config "status").
Proof.
  intros Ha es. unfold es. rewrite (bootstrap_events w w' status_json) by done. split; [split|].
  - intros [Hin|Hin]%elem_of_cons; [discriminate|]. destruct (decide (hub_status_of status_json = "stale")) as [|Hs]; [done|].
    pose proof (bring_up_not_stale _ Hs w') as Hq. rewrite Forall_forall in Hq. by destruct (Hq _ Hin).
  - intros Hs. apply elem_of_cons. right. by apply bring_up_stale.
  - intros Hl arguments [Hin|Hin]%elem_of_cons; [by injection Hin|].
    pose proof (bring_up_live _ Hl w') as Hq. rewrite Forall_forall in Hq. by destruct (Hq _ Hin arguments).
Qed.
End startup.

(** ** Replies *)

Definition replies_of (es : list Event) : list JsonValue :=
  omap (fun e => match e with Replied message => Some message | _ => None end) es.

Definition unreplied (e : Event) : Prop := forall message, e <> Replied message.

Lemma unreplied_none es : Forall unreplied es -> replies_of es = [].
Proof. induction 1 as [|e es He _ IH]; [done|]. unfold replies_of in *. destruct e; cbn; try exact IH. by destruct (He message). Qed.

Section replies.
Context {World : Type} `{Host World} `{SerdeJson}.
Context (environment : string -> option string) (config : ServerConfig).
Implicit Types (st : ServeState) (id : JsonValue).

(** A response to the id: with a result or an error and not both. *)
Definition response_to id (message : JsonValue) : Prop :=
  request_id message = Some id /\ is_some (json_get message "result") = negb (is_some (json_get message "error")).

Lemma result_response id value : response_to id (rpc_result id value).
Proof. by vm_compute. Qed.

Lemma error_response id code text data : response_to id (rpc_error id code text data).
Proof. by destruct data. Qed.
#[local] Hint Resolve result_response error_response : core.

(** The step replies once, with the id. *)
Definition answers {A} id (act : Act World A) : Prop :=
  forall w, exists message, replies_of (events_of act w) = [message] /\ response_to id message.

Lemma replies_andthen {A B} (m : Act World A) (k : A -> Act World B) w :
  exists w' a, replies_of (events_of (andthen m k) w) = replies_of (events_of m w) ++ replies_of (events_of (k a) w').
Proof.
  unfold events_of, andthen. destruct (m w) as [ [w' es] a]. exists w', a. destruct (k a w') as [ [w'' es'] b]. cbn [fst snd].
  unfold replies_of. by rewrite omap_app.
Qed.

Lemma answers_after {A B} id (m : Act World A) (k : A -> Act World B) :
  emits unreplied m -> (forall a, answers id (k a)) -> answers id (andthen m k).
Proof.
  intros Hm Hk w. destruct (replies_andthen m k w) as (w' & a & ->). rewrite (unreplied_none _ (Hm w)). apply Hk.
Qed.

Lemma write_message_replies message w : replies_of (events_of (write_message message : Act World bool) w) = [message].
Proof.
  unfold write_message. match goal with |- context [andthen (emit _) ?k] => set (rest := k) end.
  assert (Hq : emits unreplied (rest tt)).
  { unfold rest. do 2 (apply emits_andthen; [apply emits_silent|intros []; cbn [negb]; [|apply emits_ret] ]). apply emits_silent. }
  destruct (replies_andthen (emit (Replied message)) rest w) as (w' & [] & ->). by rewrite (unreplied_none _ (Hq w')).
Qed.

Lemma reply_replies st message w : replies_of (events_of (reply st message : Turn) w) = [message].
Proof.
  unfold reply. match goal with |- context [andthen _ ?k] => set (rest := k) end.
  destruct (replies_andthen (write_message message) rest w) as (w' & ok & ->). by rewrite write_message_replies.
Qed.

Lemma reply_answers st message id : response_to id message -> answers id (reply st message : Turn).
Proof. intros Hi w. exists message. by rewrite reply_replies. Qed.

Lemma refuse_answers st id code text : answers id (refuse st id code text : Turn).
Proof. apply reply_answers. auto. Qed.

Lemma result_answers st id value : answers id (reply st (rpc_result id value) : Turn).
Proof. apply reply_answers. auto. Qed.
#[local] Hint Resolve refuse_answers result_answers : core.

Lemma stdio_initialize_answers st message id : answers id (on_initialize config st message (Some id)).
Proof.
  unfold on_initialize. destruct (initialize_seen st); [auto|]. apply answers_after; [by apply emits_emit|intros _].
  apply answers_after; [|auto]. eapply emits_impl; [|apply bootstrap_emits]. by intros [].
Qed.

Lemma list_request_answers st id l : answers id (list_request st (Some id) l).
Proof. unfold list_request. destruct (negb _); [auto|]. apply answers_after; [by apply emits_ask|auto]. Qed.

Lemma fetch_request_answers st id op text : answers id (fetch_request st (Some id) op text).
Proof.
  unfold fetch_request. destruct (negb _); [auto|]. destruct op as [op|]; [|auto]. apply answers_after; [by apply emits_ask|].
  intros []; auto.
Qed.

Lemma tools_call_answers st message id : answers id (on_tools_call environment config st message (Some id)).
Proof.
  unfold on_tools_call. destruct (negb _); [auto|]. destruct (string_at_path _ _) as [name|]; [|auto].
  destruct (tool_call_arguments_or_empty message) as [arguments|error]; [|auto]. apply answers_after.
  - eapply emits_impl; [|apply execute_tool_emits]. by intros [].
  - intros [value|[text|text|text] ]; auto.
Qed.
#[local] Hint Resolve stdio_initialize_answers list_request_answers fetch_request_answers tools_call_answers : core.

Lemma stdio_dispatch_answers st message method id :
  method_is_notification method = false -> answers id (stdio_dispatch environment config st message method (Some id)).
Proof.
  intros Hn. unfold stdio_dispatch, on_ping.
  destruct (String.eqb_spec method "notifications/initialized") as [-> |_]; [by vm_compute in Hn|].
  destruct (String.eqb_spec method "notifications/cancelled") as [-> |_]; [by vm_compute in Hn|].
  repeat match goal with |- answers _ (if ?c then _ else _) => destruct c end; auto.
Qed.

Lemma accept_request_answers st message method id :
  method_is_notification method = false -> answers id (accept_request environment config st message method (Some id)).
Proof.
  intros Hn. unfold accept_request. destruct (track_stdio_request_id _ _) as [ [key seen]|[| | |] ]; auto.
  - apply answers_after; [by apply emits_emit|intros _]. by apply stdio_dispatch_answers.
  - intros w. match goal with |- context [andthen ?m ?k] => destruct (replies_andthen m k w) as (w' & ok & ->) end.
    rewrite write_message_replies. eexists. split; [reflexivity|]. auto.
Qed.

Lemma admit_method_answers st message method id :
  method_is_notification method = false -> answers id (admit_method environment config st message method (Some id)).
Proof. intros Hn. unfold admit_method, not_yet. destruct (_ && _); [by auto|]. destruct (_ && _); [by auto|]. by apply accept_request_answers. Qed.

Lemma notification_unreplied st message method : emits unreplied (admit_method environment config st message method None).
Proof.
  unfold admit_method, not_yet. destruct (_ && _); [apply emits_ret|]. destruct (_ && _); [apply emits_ret|]. cbn [accept_request].
  destruct (decide (method = "notifications/initialized")) as [-> |Hne].
  - unfold stdio_dispatch. cbn [String.eqb Ascii.eqb Bool.eqb]. by emits_steps.
  - rewrite dispatch_other_notification by done. apply emits_ret.
Qed.

Lemma validated_method message : validate_request_envelope message = Ok tt -> is_some (string_at_path message ["method"]) = true.
Proof.
  destruct message as [| | | | |object]; try done. unfold validate_request_envelope. cbn [as_object ok_or].
  destruct (require_version _ _); [|done]. unfold require_method, string_at_path, value_at_path. cbn.
  by destruct (bt_get "method" object) as [ []|].
Qed.

(** C34: a request is answered once, under its id and with a result or an error and not both,
    and a notification not at all, in every state of the session and whatever the host does;
    a message that is neither gets exactly one reply, the error of an invalid request, under
    its id when it has one and null otherwise. *)
Theorem stdio_requests_answered_once st message w :
  let replies := replies_of (events_of (stdio_message environment config st message) w) in
  match validate_request_envelope message, request_id message with
  | Ok _, None => replies = []
  | Ok _, Some id => exists answer, replies = [answer] /\ response_to id answer
  | Err error, _ =>
      replies = [rpc_error (request_id_or_null message) ERROR_INVALID_REQUEST (display_protocol_error error) None]
  end.
Proof.
  cbn zeta. pose proof (validated_method message) as Hm. unfold stdio_message.
  destruct (validate_request_envelope message) as [ []|error]; [|apply reply_replies]. specialize (Hm eq_refl).
  destruct (string_at_path message ["method"]) as [method|]; [|done].
  destruct (request_id message) as [id|]; [|apply unreplied_none, notification_unreplied].
  destruct (method_is_notification method) eqn:En; [apply refuse_answers|]. destruct (negb _); [apply refuse_answers|].
  by apply admit_method_answers.
Qed.
End replies.

(** ** Startup notes *)

(** The front of a text up to a visible character is kept by [trim], when it begins with one. *)
Lemma visible_middle a b c : visible a = true -> ws3 b a c = false.
Proof.
  intros [H1 H2]%andb_true_iff. apply N.leb_le in H1, H2. apply not_true_is_false. unfold ws3, in_range. intros H.
  repeat (bool_prop; destruct_or?); lia.
Qed.

Lemma drop_back_visible a k t :
  visible a = true ->
  exists k', drop_front ws1 (fun b a => ws2 a b) (fun c b a => ws3 a b c) (k ++ a :: t) = k' ++ a :: t.
Proof.
  intros Ha. induction k as [k IH] using (induction_ltof1 _ (@length ascii)); unfold ltof in IH.
  destruct k as [|x k]; [exists []; by apply drop_front_id, back_clean_visible|]. cbn [app]. rewrite drop_front_unfold.
  destruct (ws1 x); [apply IH; cbn [length]; lia|]. destruct k as [|y k]; cbn [app].
  - destruct (visible_not_ws a x x Ha) as (_ & Hw & _). rewrite Hw. destruct t as [|c t]; [by exists [x]|].
    rewrite visible_middle by done. by exists [x].
  - destruct (ws2 y x); [apply IH; cbn [length]; lia|]. destruct k as [|z k]; cbn [app].
    + destruct (visible_not_ws a y x Ha) as (_ & _ & Hw & _). rewrite Hw. by exists [x; y].
    + destruct (ws3 z y x); [apply IH; cbn [length]; lia|]. by exists (x :: y :: z :: k).
Qed.

Lemma trim_end_front p c r : visible c = true -> exists r', trim_end_bytes (p ++ c :: r) = p ++ c :: r'.
Proof.
  intros Hc. unfold trim_end_bytes. rewrite rev_app_distr. cbn [rev]. rewrite <- app_assoc. cbn [app].
  destruct (drop_back_visible c (rev r) (rev p) Hc) as [k' ->]. exists (rev k'). rewrite rev_app_distr. cbn [rev].
  by rewrite rev_involutive, <- app_assoc.
Qed.

Lemma trim_keeps_front a label c rest :
  visible a = true -> visible c = true -> exists rest', trim (String a label +:+ String c rest) = String a label +:+ String c rest'.
Proof.
  intros Ha Hc. unfold trim, trim_start_bytes. rewrite drop_front_id by (rewrite append_cons; by apply front_clean_visible).
  rewrite bytes_app. destruct (trim_end_front (bytes (String a label)) c (bytes rest) Hc) as [r' Hr].
  exists (of_bytes r'). apply bytes_inj. rewrite bytes_of_bytes, bytes_app.
  change (bytes (String c ?x)) with (c :: bytes x). by rewrite bytes_of_bytes, Hr.
Qed.

Lemma str_contains_front needle s t : str_contains needle s = true -> str_contains needle (s +:+ t) = true.
Proof.
  assert (Hp : forall p x, starts_with p x = true -> starts_with p (x +:+ t) = true).
  { intros p. induction p as [|a p IH]; intros [|b x]; try done; [by destruct t|]. unfold starts_with. rewrite append_cons. cbn.
    destruct (ascii_dec a b); [apply IH|done]. }
  induction s as [|a s IH].
  - destruct needle; [by destruct t|done].
  - cbn [str_contains]. rewrite append_cons. cbn [str_contains]. intros [H|H]%orb_true_iff; apply orb_true_iff; [left|right; by apply IH].
    by apply (Hp _ (String a s)).
Qed.

(** What the notes of a bootstrap that failed begin with. *)
Definition failure_labels : list string :=
  ["hub status check failed"; "failed to clean stale hub state automatically"; "hub status refresh failed after stale cleanup";
   "failed to repair corrupt hub state automatically"; "hub status refresh failed after repair"; "failed to start hub automatically";
   "hub status refresh failed after startup"].

Lemma failed_note_public a label details :
  visible a = true -> contains_char ":" (String a label) = false -> trim (String a label) = String a label ->
  str_contains "failed" (to_ascii_lowercase (String a label)) = true ->
  public_startup_note (String a label +:+ ": " +:+ details)
  = String a label +:+ "; details withheld from initialize response; check local MCPace logs.".
Proof.
  intros Ha Hc Ht Hf. unfold public_startup_note.
  destruct (trim_keeps_front a label ":" (String " " details) Ha eq_refl) as [rest Hr].
  change (": " +:+ details) with (String ":" (String " " details)). rewrite Hr, lower_app, str_contains_front by done. cbn [negb andb].
  rewrite split_char_app, split_char_plain by done. cbn [app head option_map]. by rewrite Ht.
Qed.

(** The text of an error that a startup command gave is not shown to the client: a note that
    reports a failure is answered with its label alone, whatever the details are. *)
Theorem startup_failures_are_withheld label details :
  label ∈ failure_labels ->
  public_startup_note (label +:+ ": " +:+ details)
  = label +:+ "; details withheld from initialize response; check local MCPace logs.".
Proof.
  intros Hl. repeat (apply elem_of_cons in Hl as [-> |Hl]; [by apply failed_note_public; vm_compute|]). by apply not_elem_of_nil in Hl.
Qed.

(** ** Witnesses *)

Lemma startup_failures_are_withheld_witness :
  public_startup_note "hub status check failed: /home/user/secret: permission denied"
  = "hub status check failed; details withheld from initialize response; check local MCPace logs.".
Proof. apply (startup_failures_are_withheld "hub status check failed" "/home/user/secret: permission denied"). set_solver. Defined.

Lemma stdio_read_in_any_pieces_witness :
  serve (H := sample_host) (H0 := TreeCodec.codec) (fun _ => None) sample_stdio [Bytes (bytes "{}"); Bytes [newline]] tt
  = serve (H := sample_host) (H0 := TreeCodec.codec) (fun _ => None) sample_stdio [Bytes (bytes "{"); Bytes (bytes "}" ++ [newline])] tt.
Proof.
  apply (stdio_read_in_any_pieces (H := sample_host) (H0 := TreeCodec.codec) _ _ [bytes "{}"; [newline] ] [bytes "{"; bytes "}" ++ [newline] ]);
    [by repeat constructor..|reflexivity].
Defined.

(** A host whose hub reports a status. *)
Definition status_host (status : string) : Host unit := {|
  host_run _ w := (w, mkOutput 0 (bytes (to_compact_string (H := TreeCodec.codec) (JObject [("status", JString status)]))) []);
  host_resolve _ _ w := (w, Ok None);
  host_perform _ w := (w, Ok empty_object);
  host_list _ w := (w, empty_object);
  host_write _ w := (w, true);
  host_flush w := (w, true) |}.

Lemma hub_recovery_matches_status_witness :
  RanCommand (hub_arguments sample_stdio "down")
  ∈ events_of (bootstrap_hub_runtime (H := status_host "stale") (H0 := TreeCodec.codec) sample_stdio) tt.
Proof.
  apply (hub_recovery_matches_status (H := status_host "stale") (H0 := TreeCodec.codec) sample_stdio tt tt
           (JObject [("status", JString "stale")])); [by vm_compute|reflexivity].
Defined.

(** A session: it is initialized, a request comes too early, the client is ready, and an id
    is used twice. *)
Definition line_text (message : JsonValue) : list ascii := bytes (to_compact_string (H := TreeCodec.codec) message) ++ [newline].

Definition rpc_message (method : string) (id : option N) : JsonValue :=
  json_object ([("jsonrpc", JString "2.0"); ("method", JString method)]
               ++ match id with Some n => [("id", JNumber (N_to_string n))] | None => [] end).

Definition sample_session : list Arrival :=
  [Bytes (line_text (rpc_message "initialize" (Some 1%N))); Bytes (line_text (rpc_message "tools/list" (Some 2%N)));
   Bytes (line_text (rpc_message "notifications/initialized" None)); Bytes (line_text (rpc_message "prompts/list" (Some 2%N)));
   Bytes (line_text (rpc_message "prompts/list" (Some 2%N)))].

Lemma sample_session_events :
  let '(_, es, outcome) :=
    serve (H := status_host "running") (H0 := TreeCodec.codec) (fun _ => None) sample_stdio sample_session tt in
  outcome = Some 0%Z /\ accepted es = ["n:1"; "n:2"]
  /\ List.filter (fun e => match e with Replied _ | RequestAccepted _ => false | _ => true end) es
     = [SessionInitialized; RanCommand (hub_arguments sample_stdio "status"); SessionReady; Listed (ListPromptsOf None)]
  /\ map (fun answer => is_some (value_at_path answer ["error"])) (replies_of es) = [false; true; false; true].
Proof. vm_compute. repeat split. Qed.
