(* ===== verification/HubRuntime.v ===== *)
(** * The files of the hub (src/hub/runtime.rs, src/hub/model.rs, src/runtimepaths.rs)

    The hub keeps its state in files that several processes read and write: the commands that
    start, stop and repair it, and the process that runs.  A command is a program ([Prog])
    over the system calls it makes ([Op]), so that the calls of several processes can be
    interleaved; every call may fail where the source handles a failure.

    [exec] is a file system on which no call fails, with one clock that moves only in
    [Sleep].  A file is its contents and a number of its own: what is written through a
    handle after the file was removed or replaced is lost. *)

From Stdlib Require Import Ascii.
From stdpp Require Import functions.
From S2P Require Import Prelude RustStr BTree Json TextUtils Execution LeaseRoute ServerConfig.

(** ** Paths *)

Inductive RuntimeFile :=
| ProjectRegistry
| HubState
| HubHealth
| HubLog
| HubLogArchive
| HubStop
| HubLock
| HubLeases
| Archived (file : RuntimeFile) (at_ms : N).

#[export] Instance RuntimeFile_eq_dec : EqDecision RuntimeFile.
Proof. solve_decision. Defined.

Definition runtime_dir (state_root : string) : string := path_join (path_join state_root "data") "runtime".

Definition hub_dir (state_root : string) : string := path_join (runtime_dir state_root) "hub".

Definition rotated_log_name (file_name : string) : string := file_name +:+ ".1".

Definition archive_name (file_name : string) (at_ms : N) : string := file_name +:+ ".corrupt-" +:+ N_to_string at_ms.

Fixpoint file_name (f : RuntimeFile) : string :=
  match f with
  | ProjectRegistry => "project-registry.json"
  | HubState => "state.json"
  | HubHealth => "health.json"
  | HubLog => "events.log"
  | HubLogArchive => rotated_log_name "events.log"
  | HubStop => "stop.signal"
  | HubLock => "lock.json"
  | HubLeases => "leases.json"
  | Archived f at_ms => archive_name (file_name f) at_ms
  end.

Fixpoint parent_of (state_root : string) (f : RuntimeFile) : string :=
  match f with
  | ProjectRegistry => runtime_dir state_root
  | Archived f _ => parent_of state_root f
  | _ => hub_dir state_root
  end.

Definition path_of (state_root : string) (f : RuntimeFile) : string := path_join (parent_of state_root f) (file_name f).

Definition hub_log_path (state_root : string) : string := path_of state_root HubLog.
Definition hub_leases_path (state_root : string) : string := path_of state_root HubLeases.

(** [resolve_state_root]: paths are those of Unix. *)
Definition absolutize_or_root (root_path : string) (candidate : option string) : string :=
  match candidate with
  | Some path => if negb (str_is_empty path) then path_join root_path path else root_path
  | None => root_path
  end.

(** ** System calls *)

Inductive Removal := Removed | RemoveNotFound | RemoveFailed (error : string).
Inductive Creation := Created (handle : nat) | AlreadyExists | CreateFailed (error : string).
Inductive Measure := Length (bytes : N) | NoSuchFile | MeasureFailed (error : string).

Record ReadinessReport := mkReadiness {
  config_version : option string;
  active_profile : string;
  profile_selection_source : string;
  server_count : N;
  required_server_count : N;
  profile_enabled_server_count : N;
  source_enabled_server_count : N;
  effective_enabled_server_count : N;
  missing_required_source_enablement : list string;
  missing_profile_source_enablement : list string;
  missing_required_commands : list string;
  missing_profile_commands : list string;
  ready_for_read_only_ops : bool;
  ready_for_runtime_ops : bool
}.

(** Each call with the type of what it answers; an error is its text. *)
Inductive Op : Type -> Type :=
| EnsureDir (dir : string) : Op (result unit string)
| CreateParent (f : RuntimeFile) : Op (result unit string)
| IsFile (f : RuntimeFile) : Op bool
| ReadText (f : RuntimeFile) : Op (result string string)
| WriteAtomic (f : RuntimeFile) (contents : string) : Op (result unit string)
| RemoveFile (f : RuntimeFile) : Op Removal
| RenameFile (source target : RuntimeFile) : Op (result unit string)
| CreateNew (f : RuntimeFile) : Op Creation
| WriteHandle (f : RuntimeFile) (handle : nat) (contents : string) : Op (result unit string)
| FileLength (f : RuntimeFile) : Op Measure
| OpenAppend (f : RuntimeFile) : Op (result nat string)
| AppendLine (f : RuntimeFile) (handle : nat) (line : string) : Op (result unit string)
| Clock : Op N
| Sleep (ms : N) : Op unit
| CollectReadiness : Op (result ReadinessReport string)
| CurrentExe : Op (result unit string)
| SpawnHub : Op (result unit string)
| StdoutLine (line : string) : Op unit
| StderrLine (line : string) : Op unit.

Inductive Prog (A : Type) : Type :=
| Done (a : A)
| Call {X : Type} (op : Op X) (k : X -> Prog A).
Arguments Done {A} a.
Arguments Call {A X} op k.

Fixpoint prog_bind {A B} (p : Prog A) (k : A -> Prog B) : Prog B :=
  match p with
  | Done a => k a
  | Call op k' => Call op (fun x => prog_bind (k' x) k)
  end.

Definition call {X} (op : Op X) : Prog X := Call op Done.

Notation "x ⇠ p ;; k" := (prog_bind p (fun x => k)) (at level 100, p at next level, right associativity) : mcpace_scope.

(** The early return of [?]. *)
Definition prog_try {A B E} (p : Prog (result A E)) (k : A -> Prog (result B E)) : Prog (result B E) :=
  prog_bind p (fun r => match r with Ok a => k a | Err e => Done (Err e) end).

Notation "x ⇠? p ;; k" := (prog_try p (fun x => k)) (at level 100, p at next level, right associativity) : mcpace_scope.

(** [map_err] on what a call answers. *)
Definition call_err {X} (op : Op (result X string)) (text : string -> string) : Prog (result X string) :=
  r ⇠ call op ;; Done (map_err text r).

Definition now_ms : Prog N := call Clock.

(** ** JSON files *)

Record JsonFileDiagnostic := mkDiagnostic {
  diagnostic_file : RuntimeFile;
  exists_file : bool;
  diagnostic_value : option JsonValue;
  diagnostic_error : option string
}.

Record CorruptedRuntimeFile := mkCorrupted { corrupted_path : string; corrupted_reason : string }.

Section runtime.
Context `{SerdeJson} (environment : string -> option string) (root_path : string).

Definition state_root : string := absolutize_or_root root_path (environment "MCPACE_STATE_ROOT").

Definition path_text (f : RuntimeFile) : string := path_of state_root f.

Definition corruption (diagnostic : JsonFileDiagnostic) : option CorruptedRuntimeFile :=
  option_map (mkCorrupted (path_text (diagnostic_file diagnostic))) (diagnostic_error diagnostic).

Definition parsed_diagnostic (f : RuntimeFile) (raw : result string string) : JsonFileDiagnostic :=
  match raw with
  | Err error => mkDiagnostic f true None (Some ("failed to read " +:+ path_text f +:+ ": " +:+ error))
  | Ok raw =>
      match parse_str raw with
      | Ok value => mkDiagnostic f true (Some value) None
      | Err error => mkDiagnostic f true None (Some ("failed to parse " +:+ path_text f +:+ ": " +:+ error))
      end
  end.

Definition read_json_diagnostic (f : RuntimeFile) : Prog JsonFileDiagnostic :=
  is_file ⇠ call (IsFile f) ;;
  if negb is_file then Done (mkDiagnostic f false None None)
  else raw ⇠ call (ReadText f) ;; Done (parsed_diagnostic f raw).

Definition write_atomic (f : RuntimeFile) (contents : string) : Prog (result unit string) := call (WriteAtomic f contents).

Definition remove_if_present (f : RuntimeFile) : Prog (result unit string) :=
  outcome ⇠ call (RemoveFile f) ;;
  Done (match outcome with
        | Removed | RemoveNotFound => Ok tt
        | RemoveFailed error => Err ("failed to remove " +:+ path_text f +:+ ": " +:+ error)
        end).

Definition seed_json_if_missing (f : RuntimeFile) (value : JsonValue) : Prog (result bool string) :=
  is_file ⇠ call (IsFile f) ;;
  if is_file then Done (Ok false)
  else
    _ ⇠? call_err (CreateParent f) (fun error => "failed to create " +:+ parent_of state_root f +:+ ": " +:+ error) ;;
    _ ⇠? write_atomic f (to_pretty_string value) ;;
    Done (Ok true).

Definition default_project_registry : JsonValue := json_object [("version", json_number 1); ("projects", JObject [])].

Definition default_lease_store (now : N) : JsonValue :=
  json_object [("version", json_number 2); ("leases", JObject []); ("sessions", JObject []); ("updatedAtMs", json_number now)].

Definition ensure_runtime_layout : Prog (result unit string) :=
  _ ⇠? call (EnsureDir (runtime_dir state_root)) ;;
  _ ⇠? call (EnsureDir (hub_dir state_root)) ;;
  _ ⇠? seed_json_if_missing ProjectRegistry default_project_registry ;;
  now ⇠ now_ms ;;
  _ ⇠? seed_json_if_missing HubLeases (default_lease_store now) ;;
  Done (Ok tt).

(** ** The log *)

Definition DEFAULT_MAX_LOG_BYTES : N := 1048576.

Definition max_log_bytes : N :=
  unwrap_or (opt_filter (fun value => (0 <? value)%N) (environment "MCPACE_HUB_LOG_MAX_BYTES" ≫= fun value => parse_u64 (trim value)))
    DEFAULT_MAX_LOG_BYTES.

Definition rotate_logs_if_needed_with_max (max_bytes : N) : Prog (result bool string) :=
  measured ⇠ call (FileLength HubLog) ;;
  match measured with
  | NoSuchFile => Done (Ok false)
  | MeasureFailed error => Done (Err ("failed to inspect " +:+ path_text HubLog +:+ ": " +:+ error))
  | Length bytes =>
      if (bytes <? max_bytes)%N then Done (Ok false)
      else
        is_file ⇠ call (IsFile HubLogArchive) ;;
        _ ⇠? (if is_file : bool then remove_if_present HubLogArchive else Done (Ok tt)) ;;
        _ ⇠? call_err (RenameFile HubLog HubLogArchive)
               (fun error => "failed to rotate " +:+ path_text HubLog +:+ " to " +:+ path_text HubLogArchive +:+ ": " +:+ error) ;;
        Done (Ok true)
  end.

Definition rotate_logs_if_needed : Prog (result bool string) := rotate_logs_if_needed_with_max max_log_bytes.

Definition append_failed (error : string) : string := "failed to append " +:+ path_text HubLog +:+ ": " +:+ error.

Definition rotation_line (now : N) : JsonValue :=
  json_object
    [("tsMs", json_number now); ("level", json_string "warn"); ("event", json_string "hub_log_rotated");
     ("archivedPath", json_string (path_text HubLogArchive)); ("maxBytes", json_number max_log_bytes)].

Definition append_log (level event : string) (fields : list (string * JsonValue)) : Prog (result unit string) :=
  _ ⇠? call (EnsureDir (hub_dir state_root)) ;;
  rotated ⇠? rotate_logs_if_needed ;;
  handle ⇠? call_err (OpenAppend HubLog) (fun error => "failed to open " +:+ path_text HubLog +:+ ": " +:+ error) ;;
  _ ⇠? (if rotated : bool
        then now ⇠ now_ms ;; call_err (AppendLine HubLog handle (to_compact_string (rotation_line now))) append_failed
        else Done (Ok tt)) ;;
  now ⇠ now_ms ;;
  let line := json_object ([("tsMs", json_number now); ("level", json_string level); ("event", json_string event)] ++ fields) in
  call_err (AppendLine HubLog handle (to_compact_string line)) append_failed.

(** ** The state of the hub *)

Definition optional_number (value : option N) : JsonValue := match value with Some number => json_number number | None => JNull end.

Definition state_json (status : string) (pid started_at_ms last_exit_at_ms : option N) : JsonValue :=
  json_object
    [("status", json_string status); ("rootPath", json_string root_path); ("stateRoot", json_string state_root);
     ("runtimeDir", json_string (runtime_dir state_root)); ("hubDir", json_string (hub_dir state_root));
     ("logPath", json_string (hub_log_path state_root)); ("leaseStorePath", json_string (hub_leases_path state_root));
     ("pid", optional_number pid); ("startedAtMs", optional_number started_at_ms); ("lastExitAtMs", optional_number last_exit_at_ms)].

Definition write_state_metadata (status : string) (pid started_at_ms last_exit_at_ms : option N) : Prog (result unit string) :=
  write_atomic HubState (to_pretty_string (state_json status pid started_at_ms last_exit_at_ms)).

Definition health_json (status : string) (pid started_at_ms last_heartbeat_at_ms : N) : JsonValue :=
  json_object
    [("status", json_string status); ("pid", json_number pid); ("startedAtMs", json_number started_at_ms);
     ("lastHeartbeatAtMs", json_number last_heartbeat_at_ms)].

Definition write_health_metadata (status : string) (pid started_at_ms last_heartbeat_at_ms : N) : Prog (result unit string) :=
  write_atomic HubHealth (to_pretty_string (health_json status pid started_at_ms last_heartbeat_at_ms)).

Definition mark_stopped : Prog (result unit string) :=
  _ ⇠? remove_if_present HubStop ;;
  _ ⇠? remove_if_present HubHealth ;;
  _ ⇠? remove_if_present HubLock ;;
  stop_ms ⇠ now_ms ;;
  _ ⇠ append_log "warn" "hub_marked_stopped" [("reason", json_string "stale-state-cleanup")] ;;
  write_state_metadata "stopped" None None (Some stop_ms).

(** ** The lock of the running hub *)

(** [as_i64] and the conversion to an unsigned type. *)
Definition owner_number (max : N) (value : option JsonValue) (key : string) : option N :=
  match value ≫= (fun value => value_at_path value [key]) with
  | Some number =>
      match as_i64 number with
      | Some n => if (0 <=? n)%Z && (Z.to_N n <=? max)%N then Some (Z.to_N n) else None
      | None => None
      end
  | None => None
  end.

Definition lock_held_message (existing : JsonFileDiagnostic) : string :=
  match diagnostic_error existing with
  | Some reason =>
      "hub runtime lock exists but is unreadable: " +:+ reason
      +:+ ". Run 'mcpace advanced runtime repair' to archive and reseed it"
  | None =>
      match owner_number U32_MAX (diagnostic_value existing) "pid", owner_number U128_MAX (diagnostic_value existing) "startedAtMs" with
      | Some owner_pid, Some owner_started_at_ms =>
          "hub runtime lock is already held by pid " +:+ N_to_string owner_pid +:+ " (startedAtMs=" +:+ N_to_string owner_started_at_ms +:+ ")"
      | Some owner_pid, None => "hub runtime lock is already held by pid " +:+ N_to_string owner_pid
      | _, _ =>
          "hub runtime lock already exists at " +:+ path_text HubLock +:+ "; run 'mcpace advanced runtime repair' before starting again"
      end
  end.

Definition lock_payload (pid started_at_ms : N) : string :=
  to_pretty_string (json_object [("pid", json_number pid); ("startedAtMs", json_number started_at_ms)]).

(** [Ok] is the guard, whose drop is [release_runtime_lock]. *)
Definition acquire_runtime_lock (pid started_at_ms : N) : Prog (result unit string) :=
  _ ⇠? call (EnsureDir (hub_dir state_root)) ;;
  created ⇠ call (CreateNew HubLock) ;;
  match created with
  | Created handle =>
      call_err (WriteHandle HubLock handle (lock_payload pid started_at_ms))
        (fun error => "failed to write " +:+ path_text HubLock +:+ ": " +:+ error)
  | AlreadyExists => existing ⇠ read_json_diagnostic HubLock ;; Done (Err (lock_held_message existing))
  | CreateFailed error => Done (Err ("failed to acquire hub runtime lock at " +:+ path_text HubLock +:+ ": " +:+ error))
  end.

Definition release_runtime_lock : Prog unit := _ ⇠ call (RemoveFile HubLock) ;; Done tt.

(** ** Repair *)

Record RepairReport := mkRepair {
  report_root_path : string;
  report_state_root : string;
  archived_paths : list string;
  recreated_paths : list string;
  report_warnings : list string
}.

Definition repair_json (report : RepairReport) : JsonValue :=
  json_object
    [("rootPath", json_string (report_root_path report)); ("stateRoot", json_string (report_state_root report));
     ("archivedPaths", json_array (map json_string (archived_paths report)));
     ("recreatedPaths", json_array (map json_string (recreated_paths report)));
     ("warnings", json_array (map json_string (report_warnings report)))].

Definition archive_corrupted_file (f : RuntimeFile) : Prog (result string string) :=
  now ⇠ now_ms ;;
  let archive := Archived f now in
  _ ⇠? call_err (RenameFile f archive)
         (fun error => "failed to archive corrupt runtime file " +:+ path_text f +:+ " to " +:+ path_text archive +:+ ": " +:+ error) ;;
  Done (Ok (path_text archive)).

Fixpoint archive_all (files : list RuntimeFile) : Prog (result (list string) string) :=
  match files with
  | [] => Done (Ok [])
  | f :: files =>
      path ⇠? archive_corrupted_file f ;;
      paths ⇠? archive_all files ;;
      Done (Ok (path :: paths))
  end.

Fixpoint read_diagnostics (files : list RuntimeFile) : Prog (list JsonFileDiagnostic) :=
  match files with
  | [] => Done []
  | f :: files => diagnostic ⇠ read_json_diagnostic f ;; diagnostics ⇠ read_diagnostics files ;; Done (diagnostic :: diagnostics)
  end.

(** The files that are read as JSON. *)
Definition json_files : list RuntimeFile := [ProjectRegistry; HubLeases; HubState; HubHealth; HubLock].

Definition corrupted_files_of (diagnostics : list JsonFileDiagnostic) : list RuntimeFile :=
  map diagnostic_file (List.filter (fun d => is_some (diagnostic_error d)) diagnostics).

Definition remove_if_file (f : RuntimeFile) : Prog (result unit string) :=
  is_file ⇠ call (IsFile f) ;; if is_file then remove_if_present f else Done (Ok tt).

Definition repair_runtime_files : Prog (result RepairReport string) :=
  _ ⇠? ensure_runtime_layout ;;
  diagnostics ⇠ read_diagnostics json_files ;;
  archived ⇠? archive_all (corrupted_files_of diagnostics) ;;
  _ ⇠? remove_if_file HubStop ;;
  _ ⇠? remove_if_file HubHealth ;;
  _ ⇠? remove_if_file HubLock ;;
  registry ⇠? seed_json_if_missing ProjectRegistry default_project_registry ;;
  now ⇠ now_ms ;;
  leases ⇠? seed_json_if_missing HubLeases (default_lease_store now) ;;
  stopped ⇠ now_ms ;;
  _ ⇠? write_state_metadata "stopped" None None (Some stopped) ;;
  let recreated :=
    (if registry : bool then [path_text ProjectRegistry] else []) ++ (if leases : bool then [path_text HubLeases] else [])
    ++ [path_text HubState] in
  let warnings :=
    match archived with
    | [] => ["hub repair completed without archived corrupt files; state files were normalized to a clean stopped baseline"]
    | _ => []
    end in
  _ ⇠ append_log "warn" "hub_repaired"
        [("archivedCount", json_number (len_N archived)); ("recreatedCount", json_number (len_N recreated))] ;;
  Done (Ok (mkRepair root_path state_root archived recreated warnings)).
End runtime.

(** ** A file system *)

Record Disk := mkDisk {
  disk_files : RuntimeFile -> option (nat * string);
  next_handle : nat;
  disk_clock : N;
  disk_readiness : result ReadinessReport string;
  disk_stdout : list string;
  disk_stderr : list string
}.

Definition set_files (f : (RuntimeFile -> option (nat * string)) -> RuntimeFile -> option (nat * string)) (d : Disk) : Disk :=
  mkDisk (f (disk_files d)) (next_handle d) (disk_clock d) (disk_readiness d) (disk_stdout d) (disk_stderr d).

(** A new file in place of what is there. *)
Definition put (f : RuntimeFile) (contents : string) (d : Disk) : Disk :=
  mkDisk (<[f := Some (next_handle d, contents)]> (disk_files d)) (S (next_handle d)) (disk_clock d) (disk_readiness d) (disk_stdout d)
    (disk_stderr d).

Definition text_at (d : Disk) (f : RuntimeFile) : option string := option_map snd (disk_files d f).

(** The file that [handle] was opened for, if it is still there. *)
Definition through_handle (f : RuntimeFile) (handle : nat) (change : string -> string) (d : Disk) : Disk :=
  match disk_files d f with
  | Some (h, text) => if Nat.eqb h handle then set_files (<[f := Some (h, change text)]>) d else d
  | None => d
  end.

Definition line_end : string := String "010"%char EmptyString.

Definition exec {X} (op : Op X) : Disk -> Disk * X :=
  match op in Op X return Disk -> Disk * X with
  | EnsureDir _ | CreateParent _ => fun d => (d, Ok tt)
  | IsFile f => fun d => (d, is_some (disk_files d f))
  | ReadText f => fun d => (d, match text_at d f with Some text => Ok text | None => Err "No such file or directory" end)
  | WriteAtomic f contents => fun d => (put f contents d, Ok tt)
  | RemoveFile f => fun d =>
      match disk_files d f with Some _ => (set_files (<[f := None]>) d, Removed) | None => (d, RemoveNotFound) end
  | RenameFile source target => fun d =>
      match disk_files d source with
      | Some file => (set_files (fun files => <[source := None]> (<[target := Some file]> files)) d, Ok tt)
      | None => (d, Err "No such file or directory")
      end
  | CreateNew f => fun d =>
      match disk_files d f with Some _ => (d, AlreadyExists) | None => (put f EmptyString d, Created (next_handle d)) end
  | WriteHandle f handle contents => fun d => (through_handle f handle (fun text => text +:+ contents) d, Ok tt)
  | FileLength f => fun d => (d, match text_at d f with Some text => Length (str_len text) | None => NoSuchFile end)
  | OpenAppend f => fun d =>
      match disk_files d f with Some (h, _) => (d, Ok h) | None => (put f EmptyString d, Ok (next_handle d)) end
  | AppendLine f handle line => fun d => (through_handle f handle (fun text => text +:+ line +:+ line_end) d, Ok tt)
  | Clock => fun d => (d, disk_clock d)
  | Sleep ms => fun d =>
      (mkDisk (disk_files d) (next_handle d) (disk_clock d + ms) (disk_readiness d) (disk_stdout d) (disk_stderr d), tt)
  | CollectReadiness => fun d => (d, disk_readiness d)
  | CurrentExe | SpawnHub => fun d => (d, Ok tt)
  | StdoutLine line => fun d =>
      (mkDisk (disk_files d) (next_handle d) (disk_clock d) (disk_readiness d) (disk_stdout d ++ [line]) (disk_stderr d), tt)
  | StderrLine line => fun d =>
      (mkDisk (disk_files d) (next_handle d) (disk_clock d) (disk_readiness d) (disk_stdout d) (disk_stderr d ++ [line]), tt)
  end.

(** A program on its own. *)
Fixpoint run {A} (p : Prog A) (d : Disk) : Disk * A :=
  match p with
  | Done a => (d, a)
  | Call op k => let '(d, x) := exec op d in run (k x) d
  end.
