(* ===== verification/HubStatus.v ===== *)
(** * The status of the hub (src/hub/status.rs, src/hub/model.rs)

    The status is put together from the five JSON files of the hub, the clock and the
    readiness report of another component.  [status_from] is what follows once they are
    read. *)

From S2P Require Import Prelude RustStr BTree Json TextUtils Execution LeaseRoute HubRuntime.

Record HubStatus := mkHubStatus {
  hs_root_path : string;
  hs_state_root : string;
  hs_runtime_dir : string;
  hs_hub_dir : string;
  hs_log_path : string;
  hs_lease_store_path : string;
  hs_readiness : ReadinessReport;
  hs_status : string;
  hs_health : string;
  hs_pid : option N;
  hs_started_at_ms : option N;
  hs_last_heartbeat_at_ms : option N;
  hs_last_exit_at_ms : option N;
  hs_uptime_ms : option N;
  hs_active_lease_count : N;
  hs_active_session_count : N;
  hs_warnings : list string;
  hs_corrupted_files : list CorruptedRuntimeFile;
  hs_repair_recommended : bool
}.

Definition corrupted_json (file : CorruptedRuntimeFile) : JsonValue :=
  json_object [("path", json_string (corrupted_path file)); ("reason", json_string (corrupted_reason file))].

Definition optional_text (value : option string) : JsonValue := match value with Some text => json_string text | None => JNull end.

Definition hub_status_json (s : HubStatus) : JsonValue :=
  let r := hs_readiness s in
  let strings l := json_array (map json_string l) in
  json_object
    [("rootPath", json_string (hs_root_path s)); ("stateRoot", json_string (hs_state_root s));
     ("runtimeDir", json_string (hs_runtime_dir s)); ("hubDir", json_string (hs_hub_dir s));
     ("logPath", json_string (hs_log_path s)); ("leaseStorePath", json_string (hs_lease_store_path s));
     ("configVersion", optional_text (config_version r)); ("activeProfile", json_string (active_profile r));
     ("profileSelectionSource", json_string (profile_selection_source r)); ("status", json_string (hs_status s));
     ("health", json_string (hs_health s)); ("pid", optional_number (hs_pid s));
     ("startedAtMs", optional_number (hs_started_at_ms s)); ("lastHeartbeatAtMs", optional_number (hs_last_heartbeat_at_ms s));
     ("lastExitAtMs", optional_number (hs_last_exit_at_ms s)); ("uptimeMs", optional_number (hs_uptime_ms s));
     ("readyForReadOnlyOps", json_bool (ready_for_read_only_ops r)); ("readyForRuntimeOps", json_bool (ready_for_runtime_ops r));
     ("serverCount", json_number (server_count r)); ("requiredServerCount", json_number (required_server_count r));
     ("profileEnabledServerCount", json_number (profile_enabled_server_count r));
     ("sourceEnabledServerCount", json_number (source_enabled_server_count r));
     ("effectiveEnabledServerCount", json_number (effective_enabled_server_count r));
     ("activeLeaseCount", json_number (hs_active_lease_count s)); ("activeSessionCount", json_number (hs_active_session_count s));
     ("missingRequiredSourceEnablement", strings (missing_required_source_enablement r));
     ("missingProfileSourceEnablement", strings (missing_profile_source_enablement r));
     ("missingRequiredCommands", strings (missing_required_commands r));
     ("missingProfileCommands", strings (missing_profile_commands r)); ("warnings", strings (hs_warnings s));
     ("corruptedFiles", json_array (map corrupted_json (hs_corrupted_files s)));
     ("repairRecommended", json_bool (hs_repair_recommended s))].

Definition is_live_status (status : string) : bool := one_of ["running"; "starting"; "stopping"] status.

(** ** Reading the files *)

Definition non_blank_at (path : list string) (document : option JsonValue) : option string :=
  match document ≫= (fun doc => string_at_path doc path) with
  | Some value => if str_is_empty (trim value) then None else Some (trim value)
  | None => None
  end.

Definition number_at (path : list string) (document : option JsonValue) : option N := document ≫= (fun doc => number_u128_at doc path).

Fixpoint first_of {A} (read : option JsonValue -> option A) (documents : list (option JsonValue)) : option A :=
  match documents with
  | [] => None
  | document :: documents => match read document with Some a => Some a | None => first_of read documents end
  end.

Definition first_string (documents : list (option JsonValue)) (path : list string) : option string := first_of (non_blank_at path) documents.

Definition first_u128 (documents : list (option JsonValue)) (path : list string) : option N := first_of (number_at path) documents.

Definition first_u32 (documents : list (option JsonValue)) (path : list string) : option N :=
  opt_filter (fun value => (value <=? U32_MAX)%N) (first_u128 documents path).

Definition active_lease_records (lease_store : option JsonValue) (now : N) : list JsonValue :=
  match lease_store ≫= (fun store => value_at_path store ["leases"]) with
  | Some (JObject leases) =>
      List.filter (fun lease => match first_u128 [Some lease] ["expiresAtMs"] with Some at_ms => (now <? at_ms)%N | None => true end)
        (map snd leases)
  | _ => []
  end.

Definition count_active_sessions (active_leases : list JsonValue) : N :=
  N.of_nat (size (list_to_set (omap (fun lease => first_string [Some lease] ["sessionLeaseId"]) active_leases) : gset string)).

(** ** The status *)

Definition HEARTBEAT_FRESH_MS : N := 2000.

Record FilesRead := mkFilesRead {
  registry_file : JsonFileDiagnostic;
  lease_file : JsonFileDiagnostic;
  state_file : JsonFileDiagnostic;
  health_file : JsonFileDiagnostic;
  lock_file : JsonFileDiagnostic
}.

Section status.
Context `{SerdeJson} (environment : string -> option string) (root_path : string).

Definition corrupted_files (files : FilesRead) : list CorruptedRuntimeFile :=
  omap (corruption environment root_path) [registry_file files; lease_file files; state_file files; health_file files; lock_file files].

Definition reported_status (files : FilesRead) : string :=
  unwrap_or (first_string [diagnostic_value (health_file files); diagnostic_value (state_file files)] ["status"]) "stopped".

Definition last_heartbeat (files : FilesRead) : option N :=
  first_u128 [diagnostic_value (health_file files); diagnostic_value (state_file files)] ["lastHeartbeatAtMs"].

Definition heartbeat_fresh (files : FilesRead) (now : N) : bool :=
  match last_heartbeat files with Some value => (now - value <=? HEARTBEAT_FRESH_MS)%N | None => false end.

Definition corrupted_warning (count : N) : string :=
  "hub runtime metadata is corrupted in " +:+ N_to_string count
  +:+ " file(s); run 'mcpace advanced runtime repair' to archive and reseed them".

Definition lock_warning (lock_pid : option N) : string :=
  match lock_pid with
  | Some owner_pid =>
      "hub runtime lock is still present for pid " +:+ N_to_string owner_pid +:+ "; cleanup is required before a new start"
  | None => "hub runtime lock is still present without readable owner metadata; cleanup is required before a new start"
  end.

(** The status and the warnings, in the order of the source's conditions. *)
Definition classified (files : FilesRead) (now : N) : string * list string :=
  let corrupted := corrupted_files files in
  match corrupted with
  | _ :: _ => ("corrupt", [corrupted_warning (len_N corrupted)])
  | [] =>
      let status := reported_status files in
      let '(status, warnings) :=
        if is_live_status status && negb (heartbeat_fresh files now)
        then ("stale", ["hub heartbeat is stale; the runtime likely exited without a clean stop"])
        else (status, []) in
      if negb (is_live_status status) && exists_file (lock_file files)
      then ("stale", warnings ++ [lock_warning (first_u32 [diagnostic_value (lock_file files)] ["pid"])])
      else (status, warnings)
  end.

Definition health_of (status : string) (ready : bool) : string :=
  if is_live_status status then (if ready then "healthy" else "degraded")
  else if String.eqb status "stale" then "stale"
  else if String.eqb status "corrupt" then "corrupt"
  else if ready then "stopped-ready" else "stopped-degraded".

Definition status_from (readiness : ReadinessReport) (files : FilesRead) (now : N) : HubStatus :=
  let documents := [diagnostic_value (health_file files); diagnostic_value (state_file files)] in
  let leases := active_lease_records (diagnostic_value (lease_file files)) now in
  let '(status, warnings) := classified files now in
  let started_at_ms := first_u128 documents ["startedAtMs"] in
  let root := state_root environment root_path in
  {| hs_root_path := root_path; hs_state_root := root; hs_runtime_dir := runtime_dir root; hs_hub_dir := hub_dir root;
     hs_log_path := hub_log_path root; hs_lease_store_path := hub_leases_path root; hs_readiness := readiness;
     hs_status := status; hs_health := health_of status (ready_for_runtime_ops readiness);
     hs_pid := first_u32 documents ["pid"]; hs_started_at_ms := started_at_ms; hs_last_heartbeat_at_ms := last_heartbeat files;
     hs_last_exit_at_ms := first_u128 [diagnostic_value (state_file files)] ["lastExitAtMs"];
     hs_uptime_ms := match started_at_ms with Some value => if is_live_status status then Some (now - value)%N else None | None => None end;
     hs_active_lease_count := len_N leases; hs_active_session_count := count_active_sessions leases;
     hs_warnings :=
       warnings ++ (if String.eqb status "stopped" && negb (ready_for_runtime_ops readiness)
                    then ["hub is stopped and runtime readiness is currently degraded"] else []);
     hs_corrupted_files := corrupted_files files;
     hs_repair_recommended := String.eqb status "stale" || String.eqb status "corrupt" |}.

Definition read_files : Prog FilesRead :=
  registry ⇠ read_json_diagnostic environment root_path ProjectRegistry ;;
  leases ⇠ read_json_diagnostic environment root_path HubLeases ;;
  state ⇠ read_json_diagnostic environment root_path HubState ;;
  health ⇠ read_json_diagnostic environment root_path HubHealth ;;
  lock ⇠ read_json_diagnostic environment root_path HubLock ;;
  Done (mkFilesRead registry leases state health lock).

Definition collect_status : Prog (result HubStatus string) :=
  readiness ⇠? call CollectReadiness ;;
  files ⇠ read_files ;;
  now ⇠ now_ms ;;
  Done (Ok (status_from readiness files now)).

(** ** The response *)

Definition line_if_some (label : string) (value : option N) : list string :=
  match value with Some value => [label +:+ N_to_string value] | None => [] end.

Definition line_if_any (label : string) (values : list string) : list string :=
  match values with [] => [] | _ => [label +:+ join ", " values] end.

Definition status_lines (s : HubStatus) : list string :=
  let r := hs_readiness s in
  ["Hub status: " +:+ hs_status s; "Health: " +:+ hs_health s; "Root path: " +:+ hs_root_path s; "State root: " +:+ hs_state_root s;
   "Runtime dir: " +:+ hs_runtime_dir s; "Hub dir: " +:+ hs_hub_dir s; "Log path: " +:+ hs_log_path s;
   "Lease store: " +:+ hs_lease_store_path s; "Active profile: " +:+ active_profile r;
   "Profile selection source: " +:+ profile_selection_source r; "Runtime readiness: " +:+ yes_no (ready_for_runtime_ops r);
   "Repair recommended: " +:+ yes_no (hs_repair_recommended s);
   "Configured servers: " +:+ N_to_string (server_count r) +:+ " (required=" +:+ N_to_string (required_server_count r)
   +:+ ", profile-enabled=" +:+ N_to_string (profile_enabled_server_count r) +:+ ", source-enabled="
   +:+ N_to_string (source_enabled_server_count r) +:+ ", effective-enabled=" +:+ N_to_string (effective_enabled_server_count r) +:+ ")";
   "Active leases: " +:+ N_to_string (hs_active_lease_count s); "Active sessions: " +:+ N_to_string (hs_active_session_count s)]
  ++ line_if_some "PID: " (hs_pid s) ++ line_if_some "Started at ms: " (hs_started_at_ms s)
  ++ line_if_some "Last heartbeat at ms: " (hs_last_heartbeat_at_ms s) ++ line_if_some "Uptime ms: " (hs_uptime_ms s)
  ++ line_if_some "Last exit at ms: " (hs_last_exit_at_ms s)
  ++ line_if_any "Missing required source enablement: " (missing_required_source_enablement r)
  ++ line_if_any "Missing profile source enablement: " (missing_profile_source_enablement r)
  ++ line_if_any "Missing required commands: " (missing_required_commands r)
  ++ line_if_any "Missing profile commands: " (missing_profile_commands r)
  ++ match hs_corrupted_files s with
     | [] => []
     | files => "Corrupted runtime files:" :: map (fun file => "- " +:+ corrupted_path file +:+ " :: " +:+ corrupted_reason file) files
     end
  ++ match hs_warnings s with [] => [] | warnings => ["Warnings: " +:+ join " | " warnings] end.

Fixpoint print_lines (lines : list string) : Prog unit :=
  match lines with [] => Done tt | line :: lines => _ ⇠ call (StdoutLine line) ;; print_lines lines end.

Definition write_status_response (s : HubStatus) (json_output : bool) : Prog Z :=
  _ ⇠ print_lines (if json_output then [to_pretty_string (hub_status_json s)] else status_lines s) ;; Done 0%Z.
End status.

(** ** What the status says *)

Section properties.
Context `{SerdeJson} (environment : string -> option string) (root_path : string).

(** How the files and the clock determine the status: any unreadable file makes it corrupt;
    otherwise the hub is called live exactly when it says so and its last heartbeat is no more
    than two seconds old; a hub that is not live is called stale when it claimed to be, or
    when its lock is still there, and what it says of itself otherwise. *)
Theorem hub_status_classification readiness files now :
  let s := status_from environment root_path readiness files now in
  let corrupted := corrupted_files environment root_path files in
  (corrupted <> [] -> hs_status s = "corrupt")
  /\ (is_live_status (hs_status s) = true
      <-> corrupted = [] /\ is_live_status (reported_status files) = true
          /\ exists at_ms, last_heartbeat files = Some at_ms /\ (now - at_ms <= HEARTBEAT_FRESH_MS)%N)
  /\ (corrupted = [] -> is_live_status (hs_status s) = false ->
      hs_status s = if is_live_status (reported_status files) || exists_file (lock_file files) then "stale" else reported_status files)
  /\ (hs_repair_recommended s = true <-> hs_status s = "stale" \/ hs_status s = "corrupt").
Proof.
  assert (Hiff : forall s, String.eqb s "stale" || String.eqb s "corrupt" = true <-> s = "stale" \/ s = "corrupt")
    by (intros; by rewrite orb_true_iff, !String.eqb_eq).
  assert (Hdead : is_live_status "stale" = false /\ is_live_status "corrupt" = false) by done. destruct Hdead as [Hst Hco].
  cbn zeta. unfold status_from, classified, heartbeat_fresh.
  destruct (corrupted_files environment root_path files) as [|c cs]; cbn zeta.
  2: { cbn [hs_status hs_repair_recommended]. rewrite Hco. split; [done|]. split; [by split; [|intros (? & _)]|]. by split; [|apply Hiff]. }
  split; [done|]. destruct (is_live_status (reported_status files)) eqn:El; cbn [andb orb].
  - destruct (last_heartbeat files) as [at_ms|]; cbn [negb].
    + destruct (N.leb_spec (now - at_ms) HEARTBEAT_FRESH_MS) as [Hf|Hf]; cbn [negb].
      * rewrite El. cbn [negb andb hs_status hs_repair_recommended]. rewrite El. split; [by split; [eauto 6|]|]. by split; [|apply Hiff].
      * rewrite Hst. cbn [negb andb]. destruct (exists_file _); cbn [hs_status hs_repair_recommended]; rewrite Hst;
          (split; [split; [done|intros (_ & _ & a & [= <-] & Ha); lia]|]); by split; [|apply Hiff].
    + rewrite Hst. cbn [negb andb]. destruct (exists_file _); cbn [hs_status hs_repair_recommended]; rewrite Hst;
        (split; [by split; [|intros (_ & _ & a & ? & _)]|]); by split; [|apply Hiff].
  - rewrite El. cbn [negb andb]. destruct (exists_file (lock_file files)); cbn [hs_status hs_repair_recommended]; rewrite ?Hst, ?El;
      (split; [by split; [|intros (_ & ? & _)]|]); by split; [|apply Hiff].
Qed.
End properties.
