(* ===== verification/HubLifecycle.v ===== *)
(** * The hub's commands and its loop (src/hub/lifecycle.rs)

    Up, down, repair, status, logs and the process that runs, as programs over the system
    calls of [HubRuntime]; a system of several processes whose calls interleave; and what
    the lock of the running hub does and does not promise. *)

From stdpp Require Import functions.
From S2P Require Import Prelude RustStr BTree Json TextUtils Execution HttpProbe HubRuntime HubStatus.

Section commands.
Context `{SerdeJson} (environment : string -> option string) (root_path : string).

Definition stderr_line (text : string) : Prog unit := call (StderrLine text).

(** An error ends the command with code 1. *)
Definition fail_with (text : string) : Prog Z := _ ⇠ stderr_line text ;; Done 1%Z.

Definition or_fail {A} (p : Prog (result A string)) (k : A -> Prog Z) : Prog Z :=
  r ⇠ p ;; match r with Ok a => k a | Err error => fail_with error end.

Notation "x ⇠! p ;; k" := (or_fail p (fun x => k)) (at level 100, p at next level, right associativity).

Definition collect : Prog (result HubStatus string) := collect_status environment root_path.

Definition corrupt_text : string :=
  "hub runtime state is corrupt; run 'mcpace advanced runtime repair' to archive bad files and reseed a clean baseline".

(** ** The process that runs *)

Definition log_event (event : string) (pid : N) : Prog unit :=
  _ ⇠ append_log environment root_path "info" event [("pid", json_number pid)] ;; Done tt.

(** An error after the lock was taken: the guard is dropped. *)
Definition fail_locked (text : string) : Prog Z :=
  _ ⇠ stderr_line text ;; _ ⇠ release_runtime_lock ;; Done 1%Z.

Definition or_fail_locked {A} (p : Prog (result A string)) (k : A -> Prog Z) : Prog Z :=
  r ⇠ p ;; match r with Ok a => k a | Err error => fail_locked error end.

Definition stop_hub (pid : N) : Prog Z :=
  stop_ms ⇠ now_ms ;;
  _ ⇠ call (RemoveFile HubStop) ;;
  _ ⇠ call (RemoveFile HubHealth) ;;
  or_fail_locked (write_state_metadata environment root_path "stopped" None None (Some stop_ms)) (fun _ =>
  _ ⇠ release_runtime_lock ;;
  _ ⇠ log_event "hub_stopped" pid ;;
  Done 0%Z).

(** The loop of heartbeats; [rounds] bounds them, and with the last one the process is ended
    from outside, its lock left behind: code -1. *)
Fixpoint heartbeat_loop (rounds : nat) (pid start_ms : N) (started_logged : bool) : Prog Z :=
  match rounds with
  | O => Done (-1)%Z
  | S rounds =>
      now ⇠ now_ms ;;
      or_fail_locked
        (write_health_metadata (if started_logged then "running" else "starting") pid start_ms now) (fun _ =>
      or_fail_locked
        (if started_logged then Done (Ok tt)
         else
           _ ⇠? write_state_metadata environment root_path "running" (Some pid) (Some start_ms) None ;;
           _ ⇠ log_event "hub_started" pid ;; Done (Ok tt)) (fun _ =>
      stop_requested ⇠ call (IsFile HubStop) ;;
      if stop_requested : bool then _ ⇠ log_event "hub_stop_requested" pid ;; stop_hub pid
      else _ ⇠ call (Sleep 250) ;; heartbeat_loop rounds pid start_ms true))
  end.

Definition run_locked (rounds : nat) (pid start_ms : N) : Prog Z :=
  or_fail_locked (write_state_metadata environment root_path "starting" (Some pid) (Some start_ms) None) (fun _ =>
  or_fail_locked (write_health_metadata "starting" pid start_ms start_ms) (fun _ =>
  _ ⇠ log_event "hub_starting" pid ;;
  _ ⇠ call (RemoveFile HubStop) ;;
  heartbeat_loop rounds pid start_ms false)).

Definition run_loop (rounds : nat) (pid : N) : Prog Z :=
  existing ⇠! collect ;;
  if is_live_status (hs_status existing) && negb (bool_decide (hs_pid existing = Some pid))
  then fail_with "hub runtime is already active for this root"
  else if String.eqb (hs_status existing) "stale"
  then fail_with "hub runtime state is stale; run 'mcpace advanced runtime repair' before starting again"
  else if String.eqb (hs_status existing) "corrupt" then fail_with corrupt_text
  else
    start_ms ⇠ now_ms ;;
    _ ⇠! acquire_runtime_lock environment root_path pid start_ms ;;
    run_locked rounds pid start_ms.

Definition run_loop_command (rounds : nat) (pid : N) : Prog Z :=
  _ ⇠! ensure_runtime_layout environment root_path ;; run_loop rounds pid.

(** ** Up and down *)

(** Polls until the status satisfies [done_when]; the errors of a poll are ignored. *)
Fixpoint poll (attempts : nat) (done_when : string -> bool) : Prog (option HubStatus) :=
  match attempts with
  | O => Done None
  | S attempts =>
      _ ⇠ call (Sleep 50) ;;
      status ⇠ collect ;;
      match status with
      | Ok s => if done_when (hs_status s) then Done (Some s) else poll attempts done_when
      | Err _ => poll attempts done_when
      end
  end.

(** After the polls the status is read once more. *)
Definition wait_for (attempts : nat) (done_when : string -> bool) (json_output : bool) (too_late : string) : Prog Z :=
  polled ⇠ poll attempts done_when ;;
  match polled with
  | Some s => write_status_response s json_output
  | None =>
      s ⇠! collect ;;
      if done_when (hs_status s) then write_status_response s json_output else fail_with too_late
  end.

(** [foreground] carries the bound of the loop and the process id. *)
Definition run_up (foreground : option (nat * N)) (json_output : bool) : Prog Z :=
  _ ⇠! ensure_runtime_layout environment root_path ;;
  current ⇠! collect ;;
  if is_live_status (hs_status current) then write_status_response current json_output
  else
    _ ⇠! (if String.eqb (hs_status current) "stale" then mark_stopped environment root_path else Done (Ok tt)) ;;
    if String.eqb (hs_status current) "corrupt" then fail_with corrupt_text
    else
      _ ⇠ call (RemoveFile HubStop) ;;
      match foreground with
      | Some (rounds, pid) => run_loop rounds pid
      | None =>
          exe ⇠ call CurrentExe ;;
          match exe with
          | Err error => fail_with ("failed to resolve mcpace binary path: " +:+ error)
          | Ok _ =>
              _ ⇠! rotate_logs_if_needed environment root_path ;;
              _ ⇠! call SpawnHub ;;
              wait_for 60 (fun status => String.eqb status "running") json_output "hub runtime did not become healthy in time"
          end
      end.

Definition run_down (json_output : bool) : Prog Z :=
  _ ⇠! ensure_runtime_layout environment root_path ;;
  current ⇠! collect ;;
  if String.eqb (hs_status current) "stale" then
    _ ⇠! mark_stopped environment root_path ;;
    final ⇠! collect ;;
    write_status_response final json_output
  else if String.eqb (hs_status current) "corrupt" then fail_with corrupt_text
  else if negb (is_live_status (hs_status current)) then write_status_response current json_output
  else
    now ⇠ now_ms ;;
    _ ⇠! write_atomic HubStop (N_to_string now) ;;
    wait_for 80 (fun status => negb (is_live_status status)) json_output "hub runtime did not stop in time".

(** ** Repair, status and logs *)

Definition repair_lines (report : RepairReport) (final : HubStatus) : list string :=
  ["Hub repair completed."; "Root path: " +:+ report_root_path report; "State root: " +:+ report_state_root report;
   "Archived runtime files: " +:+ join_or_none (archived_paths report);
   "Recreated runtime files: " +:+ join_or_none (recreated_paths report)]
  ++ match report_warnings report with [] => [] | warnings => ["Repair notes: " +:+ join " | " warnings] end
  ++ ["Final hub status: " +:+ hs_status final +:+ " (" +:+ hs_health final +:+ ")"].

Definition write_repair_response (report : RepairReport) (final : HubStatus) (json_output : bool) : Prog Z :=
  _ ⇠ print_lines
        (if json_output then [to_pretty_string (json_object [("repair", repair_json report); ("hubStatus", hub_status_json final)])]
         else repair_lines report final) ;;
  Done 0%Z.

Definition run_repair (json_output : bool) : Prog Z :=
  _ ⇠! ensure_runtime_layout environment root_path ;;
  current ⇠! collect ;;
  if is_live_status (hs_status current)
  then fail_with "hub repair refuses to run while the runtime is active; stop MCPace first with 'mcpace stop'"
  else
    report ⇠! repair_runtime_files environment root_path ;;
    final ⇠! collect ;;
    write_repair_response report final json_output.

Definition run_status (json_output : bool) : Prog Z := s ⇠! collect ;; write_status_response s json_output.

Definition log_tail (tail : N) (raw : string) : list string :=
  let lines := List.filter (fun line => negb (str_is_empty (trim line))) (text_lines raw) in
  skipn (N.to_nat (len_N lines - tail)) lines.

Definition log_entry (line : string) : JsonValue := match parse_str line with Ok value => value | Err _ => json_string line end.

Definition run_logs (tail : N) (json_output : bool) : Prog Z :=
  _ ⇠! ensure_runtime_layout environment root_path ;;
  is_file ⇠ call (IsFile HubLog) ;;
  if negb is_file then _ ⇠ print_lines [if json_output then "[]" else "No hub logs yet."] ;; Done 0%Z
  else
    raw ⇠! call_err (ReadText HubLog)
             (fun error => "failed to read " +:+ path_text environment root_path HubLog +:+ ": " +:+ error) ;;
    let selected := log_tail tail raw in
    _ ⇠ print_lines (if json_output then [to_pretty_string (json_array (map log_entry selected))] else selected) ;;
    Done 0%Z.
End commands.

(** ** Several processes *)

(** The calls by which a process touches the lock of the hub: [grip] is whether it took it
    and has not given it back. *)
Definition grip_after {X} (op : Op X) (grip : bool) : X -> bool :=
  match op in Op X return X -> bool with
  | CreateNew HubLock => fun created => match created with Created _ => true | _ => grip end
  | RemoveFile HubLock => fun _ => false
  | _ => fun _ => grip
  end.

(** Calls that say what the hub is doing. *)
Definition reports {X} (op : Op X) : bool :=
  match op with
  | WriteAtomic HubState _ | WriteAtomic HubHealth _ | RemoveFile HubHealth => true
  | _ => false
  end.

(** Calls that change whether the lock is there. *)
Definition moves_lock {X} (op : Op X) : bool :=
  match op with
  | WriteAtomic HubLock _ | RemoveFile HubLock | RenameFile HubLock _ | RenameFile _ HubLock | OpenAppend HubLock => true
  | _ => false
  end.

Definition takes_lock {X} (op : Op X) : bool := match op with CreateNew HubLock => true | _ => false end.

Definition allowed {X} (op : Op X) (grip : bool) : bool :=
  if takes_lock op then negb grip
  else if moves_lock op then match op with RemoveFile _ => grip | _ => false end
  else if reports op then grip else true.

(** The process takes the lock when it does not have it, and without it neither removes it
    nor reports, whatever its calls answer; [Q] is what holds of its grip at the end. *)
Fixpoint disciplined {A} (grip : bool) (p : Prog A) (Q : bool -> A -> Prop) : Prop :=
  match p with
  | Done a => Q grip a
  | Call op k => allowed op grip = true /\ forall x, disciplined (grip_after op grip x) (k x) Q
  end.

Lemma disciplined_bind {A B} grip (p : Prog A) (k : A -> Prog B) (Q : bool -> B -> Prop) :
  disciplined grip p (fun grip' a => disciplined grip' (k a) Q) -> disciplined grip (prog_bind p k) Q.
Proof.
  revert grip. induction p as [a|X op k' IH]; intros grip; cbn [prog_bind disciplined]; [done|]. intros [Ho Hk]. split; [done|].
  intros x. by apply IH.
Qed.

Lemma disciplined_mono {A} grip (p : Prog A) (P Q : bool -> A -> Prop) :
  (forall grip a, P grip a -> Q grip a) -> disciplined grip p P -> disciplined grip p Q.
Proof.
  intros HPQ. revert grip. induction p as [a|X op k IH]; intros grip; cbn [disciplined]; [apply HPQ|]. intros [Ho Hk]. split; [done|].
  intros x. by apply IH.
Qed.

(** A call that is no matter of the lock. *)
Definition neutral {X} (op : Op X) : bool := negb (takes_lock op) && negb (moves_lock op) && negb (reports op).

(** The program only makes such calls. *)
Fixpoint quiet {A} (p : Prog A) : Prop :=
  match p with
  | Done _ => True
  | Call op k => neutral op = true /\ forall x, quiet (k x)
  end.

Lemma neutral_allowed {X} (op : Op X) grip : neutral op = true -> allowed op grip = true /\ forall x, grip_after op grip x = grip.
Proof.
  unfold neutral, allowed. intros [ [Ht Hm]%andb_true_iff Hr]%andb_true_iff.
  destruct (takes_lock op) eqn:Et; [done|]. destruct (moves_lock op) eqn:Em; [done|]. destruct (reports op); [done|]. split; [done|].
  destruct op; try done; by destruct f.
Qed.

Lemma quiet_bind {A B} (p : Prog A) (k : A -> Prog B) : quiet p -> (forall a, quiet (k a)) -> quiet (prog_bind p k).
Proof. intros Hp Hk. induction p as [a|X op k' IH]; cbn [prog_bind]; [apply Hk|]. destruct Hp as [Ho Hp]. split; [done|]. intros x. by apply IH. Qed.

Lemma quiet_disciplined {A} grip (p : Prog A) (Q : bool -> A -> Prop) : quiet p -> (forall a, Q grip a) -> disciplined grip p Q.
Proof.
  intros Hp HQ. induction p as [a|X op k IH]; cbn [disciplined]; [apply HQ|]. destruct Hp as [Ho Hp].
  destruct (neutral_allowed op grip Ho) as [Ha Hg]. split; [done|]. intros x. rewrite Hg. by apply IH.
Qed.

Lemma quiet_try {A B E} (p : Prog (result A E)) (k : A -> Prog (result B E)) :
  quiet p -> (forall a, quiet (k a)) -> quiet (prog_try p k).
Proof. intros Hp Hk. apply quiet_bind; [done|]. intros [a|e]; [apply Hk|done]. Qed.

Lemma quiet_call {X} (op : Op X) : neutral op = true -> quiet (call op).
Proof. by split. Qed.

Lemma quiet_call_err {X} (op : Op (result X string)) text : neutral op = true -> quiet (call_err op text).
Proof. intros Ho. apply quiet_bind; [by apply quiet_call|done]. Qed.

Create HintDb hub.
#[export] Hint Resolve quiet_call quiet_call_err : hub.

Ltac quiet_steps :=
  repeat first
    [ match goal with |- quiet (Done _) => exact I end
    | match goal with |- quiet (if ?c then _ else _) => destruct c end
    | match goal with |- quiet (match ?c with _ => _ end) => destruct c end
    | (apply quiet_try; [|intros ?])
    | (apply quiet_call; reflexivity)
    | (apply quiet_call_err; reflexivity)
    | (apply quiet_bind; [|intros ?]) ].

Section quiet.
Context `{SerdeJson} (environment : string -> option string) (root_path : string).

Lemma quiet_diagnostic f : quiet (read_json_diagnostic environment root_path f).
Proof. unfold read_json_diagnostic. quiet_steps. Qed.

Lemma quiet_collect : quiet (collect environment root_path).
Proof. unfold collect, collect_status, read_files, now_ms. quiet_steps; apply quiet_diagnostic. Qed.

Lemma quiet_append_log level event fields : quiet (append_log environment root_path level event fields).
Proof.
  unfold append_log, rotate_logs_if_needed, rotate_logs_if_needed_with_max, remove_if_present, now_ms. quiet_steps.
Qed.

Lemma quiet_layout : quiet (ensure_runtime_layout environment root_path).
Proof. unfold ensure_runtime_layout, seed_json_if_missing, write_atomic, now_ms. quiet_steps. Qed.

Lemma quiet_lines lines : quiet (print_lines lines).
Proof. induction lines as [|line lines IH]; [done|]. cbn [print_lines]. apply quiet_bind; [by apply quiet_call|]. by intros _. Qed.

Lemma quiet_status_response s json_output : quiet (write_status_response s json_output).
Proof. unfold write_status_response. apply quiet_bind; [apply quiet_lines|done]. Qed.

Lemma quiet_fail text : quiet (fail_with text).
Proof. unfold fail_with, stderr_line. quiet_steps. Qed.

Lemma disciplined_or_fail {A} grip (p : Prog (result A string)) k Q :
  quiet p -> Q grip 1%Z -> (forall a, disciplined grip (k a) Q) -> disciplined grip (or_fail p k) Q.
Proof.
  intros Hp HQ Hk. apply disciplined_bind, quiet_disciplined; [done|]. intros [a|e]; [apply Hk|].
  apply disciplined_bind, quiet_disciplined; [by apply quiet_call|done].
Qed.

Lemma quiet_log_event event pid : quiet (log_event environment root_path event pid).
Proof. unfold log_event. apply quiet_bind; [apply quiet_append_log|done]. Qed.

(** *** With the lock *)

(** At the end the lock is given back, unless the process was ended from outside. *)
Definition released (grip : bool) (code : Z) : Prop := code = (-1)%Z \/ grip = false.

Lemma disciplined_fail_locked text : disciplined true (fail_locked text) released.
Proof. repeat (split; [done|]; intros ?). by right. Qed.

Lemma disciplined_locked {A} (p : Prog (result A string)) k :
  disciplined true p (fun grip _ => grip = true) -> (forall a, disciplined true (k a) released) ->
  disciplined true (or_fail_locked p k) released.
Proof.
  intros Hp Hk. apply disciplined_bind. eapply disciplined_mono; [|exact Hp]. intros grip [a|e] ->; [apply Hk|apply disciplined_fail_locked].
Qed.

Lemma disciplined_report f contents :
  f = HubState \/ f = HubHealth -> disciplined true (write_atomic f contents) (fun grip _ => grip = true).
Proof. by intros [-> | ->]; split. Qed.

Lemma disciplined_release Q : (forall a, Q false a) -> disciplined true release_runtime_lock Q.
Proof. intros HQ. split; [done|]. intros x. apply HQ. Qed.

Lemma disciplined_stop pid : disciplined true (stop_hub environment root_path pid) released.
Proof.
  do 3 (split; [done|]; intros ?). apply disciplined_locked; [by apply disciplined_report; left|]. intros _.
  apply disciplined_bind, disciplined_release. intros _. apply disciplined_bind, quiet_disciplined; [apply quiet_log_event|]. intros _.
  by right.
Qed.

Lemma disciplined_heartbeats rounds pid start_ms started :
  disciplined true (heartbeat_loop environment root_path rounds pid start_ms started) released.
Proof.
  revert started. induction rounds as [|rounds IH]; intros started; [by left|]. cbn [heartbeat_loop]. split; [done|]. intros now.
  apply disciplined_locked; [by apply disciplined_report; right|]. intros _. apply disciplined_locked.
  - destruct started; [done|]. apply disciplined_bind. eapply disciplined_mono; [|by apply disciplined_report; left].
    intros grip [a|e] ->; [|done]. apply disciplined_bind, quiet_disciplined; [apply quiet_log_event|done].
  - intros _. split; [done|]. intros stop. cbn [grip_after prog_bind call]. destruct (stop : bool).
    + apply disciplined_bind, quiet_disciplined; [apply quiet_log_event|]. intros _. apply disciplined_stop.
    + split; [done|]. intros ?. apply IH.
Qed.

Lemma disciplined_run_locked rounds pid start_ms : disciplined true (run_locked environment root_path rounds pid start_ms) released.
Proof.
  apply disciplined_locked; [by apply disciplined_report; left|]. intros _.
  apply disciplined_locked; [by apply disciplined_report; right|]. intros _.
  apply disciplined_bind, quiet_disciplined; [apply quiet_log_event|]. intros _. split; [done|]. intros ?. apply disciplined_heartbeats.
Qed.

Lemma disciplined_acquire pid started_at_ms :
  disciplined false (acquire_runtime_lock environment root_path pid started_at_ms) (fun grip r => is_ok r = true -> grip = true).
Proof.
  split; [done|]. intros [u|e]; cbn [prog_bind call]; [|done]. split; [done|]. intros [handle| |e]; cbn [prog_bind call].
  - split; [done|]. by intros [u'|e].
  - apply disciplined_bind, quiet_disciplined; [apply quiet_diagnostic|done].
  - done.
Qed.

(** The process that runs, from its start to its end. *)
Lemma disciplined_run_loop rounds pid : disciplined false (run_loop environment root_path rounds pid) (fun _ _ => True).
Proof.
  assert (Hf : forall text, disciplined false (fail_with text) (fun _ _ => True)) by (intros; by apply quiet_disciplined; [apply quiet_fail|]).
  apply disciplined_or_fail; [apply quiet_collect|done|]. intros existing.
  destruct (_ && _); [apply Hf|]. destruct (String.eqb _ _); [apply Hf|]. destruct (String.eqb _ _); [apply Hf|].
  split; [done|]. intros start_ms. cbn [prog_bind grip_after]. apply disciplined_bind. eapply disciplined_mono; [|apply disciplined_acquire].
  intros grip [u|e] Hg.
  - rewrite Hg by done. eapply disciplined_mono; [|apply disciplined_run_locked]. done.
  - apply quiet_disciplined; [apply quiet_fail|done].
Qed.

Lemma disciplined_run_status json_output : disciplined false (run_status environment root_path json_output) (fun _ _ => True).
Proof. apply disciplined_or_fail; [apply quiet_collect|done|]. intros s. apply quiet_disciplined; [apply quiet_status_response|done]. Qed.

Lemma disciplined_run_logs tail json_output : disciplined false (run_logs environment root_path tail json_output) (fun _ _ => True).
Proof.
  apply disciplined_or_fail; [apply quiet_layout|done|]. intros _. split; [done|]. intros is_file. cbn [prog_bind call grip_after].
  destruct (negb is_file); [apply quiet_disciplined; [|done]; apply quiet_bind; [apply quiet_lines|done]|].
  apply disciplined_or_fail; [by apply quiet_call_err|done|]. intros raw. apply quiet_disciplined; [|done]. apply quiet_bind; [apply quiet_lines|done].
Qed.

Lemma disciplined_run_loop_command rounds pid : disciplined false (run_loop_command environment root_path rounds pid) (fun _ _ => True).
Proof. apply disciplined_or_fail; [apply quiet_layout|done|]. intros _. apply disciplined_run_loop. Qed.
End quiet.

(** *** The system *)

Record Process := mkProcess { grip : bool; code : Prog Z }.

Definition System : Type := Disk * list Process.

(** What a call may answer when it fails; the file system is left as it was. *)
Definition refused {X} (op : Op X) : X -> Prop :=
  match op in Op X return X -> Prop with
  | EnsureDir _ | CreateParent _ | WriteAtomic _ _ | RenameFile _ _ | WriteHandle _ _ _ | AppendLine _ _ _ | CurrentExe | SpawnHub =>
      fun answer => is_ok answer = false
  | ReadText _ => fun answer => is_ok answer = false
  | OpenAppend _ => fun answer => is_ok answer = false
  | CollectReadiness => fun answer => is_ok answer = false
  | IsFile _ => fun answer => answer = false
  | RemoveFile _ => fun answer => exists error, answer = RemoveFailed error
  | CreateNew _ => fun answer => exists error, answer = CreateFailed error
  | FileLength _ => fun answer => exists error, answer = MeasureFailed error
  | Clock | Sleep _ | StdoutLine _ | StderrLine _ => fun _ => False
  end.

Definition answers {X} (op : Op X) (d d' : Disk) (x : X) : Prop := exec op d = (d', x) \/ d' = d /\ refused op x.

(** One process makes one call, or time passes. *)
Inductive system_step : System -> System -> Prop :=
| Called d d' procs i g X (op : Op X) k x :
    procs !! i = Some (mkProcess g (Call op k)) -> answers op d d' x ->
    system_step (d, procs) (d', <[i := mkProcess (grip_after op g x) (k x)]> procs)
| TimePassed d procs ms : system_step (d, procs) ((exec (Sleep ms) d).1, procs).

(** Removing the lock may fail, and then the process no longer counts as having it. *)
Record exclusive (s : System) : Prop := {
  exclusive_programs : forall i p, s.2 !! i = Some p -> disciplined (grip p) (code p) (fun _ _ => True);
  exclusive_grip : forall i j p q, s.2 !! i = Some p -> s.2 !! j = Some q -> grip p = true -> grip q = true -> i = j;
  exclusive_lock : forall i p, s.2 !! i = Some p -> grip p = true -> is_some (disk_files s.1 HubLock) = true
}.

(** Whether the lock is there after a call. *)
Lemma through_handle_exists f h change d g : is_some (disk_files (through_handle f h change d) g) = is_some (disk_files d g).
Proof.
  unfold through_handle. destruct (disk_files d f) as [ [h' text]|] eqn:E; [|done]. destruct (Nat.eqb h' h); [|done]. cbn [set_files disk_files].
  destruct (decide (f = g)) as [<- |Hne]; [by rewrite fn_lookup_insert, E|by rewrite fn_lookup_insert_ne].
Qed.

Lemma put_exists f contents d g : is_some (disk_files d g) = true -> is_some (disk_files (put f contents d) g) = true.
Proof. cbn [put disk_files]. destruct (decide (f = g)) as [<- |Hne]; [by rewrite fn_lookup_insert|by rewrite fn_lookup_insert_ne]. Qed.

Lemma exec_lock {X} (op : Op X) d d' x :
  exec op d = (d', x) -> moves_lock op = false -> is_some (disk_files d HubLock) = true -> is_some (disk_files d' HubLock) = true.
Proof.
  destruct op; cbn [exec]; intros Hx Hm Hd;
    repeat match goal with
    | Hx : match ?c with _ => _ end = _ |- _ => destruct c eqn:?
    | Hx : (_, _) = _ |- _ => injection Hx as <- <-
    end; try (by rewrite through_handle_exists); try (by apply put_exists); try done.
  - cbn [set_files disk_files]. rewrite fn_lookup_insert_ne; [done|]. by intros ->.
  - cbn [set_files disk_files]. rewrite !fn_lookup_insert_ne; [done|..]; intros ->; [by destruct source|done].
Qed.

(** A call keeps the grip and the lock, gives it back, or takes it when the lock was not there. *)
Lemma answers_grip {X} (op : Op X) g d d' x :
  allowed op g = true -> answers op d d' x ->
  (grip_after op g x = g /\ (is_some (disk_files d HubLock) = true -> is_some (disk_files d' HubLock) = true))
  \/ (g = true /\ grip_after op g x = false)
  \/ (g = false /\ grip_after op g x = true /\ is_some (disk_files d HubLock) = false /\ is_some (disk_files d' HubLock) = true).
Proof.
  unfold allowed. destruct (takes_lock op) eqn:Et.
  - destruct op; try done. destruct f; try done. intros Hg%negb_true_iff. subst g. intros [Hx|[-> Hr] ].
    + cbn [exec] in Hx. destruct (disk_files d HubLock) eqn:E; injection Hx as <- <-.
      * left. split; [reflexivity|]. intros _. by rewrite E.
      * right; right. split; [done|]. split; [reflexivity|]. split; [reflexivity|]. cbn [put disk_files]. by rewrite fn_lookup_insert.
    + destruct Hr as [error ->]. by left.
  - destruct (moves_lock op) eqn:Em.
    + destruct op; try done. destruct f; try done. intros Hg _. right; left. done.
    + intros _ Ha. left. split.
      * destruct op; try done; by destruct f.
      * destruct Ha as [Hx|[-> _] ]; [by eapply exec_lock|done].
Qed.

Lemma exclusive_called d d' procs i g X (op : Op X) k x :
  exclusive (d, procs) -> procs !! i = Some (mkProcess g (Call op k)) -> answers op d d' x ->
  exclusive (d', <[i := mkProcess (grip_after op g x) (k x)]> procs).
Proof.
  intros [Hp Hg Hl] Hi Ha. cbn [fst snd] in *. destruct (Hp i _ Hi) as [Hallow Hk]. cbn [grip code] in *.
  assert (Hi' : i < length procs) by (by eapply lookup_lt_Some).
  assert (Hlook : forall j q, <[i := mkProcess (grip_after op g x) (k x)]> procs !! j = Some q ->
    (j = i /\ q = mkProcess (grip_after op g x) (k x)) \/ (j <> i /\ procs !! j = Some q)).
  { intros j q Hj. destruct (decide (j = i)) as [-> |Hne]; [rewrite list_lookup_insert_eq in Hj by done; left; by simplify_eq|].
    rewrite list_lookup_insert_ne in Hj by congruence. by right. }
  pose proof (answers_grip op g d d' x Hallow Ha) as Hcase. split; cbn [fst snd].
  - intros j q [ [-> ->]|[_ Hj] ]%Hlook; [apply Hk|by apply (Hp j)].
  - intros j j' q q' [ [-> ->]|[Hj Hq] ]%Hlook [ [-> ->]|[Hj' Hq'] ]%Hlook; cbn [grip]; intros G G'; [done|..].
    + exfalso. destruct Hcase as [ [E _]|[ [_ E]|(_ & _ & E & _)] ]; [|congruence|by rewrite (Hl j' q') in E].
      apply Hj'. by apply (Hg j' i _ _ Hq' Hi G'); rewrite <- E.
    + exfalso. destruct Hcase as [ [E _]|[ [_ E]|(_ & _ & E & _)] ]; [|congruence|by rewrite (Hl j q) in E].
      apply Hj. by apply (Hg j i _ _ Hq Hi G); rewrite <- E.
    + by apply (Hg j j' q q').
  - intros j q [ [-> ->]|[Hj Hq] ]%Hlook; cbn [grip]; intros G.
    + destruct Hcase as [ [E Hd]|[ [_ E]|(_ & _ & _ & E)] ]; [|congruence|done]. apply Hd, (Hl i _ Hi). cbn [grip]. by rewrite <- E.
    + destruct Hcase as [ [E Hd]|[ [Eg _]|(_ & _ & _ & E)] ]; [by apply Hd, (Hl j q)| |done].
      exfalso. apply Hj. by apply (Hg j i _ _ Hq Hi G).
Qed.

Lemma exclusive_step s s' : exclusive s -> system_step s s' -> exclusive s'.
Proof.
  intros Hs Hstep. destruct Hstep as [d d1 procs i g X op k x Hi Ha|d procs ms]; [eapply exclusive_called; eauto|].
  destruct Hs as [Hp Hg Hl]. split; [exact Hp|exact Hg|exact Hl].
Qed.

(** Programs that do not clean up after others: the background process that runs the hub
    ([hub up] spawns it), the status and the logs.  [hub up] itself, in the foreground too,
    [hub down] and [hub repair] are not among them. *)
Section programs.
Context `{SerdeJson} (environment : string -> option string) (root_path : string).

Inductive hub_program : Prog Z -> Prop :=
| Runs rounds pid : hub_program (run_loop_command environment root_path rounds pid)
| Asks json_output : hub_program (run_status environment root_path json_output)
| ReadsLogs tail json_output : hub_program (run_logs environment root_path tail json_output).

(** The next call of the process says what the hub is doing. *)
Definition reporting (p : Process) : Prop := match code p with Call op _ => reports op = true | Done _ => False end.

(** C27: background processes that run the hub and commands that ask for its status and its
    logs, any number of them and with their system calls interleaved in any way, and failing
    where they may: at any time there is at most one that writes or removes the state and the
    health of the hub; it has created the lock and not given it back, no other process has,
    and the lock is there. *)
Theorem hub_processes_exclude d programs s i p :
  Forall hub_program programs ->
  reachable (fun s => s = (d, map (mkProcess false) programs)) system_step s ->
  s.2 !! i = Some p -> reporting p ->
  grip p = true /\ is_some (disk_files s.1 HubLock) = true
  /\ forall j q, s.2 !! j = Some q -> reporting q \/ grip q = true -> j = i.
Proof.
  intros Hprog Hreach Hi Rp. assert (He : exclusive s).
  { revert Hreach. apply reachable_invariant; [|intros; by eapply exclusive_step].
    intros s0 ->. split; cbn [fst snd].
    - intros k r (prog & -> & Hr)%list_lookup_fmap_Some. rewrite Forall_lookup in Hprog. specialize (Hprog _ _ Hr). cbn [grip code].
      destruct Hprog; [apply disciplined_run_loop_command|apply disciplined_run_status|apply disciplined_run_logs].
    - intros k k' r r' (prog & -> & _)%list_lookup_fmap_Some. done.
    - intros k r (prog & -> & _)%list_lookup_fmap_Some. done. }
  assert (Hgrip : forall k r, s.2 !! k = Some r -> reporting r -> grip r = true).
  { intros k r Hr Rr. pose proof (exclusive_programs _ He k r Hr) as Hd. unfold reporting in Rr. destruct (code r) as [|X op c]; [done|].
    destruct Hd as [Ha _]. unfold allowed in Ha. rewrite Rr in Ha.
    destruct op; cbn [reports takes_lock moves_lock] in *; try done; destruct f; done. }
  assert (Gp : grip p = true) by (by eapply Hgrip). split; [done|]. split; [by apply (exclusive_lock _ He i p)|].
  intros j q Hj Hq. apply (exclusive_grip _ He j i q p); try done. destruct Hq as [Hq|Hq]; [by eapply Hgrip|done].
Qed.
End programs.

(** ** What the lock does not promise *)

(** The next call of process [i], on the file system without failures. *)
Definition call_of (s : System) (i : nat) : System :=
  match s.2 !! i with
  | Some (mkProcess g (Call op k)) =>
      let '(d, x) := exec op s.1 in (d, <[i := mkProcess (grip_after op g x) (k x)]> s.2)
  | _ => s
  end.

Fixpoint calls_of (s : System) (schedule : list (nat * nat)) : System :=
  match schedule with
  | [] => s
  | (i, n) :: schedule => calls_of (Nat.iter n (fun s => call_of s i) s) schedule
  end.

Definition sample_readiness : ReadinessReport :=
  mkReadiness None "default" "built-in" 0 0 0 0 0 [] [] [] [] true true.

Definition empty_disk : Disk := mkDisk (fun _ => None) 0 1000000 (Ok sample_readiness) [] [].

Definition sample_run (pid : N) : Prog Z := run_loop_command (H := TreeCodec.codec) (fun _ => None) "/r" 2 pid.

Definition sample_down : Prog Z := run_down (H := TreeCodec.codec) (fun _ => None) "/r" true.

Definition code_at (s : System) (i : nat) : option (Prog Z) := option_map code (s.2 !! i).

Definition sample_repair : Prog Z := run_repair (H := TreeCodec.codec) (fun _ => None) "/r" true.

Definition reporting_at (s : System) (i : nat) : bool :=
  match code_at s i with Some (Call op _) => reports op | _ => false end.

(** A hub that has taken the lock and not yet written its state looks like one that left its
    lock behind: [hub down] removes the lock, and a second hub starts beside the first. *)
Lemma starting_hub_loses_its_lock :
  let s := calls_of (empty_disk, map (mkProcess false) [sample_run 1; sample_down; sample_run 2]) [(0, 22); (1, 80); (2, 20)] in
  code_at s 1 = Some (Done 0%Z) /\ reporting_at s 0 = true /\ reporting_at s 2 = true
  /\ map grip s.2 = [true; false; true].
Proof. vm_compute. repeat split. Qed.

Definition sample_up_foreground : Prog Z := run_up (H := TreeCodec.codec) (fun _ => None) "/r" (Some (2%nat, 2%N)) true.

(** [hub up --foreground] does the same by itself: it takes the starting hub for one that has
    ended, removes its lock and runs beside it. *)
Lemma foreground_hub_joins_a_starting_hub :
  let s := calls_of (empty_disk, map (mkProcess false) [sample_run 1; sample_up_foreground]) [(0, 22); (1, 50)] in
  reporting_at s 0 = true /\ reporting_at s 1 = true /\ map grip s.2 = [true; true].
Proof. vm_compute. repeat split. Qed.

(** A lock that is created and not yet written cannot be read: [hub repair] moves it away,
    with the same effect. *)
Lemma unwritten_lock_is_repaired_away :
  let s := calls_of (empty_disk, map (mkProcess false) [sample_run 1; sample_repair; sample_run 2]) [(0, 21); (1, 80); (2, 19)] in
  code_at s 1 = Some (Done 0%Z) /\ map grip s.2 = [true; false; true].
Proof. vm_compute. repeat split. Qed.

(** ** Repair *)

Section repair.
Context `{SerdeJsonLaws} (environment : string -> option string) (root_path : string).

(** What a program leaves, run alone from [d]. *)
Definition leaves {A} (d : Disk) (p : Prog A) (Q : Disk -> A -> Prop) : Prop := Q (run p d).1 (run p d).2.

Lemma leaves_done {A} d (a : A) (Q : Disk -> A -> Prop) : Q d a -> leaves d (Done a) Q.
Proof. done. Qed.

Lemma run_bind {A B} (p : Prog A) (k : A -> Prog B) d : run (prog_bind p k) d = run (k (run p d).2) (run p d).1.
Proof. revert d. induction p as [a|X op k' IH]; intros d; cbn [prog_bind run]; [done|]. destruct (exec op d) as [d' x]. apply IH. Qed.

Lemma leaves_bind {A B} d (p : Prog A) (k : A -> Prog B) (Q : Disk -> B -> Prop) :
  leaves d p (fun d' a => leaves d' (k a) Q) -> leaves d (prog_bind p k) Q.
Proof. unfold leaves. by rewrite run_bind. Qed.

Lemma leaves_call {A X} d (op : Op X) (k : X -> Prog A) (Q : Disk -> A -> Prop) :
  leaves (exec op d).1 (k (exec op d).2) Q -> leaves d (Call op k) Q.
Proof. unfold leaves. cbn [run]. by destruct (exec op d). Qed.

Lemma leaves_mono {A} d (p : Prog A) (P Q : Disk -> A -> Prop) : (forall d a, P d a -> Q d a) -> leaves d p P -> leaves d p Q.
Proof. unfold leaves. auto. Qed.

Lemma leaves_try {A B} d (p : Prog (result A string)) (k : A -> Prog (result B string)) (Q : Disk -> result B string -> Prop) :
  leaves d p (fun d' r => exists a, r = Ok a /\ leaves d' (k a) Q) -> leaves d (prog_try p k) Q.
Proof. intros Hp. apply leaves_bind. eapply leaves_mono; [|exact Hp]. by intros d' r (a & -> & Hk). Qed.

(** The same clock and readiness, and the same files but some. *)
Record same_but (fs : list RuntimeFile) (d d' : Disk) : Prop := {
  same_clock : disk_clock d' = disk_clock d;
  same_readiness : disk_readiness d' = disk_readiness d;
  same_files : forall f, f ∉ fs -> disk_files d' f = disk_files d f
}.

Lemma same_but_refl fs d : same_but fs d d.
Proof. done. Qed.

Lemma same_but_put f contents d : same_but [f] d (put f contents d).
Proof. split; [done|done|]. intros g Hg. cbn [put disk_files]. rewrite fn_lookup_insert_ne; [done|]. set_solver. Qed.

Lemma same_but_trans fs gs d1 d2 d3 : same_but fs d1 d2 -> same_but gs d2 d3 -> same_but (fs ++ gs) d1 d3.
Proof.
  intros [C1 R1 F1] [C2 R2 F2]. split; [congruence|congruence|]. intros f Hf. rewrite elem_of_app in Hf. rewrite F2, F1; tauto.
Qed.

(** The file is missing or JSON. *)
Definition readable (d : Disk) (f : RuntimeFile) : Prop := forall text, text_at d f = Some text -> is_ok (parse_str text) = true.

Lemma readable_same fs d d' f : same_but fs d d' -> f ∉ fs -> readable d f -> readable d' f.
Proof. intros [_ _ Hf] Hn Hr text. unfold text_at. rewrite Hf by done. apply Hr. Qed.

Lemma readable_put d f v : serializable v -> readable (put f (to_pretty_string v) d) f.
Proof.
  intros Hv text. unfold text_at. cbn [put disk_files]. rewrite fn_lookup_insert. cbn [option_map snd]. intros [= <-].
  by rewrite parse_str_pretty.
Qed.

Lemma leaves_seed d f v (Q : Disk -> result bool string -> Prop) :
  serializable v ->
  (forall d' b, same_but [f] d d' -> (readable d f -> readable d' f) -> Q d' (Ok b)) ->
  leaves d (seed_json_if_missing environment root_path f v) Q.
Proof.
  intros Hv HQ. unfold seed_json_if_missing. apply leaves_bind, leaves_call. cbn [exec fst snd]. apply leaves_done.
  destruct (is_some (disk_files d f)); [apply leaves_done, HQ; [apply same_but_refl|done]|].
  unfold leaves. cbn. apply HQ; [apply same_but_put|]. intros _. by apply readable_put.
Qed.

Lemma leaves_remove d f (Q : Disk -> result unit string -> Prop) :
  (forall d', same_but [f] d d' -> disk_files d' f = None -> Q d' (Ok tt)) -> leaves d (remove_if_file environment root_path f) Q.
Proof.
  intros HQ. unfold remove_if_file, remove_if_present. apply leaves_bind, leaves_call. cbn [exec fst snd]. apply leaves_done.
  destruct (disk_files d f) as [file|] eqn:E; cbn [is_some].
  - unfold leaves. cbn [prog_bind call run exec]. rewrite E. cbn [fst snd run prog_bind]. apply HQ; cbn [set_files disk_files].
    + split; [done|done|]. intros g Hg. cbn [set_files disk_files]. rewrite fn_lookup_insert_ne; [done|set_solver].
    + by rewrite fn_lookup_insert.
  - apply leaves_done, HQ; [apply same_but_refl|done].
Qed.

(** A program that takes no time and writes to some files only. *)
Definition written {X} (op : Op X) : list RuntimeFile :=
  match op with
  | WriteAtomic f _ | RemoveFile f | CreateNew f | WriteHandle f _ _ | OpenAppend f | AppendLine f _ _ => [f]
  | RenameFile source target => [source; target]
  | _ => []
  end.

Definition passes_time {X} (op : Op X) : bool := match op with Sleep _ => true | _ => false end.

Fixpoint within {A} (fs : list RuntimeFile) (p : Prog A) : Prop :=
  match p with
  | Done _ => True
  | Call op k => (passes_time op = false /\ written op ⊆ fs) /\ forall x, within fs (k x)
  end.

Lemma exec_same {X} (op : Op X) d : passes_time op = false -> same_but (written op) d (exec op d).1.
Proof.
  intros Ht. destruct op; try done; cbn [exec written fst]; unfold through_handle; repeat case_match; try done; try apply same_but_put;
    (split; [done|done|]; intros g Hg; cbn [set_files disk_files fst]; rewrite ?fn_lookup_insert_ne by set_solver; done).
Qed.

Lemma within_same {A} fs (p : Prog A) d : within fs p -> same_but fs d (run p d).1.
Proof.
  revert d. induction p as [a|X op k IH]; intros d; cbn [within run]; [by intros _; apply same_but_refl|]. intros [ [Ht Hw] Hk].
  pose proof (exec_same op d Ht) as He. destruct (exec op d) as [d' x] eqn:E. cbn [fst] in He. specialize (IH x d' (Hk x)).
  destruct He as [C1 R1 F1], IH as [C2 R2 F2]. split; [congruence|congruence|]. intros f Hf. rewrite F2, F1; [done|set_solver|done].
Qed.

Lemma leaves_within {A} fs d (p : Prog A) (Q : Disk -> A -> Prop) :
  within fs p -> (forall d' a, same_but fs d d' -> Q d' a) -> leaves d p Q.
Proof. intros Hp HQ. apply HQ. by apply within_same. Qed.

Lemma within_bind {A B} fs (p : Prog A) (k : A -> Prog B) : within fs p -> (forall a, within fs (k a)) -> within fs (prog_bind p k).
Proof. intros Hp Hk. induction p as [a|X op k' IH]; cbn [prog_bind]; [apply Hk|]. destruct Hp as [Ho Hp]. split; [done|]. intros x. by apply IH. Qed.

Lemma within_try {A B E} fs (p : Prog (result A E)) (k : A -> Prog (result B E)) :
  within fs p -> (forall a, within fs (k a)) -> within fs (prog_try p k).
Proof. intros Hp Hk. apply within_bind; [done|]. intros [a|e]; [apply Hk|done]. Qed.

Lemma within_call {X} fs (op : Op X) : passes_time op = false -> written op ⊆ fs -> within fs (call op).
Proof. by repeat split. Qed.

Lemma within_call_err {X} fs (op : Op (result X string)) text : passes_time op = false -> written op ⊆ fs -> within fs (call_err op text).
Proof. intros. apply within_bind; [by apply within_call|done]. Qed.

Ltac within_steps :=
  repeat first
    [ match goal with |- within _ (Done _) => exact I end
    | match goal with |- within _ (if ?c then _ else _) => destruct c end
    | match goal with |- within _ (match ?c with _ => _ end) => destruct c end
    | (apply within_try; [|intros ?])
    | (apply within_call; [reflexivity|set_solver])
    | (apply within_call_err; [reflexivity|set_solver])
    | (apply within_bind; [|intros ?]) ].

Lemma within_append_log level event fields : within [HubLog; HubLogArchive] (append_log environment root_path level event fields).
Proof.
  unfold append_log, rotate_logs_if_needed, rotate_logs_if_needed_with_max, remove_if_present, now_ms. within_steps.
Qed.

(** *** Reading *)

Definition diagnosed (d : Disk) (f : RuntimeFile) : JsonFileDiagnostic :=
  match text_at d f with
  | None => mkDiagnostic f false None None
  | Some text => parsed_diagnostic environment root_path f (Ok text)
  end.

Lemma run_diagnostic d f : run (read_json_diagnostic environment root_path f) d = (d, diagnosed d f).
Proof.
  unfold read_json_diagnostic, diagnosed, text_at. cbn [prog_bind call run exec]. destruct (disk_files d f) as [ [h text]|] eqn:E; [|done].
  cbn. unfold text_at. by rewrite E.
Qed.

Lemma run_diagnostics d fs : run (read_diagnostics environment root_path fs) d = (d, map (diagnosed d) fs).
Proof.
  induction fs as [|f fs IH]; [done|]. cbn [read_diagnostics]. rewrite run_bind, run_diagnostic. cbn [fst snd]. by rewrite run_bind, IH.
Qed.

Lemma diagnosed_error d f : is_some (diagnostic_error (diagnosed d f)) = false <-> readable d f.
Proof.
  unfold diagnosed, readable, parsed_diagnostic. destruct (text_at d f) as [text|]; cbn; [|by split].
  destruct (parse_str text) eqn:E; cbn; split; try done; [by intros _ t [= <-]; rewrite E|]. intros Hr. by specialize (Hr _ eq_refl); rewrite E in Hr.
Qed.

Lemma diagnosed_file d f : diagnostic_file (diagnosed d f) = f.
Proof. unfold diagnosed, parsed_diagnostic. by repeat case_match. Qed.

Definition files_of (d : Disk) : FilesRead :=
  mkFilesRead (diagnosed d ProjectRegistry) (diagnosed d HubLeases) (diagnosed d HubState) (diagnosed d HubHealth) (diagnosed d HubLock).

Lemma run_files d : run (read_files environment root_path) d = (d, files_of d).
Proof. unfold read_files. do 5 (rewrite run_bind, run_diagnostic; cbn [fst snd]). reflexivity. Qed.

Lemma run_collect d readiness :
  disk_readiness d = Ok readiness ->
  run (collect environment root_path) d = (d, Ok (status_from environment root_path readiness (files_of d) (disk_clock d))).
Proof.
  intros Hr. unfold collect, collect_status, prog_try. rewrite run_bind. cbn [call run exec fst snd]. rewrite Hr.
  rewrite run_bind, run_files. reflexivity.
Qed.

Lemma readable_not_corrupted d : (forall f, f ∈ json_files -> readable d f) -> corrupted_files environment root_path (files_of d) = [].
Proof.
  intros Hr. unfold corrupted_files, files_of. cbn.
  assert (Hc : forall f, f ∈ json_files -> corruption environment root_path (diagnosed d f) = None).
  { intros f Hf. unfold corruption. specialize (proj2 (diagnosed_error d f) (Hr f Hf)). by destruct (diagnostic_error _). }
  by rewrite !Hc by (unfold json_files; set_solver).
Qed.

(** *** Archiving *)

Lemma leaves_archive d fs (Q : Disk -> result (list string) string -> Prop) :
  fs ⊆ json_files -> NoDup fs -> (forall f, f ∈ fs -> is_some (disk_files d f) = true) ->
  (forall d' paths, disk_clock d' = disk_clock d -> disk_readiness d' = disk_readiness d ->
     (forall f, f ∈ json_files -> disk_files d' f = if bool_decide (f ∈ fs) then None else disk_files d f) -> Q d' (Ok paths)) ->
  leaves d (archive_all environment root_path fs) Q.
Proof.
  revert d Q. induction fs as [|f fs IH]; intros d Q Hsub Hnd Hex HQ; cbn [archive_all].
  - apply leaves_done, HQ; [done|done|]. intros g _. by rewrite bool_decide_eq_false_2 by apply not_elem_of_nil.
  - apply NoDup_cons in Hnd as [Hnf Hnd]. assert (Hf : f ∈ json_files) by (apply Hsub; left).
    destruct (disk_files d f) as [file|] eqn:E; [|by specialize (Hex f ltac:(left)); rewrite E in Hex].
    apply leaves_try. unfold leaves at 1, archive_corrupted_file, prog_try, call_err, now_ms, call. cbn [prog_bind run exec].
    rewrite E. cbn [map_err prog_bind run fst snd].
    set (d1 := set_files _ d). assert (Hd1 : forall g, g ∈ json_files -> disk_files d1 g = if decide (g = f) then None else disk_files d g).
    { intros g Hg. unfold d1. cbn [set_files disk_files]. destruct (decide (g = f)) as [-> |Hne]; [by rewrite fn_lookup_insert|].
      rewrite !fn_lookup_insert_ne; [done|intros <-|congruence]. unfold json_files in Hg. set_solver. }
    eexists. split; [done|]. apply leaves_try, IH; [set_solver|done| |].
    + intros g Hg. rewrite Hd1 by set_solver. rewrite decide_False by (intros ->; done). apply Hex. by right.
    + intros d2 paths C R F. exists paths. split; [done|]. apply leaves_done, HQ; [done|done|]. intros g Hg. rewrite F, Hd1 by done.
      destruct (decide (g = f)) as [-> |Hne].
      * rewrite (bool_decide_eq_true_2 (f ∈ f :: fs)) by left. by case_match.
      * assert (Hiff : g ∈ f :: fs <-> g ∈ fs) by (rewrite elem_of_cons; tauto). by rewrite (bool_decide_ext _ _ Hiff).
Qed.

Lemma corrupted_diagnosed d fs :
  corrupted_files_of (map (diagnosed d) fs) = List.filter (fun f => is_some (diagnostic_error (diagnosed d f))) fs.
Proof.
  unfold corrupted_files_of. induction fs as [|f fs IH]; [done|]. cbn [map List.filter]. destruct (is_some _); cbn [map]; [|done].
  by rewrite diagnosed_file, IH.
Qed.

(** After the unreadable files are archived all are readable. *)
Lemma leaves_archive_corrupted d (Q : Disk -> result (list string) string -> Prop) :
  (forall d' paths, disk_clock d' = disk_clock d -> disk_readiness d' = disk_readiness d ->
     (forall f, f ∈ json_files -> readable d' f) -> Q d' (Ok paths)) ->
  leaves d (archive_all environment root_path (corrupted_files_of (map (diagnosed d) json_files))) Q.
Proof.
  intros HQ. rewrite corrupted_diagnosed. set (bad := fun f => is_some (diagnostic_error (diagnosed d f))).
  assert (Hbad : forall f, f ∈ List.filter bad json_files <-> f ∈ json_files /\ bad f = true)
    by (intros f; rewrite !list_elem_of_In; apply filter_In).
  apply leaves_archive.
  - intros f Hf. by apply Hbad in Hf as [? _].
  - apply NoDup_ListNoDup, List.NoDup_filter, NoDup_ListNoDup. by apply (bool_decide_unpack _); vm_compute.
  - intros f [_ Hf]%Hbad. unfold bad, diagnosed, text_at in Hf. by destruct (disk_files d f).
  - intros d' paths C R F. apply HQ; [done|done|]. intros f Hf text. unfold text_at. rewrite F by done.
    case_bool_decide as Hb; [done|]. rewrite Hbad in Hb. revert text. change (readable d f). apply diagnosed_error. fold (bad f). destruct (bad f); [|done]. by destruct Hb.
Qed.

(** *** The whole repair *)

Lemma serializable_registry : serializable default_project_registry.
Proof.
  split; [|apply Nat.leb_le; reflexivity]. apply representable_object. split; [apply bt_of_list_wf|].
  repeat constructor. apply (number_u64_exact 1). done.
Qed.

Lemma serializable_leases now : (now <= U64_MAX)%N -> serializable (default_lease_store now).
Proof.
  intros Hn. split; [|apply Nat.leb_le; reflexivity]. apply representable_object. split; [apply bt_of_list_wf|].
  repeat constructor; [by apply number_u64_exact|]. by apply (number_u64_exact 2).
Qed.

Lemma leaves_layout d (Q : Disk -> result unit string -> Prop) :
  (disk_clock d <= U64_MAX)%N ->
  (forall d', disk_clock d' = disk_clock d -> disk_readiness d' = disk_readiness d -> Q d' (Ok tt)) ->
  leaves d (ensure_runtime_layout environment root_path) Q.
Proof.
  intros Hc HQ. unfold ensure_runtime_layout. do 2 (apply leaves_try, leaves_call; eexists; split; [done|]). cbn [exec fst].
  apply leaves_try, leaves_seed; [apply serializable_registry|]. intros d1 b [C1 R1 _] _. eexists. split; [done|].
  apply leaves_bind, leaves_call. cbn [exec fst snd]. apply leaves_done.
  apply leaves_try, leaves_seed; [apply serializable_leases; by rewrite C1|]. intros d2 b' [C2 R2 _] _. eexists. split; [done|].
  apply leaves_done, HQ; [exact (eq_trans C2 C1)|exact (eq_trans R2 R1)].
Qed.

Definition stopped_state (now : N) : JsonValue := state_json environment root_path "stopped" None None (Some now).

Lemma stopped_state_status now : first_string [None; Some (stopped_state now)] ["status"] = Some "stopped".
Proof. reflexivity. Qed.

(** A disk without lock and health whose state says stopped. *)
Lemma stopped_disk_status d readiness now :
  disk_readiness d = Ok readiness -> (forall f, f ∈ json_files -> readable d f) -> disk_files d HubHealth = None ->
  disk_files d HubLock = None -> text_at d HubState = Some (to_pretty_string (stopped_state now)) -> serializable (stopped_state now) ->
  exists s, (run (collect environment root_path) d).2 = Ok s /\ hs_status s = "stopped" /\ hs_corrupted_files s = []
            /\ hs_repair_recommended s = false.
Proof.
  intros Hr Hread Hh Hl Hs Hv. rewrite (run_collect d readiness) by done. eexists. split; [done|].
  unfold status_from, classified. rewrite readable_not_corrupted by done.
  assert (Eh : diagnosed d HubHealth = mkDiagnostic HubHealth false None None) by (unfold diagnosed, text_at; by rewrite Hh).
  assert (El : diagnosed d HubLock = mkDiagnostic HubLock false None None) by (unfold diagnosed, text_at; by rewrite Hl).
  assert (Es : diagnosed d HubState = mkDiagnostic HubState true (Some (stopped_state now)) None).
  { unfold diagnosed, parsed_diagnostic. rewrite Hs. by rewrite parse_str_pretty. }
  assert (Hrep : reported_status (files_of d) = "stopped").
  { unfold reported_status, files_of. cbn [health_file state_file]. rewrite Eh, Es. reflexivity. }
  cbn zeta. rewrite Hrep. cbn [files_of lock_file]. rewrite El. repeat split.
Qed.

(** The parts of the repair: what is in the way is removed, and the files are written anew. *)
Definition cleared (d d' : Disk) : Prop :=
  disk_clock d' = disk_clock d /\ disk_readiness d' = disk_readiness d /\ disk_files d' HubHealth = None /\ disk_files d' HubLock = None
  /\ forall f, f ∈ json_files -> readable d' f.

Lemma leaves_cleared {A} d (k : list string -> Prog (result A string)) (Q : Disk -> result A string -> Prop) :
  (forall d' archived, cleared d d' -> leaves d' (k archived) Q) ->
  leaves d (archived ⇠? archive_all environment root_path (corrupted_files_of (map (diagnosed d) json_files)) ;;
            _ ⇠? remove_if_file environment root_path HubStop ;;
            _ ⇠? remove_if_file environment root_path HubHealth ;;
            _ ⇠? remove_if_file environment root_path HubLock ;; k archived) Q.
Proof.
  intros Hk. apply leaves_try, leaves_archive_corrupted. intros d2 archived C2 R2 F2. eexists. split; [done|].
  apply leaves_try, leaves_remove. intros d3 S3 _. eexists. split; [done|].
  apply leaves_try, leaves_remove. intros d4 S4 N4. eexists. split; [done|].
  apply leaves_try, leaves_remove. intros d5 S5 N5. eexists. split; [done|]. apply Hk. split; [|split; [|split; [|split] ] ].
  - rewrite (same_clock _ _ _ S5), (same_clock _ _ _ S4), (same_clock _ _ _ S3). done.
  - rewrite (same_readiness _ _ _ S5), (same_readiness _ _ _ S4), (same_readiness _ _ _ S3). done.
  - rewrite (same_files _ _ _ S5) by set_solver. done.
  - done.
  - intros f Hf. destruct (decide (f = HubLock)) as [-> |]; [intros text; unfold text_at; by rewrite N5|].
    eapply readable_same; [exact S5|set_solver|]. destruct (decide (f = HubHealth)) as [-> |]; [intros text; unfold text_at; by rewrite N4|].
    eapply readable_same; [exact S4|set_solver|]. eapply readable_same; [exact S3| |by apply F2]. unfold json_files in Hf. set_solver.
Qed.

Definition reset (d : Disk) (d' : Disk) : Prop :=
  disk_readiness d' = disk_readiness d /\ disk_files d' HubHealth = None /\ disk_files d' HubLock = None
  /\ text_at d' HubState = Some (to_pretty_string (stopped_state (disk_clock d))) /\ forall f, f ∈ json_files -> readable d' f.

Lemma leaves_reset {A} d0 d (k : bool -> bool -> Prog (result A string)) (Q : Disk -> result A string -> Prop) :
  cleared d0 d -> (disk_clock d0 <= U64_MAX)%N -> serializable (stopped_state (disk_clock d0)) ->
  (forall d' b b', reset d0 d' -> leaves d' (k b b') Q) ->
  leaves d (b ⇠? seed_json_if_missing environment root_path ProjectRegistry default_project_registry ;;
            now ⇠ now_ms ;;
            b' ⇠? seed_json_if_missing environment root_path HubLeases (default_lease_store now) ;;
            stopped ⇠ now_ms ;;
            _ ⇠? write_state_metadata environment root_path "stopped" None None (Some stopped) ;; k b b') Q.
Proof.
  intros (C & R & Nh & Nl & F) Hc Hv Hk.
  apply leaves_try, leaves_seed; [apply serializable_registry|]. intros d6 b6 S6 F6. eexists. split; [done|].
  apply leaves_bind, leaves_call. cbn [exec fst snd]. apply leaves_done.
  assert (C6 : disk_clock d6 = disk_clock d0) by (by rewrite (same_clock _ _ _ S6)).
  apply leaves_try, leaves_seed; [apply serializable_leases; by rewrite C6|]. intros d7 b7 S7 F7. eexists. split; [done|].
  apply leaves_bind, leaves_call. cbn [exec fst snd]. apply leaves_done. rewrite (same_clock _ _ _ S7), C6.
  apply leaves_try, leaves_call. cbn [exec fst snd]. eexists. split; [done|].
  set (d8 := put HubState (to_pretty_string (stopped_state (disk_clock d0))) d7). apply (Hk d8).
  assert (S8 : same_but [HubState] d7 d8) by apply same_but_put. split; [|split; [|split; [|split] ] ].
  - rewrite (same_readiness _ _ _ S8), (same_readiness _ _ _ S7), (same_readiness _ _ _ S6). done.
  - rewrite (same_files _ _ _ S8), (same_files _ _ _ S7), (same_files _ _ _ S6) by set_solver. done.
  - rewrite (same_files _ _ _ S8), (same_files _ _ _ S7), (same_files _ _ _ S6) by set_solver. done.
  - unfold d8, text_at. cbn [put disk_files]. by rewrite fn_lookup_insert.
  - intros f Hf. destruct (decide (f = HubState)) as [-> |Hn]; [by apply readable_put|].
    eapply readable_same; [exact S8|set_solver|].
    destruct (decide (f = HubLeases)) as [-> |Hn2]; [apply F7; eapply readable_same; [exact S6|set_solver|by apply F]|].
    eapply readable_same; [exact S7|set_solver|]. destruct (decide (f = ProjectRegistry)) as [-> |Hn3]; [by apply F6, F|].
    eapply readable_same; [exact S6|set_solver|by apply F].
Qed.

(** C28: the repair brings the hub back from any contents of its files, whatever they are: it
    succeeds, and after it the status is stopped, no file is corrupt and no further repair is
    recommended. *)
Theorem repair_restores_a_stopped_hub d readiness :
  disk_readiness d = Ok readiness -> (disk_clock d <= U64_MAX)%N -> serializable (stopped_state (disk_clock d)) ->
  let '(d', outcome) := run (repair_runtime_files environment root_path) d in
  is_ok outcome = true
  /\ exists s, (run (collect environment root_path) d').2 = Ok s /\ hs_status s = "stopped" /\ hs_corrupted_files s = []
               /\ hs_repair_recommended s = false.
Proof.
  intros Hr Hc Hv.
  assert (Hl : leaves d (repair_runtime_files environment root_path) (fun d' outcome =>
    is_ok outcome = true
    /\ exists s, (run (collect environment root_path) d').2 = Ok s /\ hs_status s = "stopped" /\ hs_corrupted_files s = []
                 /\ hs_repair_recommended s = false)).
  2: { unfold leaves in Hl. by destruct (run (repair_runtime_files environment root_path) d). }
  unfold repair_runtime_files. apply leaves_try, leaves_layout; [done|]. intros d1 C1 R1. eexists. split; [done|].
  apply leaves_bind. unfold leaves at 1. rewrite run_diagnostics. cbn [fst snd].
  apply leaves_cleared. intros d5 archived H5. eapply leaves_reset; [exact H5|by rewrite C1|by rewrite C1|].
  intros d8 b b' (R & Nh & Nl & Ns & F). apply leaves_bind. eapply leaves_within; [apply within_append_log|]. intros d9 r S9.
  apply leaves_done. split; [done|]. apply (stopped_disk_status d9 readiness (disk_clock d)); try done.
  - rewrite (same_readiness _ _ _ S9). congruence.
  - intros f Hf. eapply readable_same; [exact S9|unfold json_files in Hf; set_solver|by apply F].
  - rewrite (same_files _ _ _ S9) by set_solver. done.
  - rewrite (same_files _ _ _ S9) by set_solver. done.
  - unfold text_at in *. rewrite (same_files _ _ _ S9) by set_solver. by rewrite <- C1.
Qed.

(** *** A live hub *)

Lemma within_layout : within [ProjectRegistry; HubLeases] (ensure_runtime_layout environment root_path).
Proof. unfold ensure_runtime_layout, seed_json_if_missing, write_atomic, now_ms. within_steps. Qed.

Lemma within_lines fs lines : within fs (print_lines lines).
Proof. induction lines as [|line lines IH]; [done|]. cbn [print_lines]. apply within_bind; [apply within_call; [done|set_solver]|]. by intros _. Qed.

(** Starting a hub that is live answers with its status, and repairing it is refused; its
    files are left as they are (the registry and the lease store are created if missing). *)
Theorem live_hub_is_not_disturbed d readiness foreground json_output :
  let d1 := (run (ensure_runtime_layout environment root_path) d).1 in
  disk_readiness d = Ok readiness -> (disk_clock d <= U64_MAX)%N ->
  is_live_status (hs_status (status_from environment root_path readiness (files_of d1) (disk_clock d))) = true ->
  let up := run (run_up environment root_path foreground json_output) d in
  let repair := run (run_repair environment root_path json_output) d in
  (up.2 = 0%Z /\ same_but [ProjectRegistry; HubLeases] d up.1) /\ (repair.2 = 1%Z /\ same_but [ProjectRegistry; HubLeases] d repair.1).
Proof.
  intros d1 Hr Hc Hl. pose proof (within_same _ _ d within_layout) as S1. fold d1 in S1.
  assert (E1 : (run (ensure_runtime_layout environment root_path) d).2 = Ok tt).
  { apply (leaves_layout d (fun _ r => r = Ok tt)); [done|]. done. }
  assert (E2 : run (collect environment root_path) d1 = (d1, Ok (status_from environment root_path readiness (files_of d1) (disk_clock d)))).
  { rewrite (run_collect d1 readiness); [by rewrite (same_clock _ _ _ S1)|]. by rewrite (same_readiness _ _ _ S1). }
  assert (Hthen : forall (p : Prog Z), within [] p -> same_but [ProjectRegistry; HubLeases] d (run p d1).1).
  { intros p Hp. pose proof (within_same _ _ d1 Hp) as S2. eapply same_but_trans in S2; [|exact S1]. by rewrite app_nil_r in S2. }
  cbn zeta. unfold run_up, run_repair, or_fail. rewrite !run_bind, E1. fold d1. rewrite !run_bind, E2. cbn [fst snd]. rewrite Hl. split.
  - split; [unfold write_status_response; by rewrite run_bind|]. apply Hthen. apply within_bind; [apply within_lines|done].
  - split; [done|]. apply Hthen. unfold fail_with, stderr_line. within_steps.
Qed.
End repair.

(** ** Witnesses *)

Lemma call_of_step s i : call_of s i = s \/ system_step s (call_of s i).
Proof.
  destruct s as [d procs]. unfold call_of. cbn [fst snd]. destruct (procs !! i) as [ [g [a|X op k] ]|] eqn:E; [by left| |by left].
  right. destruct (exec op d) as [d' x] eqn:Ex. eapply Called; [exact E|]. by left.
Qed.

Lemma calls_of_reachable init s schedule : reachable init system_step s -> reachable init system_step (calls_of s schedule).
Proof.
  assert (Hn : forall i n s, reachable init system_step s -> reachable init system_step (Nat.iter n (fun s => call_of s i) s)).
  { intros i n s0 H0. induction n as [|n IH]; [done|].
    change (reachable init system_step (call_of (Nat.iter n (fun s => call_of s i) s0) i)).
    destruct (call_of_step (Nat.iter n (fun s => call_of s i) s0) i) as [E|Hs]; [by rewrite E|by eapply reachable_step]. }
  revert s. induction schedule as [|[i n] schedule IH]; intros s Hs; [done|]. cbn [calls_of]. by apply IH, Hn.
Qed.

Definition sample_system : System := (empty_disk, map (mkProcess false) [sample_run 1; sample_run 2]).

Definition sample_moment : System := calls_of sample_system [(0, 22); (1, 30)].

Lemma reporting_at_process s i : reporting_at s i = true -> exists p, s.2 !! i = Some p /\ reporting p.
Proof.
  unfold reporting_at, code_at, reporting. destruct (s.2 !! i) as [p|]; [|done]. cbn [option_map]. intros Hr. exists p. split; [done|].
  by destruct (code p).
Qed.

Lemma hub_processes_exclude_witness :
  exists p, sample_moment.2 !! 0 = Some p /\ grip p = true /\ is_some (disk_files sample_moment.1 HubLock) = true.
Proof.
  destruct (reporting_at_process sample_moment 0) as (p & Hp & Rp); [by vm_compute|]. exists p. split; [exact Hp|].
  destruct (hub_processes_exclude (H := TreeCodec.codec) (fun _ => None) "/r" empty_disk [sample_run 1; sample_run 2] sample_moment 0 p) as (Hg & Hl & _).
  - repeat constructor.
  - apply calls_of_reachable. by apply reachable_init.
  - exact Hp.
  - exact Rp.
  - split; [exact Hg|exact Hl].
Defined.

Definition broken_disk : Disk := put HubLock "x" (put HubState "{" empty_disk).

Lemma repair_restores_a_stopped_hub_witness :
  let '(d', outcome) := run (repair_runtime_files (H := TreeCodec.codec) (fun _ => None) "/r") broken_disk in
  is_ok outcome = true
  /\ exists s, (run (collect (H := TreeCodec.codec) (fun _ => None) "/r") d').2 = Ok s /\ hs_status s = "stopped"
               /\ hs_corrupted_files s = [] /\ hs_repair_recommended s = false.
Proof.
  apply (repair_restores_a_stopped_hub (H := TreeCodec.codec) (H0 := TreeCodec.codec_laws) (fun _ => None) "/r" broken_disk sample_readiness).
  - reflexivity.
  - by vm_compute.
  - apply TreeCodec.serializable_b_sound. vm_compute. reflexivity.
Defined.

(** A disk with a hub that has just said it is running. *)
Definition live_disk : Disk :=
  put HubHealth (to_pretty_string (H := TreeCodec.codec) (health_json "running" 7 900000 999000)) empty_disk.

Lemma live_hub_is_not_disturbed_witness :
  (run (run_up (H := TreeCodec.codec) (fun _ => None) "/r" None true) live_disk).2 = 0%Z.
Proof.
  apply (live_hub_is_not_disturbed (H := TreeCodec.codec) (H0 := TreeCodec.codec_laws) (fun _ => None) "/r" live_disk sample_readiness None true).
  - reflexivity.
  - by vm_compute.
  - vm_compute. reflexivity.
Defined.
