(* ===== verification/RestartGuard.v ===== *)
(** * The restart guard (src/restart_guard.rs)

    A file of start times keeps a background runtime from being started again and again.
    What the reads and writes of the file answer is an argument.  A sequence of starts and
    stops, as src/serve.rs makes them, is run on a file whose reads and writes succeed. *)

From Stdlib Require Import Ascii.
From S2P Require Import Prelude RustStr Json TextUtils HttpProbe.

Inductive RestartGuardError :=
| LaunchBlocked (label : string) (attempts : N) (window_ms : N)
| WriteFailed (path reason : string).

Definition display_restart_guard_error (error : RestartGuardError) : string :=
  match error with
  | LaunchBlocked label attempts window_ms =>
      label +:+ " restart guard blocked launch after " +:+ N_to_string attempts +:+ " starts within " +:+ N_to_string window_ms
      +:+ " ms; inspect `mcpace status` and `mcpace advanced runtime logs`, then run 'mcpace stop' after fixing the cause"
  | WriteFailed path reason => "failed to write restart guard '" +:+ path +:+ "': " +:+ reason
  end.

Definition ENV_RESTART_WINDOW_MS : string := "MCPACE_SERVE_RESTART_WINDOW_MS".
Definition ENV_RESTART_MAX_ATTEMPTS : string := "MCPACE_SERVE_RESTART_MAX_ATTEMPTS".
Definition DEFAULT_RESTART_WINDOW_MS : N := 120000.
Definition DEFAULT_RESTART_MAX_ATTEMPTS : N := 5.
Definition RESTART_WINDOW_MS_MAX : N := 3600000.
Definition RESTART_MAX_ATTEMPTS_MAX : N := 100.

Definition guard_line_end : string := String "010"%char EmptyString.

Section guard.
Context (environment : string -> option string).

Definition restart_window_ms : N :=
  unwrap_or (option_map (clamp 1 RESTART_WINDOW_MS_MAX) (environment ENV_RESTART_WINDOW_MS ≫= fun value => parse_u64 (trim value)))
    DEFAULT_RESTART_WINDOW_MS.

Definition restart_max_attempts : N :=
  unwrap_or (option_map (clamp 1 RESTART_MAX_ATTEMPTS_MAX) (environment ENV_RESTART_MAX_ATTEMPTS ≫= fun value => parse_usize (trim value)))
    DEFAULT_RESTART_MAX_ATTEMPTS.

(** [None] when the file cannot be read. *)
Definition read_attempts (contents : option string) : list N :=
  match contents with
  | Some raw => omap (fun line => parse_u128 (trim line)) (text_lines raw)
  | None => []
  end.

Definition attempts_text (attempts : list N) : string := join guard_line_end (map N_to_string attempts) +:+ guard_line_end.

(** The attempts that count, and what is written: [Err] when the launch is blocked. *)
Definition check_attempts (label : string) (now : N) (contents : option string) : result string RestartGuardError :=
  let window_ms := restart_window_ms in
  let cutoff := (now - window_ms)%N in
  let attempts := List.filter (fun value => (cutoff <=? value)%N && (value <=? now)%N) (read_attempts contents) in
  if (restart_max_attempts <=? len_N attempts)%N then Err (LaunchBlocked label (len_N attempts) window_ms)
  else Ok (attempts_text (attempts ++ [now])).

(** [write path contents] is what the write of the file answers. *)
Definition check_and_record (path label : string) (now : N) (contents : option string) (write : string -> result unit string)
    : result unit RestartGuardError :=
  payload ←? check_attempts label now contents ;;
  map_err (WriteFailed path) (write payload).

(** [clear] removes the file. *)
Definition clear (contents : option string) : option string := None.

(** ** Starts and stops

    What src/serve.rs does with the guard.  [left_behind]: the state of an earlier runtime is
    there and that runtime does not answer; then the guard is cleared before it is asked. *)

Inductive GuardEvent :=
| Started (now : N) (left_behind : bool)
| Stopped.

Definition clears (e : GuardEvent) : bool := match e with Started _ left_behind => left_behind | Stopped => true end.

(** The file after a start, and whether it was let through. *)
Definition start (contents : option string) (now : N) : option string * bool :=
  match check_attempts "serve" now contents with
  | Ok payload => (Some payload, true)
  | Err _ => (contents, false)
  end.

(** The starts that were let through, each with the number of times the guard had been
    cleared before it. *)
Fixpoint launches (contents : option string) (cleared : nat) (events : list GuardEvent) : list (nat * N) :=
  match events with
  | [] => []
  | e :: events =>
      let '(contents, cleared) := if clears e then (clear contents, S cleared) else (contents, cleared) in
      match e with
      | Stopped => launches contents cleared events
      | Started now _ =>
          let '(contents, ok) := start contents now in
          if ok then (cleared, now) :: launches contents cleared events else launches contents cleared events
      end
  end.

(** The times at which starts were tried. *)
Definition times_of (events : list GuardEvent) : list N :=
  omap (fun e => match e with Started now _ => Some now | Stopped => None end) events.

(** *** The file is read as it was written *)

Lemma number_line n : contains_char LF (N_to_string n) = false /\ strip_cr (N_to_string n) = N_to_string n /\ trim (N_to_string n) = N_to_string n.
Proof.
  pose proof (N_to_string_all_digits n) as Hd.
  assert (Hv : all_bytes visible (N_to_string n) = true).
  { eapply all_bytes_impl; [|exact Hd]. intros c. unfold is_ascii_digit, visible, in_range. intros H.
    repeat (bool_prop; destruct_or?). apply andb_true_iff. split; apply N.leb_le; lia. }
  assert (Hc : forall c, c ∈ bytes (N_to_string n) -> visible c = true).
  { intros c Hc. unfold all_bytes in Hv. rewrite forallb_forall in Hv. apply Hv. by apply list_elem_of_In. }
  repeat split; [| |by apply trim_visible_text].
  - apply not_true_is_false. unfold contains_char. rewrite existsb_exists. intros (c & Hin & Heq%Ascii.eqb_eq). subst c.
    apply list_elem_of_In, Hc in Hin. by vm_compute in Hin.
  - unfold strip_cr. destruct (rev (bytes (N_to_string n))) as [|c front] eqn:E; [done|].
    destruct (Ascii.eqb_spec c CR) as [-> |]; [|done]. exfalso.
    assert (Hin : CR ∈ bytes (N_to_string n)) by (apply list_elem_of_In, in_rev; rewrite E; by left).
    apply Hc in Hin. by vm_compute in Hin.
Qed.

Lemma text_lines_loop_numbers l : text_lines_loop (map N_to_string l ++ [EmptyString]) = map N_to_string l.
Proof.
  induction l as [|n l IH]; [done|]. cbn [map app]. destruct (map N_to_string l ++ [EmptyString]) as [|x xs] eqn:E; [by destruct l|].
  cbn [text_lines_loop] in *. rewrite IH. by destruct (number_line n) as (_ & -> & _).
Qed.

Lemma read_written_attempts l : l <> [] -> Forall (fun n => (n <= U128_MAX)%N) l -> read_attempts (Some (attempts_text l)) = l.
Proof.
  intros Hne Hl. unfold read_attempts, attempts_text, text_lines.
  assert (E : join guard_line_end (map N_to_string l) +:+ guard_line_end = join guard_line_end (map N_to_string l ++ [EmptyString])).
  { destruct l as [|n l]; [done|]. cbn [map]. rewrite join_app_parts. cbn [join]. f_equal. }
  rewrite E. destruct l as [|n l]; [done|]. change (map N_to_string (n :: l) ++ [EmptyString]) with (N_to_string n :: (map N_to_string l ++ [EmptyString])).
  change guard_line_end with (String LF EmptyString). rewrite split_char_join.
  2: { constructor; [apply number_line|]. apply Forall_app. split; [|by repeat constructor]. apply Forall_fmap, Forall_true. intros m. apply number_line. }
  change (N_to_string n :: map N_to_string l ++ [EmptyString]) with (map N_to_string (n :: l) ++ [EmptyString]).
  rewrite text_lines_loop_numbers. clear E Hne. induction Hl as [|x xs Hx _ IH]; [done|]. cbn [map omap list_omap].
  destruct (number_line x) as (_ & _ & ->). unfold parse_u128. rewrite parse_unsigned_N_to_string by done. by f_equal.
Qed.

(** *** The starts in a window *)

Definition since (cutoff : N) (times : list N) : list N := List.filter (fun t => (cutoff <=? t)%N) times.

Lemma sublist_filter {A} (p : A -> bool) l k : sublist l k -> sublist (List.filter p l) (List.filter p k).
Proof.
  induction 1 as [|x l k _ IH|x l k _ IH]; cbn [List.filter]; [constructor|..]; destruct (p x); try done; by constructor.
Qed.

Lemma filter_filter_weaker {A} (p q : A -> bool) l :
  Forall (fun x => p x = true -> q x = true) l -> List.filter p (List.filter q l) = List.filter p l.
Proof.
  induction 1 as [|x l Hx _ IH]; [done|]. cbn [List.filter]. destruct (q x) eqn:Eq; cbn [List.filter].
  - destruct (p x); by rewrite IH.
  - destruct (p x) eqn:Ep; [discriminate (Hx eq_refl)|done].
Qed.

Lemma filter_ext_Forall {A} (p q : A -> bool) l : Forall (fun x => p x = q x) l -> List.filter p l = List.filter q l.
Proof. induction 1 as [|x l Hx _ IH]; [done|]. cbn [List.filter]. by rewrite Hx, IH. Qed.

(** What the file holds of the past starts at time [now]. *)
Record recorded (past : list N) (now : N) (contents : option string) : Prop := {
  recorded_past : Forall (fun t => (t <= now)%N) past;
  recorded_now : (now <= U128_MAX)%N;
  recorded_all : sublist (since (now - restart_window_ms) past) (read_attempts contents)
}.

Definition counted (contents : option string) (now : N) : list N :=
  List.filter (fun value => (now - restart_window_ms <=? value)%N && (value <=? now)%N) (read_attempts contents).

(** Every start of the window is counted. *)
Lemma counted_past past t now contents :
  recorded past t contents -> (t <= now)%N -> sublist (since (now - restart_window_ms) past) (counted contents now).
Proof.
  intros [Hp _ Hr] Ht. set (in_window := fun value => (now - restart_window_ms <=? value)%N && (value <=? now)%N).
  apply (sublist_filter in_window) in Hr.
  replace (since (now - restart_window_ms) past) with (List.filter in_window (since (t - restart_window_ms) past)); [done|].
  unfold since. rewrite filter_filter_weaker.
  - apply filter_ext_Forall. eapply Forall_impl; [exact Hp|]. intros x Hx. unfold in_window. cbn beta in *.
    by rewrite (proj2 (N.leb_le x now)), andb_true_r by lia.
  - apply Forall_true. intros x. unfold in_window. rewrite andb_true_iff, !N.leb_le. lia.
Qed.

Lemma start_recorded past t now contents :
  recorded past t contents -> (t <= now)%N -> (now <= U128_MAX)%N ->
  let '(contents', ok) := start contents now in
  if ok then recorded (past ++ [now]) now contents' /\ (len_N (since (now - restart_window_ms) past) < restart_max_attempts)%N
  else recorded past now contents'.
Proof.
  intros Hr Ht Hn. pose proof (counted_past past t now contents Hr Ht) as Hc. unfold start, check_attempts. fold (counted contents now).
  assert (Hp : Forall (fun t => (t <= now)%N) past) by (eapply Forall_impl; [exact (recorded_past _ _ _ Hr)|]; cbn beta; lia).
  destruct (N.leb_spec restart_max_attempts (len_N (counted contents now))) as [Hm|Hm].
  - split; [done|done|]. etransitivity; [exact Hc|]. clear. unfold counted. induction (read_attempts contents) as [|x l IH]; [done|]. cbn [List.filter].
    destruct (_ && _); by constructor.
  - split.
    + split; [apply Forall_app; split; [done|by repeat constructor]|done|]. rewrite read_written_attempts.
      * unfold since. rewrite List.filter_app. cbn [List.filter]. rewrite (proj2 (N.leb_le _ _)) by lia. by apply sublist_app.
      * by destruct (counted contents now).
      * apply Forall_app. split; [|by repeat constructor]. apply Forall_forall. intros x Hx%list_elem_of_In%filter_In.
        destruct Hx as [_ [_ Hx%N.leb_le]%andb_true_iff]. lia.
    + apply sublist_length in Hc. unfold len_N in *. lia.
Qed.

(** The launches since the guard was last cleared. *)
Definition current (cleared : nat) (l : list (nat * N)) : list N :=
  map snd (List.filter (fun p => Nat.eqb (fst p) cleared) l).

Lemma current_app c l k : current c (l ++ k) = current c l ++ current c k.
Proof. unfold current. by rewrite List.filter_app, map_app. Qed.

Lemma current_older c l : Forall (fun p => (fst p < c)%nat) l -> current c l = [].
Proof.
  induction 1 as [|p l Hp _ IH]; [done|]. unfold current in *. cbn [List.filter].
  destruct (Nat.eqb_spec (fst p) c); [lia|exact IH].
Qed.

(** Clearing the guard: nothing of the past counts. *)
Lemma recorded_cleared t : (t <= U128_MAX)%N -> recorded [] t None.
Proof. intros Ht. split; [constructor|done|constructor]. Qed.

(** Every launch comes after fewer than the limit of launches in its window, those since the
    guard was last cleared being counted. *)
Lemma launches_spaced events past t contents c before now c' after :
  recorded (current c past) t contents -> Forall (fun p => (fst p <= c)%nat) past ->
  StronglySorted N.le (t :: times_of events) -> Forall (fun n => (n <= U128_MAX)%N) (times_of events) ->
  past ++ launches contents c events = before ++ (c', now) :: after -> (length past <= length before)%nat ->
  (len_N (since (now - restart_window_ms) (current c' before)) < restart_max_attempts)%N.
Proof.
  revert past t contents c. induction events as [|e events IH]; intros past t contents c Hr Hp Hs Hb; cbn [launches].
  { rewrite app_nil_r. intros -> Hl. rewrite length_app in Hl. cbn in Hl. lia. }
  assert (Hclear : exists contents1 c1, (if clears e then (clear contents, S c) else (contents, c)) = (contents1, c1)
    /\ recorded (current c1 past) t contents1 /\ Forall (fun p => (fst p <= c1)%nat) past).
  { destruct (clears e).
    - exists None, (S c). split; [done|]. split; [|eapply Forall_impl; [exact Hp|]; cbn beta; lia].
      rewrite current_older by (eapply Forall_impl; [exact Hp|]; cbn beta; lia). apply recorded_cleared, (recorded_now _ _ _ Hr).
    - by exists contents, c. }
  destruct Hclear as (contents1 & c1 & -> & Hr1 & Hp1). destruct e as [n left_behind|]; [|by apply IH with (t := t)].
  cbn [times_of omap list_omap] in Hs, Hb. apply Forall_cons in Hb as [Hn Hb]. apply StronglySorted_inv in Hs as [Hs Hle].
  apply Forall_cons in Hle as [Htn _]. fold (times_of events) in Hs, Hb.
  pose proof (start_recorded _ t n contents1 Hr1 Htn Hn) as Hst. destruct (start contents1 n) as [contents' [] ].
  - destruct Hst as [Hr' Hw]. intros E Hl. destruct (decide (length past = length before)) as [El|El].
    + apply app_inj_1 in E as [-> [= -> -> _] ]; [|done]. done.
    + eapply (IH (past ++ [(c1, n)]) n contents' c1); [| |done|done|by rewrite <- app_assoc|rewrite length_app; cbn; lia].
      * rewrite current_app. unfold current at 2. cbn [List.filter fst map snd]. by rewrite Nat.eqb_refl.
      * apply Forall_app. split; [done|]. by repeat constructor.
  - intros E Hl. by eapply (IH past n contents' c1).
Qed.

(** Launches come in the order of their times, and the guard is cleared ever more often. *)
Lemma launches_sorted contents c events t :
  StronglySorted N.le (t :: times_of events) ->
  Forall (fun p => (c <= fst p)%nat /\ (t <= snd p)%N) (launches contents c events)
  /\ StronglySorted (fun p q => (fst p <= fst q)%nat /\ (snd p <= snd q)%N) (launches contents c events).
Proof.
  revert contents c t. induction events as [|e events IH]; intros contents c t Hs; cbn [launches]; [by repeat constructor|].
  assert (Hclear : exists contents1 c1, (if clears e then (clear contents, S c) else (contents, c)) = (contents1, c1) /\ (c <= c1)%nat).
  { destruct (clears e); eexists _, _; (split; [reflexivity|lia]). }
  destruct Hclear as (contents1 & c1 & -> & Hc). destruct e as [n left_behind|].
  - cbn [times_of omap list_omap] in Hs. apply StronglySorted_inv in Hs as [Hs Hle]. apply Forall_cons in Hle as [Htn _].
    fold (times_of events) in Hs. destruct (start contents1 n) as [c2 ok]. destruct (IH c2 c1 n Hs) as [Hf Hss].
    assert (Hf' : Forall (fun p => (c <= fst p)%nat /\ (t <= snd p)%N) (launches c2 c1 events)).
    { eapply Forall_impl; [exact Hf|]. cbn beta. lia. }
    destruct ok; [|done]. split; [by constructor|]. by constructor.
  - destruct (IH contents1 c1 t Hs) as [Hf Hss]. split; [|done]. eapply Forall_impl; [exact Hf|]. cbn beta. lia.
Qed.

(** Between two launches after equally many clearings, all are after as many. *)
Lemma current_between (l : list (nat * N)) i m c first last :
  StronglySorted (fun p q => (fst p <= fst q)%nat /\ (snd p <= snd q)%N) l ->
  l !! i = Some (c, first) -> l !! (i + m) = Some (c, last) ->
  (N.of_nat m <= len_N (since first (current c (take (i + m) l))))%N.
Proof.
  intros Hs Hi Hl.
  assert (Hlt : (i + m < length l)%nat) by (by eapply lookup_lt_Some).
  assert (Hmid : forall j p, (i <= j <= i + m)%nat -> l !! j = Some p -> fst p = c /\ (first <= snd p)%N).
  { intros j p Hj Hp. assert (Hord : forall a b x y, (a < b)%nat -> l !! a = Some x -> l !! b = Some y -> (fst x <= fst y)%nat /\ (snd x <= snd y)%N).
    { intros a b x y Hab Hx Hy. apply (StronglySorted_app_1_elem_of (fun p q => (fst p <= fst q)%nat /\ (snd p <= snd q)%N) (take (S a) l) (drop (S a) l)); [by rewrite take_drop| |].
      - apply elem_of_take. exists a. split; [done|lia].
      - apply list_elem_of_lookup. exists (b - S a)%nat. rewrite lookup_drop. by replace (S a + (b - S a))%nat with b by lia. }
    destruct (decide (j = i)) as [-> |Hji]; [rewrite Hi in Hp; injection Hp as <-; cbn; split; [done|lia]|].
    destruct (Hord i j _ _ ltac:(lia) Hi Hp) as [H1 H2]. cbn in H1, H2. split; [|done].
    destruct (decide (j = i + m)%nat) as [-> |Hjm]; [rewrite Hl in Hp; by injection Hp as <-|].
    destruct (Hord j (i + m)%nat _ _ ltac:(lia) Hp Hl) as [H3 _]. cbn in H3. lia. }
  rewrite <- (take_drop i (take (i + m) l)), current_app. unfold since. rewrite List.filter_app, len_N_app.
  set (rest := drop i (take (i + m) l)). assert (Hrest : len_N (List.filter (fun t => (first <=? t)%N) (current c rest)) = len_N rest).
  { assert (Hall : Forall (fun p => fst p = c /\ (first <= snd p)%N) rest).
    { apply Forall_forall. intros p [j Hj]%list_elem_of_lookup. unfold rest in Hj. rewrite lookup_drop in Hj.
      apply lookup_take_Some in Hj as [Hj Hlt']. eapply (Hmid (i + j)%nat); [lia|done]. }
    clearbody rest. unfold current, len_N. induction Hall as [|p l' [Hc Hf] _ IH]; [done|]. cbn [List.filter].
    rewrite Hc, Nat.eqb_refl. cbn [map List.filter]. rewrite (proj2 (N.leb_le _ _) Hf). cbn [length]. lia. }
  rewrite Hrest. unfold len_N at 2, rest. rewrite length_drop, length_take. lia.
Qed.

(** C38: of any [restart_max_attempts] + 1 starts that are let through in a row with the guard not
    cleared between the first and the last of them, the last comes more than the window after
    the first, whatever the file held before, as long as the clock does not go back.  The
    guard is cleared by a stop, and by a start that finds the state of an earlier runtime
    that does not answer. *)
Theorem restarts_are_bounded contents cleared events i c first last :
  StronglySorted N.le (times_of events) -> Forall (fun n => (n <= U128_MAX)%N) (times_of events) ->
  launches contents cleared events !! i = Some (c, first) ->
  launches contents cleared events !! (i + N.to_nat restart_max_attempts) = Some (c, last) ->
  (first + restart_window_ms < last)%N.
Proof.
  intros Hs Hb Hf Hl. set (m := N.to_nat restart_max_attempts) in *.
  assert (Hs0 : StronglySorted N.le (0%N :: times_of events)) by (constructor; [done|]; apply Forall_true; intros x; apply N.le_0_l).
  destruct (launches_sorted contents cleared events 0 Hs0) as [Hc Hls].
  set (l := launches contents cleared events) in *. destruct (decide (last - restart_window_ms <= first)%N) as [Hw|Hw]; [|lia]. exfalso.
  pose proof (take_drop_middle l (i + m) (c, last) Hl) as E. pose proof (current_between l i m c first last Hls Hf Hl) as Hge.
  assert (Hmono : (len_N (since first (current c (take (i + m) l))) <= len_N (since (last - restart_window_ms) (current c (take (i + m) l))))%N).
  { unfold since, len_N. clear -Hw. induction (current c (take (i + m) l)) as [|x xs IH]; [done|]. cbn [List.filter].
    destruct (N.leb_spec first x), (N.leb_spec (last - restart_window_ms) x); cbn [length]; lia. }
  assert (Hlt : (len_N (since (last - restart_window_ms) (current c (take (i + m) l))) < restart_max_attempts)%N).
  { eapply (launches_spaced events [] 0 contents cleared (take (i + m) l) last c (drop (S (i + m)) l)); [|constructor|exact Hs0|exact Hb|symmetry; exact E|cbn; lia].
    split; [constructor|done|]. apply sublist_nil_l. }
  unfold m in *. lia.
Qed.

(** ** What the code does not mean to do *)

Lemma restart_max_attempts_positive : (0 < restart_max_attempts)%N.
Proof.
  unfold restart_max_attempts. destruct (environment ENV_RESTART_MAX_ATTEMPTS ≫= _) as [v|]; cbn; [|done].
  pose proof (clamp_bounds 1 RESTART_MAX_ATTEMPTS_MAX v). unfold RESTART_MAX_ATTEMPTS_MAX in *. lia.
Qed.

(** A runtime that dies and leaves its state behind is started again as often as it is
    tried: each start clears the guard before it asks it. *)
Lemma crash_loop_is_not_bounded contents cleared times :
  map snd (launches contents cleared (map (fun now => Started now true) times)) = times.
Proof.
  revert contents cleared. induction times as [|now times IH]; intros contents cleared; [done|]. cbn [map launches clears].
  assert (Hs : exists contents', start (clear contents) now = (contents', true)).
  { unfold start, check_attempts. change (List.filter _ (read_attempts (clear contents))) with (@nil N). change (len_N []) with 0%N.
    pose proof restart_max_attempts_positive. destruct (N.leb_spec restart_max_attempts 0); [lia|]. eauto. }
  destruct Hs as [contents' ->]. cbn [map snd]. f_equal. apply IH.
Qed.
End guard.

(** ** Witness *)

(** Five starts, one that is refused, and one after the window. *)
Definition sample_starts : list GuardEvent :=
  [Started 5 false; Stopped; Started 10 false; Started 20 false; Started 30 false; Started 40 false; Started 50 false;
   Started 60 false; Started 120021 false].

Lemma restarts_are_bounded_witness :
  launches (fun _ => None) None 0 sample_starts
  = [(0%nat, 5%N); (1%nat, 10%N); (1%nat, 20%N); (1%nat, 30%N); (1%nat, 40%N); (1%nat, 50%N); (1%nat, 120021%N)] /\ (10 + 120000 < 120021)%N.
Proof.
  split; [vm_compute; reflexivity|].
  apply (restarts_are_bounded (fun _ => None) None 0 sample_starts 1 1 10 120021).
  - repeat constructor; done.
  - repeat constructor; done.
  - vm_compute. reflexivity.
  - vm_compute. reflexivity.
Defined.
