(* ===== verification/Telemetry.v ===== *)
(** * Telemetry of the local server (src/dashboard/latency.rs, src/dashboard/trace.rs)

    The server keeps the latest requests and operations it handled and reports how long they
    took.  Both trackers are the same bounded queue, here [Tracker], over their own kind of
    observation; durations are their microseconds. *)

From stdpp Require Import sorting.
From S2P Require Import Prelude RustStr BTree Json.

(** ** The queue *)

Record Tracker (A : Type) := mkTracker {
  sample_limit : N;
  recorded_total : N;
  observations : list A
}.
Arguments mkTracker {A} _ _ _.
Arguments sample_limit {A} _.
Arguments recorded_total {A} _.
Arguments observations {A} _.

Definition record {A} (observation : A) (t : Tracker A) : Tracker A :=
  mkTracker (sample_limit t) (sat_add U64_MAX (recorded_total t) 1)
    ((if (sample_limit t <=? len_N (observations t))%N then tail (observations t) else observations t) ++ [observation]).

Definition new_tracker {A} (limit : N) : Tracker A := mkTracker limit 0 [].

(** ** Durations *)

Definition micros_to_millis (micros : N) : string :=
  let fraction := N_to_string (micros mod 1000) in
  N_to_string (micros / 1000) +:+ "." +:+ String.concat EmptyString (repeat "0" (3 - String.length fraction)) +:+ fraction.

Definition json_millis (micros : N) : JsonValue := JNumber (micros_to_millis micros).

Definition percentile_micros (sorted_values : list N) (percentile : N) : N :=
  match sorted_values with
  | [] => 0
  | _ =>
      let len := len_N sorted_values in
      let rank := (sat_add USIZE_MAX (sat_mul USIZE_MAX len percentile) 99 / 100)%N in
      let index := N.min (rank - 1) (len - 1) in
      nth (N.to_nat index) sorted_values 0%N
  end.

Definition duration_distribution_json (durations : list N) : JsonValue :=
  match durations with
  | [] =>
      json_object [("min", json_number 0); ("avg", json_number 0); ("p50", json_number 0); ("p95", json_number 0); ("p99", json_number 0);
                   ("max", json_number 0)]
  | _ =>
      let values := merge_sort N.le durations in
      let sum := fold_right N.add 0%N values in
      json_object
        [("min", json_millis (hd 0%N values)); ("avg", json_millis (sum / len_N values));
         ("p50", json_millis (percentile_micros values 50)); ("p95", json_millis (percentile_micros values 95));
         ("p99", json_millis (percentile_micros values 99)); ("max", json_millis (List.last values 0%N))]
  end.

(** [BTreeMap::entry(..).or_default().push(..)] over all observations. *)
Definition grouped {A} (key : A -> string) (samples : list A) : list (string * list A) :=
  fold_left (fun groups o => bt_insert (key o) (unwrap_or (bt_get (key o) groups) [] ++ [o]) groups) samples [].

(** The summary of a group, with its key. *)
Definition with_key (summary : JsonValue) (name key : string) : JsonValue :=
  match summary with JObject map => JObject (bt_insert name (json_string key) map) | other => other end.

(** The latest [limit], in order. *)
Definition recent {A} (limit : nat) (samples : list A) : list A := rev (firstn limit (rev samples)).

(** ** Requests *)

Definition DEFAULT_RECENT_LATENCY_WINDOW : N := 2048.
Definition RECENT_SAMPLE_EXPORT_LIMIT : nat := 20.

Record RequestLatencyObservation := mkLatency {
  method : string;
  route : string;
  path : string;
  request_body_bytes : N;
  request_header_bytes : N;
  parse_duration : N;
  body_read_duration : N;
  dispatch_duration : N;
  total_duration : N;
  failed : bool
}.

Definition sum_of {A} (f : A -> N) (l : list A) : N := fold_right (fun a n => (f a + n)%N) 0%N l.

Definition latency_summary_json (l : list RequestLatencyObservation) : JsonValue :=
  json_object
    [("count", json_number (len_N l)); ("failed", json_number (len_N (List.filter failed l)));
     ("requestBodyBytesTotal", json_number (sum_of request_body_bytes l));
     ("requestHeaderBytesTotal", json_number (sum_of request_header_bytes l));
     ("totalMs", duration_distribution_json (map total_duration l)); ("parseMs", duration_distribution_json (map parse_duration l));
     ("bodyReadMs", duration_distribution_json (map body_read_duration l));
     ("dispatchMs", duration_distribution_json (map dispatch_duration l))].

Definition observation_json (o : RequestLatencyObservation) : JsonValue :=
  json_object
    [("method", json_string (method o)); ("route", json_string (route o)); ("path", json_string (path o));
     ("requestBodyBytes", json_number (request_body_bytes o)); ("requestHeaderBytes", json_number (request_header_bytes o));
     ("parseMs", json_millis (parse_duration o)); ("bodyReadMs", json_millis (body_read_duration o));
     ("dispatchMs", json_millis (dispatch_duration o)); ("totalMs", json_millis (total_duration o)); ("failed", json_bool (failed o))].

Definition latency_snapshot_json (t : Tracker RequestLatencyObservation) : JsonValue :=
  let samples := observations t in
  json_object
    [("schema", json_string "mcpace.httpLatency.v1"); ("sampleLimit", json_number (sample_limit t));
     ("recordedTotal", json_number (recorded_total t)); ("retainedSamples", json_number (len_N samples));
     ("droppedSamples", json_number (recorded_total t - len_N samples)); ("overall", latency_summary_json samples);
     ("byRoute",
      json_array (map (fun '(key, group) => with_key (latency_summary_json group) "route" key)
                    (grouped (fun o => method o +:+ " " +:+ route o) samples)));
     ("recent", json_array (map observation_json (recent RECENT_SAMPLE_EXPORT_LIMIT samples)));
     ("otelAliases",
      json_object
        [("http.server.request.duration", json_string "runtime.http.latency.byRoute[*].totalMs");
         ("http.server.request.body.size", json_string "runtime.http.latency.byRoute[*].requestBodyBytesTotal");
         ("http.request.header.size", json_string "runtime.http.latency.byRoute[*].requestHeaderBytesTotal")])].

(** ** Operations *)

Definition DEFAULT_RECENT_OPERATION_TRACE_WINDOW : N := 512.
Definition RECENT_OPERATION_TRACE_EXPORT_LIMIT : nat := 25.

Record OperationTraceObservation := mkOperation {
  op_name : string;
  op_route : string;
  op_duration : N;
  op_failed : bool;
  op_attributes : list (string * string)
}.

Definition operation_summary_json (l : list OperationTraceObservation) : JsonValue :=
  json_object
    [("count", json_number (len_N l)); ("failed", json_number (len_N (List.filter op_failed l)));
     ("durationMs", duration_distribution_json (map op_duration l))].

Definition grouped_operation_rows (groups : list (string * list OperationTraceObservation)) (key_name : string) : list JsonValue :=
  map (fun '(key, group) => with_key (operation_summary_json group) key_name key) groups.

Definition operation_observation_json (o : OperationTraceObservation) : JsonValue :=
  json_object
    [("name", json_string (op_name o)); ("route", json_string (op_route o)); ("durationMs", json_millis (op_duration o));
     ("failed", json_bool (op_failed o)); ("attributes", json_object (map (fun '(key, value) => (key, json_string value)) (op_attributes o)))].

Definition operation_snapshot_json (t : Tracker OperationTraceObservation) : JsonValue :=
  let samples := observations t in
  json_object
    [("schema", json_string "mcpace.operationTrace.v1"); ("sampleLimit", json_number (sample_limit t));
     ("recordedTotal", json_number (recorded_total t)); ("retainedSamples", json_number (len_N samples));
     ("droppedSamples", json_number (recorded_total t - len_N samples)); ("overall", operation_summary_json samples);
     ("byName", json_array (grouped_operation_rows (grouped op_name samples) "name"));
     ("byRoute", json_array (grouped_operation_rows (grouped op_route samples) "route"));
     ("recent", json_array (map operation_observation_json (recent RECENT_OPERATION_TRACE_EXPORT_LIMIT samples)))].

(** ** The queue keeps the latest *)

Lemma tail_skipn {A} (n : nat) (l : list A) : tail (skipn n l) = skipn (S n) l.
Proof. revert l. induction n as [|n IH]; intros [|a l]; try done. apply IH. Qed.

Lemma record_latest {A} (l : list A) (o : A) (t : Tracker A) :
  (0 < sample_limit t)%N -> (len_N l < U64_MAX)%N ->
  recorded_total t = len_N l -> observations t = skipn (length l - N.to_nat (sample_limit t)) l ->
  sample_limit (record o t) = sample_limit t /\ recorded_total (record o t) = len_N (l ++ [o])
  /\ observations (record o t) = skipn (length (l ++ [o]) - N.to_nat (sample_limit t)) (l ++ [o]).
Proof.
  intros Hlim Hl Hr Ho. unfold record. cbn [sample_limit recorded_total observations]. rewrite Hr, Ho, len_N_app, length_app.
  cbn [length]. change (len_N [o]) with 1%N. split; [done|]. split; [unfold sat_add; lia|].
  rewrite skipn_app. unfold len_N. rewrite length_skipn.
  replace (length l + 1 - N.to_nat (sample_limit t) - length l) with 0 by lia. cbn [skipn]. f_equal.
  destruct (N.leb_spec (sample_limit t) (N.of_nat (length l - (length l - N.to_nat (sample_limit t))))) as [Hf|Hf].
  - rewrite tail_skipn. f_equal. lia.
  - f_equal. lia.
Qed.

Lemma recorded_latest {A} (limit : N) (l : list A) :
  (0 < limit)%N -> (len_N l <= U64_MAX)%N ->
  let t := fold_left (fun t o => record o t) l (new_tracker limit) in
  sample_limit t = limit /\ recorded_total t = len_N l /\ observations t = skipn (length l - N.to_nat limit) l.
Proof.
  cbn zeta. intros Hlim. induction l as [|o l IH] using rev_ind; intros Hl; [done|].
  rewrite fold_left_app. cbn [fold_left]. rewrite len_N_app in Hl. change (len_N [o]) with 1%N in Hl.
  destruct IH as (Hs & Hr & Ho); [lia|]. set (t := fold_left _ l _) in *.
  destruct (record_latest l o t) as (Hs' & Hr' & Ho'); try rewrite Hs in *; try done; lia.
Qed.

(** Whatever was observed, in any number: the tracker holds exactly the latest observations,
    as many as its limit, in the order they came, and the samples it reports as dropped are
    the ones before them. *)
Theorem tracker_keeps_the_latest {A} (limit : N) (l : list A) :
  (0 < limit)%N -> (len_N l <= U64_MAX)%N ->
  let t := fold_left (fun t o => record o t) l (new_tracker limit) in
  observations t = skipn (length l - N.to_nat limit) l /\ recorded_total t = len_N l
  /\ (recorded_total t - len_N (observations t) = len_N l - limit)%N.
Proof.
  intros Hlim Hl. destruct (recorded_latest limit l Hlim Hl) as (_ & Hr & Ho). cbn zeta.
  rewrite Hr, Ho. repeat split. unfold len_N. rewrite length_skipn. lia.
Qed.

Lemma tracker_keeps_the_latest_witness :
  observations (fold_left (fun t o => record o t) [1; 2; 3; 4; 5]%N (new_tracker 3)) = [3; 4; 5]%N.
Proof. destruct (tracker_keeps_the_latest 3 [1; 2; 3; 4; 5]%N) as (H & _); [done|done|]. exact H. Defined.

(** ** Percentiles *)

Definition at_most (v : N) (l : list N) : N := len_N (List.filter (fun x => (x <=? v)%N) l).
Definition below (v : N) (l : list N) : N := len_N (List.filter (fun x => (x <? v)%N) l).

(** In a sorted list, as many values as its place are at most the value at that place, and no
    more than the places before it are below. *)
Lemma sorted_place (l : list N) (i : nat) (v : N) :
  StronglySorted N.le l -> l !! i = Some v -> (N.of_nat i < at_most v l)%N /\ (below v l <= N.of_nat i)%N.
Proof.
  intros Hs. revert i. induction Hs as [|a l Hs IH Ha]; intros i Hi; [done|].
  unfold at_most, below. cbn [List.filter]. destruct i as [|i]; cbn in Hi.
  - injection Hi as ->. rewrite N.leb_refl, N.ltb_irrefl. split; [unfold len_N; cbn [length]; lia|].
    assert (Hn : List.filter (fun x => (x <? v)%N) l = []).
    { clear -Ha. induction Ha as [|b l Hb _ IH]; [done|]. cbn [List.filter]. destruct (N.ltb_spec b v); [lia|exact IH]. }
    by rewrite Hn.
  - destruct (IH i Hi) as (H1 & H2). unfold at_most in H1. unfold below in H2.
    assert (a <= v)%N by (eapply (proj1 (List.Forall_forall _ _) Ha); apply list_elem_of_In; by eapply list_elem_of_lookup_2).
    destruct (N.leb_spec a v); [|lia]. unfold len_N in *. destruct (N.ltb_spec a v); cbn [length]; split; lia.
Qed.

Lemma filter_length_perm {A} (f : A -> bool) (l1 l2 : list A) :
  l1 ≡ₚ l2 -> len_N (List.filter f l1) = len_N (List.filter f l2).
Proof.
  intros H. unfold len_N. f_equal. induction H as [|a l1 l2 _ IH|a b l|l1 l2 l3 _ IH1 _ IH2]; [done| | |congruence].
  - cbn [List.filter]. destruct (f a); cbn [length]; lia.
  - cbn [List.filter]. by destruct (f a), (f b).
Qed.

Lemma ceil_percent (m : N) : (m <= 100 * ((m + 99) / 100) < m + 100)%N.
Proof.
  pose proof (N.div_mod (m + 99) 100 ltac:(lia)) as Hd. pose proof (N.mod_lt (m + 99) 100 ltac:(lia)) as Hm.
  set (q := ((m + 99) / 100)%N) in *. set (r := ((m + 99) mod 100)%N) in *. clearbody q r. lia.
Qed.

Lemma percentile_index (values : list N) (p : N) :
  (0 < len_N values)%N ->
  percentile_micros values p
  = nth (N.to_nat (N.min (sat_add USIZE_MAX (sat_mul USIZE_MAX (len_N values) p) 99 / 100 - 1) (len_N values - 1))) values 0%N.
Proof. by destruct values. Qed.

Lemma lookup_nth_lt {A} (d : A) (l : list A) (i : nat) : i < length l -> l !! i = Some (nth i l d).
Proof. intros H. destruct (lookup_lt_is_Some_2 l i H) as [x Hx]. rewrite Hx. f_equal. symmetry. by apply nth_lookup_Some with (d := d) in Hx. Qed.

(** The p-th percentile that is reported is one of the durations, and by the nearest-rank
    definition the smallest such: at least p percent of them are no longer than it, and fewer
    than p percent are shorter. *)
Theorem percentile_is_the_nearest_rank (durations : list N) (p : N) :
  durations <> [] -> (0 < p <= 100)%N -> (100 * len_N durations + 99 <= USIZE_MAX)%N ->
  let v := percentile_micros (merge_sort N.le durations) p in
  v ∈ durations
  /\ (p * len_N durations <= 100 * at_most v durations)%N
  /\ (100 * below v durations < p * len_N durations)%N.
Proof.
  intros Hne Hp Hmax. cbn zeta. pose proof (merge_sort_Permutation N.le durations) as Hperm.
  assert (Hsort : StronglySorted N.le (merge_sort N.le durations)) by (apply StronglySorted_merge_sort; [intros x y z; lia|intros x y; lia]).
  assert (Hlen : len_N (merge_sort N.le durations) = len_N durations) by (unfold len_N; by rewrite Hperm).
  set (values := merge_sort N.le durations) in *. set (v := percentile_micros values p).
  assert (Hpos : (0 < len_N durations)%N) by (destruct durations; [done|unfold len_N; cbn [length]; lia]).
  set (rank := ((len_N values * p + 99) / 100)%N).
  assert (Hrank : (len_N durations * p <= 100 * rank < len_N durations * p + 100)%N) by (unfold rank; rewrite Hlen; apply ceil_percent).
  assert (Hnp : (0 < len_N durations * p <= len_N durations * 100)%N) by (split; nia).
  assert (Hr : (1 <= rank <= len_N durations)%N) by lia.
  assert (Hv : values !! N.to_nat (rank - 1) = Some v).
  { assert (Hs : sat_add USIZE_MAX (sat_mul USIZE_MAX (len_N values) p) 99 = (len_N values * p + 99)%N) by (unfold sat_add, sat_mul; nia).
    unfold v. rewrite percentile_index; [|lia]. rewrite Hs. fold rank. rewrite N.min_l by lia.
    apply lookup_nth_lt. unfold len_N in *. lia. }
  destruct (sorted_place values _ v Hsort Hv) as (H1 & H2).
  assert (Ha : at_most v values = at_most v durations) by exact (filter_length_perm _ _ _ Hperm).
  assert (Hb : below v values = below v durations) by exact (filter_length_perm _ _ _ Hperm).
  split; [rewrite <- Hperm; by eapply list_elem_of_lookup_2|]. split; lia.
Qed.

Lemma percentile_is_the_nearest_rank_witness :
  let v := percentile_micros (merge_sort N.le [700; 20; 300; 20]%N) 50 in
  v ∈ [700; 20; 300; 20]%N /\ (100 * below v [700; 20; 300; 20] < 50 * 4)%N.
Proof.
  destruct (percentile_is_the_nearest_rank [700; 20; 300; 20]%N 50) as (H1 & _ & H2); [done|lia|vm_compute; discriminate|].
  split; [exact H1|exact H2].
Defined.

(** ** Groups *)

(** The samples with a key. *)
Definition with_the_key {A} (key : A -> string) (k : string) (samples : list A) : list A :=
  List.filter (fun o => String.eqb (key o) k) samples.

(** The report by route or by name is a partition of the samples: its rows are in the order of
    their keys, each key that was observed has one, holding every sample with that key in the
    order they came, and no other key has a row. *)
Theorem groups_partition_the_samples {A} (key : A -> string) (samples : list A) :
  bt_wf (grouped key samples)
  /\ forall k, bt_get k (grouped key samples)
               = match with_the_key key k samples with [] => None | group => Some group end.
Proof.
  induction samples as [|o samples IH] using rev_ind.
  { split; [apply bt_nil_wf|done]. }
  unfold grouped. rewrite fold_left_app. cbn [fold_left]. fold (grouped key samples). destruct IH as (Hwf & Hget).
  split; [by apply bt_insert_wf|]. intros k. unfold with_the_key. rewrite List.filter_app. cbn [List.filter].
  fold (with_the_key key k samples). destruct (String.eqb_spec (key o) k) as [<-|Hk].
  - rewrite bt_get_insert_eq, Hget. by destruct (with_the_key key (key o) samples).
  - rewrite bt_get_insert_ne, Hget by done. by rewrite app_nil_r.
Qed.
